(* ===== verification/_CoqProject ===== *)
-Q . S2P
Prelude.v
BaseLib.v
ChunkGen.v
Trie.v
X86Tlb.v
X86Isa.v
Packet.v
Functional.v
PacketQueue.v
PageWalker.v
GuestAddr.v
AddrMapper.v
PhysMem.v
PortProxy.v
BlobWriter.v
IntelMP.v
SmBios.v
GuestMemory.v
DmaPort.v
DmaDevice.v
GuestDma.v
DomainWalk.v
LDomain.v
DomainBoot.v
ControlPlane.v
CPNet.v
DramCtrl.v
CacheBlk.v
CacheSet.v
LruTags.v
Mshr.v
MshrQueue.v
Bridge.v
CacheCtrl.v
CacheFrame.v
CacheAtomic.v
CacheSnoop.v
CacheTiming.v
CacheBlocking.v
CachePorts.v
CacheFunctional.v
IoApic.v
GlobalManager.v
