(* ===== verification/Prelude.v ===== *)
(** * PARDg5-V: a verification of the multi-domain memory system and its control planes

    PARDg5-V simulates a server whose hardware is shared by several logical
    domains (guests).  It is a set of C++ simulation objects under
    [src/pardg5-v/hyper], built into the gem5 fork of [src/gem5-pard].  Every
    memory packet carries a QoS tag with its domain; shared resources keep one
    table row per domain (a "control plane"), which a global manager programs.

    ** Parts of the program and how they interact

    A global manager ([arch/glomgr]) takes requests over a socket: it sets and
    queries managed resources and creates, starts and stops logical domains
    ([arch/PARDg5VLDomain], [arch/system]).  Starting a domain writes its kernel,
    page tables and BIOS tables ([arch/x86/bios] of gem5) through a port proxy
    tagged with the domain, and puts the registers of a thread into long mode
    ([arch/x86/isa.cc]).  The thread translates its addresses through an x86 TLB
    ([arch/x86/tlb.cc], over the trie of [base/trie.hh]) that a page walker
    ([arch/x86/pagetable_walker.cc]) fills from the tables of the thread's own
    domain.  Its packets ([mem/packet.hh]) go to the shared cache ([mem/cache]),
    which looks up lines by domain and block address, picks victims within the
    ways the domain may use, keeps misses in queues of miss status registers and
    sends through packet queues.  An address mapper ([mem/addr_mapper]) replaces
    the domain's addresses by machine addresses with the logical-domain TLB
    ([base/ldom_addr.hh], [base/guest_addr_range.hh]) before a packet reaches
    memory, and restores them in responses.  Bridges ([mem/bridge]) connect
    buses.  Devices move data by DMA on behalf of a domain ([dev/dma_device]) and
    interrupt it through the I/O APIC ([dev/pardg5v/i82094aap5v]), which keeps
    one redirection table per domain.  The DRAM controller and the cache are
    managed resources ([base/ControlPlane.hh]): their parameter, statistics and
    trigger tables are also reached through an adaptor and connectors
    ([gm/CPAdaptor], [gm/CPConnector]).

    ** Files

    Base:
    - [Prelude]: the error monad for [assert], [panic], array bounds and the like,
      machine integers, byte sequences, record updates, shared lemmas and tactics.
    - [BaseLib]: gem5's [base/bitfield.hh], [base/intmath.hh], [sim/drain.hh].
    - [ChunkGen]: [base/chunk_generator.hh] and the loop over line-sized chunks.
    - [Trie]: the prefix trie of [base/trie.hh].
    - [Packet]: commands and their attribute table, requests, packets, flags,
      sender states, responses, domain tags; [Functional]: [checkFunctional].
    - [PacketQueue]: the queue of packets of a port.

    A thread and its address space:
    - [X86Tlb]: the TLB; [X86Isa]: the control registers and their effects.
    - [PageWalker]: the walker in every paging mode, atomic, functional, timing.
    - [DomainWalk]: walks over the memory of a domain against a reference.

    Memory of the domains:
    - [GuestAddr]: guest address ranges and the logical-domain TLB.
    - [AddrMapper]: the packet paths of the address mapper; peers are arguments.
    - [PhysMem]: physical memory with load-locked addresses.
    - [PortProxy]: blobs in line-sized functional requests; [BlobWriter]: code
      that only writes through a proxy, and what its writes leave.
    - [GuestMemory]: mapper and memory composed, one memory per domain.
    - [DmaPort], [DmaDevice], [GuestDma]: DMA actions, the sector cipher, and DMA
      over mapper and memory.

    Domains and their manager:
    - [IntelMP], [SmBios]: the BIOS tables as bytes in memory.
    - [LDomain]: loading, boot and construction of a domain, the system's list.
    - [DomainBoot]: what creation and boot leave.
    - [GlobalManager]: the socket protocol and its commands.

    Control planes:
    - [ControlPlane]: statistics and trigger tables of a managed resource.
    - [CPNet]: register file and command interpreter of the connector, the
      adaptor; resources are the class [ManagedResource], what a resource promises
      is the class [ResourceRegisters], what the network promises [RoutesTo].
    - [DramCtrl]: the DRAM controller's control plane, an instance of both.

    Cache, bus, interrupts:
    - [CacheBlk], [CacheSet], [LruTags]: lines with load-locked tracking, the
      recency order of a set, the way-partitioned tag store.
    - [Mshr], [MshrQueue]: miss status registers and the queue of them.
    - [Bridge]: a bridge and its step relation.
    - [CacheCtrl], [CacheFrame], [CacheAtomic], [CacheSnoop]: the data path, atomic
      mode and snoops of the cache controller, and what they guarantee.
    - [CacheTiming], [CacheBlocking], [CachePorts], [CacheFunctional]: timing mode,
      back pressure, the packet queues of its ports, functional accesses.
    - [IoApic]: registers, interrupt delivery and pins of the I/O APIC.

    Interfaces between components are classes whose laws the client is proved
    against and the implementation discharges: [FuncMemory] (proxy and memory),
    [AtomicMemory] and [KeepsPacket] (DMA, walker and memory), [ResourceRegisters]
    and [RoutesTo] (control-plane network), [TextResource] (global manager).

    ** How the code is represented

    Integers are [Z] kept at their width by [wrap] (unsigned) and [swrap]; bit
    operations are those of [Z].  A vector or array is a list, with
    [at_]/[upd_at] for [operator[]]: an index out of range is the fault
    [OutOfBounds], never a default.  Objects that alias (cache blocks in a set,
    registers in the miss queue, registers reached through sender states) live
    in a store indexed by number and are referred to by index.  Operations take
    the state and return [result] of the new state; a peer on the other side of
    a port is a function or an acceptance bit given as argument; a socket is the
    bytes received and sent.  Debug prints, warnings and statistics that nothing
    reads are left out.

    ** What the theorems show

    - Isolation between domains: translation never lets two domains reach the
      same machine address ([GuestAddr.remapAddr_isolation]); behind the mapper
      proxies, devices and caches of one domain neither see nor change bytes of
      another ([GuestMemory.domain_memory_isolated], [GuestDma.dma_domain_isolated],
      [CacheAtomic.cache_domain_isolation]); fills leave the lines in other
      domains' ways alone ([LruTags.partition_isolation]); atomic and timing page
      walks and boots stay in their domain ([PageWalker.walk_in_domain],
      [DomainBoot.boot_identity_map]); no operation of other guests changes the
      registers of a guest in the I/O APIC, and what the guests do share there,
      the rotation of lowest priority and the pin states, is said exactly
      ([IoApic.ioapic_isolation]); and where isolation fails
      ([DramCtrl.dram_set_crosses_domains], [IoApic.shared_pin_suppresses],
      [PageWalker.setupWalk_untagged], [GuestDma.reservation_crosses_domains]).
    - Refinement and equivalence: the cache over memory is a memory per domain
      ([CacheAtomic.cache_refines_memory], [CacheFunctional.functional_access_view]);
      the tag store is a map ([LruTags.fill_lookup]), the trie a map from prefixes
      ([Trie.trie_prefix_map]); programming through adaptor and connector writes
      the abstract parameter table ([CPNet.program_roundtrip]); a walk computes
      the translation that the tables define ([DomainWalk.long_walk_translates]).
    - End to end: a start request over the socket boots exactly the named domain
      ([GlobalManager.startup_boots]); a way mask set over the socket is the one in
      force and read back ([GlobalManager.way_mask_programmed]); after a boot every
      address below 4 GB translates to itself ([DomainBoot.boot_identity_map]).
    - Invariants by induction over operation sequences: tag store, miss queue,
      bridge, TLB, DMA port, packet queues, blocking of the cache, global manager;
      they include that the asserts cannot fail.
    - Functional behaviour with errors: when a trigger counts and notifies,
      victims, load-locked at the cache block and at the memory (where swaps are
      not seen by reservations, [PhysMem.swap_keeps_reservation]), snoops against
      pending misses, interrupt delivery, BIOS tables with their contents and
      checksums, accepted and refused register writes, refused packets, malformed
      requests ([GlobalManager.request_errors]).
    - Termination and liveness: page walks, miss queues, refused requesters are
      owed a retry, ready requests are scheduled, DMA completes.

    ** Bounds

    Recursion that is not structural carries fuel that is shown to be enough:
    chains of miss registers ([Mshr.clear_pending]: marks plus one, each visit
    clears a mark); chunks of a region ([ChunkGen.for_chunks]: the size, each
    chunk has a byte); the bandwidth loop of the DMA port; a leg of the trie
    ([Trie.walk_leg]: 65, each round drops a bit of a 64-bit mask); page walks
    ([PageWalker.walk_depth]: 4 levels); receiving a packet
    ([GlobalManager.recv_loop]: the bytes left plus one, each round reads a start
    byte); digits of a 64-bit number.

    ** Not modelled

    The fully associative tags, the checks of segments and rights around the x86
    TLB ([TLB::translate]), the queue of pending page walks, the DRAM timing
    model of gem5, the timer, UART, terminal, IDE and PCI devices and the Ethernet
    tap (devices over host I/O or large register sets that share the DMA and
    interrupt paths modelled here), guest-system parameter objects,
    checkpointing, statistics output, Python configuration, and the rest of gem5
    (instruction sets, processors, the event queue), which the modelled objects
    only use.  Of the event queue, the packet queues model that an event is not
    put into the past; for the DMA port this follows while 64-bit ticks do not
    wrap ([DmaPort.completion_not_past]).  Symbol tables of a kernel and the
    answers of local APICs to messages are outside the model. *)

From Stdlib Require Export ZArith Lia Bool Btauto.
From stdpp Require Export base tactics numbers option list gmap sorting strings relations.

(** ** Faults and the error monad

    [assert], [panic], [fatal], an access outside an array or vector, a shift
    by at least the width of the operand and a division by zero all stop the modelled code:
    an operation returns [Err] with the reason, and the state after it does not
    exist.  [OutOfFuel] is no fault of the code: it marks the bound of a loop or
    recursion of the model, and the operations that carry a bound are proved
    never to return it. *)

Inductive fault : Type :=
| AssertFail
| PanicCalled
| FatalCalled
| OutOfBounds
| BadShift
| DivByZero
| NullDeref
| OutOfFuel.

#[export] Instance fault_eq_dec : EqDecision fault.
Proof. solve_decision. Defined.

Inductive result (A : Type) : Type :=
| Ok (a : A)
| Err (f : fault).
Arguments Ok {A} a.
Arguments Err {A} f.

#[export] Instance result_eq_dec {A} `{EqDecision A} : EqDecision (result A).
Proof. solve_decision. Defined.

#[export] Instance result_ret : MRet result := @Ok.
#[export] Instance result_bind : MBind result := λ A B f m,
  match m with Ok a => f a | Err e => Err e end.
#[export] Instance result_fmap : FMap result := λ A B f m,
  match m with Ok a => Ok (f a) | Err e => Err e end.

(** [assert(b)] and the guards in front of [panic] and [fatal]. *)
Definition assertb (b : bool) : result unit := if b then Ok tt else Err AssertFail.
Definition panic_if (b : bool) : result unit := if b then Err PanicCalled else Ok tt.
Definition fatal_if (b : bool) : result unit := if b then Err FatalCalled else Ok tt.

(** Indexing a C array or a [std::vector] with [operator[]]. *)
Definition at_ {A} (l : list A) (i : Z) : result A :=
  if decide (0 ≤ i)%Z
  then match l !! Z.to_nat i with Some a => Ok a | None => Err OutOfBounds end
  else Err OutOfBounds.

Definition upd_at {A} (l : list A) (i : Z) (a : A) : result (list A) :=
  if decide (0 ≤ i < Z.of_nat (length l))%Z
  then Ok (<[Z.to_nat i := a]> l) else Err OutOfBounds.

Definition is_ok {A} (m : result A) : Prop := ∃ a, m = Ok a.

(** A loop over a list that threads a state and may stop with a fault. *)
Fixpoint foldM {A S} (f : S → A → result S) (s : S) (l : list A) : result S :=
  match l with
  | [] => Ok s
  | a :: l' => s' ← f s a; foldM f s' l'
  end.

(** ** Record update

    [r <| proj := v |>] replaces one field.  A record declares an [Eta]
    instance, its eta expansion, from which the setter of every projection is
    computed. *)

Class Eta (R : Type) := eta_of : R → R.
Class Setter {R T : Type} (proj : R → T) := setf : (T → T) → R → R.
Arguments setf {R T} proj {_} /.

Ltac build_setter R T proj :=
  exact (λ (f : T → T) (r : R), ltac:(
    let e := eval hnf in (@eta_of R _ r) in
    match e with
    | context C [proj r] => let t := context C [f (proj r)] in exact t
    end)).

#[export] Hint Extern 1 (@Setter ?R ?T ?proj) => build_setter R T proj : typeclass_instances.

Declare Scope record_scope.
Delimit Scope record_scope with record.
Notation "r <| proj := v |>" := (setf proj (λ _, v) r)
  (at level 1, left associativity, proj at level 9, v at level 99) : record_scope.
Global Open Scope record_scope.

(** ** Machine integers

    An unsigned w-bit value is a [Z] in [0, 2^w); [wrap w] is the conversion
    C++ applies when a wider result is stored in it, [swrap w] the
    two's-complement conversion to a signed w-bit integer. *)

Definition wrap (w x : Z) : Z := (x mod 2 ^ w)%Z.
Definition swrap (w x : Z) : Z := (wrap w (x + 2 ^ (w - 1)) - 2 ^ (w - 1))%Z.
Abbreviation u8 := (wrap 8) (only parsing).
Abbreviation u16 := (wrap 16) (only parsing).
Abbreviation u32 := (wrap 32) (only parsing).
Abbreviation u64 := (wrap 64) (only parsing).
Definition in_width (w x : Z) : Prop := (0 ≤ x < 2 ^ w)%Z.

(** ** Lemmas on the error monad *)

Lemma bind_Ok_inv {A B} (m : result A) (f : A → result B) b :
  (m ≫= f) = Ok b → ∃ a, m = Ok a ∧ f a = Ok b.
Proof. destruct m; simpl; intros H; [eauto | discriminate]. Qed.

Lemma assertb_Ok_inv b u : assertb b = Ok u → b = true.
Proof. by destruct b. Qed.

Lemma panic_if_Ok_inv b u : panic_if b = Ok u → b = false.
Proof. by destruct b. Qed.

Lemma fatal_if_Ok_inv b u : fatal_if b = Ok u → b = false.
Proof. by destruct b. Qed.

(** [inv_ok] opens every monadic equation of the context that ends in [Ok]. *)
Ltac inv_ok_step :=
  match goal with
  | H : (_ ≫= _) = Ok _ |- _ =>
      let a := fresh "a" in let E := fresh "E" in
      apply bind_Ok_inv in H; destruct H as (a & E & H); cbn beta in H
  | H : assertb _ = Ok _ |- _ => apply assertb_Ok_inv in H
  | H : panic_if _ = Ok _ |- _ => apply panic_if_Ok_inv in H
  | H : fatal_if _ = Ok _ |- _ => apply fatal_if_Ok_inv in H
  | H : Ok _ = Ok _ |- _ => injection H as H; try subst
  | H : mret _ = Ok _ |- _ => injection H as H; try subst
  | H : Err _ = Ok _ |- _ => discriminate H
  | u : unit |- _ => destruct u
  end.
Ltac inv_ok := repeat inv_ok_step.

Lemma at_Ok {A} (l : list A) (i : Z) a :
  at_ l i = Ok a ↔ (0 ≤ i)%Z ∧ l !! Z.to_nat i = Some a.
Proof.
  unfold at_. case_decide; [|split; [done | lia]].
  destruct (l !! Z.to_nat i); split; naive_solver.
Qed.

Lemma at_total {A} (l : list A) (i : Z) :
  (0 ≤ i < Z.of_nat (length l))%Z → is_ok (at_ l i).
Proof.
  intros Hi. destruct (lookup_lt_is_Some_2 l (Z.to_nat i)) as [a Ha]; [lia|].
  exists a. apply at_Ok. split; [lia | done].
Qed.

Lemma at_out {A} (l : list A) (i : Z) :
  (i < 0 ∨ Z.of_nat (length l) ≤ i)%Z → at_ l i = Err OutOfBounds.
Proof.
  intros Hi. unfold at_. case_decide; [|done].
  by rewrite lookup_ge_None_2 by lia.
Qed.

Lemma upd_at_Ok {A} (l l' : list A) (i : Z) a :
  upd_at l i a = Ok l' ↔ (0 ≤ i < Z.of_nat (length l))%Z ∧ l' = <[Z.to_nat i := a]> l.
Proof. unfold upd_at. case_decide; naive_solver. Qed.

Lemma upd_at_length {A} (l l' : list A) (i : Z) a :
  upd_at l i a = Ok l' → length l' = length l.
Proof. intros [_ ->]%upd_at_Ok. apply length_insert. Qed.

Lemma at_upd_eq {A} (l l' : list A) (i : Z) a : upd_at l i a = Ok l' → at_ l' i = Ok a.
Proof.
  intros [Hi ->]%upd_at_Ok. apply at_Ok. split; [lia|].
  apply list_lookup_insert_eq. lia.
Qed.

Lemma at_upd_ne {A} (l l' : list A) (i j : Z) a :
  upd_at l i a = Ok l' → i ≠ j → at_ l' j = at_ l j.
Proof.
  intros [Hi ->]%upd_at_Ok Hij. unfold at_. case_decide; [|done].
  by rewrite list_lookup_insert_ne by lia.
Qed.

Lemma foldM_app {A S} (f : S → A → result S) s l1 l2 :
  foldM f s (l1 ++ l2) = (s' ← foldM f s l1; foldM f s' l2).
Proof.
  revert s. induction l1 as [|a l1 IH]; intros s; [done|].
  simpl. destruct (f s a); simpl; [apply IH | done].
Qed.

Lemma foldM_inv {A S} (P : S → Prop) (f : S → A → result S) s l s' :
  P s → (∀ s a s', a ∈ l → P s → f s a = Ok s' → P s') → foldM f s l = Ok s' → P s'.
Proof.
  revert s. induction l as [|a l IH]; intros s Hs Hstep Hf; simpl in *; inv_ok; [done|].
  eapply IH; [| |done]; [eapply Hstep; [left| |]; done|].
  intros s0 b s1 Hb. apply Hstep. by right.
Qed.

(** ** Lemmas on machine integers *)

Lemma wrap_range w x : (0 ≤ w)%Z → in_width w (wrap w x).
Proof. intros. apply Z.mod_pos_bound. lia. Qed.

Lemma wrap_small w x : in_width w x → wrap w x = x.
Proof. apply Z.mod_small. Qed.

Lemma wrap_wrap w x : wrap w (wrap w x) = wrap w x.
Proof. unfold wrap. apply Zmod_mod. Qed.

Lemma wrap_add_wrap w x y : wrap w (wrap w x + y) = wrap w (x + y).
Proof. unfold wrap. apply Zplus_mod_idemp_l. Qed.

Lemma wrap_land_ones w x : (0 ≤ w)%Z → wrap w x = Z.land x (Z.ones w).
Proof. intros. unfold wrap. by rewrite Z.land_ones. Qed.

Lemma testbit_high x w i : (0 ≤ w)%Z → in_width w x → (w ≤ i)%Z → Z.testbit x i = false.
Proof.
  intros Hw Hx Hi. rewrite <-(wrap_small w x) by done. by apply Z.mod_pow2_bits_high; lia.
Qed.

Lemma in_width_mono w w' x : (0 ≤ w ≤ w')%Z → in_width w x → in_width w' x.
Proof.
  intros Hw [H1 H2]. split; [lia|]. eapply Z.lt_le_trans; [done|].
  apply Z.pow_le_mono_r; lia.
Qed.

Lemma in_width_bits w x :
  (0 ≤ w)%Z → (0 ≤ x)%Z → (∀ i, (w ≤ i)%Z → Z.testbit x i = false) → in_width w x.
Proof.
  intros Hw Hx Hb. split; [done|].
  destruct (decide (x = 0)%Z) as [->|]; [apply Z.pow_pos_nonneg; lia|].
  destruct (Z_lt_le_dec x (2 ^ w)) as [|Hge]; [done|].
  assert (w ≤ Z.log2 x)%Z by (by apply Z.log2_le_pow2; lia).
  pose proof (Z.bit_log2 x ltac:(lia)) as Hl. by rewrite Hb in Hl by lia.
Qed.

(** A test against a single bit. *)
Lemma land_bit_zero x n : (0 ≤ n)%Z → (Z.land x (Z.shiftl 1 n) =? 0)%Z = negb (Z.testbit x n).
Proof.
  intros Hn. rewrite Z.shiftl_1_l. destruct (Z.testbit x n) eqn:Et; simpl.
  - apply Z.eqb_neq. intros Hz. apply (f_equal (λ z, Z.testbit z n)) in Hz.
    by rewrite Z.land_spec, Et, Z.pow2_bits_true, Z.testbit_0_l in Hz by lia.
  - apply Z.eqb_eq, Z.bits_inj'. intros i Hi.
    rewrite Z.land_spec, Z.testbit_0_l, Z.pow2_bits_eqb by lia. destruct (Z.eqb_spec n i) as [->|]; [|btauto].
    by rewrite Et.
Qed.


(** [zbits] proves an equation between bit-level expressions bit by bit. *)
Lemma shiftr_testbit a n i : (0 ≤ i)%Z → Z.testbit (Z.shiftr a n) i = Z.testbit a (i + n).
Proof. intros. by apply Z.shiftr_spec. Qed.
Lemma ones_testbit n i : (0 ≤ n)%Z → Z.testbit (Z.ones n) i = bool_decide (0 ≤ i < n)%Z.
Proof.
  intros Hn. destruct (Z_lt_le_dec i 0).
  - rewrite Z.testbit_neg_r by lia. symmetry. apply bool_decide_eq_false_2. lia.
  - rewrite Z.testbit_ones_nonneg by lia. case_bool_decide; apply eq_true_iff_eq;
      rewrite ?Z.ltb_lt; naive_solver lia.
Qed.

Create Rewrite HintDb zbit.
#[export] Hint Rewrite Z.land_spec Z.lor_spec Z.lxor_spec Z.ldiff_spec Z.testbit_0_l : zbit.
#[export] Hint Rewrite Z.lnot_spec Z.shiftl_spec shiftr_testbit ones_testbit using lia : zbit.
Ltac zbits_cases :=
  repeat match goal with
  | |- context [bool_decide ?P] => case_bool_decide; try lia
  end.
Ltac zbits :=
  apply Z.bits_inj'; let i := fresh "i" in let Hi := fresh "Hi" in
  intros i Hi; autorewrite with zbit; zbits_cases;
  repeat (match goal with
  | |- context [Z.testbit _ ?k] => rewrite (Z.testbit_neg_r _ k) by lia
  end); try btauto.

(** ** Statistics vectors

    [Stats::Vector] checks its index with an [assert]; its counters are
    unbounded here. *)
Definition stat_add (v : list Z) (i x : Z) : result (list Z) :=
  match v !! Z.to_nat i with
  | Some y => if decide (0 ≤ i)%Z then Ok (<[Z.to_nat i := (y + x)%Z]> v) else Err AssertFail
  | None => Err AssertFail
  end.

Lemma stat_add_ok v i x :
  (0 ≤ i < Z.of_nat (length v))%Z →
  ∃ v', stat_add v i x = Ok v' ∧ length v' = length v.
Proof.
  intros Hi. unfold stat_add.
  destruct (lookup_lt_is_Some_2 v (Z.to_nat i)) as [y ->]; [lia|].
  rewrite decide_True by lia. eexists. split; [done | apply length_insert].
Qed.

(** ** Little-endian byte strings and [memcpy] *)

Fixpoint le_split (n : nat) (z : Z) : list Z :=
  match n with O => [] | S n => (z mod 256)%Z :: le_split n (z / 256) end.
Fixpoint le_combine (l : list Z) : Z :=
  match l with [] => 0%Z | b :: l => (b + 256 * le_combine l)%Z end.

Lemma length_le_split n z : length (le_split n z) = n.
Proof. revert z. induction n; intros z; simpl; auto. Qed.

Lemma le_combine_split n z : le_combine (le_split n z) = (z mod 256 ^ Z.of_nat n)%Z.
Proof.
  revert z. induction n as [|n IH]; intros z; [by rewrite Z.mod_1_r|].
  cbn [le_split le_combine]. rewrite IH, Nat2Z.inj_succ, Z.pow_succ_r by lia.
  rewrite Z.rem_mul_r; [done | lia | apply Z.pow_pos_nonneg; lia].
Qed.

Lemma le_combine_split_small n z : in_width (8 * Z.of_nat n) z → le_combine (le_split n z) = z.
Proof.
  intros Hz. rewrite le_combine_split. apply Z.mod_small.
  replace 256%Z with (2 ^ 8)%Z by done. rewrite <-Z.pow_mul_r by lia. exact Hz.
Qed.

(** [memcpy(dst + off, src, n)] where [src] holds [n] bytes. *)
Definition splice {A} (dst : list A) (off : nat) (src : list A) : list A :=
  take off dst ++ src ++ drop (off + length src) dst.
Definition slice {A} (l : list A) (off len : nat) : list A := take len (drop off l).

Lemma length_splice {A} (dst : list A) off src :
  off + length src ≤ length dst → length (splice dst off src) = length dst.
Proof. intros H. unfold splice. rewrite !length_app, length_take, length_drop. lia. Qed.

Lemma slice_splice_eq {A} (dst : list A) off src :
  off ≤ length dst → slice (splice dst off src) off (length src) = src.
Proof.
  intros H. unfold slice, splice. rewrite drop_app_length' by (rewrite length_take; lia).
  apply take_app_length.
Qed.

Lemma slice_splice_ne {A} (dst : list A) off src off' len :
  off + length src ≤ length dst → off' + len ≤ off ∨ off + length src ≤ off' →
  slice (splice dst off src) off' len = slice dst off' len.
Proof.
  intros Hl Hd. unfold slice, splice. apply list_eq. intros i.
  destruct (decide (i < len)) as [Hi|Hi]; [|rewrite !lookup_take_ge by lia; done].
  rewrite !lookup_take_lt, !lookup_drop by lia. destruct Hd.
  - rewrite lookup_app_l by (rewrite length_take; lia). by rewrite lookup_take_lt by lia.
  - rewrite lookup_app_r, length_take, Nat.min_l by (rewrite ?length_take; lia).
    rewrite lookup_app_r by lia. rewrite lookup_drop. f_equal. lia.
Qed.

Lemma splice_all {A} (l src : list A) : length l = length src → splice l 0 src = src.
Proof. intros H. unfold splice. simpl. rewrite drop_ge by lia. apply app_nil_r. Qed.

Lemma length_slice {A} (l : list A) o n : (o + n ≤ length l)%nat → length (slice l o n) = n.
Proof. intros H. unfold slice. rewrite length_take, length_drop. lia. Qed.

Lemma slice_all {A} (l : list A) n : n = length l → slice l 0 n = l.
Proof. intros ->. unfold slice. by rewrite drop_0, take_ge. Qed.

Lemma splice_splice_eq {A} (l : list A) o s1 s2 :
  (o + length s1 ≤ length l)%nat → length s2 = length s1 → splice (splice l o s1) o s2 = splice l o s2.
Proof.
  intros Hl Hs. unfold splice. f_equal; [|f_equal].
  - rewrite take_app_length' by (rewrite length_take; lia). done.
  - rewrite Hs, drop_app_ge, length_take by (rewrite length_take; lia).
    rewrite drop_app_ge by lia. rewrite drop_drop. f_equal. lia.
Qed.

Lemma splice_lookup_total (l src : list Z) (o i : nat) :
  (o + length src ≤ length l)%nat → (i < length l)%nat →
  splice l o src !!! i = if decide (o ≤ i < o + length src)%nat then src !!! (i - o)%nat else l !!! i.
Proof.
  intros Hl Hi. unfold splice. rewrite !list_lookup_total_alt. case_decide.
  - rewrite lookup_app_r by (rewrite length_take; lia). rewrite length_take, lookup_app_l by lia.
    f_equal. f_equal. lia.
  - destruct (decide (i < o)%nat).
    + rewrite lookup_app_l by (rewrite length_take; lia). by rewrite lookup_take_lt by lia.
    + rewrite lookup_app_r by (rewrite length_take; lia). rewrite length_take, lookup_app_r by lia.
      rewrite lookup_drop. f_equal. f_equal. lia.
Qed.

Lemma splice_slice {A} (l : list A) o n : (o + n ≤ length l)%nat → splice l o (slice l o n) = l.
Proof.
  intros H. unfold splice. rewrite length_slice by lia. unfold slice.
  rewrite <-(take_drop o l) at 4. f_equal. rewrite <-drop_drop. apply take_drop.
Qed.

Lemma splice_app {A} (l : list A) o s1 s2 :
  (o + length s1 + length s2 ≤ length l)%nat → splice (splice l o s1) (o + length s1) s2 = splice l o (s1 ++ s2).
Proof.
  intros H. unfold splice. rewrite take_app_ge by (rewrite length_take; lia).
  rewrite length_take, Nat.min_l by lia. replace (o + length s1 - o)%nat with (length s1) by lia.
  rewrite take_app_length, <-!(assoc_L (++)), length_app. do 3 f_equal.
  rewrite drop_app_ge by (rewrite length_take; lia). rewrite length_take, Nat.min_l by lia.
  rewrite drop_app_ge by lia. rewrite drop_drop. f_equal. lia.
Qed.

(** [n] consecutive addresses. *)
Definition addr_range (a : Z) (n : nat) : list Z := (λ i, (a + Z.of_nat i)%Z) <$> seq 0 n.

Lemma length_addr_range a n : length (addr_range a n) = n.
Proof. unfold addr_range. by rewrite length_fmap, length_seq. Qed.

Lemma addr_range_add a n k : addr_range a (n + k) = addr_range a n ++ addr_range (a + Z.of_nat n) k.
Proof.
  unfold addr_range. rewrite seq_app, fmap_app. f_equal. simpl.
  replace (seq n k) with (Nat.add n <$> seq 0 k) by (rewrite fmap_add_seq; f_equal; lia).
  rewrite <-list_fmap_compose. apply list_fmap_ext. intros i x _. simpl. lia.
Qed.

Lemma elem_of_addr_range a n x : x ∈ addr_range a n ↔ (a ≤ x < a + Z.of_nat n)%Z.
Proof.
  unfold addr_range. rewrite list_elem_of_fmap. split.
  - intros (i & -> & Hi). apply elem_of_seq in Hi. lia.
  - intros H. exists (Z.to_nat (x - a)). rewrite elem_of_seq. lia.
Qed.
