(* ===== verification/BaseLib.v ===== *)
(** * gem5 base library: bit fields, integer logarithms and drain states

    [src/gem5-pard/src/base/bitfield.hh], [base/intmath.hh] and the states of
    [sim/drain.hh].  The templates
    are instantiated at an unsigned type whose width is the argument [w]; the
    functions are total here and agree with the C++ ones where those have no
    undefined shift ([0 <= last <= first < w], [0 < x]). *)

From S2P Require Import Prelude.
Local Open Scope Z_scope.

(** ** drain.hh *)

(** [Drainable::State]. *)
Inductive DrainState : Type := Running | Draining | Drained.

(** ** types.hh *)

(** The largest tick. *)
Definition MaxTick : Z := 2 ^ 64 - 1.

(** ** bitfield.hh *)

(** [mask(int nbits)]: [nbits] ones, right justified. *)
Definition mask (nbits : Z) : Z :=
  if nbits =? 64 then wrap 64 (-1) else wrap 64 (Z.shiftl 1 nbits) - 1.

(** [bits(val, first, last)]. *)
Definition bits (val first last : Z) : Z :=
  Z.land (Z.shiftr val last) (mask (first - last + 1)).

(** [bits(val, bit)]. *)
Definition bit1 (val bit : Z) : Z := bits val bit bit.

(** [mbits(val, first, last)]. *)
Definition mbits (val first last : Z) : Z :=
  Z.land val (Z.land (mask (first + 1)) (Z.lnot (mask last))).

(** [insertBits(val, first, last, bit_val)] at an unsigned type of width [w]. *)
Definition insertBits (w val first last bit_val : Z) : Z :=
  let t_bit_val := wrap w bit_val in
  let bmask := wrap w (Z.shiftl (mask (first - last + 1)) last) in
  Z.lor (Z.land (Z.shiftl t_bit_val last) bmask) (Z.land val (Z.lnot bmask)).

(** [findMsbSet(val)]: one halving step per line of the source. *)
Definition msb_step (first last k : Z) (st : Z * Z) : Z * Z :=
  let '(msb, val) := st in
  if bits val first last =? 0 then (msb, val) else (msb + k, Z.shiftr val k).
Definition findMsbSet (val : Z) : Z :=
  if val =? 0 then 0 else
  let st := msb_step 63 32 32 (0, val) in
  let st := msb_step 31 16 16 st in
  let st := msb_step 15 8 8 st in
  let st := msb_step 7 4 4 st in
  let st := msb_step 3 2 2 st in
  let '(msb, v) := st in
  if bits v 1 1 =? 0 then msb else msb + 1.

(** ** intmath.hh *)

Definition leastSigBit (n : Z) : Z := Z.land n (Z.lnot (n - 1)).
Definition isPowerOf2 (n : Z) : bool := negb (n =? 0) && (leastSigBit n =? n).

(** [divCeil(a, b)] on 64-bit operands. *)
Definition divCeil (a b : Z) : result Z :=
  if b =? 0 then Err DivByZero else Ok (wrap 64 (a + b - 1) / b).

(** [floorLog2(unsigned)]: [assert(x > 0)], then five halving steps. *)
Definition log2_step (m k : Z) (st : Z * Z) : Z * Z :=
  let '(y, x) := st in
  if Z.land x m =? 0 then (y, x) else (y + k, Z.shiftr x k).
Definition floorLog2 (x : Z) : result Z :=
  assertb (0 <? x) ;;
  let st := log2_step 0xffff0000 16 (0, x) in
  let st := log2_step 0x0000ff00 8 st in
  let st := log2_step 0x000000f0 4 st in
  let st := log2_step 0x0000000c 2 st in
  let '(y, x) := st in
  Ok (if Z.land x 0x00000002 =? 0 then y else y + 1).

(** ** Lemmas *)

Lemma mask_ones n : 0 ≤ n ≤ 64 → mask n = Z.ones n.
Proof.
  intros Hn. unfold mask. destruct (Z.eqb_spec n 64) as [->|Hne]; [reflexivity|].
  rewrite Z.shiftl_1_l, wrap_small; [rewrite Z.ones_equiv; lia|].
  split; [apply Z.pow_nonneg; lia | apply Z.pow_lt_mono_r; lia].
Qed.

Lemma bits_mod val first last :
  0 ≤ last ∧ last ≤ first < 64 → bits val first last = (val / 2 ^ last) mod 2 ^ (first - last + 1).
Proof.
  intros H. unfold bits. rewrite mask_ones by lia.
  by rewrite Z.land_ones, Z.shiftr_div_pow2 by lia.
Qed.

Lemma bits_testbit val first last i :
  0 ≤ last ∧ last ≤ first < 64 → 0 ≤ i →
  Z.testbit (bits val first last) i = bool_decide (i ≤ first - last) && Z.testbit val (i + last).
Proof.
  intros H Hi. unfold bits. rewrite mask_ones by lia. autorewrite with zbit.
  zbits_cases; btauto.
Qed.

Lemma bits_width val first last :
  0 ≤ last ∧ last ≤ first < 64 → in_width (first - last + 1) (bits val first last).
Proof. intros H. rewrite bits_mod by lia. apply wrap_range. lia. Qed.

Lemma bmask_ones w first last :
  0 ≤ last ∧ last ≤ first < w → w ≤ 64 →
  wrap w (Z.shiftl (mask (first - last + 1)) last) = Z.shiftl (Z.ones (first - last + 1)) last.
Proof.
  intros H Hw. rewrite mask_ones by lia. rewrite wrap_land_ones by lia. zbits.
Qed.

Lemma insertBits_testbit w val first last b i :
  0 ≤ last ∧ last ≤ first < w → w ≤ 64 → 0 ≤ i →
  Z.testbit (insertBits w val first last b) i =
  if bool_decide (last ≤ i ≤ first) then Z.testbit b (i - last) else Z.testbit val i.
Proof.
  intros H Hw Hi. unfold insertBits. cbv zeta. rewrite bmask_ones, wrap_land_ones by lia.
  autorewrite with zbit. zbits_cases; try btauto;
    rewrite ?(Z.testbit_neg_r _ (i - last)) by lia; btauto.
Qed.

Lemma insertBits_width w val first last b :
  0 ≤ last ∧ last ≤ first < w → w ≤ 64 → in_width w val → in_width w (insertBits w val first last b).
Proof.
  intros H Hw Hv. apply in_width_bits; [lia| |].
  - unfold insertBits. rewrite bmask_ones by lia. apply Z.lor_nonneg. split.
    + apply Z.land_nonneg. right. apply Z.shiftl_nonneg. rewrite Z.ones_equiv.
      pose proof (Z.pow_pos_nonneg 2 (first - last + 1)). lia.
    + apply Z.land_nonneg. left. apply Hv.
  - intros i Hi. rewrite insertBits_testbit by lia. rewrite bool_decide_eq_false_2 by lia.
    apply (testbit_high val w); [lia | done | lia].
Qed.

(** Reading the field just written gives the value, cut to the field. *)
Lemma bits_insertBits w val first last b :
  0 ≤ last ∧ last ≤ first < w → w ≤ 64 →
  bits (insertBits w val first last b) first last = wrap (first - last + 1) b.
Proof.
  intros H Hw. rewrite wrap_land_ones by lia. apply Z.bits_inj'. intros i Hi.
  rewrite bits_testbit, insertBits_testbit by lia. autorewrite with zbit.
  zbits_cases; rewrite ?andb_true_l, ?andb_false_l, ?andb_true_r, ?andb_false_r; try done.
  f_equal. lia.
Qed.

(** Writing a field leaves every field disjoint from it unchanged. *)
Lemma bits_insertBits_other w val first last b f l :
  0 ≤ last ∧ last ≤ first < w → w ≤ 64 → 0 ≤ l ∧ l ≤ f < w → f < last ∨ first < l →
  bits (insertBits w val first last b) f l = bits val f l.
Proof.
  intros H Hw Hf Hd. apply Z.bits_inj'. intros i Hi.
  rewrite !bits_testbit, insertBits_testbit by lia. zbits_cases; done.
Qed.

(** A test against a block of bits [k .. 2k-1] splits [0, 2^(2k)). *)
Lemma land_high_zero x k m :
  0 ≤ k → m = Z.shiftl (Z.ones k) k → in_width (2 * k) x → (Z.land x m = 0 ↔ x < 2 ^ k).
Proof.
  intros Hk -> Hx. split.
  - intros H0. apply (in_width_bits k); [lia | apply Hx |]. intros i Hi.
    destruct (Z_lt_le_dec i (2 * k)).
    + assert (Z.testbit (Z.land x (Z.shiftl (Z.ones k) k)) i = false) as Hb
        by (rewrite H0; apply Z.testbit_0_l).
      autorewrite with zbit in Hb. rewrite bool_decide_eq_true_2 in Hb by lia.
      by rewrite andb_true_r in Hb.
    + apply (testbit_high x (2 * k)); [lia | done | lia].
  - intros Hlt. zbits. rewrite (testbit_high x k); [done | lia | | lia].
    split; [apply Hx | done].
Qed.

Lemma log2_shiftr x k : 0 ≤ k → 2 ^ k ≤ x → Z.log2 x = k + Z.log2 (Z.shiftr x k).
Proof.
  intros Hk Hx. rewrite Z.log2_shiftr by (assert (0 < 2 ^ k) by (apply Z.pow_pos_nonneg; lia); lia).
  assert (k ≤ Z.log2 x).
  { apply Z.log2_le_pow2; [|done]. assert (0 < 2 ^ k) by (apply Z.pow_pos_nonneg; lia). lia. }
  lia.
Qed.

(** One halving step keeps [y + log2 x] and halves the width left to inspect. *)
Lemma log2_step_spec m k y x :
  0 < k → m = Z.shiftl (Z.ones k) k → 0 < x → in_width (2 * k) x →
  let '(y', x') := log2_step m k (y, x) in
  y' + Z.log2 x' = y + Z.log2 x ∧ 0 < x' ∧ in_width k x'.
Proof.
  intros Hk Hm Hx Hw. unfold log2_step. pose proof (land_high_zero x k m ltac:(lia) Hm Hw) as Hiff.
  destruct (Z.eqb_spec (Z.land x m) 0) as [E|E].
  - apply Hiff in E. unfold in_width. lia.
  - assert (2 ^ k ≤ x) by (destruct (Z_lt_le_dec x (2 ^ k)); [naive_solver | done]).
    assert (0 < 2 ^ k) by (apply Z.pow_pos_nonneg; lia).
    rewrite (log2_shiftr x k) by lia. split; [lia|].
    rewrite Z.shiftr_div_pow2 by lia. split; [apply Z.div_str_pos; lia|].
    split; [apply Z.div_pos; lia|]. apply Z.div_lt_upper_bound; [lia|].
    rewrite <-Z.pow_add_r by lia. replace (k + k) with (2 * k) by lia. apply Hw.
Qed.

Lemma log2_lt4 x : 0 < x < 4 → Z.log2 x = if Z.land x 2 =? 0 then 0 else 1.
Proof. intros H. assert (x = 1 ∨ x = 2 ∨ x = 3) as [-> | [-> | ->]] by lia; reflexivity. Qed.

Ltac log2_next m k :=
  let H := fresh "H" in
  match goal with
  | |- context [log2_step m k (?y, ?x)] =>
      pose proof (log2_step_spec m k y x ltac:(lia) ltac:(reflexivity)) as H;
      destruct (log2_step m k (y, x)) as [??]
  end.

Lemma floorLog2_log2 x : 0 < x → in_width 32 x → floorLog2 x = Ok (Z.log2 x).
Proof.
  intros Hx Hw. unfold floorLog2. destruct (Z.ltb_spec 0 x); [|lia]. cbn [assertb mbind result_bind].
  log2_next 0xffff0000 16. destruct H0 as (E1 & P1 & W1); [done | done |].
  log2_next 0x0000ff00 8. destruct H0 as (E2 & P2 & W2); [done | done |].
  log2_next 0x000000f0 4. destruct H0 as (E3 & P3 & W3); [done | done |].
  log2_next 0x0000000c 2. destruct H0 as (E4 & P4 & W4); [done | done |].
  pose proof (log2_lt4 z6 ltac:(unfold in_width in W4; lia)) as E5.
  f_equal. destruct (Z.land z6 2 =? 0); lia.
Qed.

Lemma land_pred_bits n i :
  0 < n → Z.testbit (leastSigBit n) i = Z.testbit n i && negb (Z.testbit (n - 1) i) || false.
Proof.
  intros Hn. unfold leastSigBit. destruct (Z_lt_le_dec i 0).
  - rewrite !Z.testbit_neg_r by lia. done.
  - rewrite Z.land_spec, Z.lnot_spec by lia. btauto.
Qed.

Lemma isPowerOf2_iff n : 0 < n → (isPowerOf2 n = true ↔ ∃ k, 0 ≤ k ∧ n = 2 ^ k).
Proof.
  intros Hn. unfold isPowerOf2. destruct (Z.eqb_spec n 0); [lia|]. simpl. rewrite Z.eqb_eq. split.
  - intros E. exists (Z.log2 n). split; [apply Z.log2_nonneg|].
    destruct (Z.log2_spec n Hn) as [Hlo Hhi].
    destruct (Z.eq_dec n (2 ^ Z.log2 n)) as [|Hne]; [done|]. exfalso.
    assert (Z.testbit (n - 1) (Z.log2 n) = true) as Hb.
    { replace (Z.log2 n) with (Z.log2 (n - 1)) by (apply Z.log2_unique; [apply Z.log2_nonneg | lia]).
      apply Z.bit_log2. assert (0 < 2 ^ Z.log2 n) by (apply Z.pow_pos_nonneg, Z.log2_nonneg; lia). lia. }
    pose proof (land_pred_bits n (Z.log2 n) Hn) as Hl. rewrite E, Z.bit_log2, Hb in Hl by lia. done.
  - intros (k & Hk & ->). apply Z.bits_inj'. intros i Hi. rewrite land_pred_bits by lia.
    replace (2 ^ k - 1) with (Z.ones k) by (rewrite Z.ones_equiv; lia).
    rewrite Z.pow2_bits_eqb, ones_testbit by lia. case_bool_decide.
    + destruct (Z.eqb_spec k i); [lia | done].
    + btauto.
Qed.

Lemma msb_step_spec first last k msb x :
  0 < k → last = k → first = 2 * k - 1 → first < 64 → 0 < x → in_width (2 * k) x →
  let '(msb', x') := msb_step first last k (msb, x) in
  msb' + Z.log2 x' = msb + Z.log2 x ∧ 0 < x' ∧ in_width k x'.
Proof.
  intros Hk -> -> Hf Hx Hw.
  pose proof (log2_step_spec _ k msb x Hk eq_refl Hx Hw) as H. unfold log2_step in H. unfold msb_step.
  assert ((bits x (2 * k - 1) k =? 0) = (Z.land x (Z.shiftl (Z.ones k) k) =? 0)) as ->; [|done].
  apply eq_true_iff_eq. rewrite !Z.eqb_eq, (land_high_zero x k _ ltac:(lia) eq_refl Hw).
  rewrite bits_mod by lia. replace (2 * k - 1 - k + 1) with k by lia.
  assert (0 < 2 ^ k) by (apply Z.pow_pos_nonneg; lia).
  rewrite Z.mod_small; [rewrite Z.div_small_iff by lia; unfold in_width in Hw; lia|].
  split; [apply Z.div_pos; lia|]. apply Z.div_lt_upper_bound; [lia|].
  rewrite <-Z.pow_add_r by lia. replace (k + k) with (2 * k) by lia. apply Hw.
Qed.

Ltac msb_next f l k :=
  let H := fresh "H" in
  match goal with
  | |- context [msb_step f l k (?y, ?x)] =>
      pose proof (msb_step_spec f l k y x ltac:(lia) ltac:(lia) ltac:(lia) ltac:(lia)) as H;
      destruct (msb_step f l k (y, x)) as [??];
      let E := fresh "E" in let P := fresh "P" in let W := fresh "W" in
      destruct H as (E & P & W); [done | done |]
  end.
