(* ===== verification/ChunkGen.v ===== *)
(** * Splitting a region into line-sized chunks

    [ChunkGenerator] of [src/gem5-pard/src/base/chunk_generator.hh] with
    [roundUp] of [base/intmath.hh], and the [for] loop over its chunks that the
    port proxy and the DMA port share. *)

From S2P Require Import Prelude BaseLib.
Local Open Scope Z_scope.

(** [roundUp(val, align)] on addresses. *)
Definition roundUp (val align : Z) : Z :=
  let mask := wrap 64 (align - 1) in
  Z.land (wrap 64 (val + mask)) (Z.lnot mask).

(** Addresses are 64 bits wide, sizes 32 bits. *)
Record ChunkGenerator : Type := mkChunkGenerator {
  cg_curAddr : Z;
  cg_nextAddr : Z;
  cg_curSize : Z;
  cg_sizeLeft : Z;
  cg_startAddr : Z;
  cg_chunkSize : Z
}.

(** The constructor; a negative [int] size arrives as a large unsigned one. *)
Definition ChunkGenerator_make (startAddr totalSize chunkSize : Z) : result ChunkGenerator :=
  assertb ((chunkSize =? 0) || isPowerOf2 chunkSize) ;;
  let nextAddr :=
    if chunkSize =? 0 then wrap 64 (startAddr + totalSize)
    else
      let next := roundUp startAddr chunkSize in
      if startAddr =? next then wrap 64 (next + chunkSize) else next in
  let left_in_chunk := wrap 32 (nextAddr - startAddr) in
  let curSize := Z.min totalSize left_in_chunk in
  Ok (mkChunkGenerator startAddr nextAddr curSize (wrap 32 (totalSize - curSize)) startAddr chunkSize).

Definition cg_complete (g : ChunkGenerator) : Z := wrap 32 (cg_curAddr g - cg_startAddr g).
Definition cg_done (g : ChunkGenerator) : bool := cg_curSize g =? 0.

Definition cg_next (g : ChunkGenerator) : ChunkGenerator :=
  if cg_sizeLeft g =? 0
  then mkChunkGenerator (cg_curAddr g) (cg_nextAddr g) 0 0 (cg_startAddr g) (cg_chunkSize g)
  else
    let curSize := Z.min (cg_sizeLeft g) (cg_chunkSize g) in
    mkChunkGenerator (cg_nextAddr g) (wrap 64 (cg_nextAddr g + curSize)) curSize
      (wrap 32 (cg_sizeLeft g - curSize)) (cg_startAddr g) (cg_chunkSize g).

(** [for (...; !gen.done(); gen.next()) body]; the body uses the address and the
    size of the chunk and the number of bytes before it. *)
Fixpoint for_chunks {St : Type} (fuel : nat) (g : ChunkGenerator) (body : St → Z → Z → Z → result St) (s : St)
  : result St :=
  match fuel with
  | O => Err OutOfFuel
  | S fuel =>
      if cg_done g then Ok s
      else s ← body s (cg_curAddr g) (cg_curSize g) (cg_complete g); for_chunks fuel (cg_next g) body s
  end.

(** The whole loop; a region of [n] bytes has at most [n] chunks. *)
Definition chunk_loop {St : Type} (startAddr totalSize chunkSize : Z) (body : St → Z → Z → Z → result St) (s : St)
  : result St :=
  g ← ChunkGenerator_make startAddr totalSize chunkSize;
  for_chunks (Z.to_nat totalSize + 2) g body s.

(** ** The chunks *)

(** Lengths of the chunks of [left] bytes that start at a line boundary. *)
Fixpoint line_sizes (fuel : nat) (left line : Z) : list Z :=
  match fuel with
  | O => []
  | S fuel => if left =? 0 then [] else Z.min left line :: line_sizes fuel (left - Z.min left line) line
  end.
Definition chunk_sizes (start total line : Z) : list Z :=
  let first := Z.min total (line - start mod line) in
  if total =? 0 then [] else first :: line_sizes (Z.to_nat total) (total - first) line.

(** The chunks of a region: address, size, and bytes before it. *)
Fixpoint place (a off : Z) (sizes : list Z) : list (Z * Z * Z) :=
  match sizes with
  | [] => []
  | n :: sizes => (a, n, off) :: place (a + n) (off + n) sizes
  end.
Definition chunks (start total line : Z) : list (Z * Z * Z) := place start 0 (chunk_sizes start total line).

Lemma length_place a off sizes : length (place a off sizes) = length sizes.
Proof. revert a off. induction sizes; intros; simpl; auto. Qed.

(** A region that lies in the address space. *)
Definition region (start total : Z) : Prop := in_width 64 start ∧ 0 ≤ total < 2 ^ 32 ∧ start + total ≤ 2 ^ 64.

(** Consecutive chunks of lines: positive, in one line each. *)
Fixpoint aligned_run (line a : Z) (sizes : list Z) : Prop :=
  match sizes with
  | [] => True
  | n :: sizes => 0 < n ∧ a mod line + n ≤ line ∧ aligned_run line (a + n) sizes
  end.

Lemma mod_add_line a n line : 0 < line → a mod line = 0 → n mod line = 0 → (a + n) mod line = 0.
Proof. intros Hl Ha Hn. by rewrite Z.add_mod, Ha, Hn by lia. Qed.

Lemma line_sizes_run fuel a left line :
  0 < line → 0 ≤ left → (Z.to_nat left ≤ fuel)%nat → a mod line = 0 →
  sum_list_with Z.to_nat (line_sizes fuel left line) = Z.to_nat left ∧ aligned_run line a (line_sizes fuel left line).
Proof.
  intros Hl. revert a left. induction fuel as [|fuel IH]; intros a left Hleft Hf Ha; [split; [simpl; lia|done]|].
  cbn [line_sizes]. destruct (Z.eqb_spec left 0) as [->|Hne]; [done|].
  destruct (Z.le_gt_cases left line) as [Hle|Hgt].
  - rewrite Z.min_l by lia. rewrite Z.sub_diag. replace (line_sizes fuel 0 line) with (@nil Z) by (by destruct fuel).
    simpl. rewrite Ha. split; [lia|]. lia.
  - rewrite Z.min_r by lia. destruct (IH (a + line) (left - line)) as [H1 H2]; [lia|lia|by apply mod_add_line; [| |apply Z.mod_same; lia]|].
    cbn [sum_list_with aligned_run]. rewrite H1. rewrite Ha. split; [lia|]. split; [lia|]. split; [lia|done].
Qed.

(** The sizes add up to the region and every chunk lies in one line. *)
Lemma chunk_sizes_run start total line :
  0 < line → 0 ≤ total →
  sum_list_with Z.to_nat (chunk_sizes start total line) = Z.to_nat total ∧
  aligned_run line start (chunk_sizes start total line).
Proof.
  intros Hl Ht. unfold chunk_sizes. destruct (Z.eqb_spec total 0) as [->|Hne]; [done|].
  pose proof (Z.mod_pos_bound start line Hl) as Hm. cbn zeta.
  destruct (Z.le_gt_cases total (line - start mod line)) as [Hle|Hgt].
  - rewrite Z.min_l by lia. rewrite Z.sub_diag. replace (line_sizes (Z.to_nat total) 0 line) with (@nil Z) by (by destruct (Z.to_nat total)).
    simpl. split; [lia|]. lia.
  - rewrite Z.min_r by lia. set (first := line - start mod line) in *.
    destruct (line_sizes_run (Z.to_nat total) (start + first) (total - first) line) as [H1 H2]; [lia|lia|lia| |].
    { subst first. replace (start + (line - start mod line)) with (line * (start / line) + line) by (pose proof (Z.div_mod start line); lia).
      replace (line * (start / line) + line) with ((start / line + 1) * line) by lia. apply Z.mod_mul. lia. }
    cbn [sum_list_with aligned_run]. rewrite H1. split; [lia|]. split; [lia|]. split; [lia|done].
Qed.

(** ** The loop visits the chunks *)

Lemma land_lnot_ones x k : 0 ≤ k → Z.land x (Z.lnot (Z.ones k)) = x - x mod 2 ^ k.
Proof.
  intros Hk. rewrite <-Z.ldiff_land, Z.ldiff_ones_r, Z.shiftl_mul_pow2, Z.shiftr_div_pow2 by lia.
  pose proof (Z.div_mod x (2 ^ k)). lia.
Qed.

Lemma roundUp_spec start k :
  0 ≤ k < 31 → in_width 64 start →
  roundUp start (2 ^ k) = wrap 64 (if decide (start mod 2 ^ k = 0) then start else start - start mod 2 ^ k + 2 ^ k).
Proof.
  intros Hk Hs. assert (0 < 2 ^ k) as Hp by lia. assert (2 ^ k < 2 ^ 31) by (apply Z.pow_lt_mono_r; lia).
  unfold roundUp. cbn zeta. rewrite (wrap_small 64 (2 ^ k - 1)) by (unfold in_width; lia).
  replace (2 ^ k - 1) with (Z.ones k) by (rewrite Z.ones_equiv; lia).
  rewrite !wrap_land_ones by lia.
  rewrite <-Z.land_assoc, (Z.land_comm (Z.ones 64)), Z.land_assoc. f_equal.
  rewrite land_lnot_ones by lia. rewrite Z.ones_equiv. pose proof (Z.mod_pos_bound start (2 ^ k) Hp) as Hm.
  pose proof (Z.div_mod start (2 ^ k)) as Hd. case_decide as Hr.
  - rewrite (Z.mod_eq (start + Z.pred (2 ^ k))) by lia.
    replace ((start + Z.pred (2 ^ k)) / 2 ^ k) with (start / 2 ^ k); [lia|].
    apply (Z.div_unique _ _ _ (2 ^ k - 1)); lia.
  - rewrite (Z.mod_eq (start + Z.pred (2 ^ k))) by lia.
    replace ((start + Z.pred (2 ^ k)) / 2 ^ k) with (start / 2 ^ k + 1); [lia|].
    apply (Z.div_unique _ _ _ (start mod 2 ^ k - 1)); lia.
Qed.

Lemma wrap_mod w x m : 0 < m → (m | 2 ^ w) → wrap w x mod m = x mod m.
Proof.
  intros Hm [q Hq]. unfold wrap. destruct (Z.eq_dec (2 ^ w) 0) as [->|Hn]; [by rewrite Z.mod_0_r|].
  rewrite (Z.mod_eq x) by done. rewrite Hq at 1.
  replace (x - q * m * (x / 2 ^ w)) with (x + (- q * (x / 2 ^ w)) * m) by lia. apply Z.mod_add. lia.
Qed.

(** The end of the first line, and the bytes up to it. *)
Lemma first_line start k :
  0 ≤ k < 31 → in_width 64 start →
  let up := roundUp start (2 ^ k) in
  let next := if start =? up then wrap 64 (up + 2 ^ k) else up in
  next = wrap 64 (start + (2 ^ k - start mod 2 ^ k)) ∧ wrap 32 (next - start) = 2 ^ k - start mod 2 ^ k.
Proof.
  intros Hk Hs up next. assert (0 < 2 ^ k < 2 ^ 31) as Hp by (split; [lia|apply Z.pow_lt_mono_r; lia]).
  pose proof (Z.mod_pos_bound start (2 ^ k)) as Hm.
  assert (next = wrap 64 (start + (2 ^ k - start mod 2 ^ k))) as Hn.
  { subst next up. rewrite roundUp_spec by done. case_decide as Hr.
    - rewrite (wrap_small 64 start), Z.eqb_refl by done. f_equal. lia.
    - destruct (Z.eqb_spec start (wrap 64 (start - start mod 2 ^ k + 2 ^ k))) as [He|_]; [exfalso|f_equal; lia].
      apply Hr. rewrite He, wrap_mod; [|lia|exists (2 ^ (64 - k)); rewrite <-Z.pow_add_r by lia; f_equal; lia].
      rewrite (Z.mod_eq start) by lia. replace (start - (start - 2 ^ k * (start / 2 ^ k)) + 2 ^ k) with ((start / 2 ^ k + 1) * 2 ^ k) by lia.
      apply Z.mod_mul. lia. }
  split; [done|]. rewrite Hn. unfold wrap at 1. rewrite <-Zminus_mod_idemp_l, wrap_mod; [|lia|by exists (2 ^ 32)].
  rewrite Zminus_mod_idemp_l. replace (start + (2 ^ k - start mod 2 ^ k) - start) with (2 ^ k - start mod 2 ^ k) by lia.
  apply Z.mod_small. lia.
Qed.

(** The generator stands at [n] bytes at [a], with [left] bytes to come. *)
Record standing (g : ChunkGenerator) (line start a n left : Z) : Prop := {
  st_addr : cg_curAddr g = a;
  st_size : cg_curSize g = n;
  st_left : cg_sizeLeft g = left;
  st_next : 0 < left → cg_nextAddr g = wrap 64 (a + n);
  st_start : cg_startAddr g = start;
  st_chunk : cg_chunkSize g = line;
  st_complete : in_width 32 (a - start);
  st_width : 0 ≤ left < 2 ^ 32 ∧ in_width 64 a ∧ 0 < n ∧ a + n + left ≤ 2 ^ 64 ∧ a - start + n + left < 2 ^ 32
}.

Lemma standing_next g line start a n left :
  0 < line → standing g line start a n left → 0 < left →
  standing (cg_next g) line start (a + n) (Z.min left line) (left - Z.min left line).
Proof.
  intros Hl [H1 H2 H3 H4 H5 H6 H7 (H8 & H9 & H10 & H11 & H12)] Hleft. unfold cg_next. rewrite H3.
  rewrite (proj2 (Z.eqb_neq left 0)) by lia. rewrite H6, H4 by done. unfold in_width in *.
  split; cbn [cg_curAddr cg_nextAddr cg_curSize cg_sizeLeft cg_startAddr cg_chunkSize]; unfold in_width; try done.
  - apply wrap_small. unfold in_width. lia.
  - apply wrap_small. unfold in_width. lia.
  - intros Hx. rewrite (wrap_small 64 (a + n)) by (unfold in_width; lia). done.
  - lia.
  - lia.
Qed.

Lemma for_chunks_run {St} fuel k g (body : St → Z → Z → Z → result St) s line start a n left :
  0 < line → standing g line start a n left → (Z.to_nat left + 2 ≤ fuel)%nat → (Z.to_nat left ≤ k)%nat →
  for_chunks fuel g body s = foldM (λ s '(a, n, o), body s a n o) s (place a (a - start) (n :: line_sizes k left line)).
Proof.
  intros Hl. revert k g s a n left. induction fuel as [|fuel IH]; intros k g s a n left Hst Hf Hk; [lia|].
  pose proof Hst as [H1 H2 H3 H4 H5 H6 H7 (H8 & H9 & H10 & H11 & H12)].
  cbn [for_chunks place foldM]. unfold cg_done, cg_complete. rewrite H1, H2, H5, wrap_small by done.
  rewrite (proj2 (Z.eqb_neq n 0)) by lia. destruct (body s a n (a - start)) as [s'|e]; cbn [mbind result_bind]; [|done].
  destruct k as [|k]; cbn [line_sizes].
  - assert (left = 0) as -> by lia. destruct fuel; [lia|]. cbn [for_chunks place foldM]. unfold cg_next, cg_done. by rewrite H3.
  - destruct (Z.eqb_spec left 0) as [->|Hne].
    + destruct fuel; [lia|]. cbn [for_chunks place foldM]. unfold cg_next, cg_done. by rewrite H3.
    + rewrite (IH k _ s' (a + n) (Z.min left line) (left - Z.min left line)); [|by apply standing_next; [| |lia]|lia|lia].
      replace (a + n - start) with (a - start + n) by lia. done.
Qed.

(** The loop over a region of the address space visits its chunks in order. *)
Lemma chunk_loop_spec {St} start total line (body : St → Z → Z → Z → result St) s :
  region start total → isPowerOf2 line = true → 0 < line < 2 ^ 31 →
  chunk_loop start total line body s = foldM (λ s '(a, n, o), body s a n o) s (chunks start total line).
Proof.
  intros (Hs & Ht & Hend) Hpow Hl. unfold chunk_loop, ChunkGenerator_make. rewrite Hpow, orb_true_r. cbn [assertb mbind result_bind].
  rewrite (proj2 (Z.eqb_neq line 0)) by lia. apply isPowerOf2_iff in Hpow as (k & Hk0 & ->); [|lia].
  assert (k < 31) by (apply (Z.pow_lt_mono_r_iff 2); lia).
  pose proof (Z.mod_pos_bound start (2 ^ k)) as Hm.
  destruct (first_line start k) as [Hnext Hleft]; [lia|done|]. cbn zeta in *. set (next := if start =? _ then _ else _) in *.
  rewrite Hleft. set (first := Z.min total _). rewrite wrap_small by (unfold in_width; lia). cbn zeta.
  destruct (Z.eqb_spec total 0) as [->|Hne].
  - replace first with 0 by lia. unfold chunks, chunk_sizes. done.
  - rewrite (for_chunks_run _ (Z.to_nat total) _ body s (2 ^ k) start start first (total - first)); [|lia| |lia|lia].
    { rewrite Z.sub_diag. unfold chunks, chunk_sizes. fold first. by rewrite (proj2 (Z.eqb_neq total 0)). }
    split; cbn [cg_curAddr cg_nextAddr cg_curSize cg_sizeLeft cg_startAddr cg_chunkSize]; try done.
    + intros Hx. rewrite Hnext. f_equal. lia.
    + rewrite Z.sub_diag. done.
    + unfold in_width in *. lia.
Qed.
