(* ===== verification/Trie.v ===== *)
(** * The trie of gem5

    [src/gem5-pard/src/base/trie.hh] with 64-bit keys: values at prefixes of keys,
    found by the shortest prefix that matches.  A null pointer is [Null]; a
    handle is the key and the mask of its node, which name the node since a
    trie is a tree of ever longer prefixes ([kid_of]). *)

From S2P Require Import Prelude BaseLib.
Local Open Scope Z_scope.

(** ** Nodes *)

Section Trie.

Context {V : Type}.

Inductive Node : Type :=
| Null
| mkNode (key mask : Z) (value : option V) (kid0 kid1 : Node).

Definition Node_make (key mask : Z) (value : option V) : Node := mkNode (Z.land key mask) mask value Null Null.

(** [Trie::Trie]: the head. *)
Definition trie_empty : Node := Node_make 0 0 None.

Definition Handle : Type := Z * Z.
Definition MaxBits : Z := 64.

(** [Node::matches], false on a null pointer as every caller checks. *)
Definition matches (n : Node) (test : Z) : bool :=
  match n with Null => false | mkNode key mask _ _ _ => Z.land test mask =? key end.

Definition goesAfter (kid : Node) (key new_mask : Z) : bool :=
  match kid with
  | Null => false
  | mkNode _ mask _ _ _ => matches kid key && (Z.land mask new_mask =? mask)
  end.

Definition extendMask (orig : Z) : Z := Z.lor (Z.lor orig (Z.shiftr orig 1)) (Z.shiftl 1 (MaxBits - 1)).

(** [lookupHandle] from a node: the handle and its value. *)
Fixpoint lookupHandle (n : Node) (key : Z) : option (Handle * V) :=
  match n with
  | Null => None
  | mkNode nkey nmask (Some v) _ _ => Some ((nkey, nmask), v)
  | mkNode _ _ None kid0 kid1 =>
      if matches kid0 key then lookupHandle kid0 key
      else if matches kid1 key then lookupHandle kid1 key else None
  end.
Definition trie_lookup (t : Node) (key : Z) : option V := snd <$> lookupHandle t key.

(** ** Insertion *)

(** The do-while loop that walks down a leg; a mask has at most 65 values. *)
Fixpoint walk_leg (fuel : nat) (key kidkey new_mask cur_mask : Z) : result Z :=
  match fuel with
  | O => Err OutOfFuel
  | S fuel =>
      let last_mask := cur_mask in
      let cur_mask := extendMask cur_mask in
      if negb (Z.land key cur_mask =? Z.land kidkey cur_mask) || (last_mask =? new_mask)
      then Ok last_mask else walk_leg fuel key kidkey new_mask cur_mask
  end.

(** One leg of the for loop: the new kid, or [None] to go on with the next leg. *)
Definition insert_leg (kid : Node) (key new_mask node_mask : Z) (val : V) : result (option Node) :=
  match kid with
  | Null => Ok (Some (Node_make key new_mask (Some val)))
  | mkNode kidkey _ _ _ _ =>
      cur_mask ← walk_leg 65 key kidkey new_mask node_mask;
      if cur_mask =? node_mask then Ok None
      else if cur_mask =? new_mask then Ok (Some (mkNode (Z.land key cur_mask) cur_mask (Some val) kid Null))
      else Ok (Some (mkNode (Z.land key cur_mask) cur_mask None kid (Node_make key new_mask (Some val))))
  end.

(** What happens at the node where the walk stops. *)
Definition insert_here (nkey nmask : Z) (nvalue : option V) (kid0 kid1 : Node) (key new_mask : Z) (val : V) : result Node :=
  if nmask =? new_mask then
    match nvalue with Some _ => Err AssertFail | None => Ok (mkNode nkey nmask (Some val) kid0 kid1) end
  else
    r0 ← insert_leg kid0 key new_mask nmask val;
    match r0 with
    | Some kid0 => Ok (mkNode nkey nmask nvalue kid0 kid1)
    | None =>
        r1 ← insert_leg kid1 key new_mask nmask val;
        match r1 with
        | Some kid1 => Ok (mkNode nkey nmask nvalue kid0 kid1)
        | None => Err PanicCalled
        end
    end.

Fixpoint insert_at (n : Node) (key new_mask : Z) (val : V) : result Node :=
  match n with
  | Null => Err NullDeref
  | mkNode nkey nmask nvalue kid0 kid1 =>
      if goesAfter kid0 key new_mask then kid0 ← insert_at kid0 key new_mask val; Ok (mkNode nkey nmask nvalue kid0 kid1)
      else if goesAfter kid1 key new_mask then kid1 ← insert_at kid1 key new_mask val; Ok (mkNode nkey nmask nvalue kid0 kid1)
      else insert_here nkey nmask nvalue kid0 kid1 key new_mask val
  end.

(** The mask of a width; a shift by the whole width is undefined. *)
Definition width_mask (width : Z) : result Z :=
  if MaxBits <=? width then Ok (wrap 64 (-1))
  else if width =? 0 then Err BadShift else Ok (wrap 64 (Z.shiftl (wrap 64 (-1)) (MaxBits - width))).

Definition trie_insert (t : Node) (key width : Z) (val : V) : result (Node * Handle) :=
  new_mask ← width_mask width;
  let key := Z.land key new_mask in
  t ← insert_at t key new_mask val;
  Ok (t, (key, new_mask)).

(** ** Removal *)

(** The parent after the kid in slot [i] changed: a kid that is unlinked leaves
    its first kid; the parent keeps a single kid in slot 0 and goes itself when
    it has lost its purpose. *)
Definition kid0_of (n : Node) : Node := match n with Null => Null | mkNode _ _ _ kid0 _ => kid0 end.
Definition unlink (key mask : Z) (value : option V) (kid0 kid1 : Node) (second : bool) (is_head : bool) : Node * bool :=
  let '(kid0, kid1) := if second then (kid0, kid0_of kid1) else (kid0_of kid0, kid1) in
  let '(kid0, kid1) := match kid0, kid1 with Null, mkNode _ _ _ _ _ => (kid1, Null) | _, _ => (kid0, kid1) end in
  (mkNode key mask value kid0 kid1,
   match kid1, value with Null, None => negb is_head | _, _ => false end).

(** The handle is found by walking down from the head along its key; the
    result says whether the node itself has to be unlinked from its parent. *)
Fixpoint remove_at (n : Node) (is_head : bool) (h : Handle) : result (Node * bool) :=
  match n with
  | Null => Err NullDeref
  | mkNode key mask value kid0 kid1 =>
      if bool_decide ((key, mask) = h) then
        match kid1 with
        | Null => if is_head then Err PanicCalled else Ok (n, true)
        | _ => match value with None => Err AssertFail | Some _ => Ok (mkNode key mask None kid0 kid1, false) end
        end
      else if matches kid0 h.1 then
        '(k, gone) ← remove_at kid0 false h;
        Ok (if (gone : bool) then unlink key mask value k kid1 false is_head else (mkNode key mask value k kid1, false))
      else if matches kid1 h.1 then
        '(k, gone) ← remove_at kid1 false h;
        Ok (if (gone : bool) then unlink key mask value kid0 k true is_head else (mkNode key mask value kid0 k, false))
      else Err NullDeref
  end.
Definition trie_remove (t : Node) (h : Handle) : result Node := '(t, _) ← remove_at t true h; Ok t.

(** [remove(Key)]. *)
Definition trie_remove_key (t : Node) (key : Z) : result (Node * option V) :=
  match lookupHandle t key with
  | None => Ok (t, None)
  | Some (h, v) => t ← trie_remove t h; Ok (t, Some v)
  end.

End Trie.
Arguments Node : clear implicits.

(** ** Prefixes *)

(** The mask of [w] leading bits, and the [w] leading bits of a key. *)
Definition pmask (w : Z) : Z := Z.shiftl (Z.ones w) (64 - w).
Definition pre (w k : Z) : Z := Z.shiftr k (64 - w).

Lemma pmask_testbit w i : 0 ≤ w ≤ 64 → 0 ≤ i → Z.testbit (pmask w) i = bool_decide (64 - w ≤ i < 64).
Proof.
  intros Hw Hi. unfold pmask. rewrite Z.shiftl_spec by lia. destruct (decide (i < 64 - w)).
  { rewrite Z.testbit_neg_r by lia. by rewrite bool_decide_eq_false_2 by lia. }
  destruct (decide (i < 64)).
  - rewrite Z.ones_spec_low, bool_decide_eq_true_2 by lia. done.
  - rewrite Z.ones_spec_high, bool_decide_eq_false_2 by lia. done.
Qed.

Lemma pre_testbit w k i : 0 ≤ w ≤ 64 → 0 ≤ i → Z.testbit (pre w k) i = Z.testbit k (i + (64 - w)).
Proof. intros. unfold pre. by rewrite Z.shiftr_spec by lia. Qed.

Lemma width_testbit k i : in_width 64 k → 64 ≤ i → Z.testbit k i = false.
Proof. intros Hk Hi. destruct (decide (k = 0)) as [->|]; [apply Z.testbit_0_l|]. apply Z.bits_above_log2; [apply Hk|]. apply Z.log2_lt_pow2; unfold in_width in *; [lia|].
  eapply Z.lt_le_trans; [apply Hk|]. apply Z.pow_le_mono_r; lia. Qed.

(** Two keys have the same prefix when they agree bit by bit. *)
Lemma pre_eq w a b : 0 ≤ w ≤ 64 → in_width 64 a → in_width 64 b →
  pre w a = pre w b ↔ ∀ i, 64 - w ≤ i < 64 → Z.testbit a i = Z.testbit b i.
Proof.
  intros Hw Ha Hb. split.
  - intros H i Hi. replace i with ((i - (64 - w)) + (64 - w)) by lia. rewrite <-!pre_testbit by lia. by rewrite H.
  - intros H. apply Z.bits_inj'. intros i Hi. rewrite !pre_testbit by lia. destruct (decide (i + (64 - w) < 64)).
    + apply H. lia.
    + rewrite !width_testbit by (done || lia). done.
Qed.

Lemma land_pre w a b : 0 ≤ w ≤ 64 → in_width 64 a → in_width 64 b →
  Z.land a (pmask w) = Z.land b (pmask w) ↔ pre w a = pre w b.
Proof.
  intros Hw Ha Hb. rewrite pre_eq by done. split.
  - intros H i Hi. apply (f_equal (λ x, Z.testbit x i)) in H. rewrite !Z.land_spec, !pmask_testbit in H by lia.
    rewrite bool_decide_eq_true_2 in H by lia. by rewrite !andb_true_r in H.
  - intros H. apply Z.bits_inj'. intros i Hi. rewrite !Z.land_spec, !pmask_testbit by lia. case_bool_decide; [by rewrite H|].
    by rewrite !andb_false_r.
Qed.

Lemma pre_mono w w' a b : 0 ≤ w' ∧ w' ≤ w ≤ 64 → in_width 64 a → in_width 64 b → pre w a = pre w b → pre w' a = pre w' b.
Proof. intros Hw Ha Hb H. rewrite pre_eq in * by (done || lia). intros i Hi. apply H. lia. Qed.

Lemma land_pmask w a b : 0 ≤ w ≤ 64 → 0 ≤ a ≤ 64 → b = Z.min w a → Z.land (pmask w) (pmask a) = pmask b.
Proof.
  intros Hw Ha ->. apply Z.bits_inj'. intros i Hi. rewrite Z.land_spec, !pmask_testbit by lia.
  repeat case_bool_decide; (done || lia).
Qed.

Lemma pmask_inj a b : 0 ≤ a ≤ 64 → 0 ≤ b ≤ 64 → pmask a = pmask b → a = b.
Proof.
  intros Ha Hb H. destruct (Z.lt_trichotomy a b) as [Hl|[->|Hl]]; [|done|];
    [apply (f_equal (λ x, Z.testbit x (64 - b))) in H|apply (f_equal (λ x, Z.testbit x (64 - a))) in H];
    rewrite !pmask_testbit in H by lia; repeat case_bool_decide; (done || lia).
Qed.

Lemma extendMask_pmask w : 0 ≤ w ≤ 64 → extendMask (pmask w) = pmask (Z.min 64 (w + 1)).
Proof.
  intros Hw. apply Z.bits_inj'. intros i Hi. unfold extendMask, MaxBits.
  rewrite !Z.lor_spec, Z.shiftr_spec, !pmask_testbit by lia. rewrite Z.shiftl_1_l, Z.pow2_bits_eqb by lia.
  destruct (Z.eqb_spec (64 - 1) i); repeat case_bool_decide; (done || lia).
Qed.

Lemma pmask_width w : 0 ≤ w ≤ 64 → in_width 64 (pmask w).
Proof.
  intros Hw. unfold pmask, in_width. rewrite Z.shiftl_mul_pow2, Z.ones_equiv by lia.
  assert (2 ^ w * 2 ^ (64 - w) = 2 ^ 64) as H by (rewrite <-Z.pow_add_r by lia; f_equal; lia).
  pose proof (Z.pow_pos_nonneg 2 w). pose proof (Z.pow_pos_nonneg 2 (64 - w)). nia.
Qed.

Lemma land_width a b : in_width 64 a → 0 ≤ b → in_width 64 (Z.land a b).
Proof.
  intros Ha Hb. split; [apply Z.land_nonneg; left; apply Ha|].
  destruct (decide (Z.land a b = 0)) as [->|]; [done|]. apply Z.log2_lt_pow2; [pose proof (proj2 (Z.land_nonneg a b) (or_introl (proj1 Ha))); lia|].
  eapply Z.le_lt_trans; [apply Z.log2_land; [apply Ha|done]|]. destruct (decide (a = 0)) as [->|]; [done|].
  pose proof (Z.log2_lt_pow2 a 64). unfold in_width in *. lia.
Qed.

Lemma width_mask_spec w : 0 < w ≤ 64 → width_mask w = Ok (pmask w).
Proof.
  intros Hw. unfold width_mask, MaxBits. destruct (Z.leb_spec 64 w).
  - by replace w with 64 by lia.
  - destruct (Z.eqb_spec w 0); [lia|]. f_equal. apply Z.bits_inj'. intros i Hi.
    rewrite pmask_testbit by lia. unfold wrap at 1. destruct (decide (i < 64)).
    + rewrite Z.mod_pow2_bits_low by lia. rewrite Z.shiftl_spec by lia. case_bool_decide.
      * change (wrap 64 (-1)) with (Z.ones 64). rewrite Z.ones_spec_low by lia. done.
      * by rewrite Z.testbit_neg_r by lia.
    + rewrite Z.mod_pow2_bits_high by lia. rewrite bool_decide_eq_false_2 by lia. done.
Qed.

(** ** Well-formed tries *)

Section Invariant.

Context {V : Type}.
Implicit Types (n k : Node V) (key w : Z).

(** The second kid is there only beside a first one, from which it differs in
    the first bit after the prefix of the parent. *)
Definition split_kids (w : Z) (k0 k1 : Node V) : Prop :=
  match k0, k1 with
  | _, Null => True
  | Null, mkNode _ _ _ _ _ => False
  | mkNode a _ _ _ _, mkNode b _ _ _ _ => pre (w + 1) a ≠ pre (w + 1) b
  end.

(** A kid of a node with [w] bits of [key]: it extends the prefix, and has a
    value or two kids. *)
Inductive kid_of (w key : Z) : Node V → Prop :=
| kid_null : kid_of w key Null
| kid_node w' key' value k0 k1 :
    w < w' ≤ 64 → in_width 64 key' → Z.land key' (pmask w') = key' → pre w key' = pre w key →
    kid_of w' key' k0 → kid_of w' key' k1 → split_kids w' k0 k1 → (value ≠ None ∨ k1 ≠ Null) →
    kid_of w key (mkNode key' (pmask w') value k0 k1).

(** The inside of a node. *)
Record inner (w key : Z) (k0 k1 : Node V) : Prop := {
  in_w : 0 ≤ w ≤ 64;
  in_key : in_width 64 key;
  in_masked : Z.land key (pmask w) = key;
  in_k0 : kid_of w key k0;
  in_k1 : kid_of w key k1;
  in_split : split_kids w k0 k1
}.

Definition trie_wf (t : Node V) : Prop := ∃ k0 k1, t = mkNode 0 0 None k0 k1 ∧ inner 0 0 k0 k1.

(** The values with the prefixes they are stored at. *)
Fixpoint trie_entries (n : Node V) : list (Handle * V) :=
  match n with
  | Null => []
  | mkNode key mask value k0 k1 => (match value with Some v => [((key, mask), v)] | None => [] end) ++ trie_entries k0 ++ trie_entries k1
  end.

Definition covers (h : Handle) (key : Z) : Prop := Z.land key h.2 = h.1.
#[export] Instance covers_dec h key : Decision (covers h key).
Proof. unfold covers. apply _. Defined.

Lemma kid_inner w key key' mask value k0 k1 :
  0 ≤ w → kid_of w key (mkNode key' mask value k0 k1) →
  ∃ w', mask = pmask w' ∧ w < w' ∧ inner w' key' k0 k1 ∧ pre w key' = pre w key ∧ (value ≠ None ∨ k1 ≠ Null).
Proof. intros H0 H. inversion H; subst. exists w'. repeat (split; try done; try lia). Qed.

Lemma inner_kid w key w' key' value k0 k1 :
  w < w' → inner w' key' k0 k1 → pre w key' = pre w key → (value ≠ None ∨ k1 ≠ Null) →
  kid_of w key (mkNode key' (pmask w') value k0 k1).
Proof. intros ? [] ? ?. constructor; (done || lia). Qed.

Lemma matches_pre w key mask value k0 k1 x :
  0 ≤ w ≤ 64 → mask = pmask w → in_width 64 key → Z.land key mask = key → in_width 64 x →
  matches (mkNode key mask value k0 k1) x = true ↔ pre w x = pre w key.
Proof. intros Hw -> Hk Hm Hx. cbn. rewrite Z.eqb_eq, <-Hm at 1. by apply land_pre. Qed.

(** Every entry below a node has a longer prefix that starts with that of the node. *)
Lemma entries_below w key n h v :
  kid_of w key n → (h, v) ∈ trie_entries n → 0 ≤ w → in_width 64 key →
  ∃ w', w < w' ≤ 64 ∧ h.2 = pmask w' ∧ in_width 64 h.1 ∧ Z.land h.1 h.2 = h.1 ∧ pre w h.1 = pre w key.
Proof.
  intros Hk. revert h v. induction Hk as [w key|w key w' key' value k0 k1 Hw Hk Hm Hp H0 IH0 H1 IH1 Hs Hv]; intros h v Hin H0w Hkey;
    [by apply elem_of_nil in Hin|].
  cbn [trie_entries] in Hin. rewrite !elem_of_app in Hin. destruct Hin as [Hin|Hin].
  - destruct value; [|by apply elem_of_nil in Hin]. apply list_elem_of_singleton in Hin as [= -> ->]. exists w'. done.
  - assert (∃ w'', w' < w'' ≤ 64 ∧ h.2 = pmask w'' ∧ in_width 64 h.1 ∧ Z.land h.1 h.2 = h.1 ∧ pre w' h.1 = pre w' key')
      as (w'' & ? & ? & ? & ? & Hpre) by (destruct Hin as [Hin|Hin]; [eapply IH0|eapply IH1]; (done || lia)).
    exists w''. split; [lia|]. split; [done|]. split; [done|]. split; [done|]. rewrite <-Hp. eapply pre_mono; [|done|done|done]. lia.
Qed.

(** A key outside the prefix of a kid is covered by nothing below it. *)
Lemma entries_outside w key n h v x :
  kid_of w key n → 0 ≤ w → in_width 64 key → in_width 64 x → matches n x = false → (h, v) ∈ trie_entries n → ¬ covers h x.
Proof.
  intros Hk Hw Hkey Hx Hm Hin Hc. destruct n as [|key' mask value k0 k1]; [by apply elem_of_nil in Hin|].
  destruct (kid_inner _ _ _ _ _ _ _ Hw Hk) as (w' & -> & Hw' & [] & _ & _).
  apply not_true_iff_false in Hm. apply Hm. apply (matches_pre w'); [done..|].
  cbn [trie_entries] in Hin. rewrite !elem_of_app in Hin. destruct Hin as [Hin|Hin].
  - destruct value; [|by apply elem_of_nil in Hin]. apply list_elem_of_singleton in Hin as [= -> ->].
    unfold covers in Hc. simpl in Hc. rewrite <-in_masked0 in Hc. by apply land_pre in Hc.
  - assert (∃ w'', w' < w'' ≤ 64 ∧ h.2 = pmask w'' ∧ in_width 64 h.1 ∧ Z.land h.1 h.2 = h.1 ∧ pre w' h.1 = pre w' key')
      as (w'' & Hw'' & E2 & E1 & Em & Hp) by (destruct Hin as [Hin|Hin]; [apply (entries_below w' key' k0 h v)|apply (entries_below w' key' k1 h v)]; (done || lia)).
    rewrite <-Hp. apply (pre_mono w'' w'); [lia|done|done|]. apply land_pre; [lia|done|done|]. by rewrite <-E2, Em.
Qed.

(** Of two kids at most one matches. *)
Lemma split_matches w key k0 k1 x :
  inner w key k0 k1 → in_width 64 x → matches k0 x = true → matches k1 x = true → False.
Proof.
  intros [Iw Ik Im Ik0 Ik1 Is] Hx H0 H1. destruct k0 as [|a m0 v0 a0 a1]; [done|]. destruct k1 as [|b m1 v1 b0 b1]; [done|].
  destruct (kid_inner _ _ _ _ _ _ _ (proj1 Iw) Ik0) as (w0 & -> & Hw0 & [] & _ & _).
  destruct (kid_inner _ _ _ _ _ _ _ (proj1 Iw) Ik1) as (w1 & -> & Hw1 & [] & _ & _).
  apply (matches_pre w0) in H0; [|done..]. apply (matches_pre w1) in H1; [|done..].
  apply Is. transitivity (pre (w + 1) x); [symmetry|]; [apply (pre_mono w0)|apply (pre_mono w1)]; (done || lia).
Qed.

(** What a lookup returns: the value at the shortest prefix that covers the key. *)
Definition lookup_spec (es : list (Handle * V)) (x : Z) (r : option (Handle * V)) : Prop :=
  match r with
  | Some (h, v) => (h, v) ∈ es ∧ covers h x ∧ ∀ h' v', (h', v') ∈ es → covers h' x → Z.land h.2 h'.2 = h.2
  | None => ∀ h v, (h, v) ∈ es → ¬ covers h x
  end.

Lemma lookup_spec_kid (es1 es es2 : list (Handle * V)) x r :
  (∀ h v, (h, v) ∈ es1 → ¬ covers h x) → (∀ h v, (h, v) ∈ es2 → ¬ covers h x) → lookup_spec es x r →
  lookup_spec (es1 ++ es ++ es2) x r.
Proof.
  intros H1 H2 H. destruct r as [[h v]|]; cbn in *.
  - destruct H as (Hin & Hc & Hs). split; [set_solver|]. split; [done|]. intros h' v' Hin' Hc'.
    rewrite !elem_of_app in Hin'. destruct Hin' as [?|[?|?]]; [by exfalso; eapply H1|by eapply Hs|by exfalso; eapply H2].
  - intros h v. rewrite !elem_of_app. naive_solver.
Qed.

Lemma lookupHandle_spec n x w key mask value k0 k1 :
  n = mkNode key mask value k0 k1 → mask = pmask w → inner w key k0 k1 → in_width 64 x → pre w x = pre w key →
  lookup_spec (trie_entries n) x (lookupHandle n x).
Proof.
  revert w key mask value k0 k1. induction n as [|key mask value k0 IH0 k1 IH1]; intros w ? ? ? ? ? Hn -> HI Hx Hp; [done|].
  injection Hn as <- -> <- <- <-. pose proof HI as [Iw Ik Im Ik0 Ik1 Is]. cbn [lookupHandle trie_entries].
  destruct value as [v|].
  - cbn. split; [by left|]. split; [unfold covers; simpl; rewrite <-Im; by apply land_pre|].
    intros h' v' Hin Hc. rewrite elem_of_cons, elem_of_app in Hin. destruct Hin as [[= -> ->]|Hin]; [simpl; apply Z.land_diag|].
    assert (∃ w', w < w' ≤ 64 ∧ h'.2 = pmask w') as (w' & Hw' & ->)
      by (destruct Hin as [Hin|Hin]; [destruct (entries_below w key k0 h' v') as (w' & ? & ? & _)|destruct (entries_below w key k1 h' v') as (w' & ? & ? & _)]; try done; try lia; by exists w').
    simpl. apply land_pmask; lia.
  - destruct (matches k0 x) eqn:M0.
    + apply (lookup_spec_kid [] _ (trie_entries k1)); [by intros ? ? ?%elem_of_nil| |].
      { intros h v Hin. eapply (entries_outside w key k1); try done; [lia|]. apply not_true_iff_false. intros M1. exact (split_matches w key k0 k1 x HI Hx M0 M1). }
      destruct k0 as [|key' mask' value' a b]; [done|].
      destruct (kid_inner w _ _ _ _ _ _ (proj1 Iw) Ik0) as (w' & -> & Hw' & HI' & Hp' & _). pose proof HI' as [].
      eapply IH0; try done. by apply (matches_pre w') in M0.
    + destruct (matches k1 x) eqn:M1.
      * cbn [app]. rewrite <-(app_nil_r (trie_entries k1)). apply (lookup_spec_kid (trie_entries k0) _ []); [|by intros ? ? ?%elem_of_nil|].
        { intros h v Hin. eapply (entries_outside w key k0); try done. lia. }
        destruct k1 as [|key' mask' value' a b]; [done|].
        destruct (kid_inner w _ _ _ _ _ _ (proj1 Iw) Ik1) as (w' & -> & Hw' & HI' & Hp' & _). pose proof HI' as [].
        eapply IH1; try done. by apply (matches_pre w') in M1.
      * intros h v. cbn. rewrite elem_of_app. intros [Hin|Hin]; [apply (entries_outside w key k0 h v)|apply (entries_outside w key k1 h v)]; (done || lia).
Qed.

(** ** Insertion *)

Lemma pre_half w x : 0 ≤ w < 64 → pre w x = pre (w + 1) x / 2.
Proof.
  intros Hw. unfold pre. replace (64 - w) with (64 - (w + 1) + 1) by lia.
  rewrite <-Z.shiftr_shiftr, Z.shiftr_div_pow2 by lia. done.
Qed.

Lemma walk_leg_spec fuel key kk nw c :
  in_width 64 key → in_width 64 kk → 0 ≤ c ∧ c ≤ nw ≤ 64 → (Z.to_nat (nw - c) < fuel)%nat → pre c key = pre c kk →
  ∃ r, walk_leg fuel key kk (pmask nw) (pmask c) = Ok (pmask r) ∧ c ≤ r ≤ nw ∧ pre r key = pre r kk ∧
    (r = nw ∨ pre (r + 1) key ≠ pre (r + 1) kk).
Proof.
  intros Hkey Hkk. revert c. induction fuel as [|fuel IH]; intros c Hc Hf Hp; [lia|]. cbn [walk_leg].
  rewrite extendMask_pmask by lia. destruct (Z.eqb_spec (pmask c) (pmask nw)) as [E|E].
  { apply pmask_inj in E as ->; [|lia|lia]. rewrite orb_true_r. exists nw. split; [done|]. split; [lia|]. split; [done|]. by left. }
  rewrite orb_false_r. assert (c ≠ nw) by congruence. rewrite Z.min_r by lia.
  destruct (Z.eqb_spec (Z.land key (pmask (c + 1))) (Z.land kk (pmask (c + 1)))) as [E1|E1]; cbn [negb];
    rewrite land_pre in E1 by (done || lia).
  - destruct (IH (c + 1)) as (r & -> & Hr & Hpr & Hend); [lia|lia|done|]. exists r. split; [done|]. split; [lia|done].
  - exists c. split; [done|]. split; [lia|]. split; [done|]. by right.
Qed.

(** Two kids whose prefixes start the same way, in either place of a split. *)
Definition same_head (w : Z) (k k' : Node V) : Prop :=
  match k, k' with mkNode a _ _ _ _, mkNode b _ _ _ _ => pre (w + 1) a = pre (w + 1) b | _, _ => False end.

Lemma split_same0 w k0 k0' k1 : split_kids w k0 k1 → same_head w k0 k0' → split_kids w k0' k1.
Proof. destruct k0, k0', k1; simpl; congruence. Qed.
Lemma split_same1 w k0 k1 k1' : split_kids w k0 k1 → same_head w k1 k1' → split_kids w k0 k1'.
Proof. destruct k0, k1, k1'; simpl; (done || congruence). Qed.

(** A new leaf. *)
Lemma leaf_kid w nkey key nw (val : V) :
  0 ≤ w < nw → nw ≤ 64 → in_width 64 key → Z.land key (pmask nw) = key → pre w key = pre w nkey →
  kid_of w nkey (Node_make key (pmask nw) (Some val)).
Proof.
  intros Hw Hn Hk Hm Hp. unfold Node_make. rewrite Hm. apply inner_kid; [lia| |done|by left].
  split; (done || lia || constructor).
Qed.

Lemma insert_leg_spec w nkey kk kmask kvalue a b key nw (val : V) :
  let kid := mkNode kk kmask kvalue a b in
  0 ≤ w < nw → nw ≤ 64 → in_width 64 nkey → in_width 64 key → Z.land key (pmask nw) = key → pre w key = pre w nkey →
  kid_of w nkey kid → goesAfter kid key (pmask nw) = false →
  (insert_leg kid key (pmask nw) (pmask w) val = Ok None ∧ pre (w + 1) key ≠ pre (w + 1) kk) ∨
  ∃ kid', insert_leg kid key (pmask nw) (pmask w) val = Ok (Some kid') ∧ kid_of w nkey kid' ∧ same_head w kid kid' ∧
    trie_entries kid' ≡ₚ ((key, pmask nw), val) :: trie_entries kid.
Proof.
  intros kid Hw Hn Hnk Hk Hm Hp Hkid Hg. destruct (kid_inner w _ _ _ _ _ _ (proj1 Hw) Hkid) as (kw & -> & Hkw & HI & Hkp & Hpur).
  pose proof HI as [Iw Ikk Im _ _ _]. unfold insert_leg, kid.
  destruct (walk_leg_spec 65 key kk nw w) as (r & -> & Hr & Hpr & Hend); [done|done|lia|lia|by rewrite Hp|].
  cbn [mbind result_bind].
  destruct (Z.eqb_spec (pmask r) (pmask w)) as [E|E].
  { apply pmask_inj in E as ->; [|lia|lia]. left. split; [done|]. destruct Hend as [->|]; [lia|done]. }
  assert (w < r) by (assert (r ≠ w) by congruence; lia).
  assert (r < kw) as Hrk.
  { destruct (decide (r < kw)); [done|]. exfalso. unfold goesAfter, kid in Hg. apply andb_false_iff in Hg as [Hg|Hg].
    - apply not_true_iff_false in Hg. apply Hg, (matches_pre kw); [done..|]. apply (pre_mono r); (done || lia).
    - apply Z.eqb_neq in Hg. apply Hg, land_pmask; lia. }
  assert (in_width 64 (Z.land key (pmask r))) as Hkr by (apply land_width; [done|apply pmask_width; lia]).
  assert (pre r (Z.land key (pmask r)) = pre r key) as Hpk.
  { apply land_pre; [lia|done|done|]. by rewrite <-Z.land_assoc, Z.land_diag. }
  assert (pre (w + 1) kk = pre (w + 1) (Z.land key (pmask r))) as Hsame by (apply (pre_mono r); [lia|done|done|by rewrite Hpk]).
  assert (pre w (Z.land key (pmask r)) = pre w nkey) as Hpw by (rewrite <-Hp; apply (pre_mono r); (done || lia)).
  assert (kid_of r (Z.land key (pmask r)) (mkNode kk (pmask kw) kvalue a b)) as Hk0 by (apply inner_kid; [done|done|by rewrite Hpk|done]).
  right. destruct (Z.eqb_spec (pmask r) (pmask nw)) as [En|En].
  - apply pmask_inj in En as ->; [|lia|lia]. eexists. split; [done|]. split; [|split; [done|]].
    + apply inner_kid; [done| |done|by left]. split; try done; [lia|by rewrite <-Z.land_assoc, Z.land_diag|constructor].
    + cbn [trie_entries]. by rewrite Hm, app_nil_r.
  - assert (r ≠ nw) by congruence. destruct Hend as [?|Hend]; [done|]. eexists. split; [done|]. split; [|split; [done|]].
    + apply inner_kid; [done| |done|by right]. split; try done; [lia|by rewrite <-Z.land_assoc, Z.land_diag|by apply leaf_kid; (done || lia)|].
      unfold Node_make. simpl. rewrite Hm. congruence.
    + unfold Node_make. cbn [trie_entries app]. rewrite Hm, (comm (++)). done.
Qed.

(** The new inside of a node when a kid is replaced. *)
Lemma inner_kid0 w key k0 k1 k0' : inner w key k0 k1 → kid_of w key k0' → same_head w k0 k0' → inner w key k0' k1.
Proof. intros [] Hk Hs. split; try done. by eapply split_same0. Qed.
Lemma inner_kid1 w key k0 k1 k1' : inner w key k0 k1 → kid_of w key k1' → same_head w k1 k1' → inner w key k0 k1'.
Proof. intros [] Hk Hs. split; try done. by eapply split_same1. Qed.

(** What an insertion at a node has to establish: the node keeps its prefix and
    holds one value more. *)
Definition inserted (w nkey : Z) (nvalue : option V) (k0 k1 : Node V) (e : Handle * V) (n' : Node V) : Prop :=
  ∃ nvalue' k0' k1', n' = mkNode nkey (pmask w) nvalue' k0' k1' ∧ inner w nkey k0' k1' ∧
    (nvalue ≠ None ∨ k1 ≠ Null → nvalue' ≠ None ∨ k1' ≠ Null) ∧ (nvalue = nvalue' ∨ e.1.2 = pmask w) ∧
    trie_entries n' ≡ₚ e :: trie_entries (mkNode nkey (pmask w) nvalue k0 k1).

Lemma inserted_kid0 w nkey nvalue k0 k1 k0' e :
  inner w nkey k0 k1 → kid_of w nkey k0' → same_head w k0 k0' ∨ k0 = Null ∧ k1 = Null →
  trie_entries k0' ≡ₚ e :: trie_entries k0 →
  inserted w nkey nvalue k0 k1 e (mkNode nkey (pmask w) nvalue k0' k1).
Proof.
  intros HI Hk Hs Hp. exists nvalue, k0', k1. split; [done|]. split; [|split; [done|split; [by left|]]].
  - destruct Hs as [Hs|[-> ->]]; [by eapply inner_kid0|]. destruct HI. split; try done. by destruct k0'.
  - cbn [trie_entries]. rewrite Hp. cbn [app]. by rewrite <-Permutation_middle.
Qed.

Lemma inserted_kid1 w nkey nvalue k0 k1 k1' e :
  inner w nkey k0 k1 → kid_of w nkey k1' → split_kids w k0 k1' → k1' ≠ Null → trie_entries k1' ≡ₚ e :: trie_entries k1 →
  inserted w nkey nvalue k0 k1 e (mkNode nkey (pmask w) nvalue k0 k1').
Proof.
  intros HI Hk Hs Hn Hp. exists nvalue, k0, k1'. split; [done|]. split; [by destruct HI; split|]. split; [by right|split; [by left|]].
  cbn [trie_entries]. rewrite Hp, <-Permutation_middle. cbn [app]. by rewrite <-Permutation_middle.
Qed.

Lemma insert_here_spec w nkey nvalue k0 k1 key nw (val : V) :
  inner w nkey k0 k1 → w ≤ nw ≤ 64 → in_width 64 key → Z.land key (pmask nw) = key → pre w key = pre w nkey →
  (∀ v', ((key, pmask nw), v') ∉ trie_entries (mkNode nkey (pmask w) nvalue k0 k1)) →
  goesAfter k0 key (pmask nw) = false → goesAfter k1 key (pmask nw) = false →
  ∃ n', insert_here nkey (pmask w) nvalue k0 k1 key (pmask nw) val = Ok n' ∧
    inserted w nkey nvalue k0 k1 ((key, pmask nw), val) n'.
Proof.
  intros HI Hw Hk Hm Hp Hnew G0 G1. pose proof HI as [Iw Ik Im Ik0 Ik1 Is]. unfold insert_here.
  destruct (Z.eqb_spec (pmask w) (pmask nw)) as [E|E].
  { apply pmask_inj in E as <-; [|lia|lia]. assert (key = nkey) as <- by (rewrite <-Hm, <-Im; by apply land_pre).
    destruct nvalue as [v|]; [exfalso; apply (Hnew v); by left|]. eexists. split; [done|]. exists (Some val), k0, k1.
    split; [done|]. split; [done|]. split; [by left|]. split; [by right|done]. }
  assert (w < nw) by (assert (w ≠ nw) by congruence; lia).
  destruct k0 as [|kk0 m0 v0 a0 b0].
  { destruct k1; [|done]. cbn [insert_leg mbind result_bind]. eexists. split; [done|].
    apply inserted_kid0; [done|apply leaf_kid; (done || lia)|by right|]. unfold Node_make. by rewrite Hm. }
  destruct (insert_leg_spec w nkey kk0 m0 v0 a0 b0 key nw val) as [[-> Hd]|(kid' & -> & H1 & H2 & H3)]; try done; try lia.
  2:{ cbn [mbind result_bind]. eexists. split; [done|]. apply inserted_kid0; try done. by left. }
  cbn [mbind result_bind]. destruct k1 as [|kk1 m1 v1 a1 b1].
  { cbn [insert_leg mbind result_bind]. eexists. split; [done|].
    apply inserted_kid1; [done|apply leaf_kid; (done || lia)|unfold Node_make; rewrite Hm; simpl; congruence|done|].
    unfold Node_make. by rewrite Hm. }
  destruct (insert_leg_spec w nkey kk1 m1 v1 a1 b1 key nw val) as [[-> Hd1]|(kid' & -> & H1 & H2 & H3)]; try done; try lia.
  2:{ cbn [mbind result_bind]. eexists. split; [done|]. apply inserted_kid1; try done; [by eapply split_same1|by destruct kid']. }
  exfalso. simpl in Is.
  destruct (kid_inner w _ _ _ _ _ _ (proj1 Iw) Ik0) as (w0 & _ & _ & _ & P0 & _).
  destruct (kid_inner w _ _ _ _ _ _ (proj1 Iw) Ik1) as (w1 & _ & _ & _ & P1 & _).
  rewrite (pre_half w) in Hp, P0, P1 by lia. rewrite (pre_half w nkey) in Hp, P0, P1 by lia.
  pose proof (Z.div_mod (pre (w + 1) key) 2). pose proof (Z.div_mod (pre (w + 1) kk0) 2). pose proof (Z.div_mod (pre (w + 1) kk1) 2).
  pose proof (Z.mod_pos_bound (pre (w + 1) key) 2). pose proof (Z.mod_pos_bound (pre (w + 1) kk0) 2). pose proof (Z.mod_pos_bound (pre (w + 1) kk1) 2). lia.
Qed.

Lemma goesAfter_inner w nkey kk m v a b key nw :
  0 ≤ w → 0 ≤ nw ≤ 64 → in_width 64 key → kid_of w nkey (mkNode kk m v a b) → goesAfter (mkNode kk m v a b) key (pmask nw) = true →
  ∃ kw, m = pmask kw ∧ w < kw ≤ nw ∧ inner kw kk a b ∧ pre kw key = pre kw kk ∧ pre w kk = pre w nkey ∧ (v ≠ None ∨ b ≠ Null).
Proof.
  intros Hw Hn Hk Hkid Hg. destruct (kid_inner w _ _ _ _ _ _ Hw Hkid) as (kw & -> & Hkw & HI & Hkp & Hpur). pose proof HI as [].
  unfold goesAfter in Hg. apply andb_true_iff in Hg as [Hma Hle]. apply (matches_pre kw) in Hma; [|done..].
  exists kw. split; [done|]. split; [|done]. apply Z.eqb_eq in Hle. rewrite (land_pmask kw nw (Z.min kw nw)) in Hle by lia.
  apply pmask_inj in Hle; lia.
Qed.

Lemma insert_at_spec n w nkey nvalue k0 k1 key nw (val : V) :
  n = mkNode nkey (pmask w) nvalue k0 k1 →
  inner w nkey k0 k1 → w ≤ nw ≤ 64 → in_width 64 key → Z.land key (pmask nw) = key → pre w key = pre w nkey →
  (∀ v', ((key, pmask nw), v') ∉ trie_entries n) →
  ∃ n', insert_at n key (pmask nw) val = Ok n' ∧ inserted w nkey nvalue k0 k1 ((key, pmask nw), val) n'.
Proof.
  revert w nkey nvalue k0 k1. induction n as [|nkey mask nvalue k0 IH0 k1 IH1]; intros w ? ? ? ? Hn HI Hw Hk Hm Hp Hnew; [done|].
  injection Hn as <- -> <- <- <-. pose proof HI as [Iw Ik Im Ik0 Ik1 Is]. cbn [insert_at].
  destruct (goesAfter k0 key (pmask nw)) eqn:G0; [|destruct (goesAfter k1 key (pmask nw)) eqn:G1; [|by apply insert_here_spec]].
  - destruct k0 as [|kk m v a b]; [done|].
    destruct (goesAfter_inner w nkey kk m v a b key nw) as (kw & -> & Hkw & HI' & Hpk & Hpn & Hpur); try done; try lia.
    destruct (IH0 kw kk v a b) as (n' & -> & v' & a' & b' & -> & HI2 & Hpur' & _ & Hperm); try done; try lia.
    { intros v' Hin. apply (Hnew v'). cbn [trie_entries]. set_solver. }
    cbn [mbind result_bind]. eexists. split; [done|]. apply inserted_kid0; try done; [|by left].
    apply inner_kid; [lia|done|done|by apply Hpur'].
  - destruct k1 as [|kk m v a b]; [done|].
    destruct (goesAfter_inner w nkey kk m v a b key nw) as (kw & -> & Hkw & HI' & Hpk & Hpn & Hpur); try done; try lia.
    destruct (IH1 kw kk v a b) as (n' & -> & v' & a' & b' & -> & HI2 & Hpur' & _ & Hperm); try done; try lia.
    { intros v' Hin. apply (Hnew v'). cbn [trie_entries]. set_solver. }
    cbn [mbind result_bind]. eexists. split; [done|]. apply inserted_kid1; try done.
    apply inner_kid; [lia|done|done|by apply Hpur'].
Qed.

(** ** Removal *)

Lemma kid_weaken w key w' key' n :
  kid_of w' key' n → 0 ≤ w ≤ w' → in_width 64 key' → pre w key' = pre w key → kid_of w key n.
Proof.
  intros Hk Hw Hkey Hp. destruct Hk as [|v kk value k0 k1 Hv Hkk Hm Hpk H0 H1 Hs Hpur]; [constructor|].
  apply inner_kid; [lia|by split; (done || lia)| |done]. rewrite <-Hp. apply (pre_mono w'); (done || lia).
Qed.

(** The result of a removal below a node: it stays with its prefix, or its first
    kid takes its place. *)
Definition removed (w key : Z) (is_head : bool) (es : list (Handle * V)) (r : Node V * bool) : Prop :=
  ∃ value k0 k1, r.1 = mkNode key (pmask w) value k0 k1 ∧ inner w key k0 k1 ∧
    if r.2 then is_head = false ∧ k1 = Null ∧ es ≡ₚ trie_entries k0
    else (is_head = false → value ≠ None ∨ k1 ≠ Null) ∧ es ≡ₚ trie_entries r.1.

(** The kid that takes the place of one that was unlinked. *)
Lemma unlinked_kid w key w' key' k0 :
  0 ≤ w < w' → in_width 64 key → inner w' key' k0 Null → pre w key' = pre w key →
  kid_of w key k0 ∧ (k0 = Null ∨ ∀ m v a b, same_head w (mkNode key' m v a b) k0).
Proof.
  intros Hw Hkey [Iw Ik Im Ik0 _ _] Hp. split; [eapply kid_weaken; (done || lia)|].
  destruct k0 as [|kk mk vk ak bk]; [by left|]. right. intros m v a b.
  destruct (kid_inner w' _ _ _ _ _ _ (proj1 Iw) Ik0) as (kw & _ & Hkw & [] & P & _).
  simpl. symmetry. apply (pre_mono w'); (done || lia).
Qed.

(** The parent settles with the two kids it is left with. *)
Lemma unlink_settles w key value c0 c1 is_head :
  0 ≤ w ≤ 64 → in_width 64 key → Z.land key (pmask w) = key → kid_of w key c0 → kid_of w key c1 →
  (c0 ≠ Null → split_kids w c0 c1) →
  removed w key is_head (trie_entries (mkNode key (pmask w) value c0 c1))
    (let '(k0, k1) := match c0, c1 with Null, mkNode _ _ _ _ _ => (c1, Null) | _, _ => (c0, c1) end in
     (mkNode key (pmask w) value k0 k1, match k1, value with Null, None => negb is_head | _, _ => false end)).
Proof.
  intros Hw Hk Hm H0 H1 Hs.
  assert (∃ k0 k1, (match c0, c1 with Null, mkNode _ _ _ _ _ => (c1, Null) | _, _ => (c0, c1) end) = (k0, k1) ∧
    inner w key k0 k1 ∧ trie_entries c0 ++ trie_entries c1 = trie_entries k0 ++ trie_entries k1) as (k0 & k1 & -> & HI & He).
  { destruct c0 as [|a m v a0 a1], c1 as [|b m' v' b0 b1]; (eexists _, _; split; [done|]; split; [split; (done || by apply Hs)|]);
      by rewrite ?app_nil_r. }
  exists value, k0, k1. split; [done|]. split; [done|]. cbn [fst snd trie_entries]. rewrite He.
  destruct k1 as [|b m v b0 b1]; [destruct value as [v|]|]; [split; [by left|done]| |split; [by right|done]].
  destruct is_head; [split; done|]. split; [done|]. split; [done|]. by rewrite app_nil_r.
Qed.

Lemma entries_matches w key n h v : kid_of w key n → 0 ≤ w → in_width 64 key → (h, v) ∈ trie_entries n → matches n h.1 = true.
Proof.
  intros Hk Hw Hkey Hin. destruct (matches n h.1) eqn:M; [done|]. exfalso.
  destruct (entries_below w key n h v) as (w' & _ & _ & Hh & Hm & _); try done.
  eapply (entries_outside w key n h v h.1); done.
Qed.

(** What follows at a node from a removal in one of its kids. *)
Lemma removed_kid0 w key value kk kw kv a b k1 is_head h (v : V) (k' : Node V) gone es :
  let k0 := mkNode kk (pmask kw) kv a b in
  inner w key k0 k1 → w < kw → pre w kk = pre w key → (is_head = false → value ≠ None ∨ k1 ≠ Null) →
  trie_entries k0 ≡ₚ (h, v) :: es → removed kw kk false es (k', gone) →
  ∃ es', trie_entries (mkNode key (pmask w) value k0 k1) ≡ₚ (h, v) :: es' ∧
    removed w key is_head es'
      (if (gone : bool) then unlink key (pmask w) value k' k1 false is_head else (mkNode key (pmask w) value k' k1, false)).
Proof.
  intros k0 HI Hkw Hp Hpur Hperm (kv' & a' & b' & Hk' & HI2 & Hcase). pose proof HI as [Iw Ik Im Ik0 Ik1 Is].
  simpl in Hk'. subst k'. pose proof HI2 as []. destruct gone; cbn [fst snd] in Hcase.
  - destruct Hcase as (_ & -> & Hes). destruct (unlinked_kid w key kw kk a') as [Hk Hsame]; try done; try lia.
    eexists. split; [|apply (unlink_settles w key value a' k1); try done].
    + cbn [trie_entries] in *. rewrite Hperm, Hes. cbn [app]. by rewrite <-Permutation_middle.
    + intros Hn. destruct Hsame as [?|Hsame]; [done|]. eapply split_same0; [exact Is|apply Hsame].
  - destruct Hcase as [Hp2 Hes]. eexists. split;
      [|exists value, (mkNode kk (pmask kw) kv' a' b'), k1; split; [done|]; split; [|cbn [fst snd]; split; [done|reflexivity]]].
    + cbn [trie_entries] in *. rewrite Hperm, Hes. cbn [app]. by rewrite <-Permutation_middle.
    + eapply inner_kid0; [done| |done]. apply inner_kid; [done|done|done|by apply Hp2].
Qed.

Lemma removed_kid1 w key value kk kw kv a b k0 is_head h (v : V) (k' : Node V) gone es :
  let k1 := mkNode kk (pmask kw) kv a b in
  inner w key k0 k1 → w < kw → pre w kk = pre w key →
  trie_entries k1 ≡ₚ (h, v) :: es → removed kw kk false es (k', gone) →
  ∃ es', trie_entries (mkNode key (pmask w) value k0 k1) ≡ₚ (h, v) :: es' ∧
    removed w key is_head es'
      (if (gone : bool) then unlink key (pmask w) value k0 k' true is_head else (mkNode key (pmask w) value k0 k', false)).
Proof.
  intros k1 HI Hkw Hp Hperm (kv' & a' & b' & Hk' & HI2 & Hcase). pose proof HI as [Iw Ik Im Ik0 Ik1 Is].
  simpl in Hk'. subst k'. pose proof HI2 as []. destruct gone; cbn [fst snd] in Hcase.
  - destruct Hcase as (_ & -> & Hes). destruct (unlinked_kid w key kw kk a') as [Hk Hsame]; try done; try lia.
    eexists. split; [|apply (unlink_settles w key value k0 a'); try done].
    + cbn [trie_entries] in *. rewrite Hperm, Hes. rewrite <-Permutation_middle. cbn [app]. by rewrite <-Permutation_middle.
    + intros Hn. destruct Hsame as [->|Hsame]; [by destruct k0|]. eapply split_same1; [exact Is|apply Hsame].
  - destruct Hcase as [Hp2 Hes]. eexists. split;
      [|exists value, k0, (mkNode kk (pmask kw) kv' a' b'); split; [done|]; split; [|cbn [fst snd]; split; [by right|reflexivity]]].
    + cbn [trie_entries] in *. rewrite Hperm, Hes, <-Permutation_middle. cbn [app]. by rewrite <-Permutation_middle.
    + eapply inner_kid1; [done| |done]. apply inner_kid; [done|done|done|by apply Hp2].
Qed.

Lemma remove_at_spec n w key value k0 k1 is_head h (v : V) :
  n = mkNode key (pmask w) value k0 k1 → inner w key k0 k1 → (h, v) ∈ trie_entries n → (is_head = true → value = None) →
  (is_head = false → value ≠ None ∨ k1 ≠ Null) →
  ∃ r es, remove_at n is_head h = Ok r ∧ trie_entries n ≡ₚ (h, v) :: es ∧ removed w key is_head es r.
Proof.
  revert w key value k0 k1 is_head. induction n as [|key mask value k0 IH0 k1 IH1]; intros w ? ? ? ? is_head Hn HI Hin Hh Hpur; [done|].
  injection Hn as <- -> <- <- <-. pose proof HI as [Iw Ik Im Ik0 Ik1 Is]. cbn [remove_at].
  assert (∀ k, kid_of w key k → (h, v) ∈ trie_entries k → (key, pmask w) ≠ h) as Hdeep.
  { intros k Hk Hi E. destruct (entries_below w key k h v) as (w' & ? & E2 & _); try done; [lia|]. subst h. simpl in E2.
    apply pmask_inj in E2; lia. }
  case_bool_decide as E.
  - subst h. cbn [trie_entries] in *. rewrite !elem_of_app in Hin. destruct Hin as [Hin|[Hin|Hin]];
      [|by exfalso; eapply (Hdeep k0)|by exfalso; eapply (Hdeep k1)].
    destruct value as [v'|]; [|by apply elem_of_nil in Hin]. apply list_elem_of_singleton in Hin as [= ->].
    destruct is_head; [by specialize (Hh eq_refl)|]. destruct k1 as [|b m v1 b0 b1].
    + eexists _, (trie_entries k0). split; [done|]. split; [cbn; by rewrite app_nil_r|]. exists (Some v'), k0, Null. split; [done|]. split; [done|]. done.
    + eexists _, (trie_entries k0 ++ trie_entries (mkNode b m v1 b0 b1)). split; [done|]. split; [reflexivity|]. exists None, k0, (mkNode b m v1 b0 b1). split; [done|]. split; [done|].
      cbn. split; [by right|done].
  - assert ((h, v) ∈ trie_entries k0 ∨ (h, v) ∈ trie_entries k1) as [H0|H1].
    { cbn [trie_entries] in Hin. rewrite !elem_of_app in Hin. destruct Hin as [Hin|?]; [|done]. exfalso.
      destruct value; [|by apply elem_of_nil in Hin]. by apply list_elem_of_singleton in Hin as [= -> ->]. }
    + rewrite (entries_matches w key k0 h v) by (done || lia).
      destruct k0 as [|kk m kv a b]; [by apply elem_of_nil in H0|].
      destruct (kid_inner w _ _ _ _ _ _ (proj1 Iw) Ik0) as (kw & -> & Hkw & HI' & Hp' & Hpur').
      destruct (IH0 kw kk kv a b false) as ([k' gone] & es & -> & Hperm & Hr); try done. cbn [mbind result_bind].
      destruct (removed_kid0 w key value kk kw kv a b k1 is_head h v k' gone es) as (es' & ? & ?); try done. by eexists _, es'.
    + assert (matches k1 h.1 = true) as M1 by (apply (entries_matches w key k1 h v); (done || lia)).
      destruct (entries_below w key k1 h v) as (hw & _ & _ & Hhw & _); [done|done|lia|done|].
      destruct (matches k0 h.1) eqn:M0; [exfalso; by eapply (split_matches w key k0 k1 h.1)|]. rewrite M1.
      destruct k1 as [|kk m kv a b]; [by apply elem_of_nil in H1|].
      destruct (kid_inner w _ _ _ _ _ _ (proj1 Iw) Ik1) as (kw & -> & Hkw & HI' & Hp' & Hpur').
      destruct (IH1 kw kk kv a b false) as ([k' gone] & es & -> & Hperm & Hr); try done. cbn [mbind result_bind].
      destruct (removed_kid1 w key value kk kw kv a b k0 is_head h v k' gone es) as (es' & ? & ?); try done. by eexists _, es'.
Qed.

(** ** A trie as a map from prefixes *)

Record trie_rel (t : Node V) (m : gmap Handle V) : Prop := {
  tr_wf : trie_wf t;
  tr_unique : NoDup (trie_entries t).*1;
  tr_map : m = list_to_map (trie_entries t)
}.

Lemma trie_rel_elem t m h v : trie_rel t m → (h, v) ∈ trie_entries t ↔ m !! h = Some v.
Proof. intros [_ Hu ->]. split; [by apply elem_of_list_to_map|by apply elem_of_list_to_map_2]. Qed.

Lemma trie_rel_empty : trie_rel (trie_empty : Node V) ∅.
Proof.
  split; [|constructor|done]. exists Null, Null. split; [done|]. split; (done || lia || constructor).
Qed.

Lemma trie_rel_lookup t m x : trie_rel t m → in_width 64 x → lookup_spec (map_to_list m) x (lookupHandle t x).
Proof.
  intros Hr Hx. pose proof Hr as [(k0 & k1 & Ht & HI) Hu Hm].
  assert (lookup_spec (trie_entries t) x (lookupHandle t x)) as H.
  { eapply (lookupHandle_spec t x 0 0); try done. unfold pre. rewrite Z.shiftr_0_l, Z.shiftr_div_pow2 by lia. apply Z.div_small, Hx. }
  assert (∀ h v, (h, v) ∈ map_to_list m ↔ (h, v) ∈ trie_entries t) as E
    by (intros; rewrite elem_of_map_to_list; symmetry; by apply trie_rel_elem).
  destruct (lookupHandle t x) as [[h v]|]; cbn in *.
  - destruct H as (H1 & H2 & H3). split; [by apply E|]. split; [done|]. intros h' v' Hin. apply (H3 h' v'). by apply E.
  - intros h v Hin. apply (H h v). by apply E.
Qed.

Lemma trie_rel_insert t m key w (v : V) :
  trie_rel t m → in_width 64 key → 0 < w ≤ 64 → m !! (Z.land key (pmask w), pmask w) = None →
  ∃ t', trie_insert t key w v = Ok (t', (Z.land key (pmask w), pmask w)) ∧
    trie_rel t' (<[(Z.land key (pmask w), pmask w) := v]> m).
Proof.
  intros Hr Hk Hw Hn. pose proof Hr as [(k0 & k1 & -> & HI) Hu Hm]. unfold trie_insert. rewrite width_mask_spec by done.
  cbn [mbind result_bind]. set (key' := Z.land key (pmask w)) in *.
  assert (in_width 64 key') as Hk' by (apply land_width; [done|apply pmask_width; lia]).
  destruct (insert_at_spec (mkNode 0 0 None k0 k1) 0 0 None k0 k1 key' w v) as (t' & -> & v' & k0' & k1' & -> & HI' & _ & Hv & Hp);
    try done; [lia|by subst key'; rewrite <-Z.land_assoc, Z.land_diag|..].
  { unfold pre. rewrite Z.shiftr_0_l, Z.shiftr_div_pow2 by lia. apply Z.div_small, Hk'. }
  { intros v' Hin. apply (trie_rel_elem _ _ _ _ Hr) in Hin. discriminate (eq_trans (eq_sym Hin) Hn). }
  cbn [mbind result_bind]. eexists. split; [done|].
  assert (v' = None) as -> by (destruct Hv as [->|Hv]; [done|]; simpl in Hv; apply pmask_inj in Hv; lia).
  assert (NoDup (((key', pmask w), v) :: trie_entries (mkNode 0 (pmask 0) None k0 k1)).*1) as Hd.
  { cbn [fmap list_fmap]. apply NoDup_cons. split; [|done]. intros ([h u] & E & Hin)%list_elem_of_fmap. simpl in E. subst h.
    apply (trie_rel_elem _ _ _ _ Hr) in Hin. discriminate (eq_trans (eq_sym Hin) Hn). }
  split.
  - by exists k0', k1'.
  - by rewrite Hp.
  - rewrite Hm. transitivity (list_to_map (((key', pmask w), v) :: trie_entries (mkNode 0 0 None k0 k1)) : gmap Handle V); [done|].
    apply list_to_map_proper; [done|]. by rewrite Hp.
Qed.

Lemma trie_rel_remove t m h (v : V) :
  trie_rel t m → m !! h = Some v → ∃ t', trie_remove t h = Ok t' ∧ trie_rel t' (delete h m).
Proof.
  intros Hr Hm. pose proof Hr as [(k0 & k1 & -> & HI) Hu Hmap].
  destruct (remove_at_spec (mkNode 0 0 None k0 k1) 0 0 None k0 k1 true h v) as ([t' gone] & es & Hrem & Hperm & v' & k0' & k1' & Ht' & HI' & Hcase);
    try done; [by apply (trie_rel_elem _ _ _ _ Hr)|]. simpl in Ht'. unfold trie_remove. rewrite Hrem. cbn [mbind result_bind].
  destruct gone; cbn [fst snd] in Hcase; [by destruct Hcase|]. destruct Hcase as [_ Hes].
  subst t'. eexists. split; [done|]. rewrite Hes in Hperm. clear es Hes Hrem.
  set (t' := mkNode 0 (pmask 0) v' k0' k1') in *.
  assert (NoDup (((h, v) :: trie_entries t').*1)) as Hd by (by rewrite <-Hperm).
  apply NoDup_cons in Hd as [Hh Hd]. split.
  - exists k0', k1'. split; [|done]. subst t'. f_equal. destruct v' as [u|]; [|done]. exfalso.
    assert ((((0, pmask 0), u) : Handle * V) ∈ trie_entries (mkNode 0 0 None k0 k1)) as Hin by (rewrite Hperm; right; by left).
    cbn [trie_entries app] in Hin. rewrite elem_of_app in Hin. pose proof HI as [].
    assert (∃ w', 0 < w' ≤ 64 ∧ pmask 0 = pmask w') as (w' & ? & E).
    { destruct Hin as [Hin|Hin]; [destruct (entries_below 0 0 k0 _ _ in_k2 Hin) as (w' & ? & ? & _)|destruct (entries_below 0 0 k1 _ _ in_k3 Hin) as (w' & ? & ? & _)];
        try done; by exists w'. }
    apply pmask_inj in E; lia.
  - done.
  - rewrite Hmap. transitivity (delete h (list_to_map ((h, v) :: trie_entries t')) : gmap Handle V).
    + f_equal. by apply list_to_map_proper.
    + simpl. apply delete_insert_id. by apply not_elem_of_list_to_map_1.
Qed.
End Invariant.

(** ** Properties *)

(** C38: a trie is a map from prefixes of keys to values.  If a trie represents
    a map, then a lookup returns the value at the shortest prefix that covers
    the key and nothing when no prefix does; inserting a value at a free
    prefix and removing one by its handle succeed, whatever nodes they add,
    split or merge, and give a trie that represents the map with that value
    added or deleted. *)
Theorem trie_prefix_map {V : Type} (t : Node V) (m : gmap Handle V) :
  trie_rel t m →
  (∀ x, in_width 64 x → lookup_spec (map_to_list m) x (lookupHandle t x)) ∧
  (∀ key w v, in_width 64 key → 0 < w ≤ 64 → m !! (Z.land key (pmask w), pmask w) = None →
    ∃ t', trie_insert t key w v = Ok (t', (Z.land key (pmask w), pmask w)) ∧
      trie_rel t' (<[(Z.land key (pmask w), pmask w) := v]> m)) ∧
  (∀ h v, m !! h = Some v → ∃ t', trie_remove t h = Ok t' ∧ trie_rel t' (delete h m)).
Proof.
  intros Hr. split; [|split].
  - intros x Hx. by apply trie_rel_lookup.
  - intros key w v Hk Hw Hn. by apply trie_rel_insert.
  - intros h v Hm. by eapply trie_rel_remove.
Qed.

(** Two pages under a common prefix; the smaller one goes again. *)
Lemma trie_prefix_map_witness :
  ∃ t1 t2 t3 : Node nat,
    trie_insert trie_empty 0x200000 43 1%nat = Ok (t1, (0x200000, pmask 43)) ∧
    trie_insert t1 0x7000 52 2%nat = Ok (t2, (0x7000, pmask 52)) ∧ trie_lookup t2 0x7abc = Some 2%nat ∧
    trie_remove t2 (0x7000, pmask 52) = Ok t3 ∧ trie_lookup t3 0x7abc = None.
Proof.
  destruct (trie_prefix_map (trie_empty : Node nat) ∅ trie_rel_empty) as (_ & Hi & _).
  destruct (Hi 0x200000 43 1%nat) as (t1 & H1 & R1); [done|done|by vm_compute|].
  destruct (trie_prefix_map t1 _ R1) as (_ & Hi1 & _).
  destruct (Hi1 0x7000 52 2%nat) as (t2 & H2 & R2); [done|done|by vm_compute|].
  destruct (trie_prefix_map t2 _ R2) as (L2 & _ & Hr2).
  destruct (Hr2 (0x7000, pmask 52) 2%nat) as (t3 & H3 & R3); [by vm_compute|].
  exists t1, t2, t3. split; [exact H1|]. split; [exact H2|].
  vm_compute in H1. injection H1 as <-. vm_compute in H2. injection H2 as <-. vm_compute in H3. injection H3 as <-.
  split; [done|]. split; done.
Defined.
