(* ===== verification/X86Tlb.v ===== *)
(** * The x86 TLB: the store of translations

    [src/gem5-pard/src/arch/x86/tlb.cc], [tlb.hh] and the entries of [pagetable.hh]:
    an array of entries, the list of the free ones, and a trie that finds the
    entry of an address by its page.  A pointer to an entry is its index. *)

From S2P Require Import Prelude BaseLib Trie.
Local Open Scope Z_scope.

(** ** Entries and state *)

Record TlbEntry : Type := mkTlbEntry {
  te_paddr : Z;
  te_vaddr : Z;
  te_logBytes : Z;
  te_writable : bool;
  te_user : bool;
  te_uncacheable : bool;
  te_global : bool;
  te_patBit : bool;
  te_noExec : bool;
  te_lruSeq : Z;
  te_trieHandle : option Handle
}.
#[export] Instance eta_TlbEntry : Eta TlbEntry := λ e,
  mkTlbEntry (te_paddr e) (te_vaddr e) (te_logBytes e) (te_writable e) (te_user e) (te_uncacheable e) (te_global e)
    (te_patBit e) (te_noExec e) (te_lruSeq e) (te_trieHandle e).

(** An entry of the cleared array. *)
Definition zero_entry : TlbEntry := mkTlbEntry 0 0 0 false false false false false false 0 None.

Record TLB : Type := mkTLB {
  tlb_entries : list TlbEntry;
  tlb_freeList : list nat;
  tlb_trie : Node nat;
  tlb_lruSeq : Z
}.
#[export] Instance eta_TLB : Eta TLB := λ t, mkTLB (tlb_entries t) (tlb_freeList t) (tlb_trie t) (tlb_lruSeq t).

Definition TLB_make (size : Z) : result TLB :=
  fatal_if (size =? 0) ;;
  Ok (mkTLB (replicate (Z.to_nat size) zero_entry) (seq 0 (Z.to_nat size)) trie_empty 0).

(** ** Operations *)

Definition nextSeq (t : TLB) : TLB * Z :=
  let s := wrap 64 (tlb_lruSeq t + 1) in (t <| tlb_lruSeq := s |>, s).

Definition get_entry (t : TLB) (i : nat) : result TlbEntry :=
  match tlb_entries t !! i with Some e => Ok e | None => Err OutOfBounds end.
Definition set_entry (t : TLB) (i : nat) (e : TlbEntry) : TLB := t <| tlb_entries := <[i := e]> (tlb_entries t) |>.

(** The end of an entry: it leaves the trie and becomes free. *)
Definition release (t : TLB) (i : nat) : result TLB :=
  e ← get_entry t i;
  match te_trieHandle e with
  | None => Err NullDeref
  | Some h =>
      trie ← trie_remove (tlb_trie t) h;
      Ok ((set_entry t i (e <| te_trieHandle := None |>)) <| tlb_trie := trie |> <| tlb_freeList := tlb_freeList t ++ [i] |>)
  end.

(** The scan for the least recently used entry. *)
Fixpoint lru_scan (es : list TlbEntry) (i lru : nat) (seq : Z) : nat :=
  match es with
  | [] => lru
  | e :: es => if te_lruSeq e <? seq then lru_scan es (S i) i (te_lruSeq e) else lru_scan es (S i) lru seq
  end.
Definition lru_index (t : TLB) : nat :=
  match tlb_entries t with [] => 0%nat | e :: es => lru_scan es 1 0 (te_lruSeq e) end.

Definition evictLRU (t : TLB) : result TLB :=
  e ← get_entry t (lru_index t);
  assertb (match te_trieHandle e with Some _ => true | None => false end) ;;
  release t (lru_index t).

(** [insert]: the entry that now stands for the page. *)
Definition tlb_insert (t : TLB) (vpn : Z) (entry : TlbEntry) : result (TLB * nat) :=
  match trie_lookup (tlb_trie t) vpn with
  | Some i => e ← get_entry t i; assertb (te_vaddr e =? vpn) ;; Ok (t, i)
  | None =>
      t ← (match tlb_freeList t with [] => evictLRU t | _ => Ok t end);
      match tlb_freeList t with
      | [] => Err NullDeref
      | i :: free =>
          let t := t <| tlb_freeList := free |> in
          let '(t, s) := nextSeq t in
          '(trie, h) ← trie_insert (tlb_trie t) vpn (wrap 32 (MaxBits - te_logBytes entry)) i;
          Ok ((set_entry t i (entry <| te_lruSeq := s |> <| te_vaddr := vpn |> <| te_trieHandle := Some h |>)) <| tlb_trie := trie |>, i)
      end
  end.

Definition tlb_lookup (t : TLB) (va : Z) (update_lru : bool) : result (TLB * option nat) :=
  match trie_lookup (tlb_trie t) va with
  | None => Ok (t, None)
  | Some i =>
      if update_lru then
        e ← get_entry t i;
        let '(t, s) := nextSeq t in
        Ok (set_entry t i (e <| te_lruSeq := s |>), Some i)
      else Ok (t, Some i)
  end.

(** The loops over the array that release the entries in use for which [drop] holds. *)
Definition flush_step (drop : TlbEntry → bool) (t : TLB) (i : nat) : result TLB :=
  e ← get_entry t i;
  match te_trieHandle e with
  | Some _ => if drop e then release t i else Ok t
  | None => Ok t
  end.
Definition flushAll (t : TLB) : result TLB := foldM (flush_step (λ _, true)) t (seq 0 (length (tlb_entries t))).
Definition flushNonGlobal (t : TLB) : result TLB :=
  foldM (flush_step (λ e, negb (te_global e))) t (seq 0 (length (tlb_entries t))).

Definition demapPage (t : TLB) (va : Z) : result TLB :=
  match trie_lookup (tlb_trie t) va with Some i => release t i | None => Ok t end.

(** ** Invariant *)

(** The prefix of a page, and the addresses in it. *)
Definition page_handle (e : TlbEntry) : Handle :=
  (Z.land (te_vaddr e) (pmask (64 - te_logBytes e)), pmask (64 - te_logBytes e)).
Definition in_page (e : TlbEntry) (va : Z) : Prop := Z.shiftr va (te_logBytes e) = Z.shiftr (te_vaddr e) (te_logBytes e).
Definition page_ok (e : TlbEntry) : Prop := in_width 64 (te_vaddr e) ∧ 0 ≤ te_logBytes e < 64.

Record tlb_inv (t : TLB) (m : gmap Handle nat) : Prop := {
  tw_trie : trie_rel (tlb_trie t) m;
  tw_live : ∀ h i, m !! h = Some i ↔ ∃ e, tlb_entries t !! i = Some e ∧ te_trieHandle e = Some h;
  tw_free : NoDup (tlb_freeList t);
  tw_isfree : ∀ i, i ∈ tlb_freeList t ↔ ∃ e, tlb_entries t !! i = Some e ∧ te_trieHandle e = None;
  tw_page : ∀ i e h, tlb_entries t !! i = Some e → te_trieHandle e = Some h → page_ok e ∧ h = page_handle e
}.

(** The entries in use. *)
Definition in_use (t : TLB) (i : nat) (e : TlbEntry) : Prop :=
  tlb_entries t !! i = Some e ∧ te_trieHandle e ≠ None.

Lemma covers_in_page e va : page_ok e → in_width 64 va → covers (page_handle e) va ↔ in_page e va.
Proof.
  intros [Hv Hl] Ha. unfold covers, page_handle, in_page. cbn [fst snd]. rewrite land_pre by (done || lia).
  unfold pre. by replace (64 - (64 - te_logBytes e)) with (te_logBytes e) by lia.
Qed.

(** [trie_lookup] finds the largest page in use that has the address. *)
Lemma tlb_find t m va :
  tlb_inv t m → in_width 64 va →
  match trie_lookup (tlb_trie t) va with
  | Some i => ∃ e, in_use t i e ∧ page_ok e ∧ in_page e va ∧
      ∀ j e', in_use t j e' → in_page e' va → te_logBytes e' ≤ te_logBytes e
  | None => ∀ j e', in_use t j e' → ¬ in_page e' va
  end.
Proof.
  intros [Ht Hl Hf Hi Hp] Ha. pose proof (trie_rel_lookup _ _ va Ht Ha) as H. unfold trie_lookup.
  destruct (lookupHandle (tlb_trie t) va) as [[h i]|]; cbn in *.
  - destruct H as (Hin & Hc & Hmin). apply elem_of_map_to_list, Hl in Hin as (e & He & Hh).
    destruct (Hp i e h He Hh) as [Hok ->]. exists e. split; [split; [done|by rewrite Hh]|]. split; [done|].
    split; [by apply covers_in_page|]. intros j e' [He' Hu'] Hin'. destruct (te_trieHandle e') as [h'|] eqn:Hh'; [|done].
    destruct (Hp j e' h' He' Hh') as [Hok' ->].
    assert (Z.land (page_handle e).2 (page_handle e').2 = (page_handle e).2) as Hle.
    { apply (Hmin (page_handle e') j); [|by apply covers_in_page]. apply elem_of_map_to_list, Hl. eauto. }
    destruct Hok as [_ L], Hok' as [_ L']. unfold page_handle in Hle. simpl in Hle.
    rewrite (land_pmask _ _ (Z.min (64 - te_logBytes e) (64 - te_logBytes e'))) in Hle by lia. apply pmask_inj in Hle; lia.
  - intros j e' [He' Hu'] Hin'. destruct (te_trieHandle e') as [h'|] eqn:Hh'; [|done].
    destruct (Hp j e' h' He' Hh') as [Hok' ->]. apply (H (page_handle e') j); [|by apply covers_in_page].
    apply elem_of_map_to_list, Hl. eauto.
Qed.

(** ** Releasing entries *)

Lemma release_ok t m i e :
  tlb_inv t m → in_use t i e →
  ∃ t' h, te_trieHandle e = Some h ∧ release t i = Ok t' ∧ tlb_inv t' (delete h m) ∧
    tlb_entries t' = <[i := e <| te_trieHandle := None |>]> (tlb_entries t) ∧ tlb_freeList t' = tlb_freeList t ++ [i].
Proof.
  intros [Ht Hl Hf Hi Hp] [He Hu]. destruct (te_trieHandle e) as [h|] eqn:Hh; [|done].
  unfold release, get_entry. rewrite He. cbn [mbind result_bind]. rewrite Hh.
  destruct (trie_rel_remove _ _ h i Ht) as (trie & -> & Ht'); [apply Hl; eauto|]. cbn [mbind result_bind].
  eexists _, h. split; [done|]. split; [done|]. split; [|done].
  assert (i < length (tlb_entries t))%nat as Hlen by (by eapply lookup_lt_Some).
  split; cbn -[lookup insert delete].
  - done.
  - intros h' j. rewrite lookup_delete_Some, Hl. split.
    + intros (Hne & e' & He' & Hh'). exists e'. rewrite list_lookup_insert_ne; [done|]. intros <-. congruence.
    + intros (e' & He' & Hh'). apply list_lookup_insert_Some in He' as [(-> & <- & _)|(Hne & He')]; [done|].
      split; [|by exists e']. intros <-. apply Hne. assert (m !! h = Some j) as E1 by (apply Hl; eauto).
      assert (m !! h = Some i) as E2 by (apply Hl; eauto). congruence.
  - apply NoDup_app. split; [done|]. split; [|apply NoDup_singleton]. intros j Hj ->%list_elem_of_singleton.
    apply Hi in Hj as (e' & He' & Hh'). congruence.
  - intros j. rewrite elem_of_app, list_elem_of_singleton, Hi. split.
    + intros [(e' & He' & Hh')| ->].
      * exists e'. rewrite list_lookup_insert_ne; [done|]. intros <-. congruence.
      * eexists. by rewrite list_lookup_insert_eq.
    + intros (e' & He' & Hh'). apply list_lookup_insert_Some in He' as [(-> & <- & _)|(Hne & He')]; [by right|]. left. eauto.
  - intros j e' h' He' Hh'. apply list_lookup_insert_Some in He' as [(-> & <- & _)|(Hne & He')]; [done|]. by eapply Hp.
Qed.

(** What a flush makes of an entry. *)
Definition flushed (drop : TlbEntry → bool) (e : TlbEntry) : TlbEntry :=
  match te_trieHandle e with Some _ => if drop e then e <| te_trieHandle := None |> else e | None => e end.

Lemma flush_ok drop n i t m :
  tlb_inv t m → (i + n = length (tlb_entries t))%nat →
  ∃ t' m', foldM (flush_step drop) t (seq i n) = Ok t' ∧ tlb_inv t' m' ∧
    ∀ j, tlb_entries t' !! j = if decide (i ≤ j)%nat then flushed drop <$> tlb_entries t !! j else tlb_entries t !! j.
Proof.
  revert i t m. induction n as [|n IH]; intros i t m Hwf Hl.
  { exists t, m. split; [done|]. split; [done|]. intros j. case_decide; [|done]. by rewrite lookup_ge_None_2 by lia. }
  destruct (lookup_lt_is_Some_2 (tlb_entries t) i) as [e He]; [lia|]. cbn [seq foldM].
  assert (∃ t1 m1, flush_step drop t i = Ok t1 ∧ tlb_inv t1 m1 ∧ tlb_entries t1 = <[i := flushed drop e]> (tlb_entries t))
    as (t1 & m1 & -> & Hwf1 & He1).
  { unfold flush_step, get_entry, flushed. rewrite He. cbn [mbind result_bind]. destruct (te_trieHandle e) as [h|] eqn:Hh.
    - destruct (drop e).
      + destruct (release_ok t m i e Hwf) as (t' & h' & _ & -> & Hwf' & He' & _); [split; [done|by rewrite Hh]|]. eauto.
      + exists t, m. by rewrite list_insert_id.
    - exists t, m. by rewrite list_insert_id. }
  cbn [mbind result_bind]. destruct (IH (S i) t1 m1 Hwf1) as (t' & m' & Hf & Hwf' & He'); [rewrite He1, length_insert; lia|].
  exists t', m'. split; [done|]. split; [done|]. intros j. rewrite He', He1.
  destruct (decide (j = i)) as [->|Hj].
  - rewrite decide_False, decide_True by lia. rewrite list_lookup_insert_eq by (by eapply lookup_lt_Some). by rewrite He.
  - rewrite list_lookup_insert_ne by done. repeat case_decide; (done || lia).
Qed.

Lemma flush_all_ok drop t m :
  tlb_inv t m → ∃ t' m', foldM (flush_step drop) t (seq 0 (length (tlb_entries t))) = Ok t' ∧ tlb_inv t' m' ∧
    tlb_entries t' = flushed drop <$> tlb_entries t.
Proof.
  intros Hwf. destruct (flush_ok drop (length (tlb_entries t)) 0 t m Hwf) as (t' & m' & Hf & Hwf' & He); [lia|].
  exists t', m'. split; [done|]. split; [done|]. apply list_eq. intros j. rewrite He, decide_True, list_lookup_fmap by lia. done.
Qed.

(** ** Replacement *)

Lemma lru_scan_spec es i lru seq :
  let r := lru_scan es i lru seq in
  (r = lru ∧ Forall (λ e, seq ≤ te_lruSeq e) es) ∨
  (∃ e k, r = (i + k)%nat ∧ es !! k = Some e ∧ te_lruSeq e < seq ∧ Forall (λ e', te_lruSeq e ≤ te_lruSeq e') es).
Proof.
  revert i lru seq. induction es as [|e es IH]; intros i lru seq; cbn [lru_scan]; [by left|].
  destruct (Z.ltb_spec (te_lruSeq e) seq) as [Hlt|Hge].
  - right. destruct (IH (S i) i (te_lruSeq e)) as [[-> Hall]|(e' & k & -> & Hk & Hl & Hall)].
    + exists e, 0%nat. split; [lia|]. split; [done|]. split; [done|]. constructor; (done || lia).
    + exists e', (S k). split; [lia|]. split; [done|]. split; [lia|]. constructor; (done || lia).
  - destruct (IH (S i) lru seq) as [[-> Hall]|(e' & k & -> & Hk & Hl & Hall)].
    + left. split; [done|]. by constructor.
    + right. exists e', (S k). split; [lia|]. split; [done|]. split; [done|]. constructor; (done || lia).
Qed.

(** The entry that is replaced has the smallest sequence number. *)
Lemma lru_index_spec t :
  tlb_entries t ≠ [] → ∃ e, tlb_entries t !! lru_index t = Some e ∧ Forall (λ e', te_lruSeq e ≤ te_lruSeq e') (tlb_entries t).
Proof.
  unfold lru_index. destruct (tlb_entries t) as [|e es]; [done|]. intros _.
  destruct (lru_scan_spec es 1 0 (te_lruSeq e)) as [[-> Hall]|(e' & k & -> & Hk & Hl & Hall)].
  - exists e. split; [done|]. constructor; (done || lia).
  - exists e'. split; [done|]. constructor; (done || lia).
Qed.

(** A free entry, after an eviction if need be. *)
Lemma make_room t m :
  tlb_inv t m → tlb_entries t ≠ [] →
  ∃ t' m' i free, (match tlb_freeList t with [] => evictLRU t | _ => Ok t end) = Ok t' ∧ tlb_inv t' m' ∧
    tlb_freeList t' = i :: free ∧ length (tlb_entries t') = length (tlb_entries t) ∧
    (t' = t ∨ ∃ e, tlb_freeList t = [] ∧ tlb_entries t !! i = Some e ∧ tlb_entries t' = <[i := e <| te_trieHandle := None |>]> (tlb_entries t) ∧
       Forall (λ e', te_lruSeq e ≤ te_lruSeq e') (tlb_entries t)) ∧ m' ⊆ m.
Proof.
  intros Hwf Hne. destruct (tlb_freeList t) as [|i free] eqn:Hfree.
  2:{ exists t, m, i, free. do 4 (split; [done|]). split; [by left|done]. }
  destruct (lru_index_spec t Hne) as (e & He & Hall). set (i := lru_index t) in *.
  assert (te_trieHandle e ≠ None) as Hu.
  { intros Hn. assert (i ∈ tlb_freeList t) as Hin by (apply (tw_isfree _ _ Hwf); eauto). rewrite Hfree in Hin. by apply elem_of_nil in Hin. }
  destruct (release_ok t m i e Hwf) as (t' & h & Hh & Hr & Hwf' & He' & Hf'); [done|].
  exists t', (delete h m), i, []. unfold evictLRU, get_entry. fold i. rewrite He. cbn [mbind result_bind]. rewrite Hh. cbn [assertb mbind result_bind].
  rewrite Hr, Hf', Hfree. do 3 (split; [done|]). split; [by rewrite He', length_insert|]. split; [right; eauto|apply delete_subseteq].
Qed.

(** ** Insertion and lookup *)

Lemma nextSeq_wf t m : tlb_inv t m → tlb_inv (nextSeq t).1 m.
Proof. by intros []. Qed.

(** An entry whose page and handle stay may change otherwise. *)
Lemma touch_wf t m i e e' :
  tlb_inv t m → tlb_entries t !! i = Some e →
  te_trieHandle e' = te_trieHandle e → te_vaddr e' = te_vaddr e → te_logBytes e' = te_logBytes e → tlb_inv (set_entry t i e') m.
Proof.
  intros [Ht Hl Hf Hi Hp] He H1 H2 H3. assert (i < length (tlb_entries t))%nat as Hlen by (by eapply lookup_lt_Some).
  assert (∀ P : option Handle → Prop, ∀ j, (∃ x, <[i:=e']> (tlb_entries t) !! j = Some x ∧ P (te_trieHandle x)) ↔
    ∃ x, tlb_entries t !! j = Some x ∧ P (te_trieHandle x)) as E.
  { intros P j. destruct (decide (j = i)) as [->|Hj]; [|by rewrite list_lookup_insert_ne].
    rewrite list_lookup_insert_eq by done. split.
    - intros (x & [= <-] & HP). exists e. by rewrite <-H1.
    - intros (x & Hx & HP). exists e'. rewrite H1. assert (x = e) as -> by congruence. done. }
  split; cbn -[lookup insert]; [done| |done| |].
  - intros h j. by rewrite (E (λ x, x = Some h)).
  - intros j. by rewrite (E (λ x, x = None)).
  - intros j x h Hx Hh. apply list_lookup_insert_Some in Hx as [(-> & <- & _)|(Hne & Hx)]; [|by eapply Hp].
    unfold page_ok, page_handle. rewrite H2, H3. apply (Hp j e h); [done|congruence].
Qed.

(** A free entry takes a page. *)
Lemma fill_wf t m i free e vpn s trie :
  tlb_inv t m → tlb_freeList t = i :: free → page_ok (e <| te_vaddr := vpn |>) →
  let new := e <| te_lruSeq := s |> <| te_vaddr := vpn |> <| te_trieHandle := Some (page_handle (e <| te_vaddr := vpn |>)) |> in
  trie_rel trie (<[page_handle new := i]> m) → m !! page_handle new = None → ∀ q,
  tlb_inv (mkTLB (<[i := new]> (tlb_entries t)) free trie q) (<[page_handle new := i]> m).
Proof.
  intros [Ht Hl Hf Hi Hp] Hfree Hok new Htr Hnone q.
  assert (i ∈ tlb_freeList t) as Hin by (rewrite Hfree; left). apply Hi in Hin as (e0 & He0 & Hh0).
  assert (i < length (tlb_entries t))%nat as Hlen by (by eapply lookup_lt_Some).
  rewrite Hfree in Hf, Hi. apply NoDup_cons in Hf as [Hni Hf].
  split; cbn -[lookup insert page_handle new]; [done| |done| |].
  - intros h j. rewrite lookup_insert_Some, Hl. split.
    + intros [[<- <-]|(Hne & x & Hx & Hxh)]; [exists new; by rewrite list_lookup_insert_eq|].
      exists x. rewrite list_lookup_insert_ne; [done|]. intros <-. congruence.
    + intros (x & Hx & Hxh). apply list_lookup_insert_Some in Hx as [(-> & <- & _)|(Hne & Hx)].
      * left. split; [|done]. by injection Hxh.
      * right. split; [|by exists x]. intros <-. assert (m !! page_handle new = Some j) by (apply Hl; eauto). congruence.
  - intros j. split.
    + intros Hj. assert (j ∈ i :: free) as Hj' by (by right). apply Hi in Hj' as (x & Hx & Hxh). exists x.
      rewrite list_lookup_insert_ne; [done|]. by intros <-.
    + intros (x & Hx & Hxh). apply list_lookup_insert_Some in Hx as [(-> & <- & _)|(Hne & Hx)]; [done|].
      assert (j ∈ i :: free) as Hj by (apply Hi; eauto). apply elem_of_cons in Hj as [->|?]; done.
  - intros j x h Hx Hxh. apply list_lookup_insert_Some in Hx as [(-> & <- & _)|(Hne & Hx)]; [|by eapply Hp].
    injection Hxh as <-. done.
Qed.

(** The entry an insertion leaves in the array. *)
Definition placed (e : TlbEntry) (vpn s : Z) : TlbEntry :=
  e <| te_lruSeq := s |> <| te_vaddr := vpn |> <| te_trieHandle := Some (page_handle (e <| te_vaddr := vpn |>)) |>.

Lemma tlb_insert_ok t m vpn e :
  tlb_inv t m → tlb_entries t ≠ [] → page_ok (e <| te_vaddr := vpn |>) → (∀ j e', in_use t j e' → ¬ in_page e' vpn) →
  ∃ t' m' i s, tlb_insert t vpn e = Ok (t', i) ∧ tlb_inv t' m' ∧ tlb_entries t' = <[i := placed e vpn s]> (tlb_entries t) ∧
    ∃ old, tlb_entries t !! i = Some old ∧
      (te_trieHandle old = None ∨ tlb_freeList t = [] ∧ Forall (λ e', te_lruSeq old ≤ te_lruSeq e') (tlb_entries t)).
Proof.
  intros Hwf Hne [Hv Hlog] Hmiss. cbn in Hv, Hlog. unfold tlb_insert. pose proof (tlb_find t m vpn Hwf Hv) as Hfind.
  destruct (trie_lookup (tlb_trie t) vpn) as [i|] eqn:Hlook.
  { destruct Hfind as (e' & Hu & _ & Hpage & _). by destruct (Hmiss i e' Hu). }
  destruct (make_room t m Hwf Hne) as (t1 & m1 & i & free & -> & Hwf1 & Hfree & Hlen & Hcase & Hsub). cbn [mbind result_bind].
  rewrite Hfree. cbn [nextSeq]. rewrite (wrap_small 32) by (unfold MaxBits, in_width; lia).
  set (mask := pmask (64 - te_logBytes e)). set (h := (Z.land vpn mask, mask)).
  assert (m1 !! h = None) as Hnone.
  { destruct (m1 !! h) as [j|] eqn:Hj; [|done]. exfalso.
    assert (m !! h = Some j) as Hj' by (by eapply lookup_weaken). apply (tw_live _ _ Hwf) in Hj' as (e' & He' & Hh').
    destruct (tw_page _ _ Hwf j e' h He' Hh') as [Hok' Hp']. apply (Hmiss j e'); [split; [done|by rewrite Hh']|].
    apply covers_in_page; [done..|]. rewrite <-Hp'. unfold covers, h. done. }
  destruct (trie_rel_insert (tlb_trie t1) m1 vpn (64 - te_logBytes e) i) as (trie & Hins & Htr); [apply Hwf1|done|lia|done|].
  unfold MaxBits. cbn [tlb_trie setf]. change (tlb_trie (t1 <| tlb_freeList := free |> <| tlb_lruSeq := _ |>)) with (tlb_trie t1).
  rewrite Hins. cbn [mbind result_bind]. pose proof (fill_wf t1 m1 i free e vpn (wrap 64 (tlb_lruSeq t1 + 1)) trie Hwf1 Hfree) as Hfill.
  eexists _, _, i, _. split; [done|]. split; [by apply Hfill|].
  assert (∀ x, <[i:=x]> (tlb_entries t1) = <[i:=x]> (tlb_entries t)) as Heq.
  { intros x. destruct Hcase as [->|(e0 & _ & _ & -> & _)]; [done|]. by rewrite list_insert_insert_eq. }
  split; [apply Heq|]. destruct Hcase as [->|(e0 & Hf0 & He0 & _ & Hall)]; [|exists e0; split; [done|]; by right].
  assert (i ∈ tlb_freeList t) as Hin by (rewrite Hfree; left). apply (tw_isfree _ _ Hwf) in Hin as (old & Hold & Hho).
  exists old. split; [done|]. by left.
Qed.

Lemma TLB_make_ok size : 0 < size → ∃ t, TLB_make size = Ok t ∧ tlb_inv t ∅ ∧ tlb_entries t = replicate (Z.to_nat size) zero_entry.
Proof.
  intros Hs. unfold TLB_make. destruct (Z.eqb_spec size 0); [lia|]. eexists. split; [done|]. split; [|done].
  split; cbn.
  - apply trie_rel_empty.
  - intros h i. rewrite lookup_empty. split; [done|]. intros (e & He & Hh). apply lookup_replicate in He as [-> _]. done.
  - apply NoDup_seq.
  - intros i. rewrite elem_of_seq. split.
    + intros Hi. exists zero_entry. split; [|done]. apply lookup_replicate. split; [done|lia].
    + intros (e & He & _). apply lookup_replicate in He as [_ ?]. lia.
  - intros i e h He Hh. apply lookup_replicate in He as [-> _]. done.
Qed.

Lemma tlb_lookup_ok t m va :
  tlb_inv t m → in_width 64 va →
  ∃ t' r, tlb_lookup t va true = Ok (t', r) ∧ tlb_inv t' m ∧ r = trie_lookup (tlb_trie t) va ∧ tlb_trie t' = tlb_trie t ∧
    ∀ j, te_trieHandle <$> tlb_entries t' !! j = te_trieHandle <$> tlb_entries t !! j.
Proof.
  intros Hwf Ha. pose proof (tlb_find t m va Hwf Ha) as Hf. unfold tlb_lookup, get_entry.
  destruct (trie_lookup (tlb_trie t) va) as [i|]; [|by exists t, None].
  destruct Hf as (e & [He Hu] & _). rewrite He. cbn [mbind result_bind nextSeq]. eexists _, _. split; [done|].
  split; [by eapply (touch_wf _ _ i e); [apply (nextSeq_wf t m Hwf)|..]|]. split; [done|]. split; [done|].
  intros j. cbn -[lookup insert]. destruct (decide (j = i)) as [->|Hj]; [|by rewrite list_lookup_insert_ne].
  rewrite list_lookup_insert_eq by (by eapply lookup_lt_Some). by rewrite He.
Qed.

(** ** Properties *)

(** C25: the TLB finds what was put in and not flushed.  In every state the
    operations lead to, a lookup returns the largest page in use that has the
    address, and misses only when no page in use has it; an insertion on a miss
    succeeds, fills a free entry or replaces the least recently used one, and
    leaves every other entry as it is; a flush of all entries leaves none in
    use, a flush of non-global ones leaves exactly the global ones, and
    demapping an address ends the page that a lookup would have found. *)
Theorem tlb_operations (t : TLB) (m : gmap Handle nat) :
  tlb_inv t m → tlb_entries t ≠ [] →
  (∀ va, in_width 64 va → ∃ t' r, tlb_lookup t va true = Ok (t', r) ∧ tlb_inv t' m ∧
    match r with
    | Some i => ∃ e, in_use t i e ∧ in_page e va ∧ ∀ j e', in_use t j e' → in_page e' va → te_logBytes e' ≤ te_logBytes e
    | None => ∀ j e', in_use t j e' → ¬ in_page e' va
    end) ∧
  (∀ vpn e, page_ok (e <| te_vaddr := vpn |>) → (∀ j e', in_use t j e' → ¬ in_page e' vpn) →
    ∃ t' m' i s, tlb_insert t vpn e = Ok (t', i) ∧ tlb_inv t' m' ∧ tlb_entries t' = <[i := placed e vpn s]> (tlb_entries t) ∧
      ∃ old, tlb_entries t !! i = Some old ∧
        (te_trieHandle old = None ∨ tlb_freeList t = [] ∧ Forall (λ e', te_lruSeq old ≤ te_lruSeq e') (tlb_entries t))) ∧
  (∃ t' m', flushAll t = Ok t' ∧ tlb_inv t' m' ∧ ∀ i e, ¬ in_use t' i e) ∧
  (∃ t' m', flushNonGlobal t = Ok t' ∧ tlb_inv t' m' ∧ ∀ i e, in_use t' i e ↔ in_use t i e ∧ te_global e = true) ∧
  (∀ va, in_width 64 va → ∃ t' m', demapPage t va = Ok t' ∧ tlb_inv t' m' ∧
    ∀ i e, in_use t' i e ↔ in_use t i e ∧ trie_lookup (tlb_trie t) va ≠ Some i).
Proof.
  intros Hwf Hne. split; [|split; [|split; [|split]]].
  - intros va Ha. destruct (tlb_lookup_ok t m va Hwf Ha) as (t' & r & Hl & Hwf' & -> & _ & _). eexists _, _. split; [done|]. split; [done|].
    pose proof (tlb_find t m va Hwf Ha) as Hf. destruct (trie_lookup (tlb_trie t) va); [|done].
    destruct Hf as (e & Hu & _ & Hp & Hmax). eauto.
  - intros vpn e Hok Hmiss. by eapply tlb_insert_ok.
  - destruct (flush_all_ok (λ _, true) t m Hwf) as (t' & m' & Hf & Hwf' & He). exists t', m'. split; [done|]. split; [done|].
    intros i e [Hi Hu]. rewrite He, list_lookup_fmap in Hi. destruct (tlb_entries t !! i) as [e0|]; [|done]. injection Hi as <-.
    unfold flushed in Hu. by destruct (te_trieHandle e0) eqn:E.
  - destruct (flush_all_ok (λ e, negb (te_global e)) t m Hwf) as (t' & m' & Hf & Hwf' & He). exists t', m'. split; [done|]. split; [done|].
    intros i e. unfold in_use. rewrite He, list_lookup_fmap. destruct (tlb_entries t !! i) as [e0|]; [|naive_solver].
    unfold flushed. cbn [fmap option_fmap option_map]. destruct (te_trieHandle e0) eqn:E; [|naive_solver].
    destruct (te_global e0) eqn:G; cbn [negb]; split.
    + intros [[= <-] _]. by rewrite E, G.
    + intros [[[= <-] _] _]. by rewrite E.
    + intros [[= <-] Hu]. done.
    + intros [[[= <-] _] Hg]. congruence.
  - intros va Ha. pose proof (tlb_find t m va Hwf Ha) as Hf. unfold demapPage. destruct (trie_lookup (tlb_trie t) va) as [k|]; [|].
    + destruct Hf as (e & Hu & _). destruct (release_ok t m k e Hwf Hu) as (t' & h & Hh & -> & Hwf' & He & _). eexists _, _. split; [done|]. split; [done|].
      intros i e'. unfold in_use. rewrite He. destruct (decide (i = k)) as [->|Hi].
      * rewrite list_lookup_insert_eq by (by eapply lookup_lt_Some, Hu). split; [intros [[= <-] ?]; done|by intros [_ ?]].
      * rewrite list_lookup_insert_ne by done. split; [intros []|intros [[] _]]; split; try done. by intros [= ->].
    + exists t, m. split; [done|]. split; [done|]. intros i e. split; [by intros ?|by intros [? _]].
Qed.

(** A 2 MB page goes into a TLB of two entries and is found at any address in it. *)
Definition demo_page (vaddr : Z) : TlbEntry := mkTlbEntry vaddr vaddr 21 true true false false false false 0 None.
Lemma tlb_operations_witness :
  ∃ t t1 t2, TLB_make 2 = Ok t ∧ tlb_insert t 0x200000 (demo_page 0x200000) = Ok (t1, 0%nat) ∧
    tlb_lookup t1 0x3fffff true = Ok (t2, Some 0%nat) ∧ ∃ t3, flushAll t2 = Ok t3 ∧ ∀ i e, ¬ in_use t3 i e.
Proof.
  destruct (TLB_make_ok 2) as (t & Ht & Hwf & He); [done|].
  destruct (tlb_operations t ∅ Hwf) as (_ & Hi & _); [by rewrite He|].
  destruct (Hi 0x200000 (demo_page 0x200000)) as (t1 & m1 & i & s & H1 & Hwf1 & _); [done|..].
  { intros j e' [Hj Hu] _. rewrite He in Hj. apply lookup_replicate in Hj as [-> _]. done. }
  vm_compute in Ht. injection Ht as <-. vm_compute in H1. injection H1 as <- <-.
  destruct (tlb_operations _ m1 Hwf1) as (Hl & _); [done|].
  destruct (Hl 0x3fffff) as (t2 & r & H2 & Hwf2 & _); [done|]. vm_compute in H2. injection H2 as <- <-.
  destruct (tlb_operations _ m1 Hwf2) as (_ & _ & (t3 & m3 & H3 & _ & Hnone) & _); [done|].
  eexists _, _, _. split; [reflexivity|]. split; [reflexivity|]. split; [reflexivity|]. exists t3. by split.
Defined.

(** A smaller page left over at the start of a large one: inserting the large
    page changes nothing, so an address of the large page beyond the small one
    still misses after the insertion, where [TLB::translate] asserts a hit. *)
Definition stale_tlb : result TLB :=
  t ← TLB_make 2;
  '(t, _) ← tlb_insert t 0x200000 (mkTlbEntry 0x5000 0x200000 12 true true false false false false 0 None);
  '(t, _) ← tlb_insert t 0x200000 (demo_page 0x200000);
  '(t, r) ← tlb_lookup t 0x234567 true;
  match r with Some _ => Err AssertFail | None => Ok t end.
Lemma stale_small_page : is_ok stale_tlb.
Proof. vm_compute. eexists. reflexivity. Qed.
