(* ===== verification/X86Isa.v ===== *)
(** * The x86 control registers of a thread

    [src/gem5-pard/src/arch/x86/isa.cc], with the register numbers and bit
    fields of [regs/misc.hh], the segment numbers of [regs/segment.hh] and the
    program counter of [arch/generic/types.hh].  The registers control
    translation: a write may flush the TLBs of the thread. *)

From S2P Require Import Prelude BaseLib Trie X86Tlb.
Local Open Scope Z_scope.

(** ** Register numbers ([enum MiscRegIndex]) and segments ([enum SegmentRegIndex]) *)

Definition NumCRegs : Z := 16.
Definition NumDRegs : Z := 8.

Definition SEGMENT_REG_ES : Z := 0.
Definition SEGMENT_REG_CS : Z := 1.
Definition SEGMENT_REG_SS : Z := 2.
Definition SEGMENT_REG_DS : Z := 3.
Definition SEGMENT_REG_FS : Z := 4.
Definition SEGMENT_REG_GS : Z := 5.
Definition SEGMENT_REG_HS : Z := 6.
Definition SEGMENT_REG_TSL : Z := 7.
Definition SEGMENT_REG_TSG : Z := 8.
Definition SYS_SEGMENT_REG_TR : Z := 11.
Definition SYS_SEGMENT_REG_IDTR : Z := 12.
Definition NUM_SEGMENTREGS : Z := 13.

Definition MISCREG_CR0 : Z := 0.
Definition MISCREG_CR1 : Z := 1.
Definition MISCREG_CR2 : Z := 2.
Definition MISCREG_CR3 : Z := 3.
Definition MISCREG_CR4 : Z := 4.
Definition MISCREG_CR8 : Z := 8.
Definition MISCREG_CR15 : Z := 15.
Definition MISCREG_DR_BASE : Z := NumCRegs.
Definition MISCREG_DR (index : Z) : Z := MISCREG_DR_BASE + index.
Definition MISCREG_RFLAGS : Z := MISCREG_DR_BASE + NumDRegs.
Definition MISCREG_M5_REG : Z := MISCREG_RFLAGS + 1.
Definition MISCREG_QR0 : Z := MISCREG_M5_REG + 1.
Definition MISCREG_TSC : Z := MISCREG_QR0 + 4.
Definition MISCREG_MTRR_PHYS_BASE (index : Z) : Z := MISCREG_TSC + 13 + index.
Definition MISCREG_MTRR_PHYS_MASK (index : Z) : Z := MISCREG_MTRR_PHYS_BASE 8 + index.
Definition MISCREG_EFER : Z := 104.
Definition MISCREG_SEG_SEL_BASE : Z := 130.
Definition MISCREG_SEG_BASE_BASE : Z := MISCREG_SEG_SEL_BASE + NUM_SEGMENTREGS.
Definition MISCREG_SEG_EFF_BASE_BASE : Z := MISCREG_SEG_BASE_BASE + NUM_SEGMENTREGS.
Definition MISCREG_SEG_LIMIT_BASE : Z := MISCREG_SEG_EFF_BASE_BASE + NUM_SEGMENTREGS.
Definition MISCREG_SEG_ATTR_BASE : Z := MISCREG_SEG_LIMIT_BASE + NUM_SEGMENTREGS.
Definition MISCREG_SEG_SEL (seg : Z) : Z := MISCREG_SEG_SEL_BASE + seg.
Definition MISCREG_SEG_BASE (seg : Z) : Z := MISCREG_SEG_BASE_BASE + seg.
Definition MISCREG_SEG_EFF_BASE (seg : Z) : Z := MISCREG_SEG_EFF_BASE_BASE + seg.
Definition MISCREG_SEG_LIMIT (seg : Z) : Z := MISCREG_SEG_LIMIT_BASE + seg.
Definition MISCREG_SEG_ATTR (seg : Z) : Z := MISCREG_SEG_ATTR_BASE + seg.
Definition MISCREG_CS_ATTR : Z := MISCREG_SEG_ATTR SEGMENT_REG_CS.
Definition MISCREG_SS_ATTR : Z := MISCREG_SEG_ATTR SEGMENT_REG_SS.
Definition MISCREG_X87_TOP : Z := MISCREG_SEG_ATTR_BASE + NUM_SEGMENTREGS.
Definition MISCREG_FSW : Z := MISCREG_X87_TOP + 3.
Definition NUM_MISCREGS : Z := MISCREG_X87_TOP + 13.

(** ** Bit fields *)

Definition flag (val bit : Z) : bool := negb (bits val bit bit =? 0).
Definition set_flag (val bit b : Z) : Z := insertBits 64 val bit bit b.

Definition CR0_pg (r : Z) : bool := flag r 31.
Definition CR0_et_bit : Z := 4.
Definition CR0_pe (r : Z) : bool := flag r 0.
Definition CR4_pge (r : Z) : bool := flag r 7.
Definition CR4_pae (r : Z) : bool := flag r 5.
Definition CR4_pse (r : Z) : bool := flag r 4.
Definition Efer_lme (r : Z) : bool := flag r 8.
Definition Efer_lma (r : Z) : bool := flag r 10.
Definition Efer_nxe (r : Z) : bool := flag r 11.
Definition RFLAGS_vm (r : Z) : bool := flag r 17.
Definition SegAttr_dpl (r : Z) : Z := bits r 1 0.
Definition SegAttr_defaultSize (r : Z) : bool := flag r 3.
Definition SegAttr_longMode (r : Z) : bool := flag r 4.

(** [enum X86Mode], [enum X86SubMode]. *)
Definition LongMode : Z := 0.
Definition LegacyMode : Z := 1.
Definition SixtyFourBitMode : Z := 0.
Definition CompatabilityMode : Z := 1.
Definition ProtectedMode : Z := 2.
Definition Virtual8086Mode : Z := 3.
Definition RealMode : Z := 4.

(** Fields of [HandyM5Reg]. *)
Definition M5_mode (r : Z) : Z := bits r 0 0.
Definition M5_submode (r : Z) : Z := bits r 3 1.
Definition M5_cpl (r : Z) : Z := bits r 5 4.
Definition M5_paging (r : Z) : bool := flag r 6.
Definition M5_prot (r : Z) : bool := flag r 7.

(** ** State *)

Record PCState : Type := mkPCState { pc_pc : Z; pc_npc : Z; pc_upc : Z; pc_nupc : Z; pc_size : Z }.
Definition PCState_make (val : Z) : PCState := mkPCState val (wrap 64 (val + 8)) 0 1 0.

(** [ThreadContext::Status]. *)
Inductive Status : Type := Active | Suspended | Halted.

Record ThreadContext : Type := mkTC {
  tc_regVal : Z → Z;
  tc_decoder : Z;
  tc_itb : TLB;
  tc_dtb : TLB;
  tc_intRegs : Z → Z;
  tc_pcState : PCState;
  tc_curCycle : Z;
  tc_status : Status
}.
#[export] Instance eta_ThreadContext : Eta ThreadContext := λ tc,
  mkTC (tc_regVal tc) (tc_decoder tc) (tc_itb tc) (tc_dtb tc) (tc_intRegs tc) (tc_pcState tc) (tc_curCycle tc) (tc_status tc).

Definition reg (tc : ThreadContext) (i : Z) : Z := tc_regVal tc i.
Definition set_reg (tc : ThreadContext) (r v : Z) : ThreadContext :=
  let f := tc_regVal tc in tc <| tc_regVal := λ i, if i =? r then v else f i |>.

(** ** Operations *)

Definition isa_clear (tc : ThreadContext) : ThreadContext :=
  let tc := tc <| tc_regVal := λ _, 0 |> in
  let tc := set_reg tc (MISCREG_DR 6) (Z.lor (Z.shiftl (mask 8) 4) (Z.shiftl (mask 16) 16)) in
  set_reg tc (MISCREG_DR 7) (Z.shiftl 1 10).

(** The value [updateHandyM5Reg] computes, field by field. *)
Definition handyM5Reg (efer cr0 csAttr ssAttr rflags : Z) : Z :=
  let m5reg := 0 in
  let '(mode, submode) :=
    if Efer_lma efer then (LongMode, if SegAttr_longMode csAttr then SixtyFourBitMode else CompatabilityMode)
    else (LegacyMode, if CR0_pe cr0 then (if RFLAGS_vm rflags then Virtual8086Mode else ProtectedMode) else RealMode) in
  let m5reg := insertBits 64 m5reg 0 0 mode in
  let m5reg := insertBits 64 m5reg 3 1 submode in
  let m5reg := insertBits 64 m5reg 5 4 (SegAttr_dpl csAttr) in
  let m5reg := insertBits 64 m5reg 6 6 (bits cr0 31 31) in
  let m5reg := insertBits 64 m5reg 7 7 (bits cr0 0 0) in
  let wide := submode =? SixtyFourBitMode in
  let '(defOp, altOp) := if wide || SegAttr_defaultSize csAttr then (2, 1) else (1, 2) in
  let m5reg := insertBits 64 m5reg 9 8 defOp in
  let m5reg := insertBits 64 m5reg 11 10 altOp in
  let '(defAddr, altAddr) := if wide then (3, 2) else if SegAttr_defaultSize csAttr then (2, 1) else (1, 2) in
  let m5reg := insertBits 64 m5reg 13 12 defAddr in
  let m5reg := insertBits 64 m5reg 15 14 altAddr in
  insertBits 64 m5reg 17 16 (if wide then 3 else if SegAttr_defaultSize ssAttr then 2 else 1).

Definition updateHandyM5Reg (tc : ThreadContext) (efer cr0 csAttr ssAttr rflags : Z) : ThreadContext :=
  let m5reg := handyM5Reg efer cr0 csAttr ssAttr rflags in
  (set_reg tc MISCREG_M5_REG m5reg) <| tc_decoder := m5reg |>.

(** The control registers that do not exist. *)
Definition illegal_cr (r : Z) : bool :=
  (r =? MISCREG_CR1) || ((MISCREG_CR4 <? r) && (r <? MISCREG_CR8)) || ((MISCREG_CR8 <? r) && (r <=? MISCREG_CR15)).
Definition reg_index (r : Z) : result unit := if (0 <=? r) && (r <? NUM_MISCREGS) then Ok () else Err OutOfBounds.

Definition readMiscRegNoEffect (tc : ThreadContext) (r : Z) : result Z :=
  assertb (negb (illegal_cr r)) ;; reg_index r ;; Ok (reg tc r).

Definition readMiscReg (tc : ThreadContext) (r : Z) : result Z :=
  if r =? MISCREG_TSC then Ok (wrap 64 (reg tc MISCREG_TSC + tc_curCycle tc))
  else if r =? MISCREG_FSW then
    Ok (wrap 64 (Z.land (reg tc MISCREG_FSW) (wrap 64 (Z.lnot (Z.shiftl 7 11))) + wrap 64 (Z.shiftl (reg tc MISCREG_X87_TOP) 11)))
  else readMiscRegNoEffect tc r.

Definition setMiscRegNoEffect (tc : ThreadContext) (r val : Z) : result ThreadContext :=
  assertb (negb (illegal_cr r)) ;; reg_index r ;; Ok (set_reg tc r val).

Definition flush_tlbs (flush : TLB → result TLB) (tc : ThreadContext) : result ThreadContext :=
  itb ← flush (tc_itb tc);
  dtb ← flush (tc_dtb tc);
  Ok (tc <| tc_itb := itb |> <| tc_dtb := dtb |>).

Definition set_CR0 (tc : ThreadContext) (val : Z) : result ThreadContext :=
  let toggled := Z.lxor (reg tc MISCREG_CR0) val in
  let efer := reg tc MISCREG_EFER in
  let tc := if CR0_pg toggled && Efer_lme efer
            then set_reg tc MISCREG_EFER (set_flag efer 10 (if CR0_pg val then 1 else 0)) else tc in
  tc ← (if CR0_pg toggled then flush_tlbs flushAll tc else Ok tc);
  let newCR0 := set_flag val CR0_et_bit 1 in
  let tc := updateHandyM5Reg tc (reg tc MISCREG_EFER) newCR0 (reg tc MISCREG_CS_ATTR) (reg tc MISCREG_SS_ATTR) (reg tc MISCREG_RFLAGS) in
  setMiscRegNoEffect tc MISCREG_CR0 newCR0.

Definition set_CR4 (tc : ThreadContext) (val : Z) : result ThreadContext :=
  let toggled := Z.lxor (reg tc MISCREG_CR4) val in
  tc ← (if CR4_pae toggled || CR4_pse toggled || CR4_pge toggled then flush_tlbs flushAll tc else Ok tc);
  setMiscRegNoEffect tc MISCREG_CR4 val.

Definition eff_base (tc : ThreadContext) (seg v : Z) : ThreadContext := set_reg tc (MISCREG_SEG_EFF_BASE seg) v.
Definition set_CS_ATTR (tc : ThreadContext) (val : Z) : result ThreadContext :=
  let toggled := Z.lxor (reg tc MISCREG_CS_ATTR) val in
  let base seg := if SegAttr_longMode val then 0 else reg tc (MISCREG_SEG_BASE seg) in
  let tc := if SegAttr_longMode toggled then
              eff_base (eff_base (eff_base (eff_base tc SEGMENT_REG_ES (base SEGMENT_REG_ES)) SEGMENT_REG_CS (base SEGMENT_REG_CS))
                SEGMENT_REG_SS (base SEGMENT_REG_SS)) SEGMENT_REG_DS (base SEGMENT_REG_DS)
            else tc in
  let tc := updateHandyM5Reg tc (reg tc MISCREG_EFER) (reg tc MISCREG_CR0) val (reg tc MISCREG_SS_ATTR) (reg tc MISCREG_RFLAGS) in
  setMiscRegNoEffect tc MISCREG_CS_ATTR val.

(** [DR6], also reached as [DR4]: only the named bits are taken over. *)
Definition copy_bits (old new : Z) (fields : list (Z * Z)) : Z :=
  foldl (λ r '(hi, lo), insertBits 64 r hi lo (bits new hi lo)) old fields.
Definition set_DR6 (tc : ThreadContext) (val : Z) : result ThreadContext :=
  setMiscRegNoEffect tc (MISCREG_DR 6)
    (copy_bits (reg tc (MISCREG_DR 6)) val [(0,0); (1,1); (2,2); (3,3); (13,13); (14,14); (15,15)]).

(** [DR7], also reached as [DR5]: enabling a breakpoint panics; the register
    takes the value written. *)
Definition set_DR7 (tc : ThreadContext) (val : Z) : result ThreadContext :=
  panic_if (existsb (flag val) [0; 1; 2; 3; 4; 5; 6; 7]) ;;
  setMiscRegNoEffect tc (MISCREG_DR 7) val.

Definition always_based (seg : Z) : bool :=
  existsb (Z.eqb seg) [SEGMENT_REG_FS; SEGMENT_REG_GS; SEGMENT_REG_HS; SEGMENT_REG_TSL; SEGMENT_REG_TSG; SYS_SEGMENT_REG_TR; SYS_SEGMENT_REG_IDTR].
Definition long_ignored (seg : Z) : bool :=
  existsb (Z.eqb seg) [SEGMENT_REG_ES; SEGMENT_REG_CS; SEGMENT_REG_SS; SEGMENT_REG_DS].

Definition setMiscReg (tc : ThreadContext) (r val : Z) : result ThreadContext :=
  let seg := r - MISCREG_SEG_BASE_BASE in
  if r =? MISCREG_CR0 then set_CR0 tc val
  else if r =? MISCREG_CR3 then tc ← flush_tlbs flushNonGlobal tc; setMiscRegNoEffect tc r val
  else if r =? MISCREG_CR4 then set_CR4 tc val
  else if r =? MISCREG_CS_ATTR then set_CS_ATTR tc val
  else if r =? MISCREG_SS_ATTR then
    setMiscRegNoEffect (updateHandyM5Reg tc (reg tc MISCREG_EFER) (reg tc MISCREG_CR0) (reg tc MISCREG_CS_ATTR) val (reg tc MISCREG_RFLAGS)) r val
  else if always_based seg then setMiscRegNoEffect (eff_base tc seg val) r val
  else if long_ignored seg then
    setMiscRegNoEffect (if negb (Efer_lma (reg tc MISCREG_EFER)) || negb (SegAttr_longMode (reg tc MISCREG_CS_ATTR))
                        then eff_base tc seg val else tc) r val
  else if r =? MISCREG_TSC then Ok (set_reg tc MISCREG_TSC (wrap 64 (val - tc_curCycle tc)))
  else if (r =? MISCREG_DR 4) || (r =? MISCREG_DR 6) then set_DR6 tc val
  else if (r =? MISCREG_DR 5) || (r =? MISCREG_DR 7) then set_DR7 tc val
  else if r =? MISCREG_M5_REG then
    Ok (updateHandyM5Reg tc (reg tc MISCREG_EFER) (reg tc MISCREG_CR0) (reg tc MISCREG_CS_ATTR) (reg tc MISCREG_SS_ATTR) (reg tc MISCREG_RFLAGS))
  else setMiscRegNoEffect tc r val.

Definition isa_startup (tc : ThreadContext) : ThreadContext := tc <| tc_decoder := reg tc MISCREG_M5_REG |>.

(** ** Invariant and lemmas *)

(** Both TLBs are well formed. *)
Definition tlbs_wf (tc : ThreadContext) : Prop := (∃ m, tlb_inv (tc_itb tc) m) ∧ (∃ m, tlb_inv (tc_dtb tc) m).

(** The mode register and the decoder agree with the registers they summarise. *)
Definition mode_synced (tc : ThreadContext) : Prop :=
  tc_decoder tc = reg tc MISCREG_M5_REG ∧
  reg tc MISCREG_M5_REG = handyM5Reg (reg tc MISCREG_EFER) (reg tc MISCREG_CR0) (reg tc MISCREG_CS_ATTR) (reg tc MISCREG_SS_ATTR) (reg tc MISCREG_RFLAGS).

(** Registers whose write always succeeds. *)
Definition writable (r val : Z) : bool :=
  (0 <=? r) && (r <? NUM_MISCREGS) && negb (illegal_cr r) &&
  negb (((r =? MISCREG_DR 5) || (r =? MISCREG_DR 7)) && existsb (flag val) [0; 1; 2; 3; 4; 5; 6; 7]).

(** The cached translations that survive a write of [val] to [r]. *)
Definition survives (tc : ThreadContext) (r val : Z) (e : TlbEntry) : bool :=
  if r =? MISCREG_CR0 then negb (CR0_pg (Z.lxor (reg tc MISCREG_CR0) val))
  else if r =? MISCREG_CR3 then te_global e
  else if r =? MISCREG_CR4 then
    let toggled := Z.lxor (reg tc MISCREG_CR4) val in negb (CR4_pae toggled || CR4_pse toggled || CR4_pge toggled)
  else true.

(** Registers other than [r] that a write to [r] may change. *)
Definition touched (r : Z) : list Z :=
  let seg := r - MISCREG_SEG_BASE_BASE in
  r :: (if r =? MISCREG_CR0 then [MISCREG_EFER; MISCREG_M5_REG]
        else if r =? MISCREG_CS_ATTR then
          MISCREG_M5_REG :: (MISCREG_SEG_EFF_BASE <$> [SEGMENT_REG_ES; SEGMENT_REG_CS; SEGMENT_REG_SS; SEGMENT_REG_DS])
        else if r =? MISCREG_SS_ATTR then [MISCREG_M5_REG]
        else if always_based seg || long_ignored seg then [MISCREG_SEG_EFF_BASE seg]
        else if r =? MISCREG_DR 4 then [MISCREG_DR 6]
        else if r =? MISCREG_DR 5 then [MISCREG_DR 7]
        else []).

Lemma in_use_flushed drop t t' i e :
  tlb_entries t' = flushed drop <$> tlb_entries t → in_use t' i e ↔ in_use t i e ∧ drop e = false.
Proof.
  intros He. unfold in_use. rewrite He, list_lookup_fmap. unfold flushed.
  destruct (tlb_entries t !! i) as [x|]; cbn; [|naive_solver].
  destruct (te_trieHandle x) as [h|] eqn:Hh, (drop x) eqn:Hd;
    (split; [intros [[= <-] Hu] | intros [[[= <-] Hu] Hdr]]); try done; congruence.
Qed.

(** What a flush leaves. *)
Definition flushed_to (keep : TlbEntry → bool) (tc tc' : ThreadContext) : Prop :=
  tlbs_wf tc' ∧
  (∀ i e, in_use (tc_itb tc') i e ↔ in_use (tc_itb tc) i e ∧ keep e = true) ∧
  (∀ i e, in_use (tc_dtb tc') i e ↔ in_use (tc_dtb tc) i e ∧ keep e = true).

Lemma flush_tlbs_ok drop tc :
  tlbs_wf tc →
  ∃ itb dtb, flush_tlbs (λ t, foldM (flush_step drop) t (seq 0 (length (tlb_entries t)))) tc = Ok (tc <| tc_itb := itb |> <| tc_dtb := dtb |>) ∧
    flushed_to (λ e, negb (drop e)) tc (tc <| tc_itb := itb |> <| tc_dtb := dtb |>).
Proof.
  intros [[m1 H1] [m2 H2]]. unfold flush_tlbs.
  destruct (flush_all_ok drop _ _ H1) as (t1 & m1' & -> & W1 & E1).
  destruct (flush_all_ok drop _ _ H2) as (t2 & m2' & -> & W2 & E2).
  exists t1, t2. split; [done|]. split; [by split; eauto|].
  split; intros i e; rewrite negb_true_iff; by apply in_use_flushed.
Qed.

Lemma flushed_to_refl tc : tlbs_wf tc → flushed_to (λ _, true) tc tc.
Proof. intros H. split; [done|]. split; naive_solver. Qed.

Lemma flushed_to_ext k k' tc tc1 tc2 :
  (∀ e, k e = k' e) → tc_itb tc1 = tc_itb tc2 → tc_dtb tc1 = tc_dtb tc2 → flushed_to k tc tc1 → flushed_to k' tc tc2.
Proof. unfold flushed_to, tlbs_wf. intros Hk -> ->. by setoid_rewrite Hk. Qed.

Lemma writable_NoEffect tc r val :
  writable r val = true → setMiscRegNoEffect tc r val = Ok (set_reg tc r val).
Proof.
  unfold writable, setMiscRegNoEffect, reg_index. rewrite !andb_true_iff. intros [[Hr Hi] _]. by rewrite Hi, (proj2 (andb_true_iff _ _) Hr).
Qed.
Lemma reg_set tc r v i : reg (set_reg tc r v) i = if i =? r then v else reg tc i.
Proof. done. Qed.

(** A register that no other one depends on. *)
Lemma mode_unaffected tc tc' :
  tc_decoder tc' = tc_decoder tc →
  (∀ i, i ∈ [MISCREG_M5_REG; MISCREG_EFER; MISCREG_CR0; MISCREG_CS_ATTR; MISCREG_SS_ATTR; MISCREG_RFLAGS] → reg tc' i = reg tc i) →
  mode_synced tc → mode_synced tc'.
Proof.
  unfold mode_synced. intros -> Hr. rewrite !Hr by (rewrite ?elem_of_cons; tauto). done.
Qed.

(** The outcome of a write. *)
Definition write_outcome (tc : ThreadContext) (r val : Z) (tc' : ThreadContext) : Prop :=
  flushed_to (survives tc r val) tc tc' ∧ (∀ i, i ∉ touched r → reg tc' i = reg tc i) ∧
  (mode_synced tc → r ≠ MISCREG_EFER → r ≠ MISCREG_RFLAGS → mode_synced tc').

Lemma not_touched (i : Z) (l : list Z) : i ∉ l → Forall (λ j, i ≠ j) l.
Proof. intros H. apply Forall_forall. intros j Hj ->. done. Qed.
Ltac untouched :=
  let i := fresh "i" in let Hi := fresh "Hi" in
  intros i Hi; apply not_touched in Hi; cbn in Hi; repeat (apply Forall_cons in Hi as [? Hi]);
  unfold reg, eff_base, updateHandyM5Reg, set_reg; cbn;
  repeat match goal with |- context [if (i =? ?c) then _ else _] => destruct (Z.eqb_spec i c); [by exfalso|] end; done.

Lemma set_CR0_outcome tc val :
  tlbs_wf tc → ∃ tc', set_CR0 tc val = Ok tc' ∧ write_outcome tc MISCREG_CR0 val tc' ∧
    reg tc' MISCREG_CR0 = set_flag val CR0_et_bit 1 ∧
    reg tc' MISCREG_EFER =
      (let efer := reg tc MISCREG_EFER in
       if CR0_pg (Z.lxor (reg tc MISCREG_CR0) val) && Efer_lme efer then set_flag efer 10 (if CR0_pg val then 1 else 0) else efer) ∧
    mode_synced tc'.
Proof.
  intros Hwf. unfold set_CR0. set (efer := reg tc MISCREG_EFER). set (tg := Z.lxor _ val).
  set (tc1 := if CR0_pg tg && Efer_lme efer then _ else tc).
  assert (tc_itb tc1 = tc_itb tc ∧ tc_dtb tc1 = tc_dtb tc) as [Ei Ed] by (unfold tc1; by case_match).
  assert (∀ i, i ≠ MISCREG_EFER → reg tc1 i = reg tc i) as Hr.
  { intros i Hi. unfold tc1. case_match; [|done]. rewrite reg_set. by destruct (Z.eqb_spec i MISCREG_EFER). }
  assert (∃ itb dtb, (if CR0_pg tg then flush_tlbs flushAll tc1 else Ok tc1) = Ok (tc1 <| tc_itb := itb |> <| tc_dtb := dtb |>) ∧
    flushed_to (survives tc MISCREG_CR0 val) tc (tc1 <| tc_itb := itb |> <| tc_dtb := dtb |>)) as (itb & dtb & -> & Hf).
  { unfold survives. cbn [Z.eqb MISCREG_CR0]. fold tg. destruct (CR0_pg tg).
    - destruct (flush_tlbs_ok (λ _, true) tc1) as (itb & dtb & H1 & H2); [unfold tlbs_wf in *; by rewrite Ei, Ed|].
      exists itb, dtb. split; [exact H1|]. unfold flushed_to in *. by rewrite Ei, Ed in H2.
    - exists (tc_itb tc1), (tc_dtb tc1). split; [by destruct tc1|]. eapply flushed_to_ext; [| | |by apply flushed_to_refl]; done. }
  cbn [mbind result_bind]. eexists. split; [done|].
  split; [split; [|split]|split; [done|split; [by unfold tc1; fold efer; case_match|]]].
  - eapply flushed_to_ext; [..|exact Hf]; done.
  - intros i Hi. transitivity (reg tc1 i); [revert i Hi; untouched|]. apply Hr.
    intros ->. apply Hi. apply elem_of_cons. right. by left.
  - done.
  - done.
Qed.

(** The registers that neither flush nor stand for the mode. *)
Lemma quiet_outcome tc r val tc' :
  tlbs_wf tc → tc_itb tc' = tc_itb tc → tc_dtb tc' = tc_dtb tc → r ∉ [MISCREG_CR0; MISCREG_CR3; MISCREG_CR4] →
  (∀ i, i ∉ touched r → reg tc' i = reg tc i) → (mode_synced tc → r ≠ MISCREG_EFER → r ≠ MISCREG_RFLAGS → mode_synced tc') →
  write_outcome tc r val tc'.
Proof.
  intros Hwf Hi Hd Hr Ht Hm. split; [|done]. eapply flushed_to_ext; [| | |by apply flushed_to_refl]; [|done..].
  intros e. unfold survives. apply not_touched in Hr. repeat (apply Forall_cons in Hr as [? Hr]).
  by repeat (rewrite (proj2 (Z.eqb_neq _ _)) by done).
Qed.

Ltac unsynced := intros Hs _ _; revert Hs; apply mode_unaffected; [done|];
  let i := fresh "i" in let Hi := fresh "Hi" in
  intros i Hi; repeat (apply elem_of_cons in Hi as [->|Hi]; [reflexivity|]); by apply elem_of_nil in Hi.

Lemma flush_outcome tc r val drop :
  tlbs_wf tc → r ≠ MISCREG_CR0 → r = MISCREG_CR3 ∨ r = MISCREG_CR4 → (∀ e, negb (drop e) = survives tc r val e) →
  ∃ tc', (tc ← flush_tlbs (λ t, foldM (flush_step drop) t (seq 0 (length (tlb_entries t)))) tc; setMiscRegNoEffect tc r val) = Ok tc' ∧
    write_outcome tc r val tc'.
Proof.
  intros Hwf Hne Hr Hk. destruct (flush_tlbs_ok drop tc Hwf) as (itb & dtb & -> & Hf). cbn [mbind result_bind].
  exists (set_reg (tc <| tc_itb := itb |> <| tc_dtb := dtb |>) r val). split; [by destruct Hr as [-> | ->]|].
  split; [eapply flushed_to_ext; [exact Hk|..|exact Hf]; done|]. destruct Hr as [-> | ->]; (split; [untouched|unsynced]).
Qed.

(** A quiet write to a concrete register. *)
Ltac absent := let H := fresh in intros H; repeat (apply elem_of_cons in H as [H|H]; [discriminate H|]); by apply elem_of_nil in H.
Ltac quiet := eexists; split; [reflexivity|]; apply quiet_outcome; [done..|absent|untouched|unsynced].

Lemma segment_base_outcome tc seg val :
  tlbs_wf tc → always_based seg || long_ignored seg = true →
  ∃ tc', setMiscReg tc (MISCREG_SEG_BASE seg) val = Ok tc' ∧ write_outcome tc (MISCREG_SEG_BASE seg) val tc'.
Proof.
  intros Hwf Hseg. unfold always_based, long_ignored in Hseg. apply orb_true_iff in Hseg as [Hseg|Hseg];
    cbn [existsb] in Hseg; rewrite ?orb_true_iff, ?Z.eqb_eq in Hseg; repeat destruct Hseg as [->|Hseg]; try done; try quiet.
  all: unfold setMiscReg; cbn -[Efer_lma SegAttr_longMode reg set_reg eff_base setMiscRegNoEffect touched write_outcome];
    destruct (negb _ || negb _); quiet.
Qed.

Lemma set_CS_ATTR_outcome tc val : tlbs_wf tc → ∃ tc', set_CS_ATTR tc val = Ok tc' ∧ write_outcome tc MISCREG_CS_ATTR val tc' ∧ mode_synced tc'.
Proof.
  intros Hwf. unfold set_CS_ATTR. cbv zeta. destruct (SegAttr_longMode (Z.lxor _ _)).
  all: eexists; split; [reflexivity|]; split; [|done]; apply quiet_outcome; [done..|absent|untouched|done].
Qed.

(** Every register that can be written. *)
Lemma setMiscReg_outcome tc r val :
  tlbs_wf tc → writable r val = true → ∃ tc', setMiscReg tc r val = Ok tc' ∧ write_outcome tc r val tc'.
Proof.
  intros Hwf Hw. destruct (always_based (r - MISCREG_SEG_BASE_BASE) || long_ignored (r - MISCREG_SEG_BASE_BASE)) eqn:Hseg.
  { replace r with (MISCREG_SEG_BASE (r - MISCREG_SEG_BASE_BASE)) by (unfold MISCREG_SEG_BASE; lia). by apply segment_base_outcome. }
  pose proof Hseg as [Ha Hl]%orb_false_iff. unfold setMiscReg. cbv zeta. rewrite Ha, Hl.
  destruct (Z.eqb_spec r MISCREG_CR0) as [->|N0]. { destruct (set_CR0_outcome tc val Hwf) as (tc' & H1 & H2 & _). eauto. }
  destruct (Z.eqb_spec r MISCREG_CR3) as [->|N3]. { apply flush_outcome; [done..|by left|]. intros e. apply negb_involutive. }
  destruct (Z.eqb_spec r MISCREG_CR4) as [->|N4].
  { unfold set_CR4. cbv zeta. destruct (CR4_pae _ || CR4_pse _ || CR4_pge _) eqn:E.
    - apply flush_outcome; [done..|by right|]. intros e. unfold survives. cbn [Z.eqb MISCREG_CR4 MISCREG_CR0 MISCREG_CR3 Pos.eqb]. by rewrite E.
    - eexists. split; [reflexivity|]. split; [|split; [untouched|unsynced]].
      eapply flushed_to_ext; [| | |by apply flushed_to_refl]; [|done..]. intros e. unfold survives. cbn [Z.eqb MISCREG_CR4 MISCREG_CR0 MISCREG_CR3 Pos.eqb]. by rewrite E. }
  destruct (Z.eqb_spec r MISCREG_CS_ATTR) as [->|Nc]. { destruct (set_CS_ATTR_outcome tc val Hwf) as (tc' & H1 & H2 & _). eauto. }
  destruct (Z.eqb_spec r MISCREG_SS_ATTR) as [->|Ns].
  { eexists. split; [reflexivity|]. apply quiet_outcome; [done..|absent|untouched|done]. }
  destruct (Z.eqb_spec r MISCREG_TSC) as [->|Nt]; [quiet|].
  destruct (Z.eqb_spec r (MISCREG_DR 4)) as [->|]; [quiet|]. destruct (Z.eqb_spec r (MISCREG_DR 6)) as [->|]; [quiet|]. cbn [orb].
  unfold writable in Hw. rewrite !andb_true_iff in Hw. destruct Hw as [[Hr Hi] Hd].
  destruct (Z.eqb_spec r (MISCREG_DR 5)) as [->|N5]; [|destruct (Z.eqb_spec r (MISCREG_DR 7)) as [->|N7]]; cbn [orb];
    try (unfold set_DR7; destruct (existsb _ _); [done|]; quiet).
  destruct (Z.eqb_spec r MISCREG_M5_REG) as [->|Nm].
  { eexists. split; [reflexivity|]. apply quiet_outcome; [done..|absent|untouched|done]. }
  exists (set_reg tc r val). unfold setMiscRegNoEffect, reg_index. rewrite Hi, (proj2 (andb_true_iff _ _) Hr). split; [done|].
  assert (touched r = [r]) as Ht.
  { unfold touched. rewrite Hseg. by repeat (rewrite (proj2 (Z.eqb_neq _ _)) by done). }
  assert (∀ i, i ≠ r → reg (set_reg tc r val) i = reg tc i) as He. { intros i Hir. rewrite reg_set. by destruct (Z.eqb_spec i r). }
  apply quiet_outcome; [done..| | |].
  - intros H. by repeat (apply elem_of_cons in H as [H|H]; [done|]); apply elem_of_nil in H.
  - rewrite Ht. intros i Hni. apply He. intros ->. apply Hni. by left.
  - intros Hs Ne Nr. revert Hs. apply mode_unaffected; [done|]. intros i Hin. apply He.
    by repeat (apply elem_of_cons in Hin as [->|Hin]; [by apply not_eq_sym|]); apply elem_of_nil in Hin.
Qed.

(** Every other write is refused. *)
Lemma setMiscReg_refused tc r val : writable r val = false → ∃ f, setMiscReg tc r val = Err f.
Proof.
  intros Hw. destruct (always_based (r - MISCREG_SEG_BASE_BASE) || long_ignored (r - MISCREG_SEG_BASE_BASE)) eqn:Hseg.
  { exfalso. unfold always_based, long_ignored in Hseg. cbn [existsb] in Hseg. rewrite !orb_true_iff, !Z.eqb_eq in Hseg.
    replace r with (MISCREG_SEG_BASE (r - MISCREG_SEG_BASE_BASE)) in Hw by (unfold MISCREG_SEG_BASE; lia).
    repeat destruct Hseg as [Hseg|Hseg]; try rewrite Hseg in Hw; done. }
  pose proof Hseg as [Ha Hl]%orb_false_iff. unfold setMiscReg. cbv zeta. rewrite Ha, Hl.
  destruct (Z.eqb_spec r MISCREG_CR0) as [->|_]; [done|]. destruct (Z.eqb_spec r MISCREG_CR3) as [->|_]; [done|].
  destruct (Z.eqb_spec r MISCREG_CR4) as [->|_]; [done|]. destruct (Z.eqb_spec r MISCREG_CS_ATTR) as [->|_]; [done|].
  destruct (Z.eqb_spec r MISCREG_SS_ATTR) as [->|_]; [done|]. destruct (Z.eqb_spec r MISCREG_TSC) as [->|_]; [done|].
  destruct (Z.eqb_spec r (MISCREG_DR 4)) as [->|_]; [done|]. destruct (Z.eqb_spec r (MISCREG_DR 6)) as [->|_]; [done|]. cbn [orb].
  unfold writable in Hw. destruct ((r =? MISCREG_DR 5) || (r =? MISCREG_DR 7)) eqn:Hd.
  { assert (existsb (flag val) [0; 1; 2; 3; 4; 5; 6; 7] = true) as Hb.
    { apply orb_true_iff in Hd as [->%Z.eqb_eq| ->%Z.eqb_eq]; by destruct (existsb _ _). }
    unfold set_DR7. rewrite Hb. by eexists. }
  rewrite andb_true_r in Hw. destruct (Z.eqb_spec r MISCREG_M5_REG) as [->|_]; [done|].
  unfold setMiscRegNoEffect, reg_index. destruct ((0 <=? r) && (r <? NUM_MISCREGS)); destruct (illegal_cr r); try done; by eexists.
Qed.

(** ** Properties *)

(** C26: the effects of a write to a control register.  A write that the
    simulator refuses (enabling a hardware breakpoint, a control register that
    does not exist) fails.  Every other write succeeds; toggling paging, PAE,
    PSE or PGE ends every cached translation of both TLBs, loading CR3 ends
    exactly the non-global ones, and no other write ends any; no register
    outside a fixed list changes; the mode word and the decoder's copy stay the
    summary of the registers they are computed from, except that a write to
    EFER or RFLAGS changes that register and nothing else, so that the mode word
    keeps the summary of the old value; paging toggles long mode when it is
    enabled, and the time stamp counter reads back what was written, plus the
    cycles since. *)
Theorem control_registers (tc : ThreadContext) (r val : Z) :
  tlbs_wf tc → in_width 64 val →
  if writable r val then
    ∃ tc', setMiscReg tc r val = Ok tc' ∧ flushed_to (survives tc r val) tc tc' ∧
      (∀ i, i ∉ touched r → reg tc' i = reg tc i) ∧
      (mode_synced tc → r ≠ MISCREG_EFER → r ≠ MISCREG_RFLAGS → mode_synced tc') ∧
      (r = MISCREG_EFER ∨ r = MISCREG_RFLAGS → tc' = set_reg tc r val) ∧
      (r = MISCREG_CR0 → CR0_pg (Z.lxor (reg tc MISCREG_CR0) val) = true → Efer_lme (reg tc MISCREG_EFER) = true →
        Efer_lma (reg tc' MISCREG_EFER) = CR0_pg val) ∧
      (r = MISCREG_TSC → ∀ n, readMiscReg (tc' <| tc_curCycle := tc_curCycle tc + n |>) MISCREG_TSC = Ok (wrap 64 (val + n)))
  else ∃ f, setMiscReg tc r val = Err f.
Proof.
  intros Hwf Hv. destruct (writable r val) eqn:Hw; [|by apply setMiscReg_refused].
  destruct (setMiscReg_outcome tc r val Hwf Hw) as (tc' & Hs & Hf & Ht & Hm).
  exists tc'. do 4 (split; [done|]). split; [|split; [|intros -> n]].
  - intros [->| ->]; by injection Hs as <-.
  - intros -> Hpg Hlme. destruct (set_CR0_outcome tc val Hwf) as (tc2 & Hs2 & _ & _ & He & _).
    change (set_CR0 tc val = Ok tc') in Hs. assert (tc' = tc2) as -> by congruence. rewrite He. cbv zeta. rewrite Hpg, Hlme. cbn [andb].
    unfold Efer_lma, flag, set_flag. rewrite bits_insertBits by lia. by destruct (CR0_pg val).
  - change (Ok (set_reg tc MISCREG_TSC (wrap 64 (val - tc_curCycle tc))) = Ok tc') in Hs. injection Hs as <-.
    unfold readMiscReg. change (MISCREG_TSC =? MISCREG_TSC) with true. cbv iota. f_equal.
    change (wrap 64 (wrap 64 (val - tc_curCycle tc) + (tc_curCycle tc + n)) = wrap 64 (val + n)).
    rewrite wrap_add_wrap. f_equal. lia.
Qed.

(** A thread with a global and a local page in each TLB loads CR3. *)
Definition demo_x86_tlb : result TLB :=
  t ← TLB_make 2;
  '(t, _) ← tlb_insert t 0x200000 (demo_page 0x200000);
  '(t, _) ← tlb_insert t 0x400000 ((demo_page 0x400000) <| te_global := true |>);
  Ok t.
Definition demo_thread (t : TLB) : ThreadContext := isa_clear (mkTC (λ _, 0) 0 t t (λ _, 0) (PCState_make 0) 0 Active).
Lemma demo_x86_tlb_inv : ∃ t m, demo_x86_tlb = Ok t ∧ tlb_inv t m.
Proof.
  destruct (TLB_make_ok 2) as (t & Ht & Hwf & He); [done|]. unfold demo_x86_tlb. rewrite Ht. cbn [mbind result_bind].
  destruct (tlb_insert_ok t ∅ 0x200000 (demo_page 0x200000)) as (t1 & m1 & i & s & H1 & Hwf1 & E1 & _); [done|by rewrite He|done|..].
  { intros j e' [Hj Hu] _. rewrite He in Hj. apply lookup_replicate in Hj as [-> _]. done. }
  rewrite H1. cbn [mbind result_bind]. vm_compute in Ht. injection Ht as <-. vm_compute in H1. injection H1 as <- <-.
  destruct (tlb_insert_ok _ m1 0x400000 ((demo_page 0x400000) <| te_global := true |>) Hwf1) as (t2 & m2 & i & s2 & H2 & Hwf2 & E2 & _); [done|done|..].
  { intros [|[|j]] e' [[= <-] Hu]; [|done..]. by vm_compute. }
  rewrite H2. cbn [mbind result_bind]. vm_compute in H2. injection H2 as <- <-. eexists _, m2. split; [reflexivity|done].
Qed.
Lemma control_registers_witness :
  ∃ t tc', demo_x86_tlb = Ok t ∧ setMiscReg (demo_thread t) MISCREG_CR3 0x70000 = Ok tc' ∧
    (∀ i e, in_use (tc_itb tc') i e → te_global e = true) ∧ reg tc' MISCREG_CR3 = 0x70000.
Proof.
  destruct demo_x86_tlb_inv as (t & m & Ht & Hwf). exists t.
  assert (tlbs_wf (demo_thread t)) as Hw by (split; exists m; exact Hwf).
  assert (in_width 64 0x70000) as Hv by (unfold in_width; lia).
  pose proof (control_registers (demo_thread t) MISCREG_CR3 0x70000 Hw Hv) as (tc' & H1 & Hf & _).
  destruct Hf as (_ & H2 & _).
  exists tc'. split; [exact Ht|]. split; [exact H1|]. split.
  - intros i e Hu. apply H2 in Hu as [_ Hu]. exact Hu.
  - vm_compute in Ht. injection Ht as <-. vm_compute in H1. injection H1 as <-. reflexivity.
Defined.

(** [DR7] takes the whole value written, the reserved bits included: the value
    merged from the named fields is never stored. *)
Lemma dr7_reserved_written t : ∃ tc', setMiscReg (demo_thread t) (MISCREG_DR 7) 0x800 = Ok tc' ∧ reg tc' (MISCREG_DR 7) = 0x800.
Proof. eexists. split; reflexivity. Qed.
