(* ===== verification/Packet.v ===== *)
(** * Memory-system packets

    [src/gem5-pard/src/mem/packet.hh] and [packet.cc]: the command table, the
    packet with its flags and its stack of sender states, and the PARD tag
    macros of [src/pardg5-v/hyper/base/pardg5v.hh].

    A packet and the request it carries are one value here; the chain of
    [SenderState] nodes reached through [predecessor] is a list whose head is
    [pkt->senderState]. *)

From S2P Require Import Prelude BaseLib.
Local Open Scope Z_scope.

(** ** MemCmd *)

Inductive MemCmd : Type :=
| InvalidCmd | ReadReq | ReadResp | ReadRespWithInvalidate | WriteReq | WriteResp
| Writeback | SoftPFReq | HardPFReq | SoftPFResp | HardPFResp | WriteInvalidateReq
| WriteInvalidateResp | UpgradeReq | SCUpgradeReq | UpgradeResp | SCUpgradeFailReq
| UpgradeFailResp | ReadExReq | ReadExResp | LoadLockedReq | StoreCondReq
| StoreCondFailReq | StoreCondResp | SwapReq | SwapResp | MessageReq | MessageResp
| InvalidDestError | BadAddressError | FunctionalReadError | FunctionalWriteError
| PrintReq | FlushReq | InvalidationReq.

#[export] Instance MemCmd_eq_dec : EqDecision MemCmd.
Proof. solve_decision. Defined.

Inductive Attribute : Type :=
| IsRead | IsWrite | IsUpgrade | IsInvalidate | NeedsExclusive | IsRequest | IsResponse
| NeedsResponse | IsSWPrefetch | IsHWPrefetch | IsLlsc | HasData | IsError | IsPrint | IsFlush.

#[export] Instance Attribute_eq_dec : EqDecision Attribute.
Proof. solve_decision. Defined.

(** [MemCmd::commandInfo]: the attribute set and the response of each command. *)
Definition commandInfo (c : MemCmd) : list Attribute * MemCmd :=
  match c with
  | InvalidCmd => ([], InvalidCmd)
  | ReadReq => ([IsRead; IsRequest; NeedsResponse], ReadResp)
  | ReadResp => ([IsRead; IsResponse; HasData], InvalidCmd)
  | ReadRespWithInvalidate => ([IsRead; IsResponse; HasData; IsInvalidate], InvalidCmd)
  | WriteReq => ([IsWrite; NeedsExclusive; IsRequest; NeedsResponse; HasData], WriteResp)
  | WriteResp => ([IsWrite; NeedsExclusive; IsResponse], InvalidCmd)
  | Writeback => ([IsWrite; NeedsExclusive; IsRequest; HasData], InvalidCmd)
  | SoftPFReq => ([IsRead; IsRequest; IsSWPrefetch; NeedsResponse], SoftPFResp)
  | HardPFReq => ([IsRead; IsRequest; IsHWPrefetch; NeedsResponse], HardPFResp)
  | SoftPFResp => ([IsRead; IsResponse; IsSWPrefetch; HasData], InvalidCmd)
  | HardPFResp => ([IsRead; IsResponse; IsHWPrefetch; HasData], InvalidCmd)
  | WriteInvalidateReq =>
      ([IsWrite; NeedsExclusive; IsInvalidate; IsRequest; HasData; NeedsResponse],
       WriteInvalidateResp)
  | WriteInvalidateResp => ([IsWrite; NeedsExclusive; IsResponse], InvalidCmd)
  | UpgradeReq =>
      ([IsInvalidate; NeedsExclusive; IsUpgrade; IsRequest; NeedsResponse], UpgradeResp)
  | SCUpgradeReq =>
      ([IsInvalidate; NeedsExclusive; IsUpgrade; IsLlsc; IsRequest; NeedsResponse], UpgradeResp)
  | UpgradeResp => ([NeedsExclusive; IsUpgrade; IsResponse], InvalidCmd)
  | SCUpgradeFailReq =>
      ([IsInvalidate; NeedsExclusive; IsLlsc; IsRequest; NeedsResponse], UpgradeFailResp)
  | UpgradeFailResp => ([NeedsExclusive; IsResponse], InvalidCmd)
  | ReadExReq => ([IsRead; NeedsExclusive; IsInvalidate; IsRequest; NeedsResponse], ReadExResp)
  | ReadExResp => ([IsRead; NeedsExclusive; IsResponse; HasData], InvalidCmd)
  | LoadLockedReq => ([IsRead; IsLlsc; IsRequest; NeedsResponse], ReadResp)
  | StoreCondReq =>
      ([IsWrite; NeedsExclusive; IsLlsc; IsRequest; NeedsResponse; HasData], StoreCondResp)
  | StoreCondFailReq =>
      ([IsWrite; NeedsExclusive; IsLlsc; IsRequest; NeedsResponse; HasData], StoreCondResp)
  | StoreCondResp => ([IsWrite; NeedsExclusive; IsLlsc; IsResponse], InvalidCmd)
  | SwapReq => ([IsRead; IsWrite; NeedsExclusive; IsRequest; HasData; NeedsResponse], SwapResp)
  | SwapResp => ([IsRead; IsWrite; NeedsExclusive; IsResponse; HasData], InvalidCmd)
  | MessageReq => ([IsWrite; IsRequest; NeedsResponse; HasData], MessageResp)
  | MessageResp => ([IsWrite; IsResponse], InvalidCmd)
  | InvalidDestError => ([IsResponse; IsError], InvalidCmd)
  | BadAddressError => ([IsResponse; IsError], InvalidCmd)
  | FunctionalReadError => ([IsRead; IsResponse; IsError], InvalidCmd)
  | FunctionalWriteError => ([IsWrite; IsResponse; IsError], InvalidCmd)
  | PrintReq => ([IsRequest; IsPrint], InvalidCmd)
  | FlushReq => ([IsRequest; IsFlush; NeedsExclusive], InvalidCmd)
  | InvalidationReq => ([NeedsExclusive; IsInvalidate; IsRequest], InvalidCmd)
  end.

Definition testCmdAttrib (c : MemCmd) (a : Attribute) : bool :=
  bool_decide (a ∈ (commandInfo c).1).
Definition responseCommand (c : MemCmd) : MemCmd := (commandInfo c).2.

(** ** Requests and packets *)

Record Request : Type := mkRequest {
  req_paddr : Z;
  req_size : Z;
  req_masterId : Z;
  req_taskId : Z;
  req_contextId : Z;
  req_flags : Z;
  req_extraData : Z;
  req_qosTag : Z
}.
#[export] Instance eta_Request : Eta Request := λ r,
  mkRequest (req_paddr r) (req_size r) (req_masterId r) (req_taskId r) (req_contextId r)
    (req_flags r) (req_extraData r) (req_qosTag r).

(** The classes derived from [Packet::SenderState] that the modelled components
    push, and [PrintReqState] of a print request; [SSOther] is a state of a
    component outside the model. *)
Inductive SenderState : Type :=
| SSAddrMapper (origAddr : Z)
| SSBridge (origSrc : Z)
| SSMshr (id : nat)
| SSForward (prevSrc : Z)
| SSPrint
| SSOther (n : nat).

#[export] Instance SenderState_eq_dec : EqDecision SenderState.
Proof. solve_decision. Defined.

Record Packet : Type := mkPacket {
  pkt_flags : Z;
  pkt_cmd : MemCmd;
  pkt_req : Request;
  pkt_data : option (list Z);
  pkt_qosTag : Z;
  pkt_addr : Z;
  pkt_isSecure : bool;
  pkt_size : Z;
  pkt_src : Z;
  pkt_dest : Z;
  pkt_origCmd : MemCmd;
  pkt_bytesValidStart : Z;
  pkt_bytesValidEnd : Z;
  pkt_busFirstWordDelay : Z;
  pkt_busLastWordDelay : Z;
  pkt_senderState : list SenderState
}.
#[export] Instance eta_Packet : Eta Packet := λ p,
  mkPacket (pkt_flags p) (pkt_cmd p) (pkt_req p) (pkt_data p) (pkt_qosTag p) (pkt_addr p)
    (pkt_isSecure p) (pkt_size p) (pkt_src p) (pkt_dest p) (pkt_origCmd p)
    (pkt_bytesValidStart p) (pkt_bytesValidEnd p) (pkt_busFirstWordDelay p)
    (pkt_busLastWordDelay p) (pkt_senderState p).

(** Flag bits. *)
Definition COPY_FLAGS : Z := 0xF.
Definition SHARED : Z := 0x1.
Definition EXPRESS_SNOOP : Z := 0x2.
Definition SUPPLY_EXCLUSIVE : Z := 0x4.
Definition MEM_INHIBIT : Z := 0x8.
Definition VALID_ADDR : Z := 0x100.
Definition VALID_SIZE : Z := 0x200.
Definition VALID_QOSTAG : Z := 0x800.
Definition STATIC_DATA : Z := 0x1000.
Definition DYNAMIC_DATA : Z := 0x2000.
Definition ARRAY_DATA : Z := 0x4000.

Definition flag_isSet (fl f : Z) : bool := negb (Z.land fl f =? 0).
Definition flag_set (p : Packet) (f : Z) : Packet :=
  p <| pkt_flags := Z.lor (pkt_flags p) f |>.
Definition flag_clear (p : Packet) (f : Z) : Packet :=
  p <| pkt_flags := Z.ldiff (pkt_flags p) f |>.

Definition InvalidPortID : Z := -1.

(** Predicates inherited from the command. *)
Definition pkt_isRead (p : Packet) : bool := testCmdAttrib (pkt_cmd p) IsRead.
Definition pkt_isWrite (p : Packet) : bool := testCmdAttrib (pkt_cmd p) IsWrite.
Definition pkt_isUpgrade (p : Packet) : bool := testCmdAttrib (pkt_cmd p) IsUpgrade.
Definition pkt_isRequest (p : Packet) : bool := testCmdAttrib (pkt_cmd p) IsRequest.
Definition pkt_isResponse (p : Packet) : bool := testCmdAttrib (pkt_cmd p) IsResponse.
Definition pkt_needsExclusive (p : Packet) : bool := testCmdAttrib (pkt_cmd p) NeedsExclusive.
Definition pkt_needsResponse (p : Packet) : bool := testCmdAttrib (pkt_cmd p) NeedsResponse.
Definition pkt_isInvalidate (p : Packet) : bool := testCmdAttrib (pkt_cmd p) IsInvalidate.
Definition pkt_hasData (p : Packet) : bool := testCmdAttrib (pkt_cmd p) HasData.
Definition pkt_isLLSC (p : Packet) : bool := testCmdAttrib (pkt_cmd p) IsLlsc.
Definition pkt_isPrint (p : Packet) : bool := testCmdAttrib (pkt_cmd p) IsPrint.

(** Snoop and control flags. *)
Definition assertMemInhibit (p : Packet) : Packet := flag_set p MEM_INHIBIT.
Definition memInhibitAsserted (p : Packet) : bool := flag_isSet (pkt_flags p) MEM_INHIBIT.
Definition assertShared (p : Packet) : Packet := flag_set p SHARED.
Definition sharedAsserted (p : Packet) : bool := flag_isSet (pkt_flags p) SHARED.
Definition isExpressSnoop (p : Packet) : bool := flag_isSet (pkt_flags p) EXPRESS_SNOOP.
Definition setSupplyExclusive (p : Packet) : Packet := flag_set p SUPPLY_EXCLUSIVE.

(** Accessors with their assertions. *)
Definition getAddr (p : Packet) : result Z :=
  assertb (flag_isSet (pkt_flags p) VALID_ADDR) ;; Ok (pkt_addr p).
Definition setAddr (p : Packet) (a : Z) : result Packet :=
  assertb (flag_isSet (pkt_flags p) VALID_ADDR) ;; Ok (p <| pkt_addr := a |>).
Definition getSize (p : Packet) : result Z :=
  assertb (flag_isSet (pkt_flags p) VALID_SIZE) ;; Ok (pkt_size p).
Definition isSecure (p : Packet) : result bool :=
  assertb (flag_isSet (pkt_flags p) VALID_ADDR) ;; Ok (pkt_isSecure p).
Definition getQosTag (p : Packet) : result Z :=
  assertb (flag_isSet (pkt_flags p) VALID_QOSTAG) ;; Ok (pkt_qosTag p).
Definition setQosTag (p : Packet) (tag : Z) : Packet :=
  flag_set (p <| pkt_qosTag := tag |> <| pkt_req := (pkt_req p) <| req_qosTag := tag |> |>)
    VALID_QOSTAG.
Definition getSrc (p : Packet) : result Z :=
  assertb (negb (pkt_src p =? InvalidPortID)) ;; Ok (pkt_src p).
Definition setDest (p : Packet) (d : Z) : Packet := p <| pkt_dest := d |>.
Definition isDestValid (p : Packet) : bool := negb (pkt_dest p =? InvalidPortID).

(** [Packet(Packet *pkt, bool clearFlags)]. *)
Definition Packet_copy (p : Packet) (clearFlags : bool) : Packet :=
  let fl := if clearFlags then 0 else Z.land (pkt_flags p) COPY_FLAGS in
  let fl := Z.lor fl (Z.land (pkt_flags p) (Z.lor VALID_ADDR VALID_SIZE)) in
  let fl := Z.lor fl (Z.land (pkt_flags p) STATIC_DATA) in
  let fl := Z.lor fl (Z.land (pkt_flags p) VALID_QOSTAG) in
  mkPacket fl (pkt_cmd p) (pkt_req p)
    (if flag_isSet (pkt_flags p) STATIC_DATA then pkt_data p else None)
    (pkt_qosTag p) (pkt_addr p) (pkt_isSecure p) (pkt_size p) (pkt_src p) (pkt_dest p)
    InvalidCmd (pkt_bytesValidStart p) (pkt_bytesValidEnd p)
    (pkt_busFirstWordDelay p) (pkt_busLastWordDelay p) (pkt_senderState p).

Definition makeResponse (p : Packet) : result Packet :=
  assertb (pkt_needsResponse p) ;;
  assertb (pkt_isRequest p) ;;
  let p := p <| pkt_origCmd := pkt_cmd p |> <| pkt_cmd := responseCommand (pkt_cmd p) |> in
  let p := flag_clear p EXPRESS_SNOOP in
  Ok (p <| pkt_dest := pkt_src p |> <| pkt_src := InvalidPortID |>).

(** The sender-state stack. *)
Definition pushSenderState (p : Packet) (s : SenderState) : Packet :=
  p <| pkt_senderState := s :: pkt_senderState p |>.
Definition popSenderState (p : Packet) : result (SenderState * Packet) :=
  match pkt_senderState p with
  | [] => Err AssertFail
  | s :: st => Ok (s, p <| pkt_senderState := st |>)
  end.

(** Request flags (request.hh). *)
Definition INST_FETCH : Z := 0x100.
Definition UNCACHEABLE : Z := 0x1000.
Definition CLEAR_LL : Z := 0x4000.
Definition MEM_SWAP_COND : Z := 0x800000.
Definition SECURE : Z := 0x10000000.
Definition req_isUncacheable (r : Request) : bool := flag_isSet (req_flags r) UNCACHEABLE.
Definition req_isInstFetch (r : Request) : bool := flag_isSet (req_flags r) INST_FETCH.
Definition req_isClearLL (r : Request) : bool := flag_isSet (req_flags r) CLEAR_LL.
Definition req_isCondSwap (r : Request) : bool := flag_isSet (req_flags r) MEM_SWAP_COND.
Definition req_isSecure (r : Request) : bool := flag_isSet (req_flags r) SECURE.
Definition wbMasterId : Z := 0.
Definition funcMasterId : Z := 1.

(** [Request(paddr, size, flags, mid)] ([setPhys]): the tag of a physical
    request is all ones until [setQosTag]. *)
Definition Request_phys (paddr size flags mid : Z) : Request :=
  mkRequest paddr size mid 0 0 flags 0 0xFFFFFFFFFFFFFFF.

(** [Packet(req, cmd)] and [Packet(req, cmd, blkSize)] for a request with
    address, size and tag. *)
Definition Packet_make (req : Request) (cmd : MemCmd) : Packet :=
  mkPacket (Z.lor (Z.lor VALID_ADDR VALID_SIZE) VALID_QOSTAG) cmd req None (req_qosTag req)
    (req_paddr req) (req_isSecure req) (req_size req) InvalidPortID InvalidPortID InvalidCmd 0 0 0 0 [].
Definition Packet_make_blk (req : Request) (cmd : MemCmd) (blkSize : Z) : Packet :=
  mkPacket (Z.lor (Z.lor VALID_ADDR VALID_SIZE) VALID_QOSTAG) cmd req None (req_qosTag req)
    (wrap 64 (Z.land (req_paddr req) (Z.lnot (blkSize - 1)))) (req_isSecure req) blkSize
    InvalidPortID InvalidPortID InvalidCmd 0 0 0 0 [].

(** [allocate()]: fresh bytes have no defined value; they are written before
    they are read, and are zeros here. *)
Definition Packet_allocate (p : Packet) : result Packet :=
  match pkt_data p with
  | Some _ => assertb (flag_isSet (pkt_flags p) (Z.lor STATIC_DATA DYNAMIC_DATA)) ;; Ok p
  | None =>
      assertb (negb (flag_isSet (pkt_flags p) (Z.lor STATIC_DATA DYNAMIC_DATA))) ;;
      size ← getSize p;
      Ok ((flag_set p (Z.lor DYNAMIC_DATA ARRAY_DATA)) <| pkt_data := Some (replicate (Z.to_nat size) 0) |>)
  end.

(** [getPtr<uint8_t>()]: the bytes a packet carries. *)
Definition getPtr (p : Packet) : result (list Z) :=
  assertb (flag_isSet (pkt_flags p) (Z.lor STATIC_DATA DYNAMIC_DATA)) ;;
  match pkt_data p with Some l => Ok l | None => Err NullDeref end.

Definition getOffset (p : Packet) (blkSize : Z) : result Z :=
  addr ← getAddr p; Ok (Z.land addr (blkSize - 1)).

(** [setData(p)] and [writeData(p)]: [getSize()] bytes from or to a pointer
    [off] bytes into [mem]. *)
Definition setData (p : Packet) (mem : list Z) (off : Z) : result Packet :=
  bytes ← getPtr p;
  size ← getSize p;
  let o := Z.to_nat off in let n := Z.to_nat size in
  if decide (n ≤ length bytes ∧ o + n ≤ length mem)%nat
  then Ok (p <| pkt_data := Some (splice bytes 0 (slice mem o n)) |>) else Err OutOfBounds.
Definition writeData (p : Packet) (mem : list Z) (off : Z) : result (list Z) :=
  bytes ← getPtr p;
  size ← getSize p;
  let o := Z.to_nat off in let n := Z.to_nat size in
  if decide (n ≤ length bytes ∧ o + n ≤ length mem)%nat
  then Ok (splice mem o (take n bytes)) else Err OutOfBounds.
Definition setDataFromBlock (p : Packet) (blk_data : list Z) (blkSize : Z) : result Packet :=
  off ← getOffset p blkSize; setData p blk_data off.
Definition writeDataToBlock (p : Packet) (blk_data : list Z) (blkSize : Z) : result (list Z) :=
  off ← getOffset p blkSize; writeData p blk_data off.

Definition isSupplyExclusive (p : Packet) : bool := flag_isSet (pkt_flags p) SUPPLY_EXCLUSIVE.
Definition setExpressSnoop (p : Packet) : Packet := flag_set p EXPRESS_SNOOP.
Definition pkt_isError (p : Packet) : bool := testCmdAttrib (pkt_cmd p) IsError.
Definition copyError (p other : Packet) : result Packet :=
  assertb (pkt_isError other) ;; Ok (p <| pkt_cmd := pkt_cmd other |>).

(** [get<T>()] and [set<T>(v)] for an unsigned [T] of [n] bytes
    (packet_access.hh); host and guest are little endian. *)
Definition Packet_get (n : nat) (p : Packet) : result Z :=
  assertb (flag_isSet (pkt_flags p) (Z.lor STATIC_DATA DYNAMIC_DATA)) ;;
  assertb (Z.of_nat n <=? pkt_size p) ;;
  match pkt_data p with
  | None => Err NullDeref
  | Some bytes => if decide (n ≤ length bytes)%nat then Ok (le_combine (take n bytes)) else Err OutOfBounds
  end.
Definition Packet_set (n : nat) (p : Packet) (v : Z) : result Packet :=
  assertb (flag_isSet (pkt_flags p) (Z.lor STATIC_DATA DYNAMIC_DATA)) ;;
  assertb (Z.of_nat n <=? pkt_size p) ;;
  match pkt_data p with
  | None => Err NullDeref
  | Some bytes =>
      if decide (n ≤ length bytes)%nat then Ok (p <| pkt_data := Some (splice bytes 0 (le_split n v)) |>)
      else Err OutOfBounds
  end.

(** [findNextSenderState<MSHR>()]: the MSHR nearest the top of the stack. *)
Fixpoint findNextMshr (st : list SenderState) : option nat :=
  match st with
  | [] => None
  | SSMshr id :: _ => Some id
  | _ :: st' => findNextMshr st'
  end.

(** ** PARD tags (pardg5v.hh) *)

Definition ALL_GUEST : Z := 0xFF.
Definition INVALID_LDOM : Z := 0xFFFF.
Definition QOSTAG_TO_GUESTID (tag : Z) : Z := wrap 16 (Z.land tag 0xFF).
Definition SET_GUESTID (tag guest : Z) : Z :=
  Z.lor (Z.land (wrap 64 tag) 0xFFFFFFFFFFFFFF00) (Z.land (wrap 64 guest) 0xFF).
Definition PKT_TO_GUESTID (p : Packet) : result Z :=
  tag ← getQosTag p; Ok (wrap 16 (Z.land tag 0xFF)).
Definition PKT_SET_GUESTID (p : Packet) (guestID : Z) : result Packet :=
  tag ← getQosTag p;
  let qosTag := Z.land tag 0xFFFFFFFFFFFFFF00 in
  Ok (setQosTag p (Z.lor qosTag (Z.land guestID 0xFF))).
Definition QOSTAG_TO_LDOMID (tag : Z) : Z := wrap 16 (Z.land tag 0xFFFF).

(** ** Well-formed packets: address, size and tag are valid *)

Definition pkt_wf (p : Packet) : Prop :=
  flag_isSet (pkt_flags p) VALID_ADDR = true ∧
  flag_isSet (pkt_flags p) VALID_SIZE = true ∧
  flag_isSet (pkt_flags p) VALID_QOSTAG = true.

Definition guest_of (p : Packet) : Z := wrap 16 (Z.land (pkt_qosTag p) 0xFF).

Lemma getAddr_wf p : pkt_wf p → getAddr p = Ok (pkt_addr p).
Proof. intros (H & _ & _). unfold getAddr. by rewrite H. Qed.
Lemma setAddr_wf p a : pkt_wf p → setAddr p a = Ok (p <| pkt_addr := a |>).
Proof. intros (H & _ & _). unfold setAddr. by rewrite H. Qed.
Lemma getSize_wf p : pkt_wf p → getSize p = Ok (pkt_size p).
Proof. intros (_ & H & _). unfold getSize. by rewrite H. Qed.
Lemma isSecure_wf p : pkt_wf p → isSecure p = Ok (pkt_isSecure p).
Proof. intros (H & _ & _). unfold isSecure. by rewrite H. Qed.
Lemma getQosTag_wf p : pkt_wf p → getQosTag p = Ok (pkt_qosTag p).
Proof. intros (_ & _ & H). unfold getQosTag. by rewrite H. Qed.
Lemma PKT_TO_GUESTID_wf p : pkt_wf p → PKT_TO_GUESTID p = Ok (guest_of p).
Proof. intros H. unfold PKT_TO_GUESTID. by rewrite getQosTag_wf. Qed.

Lemma pkt_wf_flags p q : pkt_flags p = pkt_flags q → pkt_wf p → pkt_wf q.
Proof. unfold pkt_wf. by intros ->. Qed.

Lemma land_0xFF x : Z.land x 0xFF = x mod 256.
Proof. change 0xFF with (Z.ones 8). by rewrite Z.land_ones by lia. Qed.

Lemma guest_of_range p : 0 ≤ guest_of p < 256.
Proof.
  unfold guest_of. rewrite land_0xFF. pose proof (Z.mod_pos_bound (pkt_qosTag p) 256 ltac:(lia)).
  rewrite wrap_small; [done | unfold in_width; lia].
Qed.

Lemma QOSTAG_TO_GUESTID_range tag : 0 ≤ QOSTAG_TO_GUESTID tag < 256.
Proof.
  unfold QOSTAG_TO_GUESTID. rewrite land_0xFF. pose proof (Z.mod_pos_bound tag 256 ltac:(lia)).
  rewrite wrap_small; [done | unfold in_width; lia].
Qed.

(** Replacing the guest byte of a tag and reading it back. *)
Lemma QOSTAG_SET_GUESTID tag g :
  QOSTAG_TO_GUESTID (SET_GUESTID tag g) = g mod 256.
Proof.
  unfold QOSTAG_TO_GUESTID, SET_GUESTID.
  assert (Z.land (Z.lor (Z.land (wrap 64 tag) 0xFFFFFFFFFFFFFF00) (Z.land (wrap 64 g) 0xFF)) 0xFF
          = g mod 256) as ->.
  { rewrite Z.land_lor_distr_l, <-!Z.land_assoc. change (Z.land 0xFFFFFFFFFFFFFF00 0xFF) with 0.
    rewrite Z.land_0_r, Z.lor_0_l. change (Z.land 0xFF 0xFF) with 0xFF. rewrite land_0xFF.
    unfold wrap. change 256 with (2 ^ 8). rewrite <-(Z.mod_mod_divide g (2 ^ 64) (2 ^ 8)); [done|].
    exists (2 ^ 56). reflexivity. }
  pose proof (Z.mod_pos_bound g 256 ltac:(lia)). apply wrap_small. unfold in_width. lia.
Qed.

(** ** Flags *)

Lemma flag_isSet_lor a b f : flag_isSet (Z.lor a b) f = flag_isSet a f || flag_isSet b f.
Proof.
  unfold flag_isSet. rewrite Z.land_lor_distr_l.
  destruct (Z.eqb_spec (Z.lor (Z.land a f) (Z.land b f)) 0) as [H|H].
  - apply Z.lor_eq_0_iff in H as [-> ->]. done.
  - destruct (Z.eqb_spec (Z.land a f) 0) as [Ha|], (Z.eqb_spec (Z.land b f) 0) as [Hb|]; try done.
    rewrite Ha, Hb in H. by rewrite Z.lor_0_l in H.
Qed.

Lemma flag_isSet_ldiff a e f : Z.ldiff f e = f → flag_isSet (Z.ldiff a e) f = flag_isSet a f.
Proof.
  intros H. unfold flag_isSet. rewrite <-H at 2. do 2 f_equal. apply Z.bits_inj'. intros i Hi.
  rewrite !Z.land_spec, !Z.ldiff_spec. rewrite <-H at 1. rewrite Z.ldiff_spec. btauto.
Qed.

Lemma flag_isSet_set fl f g : g ≠ 0 → Z.land f g = g → flag_isSet (Z.lor fl f) g = true.
Proof.
  intros Hg Hfg. rewrite flag_isSet_lor. apply orb_true_intro. right. unfold flag_isSet. rewrite Hfg.
  by apply negb_true_iff, Z.eqb_neq.
Qed.
