(* ===== verification/Functional.v ===== *)
(** * Functional accesses against packets and blocks in flight

    [Packet::checkFunctional] of [src/gem5-pard/src/mem/packet.cc]: a functional
    request looks at a value held somewhere on its way, reads what it can from
    it or updates it, and says whether it is done.  A read may collect its bytes
    in pieces; [bytesValidStart] and [bytesValidEnd] delimit those it has. *)

From S2P Require Import Prelude BaseLib Packet.
Local Open Scope Z_scope.

(** ** Operations *)

(** [memcpy(dst + doff, src + soff, n)]. *)
Definition memcpy (dst : list Z) (doff : Z) (src : list Z) (soff n : Z) : result (list Z) :=
  if decide (0 ≤ n ∧ 0 ≤ doff ∧ doff + n ≤ Z.of_nat (length dst) ∧ 0 ≤ soff ∧ soff + n ≤ Z.of_nat (length src))
  then Ok (splice dst (Z.to_nat doff) (slice src (Z.to_nat soff) (Z.to_nat n))) else Err OutOfBounds.

(** Where the bytes of a partial overlap go: the new window and the copies, each
    an offset in the packet, an offset in the value and a length. *)
Definition extend_window (bvs bve func_offset val_offset overlap_size : Z) : result (Z * Z * list (Z * Z * Z)) :=
  if (bvs =? 0) && (bve =? 0)
  then Ok (wrap 16 func_offset, wrap 16 (func_offset + overlap_size), [(func_offset, val_offset, overlap_size)])
  else
    let a := func_offset - bvs in
    let b := (func_offset + overlap_size) - bve in
    let c := func_offset - bve in
    let d := (func_offset + overlap_size) - bvs in
    let tail := (func_offset + overlap_size) - bve in
    if (0 <=? a) && (b <=? 0) then Ok (bvs, bve, [(func_offset, val_offset, 0)])
    else if (a <? 0) && (0 <=? d) && (b <=? 0) then Ok (wrap 16 func_offset, bve, [(func_offset, val_offset, bvs - func_offset)])
    else if (0 <? b) && (c <=? 0) && (0 <=? a) then Ok (bvs, wrap 16 (bve + tail), [(bve, val_offset + (bve - func_offset), tail)])
    else if (a <? 0) && (0 <? b) then
      Ok (wrap 16 func_offset, wrap 16 (bve + tail),
          [(func_offset, val_offset, bvs - func_offset); (bve, val_offset + (bve - func_offset), tail)])
    else if ((0 <? c) && (0 <? b)) || ((a <? 0) && (d <? 0)) then Err PanicCalled
    else Ok (bvs, bve, [(func_offset, val_offset, overlap_size)]).

(** The overlap of a request with a value that does not contain it: the offsets
    in the packet and in the value, and the number of bytes, as the code
    computes them. *)
Definition partial_overlap (func_start func_end val_start val_end size : Z) : result (Z * Z * Z) :=
  if (val_start <? func_start) && (val_end <=? func_end) then
    Ok (0, swrap 32 (func_start - val_start), swrap 32 (val_end - func_start))
  else if (func_start <=? val_start) && (func_end <? val_end) then
    Ok (swrap 32 (val_start - func_start), 0, swrap 32 (func_end - val_start))
  else if (func_start <=? val_start) && (val_end <=? func_end) then
    Ok (swrap 32 (val_start - func_start), 0, size)
  else Err PanicCalled.

(** The partial read. *)
Definition partial_read (p : Packet) (func_start func_end val_start val_end size : Z) (data : list Z) : result (Packet * bool) :=
  '(fo, vo, os) ← partial_overlap func_start func_end val_start val_end size;
  '(bvs, bve, copies) ← extend_window (pkt_bytesValidStart p) (pkt_bytesValidEnd p) fo vo os;
  psize ← getSize p;
  assertb (bve <=? psize) ;;
  bytes ← getPtr p;
  bytes ← foldM (λ dst '(doff, soff, n), memcpy dst doff data soff n) bytes copies;
  let p := p <| pkt_bytesValidStart := bvs |> <| pkt_bytesValidEnd := bve |> <| pkt_data := Some bytes |> in
  Ok (p, (bvs =? 0) && (bve =? psize)).

(** [checkFunctional(obj, addr, is_secure, size, data)]: the packet, the value
    and whether the request is done; printing only writes to the output. *)
Definition checkFunctional (p : Packet) (addr : Z) (is_secure : bool) (size : Z) (data : option (list Z))
  : result (Packet * option (list Z) * bool) :=
  func_start ← getAddr p;
  psize ← getSize p;
  let func_end := wrap 64 (func_start + psize - 1) in
  let val_start := addr in
  let val_end := wrap 64 (val_start + size - 1) in
  if negb (eqb is_secure (pkt_isSecure p)) || (val_end <? func_start) || (func_end <? val_start) then Ok (p, data, false)
  else if pkt_isPrint p then Ok (p, data, false)
  else
    match data with
    | None => Ok (p, data, false)
    | Some bytes =>
        let offset := swrap 32 (func_start - val_start) in
        if pkt_isRead p then
          if (val_start <=? func_start) && (func_end <=? val_end) then
            p ← Packet_allocate p;
            mine ← getPtr p;
            mine ← memcpy mine 0 bytes offset psize;
            Ok (p <| pkt_data := Some mine |>, data, true)
          else '(p, done) ← partial_read p func_start func_end val_start val_end size bytes; Ok (p, data, done)
        else if pkt_isWrite p then
          mine ← getPtr p;
          bytes ← (if 0 <=? offset then memcpy bytes offset mine 0 (Z.min func_end val_end - func_start + 1)
                   else memcpy bytes 0 mine (- offset) (Z.min func_end val_end - val_start + 1));
          Ok (p, Some bytes, false)
        else Err PanicCalled
    end.

(** [checkFunctional(other)]: the request, the packet in flight and whether the
    request is done. *)
Definition checkFunctional_pkt (p other : Packet) : result (Packet * Packet * bool) :=
  data ← (if pkt_hasData other then bytes ← getPtr other; Ok (Some bytes) else Ok None);
  addr ← getAddr other;
  is_secure ← isSecure other;
  size ← getSize other;
  '(p, data, found) ← checkFunctional p addr is_secure size data;
  Ok (p, match data with Some bytes => other <| pkt_data := Some bytes |> | None => other end, found).

(** The loops over packets in flight, which stop at the first that satisfies the
    request. *)
Fixpoint checkFunctional_list (p : Packet) (l : list Packet) : result (Packet * list Packet * bool) :=
  match l with
  | [] => Ok (p, [], false)
  | q :: l' =>
      '(p, q, found) ← checkFunctional_pkt p q;
      if found : bool then Ok (p, q :: l', true)
      else '(p, l', found) ← checkFunctional_list p l'; Ok (p, q :: l', found)
  end.

(** ** Copies *)

(** Bytes by a signed index. *)
Abbreviation byte l i := ((l : list Z) !!! Z.to_nat i) (only parsing).

Lemma memcpy_spec dst doff src soff n :
  0 ≤ n → 0 ≤ doff → doff + n ≤ Z.of_nat (length dst) → 0 ≤ soff → soff + n ≤ Z.of_nat (length src) →
  ∃ l, memcpy dst doff src soff n = Ok l ∧ length l = length dst ∧
    ∀ i, 0 ≤ i < Z.of_nat (length dst) → byte l i = if decide (doff ≤ i < doff + n) then byte src (soff + (i - doff)) else byte dst i.
Proof.
  intros H1 H2 H3 H4 H5. unfold memcpy. rewrite decide_True by lia. eexists. split; [reflexivity|].
  assert (Hs : length (slice src (Z.to_nat soff) (Z.to_nat n)) = Z.to_nat n) by (apply length_slice; lia).
  split; [apply length_splice; lia|]. intros i Hi. rewrite splice_lookup_total by lia. rewrite Hs.
  destruct (decide (doff ≤ i < doff + n)).
  - rewrite decide_True by lia. unfold slice. rewrite !list_lookup_total_alt, lookup_take_lt, lookup_drop by lia. do 2 f_equal. lia.
  - by rewrite decide_False by lia.
Qed.

(** A list of copies from [src], all with the shift [sh]. *)
Definition copies_ok (sh lo hi : Z) (copies : list (Z * Z * Z)) : Prop :=
  Forall (λ '(d, so, n), 0 ≤ n ∧ so = d + sh ∧ lo ≤ d ∧ d + n ≤ hi) copies.
Definition copied (copies : list (Z * Z * Z)) (i : Z) : bool := existsb (λ '(d, _, n), (d <=? i) && (i <? d + n)) copies.

Lemma copies_spec src sh lo hi copies dst :
  0 ≤ lo → hi ≤ Z.of_nat (length dst) → 0 ≤ lo + sh → hi + sh ≤ Z.of_nat (length src) → copies_ok sh lo hi copies →
  ∃ l, foldM (λ dst '(doff, soff, n), memcpy dst doff src soff n) dst copies = Ok l ∧ length l = length dst ∧
    ∀ i, 0 ≤ i < Z.of_nat (length dst) → byte l i = if copied copies i then byte src (i + sh) else byte dst i.
Proof.
  intros H1 H2 H3 H4. revert dst H2. induction copies as [|[[d so] n] copies IH]; intros dst H2 Hc; [by exists dst|].
  apply Forall_cons in Hc as [(Hn & -> & Hd1 & Hd2) Hc].
  destruct (memcpy_spec dst d src (d + sh) n) as (l1 & E1 & L1 & S1); [lia..|].
  destruct (IH l1) as (l & E & L & S); [by rewrite L1|done|]. exists l. cbn [foldM]. rewrite E1. cbn [mbind result_bind].
  split; [exact E|]. split; [congruence|]. intros i Hi. rewrite S by (by rewrite L1). rewrite S1 by done. cbn [copied existsb].
  fold (copied copies i). destruct (copied copies i); [by rewrite orb_true_r|]. rewrite orb_false_r.
  destruct (decide _); [rewrite (proj2 (andb_true_iff _ _)) by (rewrite Z.leb_le, Z.ltb_lt; lia); f_equal; lia|].
  destruct (_ && _) eqn:Hx; [|done]. rewrite andb_true_iff, Z.leb_le, Z.ltb_lt in Hx. lia.
Qed.

(** ** Windows *)

(** The next bytes leave a gap to the window. *)
Definition gap (s e lo hi : Z) : Prop := (s ≠ 0 ∨ e ≠ 0) ∧ (e < lo ∨ hi < s).

Record window_ext (s e lo hi sh bound s' e' : Z) (copies : list (Z * Z * Z)) : Prop := {
  we_range : (0 ≤ s') ∧ (s' ≤ e') ∧ (e' ≤ bound);
  we_old : ∀ i, s ≤ i < e → s' ≤ i < e';
  we_new : ∀ i, lo ≤ i < hi → s' ≤ i < e';
  we_copies : copies_ok sh lo hi copies;
  we_keep : ∀ i, s ≤ i < e → copied copies i = false;
  we_cover : ∀ i, s' ≤ i < e' → ¬ (s ≤ i < e) → lo ≤ i < hi ∧ copied copies i = true
}.

Lemma extend_window_spec s e fo os vo bound :
  0 ≤ s → s ≤ e → e ≤ bound → bound < 2 ^ 16 → 0 ≤ fo → 0 ≤ os → fo + os ≤ bound →
  (extend_window s e fo vo os = Err PanicCalled ∧ gap s e fo (fo + os)) ∨
  ∃ s' e' copies, extend_window s e fo vo os = Ok (s', e', copies) ∧ window_ext s e fo (fo + os) (vo - fo) bound s' e' copies.
Proof.
  intros H1 H2 H3 H4 H5 H6 H7. unfold extend_window.
  assert (W : ∀ x, 0 ≤ x → x ≤ bound → wrap 16 x = x) by (intros; apply wrap_small; split; lia).
  repeat match goal with
  | |- context [if ?b then _ else _] => let H := fresh "B" in destruct b eqn:H
  end; rewrite ?andb_true_iff, ?andb_false_iff, ?orb_true_iff, ?orb_false_iff, ?andb_true_iff, ?andb_false_iff, ?Z.eqb_eq, ?Z.eqb_neq, ?Z.leb_le, ?Z.leb_gt, ?Z.ltb_lt, ?Z.ltb_ge in *;
    rewrite ?W by lia; try (left; split; [reflexivity|unfold gap; lia]); try (exfalso; lia);
    right; do 3 eexists; (split; [reflexivity|]); (split; [lia|intros; lia|intros; lia|unfold copies_ok; repeat constructor; lia|..]);
    unfold copied; cbn [existsb]; intros i; rewrite ?orb_false_r; intros;
    rewrite ?orb_true_iff, ?orb_false_iff, ?andb_true_iff, ?andb_false_iff, ?Z.leb_le, ?Z.leb_gt, ?Z.ltb_lt, ?Z.ltb_ge; lia.
Qed.

(** ** A functional request against a value *)

Record functional_req (p : Packet) (mine : list Z) : Prop := {
  fr_wf : pkt_wf p;
  fr_data : pkt_data p = Some mine;
  fr_flags : flag_isSet (pkt_flags p) (Z.lor STATIC_DATA DYNAMIC_DATA) = true;
  fr_length : Z.of_nat (length mine) = pkt_size p;
  fr_size : 0 < pkt_size p < 2 ^ 16;
  fr_addr : 0 ≤ pkt_addr p;
  fr_end : pkt_addr p + pkt_size p ≤ 2 ^ 64;
  fr_print : pkt_isPrint p = false
}.
Record value_ok (addr size : Z) (data : list Z) : Prop := {
  vo_length : Z.of_nat (length data) = size;
  vo_size : 0 < size < 2 ^ 31;
  vo_addr : 0 ≤ addr;
  vo_end : addr + size ≤ 2 ^ 64
}.

(** Byte [i] of the value is one the request asks for. *)
Definition overlaps_at (p : Packet) (addr : Z) (is_secure : bool) (i : Z) : Prop :=
  is_secure = pkt_isSecure p ∧ pkt_addr p ≤ addr + i < pkt_addr p + pkt_size p.
#[export] Instance overlaps_at_dec p addr sec i : Decision (overlaps_at p addr sec i).
Proof. unfold overlaps_at. apply _. Defined.

Lemma swrap_small w x : 0 < w → - 2 ^ (w - 1) ≤ x < 2 ^ (w - 1) → swrap w x = x.
Proof.
  intros Hw Hx. unfold swrap. rewrite wrap_small; [lia|].
  assert (2 ^ w = 2 * 2 ^ (w - 1)) by (rewrite <-Z.pow_succ_r by lia; f_equal; lia). split; lia.
Qed.

Lemma getPtr_data p mine : functional_req p mine → getPtr p = Ok mine.
Proof. intros []. unfold getPtr. by rewrite fr_flags0, fr_data0. Qed.
Lemma functional_end p mine : functional_req p mine → wrap 64 (pkt_addr p + pkt_size p - 1) = pkt_addr p + pkt_size p - 1.
Proof. intros []. apply wrap_small. split; lia. Qed.
Lemma value_end addr size data : value_ok addr size data → wrap 64 (addr + size - 1) = addr + size - 1.
Proof. intros []. apply wrap_small. split; lia. Qed.

(** The test for an intersection. *)
Lemma no_intersection p addr (sec : bool) size data mine :
  functional_req p mine → value_ok addr size data →
  negb (eqb sec (pkt_isSecure p)) || (addr + size - 1 <? pkt_addr p) || (pkt_addr p + pkt_size p - 1 <? addr) = true ↔
  ∀ i, 0 ≤ i < size → ¬ overlaps_at p addr sec i.
Proof.
  intros R V. destruct R, V. unfold overlaps_at. rewrite !orb_true_iff, negb_true_iff, !Z.ltb_lt. split.
  - intros [[H|H]|H] i Hi [Hs Ho]; [|lia..]. subst sec. by rewrite eqb_reflx in H.
  - intros H. destruct (eqb sec (pkt_isSecure p)) eqn:He; [|auto]. apply eqb_prop in He. subst sec.
    destruct (Z.ltb_spec (addr + size - 1) (pkt_addr p)); [auto|]. destruct (Z.ltb_spec (pkt_addr p + pkt_size p - 1) addr); [auto|]. exfalso.
    destruct (Z.le_gt_cases addr (pkt_addr p)); [apply (H (pkt_addr p - addr))|apply (H 0)]; try lia; split; (done || lia).
Qed.

Lemma checkFunctional_disjoint p addr sec size data mine :
  functional_req p mine → value_ok addr size data → (∀ i, 0 ≤ i < size → ¬ overlaps_at p addr sec i) →
  checkFunctional p addr sec size (Some data) = Ok (p, Some data, false).
Proof.
  intros R V H. unfold checkFunctional. rewrite (getAddr_wf _ (fr_wf _ _ R)), (getSize_wf _ (fr_wf _ _ R)). cbn [mbind result_bind].
  rewrite (functional_end _ _ R), (value_end _ _ _ V), (proj2 (no_intersection p addr sec size data mine R V) H). done.
Qed.

(** A functional write updates exactly the bytes it covers in every value it
    meets on its way, in its own security space, and goes on. *)
Lemma functional_write_spec p addr sec size data mine :
  functional_req p mine → value_ok addr size data → pkt_isRead p = false → pkt_isWrite p = true →
  ∃ data', checkFunctional p addr sec size (Some data) = Ok (p, Some data', false) ∧ length data' = length data ∧
    ∀ i, 0 ≤ i < size → byte data' i = if decide (overlaps_at p addr sec i) then byte mine (addr + i - pkt_addr p) else byte data i.
Proof.
  intros R V Hr Hw. destruct (decide (Forall (λ i, ¬ overlaps_at p addr sec (Z.of_nat i)) (seq 0 (Z.to_nat size)))) as [Hd|Hd].
  - assert (Hn : ∀ i, 0 ≤ i < size → ¬ overlaps_at p addr sec i).
    { intros i Hi. rewrite Forall_forall in Hd. rewrite <-(Z2Nat.id i) by lia. apply Hd, elem_of_seq. lia. }
    exists data. rewrite (checkFunctional_disjoint _ _ _ _ _ _ R V Hn). split; [done|]. split; [done|]. intros i Hi. by rewrite decide_False by auto.
  - unfold checkFunctional. rewrite (getAddr_wf _ (fr_wf _ _ R)), (getSize_wf _ (fr_wf _ _ R)). cbn [mbind result_bind].
    rewrite (functional_end _ _ R), (value_end _ _ _ V), (fr_print _ _ R), Hr, Hw, (getPtr_data _ _ R). cbn [mbind result_bind].
    destruct (negb _ || _ || _) eqn:Hx.
    { destruct Hd. rewrite (no_intersection p addr sec size data mine R V) in Hx. apply Forall_forall. intros i [_ Hi]%elem_of_seq. apply Hx. lia. }
    rewrite !orb_false_iff, negb_false_iff, !Z.ltb_ge in Hx. destruct Hx as [[->%eqb_prop Hx1] Hx2]. destruct R, V.
    rewrite (swrap_small 32) by (change (2 ^ (32 - 1)) with (2 ^ 31); lia).
    destruct (Z.leb_spec 0 (pkt_addr p - addr));
      [destruct (memcpy_spec data (pkt_addr p - addr) mine 0 (Z.min (pkt_addr p + pkt_size p - 1) (addr + size - 1) - pkt_addr p + 1)) as (l & -> & L & S); [lia..|]
      |destruct (memcpy_spec data 0 mine (- (pkt_addr p - addr)) (Z.min (pkt_addr p + pkt_size p - 1) (addr + size - 1) - addr + 1)) as (l & -> & L & S); [lia..|]];
      cbn [mbind result_bind]; exists l; (split; [done|]); (split; [done|]); intros i Hi; rewrite S by lia;
      rewrite (decide_ext (overlaps_at p addr (pkt_isSecure p) i) (pkt_addr p ≤ addr + i < pkt_addr p + pkt_size p)) by (unfold overlaps_at; tauto);
      (destruct (decide _) as [D1|D1], (decide _) as [D2|D2]; [f_equal; lia|lia|lia|done]).
Qed.

(** A packet in flight, and what a functional write makes of it. *)
Definition in_flight (q : Packet) : Prop :=
  pkt_wf q ∧ (pkt_hasData q = true → ∃ data, getPtr q = Ok data ∧ value_ok (pkt_addr q) (pkt_size q) data).
Definition rewritten (p : Packet) (mine : list Z) (q q' : Packet) : Prop :=
  if pkt_hasData q then
    ∃ data data', getPtr q = Ok data ∧ q' = q <| pkt_data := Some data' |> ∧ length data' = length data ∧
      ∀ i, 0 ≤ i < pkt_size q → byte data' i =
        if decide (overlaps_at p (pkt_addr q) (pkt_isSecure q) i) then byte mine (pkt_addr q + i - pkt_addr p) else byte data i
  else q' = q.

Lemma checkFunctional_list_write p mine l :
  functional_req p mine → pkt_isRead p = false → pkt_isWrite p = true → Forall in_flight l →
  ∃ l', checkFunctional_list p l = Ok (p, l', false) ∧ Forall2 (rewritten p mine) l l'.
Proof.
  intros R Hr Hw. induction 1 as [|q l [Wq Hd] _ (l' & E & F)]; [by exists []|]. cbn [checkFunctional_list]. unfold checkFunctional_pkt.
  rewrite (getAddr_wf _ Wq), (isSecure_wf _ Wq), (getSize_wf _ Wq). destruct (pkt_hasData q) eqn:Hh.
  - destruct (Hd eq_refl) as (data & Ep & V). rewrite Ep. cbn [mbind result_bind].
    destruct (functional_write_spec p (pkt_addr q) (pkt_isSecure q) (pkt_size q) data mine R V Hr Hw) as (data' & -> & L & S). cbn [mbind result_bind].
    rewrite E. cbn [mbind result_bind]. eexists. split; [reflexivity|]. constructor; [|done]. unfold rewritten. rewrite Hh. eauto 10.
  - cbn [mbind result_bind].
    assert (Hn : checkFunctional p (pkt_addr q) (pkt_isSecure q) (pkt_size q) None = Ok (p, None, false)).
    { unfold checkFunctional. rewrite (getAddr_wf _ (fr_wf _ _ R)), (getSize_wf _ (fr_wf _ _ R)). cbn [mbind result_bind]. repeat case_match; done. }
    rewrite Hn. cbn [mbind result_bind]. rewrite E. cbn [mbind result_bind]. eexists. split; [reflexivity|]. constructor; [|done]. unfold rewritten. by rewrite Hh.
Qed.

(** The bytes of the request that a partial read takes from the value: the code
    leaves out the last byte of an overlap that ends or begins inside the
    request. *)
Definition found_range (p : Packet) (addr size : Z) : Z * Z :=
  if decide (addr < pkt_addr p) then (0, addr + size - 1 - pkt_addr p)
  else if decide (pkt_addr p + pkt_size p < addr + size) then (addr - pkt_addr p, pkt_size p - 1)
  else (addr - pkt_addr p, addr - pkt_addr p + size).

Lemma partial_overlap_spec p addr size mine data :
  functional_req p mine → value_ok addr size data → pkt_addr p < addr + size → addr < pkt_addr p + pkt_size p →
  ¬ (addr ≤ pkt_addr p ∧ pkt_addr p + pkt_size p ≤ addr + size) →
  ∃ fo vo os, partial_overlap (pkt_addr p) (pkt_addr p + pkt_size p - 1) addr (addr + size - 1) size = Ok (fo, vo, os) ∧
    vo - fo = pkt_addr p - addr ∧ (fo, fo + os) = found_range p addr size ∧ 0 ≤ fo ∧ 0 ≤ os ∧ fo + os ≤ pkt_size p ∧
    0 ≤ vo ∧ vo + os ≤ size.
Proof.
  intros R V H1 H2 H3. destruct R, V. unfold partial_overlap, found_range.
  assert (W : ∀ x, - 2 ^ 31 ≤ x < 2 ^ 31 → swrap 32 x = x) by (intros; by apply swrap_small).
  destruct (Z.ltb_spec addr (pkt_addr p)), (Z.leb_spec (addr + size - 1) (pkt_addr p + pkt_size p - 1)),
    (Z.leb_spec (pkt_addr p) addr), (Z.ltb_spec (pkt_addr p + pkt_size p - 1) (addr + size - 1)); try lia; cbn [andb];
    rewrite ?W by lia; do 3 eexists; (split; [reflexivity|]); repeat (case_decide; try lia); (split; [lia|]); (split; [f_equal; lia|]); lia.
Qed.

(** What a partial read has done to the bytes [mine] of the request. *)
Record collected (p : Packet) (addr size : Z) (mine data : list Z) (p' : Packet) (mine' : list Z) : Prop := {
  co_data : pkt_data p' = Some mine' ∧ length mine' = length mine;
  co_window : (0 ≤ pkt_bytesValidStart p') ∧ (pkt_bytesValidStart p' ≤ pkt_bytesValidEnd p') ∧ (pkt_bytesValidEnd p' ≤ pkt_size p);
  co_old : ∀ i, pkt_bytesValidStart p ≤ i < pkt_bytesValidEnd p →
    pkt_bytesValidStart p' ≤ i < pkt_bytesValidEnd p' ∧ byte mine' i = byte mine i;
  co_new : ∀ i, pkt_bytesValidStart p' ≤ i < pkt_bytesValidEnd p' → ¬ (pkt_bytesValidStart p ≤ i < pkt_bytesValidEnd p) →
    addr ≤ pkt_addr p + i < addr + size ∧ byte mine' i = byte data (pkt_addr p + i - addr);
  co_found : ∀ i, (found_range p addr size).1 ≤ i < (found_range p addr size).2 → pkt_bytesValidStart p' ≤ i < pkt_bytesValidEnd p'
}.

Lemma partial_read_spec p addr size data mine :
  functional_req p mine → value_ok addr size data →
  0 ≤ pkt_bytesValidStart p → pkt_bytesValidStart p ≤ pkt_bytesValidEnd p → pkt_bytesValidEnd p ≤ pkt_size p →
  pkt_addr p < addr + size → addr < pkt_addr p + pkt_size p → ¬ (addr ≤ pkt_addr p ∧ pkt_addr p + pkt_size p ≤ addr + size) →
  let r := partial_read p (pkt_addr p) (pkt_addr p + pkt_size p - 1) addr (addr + size - 1) size data in
  (r = Err PanicCalled ∧ gap (pkt_bytesValidStart p) (pkt_bytesValidEnd p) (found_range p addr size).1 (found_range p addr size).2) ∨
  ∃ p' mine', r = Ok (p', (pkt_bytesValidStart p' =? 0) && (pkt_bytesValidEnd p' =? pkt_size p)) ∧ collected p addr size mine data p' mine'.
Proof.
  intros R V W1 W2 W3 H1 H2 H3. destruct (partial_overlap_spec p addr size mine data R V H1 H2 H3) as (fo & vo & os & E & Hsh & Hr & B1 & B2 & B3 & B4 & B5).
  unfold partial_read. rewrite E. cbn [mbind result_bind]. rewrite <-Hr. cbn [fst snd].
  destruct (extend_window_spec (pkt_bytesValidStart p) (pkt_bytesValidEnd p) fo os vo (pkt_size p)) as [(-> & Hg)|(s' & e' & copies & -> & W)];
    [done..|apply R|done|done|done| |]; [by left|right]. destruct W as [Wr Wo Wn Wc Wk Wv]. cbn [mbind result_bind].
  rewrite (getSize_wf _ (fr_wf _ _ R)). cbn [mbind result_bind]. rewrite (proj2 (Z.leb_le e' (pkt_size p))) by lia.
  rewrite (getPtr_data _ _ R). cbn [mbind result_bind assertb].
  destruct (copies_spec data (vo - fo) fo (fo + os) copies mine) as (l & -> & L & S);
    [done|rewrite (fr_length _ _ R); lia|lia|rewrite (vo_length _ _ _ V); lia|done|]. cbn [mbind result_bind].
  exists (p <| pkt_bytesValidStart := s' |> <| pkt_bytesValidEnd := e' |> <| pkt_data := Some l |>), l. split; [reflexivity|]. rewrite (fr_length _ _ R) in S.
  split; cbn; [done|lia| | |]; [intros i Hi; split; [by apply Wo|]; rewrite S by lia; by rewrite (Wk i Hi)| |by rewrite <-Hr].
  intros i Hi Hn. destruct (Wv i Hi Hn) as [Hf Hc]. split; [lia|]. rewrite S, Hc by lia. f_equal. lia.
Qed.

(** A value that contains the request. *)
Lemma checkFunctional_contained p addr size data mine :
  functional_req p mine → value_ok addr size data → pkt_isRead p = true → addr ≤ pkt_addr p → pkt_addr p + pkt_size p ≤ addr + size →
  ∃ mine', checkFunctional p addr (pkt_isSecure p) size (Some data) = Ok (p <| pkt_data := Some mine' |>, Some data, true) ∧
    length mine' = length mine ∧ ∀ i, 0 ≤ i < pkt_size p → byte mine' i = byte data (pkt_addr p + i - addr).
Proof.
  intros R V Hr H1 H2. unfold checkFunctional. rewrite (getAddr_wf _ (fr_wf _ _ R)), (getSize_wf _ (fr_wf _ _ R)). cbn [mbind result_bind].
  rewrite (functional_end _ _ R), (value_end _ _ _ V), (fr_print _ _ R), Hr, eqb_reflx. pose proof (fr_size _ _ R).
  rewrite !(proj2 (Z.ltb_ge _ _)), !(proj2 (Z.leb_le _ _)) by lia. cbn [negb orb andb].
  unfold Packet_allocate. rewrite (fr_data _ _ R), (fr_flags _ _ R). cbn [mbind result_bind assertb]. rewrite (getPtr_data _ _ R). cbn [mbind result_bind].
  destruct R, V. rewrite (swrap_small 32) by (change (2 ^ (32 - 1)) with (2 ^ 31); lia).
  destruct (memcpy_spec mine 0 data (pkt_addr p - addr) (pkt_size p)) as (l & -> & L & S); [lia..|]. cbn [mbind result_bind].
  exists l. split; [done|]. split; [done|]. intros i Hi. rewrite S, decide_True by lia. f_equal. lia.
Qed.

(** A functional read against a value.  A value that contains the request
    satisfies it with the bytes at its address; otherwise bytes found earlier are
    kept, bytes that become valid come from the value, and the request is done
    exactly when all its bytes are valid; it fails only on bytes that leave a gap
    to those it has. *)
Theorem functional_read_spec p addr sec size data mine :
  functional_req p mine → value_ok addr size data → pkt_isRead p = true →
  0 ≤ pkt_bytesValidStart p → pkt_bytesValidStart p ≤ pkt_bytesValidEnd p → pkt_bytesValidEnd p ≤ pkt_size p →
  let r := checkFunctional p addr sec size (Some data) in
  ((∀ i, 0 ≤ i < size → ¬ overlaps_at p addr sec i) ∧ r = Ok (p, Some data, false)) ∨
  (sec = pkt_isSecure p ∧ addr ≤ pkt_addr p ∧ pkt_addr p + pkt_size p ≤ addr + size ∧
   ∃ mine', r = Ok (p <| pkt_data := Some mine' |>, Some data, true) ∧
     ∀ i, 0 ≤ i < pkt_size p → byte mine' i = byte data (pkt_addr p + i - addr)) ∨
  (r = Err PanicCalled ∧ gap (pkt_bytesValidStart p) (pkt_bytesValidEnd p) (found_range p addr size).1 (found_range p addr size).2) ∨
  (∃ p' mine', r = Ok (p', Some data, (pkt_bytesValidStart p' =? 0) && (pkt_bytesValidEnd p' =? pkt_size p)) ∧
     collected p addr size mine data p' mine').
Proof.
  intros R V Hr W1 W2 W3 r. subst r.
  destruct (decide (sec = pkt_isSecure p ∧ addr ≤ pkt_addr p ∧ pkt_addr p + pkt_size p ≤ addr + size)) as [(-> & Hc1 & Hc2)|Hc].
  { right. left. destruct (checkFunctional_contained p addr size data mine R V Hr Hc1 Hc2) as (mine' & E & _ & S). eauto 10. }
  unfold checkFunctional. rewrite (getAddr_wf _ (fr_wf _ _ R)), (getSize_wf _ (fr_wf _ _ R)). cbn [mbind result_bind].
  rewrite (functional_end _ _ R), (value_end _ _ _ V), (fr_print _ _ R), Hr.
  destruct (negb _ || _ || _) eqn:Hx; [left; split; [by apply (no_intersection _ _ _ _ _ _ R V)|done]|right; right].
  rewrite !orb_false_iff, negb_false_iff, !Z.ltb_ge in Hx. destruct Hx as [[->%eqb_prop Hx1] Hx2].
  destruct (_ && _) eqn:Hy; [rewrite andb_true_iff, !Z.leb_le in Hy; destruct Hc; split; [done|lia]|].
  rewrite andb_false_iff, !Z.leb_gt in Hy. destruct (partial_read_spec p addr size data mine R V W1 W2 W3) as [(-> & Hg)|(p' & mine' & -> & C)];
    [lia..|by left|right]. cbn [mbind result_bind]. by exists p', mine'.
Qed.

(** ** Examples *)

Definition demo_func (cmd : MemCmd) (a : Z) (data : list Z) : Packet :=
  (flag_set (Packet_make ((Request_phys a (Z.of_nat (length data)) 0 1) <| req_qosTag := 0 |>) cmd) STATIC_DATA) <| pkt_data := Some data |>.
Lemma demo_func_req cmd a data :
  0 ≤ a → 0 < Z.of_nat (length data) < 2 ^ 16 → a + Z.of_nat (length data) ≤ 2 ^ 64 → testCmdAttrib cmd IsPrint = false →
  functional_req (demo_func cmd a data) data.
Proof. intros. split; try done. Qed.

Lemma functional_write_spec_witness :
  ∃ data', checkFunctional (demo_func WriteReq 0x1006 [7; 8; 9; 10]) 0x1000 false 8 (Some [0; 1; 2; 3; 4; 5; 6; 7]) =
      Ok (demo_func WriteReq 0x1006 [7; 8; 9; 10], Some data', false) ∧ byte data' 5 = 5 ∧ byte data' 6 = 7.
Proof.
  destruct (functional_write_spec (demo_func WriteReq 0x1006 [7; 8; 9; 10]) 0x1000 false 8 [0; 1; 2; 3; 4; 5; 6; 7] [7; 8; 9; 10])
    as (d & E & _ & S); [apply demo_func_req; (done || cbn; lia)|split; (done || cbn; lia)|done|done|].
  exists d. split; [exact E|]. rewrite !S by lia. split; reflexivity.
Defined.

Lemma functional_read_spec_witness :
  ∃ mine', checkFunctional (demo_func ReadReq 0x1002 [0; 0]) 0x1000 false 8 (Some [0; 1; 2; 3; 4; 5; 6; 7]) =
      Ok ((demo_func ReadReq 0x1002 [0; 0]) <| pkt_data := Some mine' |>, Some [0; 1; 2; 3; 4; 5; 6; 7], true) ∧
    byte mine' 0 = 2 ∧ byte mine' 1 = 3.
Proof.
  destruct (functional_read_spec (demo_func ReadReq 0x1002 [0; 0]) 0x1000 false 8 [0; 1; 2; 3; 4; 5; 6; 7] [0; 0])
    as [(H & _)|[(_ & _ & _ & l & E & S)|[(_ & [[[]|[]] _])|(p' & l & E & C)]]];
    [apply demo_func_req; (done || cbn; lia)|split; (done || cbn; lia)|done|done|done|done| | |done|done|].
  - destruct (H 2); [lia|]. split; [done|cbn; lia].
  - exists l. split; [exact E|]. rewrite !S by (cbn; lia). split; reflexivity.
  - exfalso. vm_compute in E. destruct C as [_ _ _ _ C]. destruct (C 0); [vm_compute; split; done|]. injection E as E1 E2. subst p'. done.
Defined.

(** A read of eight bytes whose halves are in two packets in flight, each of
    which reaches over the other end of the request: the first overlap is taken
    one byte short and the second is refused as discontiguous. *)
Lemma adjacent_pieces_panic :
  checkFunctional_list (demo_func ReadReq 0x1004 [0; 0; 0; 0; 0; 0; 0; 0])
    [demo_func WriteReq 0x1000 [0; 1; 2; 3; 4; 5; 6; 7]; demo_func WriteReq 0x1008 [8; 9; 10; 11; 12; 13; 14; 15]] = Err PanicCalled.
Proof. vm_compute. reflexivity. Qed.

(** A value that contains the request overwrites the bytes that were found
    before it. *)
Lemma whole_value_overwrites :
  (λ '(p, _, found), (pkt_data p, found)) <$>
    checkFunctional_list (demo_func ReadReq 0x1000 [0; 0; 0; 0]) [demo_func WriteReq 0x1000 [9; 9]; demo_func WriteReq 0x1000 [1; 2; 3; 4]] =
  Ok (Some [1; 2; 3; 4], true).
Proof. vm_compute. reflexivity. Qed.

(** The domain of the packets in flight is not compared: a read of domain 1 is
    answered from a write of domain 0. *)
Lemma in_flight_crosses_domains :
  (λ '(p, _, found), (pkt_qosTag p, pkt_data p, found)) <$>
    checkFunctional_list (setQosTag (demo_func ReadReq 0x1000 [0; 0]) 1) [demo_func WriteReq 0x1000 [9; 9]] = Ok (1, Some [9; 9], true).
Proof. vm_compute. reflexivity. Qed.
