(* ===== verification/PacketQueue.v ===== *)
(** * The packet queue of a port

    [src/gem5-pard/src/mem/packet_queue.cc] and [.hh]: packets wait in the order
    of the ticks at which they may leave, one event is scheduled for the first of
    them, and after a refusal the queue waits for the peer's retry instead.  The
    answer of the peer and the packets that are queued while it is asked are
    arguments of the sending operations. *)

From S2P Require Import Prelude BaseLib Packet Functional.
Local Open Scope Z_scope.

(** ** Operations *)

Record DeferredPacket : Type := mkDeferred { dp_tick : Z; dp_pkt : Packet; dp_sendAsSnoop : bool }.

(** [pq_drainManager] says whether a drain manager waits; [pq_signalled] counts
    its notifications. *)
Record PacketQueue : Type := mkPacketQueue {
  pq_transmitList : list DeferredPacket;
  pq_sendEvent : option Z;
  pq_waitingOnRetry : bool;
  pq_drainManager : bool;
  pq_signalled : Z
}.
#[export] Instance eta_PacketQueue : Eta PacketQueue := λ q,
  mkPacketQueue (pq_transmitList q) (pq_sendEvent q) (pq_waitingOnRetry q) (pq_drainManager q) (pq_signalled q).

Definition PacketQueue_make : PacketQueue := mkPacketQueue [] None false false 0.


Definition deferredPacketReady (q : PacketQueue) (curTick : Z) : bool :=
  match pq_transmitList q with [] => false | d :: _ => dp_tick d <=? curTick end.
Definition deferredPacketReadyTime (q : PacketQueue) : Z :=
  match pq_transmitList q with [] => MaxTick | d :: _ => dp_tick d end.

(** [em.schedule] and [em.reschedule] of the send event: no event is put into
    the past. *)
Definition set_sendEvent (curTick : Z) (q : PacketQueue) (when : Z) : result PacketQueue :=
  assertb (curTick <=? when) ;; Ok (q <| pq_sendEvent := Some when |>).

Definition schedSendEvent (curTick : Z) (q : PacketQueue) (when : Z) : result PacketQueue :=
  if pq_waitingOnRetry q then assertb (bool_decide (pq_sendEvent q = None)) ;; Ok q
  else
    match pq_sendEvent q with
    | None => set_sendEvent curTick q when
    | Some t => if when <? t then set_sendEvent curTick q when else Ok q
    end.

(** The insertion loop: before the first packet that leaves later. *)
Fixpoint insert_deferred (l : list DeferredPacket) (d : DeferredPacket) : list DeferredPacket :=
  match l with
  | [] => [d]
  | x :: l' => if dp_tick x <=? dp_tick d then x :: insert_deferred l' d else d :: x :: l'
  end.

Definition schedSendTiming (curTick : Z) (q : PacketQueue) (p : Packet) (when : Z) (send_as_snoop : bool) : result PacketQueue :=
  assertb (curTick <=? when) ;;
  assertb (negb (isExpressSnoop p)) ;;
  panic_if (100 <? Z.of_nat (length (pq_transmitList q))) ;;
  let d := mkDeferred when p send_as_snoop in
  match pq_transmitList q with
  | [] => schedSendEvent curTick (q <| pq_transmitList := [d] |>) when
  | x :: l =>
      if when <? dp_tick x then schedSendEvent curTick (q <| pq_transmitList := d :: x :: l |>) when
      else if dp_tick (default x (last (x :: l))) <=? when then Ok (q <| pq_transmitList := (x :: l) ++ [d] |>)
      else Ok (q <| pq_transmitList := x :: insert_deferred l d |>)
  end.

(** [trySendTiming]: [queued] are the packets that [sendTiming] leads the owner to
    queue before the peer answers; the packet that was offered is returned. *)
Definition trySendTiming (curTick : Z) (q : PacketQueue) (queued : list (Packet * Z * bool)) (accepted : bool)
  : result (PacketQueue * DeferredPacket) :=
  assertb (deferredPacketReady q curTick) ;;
  match pq_transmitList q with
  | [] => Err AssertFail
  | dp :: l =>
      q ← foldM (λ q '(p, when, snoop), schedSendTiming curTick q p when snoop) (q <| pq_transmitList := l |>) queued;
      let q := q <| pq_waitingOnRetry := negb accepted |> in
      if accepted then Ok (q, dp)
      else
        assertb (bool_decide (pq_sendEvent q = None)) ;;
        Ok (q <| pq_transmitList := dp :: pq_transmitList q |>, dp)
  end.

Definition scheduleSend (curTick : Z) (q : PacketQueue) (time : Z) : result PacketQueue :=
  let nextReady := Z.min (deferredPacketReadyTime q) time in
  if negb (nextReady =? MaxTick) then
    match pq_sendEvent q with
    | None => set_sendEvent curTick q (Z.max nextReady (wrap 64 (curTick + 1)))
    | Some _ => Ok q
    end
  else if pq_drainManager q && bool_decide (pq_transmitList q = []) && bool_decide (pq_sendEvent q = None)
  then Ok (q <| pq_signalled := pq_signalled q + 1 |> <| pq_drainManager := false |>)
  else Ok q.

Definition pq_sendDeferredPacket (curTick : Z) (q : PacketQueue) (queued : list (Packet * Z * bool)) (accepted : bool)
  : result (PacketQueue * DeferredPacket) :=
  '(q, dp) ← trySendTiming curTick q queued accepted;
  q ← (if negb (pq_waitingOnRetry q) then scheduleSend curTick q MaxTick else Ok q);
  Ok (q, dp).

(** The event fires, and the peer's retry. *)
Definition processSendEvent (q : PacketQueue) (queued : list (Packet * Z * bool)) (accepted : bool)
  : result (PacketQueue * DeferredPacket) :=
  match pq_sendEvent q with
  | None => Err AssertFail
  | Some now =>
      assertb (negb (pq_waitingOnRetry q)) ;;
      pq_sendDeferredPacket now (q <| pq_sendEvent := None |>) queued accepted
  end.
Definition pq_retry (curTick : Z) (q : PacketQueue) (queued : list (Packet * Z * bool)) (accepted : bool)
  : result (PacketQueue * DeferredPacket) :=
  assertb (pq_waitingOnRetry q) ;; pq_sendDeferredPacket curTick q queued accepted.

Definition pq_drain (q : PacketQueue) : PacketQueue * Z :=
  if bool_decide (pq_transmitList q = []) && bool_decide (pq_sendEvent q = None) then (q, 0)
  else (q <| pq_drainManager := true |>, 1).

(** [checkFunctional]: the request and the queue, whose packets it may update. *)
Definition pq_checkFunctional (q : PacketQueue) (p : Packet) : result (PacketQueue * Packet * bool) :=
  '(p, l, found) ← checkFunctional_list p (dp_pkt <$> pq_transmitList q);
  Ok (q <| pq_transmitList := zip_with (λ d p, mkDeferred (dp_tick d) p (dp_sendAsSnoop d)) (pq_transmitList q) l |>, p, found).

(** ** The transmit list *)

(** Packets in the order in which they leave. *)
Definition leaves_before (a b : DeferredPacket) : Prop := dp_tick a ≤ dp_tick b.
#[export] Instance leaves_before_trans : Transitive leaves_before.
Proof. unfold leaves_before. intros ???; lia. Qed.

Lemma schedSendEvent_frame now q when q' :
  schedSendEvent now q when = Ok q' → pq_transmitList q' = pq_transmitList q ∧ pq_waitingOnRetry q' = pq_waitingOnRetry q.
Proof.
  unfold schedSendEvent, set_sendEvent. intros H. destruct (pq_waitingOnRetry q) eqn:Hw; inv_ok; [done|].
  destruct (pq_sendEvent q) as [t|]; [|by inv_ok]. destruct (when <? t); by inv_ok.
Qed.

(** The list without the case distinctions of the code. *)
Lemma schedSendTiming_list now q p when snoop q' :
  StronglySorted leaves_before (pq_transmitList q) → schedSendTiming now q p when snoop = Ok q' →
  pq_transmitList q' = insert_deferred (pq_transmitList q) (mkDeferred when p snoop).
Proof.
  unfold schedSendTiming. intros Hs H. inv_ok. destruct (pq_transmitList q) as [|x l] eqn:El.
  - by apply schedSendEvent_frame in H as [-> _].
  - cbn [insert_deferred dp_tick]. destruct (Z.ltb_spec when (dp_tick x)).
    { destruct (Z.leb_spec (dp_tick x) when); [lia|]. by apply schedSendEvent_frame in H as [-> _]. }
    destruct (Z.leb_spec (dp_tick x) when); [|lia]. destruct (Z.leb_spec (dp_tick (default x (last (x :: l)))) when) as [Hb|Hb]; inv_ok; [|done].
    cbn. f_equal. clear -Hs Hb. assert (Hl : Forall (λ y, dp_tick y ≤ when) l).
    { apply Forall_forall. intros y Hy. destruct (exists_last (l := x :: l)) as (l1 & b & E); [done|]. rewrite E, last_snoc in Hb. cbn in Hb.
      assert (Hy' : y ∈ l1 ++ [b]) by (rewrite <-E; by right). rewrite elem_of_app, list_elem_of_singleton in Hy'. destruct Hy' as [Hy'| ->]; [|done].
      rewrite E in Hs. apply StronglySorted_app in Hs as (Hs & _ & _). specialize (Hs y b Hy' ltac:(by left)). unfold leaves_before in Hs. lia. }
    clear Hs Hb. induction Hl as [|y l Hy Hl IH]; [done|]. cbn. destruct (Z.leb_spec (dp_tick y) when); [|lia]. by f_equal.
Qed.

(** A packet goes behind those that leave no later and before those that leave
    later. *)
Lemma insert_deferred_split l d :
  ∃ l1 l2, l = l1 ++ l2 ∧ insert_deferred l d = l1 ++ d :: l2 ∧ Forall (λ x, leaves_before x d) l1 ∧
    (StronglySorted leaves_before l → Forall (λ x, dp_tick d < dp_tick x) l2).
Proof.
  induction l as [|x l (l1 & l2 & -> & E & H1 & H2)]; [by exists [], []|]. cbn. destruct (Z.leb_spec (dp_tick x) (dp_tick d)).
  - exists (x :: l1), l2. rewrite E. split_and!; [done..|by constructor|]. intros Hs. apply H2. by apply StronglySorted_inv in Hs as [? _].
  - exists [], (x :: l1 ++ l2). split_and!; [done..|]. intros Hs. apply StronglySorted_inv in Hs as [_ Hx]. constructor; [lia|].
    eapply Forall_impl; [exact Hx|]. unfold leaves_before. cbn. lia.
Qed.

Lemma insert_deferred_sorted l d : StronglySorted leaves_before l → StronglySorted leaves_before (insert_deferred l d).
Proof.
  intros Hs. destruct (insert_deferred_split l d) as (l1 & l2 & -> & -> & H1 & H2). specialize (H2 Hs).
  apply StronglySorted_app in Hs as (H12 & Hs1 & Hs2). apply StronglySorted_app_2; [|done|].
  - intros x y Hx [->|Hy]%elem_of_cons; [by apply (Forall_forall _ l1) with x in H1|by apply H12].
  - constructor; [done|]. eapply Forall_impl; [exact H2|]. unfold leaves_before. cbn. lia.
Qed.

(** ** Invariant *)

(** A packet that may be queued at tick [now]. *)
Definition entry_ok (now : Z) (e : Packet * Z * bool) : Prop :=
  let '(p, when, _) := e in isExpressSnoop p = false ∧ now ≤ when < MaxTick.
Definition entry (e : Packet * Z * bool) : DeferredPacket := let '(p, when, snoop) := e in mkDeferred when p snoop.

(** The queue while a packet is offered: the event, if there is one, is for the
    first packet. *)
Record mid_inv (now : Z) (q : PacketQueue) : Prop := {
  mi_sorted : StronglySorted leaves_before (pq_transmitList q);
  mi_ticks : Forall (λ d, dp_tick d < MaxTick) (pq_transmitList q);
  mi_waiting : pq_waitingOnRetry q = true → pq_sendEvent q = None;
  mi_event : ∀ t, pq_sendEvent q = Some t →
    ∃ d l, pq_transmitList q = d :: l ∧ (dp_tick d ≤ t) ∧ (t ≤ Z.max (dp_tick d) (now + 1))
}.
Record pq_inv (now : Z) (q : PacketQueue) : Prop := {
  pi_mid : mid_inv now q;
  pi_scheduled : pq_waitingOnRetry q = false → pq_transmitList q ≠ [] → pq_sendEvent q ≠ None;
  pi_ready : pq_waitingOnRetry q = true → ∃ d l, pq_transmitList q = d :: l ∧ dp_tick d ≤ now
}.

(** The event of the queue after a packet was put in front. *)
Lemma front_event now q d l :
  mid_inv now q → pq_transmitList q = l → (∀ x l', l = x :: l' → dp_tick d < dp_tick x) → now ≤ dp_tick d < MaxTick →
  ∃ q', schedSendEvent now (q <| pq_transmitList := d :: l |>) (dp_tick d) = Ok q' ∧ mid_inv now q' ∧
    (pq_waitingOnRetry q' = false → pq_sendEvent q' ≠ None).
Proof.
  intros [M1 M2 M3 M4] <- Hd Ht. unfold schedSendEvent, set_sendEvent. rewrite (proj2 (Z.leb_le now _)) by lia. cbn.
  assert (S1 : StronglySorted leaves_before (d :: pq_transmitList q)).
  { constructor; [done|]. destruct (pq_transmitList q) as [|x l]; [constructor|]. specialize (Hd x l eq_refl).
    apply StronglySorted_inv in M1 as [_ Hx]. constructor; [unfold leaves_before; lia|]. eapply Forall_impl; [exact Hx|]. unfold leaves_before. cbn. lia. }
  assert (S2 : Forall (λ d, dp_tick d < MaxTick) (d :: pq_transmitList q)) by (constructor; [lia|done]).
  destruct (pq_waitingOnRetry q) eqn:Hw.
  - rewrite (M3 eq_refl). cbn. eexists. split; [reflexivity|]. split; [|done]. split; cbn; done.
  - destruct (pq_sendEvent q) as [t|] eqn:Es.
    + destruct (M4 t eq_refl) as (x & l & El & B1 & B2). specialize (Hd x l El). rewrite (proj2 (Z.ltb_lt _ _)) by lia.
      eexists. split; [reflexivity|]. split; [|done]. split; cbn; [done..|]. intros ? [= <-]. exists d, (pq_transmitList q). split; [done|lia].
    + eexists. split; [reflexivity|]. split; [|done]. split; cbn; [done..|]. intros ? [= <-]. exists d, (pq_transmitList q). split; [done|lia].
Qed.

Lemma schedSendTiming_mid now q e :
  mid_inv now q → entry_ok now e → Z.of_nat (length (pq_transmitList q)) ≤ 100 →
  ∃ q', schedSendTiming now q e.1.1 e.1.2 e.2 = Ok q' ∧ mid_inv now q' ∧ pq_transmitList q' = insert_deferred (pq_transmitList q) (entry e) ∧
    pq_waitingOnRetry q' = pq_waitingOnRetry q ∧
    (pq_waitingOnRetry q = false → (pq_transmitList q ≠ [] → pq_sendEvent q ≠ None) → pq_sendEvent q' ≠ None).
Proof.
  destruct e as [[p when] snoop]. intros M [He Hw] Hl. cbn [fst snd entry].
  cut (∃ q', schedSendTiming now q p when snoop = Ok q' ∧ mid_inv now q' ∧
         (pq_waitingOnRetry q' = false → (pq_transmitList q ≠ [] → pq_sendEvent q ≠ None) → pq_sendEvent q' ≠ None) ∧ pq_waitingOnRetry q' = pq_waitingOnRetry q).
  { intros (q' & E & M' & Hs & Hq). exists q'. split; [done|]. split; [done|]. split; [by eapply schedSendTiming_list; [apply M|]|]. by rewrite <-Hq. }
  unfold schedSendTiming. rewrite (proj2 (Z.leb_le _ _)), He by lia. cbn [negb assertb mbind result_bind].
  rewrite (proj2 (Z.ltb_ge 100 _)) by lia. cbn [panic_if mbind result_bind].
  assert (F : ∀ l, pq_transmitList q = l → (∀ x l', l = x :: l' → when < dp_tick x) →
    ∃ q', schedSendEvent now (q <| pq_transmitList := mkDeferred when p snoop :: l |>) when = Ok q' ∧ mid_inv now q' ∧
      (pq_waitingOnRetry q' = false → (pq_transmitList q ≠ [] → pq_sendEvent q ≠ None) → pq_sendEvent q' ≠ None) ∧ pq_waitingOnRetry q' = pq_waitingOnRetry q).
  { intros l El Hx. destruct (front_event now q (mkDeferred when p snoop) l M El Hx ltac:(cbn; lia)) as (q' & E & M' & Hs).
    exists q'. split; [exact E|]. split; [done|]. split; [auto|]. by apply schedSendEvent_frame in E as [_ ->]. }
  destruct (pq_transmitList q) as [|x l] eqn:El; [by apply F|].
  destruct (Z.ltb_spec when (dp_tick x)); [apply F; [done|by intros ?? [= <- <-]]|]. clear F.
  assert (K : ∀ l', insert_deferred (x :: l) (mkDeferred when p snoop) = x :: l' → mid_inv now (q <| pq_transmitList := x :: l' |>)).
  { intros l' E. destruct M as [M1 M2 M3 M4]. rewrite El in *. split; cbn; [rewrite <-E; by apply insert_deferred_sorted| |done|].
    - rewrite <-E. destruct (insert_deferred_split (x :: l) (mkDeferred when p snoop)) as (l1 & l2 & E1 & -> & _). rewrite E1 in M2.
      rewrite Forall_app, Forall_cons in *. cbn. naive_solver lia.
    - intros t Et. destruct (M4 t Et) as (? & ? & [= <- <-] & ?). by exists x, l'. }
  assert (E0 : insert_deferred (x :: l) (mkDeferred when p snoop) = x :: insert_deferred l (mkDeferred when p snoop)).
  { cbn [insert_deferred dp_tick]. by rewrite (proj2 (Z.leb_le _ _)) by lia. }
  destruct (dp_tick (default x (last (x :: l))) <=? when) eqn:Hb.
  - eexists. split; [reflexivity|]. split; [|split; [cbn; auto|done]]. apply K.
    assert (E : schedSendTiming now q p when snoop = Ok (q <| pq_transmitList := (x :: l) ++ [mkDeferred when p snoop] |>)).
    { unfold schedSendTiming. rewrite (proj2 (Z.leb_le _ _)), He by lia. cbn [negb assertb mbind result_bind]. rewrite El.
      rewrite (proj2 (Z.ltb_ge 100 _)) by lia. cbn [panic_if mbind result_bind]. rewrite (proj2 (Z.ltb_ge when _)) by lia. by rewrite Hb. }
    apply schedSendTiming_list in E; [|apply M]. rewrite El in E. by rewrite <-E.
  - eexists. split; [reflexivity|]. split; [by apply K|]. split; [cbn; auto|done].
Qed.

Definition queue_all (now : Z) (q : PacketQueue) (es : list (Packet * Z * bool)) : result PacketQueue :=
  foldM (λ q '(p, when, snoop), schedSendTiming now q p when snoop) q es.

Lemma insert_deferred_perm l d : insert_deferred l d ≡ₚ d :: l.
Proof. destruct (insert_deferred_split l d) as (l1 & l2 & -> & -> & _). by rewrite Permutation_middle. Qed.

Lemma queue_all_mid now es q :
  mid_inv now q → Forall (entry_ok now) es → Z.of_nat (length (pq_transmitList q) + length es) ≤ 101 →
  ∃ q', queue_all now q es = Ok q' ∧ mid_inv now q' ∧ pq_transmitList q' ≡ₚ (entry <$> es) ++ pq_transmitList q ∧
    pq_waitingOnRetry q' = pq_waitingOnRetry q ∧
    (pq_waitingOnRetry q = false → (pq_transmitList q ≠ [] → pq_sendEvent q ≠ None) → pq_transmitList q' ≠ [] → pq_sendEvent q' ≠ None).
Proof.
  revert q. induction es as [|e es IH]; intros q M He Hl; [by exists q|]. apply Forall_cons in He as [He Hes]. cbn [length] in Hl.
  destruct (schedSendTiming_mid now q e M He ltac:(lia)) as (q1 & E1 & M1 & L1 & W1 & S1).
  assert (P1 : pq_transmitList q1 ≡ₚ entry e :: pq_transmitList q) by (rewrite L1; apply insert_deferred_perm).
  destruct (IH q1 M1 Hes) as (q' & E & M' & L & W & S); [rewrite P1; cbn [length]; lia|].
  exists q'. unfold queue_all. cbn [foldM]. destruct e as [[p when] snoop]. cbn [fst snd] in E1. rewrite E1. cbn [mbind result_bind].
  split; [exact E|]. split; [done|]. split; [|split; [congruence|]].
  - rewrite L, P1, fmap_cons. cbn. by rewrite Permutation_middle.
  - intros Hw Hs _. apply S; [congruence|by auto|]. destruct (pq_transmitList q'); [|done]. rewrite P1 in L. apply Permutation_nil_l in L. by destruct (entry <$> es).
Qed.

Lemma mid_mono now now' q : now ≤ now' → mid_inv now q → mid_inv now' q.
Proof. intros Hn [M1 M2 M3 M4]. split; [done..|]. intros t Et. destruct (M4 t Et) as (d & l & El & ? & ?). exists d, l. split; [done|lia]. Qed.

Lemma scheduleSend_inv now q :
  mid_inv now q → pq_waitingOnRetry q = false → 0 ≤ now < MaxTick →
  ∃ q', scheduleSend now q MaxTick = Ok q' ∧ pq_inv now q' ∧ pq_transmitList q' = pq_transmitList q.
Proof.
  intros [M1 M2 M3 M4] Hw Hn. unfold scheduleSend, set_sendEvent, deferredPacketReadyTime. rewrite wrap_small by (unfold MaxTick in Hn; split; lia).
  destruct (pq_transmitList q) as [|d l] eqn:El.
  - rewrite Z.min_id, Z.eqb_refl. cbn [negb].
    assert (Es : pq_sendEvent q = None) by (destruct (pq_sendEvent q) as [t|]; [destruct (M4 t eq_refl) as (? & ? & [=] & _)|done]).
    destruct (_ && _); (eexists; split; [reflexivity|split; [|by rewrite <-El]]); (split; [split; cbn; rewrite ?El, ?Es; done| |]); cbn; rewrite ?El, ?Hw; done.
  - apply Forall_cons in M2 as [Hd M2]. rewrite Z.min_l by lia. rewrite (proj2 (Z.eqb_neq _ _)) by lia. cbn [negb].
    rewrite (proj2 (Z.leb_le now _)) by lia.
    destruct (pq_sendEvent q) as [t|] eqn:Es; (eexists; split; [reflexivity|split; [|by rewrite <-El]]).
    + split; [|by rewrite Es|by rewrite Hw]. split; rewrite ?El, ?Es; [done|by constructor|done|]. intros ? [= <-]. by apply M4.
    + split; cbn; [|done|by rewrite Hw]. split; cbn; rewrite ?El; [done|by constructor|by rewrite Hw|]. intros ? [= <-]. exists d, l. split; [done|lia].
Qed.

(** ** Histories *)

Inductive QueueOp : Type :=
| OpSched (p : Packet) (when : Z) (snoop : bool)
| OpFire (queued : list (Packet * Z * bool)) (accepted : bool)
| OpRetry (queued : list (Packet * Z * bool)) (accepted : bool).

(** One operation at tick [now]: the queue, what was queued and what was sent. *)
Definition queue_step (now : Z) (q : PacketQueue) (op : QueueOp) : result (PacketQueue * list DeferredPacket * list DeferredPacket) :=
  match op with
  | OpSched p when snoop => q ← schedSendTiming now q p when snoop; Ok (q, [mkDeferred when p snoop], [])
  | OpFire queued accepted =>
      '(q, dp) ← processSendEvent q queued accepted; Ok (q, entry <$> queued, if accepted then [dp] else [])
  | OpRetry queued accepted =>
      '(q, dp) ← pq_retry now q queued accepted; Ok (q, entry <$> queued, if accepted then [dp] else [])
  end.

(** What the owner and the simulator do: time does not run past the event of the
    queue, the event fires at its tick, a retry answers a refusal, packets are
    queued for the present or the future, within the limit of the queue, and not
    while a peer is about to refuse. *)
Definition op_allowed (now : Z) (q : PacketQueue) (now' : Z) (op : QueueOp) : Prop :=
  0 ≤ now ∧ now ≤ now' ∧ now' < MaxTick ∧ (∀ t, pq_sendEvent q = Some t → now' ≤ t) ∧
  match op with
  | OpSched p when snoop => entry_ok now' (p, when, snoop) ∧ Z.of_nat (length (pq_transmitList q)) ≤ 100
  | OpFire queued accepted =>
      pq_sendEvent q = Some now' ∧ Forall (entry_ok now') queued ∧ Z.of_nat (length (pq_transmitList q) + length queued) ≤ 102 ∧
      (accepted = false → queued = [])
  | OpRetry queued accepted =>
      pq_waitingOnRetry q = true ∧ Forall (entry_ok now') queued ∧ Z.of_nat (length (pq_transmitList q) + length queued) ≤ 102
  end.

(** Offering the first packet. *)
Lemma trySendTiming_spec now q queued accepted d l :
  mid_inv now q → pq_transmitList q = d :: l → dp_tick d ≤ now → pq_sendEvent q = None → 0 ≤ now < MaxTick →
  Forall (entry_ok now) queued → Z.of_nat (length (pq_transmitList q) + length queued) ≤ 102 →
  (pq_waitingOnRetry q = false → accepted = false → queued = []) →
  ∃ q', pq_sendDeferredPacket now q queued accepted = Ok (q', d) ∧ pq_inv now q' ∧
    pq_transmitList q' ≡ₚ (entry <$> queued) ++ if accepted then l else d :: l.
Proof.
  intros M El Hd Es Hn Hq Hl Hr. unfold pq_sendDeferredPacket, trySendTiming, deferredPacketReady. rewrite El.
  rewrite (proj2 (Z.leb_le _ _)) by lia. cbn [assertb mbind result_bind]. rewrite El in Hl. cbn [length] in Hl.
  assert (M0 : mid_inv now (q <| pq_transmitList := l |>)).
  { destruct M as [M1 M2 M3 M4]. rewrite El in *. apply StronglySorted_inv in M1 as [M1 _]. apply Forall_cons in M2 as [_ M2].
    split; cbn; [done..|]. by rewrite Es. }
  destruct (queue_all_mid now queued _ M0 Hq) as (q1 & E1 & M1 & L1 & W1 & _); [cbn; lia|].
  pose proof E1 as E1'. unfold queue_all in E1. rewrite E1. clear E1. cbn [mbind result_bind]. cbn in L1, W1. destruct accepted; cbn [negb].
  - destruct (scheduleSend_inv now (q1 <| pq_waitingOnRetry := false |>)) as (q2 & E2 & I & E); [by destruct M1; split|done|done|].
    cbn [mbind result_bind]. change (pq_waitingOnRetry (q1 <| pq_waitingOnRetry := false |>)) with false. cbn [negb]. rewrite E2. cbn in E |- *. eexists. split; [reflexivity|]. split; [exact I|]. by rewrite E.
  - assert (Es1 : pq_sendEvent q1 = None).
    { destruct (pq_waitingOnRetry q) eqn:Hw; [by apply M1|]. rewrite (Hr eq_refl eq_refl) in *.
      by injection E1' as <-. }
    cbn. rewrite Es1. cbn. eexists. split; [reflexivity|]. split; [|cbn; rewrite L1; by rewrite Permutation_middle].
    assert (Ha : Forall (leaves_before d) (pq_transmitList q1)).
    { rewrite L1. apply Forall_app. split; [|pose proof (mi_sorted _ _ M) as Ms; rewrite El in Ms; by apply StronglySorted_inv in Ms as [_ ?]].
      rewrite Forall_fmap. eapply Forall_impl; [exact Hq|]. intros [[p w] s] [_ Hw]. unfold leaves_before. cbn. lia. }
    split; cbn; [|done|by exists d, (pq_transmitList q1)]. destruct M1 as [A1 A2 A3 A4]. split; cbn; [by constructor| |done|done].
    constructor; [lia|done].
Qed.

Lemma queue_step_inv now q now' op :
  pq_inv now q → op_allowed now q now' op →
  ∃ q' entered sent, queue_step now' q op = Ok (q', entered, sent) ∧ pq_inv now' q' ∧
    pq_transmitList q' ++ sent ≡ₚ entered ++ pq_transmitList q.
Proof.
  intros [M S R] (H0 & H1 & H2 & H3 & Hop). apply (mid_mono _ now') in M; [|done]. destruct op as [p when snoop|queued accepted|queued accepted]; cbn.
  - destruct Hop as [He Hl]. destruct (schedSendTiming_mid now' q (p, when, snoop) M He Hl) as (q' & E & M' & L & W & Hs).
    cbn [fst snd] in E. rewrite E. cbn. do 3 eexists. split; [reflexivity|].
    assert (P : pq_transmitList q' ≡ₚ mkDeferred when p snoop :: pq_transmitList q) by (rewrite L; apply insert_deferred_perm).
    split; [|by rewrite P, app_nil_r]. split; [done|intros Hw _; apply Hs; [congruence|apply S; congruence]|].
    rewrite W. intros Hw. destruct (R Hw) as (d & l & El & Hd). rewrite L, El. cbn. destruct He as [_ He].
    destruct (Z.leb_spec (dp_tick d) when); [|lia]. eexists _, _. split; [done|lia].
  - destruct Hop as (Et & Hq & Hl & Hr). unfold processSendEvent. rewrite Et. destruct (mi_event _ _ M _ Et) as (d & l & El & Hd & _).
    assert (Hw : pq_waitingOnRetry q = false) by (destruct (pq_waitingOnRetry q) eqn:E; [by rewrite (mi_waiting _ _ M E) in Et|done]).
    rewrite Hw. cbn [negb assertb mbind result_bind].
    destruct (trySendTiming_spec now' (q <| pq_sendEvent := None |>) queued accepted d l) as (q' & E & I & P);
      [by destruct M; split|done|done|done|lia|done|done|auto|]. rewrite E. cbn [mbind result_bind]. do 3 eexists. split; [reflexivity|].
    split; [done|]. rewrite El, P. destruct accepted; [|by rewrite app_nil_r]. by rewrite <-app_assoc, <-Permutation_cons_append.
  - destruct Hop as (Hw & Hq & Hl). unfold pq_retry. rewrite Hw. cbn [assertb mbind result_bind]. destruct (R Hw) as (d & l & El & Hd).
    destruct (trySendTiming_spec now' q queued accepted d l) as (q' & E & I & P);
      [done|done|lia|by apply M|lia|done|done|by rewrite Hw|]. rewrite E. cbn [mbind result_bind]. do 3 eexists. split; [reflexivity|].
    split; [done|]. rewrite El, P. destruct accepted; [|by rewrite app_nil_r]. by rewrite <-app_assoc, <-Permutation_cons_append.
Qed.

(** The histories of a queue up to a tick, with what was queued and sent. *)
Inductive queue_history : Z → PacketQueue → list DeferredPacket → list DeferredPacket → Prop :=
| qh_new now : 0 ≤ now → queue_history now PacketQueue_make [] []
| qh_step now q entered sent now' op q' e s :
    queue_history now q entered sent → op_allowed now q now' op → queue_step now' q op = Ok (q', e, s) →
    queue_history now' q' (entered ++ e) (sent ++ s).

Lemma queue_history_inv now q entered sent :
  queue_history now q entered sent → pq_inv now q ∧ pq_transmitList q ++ sent ≡ₚ entered.
Proof.
  induction 1 as [now Hn|now q entered sent now' op q' e s _ [I P] A E].
  - split; [|done]. split; [split|..]; (done || constructor).
  - destruct (queue_step_inv now q now' op I A) as (? & ? & ? & E' & I' & P'). rewrite E in E'. injection E' as <- <- <-.
    split; [done|]. rewrite <-P. rewrite (Permutation_app_comm sent s), app_assoc, P'. rewrite <-app_assoc, (Permutation_app_comm e).
    done.
Qed.

(** C28: the packet queue loses nothing.  Over every history of packets queued,
    sent, refused and retried, each packet that was queued has been sent once or
    still waits, in the order of the ticks; a queue with packets has the first of
    them refused and awaits the retry, or has its event scheduled for the tick of
    that packet or the next tick; and no operation the owner may do fails an
    assertion. *)
Theorem packet_queue_delivers now q entered sent :
  queue_history now q entered sent →
  pq_transmitList q ++ sent ≡ₚ entered ∧ StronglySorted leaves_before (pq_transmitList q) ∧
  (∀ d l, pq_transmitList q = d :: l →
     if pq_waitingOnRetry q then dp_tick d ≤ now
     else ∃ t, pq_sendEvent q = Some t ∧ (dp_tick d ≤ t) ∧ (t ≤ Z.max (dp_tick d) (now + 1))) ∧
  ∀ now' op, op_allowed now q now' op → is_ok (queue_step now' q op).
Proof.
  intros H. apply queue_history_inv in H as [I P]. split; [done|]. split; [apply I|]. split.
  - intros d l El. destruct (pq_waitingOnRetry q) eqn:Hw.
    + destruct (pi_ready _ _ I Hw) as (? & ? & E & ?). rewrite El in E. by injection E as <- <-.
    + destruct (pq_sendEvent q) as [t|] eqn:Et; [|by destruct (pi_scheduled _ _ I Hw); [rewrite El|]].
      destruct (mi_event _ _ (pi_mid _ _ I) t Et) as (? & ? & E & ? & ?). rewrite El in E. injection E as <- <-. by exists t.
  - intros now' op A. destruct (queue_step_inv _ _ _ _ I A) as (? & ? & ? & -> & _). by eexists.
Qed.

(** A packet for tick 5 and one for tick 3; the second leaves at tick 3 and the
    event moves to tick 5. *)
Definition demo_queued (k : Z) : Packet := demo_func ReadResp (0x1000 + k) [k].
Definition demo_queue (n : nat) : PacketQueue :=
  let q2 := mkPacketQueue [mkDeferred 3 (demo_queued 2) false; mkDeferred 5 (demo_queued 1) false] (Some 3) false false 0 in
  match n with
  | 0%nat => PacketQueue_make
  | 1%nat => mkPacketQueue [mkDeferred 5 (demo_queued 1) false] (Some 5) false false 0
  | 2%nat => q2
  | _ => mkPacketQueue [mkDeferred 5 (demo_queued 1) false] (Some 5) false false 0
  end.
Lemma demo_queue_history :
  queue_history 3 (demo_queue 3) [mkDeferred 5 (demo_queued 1) false; mkDeferred 3 (demo_queued 2) false] [mkDeferred 3 (demo_queued 2) false].
Proof.
  apply (qh_step 1 (demo_queue 2) [mkDeferred 5 (demo_queued 1) false; mkDeferred 3 (demo_queued 2) false] [] 3 (OpFire [] true) _ [] [mkDeferred 3 (demo_queued 2) false]).
  - apply (qh_step 0 (demo_queue 1) [mkDeferred 5 (demo_queued 1) false] [] 1 (OpSched (demo_queued 2) 3 false) _ [mkDeferred 3 (demo_queued 2) false] []).
    + apply (qh_step 0 (demo_queue 0) [] [] 0 (OpSched (demo_queued 1) 5 false) _ [mkDeferred 5 (demo_queued 1) false] []); [by constructor| |vm_compute; reflexivity].
      unfold op_allowed, entry_ok, MaxTick. cbn. repeat split; try lia; try done. 
    + unfold op_allowed, entry_ok, MaxTick. cbn. repeat split; try lia; try done. intros ? [= <-]. lia.
    + vm_compute. reflexivity.
  - unfold op_allowed, MaxTick. cbn. repeat split; try lia; try done. intros ? [= <-]. lia.
  - vm_compute. reflexivity.
Qed.
Lemma packet_queue_delivers_witness :
  ∃ t, pq_sendEvent (demo_queue 3) = Some t ∧ (5 ≤ t) ∧ (t ≤ Z.max 5 (3 + 1)).
Proof.
  destruct (packet_queue_delivers _ _ _ _ demo_queue_history) as (_ & _ & H & _). exact (H (mkDeferred 5 (demo_queued 1) false) [] eq_refl).
Defined.
