(* ===== verification/PageWalker.v ===== *)
(** * The page table walker

    [src/gem5-pard/src/arch/x86/pagetable_walker.cc] and [.hh]: the state
    machine that reads the page tables of a thread in each paging mode and
    fills its TLB, in atomic, functional and timing mode.  Packets carry the
    QoS register of the thread, so a walk reads and marks the tables of the
    thread's own domain. *)

From S2P Require Import Prelude BaseLib Trie X86Tlb X86Isa Packet.
Local Open Scope Z_scope.

(** ** Page table entries, virtual addresses, faults *)

Definition PTE_p (pte : Z) : bool := flag pte 0.
Definition PTE_w (pte : Z) : bool := flag pte 1.
Definition PTE_u (pte : Z) : bool := flag pte 2.
Definition PTE_pcd (pte : Z) : bool := flag pte 4.
Definition PTE_a (pte : Z) : bool := flag pte 5.
Definition PTE_ps (pte : Z) : bool := flag pte 7.
Definition PTE_g (pte : Z) : bool := flag pte 8.
Definition PTE_nx (pte : Z) : bool := flag pte 63.

Definition longl1 (va : Z) : Z := bits va 20 12.
Definition longl2 (va : Z) : Z := bits va 29 21.
Definition longl3 (va : Z) : Z := bits va 38 30.
Definition longl4 (va : Z) : Z := bits va 47 39.
Definition pael1 (va : Z) : Z := bits va 20 12.
Definition pael2 (va : Z) : Z := bits va 29 21.
Definition pael3 (va : Z) : Z := bits va 31 30.
Definition norml2 (va : Z) : Z := bits va 31 22.

Inductive Mode : Type := Mode_Read | Mode_Write | Mode_Execute.
#[export] Instance Mode_eq_dec : EqDecision Mode.
Proof. solve_decision. Defined.

(** [PageFault(addr, present, mode, user, reserved)]: address and error code. *)
Record PageFault : Type := mkPageFault { pf_addr : Z; pf_errorCode : Z }.
Definition b2z (b : bool) : Z := if b then 1 else 0.
Definition PageFault_make (addr : Z) (present : bool) (mode : Mode) (user reserved : bool) : PageFault :=
  let code := insertBits 32 0 0 0 (b2z present) in
  let code := insertBits 32 code 1 1 (b2z (bool_decide (mode = Mode_Write))) in
  let code := insertBits 32 code 2 2 (b2z user) in
  let code := insertBits 32 code 3 3 (b2z reserved) in
  mkPageFault addr (insertBits 32 code 4 4 (b2z (bool_decide (mode = Mode_Execute)))).

(** ** State of a walk *)

Inductive WState : Type :=
| Ready | Waiting
| LongPML4 | LongPDP | LongPD | LongPTE
| PAEPDP | PAEPD | PAEPTE
| PSEPD | PD | PTE.
#[export] Instance WState_eq_dec : EqDecision WState.
Proof. solve_decision. Defined.

Record WalkerState : Type := mkWalk {
  ws_state : WState;
  ws_nextState : WState;
  ws_dataSize : Z;
  ws_enableNX : bool;
  ws_inflight : Z;
  ws_entry : TlbEntry;
  ws_read : option Packet;
  ws_writes : list Packet;
  ws_timingFault : option PageFault;
  ws_mode : Mode;
  ws_functional : bool;
  ws_timing : bool;
  ws_retrying : bool;
  ws_started : bool
}.
#[export] Instance eta_WalkerState : Eta WalkerState := λ w,
  mkWalk (ws_state w) (ws_nextState w) (ws_dataSize w) (ws_enableNX w) (ws_inflight w) (ws_entry w) (ws_read w) (ws_writes w)
    (ws_timingFault w) (ws_mode w) (ws_functional w) (ws_timing w) (ws_retrying w) (ws_started w).

(** The constructor; the entry, the read packet and the data size are left
    uninitialised by it: [entry] is what the entry happens to hold. *)
Definition WalkerState_make (entry : TlbEntry) (isFunctional : bool) : WalkerState :=
  mkWalk Ready Ready 0 false 0 entry None [] None Mode_Read isFunctional false false false.

Definition initState (w : WalkerState) (mode : Mode) (isTiming : bool) : result WalkerState :=
  assertb (bool_decide (ws_state w = Ready)) ;;
  Ok (w <| ws_started := false |> <| ws_mode := mode |> <| ws_timing := isTiming |>).

Definition PHYSICAL : Z := 0x200.

(** A read of the walker: [new Request], [new Packet], [allocate]. *)
Definition walk_read (masterId addr size flags : Z) : result Packet :=
  Packet_allocate (Packet_make (Request_phys addr size flags masterId) ReadReq).

Section Walker.

Context (masterId : Z) (tc : ThreadContext).

Definition setupWalk (w : WalkerState) (vaddr : Z) : result WalkerState :=
  cr3 ← readMiscRegNoEffect tc MISCREG_CR3;
  efer ← readMiscRegNoEffect tc MISCREG_EFER;
  cr4 ← readMiscRegNoEffect tc MISCREG_CR4;
  let '(state, dataSize, topAddr, nx) :=
    if Efer_lma efer then (LongPML4, 8, Z.shiftl (bits cr3 51 12) 12 + longl4 vaddr * 8, Efer_nxe efer)
    else if CR4_pae cr4 then (PAEPDP, 8, Z.shiftl (bits cr3 31 5) 5 + pael3 vaddr * 8, Efer_nxe efer)
    else (if CR4_pse cr4 then PSEPD else PD, 4, Z.shiftl (bits cr3 31 12) 12 + norml2 vaddr * 4, false) in
  let flags := if flag cr3 4 then Z.lor PHYSICAL UNCACHEABLE else PHYSICAL in
  read ← walk_read masterId (wrap 64 topAddr) dataSize flags;
  Ok (w <| ws_state := state |> <| ws_nextState := Ready |> <| ws_dataSize := dataSize |> <| ws_enableNX := nx |>
        <| ws_entry := (ws_entry w) <| te_vaddr := vaddr |> |> <| ws_read := Some read |>).

Definition endWalk (w : WalkerState) : WalkerState := w <| ws_nextState := Ready |> <| ws_read := None |>.

(** [pageFault]: it also turns a fetch into a read when NX is off. *)
Definition pageFault (w : WalkerState) (present : bool) : result (WalkerState * PageFault) :=
  m5reg ← readMiscRegNoEffect tc MISCREG_M5_REG;
  let mode := if bool_decide (ws_mode w = Mode_Execute) && negb (ws_enableNX w) then Mode_Read else ws_mode w in
  Ok (w <| ws_mode := mode |>, PageFault_make (te_vaddr (ws_entry w)) present mode (M5_cpl m5reg =? 3) false).

(** What one entry leads to: another table, a page, or a fault. *)
Inductive walk_action : Type :=
| NextTable (nextRead : Z) (nextState : WState)
| MapsPage
| Faults (present : bool).

(** Permissions of the entry: the first table sets them, lower ones restrict. *)
Definition set_perms (e : TlbEntry) (pte : Z) : TlbEntry := e <| te_writable := PTE_w pte |> <| te_user := PTE_u pte |>.
Definition and_perms (e : TlbEntry) (pte : Z) : TlbEntry :=
  e <| te_writable := te_writable e && PTE_w pte |> <| te_user := te_user e && PTE_u pte |>.

(** The page an entry maps: its frame, the bit of its PAT index, its size. *)
Definition map_page (e : TlbEntry) (pte paddr patBit size : Z) : TlbEntry :=
  e <| te_paddr := paddr |> <| te_uncacheable := PTE_pcd pte |> <| te_global := PTE_g pte |>
    <| te_patBit := flag pte patBit |> <| te_vaddr := Z.land (te_vaddr e) (Z.lnot (size - 1)) |>.

Definition table_base (pte width : Z) : Z := Z.land pte (Z.shiftl (mask width) 12).

(** The entry read at each level: the TLB entry so far, whether the accessed
    bit is to be written, and what to do next. *)
Definition level (state : WState) (dataSize : Z) (e : TlbEntry) (pte : Z) (badNX : bool) : result (TlbEntry * bool * walk_action) :=
  let vaddr := te_vaddr e in
  let next base index := wrap 64 (base + index * dataSize) in
  match state with
  | LongPML4 =>
      let e := set_perms e pte in
      if badNX || negb (PTE_p pte) then Ok (e, negb (PTE_a pte), Faults (PTE_p pte))
      else Ok (e <| te_noExec := PTE_nx pte |>, negb (PTE_a pte), NextTable (next (table_base pte 40) (longl3 vaddr)) LongPDP)
  | LongPDP =>
      let e := and_perms e pte in
      if badNX || negb (PTE_p pte) then Ok (e, negb (PTE_a pte), Faults (PTE_p pte))
      else Ok (e, negb (PTE_a pte), NextTable (next (table_base pte 40) (longl2 vaddr)) LongPD)
  | LongPD =>
      let e := and_perms e pte in
      if badNX || negb (PTE_p pte) then Ok (e, negb (PTE_a pte), Faults (PTE_p pte))
      else if negb (PTE_ps pte)
      then Ok (e <| te_logBytes := 12 |>, negb (PTE_a pte), NextTable (next (table_base pte 40) (longl1 vaddr)) LongPTE)
      else Ok (map_page (e <| te_logBytes := 21 |>) pte (Z.land pte (Z.shiftl (mask 31) 21)) 12 (2 * 2 ^ 20), negb (PTE_a pte), MapsPage)
  | LongPTE =>
      let e := and_perms e pte in
      if badNX || negb (PTE_p pte) then Ok (e, negb (PTE_a pte), Faults (PTE_p pte))
      else Ok (map_page e pte (table_base pte 40) 12 (4 * 2 ^ 10), negb (PTE_a pte), MapsPage)
  | PAEPDP =>
      if negb (PTE_p pte) then Ok (e, false, Faults (PTE_p pte))
      else Ok (e, false, NextTable (next (table_base pte 40) (pael2 vaddr)) PAEPD)
  | PAEPD =>
      let e := set_perms e pte in
      if badNX || negb (PTE_p pte) then Ok (e, negb (PTE_a pte), Faults (PTE_p pte))
      else if negb (PTE_ps pte)
      then Ok (e <| te_logBytes := 12 |>, negb (PTE_a pte), NextTable (next (table_base pte 40) (pael1 vaddr)) PAEPTE)
      else Ok (map_page (e <| te_logBytes := 21 |>) pte (Z.land pte (Z.shiftl (mask 31) 21)) 12 (2 * 2 ^ 20), negb (PTE_a pte), MapsPage)
  | PAEPTE =>
      let e := and_perms e pte in
      if badNX || negb (PTE_p pte) then Ok (e, negb (PTE_a pte), Faults (PTE_p pte))
      else Ok (map_page e pte (table_base pte 40) 7 (4 * 2 ^ 10), negb (PTE_a pte), MapsPage)
  | PSEPD =>
      let e := set_perms e pte in
      if negb (PTE_p pte) then Ok (e, negb (PTE_a pte), Faults (PTE_p pte))
      else if negb (PTE_ps pte)
      then Ok (e <| te_logBytes := 12 |>, negb (PTE_a pte), NextTable (next (table_base pte 20) (norml2 vaddr)) PTE)
      else Ok (map_page (e <| te_logBytes := 21 |>) pte
                 (Z.lor (Z.shiftl (bits pte 20 13) 32) (Z.shiftl (bits pte 31 22) 22)) 12 (4 * 2 ^ 20), negb (PTE_a pte), MapsPage)
  | PD =>
      let e := set_perms e pte in
      if negb (PTE_p pte) then Ok (e, negb (PTE_a pte), Faults (PTE_p pte))
      else Ok (e <| te_logBytes := 12 |>, negb (PTE_a pte), NextTable (next (table_base pte 20) (norml2 vaddr)) PTE)
  | PTE =>
      let e := set_perms e pte in
      if negb (PTE_p pte) then Ok (e, negb (PTE_a pte), Faults (PTE_p pte))
      else Ok (map_page e pte (table_base pte 20) 7 (4 * 2 ^ 10), negb (PTE_a pte), MapsPage)
  | Ready | Waiting => Err PanicCalled
  end.

(** The packet that read the entry becomes the write of the accessed bit. *)
Definition accessed_write (read : Packet) (pte : Z) : result Packet :=
  w ← Packet_set 8 read (set_flag pte 5 1);
  Ok (w <| pkt_cmd := WriteReq |> <| pkt_dest := InvalidPortID |>).

(** [stepWalk]: the TLB, the walk, the fault and the write after one entry. *)
Definition stepWalk (tlb : TLB) (w : WalkerState) : result (TLB * WalkerState * option PageFault * option Packet) :=
  assertb (negb (bool_decide (ws_state w = Ready)) && negb (bool_decide (ws_state w = Waiting))) ;;
  read ← (match ws_read w with Some p => Ok p | None => Err NullDeref end);
  pte ← (if ws_dataSize w =? 8 then Packet_get 8 read else Packet_get 4 read);
  let badNX := PTE_nx pte && bool_decide (ws_mode w = Mode_Execute) && ws_enableNX w in
  '(e, doWrite, action) ← level (ws_state w) (ws_dataSize w) (ws_entry w) pte badNX;
  let w := w <| ws_entry := e |> in
  match action with
  | Faults present =>
      '(w, fault) ← pageFault w present;
      Ok (tlb, endWalk w, Some fault, None)
  | MapsPage =>
      tlb ← (if ws_functional w then Ok tlb else '(tlb, _) ← tlb_insert tlb (te_vaddr e) e; Ok tlb);
      Ok (tlb, endWalk w, None, None)
  | NextTable nextRead nextState =>
      size ← getSize read;
      let flags := Z.lor (Z.ldiff (req_flags (pkt_req read)) UNCACHEABLE) (if PTE_pcd pte then UNCACHEABLE else 0) in
      newRead ← walk_read masterId nextRead size flags;
      write ← (if doWrite : bool then wr ← accessed_write read pte; Ok (Some wr) else Ok None);
      Ok (tlb, w <| ws_nextState := nextState |> <| ws_read := Some newRead |>, None, write)
  end.

(** The tag of the packets of the walk. *)
Definition walk_tag : result Z := qr0 ← readMiscRegNoEffect tc MISCREG_QR0; Ok (Z.lor qr0 0xe000000000000000).

(** ** Atomic and functional walks *)

Section Atomic.

Context {M : Type} (sendAtomic : M → Packet → result (M * Packet * Z)).

Fixpoint atomic_loop (fuel : nat) (m : M) (tlb : TLB) (w : WalkerState) : result (M * TLB * WalkerState * option PageFault) :=
  match fuel with
  | O => Err OutOfFuel
  | S fuel =>
      read ← (match ws_read w with Some p => Ok p | None => Err NullDeref end);
      tag ← walk_tag;
      '(m, read, _) ← sendAtomic m (setQosTag read tag);
      '(tlb, w, fault, write) ← stepWalk tlb (w <| ws_read := Some read |>);
      assertb (match fault, ws_read w with Some _, Some _ => false | _, _ => true end) ;;
      let w := w <| ws_state := ws_nextState w |> <| ws_nextState := Ready |> in
      m ← (match write with Some wr => '(m, _, _) ← sendAtomic m (setQosTag wr tag); Ok m | None => Ok m end);
      match ws_read w with
      | Some _ => atomic_loop fuel m tlb w
      | None => Ok (m, tlb, w, fault)
      end
  end.

(** A walk reads at most four entries. *)
Definition walk_depth : nat := 4.

Definition startWalk_atomic (m : M) (tlb : TLB) (w : WalkerState) (vaddr : Z) : result (M * TLB * WalkerState * option PageFault) :=
  assertb (negb (ws_started w)) ;;
  w ← setupWalk (w <| ws_started := true |>) vaddr;
  '(m, tlb, w, fault) ← atomic_loop walk_depth m tlb w;
  Ok (m, tlb, w <| ws_state := Ready |> <| ws_nextState := Waiting |>, fault).

(** [Walker::start] in atomic mode, with no walk in progress. *)
Definition start_atomic (m : M) (tlb : TLB) (entry : TlbEntry) (vaddr : Z) (mode : Mode) : result (M * TLB * option PageFault) :=
  w ← initState (WalkerState_make entry false) mode false;
  '(m, tlb, _, fault) ← startWalk_atomic m tlb w vaddr;
  Ok (m, tlb, fault).

End Atomic.

Section Functional.

Context {M : Type} (sendFunctional : M → Packet → result (M * Packet)).

Fixpoint functional_loop (fuel : nat) (m : M) (tlb : TLB) (w : WalkerState) : result (M * WalkerState * option PageFault) :=
  match fuel with
  | O => Err OutOfFuel
  | S fuel =>
      read ← (match ws_read w with Some p => Ok p | None => Err NullDeref end);
      '(m, read) ← sendFunctional m read;
      '(_, w, fault, _) ← stepWalk tlb (w <| ws_read := Some read |>);
      assertb (match fault, ws_read w with Some _, Some _ => false | _, _ => true end) ;;
      let w := w <| ws_state := ws_nextState w |> <| ws_nextState := Ready |> in
      match ws_read w with
      | Some _ => functional_loop fuel m tlb w
      | None => Ok (m, w, fault)
      end
  end.

(** [Walker::startFunctional] on the walk kept for functional accesses: the
    frame, the size of the page and the fault. *)
Definition startFunctional (m : M) (tlb : TLB) (w : WalkerState) (addr : Z) (mode : Mode)
  : result (M * WalkerState * Z * Z * option PageFault) :=
  w ← initState w mode false;
  assertb (negb (ws_started w)) ;;
  w ← setupWalk (w <| ws_started := true |>) addr;
  '(m, w, fault) ← functional_loop walk_depth m tlb w;
  Ok (m, w, te_paddr (ws_entry w), te_logBytes (ws_entry w), fault).

(** [vtophys(tc, vaddr)]. *)
Definition vtophys (m : M) (tlb : TLB) (w : WalkerState) (vaddr : Z) : result (M * WalkerState * Z) :=
  '(m, w, addr, logBytes, fault) ← startFunctional m tlb w vaddr Mode_Read;
  panic_if (match fault with Some _ => true | None => false end) ;;
  Ok (m, w, Z.lor addr (Z.land vaddr (mask logBytes))).

End Functional.

(** ** Timing walks *)

(** [Walker::sendTiming]: the port accepts the packet, with the sender state of
    the walk [id] pushed, or refuses it. *)
Definition walker_sender (id : nat) : SenderState := SSOther id.

(** [sendPackets]: [accepts] holds the answers of the port to the packets
    offered, in order (a missing one is a refusal); the packets that left. *)
Fixpoint send_writes (id : nat) (tag : Z) (n : nat) (accepts : list bool) (w : WalkerState) : WalkerState * list Packet :=
  match n with
  | O => (w, [])
  | S n =>
      match last (ws_writes w) with
      | None => (w, [])
      | Some wr =>
          let wr := setQosTag wr tag in
          let rest := removelast (ws_writes w) in
          match accepts with
          | true :: accepts =>
              let '(w, sent) := send_writes id tag n accepts (w <| ws_writes := rest |> <| ws_inflight := wrap 32 (ws_inflight w + 1) |>) in
              (w, pushSenderState wr (walker_sender id) :: sent)
          | _ => (w <| ws_writes := rest ++ [wr] |> <| ws_retrying := true |>, [])
          end
      end
  end.

Definition sendPackets (id : nat) (accepts : list bool) (w : WalkerState) : result (WalkerState * list Packet) :=
  if ws_retrying w then Ok (w, [])
  else
    tag ← walk_tag;
    match ws_read w with
    | Some read =>
        let read := setQosTag read tag in
        match accepts with
        | true :: accepts =>
            let w := w <| ws_read := None |> <| ws_inflight := wrap 32 (ws_inflight w + 1) |> in
            let '(w, sent) := send_writes id tag (length (ws_writes w)) accepts w in
            Ok (w, pushSenderState read (walker_sender id) :: sent)
        | _ => Ok (w <| ws_read := Some read |> <| ws_retrying := true |>, [])
        end
    | None => Ok (send_writes id tag (length (ws_writes w)) accepts w)
    end.

Definition retry (id : nat) (accepts : list bool) (w : WalkerState) : result (WalkerState * list Packet) :=
  sendPackets id accepts (w <| ws_retrying := false |>).

Definition startWalk_timing (id : nat) (accepts : list bool) (w : WalkerState) (vaddr : Z) : result (WalkerState * list Packet) :=
  assertb (negb (ws_started w)) ;;
  w ← setupWalk (w <| ws_started := true |>) vaddr;
  sendPackets id accepts (w <| ws_nextState := ws_state w |> <| ws_state := Waiting |> <| ws_timingFault := None |>).

(** [recvPacket], up to the end of the walk, after which the requester is told
    of the fault or translates again: whether the walk is complete. *)
Definition recvPacket (id : nat) (accepts : list bool) (tlb : TLB) (w : WalkerState) (pkt : Packet)
  : result (TLB * WalkerState * list Packet * bool) :=
  assertb (pkt_isResponse pkt) ;;
  assertb (negb (ws_inflight w =? 0)) ;;
  assertb (bool_decide (ws_state w = Waiting)) ;;
  assertb (match ws_read w with None => true | Some _ => false end) ;;
  let w := w <| ws_inflight := wrap 32 (ws_inflight w - 1) |> in
  '(tlb, w) ← (if pkt_isRead pkt then
                 let pkt := pkt <| pkt_busFirstWordDelay := 0 |> <| pkt_busLastWordDelay := 0 |> in
                 '(tlb, w, fault, write) ← stepWalk tlb (w <| ws_state := ws_nextState w |> <| ws_nextState := Ready |> <| ws_read := Some pkt |>);
                 assertb (match fault, ws_read w with Some _, Some _ => false | _, _ => true end) ;;
                 let w := w <| ws_timingFault := fault |> <| ws_state := Waiting |> in
                 Ok (tlb, match write with Some wr => w <| ws_writes := ws_writes w ++ [wr] |> | None => w end)
               else Ok (tlb, w));
  '(w, sent) ← sendPackets id accepts w;
  if (ws_inflight w =? 0) && (match ws_read w with None => true | Some _ => false end) && (length (ws_writes w) =? 0)%nat
  then Ok (tlb, w <| ws_state := Ready |> <| ws_nextState := Waiting |>, sent, true)
  else Ok (tlb, w, sent, false).

End Walker.

(** ** Termination and tags *)

(** Entries still to be read from a state, the next one included. *)
Definition rank (s : WState) : nat :=
  match s with
  | LongPML4 => 4 | LongPDP => 3 | LongPD => 2 | LongPTE => 1
  | PAEPDP => 3 | PAEPD => 2 | PAEPTE => 1
  | PSEPD => 2 | PD => 2 | PTE => 1
  | Ready | Waiting => 0
  end.
Definition leaf_state (s : WState) : bool := match s with LongPTE | PAEPTE | PTE => true | _ => false end.

(** The walk between two entries. *)
Record walking (w : WalkerState) : Prop := {
  wk_rank : (0 < rank (ws_state w))%nat;
  wk_vaddr : in_width 64 (te_vaddr (ws_entry w));
  wk_leaf : leaf_state (ws_state w) = true → te_logBytes (ws_entry w) = 12
}.

Lemma level_spec s n e pte bad e' wr act :
  level s n e pte bad = Ok (e', wr, act) → in_width 64 (te_vaddr e) →
  match act with
  | NextTable a next => (rank next < rank s)%nat ∧ (0 < rank next)%nat ∧ te_vaddr e' = te_vaddr e ∧ (leaf_state next = true → te_logBytes e' = 12)
  | MapsPage => in_width 64 (te_vaddr e') ∧ (leaf_state s = false → te_logBytes e' = 21) ∧ (leaf_state s = true → te_logBytes e' = te_logBytes e)
  | Faults _ => True
  end.
Proof.
  assert (∀ x k, in_width 64 x → 0 ≤ k → in_width 64 (Z.land x (Z.lnot (2 ^ k - 1)))) as Hland.
  { intros x k Hx Hk. apply in_width_bits; [lia|apply Z.land_nonneg; left; apply Hx|]. intros i Hi.
    rewrite Z.land_spec, (testbit_high x 64) by (done || lia). done. }
  intros Hl Hv. pose proof (Hland _ 21 Hv ltac:(lia)). pose proof (Hland _ 12 Hv ltac:(lia)). pose proof (Hland _ 22 Hv ltac:(lia)).
  destruct s; unfold level in Hl; cbv zeta in Hl; try discriminate Hl;
    repeat match type of Hl with context [if ?b then _ else _] => destruct b end; injection Hl as <- _ <-; try done; cbn; auto with lia.
Qed.

(** The TLB insertion at the end of a walk. *)
Lemma tlb_insert_safe tlb m vpn e :
  tlb_inv tlb m → tlb_entries tlb ≠ [] → page_ok (e <| te_vaddr := vpn |>) →
  tlb_insert tlb vpn e = Err AssertFail ∨
  ∃ tlb' m' i, tlb_insert tlb vpn e = Ok (tlb', i) ∧ tlb_inv tlb' m' ∧ tlb_entries tlb' ≠ [].
Proof.
  intros Hwf Hne Hok. destruct Hok as [Hv Hlog]. pose proof (tlb_find tlb m vpn Hwf Hv) as Hf.
  destruct (trie_lookup (tlb_trie tlb) vpn) as [i|] eqn:Hl.
  - destruct Hf as (x & [Hx _] & _). unfold tlb_insert, get_entry. rewrite Hl, Hx. cbn [mbind result_bind].
    destruct (te_vaddr x =? vpn); [right|by left]. exists tlb, m, i. split; [done|]. by split.
  - right. destruct (tlb_insert_ok tlb m vpn e) as (t' & m' & i & s & H1 & H2 & H3 & _); [done..|].
    exists t', m', i. split; [done|]. split; [done|]. rewrite H3. intros E. apply (f_equal length) in E. rewrite length_insert in E.
    by destruct (tlb_entries tlb).
Qed.

(** Code that does not run out of fuel and whose result satisfies [P]. *)
Definition runs {A} (r : result A) (P : A → Prop) : Prop := match r with Ok a => P a | Err f => f ≠ OutOfFuel end.
Lemma runs_bind {A B} (r : result A) (f : A → result B) P Q : runs r Q → (∀ a, Q a → runs (f a) P) → runs (r ≫= f) P.
Proof. destruct r; cbn; auto. Qed.
Lemma runs_mono {A} (r : result A) (P Q : A → Prop) : runs r P → (∀ a, P a → Q a) → runs r Q.
Proof. destruct r; cbn; auto. Qed.
Lemma runs_assert b : runs (assertb b) (λ _, b = true).
Proof. by destruct b. Qed.
Lemma runs_readMisc tc r : runs (readMiscRegNoEffect tc r) (λ v, v = reg tc r).
Proof. unfold readMiscRegNoEffect, reg_index. by destruct (illegal_cr r), ((0 <=? r) && (r <? NUM_MISCREGS)). Qed.
Lemma runs_get n p : runs (Packet_get n p) (λ _, True).
Proof.
  unfold Packet_get. eapply runs_bind; [apply runs_assert|]. intros _ _. eapply runs_bind; [apply runs_assert|]. intros _ _.
  destruct (pkt_data p); [|done]. by case_decide.
Qed.
Lemma runs_set n p v : runs (Packet_set n p v) (λ q, pkt_addr q = pkt_addr p ∧ pkt_size q = pkt_size p).
Proof.
  unfold Packet_set. eapply runs_bind; [apply runs_assert|]. intros _ _. eapply runs_bind; [apply runs_assert|]. intros _ _.
  destruct (pkt_data p); [|done]. by case_decide.
Qed.
Lemma runs_walk_read mid a n fl : runs (walk_read mid a n fl) (λ p, pkt_cmd p = ReadReq ∧ pkt_addr p = a ∧ pkt_size p = n).
Proof. done. Qed.
Lemma runs_level s n e pte bad : (0 < rank s)%nat → runs (level s n e pte bad) (λ r, level s n e pte bad = Ok r).
Proof.
  intros Hs. destruct (level s n e pte bad) eqn:E; [done|]. destruct s; try (cbn in Hs; lia); unfold level in E; cbv zeta in E;
    repeat match type of E with context [if ?b then _ else _] => destruct b end; discriminate E.
Qed.

(** One entry: the walk ends, or goes on to a smaller rank. *)
Lemma stepWalk_runs mid tc tlb m w :
  walking w → tlb_inv tlb m → tlb_entries tlb ≠ [] →
  runs (stepWalk mid tc tlb w) (λ '(tlb', w', fault, wr),
    (∃ m', tlb_inv tlb' m') ∧ tlb_entries tlb' ≠ [] ∧ (∀ q, wr = Some q → pkt_cmd q = WriteReq) ∧
    match ws_read w' with
    | Some p => fault = None ∧ pkt_cmd p = ReadReq ∧ (rank (ws_nextState w') < rank (ws_state w))%nat ∧
        walking (w' <| ws_state := ws_nextState w' |> <| ws_nextState := Ready |>)
    | None => wr = None
    end).
Proof.
  intros [Hr Hv Hleaf] Hwf Hne. unfold stepWalk. eapply runs_bind; [apply runs_assert|]. intros _ _.
  destruct (ws_read w) as [rd|]; [|done]. eapply (runs_bind (Ok rd) _ _ (λ x, x = rd)); [done|]. intros _ ->.
  eapply (runs_bind _ _ _ (λ _, True)); [by case_match; apply runs_get|]. intros pte _. cbv zeta.
  eapply runs_bind; [by apply runs_level|]. intros [[e wr] act] Hl. pose proof (level_spec _ _ _ _ _ _ _ _ Hl Hv) as Hs.
  destruct act as [a next| |present].
  - destruct Hs as (H1 & H2 & H3 & H4). eapply (runs_bind _ _ _ (λ _, True)); [by unfold getSize; destruct (flag_isSet _ _)|]. intros size _.
    eapply runs_bind; [apply runs_walk_read|]. intros p (Hp & _ & _).
    eapply (runs_bind _ _ _ (λ q, ∀ x, q = Some x → pkt_cmd x = WriteReq)).
    { destruct wr; [|done]. eapply (runs_bind _ _ _ (λ x, pkt_cmd x = WriteReq)); [|by intros x Hx; cbn; intros y [= <-]].
      unfold accessed_write. eapply runs_bind; [apply runs_set|]. done. }
    intros q Hq. cbn. split; [by exists m|]. split; [done|]. split; [done|]. split; [done|]. split; [done|]. split; [done|].
    split; cbn; [done|by rewrite H3|done].
  - destruct Hs as (H1 & H2 & H3). eapply (runs_bind _ _ _ (λ t, (∃ m', tlb_inv t m') ∧ tlb_entries t ≠ [])).
    { cbn. destruct (ws_functional w); [by split; [exists m|]|].
      assert (page_ok (e <| te_vaddr := te_vaddr e |>)) as Hok.
      { split; [done|]. cbn. destruct (leaf_state (ws_state w)); [rewrite H3, Hleaf by done|rewrite H2 by done]; lia. }
      destruct (tlb_insert_safe tlb m (te_vaddr e) e Hwf Hne Hok) as [->|(t' & m' & i & -> & Hw' & Hn')]; [done|].
      cbn. split; [by exists m'|done]. }
    intros t [Ht1 Ht2]. cbn. split; [done|]. split; [done|]. done.
  - eapply (runs_bind _ _ _ (λ _, True)).
    { unfold pageFault. eapply runs_bind; [apply runs_readMisc|]. done. }
    intros [w' fault] _. cbn. split; [by exists m|]. split; [done|]. done.
Qed.

(** A peer that records the packets it is given. *)
Definition recording {M} (sendAtomic : M → Packet → result (M * Packet * Z)) (st : M * list Packet) (p : Packet)
  : result (M * list Packet * Packet * Z) :=
  '(m, r, t) ← sendAtomic st.1 p; Ok ((m, st.2 ++ [p]), r, t).

(** The domain of the thread, as the packets of its walks carry it. *)
Definition walk_domain (tc : ThreadContext) : Z := QOSTAG_TO_GUESTID (reg tc MISCREG_QR0).
Lemma walk_tag_guest tc p : ∃ tag, walk_tag tc = Ok tag ∧ guest_of (setQosTag p tag) = walk_domain tc.
Proof.
  exists (Z.lor (reg tc MISCREG_QR0) 0xe000000000000000). split; [done|].
  change (wrap 16 (Z.land (Z.lor (reg tc MISCREG_QR0) 0xe000000000000000) 0xFF) = wrap 16 (Z.land (reg tc MISCREG_QR0) 0xFF)).
  f_equal. apply Z.bits_inj'. intros i Hi. rewrite !Z.land_spec, Z.lor_spec.
  destruct (Z.testbit 0xFF i) eqn:E; [|by rewrite !andb_false_r]. f_equal.
  assert (i < 8) as Hlt.
  { destruct (Z_lt_le_dec i 8); [done|]. by rewrite (testbit_high 0xFF 8) in E by (unfold in_width; lia). }
  assert (i = 0 ∨ i = 1 ∨ i = 2 ∨ i = 3 ∨ i = 4 ∨ i = 5 ∨ i = 6 ∨ i = 7) as Hc by lia.
  repeat destruct Hc as [->|Hc]; [..|subst i]; by rewrite orb_false_r.
Qed.

Definition walk_packet (tc : ThreadContext) (p : Packet) : Prop :=
  guest_of p = walk_domain tc ∧ (pkt_cmd p = ReadReq ∨ pkt_cmd p = WriteReq).
Definition entry_reads (l : list Packet) : nat := length (filter (λ p, pkt_cmd p = ReadReq) l).
Definition accessed_writes (l : list Packet) : nat := length (filter (λ p, pkt_cmd p = WriteReq) l).

Lemma atomic_loop_runs {M} (send : M → Packet → result (M * Packet * Z)) mid tc n w tlb tm m log p :
  (∀ m p, runs (send m p) (λ _, True)) →
  walking w → tlb_inv tlb tm → tlb_entries tlb ≠ [] → ws_read w = Some p → pkt_cmd p = ReadReq → (rank (ws_state w) ≤ n)%nat →
  runs (atomic_loop mid tc (recording send) n (m, log) tlb w) (λ '(ml, tlb', w', fault),
    (∃ tm', tlb_inv tlb' tm') ∧ ∃ new, ml.2 = log ++ new ∧ Forall (walk_packet tc) new ∧
      (accessed_writes new < entry_reads new ≤ rank (ws_state w))%nat).
Proof.
  intros Hsend. revert w tlb tm m log p. induction n as [|n IH]; intros w tlb tm m log p Hk Hwf Hne Hp Hc Hr.
  { destruct Hk as [H0 _ _]. lia. }
  cbn [atomic_loop]. rewrite Hp. cbn [mbind result_bind]. destruct (walk_tag_guest tc p) as (tag & Htag & Hg). rewrite Htag. cbn [mbind result_bind].
  eapply (runs_bind _ _ _ (λ '(ml, _, _), ml.2 = log ++ [setQosTag p tag])).
  { unfold recording. eapply runs_bind; [apply Hsend|]. intros [[m1 r] t] _. done. }
  intros [[[m1 log1] rd] t] Hlog. cbn in Hlog. subst log1.
  assert (walking (w <| ws_read := Some rd |>)) as Hk1 by (by destruct Hk).
  eapply runs_bind; [by eapply stepWalk_runs|]. intros [[[tlb1 w1] fault] wr] (Hwf1 & Hne1 & Hw & Hnext).
  eapply runs_bind; [apply runs_assert|]. intros _ _. cbv zeta.
  set (w2 := w1 <| ws_state := ws_nextState w1 |> <| ws_nextState := Ready |>).
  eapply (runs_bind _ _ _ (λ ml, ml.2 = log ++ setQosTag p tag :: match wr with Some q => [setQosTag q tag] | None => [] end)).
  { destruct wr as [q|]; [|done]. unfold recording. eapply (runs_bind _ _ _ (λ '(ml, _, _), ml.2 = log ++ [setQosTag p tag; setQosTag q tag])).
    - eapply runs_bind; [apply Hsend|]. intros [[m2 r] t2] _. cbn. by rewrite <-app_assoc.
    - intros [[ml r] t2] H. exact H. }
  intros [m2 log2] Hlog2. cbn in Hlog2. subst log2.
  assert (walk_packet tc (setQosTag p tag)) as Wp by (split; [done|by left]).
  assert (∀ q, wr = Some q → walk_packet tc (setQosTag q tag)) as Wq.
  { intros q Hq. destruct (walk_tag_guest tc q) as (tag' & Ht' & Hg'). assert (tag' = tag) as -> by congruence. split; [done|]. right. exact (Hw q Hq). }
  change (ws_read w2) with (ws_read w1). destruct (ws_read w1) as [p1|] eqn:Hp1.
  - destruct Hnext as (-> & Hc1 & Hlt & Hk2). destruct Hwf1 as [tm1 Hwf1].
    eapply runs_mono; [eapply (IH w2 tlb1 tm1 m2 _ p1); [exact Hk2|done|done|exact Hp1|exact Hc1|]|].
    { cbn in Hlt. change (ws_state w2) with (ws_nextState w1). lia. }
    intros [[[ml tlb'] w'] fault'] [Htm (new & -> & Hall & Hcount)]. split; [done|].
    exists ((setQosTag p tag :: match wr with Some q => [setQosTag q tag] | None => [] end) ++ new).
    split; [by rewrite <-app_assoc|]. split.
    { apply Forall_app. split; [|done]. constructor; [done|]. destruct wr; [|done]. constructor; [by apply Wq|done]. }
    change (ws_state w2) with (ws_nextState w1) in Hcount. change (ws_state (w <| ws_read := Some rd |>)) with (ws_state w) in Hlt.
    unfold entry_reads, accessed_writes in *. rewrite !filter_app, !length_app, !filter_cons.
    change (pkt_cmd (setQosTag p tag)) with (pkt_cmd p). rewrite Hc, decide_False, decide_True by done.
    destruct wr as [q|]; [|cbn; lia].
    rewrite !filter_cons. change (pkt_cmd (setQosTag q tag)) with (pkt_cmd q). rewrite (Hw q eq_refl), decide_True, decide_False by done. cbn. lia.
  - subst wr. cbn. split; [done|]. exists [setQosTag p tag]. split; [done|]. split; [by constructor|].
    unfold entry_reads, accessed_writes. rewrite !filter_cons. change (pkt_cmd (setQosTag p tag)) with (pkt_cmd p). rewrite Hc, decide_False, decide_True by done.
    destruct Hk. cbn. lia.
Qed.

Lemma setupWalk_ok mid tc w vaddr :
  in_width 64 vaddr →
  ∃ w' p, setupWalk mid tc w vaddr = Ok w' ∧ walking w' ∧ ws_read w' = Some p ∧ pkt_cmd p = ReadReq ∧ (rank (ws_state w') ≤ walk_depth)%nat.
Proof.
  intros Hv. unfold setupWalk. change (readMiscRegNoEffect tc MISCREG_CR3) with (Ok (reg tc MISCREG_CR3)).
  change (readMiscRegNoEffect tc MISCREG_EFER) with (Ok (reg tc MISCREG_EFER)).
  change (readMiscRegNoEffect tc MISCREG_CR4) with (Ok (reg tc MISCREG_CR4)). cbn [mbind result_bind].
  destruct (Efer_lma (reg tc MISCREG_EFER)), (CR4_pae (reg tc MISCREG_CR4)), (CR4_pse (reg tc MISCREG_CR4));
    (eexists _, _; split; [reflexivity|]; split; [split; [cbn; lia|exact Hv|done]|]; split; [reflexivity|]; split; [reflexivity|]; cbn; unfold walk_depth; lia).
Qed.

(** ** Timing walks *)

(** What can happen to a walk of timing mode: a response arrives, or the port
    asks for the packets it refused; [accepts] are the answers of the port to
    the packets the walk then offers. *)
Inductive WalkEvent : Type :=
| WalkResponse (accepts : list bool) (pkt : Packet)
| WalkRetry (accepts : list bool).

Definition walk_event masterId tc id (st : TLB * WalkerState * list Packet) (e : WalkEvent)
  : result (TLB * WalkerState * list Packet) :=
  let '(tlb, w, log) := st in
  match e with
  | WalkResponse accepts pkt =>
      '(tlb, w, sent, _) ← recvPacket masterId tc id accepts tlb w pkt; Ok (tlb, w, log ++ sent)
  | WalkRetry accepts => '(w, sent) ← retry tc id accepts w; Ok (tlb, w, log ++ sent)
  end.

(** A walk from its start through the events, with the packets that left. *)
Definition timing_walk masterId tc id (tlb : TLB) (entry : TlbEntry) (vaddr : Z) (mode : Mode) (accepts : list bool)
    (es : list WalkEvent) : result (TLB * WalkerState * list Packet) :=
  w ← initState (WalkerState_make entry false) mode true;
  '(w, sent) ← startWalk_timing masterId tc id accepts w vaddr;
  foldM (walk_event masterId tc id) (tlb, w, sent) es.

Definition read_pending (w : WalkerState) : nat := match ws_read w with Some _ => 1 | None => 0 end.

(** The packets that left and those that wait, against the entries still to be
    read. *)
Record timing_inv (tc : ThreadContext) (tlb : TLB) (w : WalkerState) (log : list Packet) : Prop := {
  ti_tlb : (∃ tm, tlb_inv tlb tm) ∧ tlb_entries tlb ≠ [];
  ti_walk : (0 < rank (ws_nextState w))%nat → walking (w <| ws_state := ws_nextState w |>);
  ti_log : Forall (walk_packet tc) log;
  ti_read : ∀ p, ws_read w = Some p → pkt_cmd p = ReadReq;
  ti_writes : Forall (λ p, pkt_cmd p = WriteReq) (ws_writes w);
  ti_reads : (entry_reads log + read_pending w + pred (rank (ws_nextState w)) ≤ 4)%nat;
  ti_count : (accessed_writes log + length (ws_writes w) < entry_reads log + read_pending w)%nat
}.

Lemma walking_ext w w' : ws_state w' = ws_state w → ws_entry w' = ws_entry w → walking w → walking w'.
Proof. intros E1 E2 []. split; by rewrite ?E1, ?E2. Qed.
(** Closes the clauses of [timing_inv] that a step leaves alone. *)
Ltac timing_same := try done; try lia; try (intros ?; eapply walking_ext; [| |by eauto]; reflexivity).

Lemma count_app l l' :
  entry_reads (l ++ l') = (entry_reads l + entry_reads l')%nat ∧ accessed_writes (l ++ l') = (accessed_writes l + accessed_writes l')%nat.
Proof. unfold entry_reads, accessed_writes. by rewrite !filter_app, !length_app. Qed.
Lemma count_read p : pkt_cmd p = ReadReq → entry_reads [p] = 1%nat ∧ accessed_writes [p] = 0%nat.
Proof. intros H. unfold entry_reads, accessed_writes. rewrite !filter_cons, H. by rewrite decide_True, decide_False. Qed.
Lemma count_write p : pkt_cmd p = WriteReq → entry_reads [p] = 0%nat ∧ accessed_writes [p] = 1%nat.
Proof. intros H. unfold entry_reads, accessed_writes. rewrite !filter_cons, H. by rewrite decide_False, decide_True. Qed.

(** Sending one packet: it is tagged, and counts where it waited. *)
Lemma tagged_packet tc tag p id :
  walk_tag tc = Ok tag → pkt_cmd p = ReadReq ∨ pkt_cmd p = WriteReq → walk_packet tc (pushSenderState (setQosTag p tag) (walker_sender id)).
Proof. intros Ht Hc. destruct (walk_tag_guest tc p) as (tag' & Ht' & Hg). assert (tag' = tag) as -> by congruence. by split. Qed.

Lemma send_writes_inv tc id tag tlb n accepts w log w' sent :
  walk_tag tc = Ok tag → send_writes id tag n accepts w = (w', sent) → timing_inv tc tlb w log → timing_inv tc tlb w' (log ++ sent).
Proof.
  intros Ht. revert accepts w log w' sent. induction n as [|n IH]; intros accepts w log w' sent H I; cbn in H.
  { injection H as <- <-. by rewrite app_nil_r. }
  destruct (last (ws_writes w)) as [wr|] eqn:Hl; [|injection H as <- <-; by rewrite app_nil_r].
  apply last_Some in Hl as [rest Hl]. rewrite Hl, removelast_last in H. destruct I as [I1 I2 I3 I4 I5 I6 I7].
  rewrite Hl in I5, I7. apply Forall_app in I5 as [I5 [Hw _]%Forall_cons]. rewrite length_app in I7. cbn in I7.
  assert (timing_inv tc tlb (w <| ws_writes := rest ++ [setQosTag wr tag] |> <| ws_retrying := true |>) log) as Hback.
  { split; cbn; timing_same; [by apply Forall_app; split; [|constructor]|]. unfold read_pending in *. rewrite length_app. cbn in *. lia. }
  destruct accepts as [|[] accepts]; try (injection H as <- <-; by rewrite app_nil_r).
  destruct (send_writes id tag n accepts _) as [w1 s1] eqn:E. injection H as <- <-.
  change (log ++ pushSenderState (setQosTag wr tag) (walker_sender id) :: s1) with (log ++ [pushSenderState (setQosTag wr tag) (walker_sender id)] ++ s1).
  rewrite app_assoc. eapply IH; [exact E|]. set (p := pushSenderState _ _).
  destruct (count_app log [p]) as [C1 C2], (count_write p Hw) as [C3 C4]. rewrite C3 in C1. rewrite C4 in C2.
  unfold read_pending in *. split; unfold read_pending; cbn; timing_same. apply Forall_app. split; [done|]. constructor; [|done]. apply tagged_packet; [done|by right].
Qed.

Lemma sendPackets_inv tc id tlb accepts w log w' sent :
  sendPackets tc id accepts w = Ok (w', sent) → timing_inv tc tlb w log → timing_inv tc tlb w' (log ++ sent).
Proof.
  unfold sendPackets. intros H I. destruct (ws_retrying w); [injection H as <- <-; by rewrite app_nil_r|]. inv_ok.
  rename a into tag, E into Ht. destruct (ws_read w) as [rd|] eqn:Hr; [|injection H as H; by eapply send_writes_inv].
  pose proof I as [I1 I2 I3 I4 I5 I6 I7]. unfold read_pending in *. rewrite Hr in *.
  assert (timing_inv tc tlb (w <| ws_read := Some (setQosTag rd tag) |> <| ws_retrying := true |>) log) as Hback.
  { split; cbn; timing_same. intros p [= <-]. exact (I4 rd eq_refl). }
  destruct accepts as [|[] accepts]; try (injection H as <- <-; by rewrite app_nil_r).
  destruct (send_writes id tag _ accepts _) as [w1 s1] eqn:E. injection H as <- <-.
  change (log ++ pushSenderState (setQosTag rd tag) (walker_sender id) :: s1) with (log ++ [pushSenderState (setQosTag rd tag) (walker_sender id)] ++ s1).
  rewrite app_assoc. eapply send_writes_inv; [exact Ht|exact E|]. set (p := pushSenderState _ _).
  assert (pkt_cmd p = ReadReq) as Hp by exact (I4 rd eq_refl).
  destruct (count_app log [p]) as [C1 C2], (count_read p Hp) as [C3 C4]. rewrite C3 in C1. rewrite C4 in C2.
  split; unfold read_pending; cbn; timing_same. apply Forall_app. split; [done|]. constructor; [|done]. apply tagged_packet; [done|by left].
Qed.

(** What a step leaves alone, and how it ends a walk. *)
Lemma stepWalk_frame mid tc tlb w tlb' w' fault wr :
  stepWalk mid tc tlb w = Ok (tlb', w', fault, wr) → ws_writes w' = ws_writes w ∧ (ws_read w' = None → ws_nextState w' = Ready).
Proof.
  unfold stepWalk. intros H. inv_ok. match goal with x : TlbEntry * bool * walk_action |- _ => destruct x as [[e dw] act] end. destruct act as [na ns| |pr]; inv_ok.
  - done.
  - done.
  - match goal with x : WalkerState * PageFault |- _ => destruct x as [w1 f] end. inv_ok. unfold pageFault in *. inv_ok. by destruct (_ && _).
Qed.

(** A response that carries an entry moves the walk down one level. *)
Lemma response_step_inv mid tc tlb w log pkt tlb' w' fault wr w1 :
  timing_inv tc tlb w log → ws_read w = None →
  stepWalk mid tc tlb (w <| ws_state := ws_nextState w |> <| ws_nextState := Ready |> <| ws_read := Some pkt |>) = Ok (tlb', w', fault, wr) →
  w1 = w' <| ws_timingFault := fault |> <| ws_state := Waiting |> →
  timing_inv tc tlb' (match wr with Some q => w1 <| ws_writes := ws_writes w1 ++ [q] |> | None => w1 end) log.
Proof.
  intros I Hn H Hw1. destruct (stepWalk_frame _ _ _ _ _ _ _ _ H) as [Hws Hend]. cbn in Hws. pose proof I as [[[tm T1] T2] I2 I3 I4 I5 I6 I7]. unfold read_pending in *. rewrite Hn in *.
  set (w0 := w <| ws_state := ws_nextState w |> <| ws_nextState := Ready |> <| ws_read := Some pkt |>) in *.
  assert (0 < rank (ws_nextState w))%nat as Hrank.
  { unfold stepWalk in H. inv_ok. change (ws_state w0) with (ws_nextState w) in *. destruct (ws_nextState w); try (cbn; lia); done. }
  assert (walking w0) as Hk by (destruct (I2 Hrank); by split).
  pose proof (stepWalk_runs mid tc tlb tm w0 Hk T1 T2) as R. rewrite H in R. cbn in R. destruct R as (R1 & R2 & R3 & R4).
  change (ws_state w0) with (ws_nextState w) in R4. destruct (ws_read w') as [p|] eqn:Hp.
  - clear Hend. destruct R4 as (-> & R5 & R6 & R7). subst w1. assert (0 < rank (ws_nextState w'))%nat as R8 by exact (wk_rank _ R7).
    destruct wr as [q|]; (split; unfold read_pending; cbn; rewrite ?Hp, ?Hws; timing_same; try (by intros x [= <-])).
    + apply Forall_app. split; [done|]. constructor; [by apply R3|done].
    + rewrite length_app. cbn. lia.
  - subst wr w1. pose proof (Hend eq_refl) as Hready.
    split; unfold read_pending; cbn; rewrite ?Hp, ?Hws, ?Hready; try done; cbn; lia.
Qed.

Lemma recvPacket_inv mid tc id accepts tlb w log pkt tlb' w' sent over :
  recvPacket mid tc id accepts tlb w pkt = Ok (tlb', w', sent, over) → timing_inv tc tlb w log → timing_inv tc tlb' w' (log ++ sent).
Proof.
  unfold recvPacket. intros H I. inv_ok.
  match goal with E : (if pkt_isRead _ then _ else _) = Ok ?y |- _ => destruct y as [tlb1 w1]; rename E into Estep end. inv_ok.
  match goal with E : sendPackets _ _ _ _ = Ok ?y |- _ => destruct y as [w2 s2]; rename E into Esend end.
  assert (ws_read w = None) as Hn by (by destruct (ws_read w)).
  assert (timing_inv tc tlb1 w1 log) as I1.
  { destruct (pkt_isRead pkt); [|injection Estep as <- <-; destruct I; by split; cbn; timing_same]. inv_ok.
    match goal with x : TLB * WalkerState * option PageFault * option Packet |- _ => destruct x as [[[tlb2 w3] fault] wr] end. inv_ok.
    match goal with E : stepWalk _ _ _ _ = _ |- _ =>
      eapply (response_step_inv mid tc tlb (w <| ws_inflight := wrap 32 (ws_inflight w - 1) |>) log _ _ _ _ _ _) in E; [|destruct I; by split; cbn; timing_same|done|done] end.
    done. }
  apply (sendPackets_inv _ _ tlb1 _ _ log) in Esend; [|done]. destruct (_ && _); inv_ok; [|done].
  destruct Esend as [J1 J2 J3 J4 J5 J6 J7]. unfold read_pending in *. split; unfold read_pending; cbn; try done; lia.
Qed.

Lemma walk_event_inv mid tc id tlb w log e tlb' w' log' :
  walk_event mid tc id (tlb, w, log) e = Ok (tlb', w', log') → timing_inv tc tlb w log → timing_inv tc tlb' w' log'.
Proof.
  intros H I. destruct e as [accepts pkt|accepts]; cbn [walk_event] in H; inv_ok.
  - match goal with x : TLB * WalkerState * list Packet * bool |- _ => destruct x as [[[t1 w1] s1] o1] end. inv_ok. by eapply recvPacket_inv.
  - match goal with x : WalkerState * list Packet |- _ => destruct x as [w1 s1] end. inv_ok. unfold retry in *.
    eapply sendPackets_inv; [eassumption|]. destruct I. by split; cbn; timing_same.
Qed.

Lemma timing_walk_inv mid tc id tlb tm entry vaddr mode accepts es tlb' w' log :
  tlb_inv tlb tm → tlb_entries tlb ≠ [] → in_width 64 vaddr →
  timing_walk mid tc id tlb entry vaddr mode accepts es = Ok (tlb', w', log) → timing_inv tc tlb' w' log.
Proof.
  intros Hwf Hne Hv H. unfold timing_walk, startWalk_timing in H. change (initState _ _ _) with (Ok ((WalkerState_make entry false) <| ws_mode := mode |> <| ws_timing := true |>)) in H.
  cbn [mbind result_bind ws_started negb assertb setf WalkerState_make] in H.
  match type of H with context [setupWalk _ _ ?w _] => destruct (setupWalk_ok mid tc w vaddr Hv) as (w1 & p & E1 & Hk & Hp & Hc & Hr); pose proof E1 as E0; rewrite E1 in H end.
  cbn [mbind result_bind] in H. apply bind_Ok_inv in H as ([w2 sent] & E2 & H).
  assert (ws_writes w1 = []) as Hws by (unfold setupWalk in E0; inv_ok; repeat case_match; by inv_ok).
  apply (sendPackets_inv _ _ tlb _ _ []) in E2.
  - clear -E2 H. cbn [app] in E2. revert tlb w2 sent E2 H. induction es as [|e es IH]; intros tlb w2 sent I H; cbn [foldM] in H; [by injection H as <- <- <-|].
    apply bind_Ok_inv in H as ([[t3 w3] l3] & E & H). eapply IH; [|eassumption]. by eapply walk_event_inv.
  - split; unfold read_pending; cbn; rewrite ?Hp, ?Hws; try done.
    + by split; [exists tm|].
    + intros _. eapply walking_ext; [| |exact Hk]; reflexivity.
    + by intros q [= <-].
    + unfold walk_depth in Hr. unfold entry_reads. cbn. lia.
    + unfold entry_reads, accessed_writes. cbn. lia.
Qed.

(** ** Functional walks *)

Definition recording_functional {M} (send : M → Packet → result (M * Packet)) (st : M * list Packet) (p : Packet)
  : result (M * list Packet * Packet) :=
  '(m, r) ← send st.1 p; Ok ((m, st.2 ++ [p]), r).

(** The read that a step leaves is a new packet. *)
Lemma stepWalk_untagged mid tc tlb w tlb' w' fault wr p :
  stepWalk mid tc tlb w = Ok (tlb', w', fault, wr) → ws_read w' = Some p → guest_of p = 0xFF.
Proof.
  unfold stepWalk. intros H Hp. inv_ok. match goal with x : TlbEntry * bool * walk_action |- _ => destruct x as [[e dw] act] end.
  destruct act as [na ns| |pr]; inv_ok; [|done|match goal with x : WalkerState * PageFault |- _ => destruct x end; by inv_ok].
  cbn in Hp. injection Hp as <-. match goal with E : walk_read _ _ _ _ = Ok _ |- _ => injection E as <- end. reflexivity.
Qed.
Lemma setupWalk_untagged mid tc w va w' p :
  setupWalk mid tc w va = Ok w' → ws_read w' = Some p → guest_of p = 0xFF.
Proof.
  unfold setupWalk. intros H Hp. inv_ok. repeat case_match; inv_ok; cbn in *; simplify_eq/=; reflexivity.
Qed.
Lemma functional_loop_untagged {M} (send : M → Packet → result (M * Packet)) mid tc n m log tlb w m' log' w' fault :
  functional_loop mid tc (recording_functional send) n (m, log) tlb w = Ok ((m', log'), w', fault) →
  (∀ p, ws_read w = Some p → guest_of p = 0xFF) → ∃ new, log' = log ++ new ∧ Forall (λ p, guest_of p = 0xFF) new ∧ (length new ≤ n)%nat.
Proof.
  revert m log w. induction n as [|n IH]; intros m log w H Hg; cbn [functional_loop] in H; [done|].
  destruct (ws_read w) as [rd|]; [|done]. cbn [mbind result_bind] in H. apply bind_Ok_inv in H as ([[m1 l1] r1] & E1 & H).
  unfold recording_functional in E1. apply bind_Ok_inv in E1 as ([m2 r2] & _ & E1). injection E1 as <- <- <-.
  apply bind_Ok_inv in H as ([[[t2 w2] f2] wr2] & E2 & H). apply bind_Ok_inv in H as (u & _ & H). cbv zeta in H.
  cbn [fst snd] in H. destruct (ws_read (w2 <| ws_state := ws_nextState w2 |> <| ws_nextState := Ready |>)) as [p|] eqn:Hp; inv_ok.
  - destruct (IH _ _ _ H) as (new & -> & Hall & Hlen).
    { intros q Hq. cbn in Hq. eapply stepWalk_untagged; eassumption. }
    exists (rd :: new). rewrite <-app_assoc. split; [done|]. split; [constructor; [by apply Hg|done]|cbn; lia].
  - exists [rd]. split; [done|]. split; [|cbn; lia]. constructor; [by apply Hg|done].
Qed.

(** ** Properties *)


(** The tables of a long mode thread that map the first 4 GB: a store of words
    that answers reads and takes writes. *)
Definition demo_tables : gmap Z Z := {[ 0x70000 := 0x71007; 0x71000 := 0x72007; 0x72008 := 0x200087 ]}.
Definition demo_word_memory (m : gmap Z Z) (p : Packet) : result (gmap Z Z * Packet * Z) :=
  data ← getPtr p;
  if pkt_isRead p then Ok (m, p <| pkt_cmd := ReadResp |> <| pkt_data := Some (le_split 8 (default 0 (m !! pkt_addr p))) |>, 1)
  else Ok (<[pkt_addr p := le_combine data]> m, p <| pkt_cmd := WriteResp |>, 1).
Definition long_thread (t : TLB) : ThreadContext :=
  set_reg (set_reg (set_reg (demo_thread t) MISCREG_CR3 0x70000) MISCREG_EFER 0x500) MISCREG_QR0 2.
Lemma demo_word_memory_runs m p : demo_word_memory m p ≠ Err OutOfFuel.
Proof. unfold demo_word_memory, getPtr. destruct (flag_isSet _ _), (pkt_data p); try done. cbn. by destruct (pkt_isRead p). Qed.


(** ** Where the walker fails *)

(** Timing mode: with the write of an accessed bit in flight, a read that the
    port refuses is kept in the walk, and the walk_answer to the write then meets the
    assertion that there is none. *)
Definition walk_answer (p : Packet) : result Packet :=
  '(_, p) ← popSenderState p; '(_, r, _) ← demo_word_memory demo_tables p; Ok r.
Definition refused_read (t : TLB) : result bool :=
  let tc := long_thread t in
  w ← initState (WalkerState_make zero_entry false) Mode_Read true;
  '(w, sent) ← startWalk_timing 5 tc 0 [true] w 0x234567;
  r1 ← (p ← at_ sent 0; walk_answer p);
  '(t, w, sent, _) ← recvPacket 5 tc 0 [true; true] t w r1;
  r2 ← (p ← at_ sent 0; walk_answer p);
  w1 ← (p ← at_ sent 1; walk_answer p);
  '(t, w, _, _) ← recvPacket 5 tc 0 [false] t w r2;
  match recvPacket 5 tc 0 [] t w w1 with Err AssertFail => Ok true | _ => Ok false end.
Lemma refused_read_asserts : (t ← TLB_make 2; refused_read t) = Ok true.
Proof. vm_compute. reflexivity. Qed.

(** The no-execute right of the page comes from the top table of long mode
    alone: the entries below change it in no way, so an entry loaded by a data
    access to a page that a lower entry closes to fetches does not say so. *)
Lemma noExec_top_only s n e pte bad e' wr act :
  s ≠ LongPML4 → level s n e pte bad = Ok (e', wr, act) → te_noExec e' = te_noExec e.
Proof.
  intros Hs H. destruct s; try done; unfold level in H; cbv zeta in H; try discriminate H;
    repeat match type of H with context [if ?b then _ else _] => destruct b end; by injection H as <- _ _.
Qed.

(** 4-byte entries: the accessed bit is written with an 8-byte [set], which
    asserts that the packet has 8 bytes. *)
Lemma legacy_accessed_asserts rd pte : pkt_size rd = 4 → accessed_write rd pte = Err AssertFail.
Proof. intros H. unfold accessed_write, Packet_set. rewrite H. by destruct (flag_isSet _ _). Qed.

(** Without PAE, the second table is indexed by the bits of the first one, so
    every page of a 4 MB region reads the same entry. *)
Lemma legacy_second_level e pte va :
  PTE_p pte = true → norml2 va = norml2 (te_vaddr e) →
  ∃ e1 e2 w a, level PD 4 e pte false = Ok (e1, w, NextTable a PTE) ∧ level PD 4 (e <| te_vaddr := va |>) pte false = Ok (e2, w, NextTable a PTE).
Proof. intros Hp Hn. unfold level. rewrite Hp. cbn. rewrite Hn. eauto 10. Qed.
