(* ===== verification/GuestAddr.v ===== *)
(** * Guest address ranges and the logical-domain address TLB

    [src/pardg5-v/hyper/base/guest_addr_range.hh] (class [GuestAddrRange]) and
    [src/pardg5-v/hyper/base/ldom_addr.hh] (classes [LDomAddrTLBEntry] and
    [LDomAddrTLB]).  Addresses are 64-bit, the interleaving fields 8-bit,
    identifiers 16-bit. *)

From S2P Require Import Prelude BaseLib Packet.
Local Open Scope Z_scope.

(** ** GuestAddrRange *)

Record GuestAddrRange : Type := mkRange {
  gar_guestID : Z;
  gar_start : Z;
  gar_end : Z;
  gar_intlvHighBit : Z;
  gar_intlvBits : Z;
  gar_intlvMatch : Z
}.

Definition GuestAddrRange_empty : GuestAddrRange := mkRange 0 1 0 0 0 0.
Definition GuestAddrRange_make (start end_ guestID : Z) : GuestAddrRange :=
  mkRange guestID start end_ 0 0 0.

(** [ULL(1) << n]. *)
Definition shl64 (n : Z) : result Z :=
  if decide (0 ≤ n < 64) then Ok (2 ^ n) else Err BadShift.

Definition interleaved (r : GuestAddrRange) : bool := negb (gar_intlvBits r =? 0).
Definition granularity (r : GuestAddrRange) : result Z :=
  shl64 (gar_intlvHighBit r - gar_intlvBits r + 1).
Definition stripes (r : GuestAddrRange) : result Z :=
  n ← shl64 (gar_intlvBits r); Ok (wrap 32 n).
Definition gar_size (r : GuestAddrRange) : Z :=
  Z.shiftr (wrap 64 (gar_end r - gar_start r + 1)) (gar_intlvBits r).
Definition gar_valid (r : GuestAddrRange) : bool := gar_start r <? gar_end r.

Definition mergesWith (self r : GuestAddrRange) : bool :=
  (gar_guestID r =? gar_guestID self) &&
  (gar_start r =? gar_start self) && (gar_end r =? gar_end self) &&
  (gar_intlvHighBit r =? gar_intlvHighBit self) &&
  (gar_intlvBits r =? gar_intlvBits self).

Definition gar_contains (r : GuestAddrRange) (a guestID : Z) : bool :=
  if negb (gar_guestID r =? guestID) then false else
  (gar_start r <=? a) && (a <=? gar_end r) &&
  (negb (interleaved r) ||
   (bits a (gar_intlvHighBit r) (gar_intlvHighBit r - gar_intlvBits r + 1) =? gar_intlvMatch r)).

(** The merging constructor [GuestAddrRange(const std::vector<GuestAddrRange>&)]:
    the loop checks each range against the first one and counts [match]. *)
Fixpoint merge_loop (self : GuestAddrRange) (rs : list GuestAddrRange) (match_ : Z)
  : result unit :=
  match rs with
  | [] => Ok tt
  | r :: rs' =>
      fatal_if (negb (mergesWith self r)) ;;
      fatal_if (negb (gar_intlvMatch r =? match_)) ;;
      merge_loop self rs' (wrap 8 (match_ + 1))
  end.

Definition GuestAddrRange_merge (ranges : list GuestAddrRange) : result GuestAddrRange :=
  match ranges with
  | [] => Ok GuestAddrRange_empty
  | front :: _ =>
      let self := mkRange (gar_guestID front) (gar_start front) (gar_end front)
                    (gar_intlvHighBit front) (gar_intlvBits front) 0 in
      n ← shl64 (gar_intlvBits self);
      fatal_if (negb (Z.of_nat (length ranges) =? n)) ;;
      merge_loop self ranges 0 ;;
      Ok (mkRange (gar_guestID front) (gar_start front) (gar_end front) 0 0 0)
  end.

Definition intersects (self r : GuestAddrRange) : result bool :=
  if negb (gar_guestID r =? gar_guestID self) then Ok false else
  if negb (interleaved self) then
    Ok ((gar_start self <=? gar_end r) && (gar_start r <=? gar_end self))
  else if gar_size r =? 1 then
    Ok (gar_contains self (gar_start r) (gar_guestID r))
  else if negb (interleaved r) then
    Ok ((gar_start self <=? gar_end r) && (gar_start r <=? gar_end self))
  else if mergesWith self r then
    Ok (gar_intlvMatch self =? gar_intlvMatch r)
  else Err PanicCalled.

Definition isSubset (self r : GuestAddrRange) : result bool :=
  if negb (gar_guestID r =? gar_guestID self) then Ok false else
  panic_if (interleaved self) ;;
  Ok ((gar_start r <=? gar_start self) && (gar_end self <=? gar_end r)).

(** [operator<]. *)
Definition gar_lt (self r : GuestAddrRange) : bool :=
  if negb (gar_start self =? gar_start r) then gar_start self <? gar_start r
  else gar_intlvMatch self <? gar_intlvMatch r.

Definition RangeEx (start end_ guestID : Z) : GuestAddrRange :=
  GuestAddrRange_make start (wrap 64 (end_ - 1)) guestID.
Definition RangeIn (start end_ guestID : Z) : GuestAddrRange :=
  GuestAddrRange_make start end_ guestID.
Definition RangeSize (start size guestID : Z) : GuestAddrRange :=
  GuestAddrRange_make start (wrap 64 (start + size - 1)) guestID.

(** ** LDomAddrTLBEntry and LDomAddrTLB *)

Record LDomAddrTLBEntry : Type := mkEntry {
  ent_domid : Z;
  ent_start : Z;
  ent_size : Z;
  ent_remapped : Z
}.

(** The constructor from a pair of ranges; the remapped range contributes only
    its start. *)
Definition LDomAddrTLBEntry_make (original remapped : GuestAddrRange) : result LDomAddrTLBEntry :=
  assertb (negb (interleaved original) && negb (interleaved remapped)) ;;
  Ok (mkEntry (gar_guestID original) (gar_start original) (gar_size original)
        (gar_start remapped)).

Definition ent_contains (e : LDomAddrTLBEntry) (domid a : Z) : bool :=
  (ent_domid e =? domid) && (ent_start e <=? a) &&
  (a <=? wrap 64 (ent_start e + ent_size e - 1)).
Definition ent_translate (e : LDomAddrTLBEntry) (addr : Z) : Z :=
  wrap 64 (addr - ent_start e + ent_remapped e).

Definition tlb_push_back (tlb : list LDomAddrTLBEntry) (e : LDomAddrTLBEntry) :=
  tlb ++ [e].
Definition tlb_size (tlb : list LDomAddrTLBEntry) : Z := Z.of_nat (length tlb).

(** [remove]: the erase loop. *)
Fixpoint tlb_remove (tlb : list LDomAddrTLBEntry) (ldomID : Z) : list LDomAddrTLBEntry :=
  match tlb with
  | [] => []
  | e :: tlb' => if ent_domid e =? ldomID then tlb_remove tlb' ldomID
                 else e :: tlb_remove tlb' ldomID
  end.

(** [query]: [return xent.push_back( *it)] leaves the loop at the first hit. *)
Fixpoint tlb_query (tlb : list LDomAddrTLBEntry) (ldomID : Z) (xent : list LDomAddrTLBEntry)
  : list LDomAddrTLBEntry :=
  match tlb with
  | [] => xent
  | e :: tlb' => if ent_domid e =? ldomID then xent ++ [e] else tlb_query tlb' ldomID xent
  end.

Fixpoint tlb_remapAddr (tlb : list LDomAddrTLBEntry) (ldomID addr : Z) : Z :=
  match tlb with
  | [] => addr
  | e :: tlb' => if ent_contains e ldomID addr then ent_translate e addr
                 else tlb_remapAddr tlb' ldomID addr
  end.

(** ** Lemmas on ranges *)

Lemma mergesWith_fields self r :
  mergesWith self r = true →
  gar_guestID r = gar_guestID self ∧ gar_start r = gar_start self ∧ gar_end r = gar_end self ∧
  gar_intlvHighBit r = gar_intlvHighBit self ∧ gar_intlvBits r = gar_intlvBits self.
Proof. unfold mergesWith. rewrite !andb_true_iff, !Z.eqb_eq. tauto. Qed.

Lemma merge_loop_lookup self rs m u :
  merge_loop self rs m = Ok u → in_width 8 m →
  ∀ i r, rs !! i = Some r →
    mergesWith self r = true ∧ gar_intlvMatch r = wrap 8 (m + Z.of_nat i).
Proof.
  revert m. induction rs as [|r0 rs IH]; intros m Hm Hpos i r Hi; [done|].
  simpl in Hm. inv_ok. apply negb_false_iff in E, E0. apply Z.eqb_eq in E0.
  destruct i as [|i]; simplify_eq/=.
  - rewrite Z.add_0_r, wrap_small by done. done.
  - destruct (IH _ Hm (wrap_range 8 _ ltac:(lia)) i r Hi) as [Hw ->].
    split; [done|]. rewrite wrap_add_wrap. f_equal. lia.
Qed.

(** The merged range, and what the checks of the loop establish of each stripe. *)
Lemma merge_Ok_inv rs front m :
  head rs = Some front → 0 ≤ gar_intlvBits front ≤ 8 → GuestAddrRange_merge rs = Ok m →
  m = GuestAddrRange_make (gar_start front) (gar_end front) (gar_guestID front) ∧
  Z.of_nat (length rs) = 2 ^ gar_intlvBits front ∧
  ∀ i r, rs !! i = Some r → mergesWith front r = true ∧ gar_intlvMatch r = Z.of_nat i.
Proof.
  intros Hhd Hb Hm. destruct rs as [|front' rs]; [done|]. injection Hhd as ->.
  unfold GuestAddrRange_merge in Hm. remember (front :: rs) as l eqn:El. inv_ok.
  unfold shl64 in E. case_decide; [|done]. inv_ok. apply negb_false_iff, Z.eqb_eq in E0.
  split; [done|]. split; [done|]. intros i r Hi. assert (Z.of_nat i < 2 ^ 8).
  { apply lookup_lt_Some in Hi. pose proof (Z.pow_le_mono_r 2 (gar_intlvBits front) 8). lia. }
  destruct (merge_loop_lookup _ _ _ _ E1 ltac:(done) i r Hi) as [Hmw ->].
  split; [exact Hmw|]. apply wrap_small. unfold in_width. lia.
Qed.

(** The interleaving slice of an address selects one stripe. *)
Definition selects (front : GuestAddrRange) (a : Z) (i : nat) : bool :=
  negb (interleaved front) ||
  (bits a (gar_intlvHighBit front) (gar_intlvHighBit front - gar_intlvBits front + 1) =? Z.of_nat i).

Lemma stripe_exists a front :
  0 ≤ gar_intlvBits front ≤ 8 → gar_intlvBits front ≤ gar_intlvHighBit front + 1 →
  gar_intlvHighBit front < 64 →
  ∃ i : nat, Z.of_nat i < 2 ^ gar_intlvBits front ∧ selects front a i = true.
Proof.
  intros Hb Hhb Hhi. unfold selects, interleaved.
  destruct (Z.eqb_spec (gar_intlvBits front) 0) as [->|Hk]; [by exists 0%nat|].
  set (h := gar_intlvHighBit front) in *. set (k := gar_intlvBits front) in *.
  pose proof (bits_width a h (h - k + 1) ltac:(lia)) as [? ?].
  replace (h - (h - k + 1) + 1) with k in * by lia.
  exists (Z.to_nat (bits a h (h - k + 1))). rewrite Z2Nat.id by done.
  split; [done | apply Z.eqb_refl].
Qed.

Lemma contains_stripe r front a g i :
  mergesWith front r = true → gar_intlvMatch r = Z.of_nat i →
  gar_contains r a g =
  gar_contains (GuestAddrRange_make (gar_start front) (gar_end front) (gar_guestID front)) a g &&
  selects front a i.
Proof.
  intros (F1 & F2 & F3 & F4 & F5)%mergesWith_fields Hmt.
  unfold gar_contains, selects, interleaved. rewrite F1, F2, F3, F4, F5, Hmt. simpl.
  destruct (gar_guestID front =? g); simpl; [by rewrite andb_true_r | done].
Qed.

(** ** Lemmas on the TLB *)

Lemma remapAddr_cases tlb d a :
  (∃ e, e ∈ tlb ∧ ent_contains e d a = true ∧ tlb_remapAddr tlb d a = ent_translate e a) ∨
  ((∀ e, e ∈ tlb → ent_contains e d a = false) ∧ tlb_remapAddr tlb d a = a).
Proof.
  induction tlb as [|e tlb IH]; simpl; [right; set_solver|].
  destruct (ent_contains e d a) eqn:He; [left; set_solver|].
  destruct IH as [(e' & H1 & H2 & H3)|[H1 H2]]; [left; set_solver|].
  right. split; [set_solver | done].
Qed.

(** An entry is well formed when neither its guest range nor its machine range
    wraps around the 64-bit address space. *)
Definition ent_wf (e : LDomAddrTLBEntry) : Prop :=
  0 ≤ ent_start e ∧ 0 < ent_size e ∧ 0 ≤ ent_remapped e ∧
  ent_start e + ent_size e ≤ 2 ^ 64 ∧ ent_remapped e + ent_size e ≤ 2 ^ 64.

Definition mapped (tlb : list LDomAddrTLBEntry) (d a : Z) : Prop :=
  ∃ e, e ∈ tlb ∧ ent_contains e d a = true.

(** Two entries use disjoint machine memory. *)
Definition machine_disjoint (e1 e2 : LDomAddrTLBEntry) : Prop :=
  ent_remapped e1 + ent_size e1 ≤ ent_remapped e2 ∨
  ent_remapped e2 + ent_size e2 ≤ ent_remapped e1.

Definition tlb_wf (tlb : list LDomAddrTLBEntry) : Prop :=
  Forall ent_wf tlb ∧
  ∀ i j e1 e2, tlb !! i = Some e1 → tlb !! j = Some e2 → i ≠ j → machine_disjoint e1 e2.

Lemma ent_contains_wf e d a :
  ent_wf e → ent_contains e d a = true →
  ent_domid e = d ∧ ent_start e ≤ a < ent_start e + ent_size e.
Proof.
  intros (H1 & H2 & H3 & H4 & H5). unfold ent_contains. rewrite !andb_true_iff, Z.eqb_eq, !Z.leb_le.
  rewrite wrap_small by (unfold in_width; lia). lia.
Qed.

Lemma ent_translate_wf e d a :
  ent_wf e → ent_contains e d a = true →
  ent_translate e a = a - ent_start e + ent_remapped e ∧
  ent_remapped e ≤ ent_translate e a < ent_remapped e + ent_size e.
Proof.
  intros Hw Hc. pose proof (ent_contains_wf e d a Hw Hc) as [_ Ha].
  destruct Hw as (H1 & H2 & H3 & H4 & H5). unfold ent_translate.
  rewrite wrap_small by (unfold in_width; lia). lia.
Qed.

Lemma remapAddr_mapped tlb d a :
  mapped tlb d a → ∃ i e, tlb !! i = Some e ∧ ent_contains e d a = true ∧
    tlb_remapAddr tlb d a = ent_translate e a.
Proof.
  intros (e & He & Hc). destruct (remapAddr_cases tlb d a) as [(e' & H1 & H2 & H3)|[H1 _]].
  - apply list_elem_of_lookup in H1 as [i Hi]. eauto.
  - by rewrite H1 in Hc.
Qed.

Lemma tlb_remove_filter tlb d : tlb_remove tlb d = filter (λ e, ent_domid e ≠ d) tlb.
Proof.
  induction tlb as [|e tlb IH]; simpl; [done|]. rewrite filter_cons, IH.
  destruct (Z.eqb_spec (ent_domid e) d); case_decide; done.
Qed.

(** Mapped guest addresses have machine addresses of their own. *)
Lemma remap_injective tlb d1 d2 a1 a2 :
  tlb_wf tlb → mapped tlb d1 a1 → mapped tlb d2 a2 → (d1, a1) ≠ (d2, a2) →
  tlb_remapAddr tlb d1 a1 ≠ tlb_remapAddr tlb d2 a2.
Proof.
  intros [Hwf Hdis] (i & e1 & Hi & Hc1 & ->)%remapAddr_mapped (j & e2 & Hj & Hc2 & ->)%remapAddr_mapped Hne.
  rewrite Forall_forall in Hwf.
  assert (ent_wf e1) as W1 by (by eapply Hwf, list_elem_of_lookup_2).
  assert (ent_wf e2) as W2 by (by eapply Hwf, list_elem_of_lookup_2).
  destruct (ent_translate_wf e1 d1 a1 W1 Hc1) as [T1 R1].
  destruct (ent_translate_wf e2 d2 a2 W2 Hc2) as [T2 R2].
  destruct (decide (i = j)) as [->|Hij].
  - rewrite Hi in Hj. injection Hj as <-.
    destruct (ent_contains_wf e1 d1 a1 W1 Hc1), (ent_contains_wf e1 d2 a2 W2 Hc2).
    intros ?. apply Hne. f_equal; lia.
  - destruct (Hdis i j e1 e2 Hi Hj Hij); lia.
Qed.

(** ** Properties *)

(** C1: translation is injective on mapped guest addresses: when the machine
    ranges of the entries are pairwise disjoint and nothing wraps, two mapped
    accesses that differ in domain or in guest address reach different machine
    addresses, and each lands in the machine range of an entry of its own
    domain, so no domain reaches another domain's memory through the TLB. *)
Theorem remapAddr_isolation (tlb : list LDomAddrTLBEntry) (d1 d2 a1 a2 : Z) :
  tlb_wf tlb → mapped tlb d1 a1 → mapped tlb d2 a2 → (d1, a1) ≠ (d2, a2) →
  tlb_remapAddr tlb d1 a1 ≠ tlb_remapAddr tlb d2 a2 ∧
  (∃ e, e ∈ tlb ∧ ent_domid e = d1 ∧ ent_remapped e ≤ tlb_remapAddr tlb d1 a1 < ent_remapped e + ent_size e) ∧
  (∃ e, e ∈ tlb ∧ ent_domid e = d2 ∧ ent_remapped e ≤ tlb_remapAddr tlb d2 a2 < ent_remapped e + ent_size e).
Proof.
  intros Hwf H1 H2 Hne. split; [by apply remap_injective|].
  assert (∀ d a, mapped tlb d a →
    ∃ e, e ∈ tlb ∧ ent_domid e = d ∧ ent_remapped e ≤ tlb_remapAddr tlb d a < ent_remapped e + ent_size e) as Hin.
  { intros d a (i & e & Hi & Hc & ->)%remapAddr_mapped. apply list_elem_of_lookup_2 in Hi.
    destruct Hwf as [Hf _]. rewrite Forall_forall in Hf. exists e. split; [done|].
    destruct (ent_contains_wf e d a (Hf e Hi) Hc). destruct (ent_translate_wf e d a (Hf e Hi) Hc). by split. }
  by split; apply Hin.
Qed.

Definition demo_tlb : list LDomAddrTLBEntry :=
  [mkEntry 0 0 0x20000000 0; mkEntry 1 0 0x20000000 0x20000000].

Lemma demo_tlb_wf : tlb_wf demo_tlb.
Proof.
  split; [repeat constructor; simpl; lia|].
  intros i j e1 e2 Hi Hj Hij. unfold machine_disjoint.
  destruct i as [|[|]], j as [|[|]]; simplify_eq/=; lia.
Defined.

Lemma remapAddr_isolation_witness :
  tlb_remapAddr demo_tlb 0 0x1000 ≠ tlb_remapAddr demo_tlb 1 0x1000.
Proof.
  apply (remapAddr_isolation demo_tlb 0 1 0x1000 0x1000).
  - apply demo_tlb_wf.
  - exists (mkEntry 0 0 0x20000000 0). split; [left | reflexivity].
  - exists (mkEntry 1 0 0x20000000 0x20000000). split; [right; left | reflexivity].
  - discriminate.
Defined.

(** Removing a domain makes its translation the identity, leaves the
    translation of every other domain unchanged and empties its query. *)
Theorem tlb_remove_spec (tlb : list LDomAddrTLBEntry) (d d' a : Z) :
  tlb_remapAddr (tlb_remove tlb d) d' a =
    (if d' =? d then a else tlb_remapAddr tlb d' a) ∧
  tlb_query (tlb_remove tlb d) d [] = [].
Proof.
  split.
  - induction tlb as [|e tlb IH]; simpl; [by destruct (d' =? d)|].
    destruct (Z.eqb_spec (ent_domid e) d) as [He|He].
    + rewrite IH. destruct (Z.eqb_spec d' d) as [->|Hne]; [done|].
      unfold ent_contains. destruct (Z.eqb_spec (ent_domid e) d'); [lia | done].
    + simpl. rewrite IH. destruct (Z.eqb_spec d' d) as [->|Hne]; [|done].
      unfold ent_contains. destruct (Z.eqb_spec (ent_domid e) d); [lia | done].
  - induction tlb as [|e tlb IH]; simpl; [done|].
    destruct (ent_domid e =? d) eqn:E; simpl; [done|]. by rewrite E.
Qed.

(** Merging the stripes of an interleaved range loses and adds nothing: the
    merged range contains an address of a guest exactly when one of the stripes
    contains it, for any interleaving slice that lies inside the address. *)
Theorem merge_contains (rs : list GuestAddrRange) (front m : GuestAddrRange) (a g : Z) :
  head rs = Some front →
  0 ≤ gar_intlvBits front ≤ 8 → gar_intlvBits front ≤ gar_intlvHighBit front + 1 →
  gar_intlvHighBit front < 64 →
  GuestAddrRange_merge rs = Ok m →
  gar_contains m a g = true ↔ ∃ r, r ∈ rs ∧ gar_contains r a g = true.
Proof.
  intros Hhd Hb Hhb Hhi Hm. destruct (merge_Ok_inv rs front m Hhd Hb Hm) as (-> & Hlen & Hall).
  split.
  - intros Hin. destruct (stripe_exists a front Hb Hhb Hhi) as (i & Hi & Hsel).
    destruct (lookup_lt_is_Some_2 rs i ltac:(lia)) as [r Hr]. destruct (Hall i r Hr) as [Hmw Hmt].
    exists r. split; [by eapply list_elem_of_lookup_2|].
    by rewrite (contains_stripe r front a g i Hmw Hmt), Hin, Hsel.
  - intros (r & Hr & Hc). apply list_elem_of_lookup in Hr as [i Hi].
    destruct (Hall i r Hi) as [Hmw Hmt]. rewrite (contains_stripe r front a g i Hmw Hmt) in Hc.
    by apply andb_true_iff in Hc as [-> _].
Qed.

Definition demo_stripes : list GuestAddrRange :=
  [mkRange 2 0 0xFFFF 8 1 0; mkRange 2 0 0xFFFF 8 1 1].

Lemma merge_contains_witness :
  gar_contains (mkRange 2 0 0xFFFF 0 0 0) 0x1F0 2 = true ↔
  ∃ r, r ∈ demo_stripes ∧ gar_contains r 0x1F0 2 = true.
Proof.
  apply (merge_contains demo_stripes (mkRange 2 0 0xFFFF 8 1 0)); simpl; try lia; reflexivity.
Defined.

(** On ranges without interleaving, [intersects] and [isSubset] decide the
    set relations they are named after, per guest. *)
Theorem range_set_semantics (self r : GuestAddrRange) :
  interleaved self = false → interleaved r = false →
  gar_start self ≤ gar_end self → gar_start r ≤ gar_end r →
  (intersects self r = Ok true ↔
     ∃ a g, gar_contains self a g = true ∧ gar_contains r a g = true) ∧
  (isSubset self r = Ok true ↔
     ∀ a g, gar_contains self a g = true → gar_contains r a g = true).
Proof.
  intros H1 H2 Hs Hr. unfold intersects, isSubset, gar_contains. rewrite H1, H2. simpl.
  destruct (Z.eqb_spec (gar_guestID r) (gar_guestID self)) as [E|E]; simpl.
  - split.
    + split.
      * intros [= [?%Z.leb_le ?%Z.leb_le]%andb_true_iff].
        exists (Z.max (gar_start self) (gar_start r)), (gar_guestID self). rewrite E, Z.eqb_refl. simpl.
        rewrite !andb_true_r, !andb_true_iff, !Z.leb_le. lia.
      * intros (a & g & Ha & Hb). destruct (gar_guestID self =? g); [|done]. rewrite E in Hb.
        destruct (gar_guestID self =? g); [|done]. simpl in *.
        rewrite andb_true_r, andb_true_iff, !Z.leb_le in Ha, Hb.
        f_equal. rewrite andb_true_iff, !Z.leb_le. lia.
    + split.
      * intros [= [?%Z.leb_le ?%Z.leb_le]%andb_true_iff] a g. rewrite E.
        destruct (gar_guestID self =? g); [|done]. simpl.
        rewrite !andb_true_r, !andb_true_iff, !Z.leb_le. lia.
      * intros Hall. f_equal. rewrite andb_true_iff, !Z.leb_le.
        pose proof (Hall (gar_start self) (gar_guestID self)) as Hlo.
        pose proof (Hall (gar_end self) (gar_guestID self)) as Hup.
        rewrite E, Z.eqb_refl in Hlo, Hup. simpl in *.
        rewrite !andb_true_r, !andb_true_iff, !Z.leb_le in Hlo, Hup. lia.
  - split; split; try done.
    + intros (a & g & Ha & Hb).
      destruct (Z.eqb_spec (gar_guestID self) g), (Z.eqb_spec (gar_guestID r) g); simpl in *; congruence.
    + intros Hall. specialize (Hall (gar_start self) (gar_guestID self)).
      rewrite Z.eqb_refl in Hall. simpl in Hall.
      rewrite andb_true_r, andb_true_iff, !Z.leb_le in Hall.
      destruct (Z.eqb_spec (gar_guestID r) (gar_guestID self)); [done|].
      simpl in Hall. discriminate Hall. lia.
Qed.

Lemma range_set_semantics_witness :
  isSubset (RangeSize 0x1000 0x100 3) (RangeIn 0 0xFFFF 3) = Ok true ∧
  gar_contains (RangeIn 0 0xFFFF 3) 0x1080 3 = true.
Proof.
  split; [reflexivity|].
  apply (proj2 (range_set_semantics (RangeSize 0x1000 0x100 3) (RangeIn 0 0xFFFF 3)
           eq_refl eq_refl ltac:(vm_compute; discriminate) ltac:(vm_compute; discriminate)));
    reflexivity.
Defined.
