(* ===== verification/AddrMapper.v ===== *)
(** * The address mapper in front of a memory or an I/O bus

    [src/pardg5-v/hyper/mem/addr_mapper.cc] and [.hh]: [PARDg5VAddrMapper]
    (packet handling) and [PARDg5VRangeAddrMapper] (translation through the
    logical-domain TLB).  The peers behind the two ports are arguments: a peer
    receives the packet and hands it back, possibly changed. *)

From S2P Require Import Prelude BaseLib Packet GuestAddr.
Local Open Scope Z_scope.

(** The peers of the master and of the slave port. *)
Definition TimingPeer : Type := Packet → bool * Packet.
Definition AtomicPeer (M : Type) : Type := M → Packet → result (M * Z * Packet).
Definition FunctionalPeer (M : Type) : Type := M → Packet → result (M * Packet).

(** A timing peer that refuses a packet does not touch it: what a slave port
    promises to the master that has to send the packet again. *)
Class CleanRefusal (peer : TimingPeer) : Prop :=
  clean_refusal : ∀ p p', peer p = (false, p') → p' = p.

(** An atomic peer keeps the validity flags of the packet it serves. *)
Class KeepsValid {M : Type} (peer : AtomicPeer M) : Prop :=
  keeps_valid : ∀ st p st' t q, pkt_wf p → peer st p = Ok (st', t, q) → pkt_wf q.

Record AddrMapper : Type := mkAddrMapper {
  am_tlb : list LDomAddrTLBEntry;
  am_pendingDelete : list Packet;
  am_bytesRead : list Z;
  am_bytesWritten : list Z
}.
#[export] Instance eta_AddrMapper : Eta AddrMapper := λ m,
  mkAddrMapper (am_tlb m) (am_pendingDelete m) (am_bytesRead m) (am_bytesWritten m).

(** [PARDg5VRangeAddrMapper::PARDg5VRangeAddrMapper]: the TLB is filled from
    the two parameter lists. *)
Fixpoint build_tlb (orig remapped : list GuestAddrRange) (tlb : list LDomAddrTLBEntry)
  : result (list LDomAddrTLBEntry) :=
  match orig, remapped with
  | o :: os, r :: rs =>
      fatal_if (negb (gar_size o =? gar_size r)) ;;
      e ← LDomAddrTLBEntry_make o r;
      build_tlb os rs (tlb_push_back tlb e)
  | _, _ => Ok tlb
  end.

Definition RangeAddrMapper_make (orig remapped : list GuestAddrRange) : result AddrMapper :=
  fatal_if (negb (Nat.eqb (length orig) (length remapped))) ;;
  tlb ← build_tlb orig remapped [];
  Ok (mkAddrMapper tlb [] (replicate 4 0) (replicate 4 0)).

Definition am_remapAddr (m : AddrMapper) (addr guestID : Z) : Z :=
  tlb_remapAddr (am_tlb m) guestID addr.

(** The traffic counters, shared by [recvAtomic] and [recvTimingReq]. *)
Definition count_bytes (m : AddrMapper) (p : Packet) : result AddrMapper :=
  m ← (if pkt_isRead p then
         g ← PKT_TO_GUESTID p; n ← getSize p;
         v ← stat_add (am_bytesRead m) g n; Ok (m <| am_bytesRead := v |>)
       else Ok m);
  if pkt_isWrite p then
    g ← PKT_TO_GUESTID p; n ← getSize p;
    v ← stat_add (am_bytesWritten m) g n; Ok (m <| am_bytesWritten := v |>)
  else Ok m.

(** [recvFunctional] and [recvFunctionalSnoop]: they differ in the port used;
    the peer has a state of its own. *)
Definition recvFunctional {M : Type} (m : AddrMapper) (peer : FunctionalPeer M) (st : M) (p : Packet)
  : result (M * Packet) :=
  orig_addr ← getAddr p;
  g ← PKT_TO_GUESTID p;
  p ← setAddr p (am_remapAddr m orig_addr g);
  '(st, p) ← peer st p;
  p ← setAddr p orig_addr;
  Ok (st, p).

(** [recvAtomicSnoop]. *)
Definition recvAtomicSnoop {M : Type} (m : AddrMapper) (peer : AtomicPeer M) (st : M) (p : Packet)
  : result (M * Z * Packet) :=
  orig_addr ← getAddr p;
  g ← PKT_TO_GUESTID p;
  p ← setAddr p (am_remapAddr m orig_addr g);
  '(st, ret_tick, p) ← peer st p;
  p ← setAddr p orig_addr;
  Ok (st, ret_tick, p).

Definition recvAtomic {M : Type} (m : AddrMapper) (peer : AtomicPeer M) (st : M) (p : Packet)
  : result (AddrMapper * M * Z * Packet) :=
  orig_addr ← getAddr p;
  m ← count_bytes m p;
  g ← PKT_TO_GUESTID p;
  p ← setAddr p (am_remapAddr m orig_addr g);
  '(st, ret_tick, p) ← peer st p;
  p ← setAddr p orig_addr;
  Ok (m, st, ret_tick, p).

Definition zero_delays (p : Packet) : Packet :=
  p <| pkt_busFirstWordDelay := 0 |> <| pkt_busLastWordDelay := 0 |>.

Definition recvTimingReq (m : AddrMapper) (peer : TimingPeer) (p : Packet)
  : result (AddrMapper * bool * Packet) :=
  let m := m <| am_pendingDelete := [] |> in
  if memInhibitAsserted p then
    Ok (m <| am_pendingDelete := [p] |>, true, p)
  else
  assertb (negb (isExpressSnoop p)) ;;
  orig_addr ← getAddr p;
  let needsResponse := pkt_needsResponse p in
  let memInhibit := memInhibitAsserted p in
  m ← count_bytes m p;
  let p := if needsResponse && negb memInhibit
           then pushSenderState p (SSAddrMapper orig_addr) else p in
  g ← PKT_TO_GUESTID p;
  p ← setAddr p (am_remapAddr m orig_addr g);
  let p := zero_delays p in
  let '(successful, p) := peer p in
  if negb successful && needsResponse then
    '(_, p) ← popSenderState p; Ok (m, successful, p)
  else Ok (m, successful, p).

Definition recvTimingResp (peer : TimingPeer) (p : Packet) : result (bool * Packet) :=
  match pkt_senderState p with
  | SSAddrMapper origAddr :: predecessor =>
      remapped_addr ← getAddr p;
      let p0 := p <| pkt_senderState := predecessor |> in
      p1 ← setAddr p0 origAddr;
      let p2 := zero_delays p1 in
      let '(successful, p3) := peer p2 in
      if successful then Ok (true, p3)
      else
        let p4 := p3 <| pkt_senderState := SSAddrMapper origAddr :: predecessor |> in
        p5 ← setAddr p4 remapped_addr;
        Ok (false, p5)
  | _ => Err PanicCalled
  end.

(** [isSnooping]: a snooping peer on the slave side is refused. *)
Definition am_isSnooping (slave_isSnooping : bool) : result bool :=
  fatal_if slave_isSnooping ;; Ok false.

(** The control-plane accessors of the range mapper are stubs in the source. *)
Definition am_set (m : AddrMapper) (ldomID destAddr data : Z) : AddrMapper := m.
Definition am_get (m : AddrMapper) (ldomID destAddr : Z) : Z := 0xFFFF0000FFFF0000.

(** [query(tag, idx)], up to the text formatting of the entries: [None] is the
    answer ["INV"]. *)
Definition am_query (m : AddrMapper) (tag idx : Z) : option (list LDomAddrTLBEntry) :=
  if negb (idx =? 0) then None
  else Some (tlb_query (am_tlb m) (QOSTAG_TO_GUESTID tag) []).

(** ** Lemmas *)

Lemma count_bytes_ok m p :
  pkt_wf p → guest_of p < 4 → length (am_bytesRead m) = 4%nat → length (am_bytesWritten m) = 4%nat →
  ∃ m', count_bytes m p = Ok m' ∧ am_tlb m' = am_tlb m ∧ am_pendingDelete m' = am_pendingDelete m ∧
    length (am_bytesRead m') = 4%nat ∧ length (am_bytesWritten m') = 4%nat.
Proof.
  intros Hp Hg Hr Hw. unfold count_bytes. pose proof (guest_of_range p).
  rewrite !PKT_TO_GUESTID_wf, !getSize_wf by done. simpl.
  destruct (stat_add_ok (am_bytesRead m) (guest_of p) (pkt_size p) ltac:(lia)) as (v1 & E1 & L1).
  destruct (stat_add_ok (am_bytesWritten m) (guest_of p) (pkt_size p) ltac:(lia)) as (v2 & E2 & L2).
  destruct (pkt_isRead p); simpl; rewrite ?E1; simpl; destruct (pkt_isWrite p); simpl;
    rewrite ?E2; simpl; eexists; (split; [reflexivity|]); simpl; repeat split; congruence.
Qed.

Lemma zero_delays_wf p : pkt_wf p → pkt_wf (zero_delays p).
Proof. by apply pkt_wf_flags. Qed.

(** What the mapper forwards for a request it accepts to forward. *)
Definition forwarded (m : AddrMapper) (p : Packet) : Packet :=
  let p' := if pkt_needsResponse p then pushSenderState p (SSAddrMapper (pkt_addr p)) else p in
  zero_delays (p' <| pkt_addr := am_remapAddr m (pkt_addr p) (guest_of p) |>).

Lemma forwarded_wf m p : pkt_wf p → pkt_wf (forwarded m p).
Proof. apply pkt_wf_flags. unfold forwarded. by destruct (pkt_needsResponse p). Qed.

(** [recvTimingReq] on a packet that is neither inhibited nor an express snoop. *)
Lemma recvTimingReq_unfold m peer p :
  pkt_wf p → guest_of p < 4 → memInhibitAsserted p = false → isExpressSnoop p = false →
  length (am_bytesRead m) = 4%nat → length (am_bytesWritten m) = 4%nat →
  ∃ m', am_tlb m' = am_tlb m ∧ am_pendingDelete m' = [] ∧
    length (am_bytesRead m') = 4%nat ∧ length (am_bytesWritten m') = 4%nat ∧
    recvTimingReq m peer p =
      let '(ok, q) := peer (forwarded m p) in
      if negb ok && pkt_needsResponse p
      then '(_, q) ← popSenderState q; Ok (m', ok, q) else Ok (m', ok, q).
Proof.
  intros Hp Hg Hmi Hes Hr Hw.
  pose (m0 := m <| am_pendingDelete := [] |>).
  destruct (count_bytes_ok m0 p Hp Hg Hr Hw) as (m' & E & Ht & Hd & L1 & L2). subst m0.
  exists m'. simpl in *. repeat (split; [done|]).
  unfold recvTimingReq. rewrite Hmi, Hes. simpl. rewrite getAddr_wf by done. simpl. rewrite E. simpl.
  rewrite andb_true_r. unfold forwarded, am_remapAddr. rewrite Ht.
  destruct (pkt_needsResponse p); simpl;
    rewrite PKT_TO_GUESTID_wf by (by eapply pkt_wf_flags; [|exact Hp]); simpl;
    rewrite setAddr_wf by (by eapply pkt_wf_flags; [|exact Hp]); done.
Qed.

(** [build_tlb] appends one entry per pair to the entries it starts from. *)
Lemma build_tlb_gen orig remapped tlb tlb' :
  length orig = length remapped → build_tlb orig remapped tlb = Ok tlb' →
  length tlb' = (length tlb + length orig)%nat ∧
  (∀ i e, tlb !! i = Some e → tlb' !! i = Some e) ∧
  ∀ i o r, orig !! i = Some o → remapped !! i = Some r → gar_size o = gar_size r ∧
    tlb' !! (length tlb + i)%nat =
      Some (mkEntry (gar_guestID o) (gar_start o) (gar_size r) (gar_start r)).
Proof.
  revert remapped tlb. induction orig as [|o os IH]; intros [|r rs] tlb Hlen Hb; try done; simpl in Hb.
  - injection Hb as <-. simpl. split; [lia|]. split; [done|]. intros i o r Hi. done.
  - inv_ok. unfold LDomAddrTLBEntry_make in E0. inv_ok. apply negb_false_iff, Z.eqb_eq in E.
    destruct (IH rs _ ltac:(simpl in Hlen; lia) Hb) as (L & P & Q).
    unfold tlb_push_back in *. rewrite length_app in L. simpl in *. split; [lia|]. split.
    + intros i e Hi. apply P. by apply lookup_app_l_Some.
    + intros [|i] o' r' Ho Hr'; simplify_eq/=.
      * split; [done|]. rewrite Nat.add_0_r. apply P. rewrite lookup_app_r, Nat.sub_diag by lia.
        simpl. congruence.
      * destruct (Q i o' r' Ho Hr') as [? Hq]. split; [done|]. rewrite length_app in Hq. simpl in Hq.
        by replace (length tlb + S i)%nat with (length tlb + 1 + i)%nat by lia.
Qed.

(** ** Properties *)

(** An atomic access is transparent to the requester: the peer sees the
    packet with the translated address of the packet's own guest and the
    requester gets the peer's packet back under the original address. *)
Lemma recvAtomic_transparent {M} (m : AddrMapper) (peer : AtomicPeer M) `{!KeepsValid peer} (st : M) (p : Packet) :
  pkt_wf p → guest_of p < 4 →
  length (am_bytesRead m) = 4%nat → length (am_bytesWritten m) = 4%nat →
  ∃ m', am_tlb m' = am_tlb m ∧ length (am_bytesRead m') = 4%nat ∧ length (am_bytesWritten m') = 4%nat ∧
    recvAtomic m peer st p =
      ('(st', t, q) ← peer st (p <| pkt_addr := tlb_remapAddr (am_tlb m) (guest_of p) (pkt_addr p) |>);
       Ok (m', st', t, q <| pkt_addr := pkt_addr p |>)).
Proof.
  intros Hp Hg Hr Hw. destruct (count_bytes_ok m p Hp Hg Hr Hw) as (m' & E & Ht & _ & L1 & L2).
  exists m'. split; [done|]. split; [done|]. split; [done|]. unfold recvAtomic, am_remapAddr.
  rewrite getAddr_wf by done. cbn [mbind result_bind]. rewrite E. cbn [mbind result_bind]. rewrite PKT_TO_GUESTID_wf by done.
  cbn [mbind result_bind]. rewrite setAddr_wf by done. cbn [mbind result_bind]. rewrite Ht.
  destruct (peer st _) as [[[st' t] q]|] eqn:Hq; cbn [mbind result_bind]; [|done].
  by rewrite setAddr_wf by (by eapply (keeps_valid st); [|exact Hq]).
Qed.

Definition demo_request : Request := mkRequest 0x1000 64 0 0 0 0 0 1.
Definition demo_packet (c : MemCmd) : Packet :=
  mkPacket 0xB00 c demo_request None 1 0x1000 false 64 5 InvalidPortID InvalidCmd 0 0 7 9 [SSOther 0].
Definition demo_mapper : AddrMapper := mkAddrMapper demo_tlb [] (replicate 4 0) (replicate 4 0).

(** C22: round trip of a timing access: when a forwarded request that needs a
    response is accepted, a response that carries the sender states of the
    forwarded packet leaves the mapper under the original address with the
    requester's own sender states on top. *)
Theorem timing_roundtrip (m : AddrMapper) (peer up : TimingPeer) (p resp : Packet) :
  pkt_wf p → guest_of p < 4 → memInhibitAsserted p = false → isExpressSnoop p = false →
  length (am_bytesRead m) = 4%nat → length (am_bytesWritten m) = 4%nat →
  pkt_needsResponse p = true → pkt_wf resp →
  (peer (forwarded m p)).1 = true →
  pkt_senderState resp = pkt_senderState (forwarded m p) →
  (∃ m', recvTimingReq m peer p = Ok (m', true, (peer (forwarded m p)).2)) ∧
  ∃ q, pkt_addr q = pkt_addr p ∧ pkt_senderState q = pkt_senderState p ∧
    pkt_cmd q = pkt_cmd resp ∧ pkt_data q = pkt_data resp ∧
    ((up q).1 = true → recvTimingResp up resp = Ok (true, (up q).2)).
Proof.
  intros Hp Hg Hmi Hes Hr Hw Hn Hresp Hacc Hss. split.
  - destruct (recvTimingReq_unfold m peer p Hp Hg Hmi Hes Hr Hw) as (m' & _ & _ & _ & _ & ->).
    exists m'. destruct (peer (forwarded m p)) as [ok q]. simpl in *. by subst ok.
  - unfold recvTimingResp. rewrite Hss. unfold forwarded. rewrite Hn. simpl.
    rewrite getAddr_wf by done. simpl.
    rewrite setAddr_wf by (by eapply pkt_wf_flags; [|exact Hresp]). simpl.
    match goal with |- context [up ?q] => exists q end. repeat (split; [reflexivity|]).
    destruct (up _) as [ok q]. simpl. by intros ->.
Qed.

Lemma timing_roundtrip_witness :
  ∃ q, pkt_addr q = 0x1000 ∧ pkt_senderState q = [SSOther 0] ∧ pkt_cmd q = ReadReq ∧
    pkt_data q = None ∧
    (true = true →
     recvTimingResp (λ q, (true, q)) (forwarded demo_mapper (demo_packet ReadReq)) = Ok (true, q)).
Proof.
  apply (timing_roundtrip demo_mapper (λ q, (true, q)) (λ q, (true, q)) (demo_packet ReadReq)
           (forwarded demo_mapper (demo_packet ReadReq))); vm_compute; auto.
Defined.

(** A response the requester refuses is left as it arrived, but for the bus
    delays the mapper zeroes, so the downstream side can send it again. *)
Theorem refused_response_restored (up : TimingPeer) `{!CleanRefusal up} (resp : Packet) (a : Z)
    (st : list SenderState) :
  pkt_wf resp → pkt_senderState resp = SSAddrMapper a :: st →
  (up (zero_delays (resp <| pkt_senderState := st |> <| pkt_addr := a |>))).1 = false →
  recvTimingResp up resp = Ok (false, zero_delays resp).
Proof.
  intros Hw Hst Href. unfold recvTimingResp. rewrite Hst, getAddr_wf by done. simpl.
  rewrite setAddr_wf by (by eapply pkt_wf_flags; [|exact Hw]). simpl.
  destruct (up _) as [ok q] eqn:E. simpl in Href. subst ok.
  apply clean_refusal in E. subst q. rewrite setAddr_wf by (by eapply pkt_wf_flags; [|exact Hw]).
  simpl. f_equal. f_equal. unfold zero_delays. rewrite <-Hst. by destruct resp.
Qed.

#[local] Instance refuse_all : CleanRefusal (λ p, (false, p)).
Proof. intros p p' H. injection H as <-. reflexivity. Defined.

Lemma refused_response_restored_witness :
  recvTimingResp (λ p, (false, p)) (forwarded demo_mapper (demo_packet ReadReq)) =
  Ok (false, zero_delays (forwarded demo_mapper (demo_packet ReadReq))).
Proof.
  apply (refused_response_restored (λ p, (false, p)) _ 0x1000 [SSOther 0]); vm_compute; auto.
Defined.

(** A request the memory side refuses comes back with the translated
    address, not the original one: its sender states are restored, its address
    is not, and sending it again translates it twice. *)
Theorem refused_request_retranslated (m : AddrMapper) (peer : TimingPeer) `{!CleanRefusal peer}
    (p : Packet) :
  pkt_wf p → guest_of p < 4 → memInhibitAsserted p = false → isExpressSnoop p = false →
  length (am_bytesRead m) = 4%nat → length (am_bytesWritten m) = 4%nat →
  (peer (forwarded m p)).1 = false →
  ∃ m' q, recvTimingReq m peer p = Ok (m', false, q) ∧
    pkt_senderState q = pkt_senderState p ∧
    pkt_addr q = am_remapAddr m (pkt_addr p) (guest_of p) ∧
    pkt_addr (forwarded m' q) =
      am_remapAddr m (am_remapAddr m (pkt_addr p) (guest_of p)) (guest_of p).
Proof.
  intros Hp Hg Hmi Hes Hr Hw Href.
  destruct (recvTimingReq_unfold m peer p Hp Hg Hmi Hes Hr Hw) as (m' & Ht & _ & _ & _ & ->).
  exists m'. destruct (peer (forwarded m p)) as [ok q] eqn:E. simpl in Href. subst ok.
  apply clean_refusal in E. subst q. unfold forwarded, am_remapAddr. rewrite Ht.
  destruct (pkt_needsResponse p) eqn:Hn; simpl; eexists; (split; [reflexivity|]);
    unfold pkt_needsResponse in *; simpl in *; rewrite ?Hn; simpl; auto.
Qed.

(** A domain whose machine memory overlaps its guest range: the retried access
    lands outside the domain's first 512 MB. *)
Definition shifted_mapper : AddrMapper :=
  mkAddrMapper [mkEntry 1 0 0x20000000 0x10000000] [] (replicate 4 0) (replicate 4 0).

Lemma refused_request_retranslated_witness :
  ∃ m' q, recvTimingReq shifted_mapper (λ p, (false, p)) (demo_packet ReadReq) = Ok (m', false, q) ∧
    pkt_senderState q = [SSOther 0] ∧ pkt_addr q = 0x10001000 ∧
    pkt_addr (forwarded m' q) = 0x20001000.
Proof.
  apply (refused_request_retranslated shifted_mapper (λ p, (false, p)) (demo_packet ReadReq));
    vm_compute; auto.
Defined.

(** Construction: the range mapper holds one entry per pair of parameter
    ranges, in order, each of the size both ranges have; a mismatch of lengths
    or of sizes is fatal, so it gives no mapper. *)
Theorem build_tlb_spec (orig remapped : list GuestAddrRange) (m : AddrMapper) :
  RangeAddrMapper_make orig remapped = Ok m →
  length (am_tlb m) = length orig ∧
  ∀ i o r, orig !! i = Some o → remapped !! i = Some r →
    gar_size o = gar_size r ∧
    am_tlb m !! i = Some (mkEntry (gar_guestID o) (gar_start o) (gar_size r) (gar_start r)).
Proof.
  unfold RangeAddrMapper_make. intros H. inv_ok. simpl. apply negb_false_iff, Nat.eqb_eq in E.
  destruct (build_tlb_gen orig remapped [] a0 E E0) as (L & _ & Q). split; [done | exact Q].
Qed.

Lemma build_tlb_spec_witness :
  ∃ m, RangeAddrMapper_make [RangeSize 0 0x1000 0] [RangeSize 0x8000 0x1000 0] = Ok m ∧
    length (am_tlb m) = 1%nat.
Proof.
  eexists. split; [reflexivity|].
  apply (build_tlb_spec [RangeSize 0 0x1000 0] [RangeSize 0x8000 0x1000 0]). reflexivity.
Defined.
