(* ===== verification/PhysMem.v ===== *)
(** * Physical memory

    [AbstractMemory] of [src/gem5-pard/src/mem/abstract_mem.cc] and [.hh] (the
    memory behind the address mapper) with a real backing store: atomic and
    functional accesses, and the list of addresses locked by load-locked
    operations.  Printing and tracing are not modelled. *)

From S2P Require Import Prelude BaseLib Packet.
Local Open Scope Z_scope.

(** ** Locked addresses *)

Record LockedAddr : Type := mkLocked { la_addr : Z; la_contextId : Z }.
#[export] Instance LockedAddr_eq_dec : EqDecision LockedAddr.
Proof. solve_decision. Defined.

Definition locked_mask (paddr : Z) : Z := Z.land paddr (Z.lnot 0xF).
Definition LockedAddr_make (req : Request) : LockedAddr := mkLocked (locked_mask (req_paddr req)) (req_contextId req).
Definition locked_matchesContext (i : LockedAddr) (req : Request) : bool := la_contextId i =? req_contextId req.

(** The search of [trackLoadLocked]: the first record of the context gets the
    new address; [None] when the context has none. *)
Fixpoint modify_record (l : list LockedAddr) (req : Request) : option (list LockedAddr) :=
  match l with
  | [] => None
  | i :: l =>
      if locked_matchesContext i req then Some (mkLocked (locked_mask (req_paddr req)) (la_contextId i) :: l)
      else l ← modify_record l req; Some (i :: l)
  end.
Definition mem_trackLoadLocked (l : list LockedAddr) (p : Packet) : list LockedAddr :=
  match modify_record l (pkt_req p) with
  | Some l => l
  | None => LockedAddr_make (pkt_req p) :: l
  end.

(** The first loop of [checkLockedAddrList], for a store conditional. *)
Fixpoint find_record (l : list LockedAddr) (paddr : Z) (req : Request) : bool :=
  match l with
  | [] => false
  | i :: l => if (la_addr i =? paddr) && locked_matchesContext i req then true else find_record l paddr req
  end.

(** The second loop: the records that stay, and the contexts that are woken. *)
Fixpoint erase_records (l : list LockedAddr) (paddr : Z) : list LockedAddr * list Z :=
  match l with
  | [] => ([], [])
  | i :: l =>
      let '(keep, woken) := erase_records l paddr in
      if la_addr i =? paddr then (keep, la_contextId i :: woken) else (i :: keep, woken)
  end.

Definition setExtraData (p : Packet) (v : Z) : Packet := p <| pkt_req := (pkt_req p) <| req_extraData := v |> |>.

(** Records, packet, result and woken contexts. *)
Definition checkLockedAddrList (l : list LockedAddr) (p : Packet) : list LockedAddr * Packet * bool * list Z :=
  let paddr := locked_mask (req_paddr (pkt_req p)) in
  let isLLSC := pkt_isLLSC p in
  let '(p, allowStore) :=
    if isLLSC then
      let found := find_record l paddr (pkt_req p) in
      (setExtraData p (if found then 1 else 0), found)
    else (p, true) in
  if allowStore : bool then
    let '(l, woken) := erase_records l paddr in (l, p, true, woken)
  else (l, p, false, []).

Definition writeOK (l : list LockedAddr) (p : Packet) : list LockedAddr * Packet * bool * list Z :=
  match l with
  | [] =>
      let isLLSC := pkt_isLLSC p in
      ([], if isLLSC then setExtraData p 0 else p, negb isLLSC, [])
  | _ => checkLockedAddrList l p
  end.

(** ** The memory *)

(** [mem_start] is the start of [range]; the statistics have an entry per
    master. *)
Record AbstractMemory : Type := mkMem {
  mem_start : Z;
  mem_data : list Z;
  mem_locked : list LockedAddr;
  mem_bytesRead : list Z;
  mem_bytesInstRead : list Z;
  mem_bytesWritten : list Z;
  mem_numReads : list Z;
  mem_numWrites : list Z;
  mem_numOther : list Z
}.
#[export] Instance eta_AbstractMemory : Eta AbstractMemory := λ m,
  mkMem (mem_start m) (mem_data m) (mem_locked m) (mem_bytesRead m) (mem_bytesInstRead m) (mem_bytesWritten m)
    (mem_numReads m) (mem_numWrites m) (mem_numOther m).

(** [AddrRange(addr, addr + size - 1).isSubset(range)]. *)
Definition in_range (start : Z) (data : list Z) (addr size : Z) : bool :=
  (start <=? addr) && (wrap 64 (addr + size - 1) <=? start + Z.of_nat (length data) - 1).

(** [SwapReq]: the bytes of the memory and the packet. *)
Definition mem_swap (data : list Z) (off : Z) (p : Packet) : result (list Z * Packet) :=
  size ← getSize p;
  assertb (size <=? 8) ;;
  overwrite_val ← writeData p (replicate 8 0) 0;
  p ← setData p data off;
  let n := Z.to_nat size in
  overwrite_mem ←
    (if req_isCondSwap (pkt_req p) then
       if size =? 8 then Ok (bool_decide (le_split 8 (req_extraData (pkt_req p)) = slice data (Z.to_nat off) 8))
       else if size =? 4 then Ok (bool_decide (le_split 4 (req_extraData (pkt_req p)) = slice data (Z.to_nat off) 4))
       else Err PanicCalled
     else Ok true);
  Ok (if overwrite_mem : bool then splice data (Z.to_nat off) (take n overwrite_val) else data, p).

Definition mem_serve (m : AbstractMemory) (p : Packet) : result (AbstractMemory * Packet * list Z) :=
  addr ← getAddr p;
  size ← getSize p;
  let off := addr - mem_start m in
  let mid := req_masterId (pkt_req p) in
  if decide (pkt_cmd p = SwapReq) then
    '(data, p) ← mem_swap (mem_data m) off p;
    assertb (negb (req_isInstFetch (pkt_req p))) ;;
    other ← stat_add (mem_numOther m) mid 1;
    Ok (m <| mem_data := data |> <| mem_numOther := other |>, p, [])
  else if pkt_isRead p then
    assertb (negb (pkt_isWrite p)) ;;
    let m := if pkt_isLLSC p then m <| mem_locked := mem_trackLoadLocked (mem_locked m) p |> else m in
    p ← setData p (mem_data m) off;
    reads ← stat_add (mem_numReads m) mid 1;
    bytes ← stat_add (mem_bytesRead m) mid size;
    insts ← (if req_isInstFetch (pkt_req p) then stat_add (mem_bytesInstRead m) mid size else Ok (mem_bytesInstRead m));
    Ok (m <| mem_numReads := reads |> <| mem_bytesRead := bytes |> <| mem_bytesInstRead := insts |>, p, [])
  else if pkt_isWrite p then
    let '(locked, p, ok, woken) := writeOK (mem_locked m) p in
    let m := m <| mem_locked := locked |> in
    if ok : bool then
      data ← writeData p (mem_data m) off;
      assertb (negb (req_isInstFetch (pkt_req p))) ;;
      writes ← stat_add (mem_numWrites m) mid 1;
      bytes ← stat_add (mem_bytesWritten m) mid size;
      Ok (m <| mem_data := data |> <| mem_numWrites := writes |> <| mem_bytesWritten := bytes |>, p, woken)
    else Ok (m, p, woken)
  else if pkt_isInvalidate p then Ok (m, p, [])
  else Err PanicCalled.

(** [access]: memory, packet and woken contexts. *)
Definition mem_access (m : AbstractMemory) (p : Packet) : result (AbstractMemory * Packet * list Z) :=
  addr ← getAddr p;
  size ← getSize p;
  assertb (in_range (mem_start m) (mem_data m) addr size) ;;
  if memInhibitAsserted p then Ok (m, p, [])
  else
    '(m, p, woken) ← mem_serve m p;
    if pkt_needsResponse p then p ← makeResponse p; Ok (m, p, woken) else Ok (m, p, woken).

(** [functionalAccess] on the bytes of a memory that starts at [start]; a print
    request only writes to its stream. *)
Definition functionalAccess (start : Z) (pmem : list Z) (p : Packet) : result (list Z * Packet) :=
  addr ← getAddr p;
  size ← getSize p;
  assertb (in_range start pmem addr size) ;;
  if pkt_isRead p then
    p ← setData p pmem (addr - start);
    p ← makeResponse p;
    Ok (pmem, p)
  else if pkt_isWrite p then
    pmem ← writeData p pmem (addr - start);
    p ← makeResponse p;
    Ok (pmem, p)
  else if pkt_isPrint p then
    match pkt_senderState p with SSPrint :: _ => Ok (pmem, p) | _ => Err AssertFail end
  else Err PanicCalled.

(** [SimpleMemory::recvAtomic] with the latency [getLatency()]. *)
Definition simple_recvAtomic (latency : Z) (m : AbstractMemory) (p : Packet) : result (AbstractMemory * Z * Packet) :=
  '(m, p, _) ← mem_access m p;
  Ok (m, if memInhibitAsserted p then 0 else latency, p).

(** ** Reservations

    The abstract view of the locked addresses: a context reserves at most one
    line of 16 bytes. *)

Definition spec_load_locked (r : gmap Z Z) (ctx line : Z) : gmap Z Z := <[ctx := line]> r.
Definition spec_store (r : gmap Z Z) (line : Z) : gmap Z Z := filter (λ cl, cl.2 ≠ line) r.
Definition spec_store_cond (r : gmap Z Z) (ctx line : Z) : gmap Z Z * bool :=
  if decide (r !! ctx = Some line) then (spec_store r line, true) else (r, false).

Definition reservations (l : list LockedAddr) : gmap Z Z := list_to_map ((λ i, (la_contextId i, la_addr i)) <$> l).
(** A context has one record. *)
Definition locked_wf (l : list LockedAddr) : Prop := NoDup (la_contextId <$> l).

Lemma reservations_lookup l c a :
  locked_wf l → reservations l !! c = Some a ↔ mkLocked a c ∈ l.
Proof.
  intros W. unfold reservations. rewrite <-elem_of_list_to_map.
  - rewrite list_elem_of_fmap. split; [intros ([a' c'] & [= -> ->] & Hi)|intros Hi; by exists (mkLocked a c)]. done.
  - by rewrite <-list_fmap_compose.
Qed.

Lemma modify_record_None l req : modify_record l req = None → req_contextId req ∉ (la_contextId <$> l).
Proof.
  induction l as [|i l IH]; cbn [modify_record fmap list_fmap]; [intros _; apply not_elem_of_nil|].
  unfold locked_matchesContext. destruct (Z.eqb_spec (la_contextId i) (req_contextId req)) as [|Hne]; [done|].
  destruct (modify_record l req); cbn; [done|]. intros _. apply not_elem_of_cons. split; [congruence|by apply IH].
Qed.

Lemma modify_record_Some l req l' :
  modify_record l req = Some l' → (la_contextId <$> l') = (la_contextId <$> l) ∧
  (locked_wf l → reservations l' = <[req_contextId req := locked_mask (req_paddr req)]> (reservations l)).
Proof.
  revert l'. induction l as [|i l IH]; intros l'; cbn [modify_record]; [done|].
  unfold locked_matchesContext. destruct (Z.eqb_spec (la_contextId i) (req_contextId req)) as [He|Hne].
  - intros [= <-]. split; [done|]. intros W. unfold reservations. cbn. by rewrite He, insert_insert_eq.
  - destruct (modify_record l req) as [l1|] eqn:Hm; cbn; [|done]. intros [= <-]. destruct (IH l1 eq_refl) as [H1 H2].
    split; [by cbn; rewrite H1|]. intros [_ W]%NoDup_cons. unfold reservations in *. cbn. rewrite H2 by done.
    by rewrite insert_insert_ne.
Qed.

Lemma track_refines l p :
  locked_wf l → locked_wf (mem_trackLoadLocked l p) ∧
  reservations (mem_trackLoadLocked l p) =
    spec_load_locked (reservations l) (req_contextId (pkt_req p)) (locked_mask (req_paddr (pkt_req p))).
Proof.
  intros W. unfold mem_trackLoadLocked. destruct (modify_record l (pkt_req p)) as [l'|] eqn:Hm.
  - destruct (modify_record_Some _ _ _ Hm) as [H1 H2]. unfold locked_wf in *. rewrite H1. split; [done|by apply H2].
  - apply modify_record_None in Hm. split; [by apply NoDup_cons|done].
Qed.

Lemma find_record_spec l a req :
  locked_wf l → find_record l a req = bool_decide (reservations l !! req_contextId req = Some a).
Proof.
  intros W. apply eq_true_iff_eq. rewrite bool_decide_eq_true, reservations_lookup by done. clear W.
  induction l as [|i l IH]; cbn [find_record]; [split; [done|by intros ?%elem_of_nil]|].
  rewrite elem_of_cons. unfold locked_matchesContext. destruct i as [b c]. cbn [la_addr la_contextId].
  destruct (Z.eqb_spec b a) as [Ha|Ha], (Z.eqb_spec c (req_contextId req)) as [Hc|Hc]; cbn [andb]; rewrite ?IH;
    [split; [intros _; left; congruence|done]|..]; (split; [by right|intros [[= Hx1 Hx2]|Hx]; [congruence|done]]).
Qed.

Lemma erase_records_spec l a :
  erase_records l a = (filter (λ i, la_addr i ≠ a) l, la_contextId <$> filter (λ i, la_addr i = a) l).
Proof.
  induction l as [|i l IH]; cbn [erase_records]; [done|]. rewrite IH, !filter_cons.
  destruct (Z.eqb_spec (la_addr i) a) as [He|Hne].
  - rewrite decide_False by (intros Hx; by apply Hx). by rewrite decide_True.
  - by rewrite decide_True, decide_False.
Qed.

Lemma locked_wf_filter (P : LockedAddr → Prop) `{!∀ i, Decision (P i)} l : locked_wf l → locked_wf (filter P l).
Proof. intros W. apply (sublist_NoDup _ _ W), fmap_sublist, sublist_filter. Qed.

Lemma erase_refines l a :
  locked_wf l → reservations (filter (λ i, la_addr i ≠ a) l) = spec_store (reservations l) a.
Proof.
  intros W. apply map_eq. intros c. apply option_eq. intros b. unfold spec_store.
  rewrite map_lookup_filter_Some, !reservations_lookup by (done || by apply locked_wf_filter).
  rewrite list_elem_of_filter. cbn. naive_solver.
Qed.

Lemma writeOK_refines l p l' p' ok woken :
  locked_wf l → writeOK l p = (l', p', ok, woken) →
  let r := reservations l in
  let ctx := req_contextId (pkt_req p) in
  let line := locked_mask (req_paddr (pkt_req p)) in
  locked_wf l' ∧
  (if pkt_isLLSC p
   then (reservations l', ok) = spec_store_cond r ctx line ∧ p' = setExtraData p (if ok then 1 else 0)
   else ok = true ∧ p' = p ∧ reservations l' = spec_store r line) ∧
  (∀ c, c ∈ woken ↔ ok = true ∧ r !! c = Some line).
Proof.
  intros W Hw r ctx line.
  assert (checkLockedAddrList l p = (l', p', ok, woken)) as Hc.
  { destruct l; [|done]. rewrite <-Hw. unfold writeOK, checkLockedAddrList. cbn. by destruct (pkt_isLLSC p). }
  clear Hw. unfold checkLockedAddrList in Hc. rewrite erase_records_spec, find_record_spec in Hc by done.
  fold r ctx line in Hc.
  assert (∀ c, c ∈ (la_contextId <$> filter (λ i, la_addr i = line) l) ↔ r !! c = Some line) as Hwk.
  { intros c. subst r. rewrite reservations_lookup by done. rewrite list_elem_of_fmap. setoid_rewrite list_elem_of_filter.
    split; [intros (i & -> & Ha & Hi)|intros Hi; by exists (mkLocked line c)]. destruct i. cbn in *. by subst. }
  unfold spec_store_cond. destruct (pkt_isLLSC p); [|injection Hc as <- <- <- <-].
  - case_bool_decide as Hr; injection Hc as <- <- <- <-.
    + split; [by apply locked_wf_filter|]. rewrite decide_True, erase_refines by done. split; [done|]. intros c. rewrite Hwk. naive_solver.
    + split; [done|]. rewrite decide_False by done. split; [done|]. intros c. rewrite elem_of_nil. naive_solver.
  - split; [by apply locked_wf_filter|]. rewrite erase_refines by done. split; [done|]. intros c. rewrite Hwk. naive_solver.
Qed.

(** ** Sequences of locked accesses *)

(** What an access does to the records; the result says that a store went
    through [writeOK].  A swap is no such store: it writes the memory without a
    look at the records. *)
Definition lock_step (l : list LockedAddr) (p : Packet) : list LockedAddr * bool :=
  if memInhibitAsserted p || bool_decide (pkt_cmd p = SwapReq) then (l, false)
  else if pkt_isRead p then (if pkt_isLLSC p then mem_trackLoadLocked l p else l, false)
  else if pkt_isWrite p then let '(l, _, ok, _) := writeOK l p in (l, ok)
  else (l, false).

(** A sequence of accesses to the memory, with the stores among them. *)
Definition plain_store (m : AbstractMemory) (p : Packet) : bool :=
  negb (memInhibitAsserted p) && negb (bool_decide (pkt_cmd p = SwapReq)) && negb (pkt_isRead p) && pkt_isWrite p &&
  (let '(_, _, ok, _) := writeOK (mem_locked m) p in ok).
Fixpoint mem_run (m : AbstractMemory) (ps : list Packet) : result (AbstractMemory * list bool) :=
  match ps with
  | [] => Ok (m, [])
  | p :: ps => '(m', _, _) ← mem_access m p; '(m', oks) ← mem_run m' ps; Ok (m', plain_store m p :: oks)
  end.

Definition line_of (p : Packet) : Z := locked_mask (req_paddr (pkt_req p)).
Definition load_locked (p : Packet) : Prop := pkt_isRead p = true ∧ pkt_isLLSC p = true.

(** Without a new load-locked of the context, its reservation of a line is lost
    exactly by a store to the line. *)
Lemma lock_step_reservation l p ctx line :
  locked_wf l → (load_locked p → req_contextId (pkt_req p) ≠ ctx) →
  let '(l', ok) := lock_step l p in
  locked_wf l' ∧
  (reservations l' !! ctx = Some line ↔ reservations l !! ctx = Some line ∧ ¬ (ok = true ∧ line_of p = line)).
Proof.
  intros W Hll. unfold lock_step. destruct (memInhibitAsserted p || _); [split; [done|naive_solver]|]. destruct (pkt_isRead p) eqn:Hr.
  - destruct (pkt_isLLSC p) eqn:Hs; [|split; [done|naive_solver]].
    destruct (track_refines l p W) as [W' ->]. split; [done|]. unfold spec_load_locked.
    rewrite lookup_insert_ne by (by apply Hll). naive_solver.
  - destruct (pkt_isWrite p); [|split; [done|naive_solver]].
    destruct (writeOK l p) as [[[l' p'] ok] woken] eqn:Hw. destruct (writeOK_refines _ _ _ _ _ _ W Hw) as (W' & Hx & _).
    split; [done|]. unfold line_of, spec_store_cond, spec_store in *. destruct (pkt_isLLSC p).
    + destruct Hx as [Hx _]. case_decide; injection Hx as -> ->; [|naive_solver].
      rewrite map_lookup_filter_Some. cbn. naive_solver.
    + destruct Hx as (-> & _ & ->). rewrite map_lookup_filter_Some. cbn. naive_solver.
Qed.

(** [access] changes the records as [lock_step] says. *)
Lemma mem_serve_locks m p m' p' woken :
  memInhibitAsserted p = false → mem_serve m p = Ok (m', p', woken) → mem_locked m' = (lock_step (mem_locked m) p).1.
Proof.
  intros Hi H. unfold mem_serve in H. inv_ok. unfold lock_step. rewrite Hi. cbn [orb]. case_decide as Hc.
  { rewrite bool_decide_eq_true_2 by done. inv_ok. match goal with x : list Z * Packet |- _ => destruct x end. by inv_ok. }
  rewrite bool_decide_eq_false_2 by done. destruct (pkt_isRead p).
  - inv_ok. cbn. by destruct (pkt_isLLSC p).
  - destruct (pkt_isWrite p); [|destruct (pkt_isInvalidate p); [injection H as <- _ _|]; done].
    destruct (writeOK (mem_locked m) p) as [[[l p1] ok] wk]. destruct ok; inv_ok; by simplify_eq/=.
Qed.
Lemma mem_access_locks m p m' p' woken :
  mem_access m p = Ok (m', p', woken) →
  mem_locked m' = (lock_step (mem_locked m) p).1 ∧ plain_store m p = (lock_step (mem_locked m) p).2.
Proof.
  intros H. split.
  - unfold mem_access in H. inv_ok. destruct (memInhibitAsserted p) eqn:Hi.
    { injection H as <- _ _. unfold lock_step. by rewrite Hi. }
    inv_ok. match goal with x : AbstractMemory * Packet * list Z |- _ => destruct x as [[m1 p1] w1] end.
    rewrite <-(mem_serve_locks m p m1 p1 w1) by done. destruct (pkt_needsResponse p1); by inv_ok.
  - unfold plain_store, lock_step. destruct (memInhibitAsserted p), (bool_decide (pkt_cmd p = SwapReq)), (pkt_isRead p), (pkt_isWrite p); try done.
    by destruct (writeOK (mem_locked m) p) as [[[? ?] ?] ?].
Qed.

Lemma mem_run_reservation m ps ctx line m' oks :
  locked_wf (mem_locked m) → (∀ p, p ∈ ps → load_locked p → req_contextId (pkt_req p) ≠ ctx) → mem_run m ps = Ok (m', oks) →
  locked_wf (mem_locked m') ∧
  (reservations (mem_locked m') !! ctx = Some line ↔
     reservations (mem_locked m) !! ctx = Some line ∧ Forall2 (λ p ok, ¬ (ok = true ∧ line_of p = line)) ps oks).
Proof.
  revert m oks. induction ps as [|p ps IH]; intros m oks W Hps H; cbn [mem_run] in H.
  { injection H as <- <-. split; [done|]. split; [intros; split; [done|constructor]|by intros [? _]]. }
  apply bind_Ok_inv in H as ([[m1 p1] w1] & E1 & H). apply bind_Ok_inv in H as ([m2 oks2] & E2 & H). injection H as <- <-.
  apply mem_access_locks in E1 as [L1 L2].
  pose proof (lock_step_reservation (mem_locked m) p ctx line W (Hps p ltac:(left))) as H. rewrite (surjective_pairing (lock_step _ _)), <-L1, <-L2 in H. destruct H as [W1 H1].
  destruct (IH m1 oks2 W1 ltac:(intros q Hq; apply Hps; by right) E2) as [W2 H2].
  split; [done|]. rewrite H2, H1, Forall2_cons. naive_solver.
Qed.

(** The last access of the pair: what it answers and what it writes. *)
Lemma store_cond_access m sc m' sc' woken :
  locked_wf (mem_locked m) → memInhibitAsserted sc = false → pkt_isRead sc = false → pkt_isWrite sc = true → pkt_isLLSC sc = true →
  mem_access m sc = Ok (m', sc', woken) →
  if decide (reservations (mem_locked m) !! req_contextId (pkt_req sc) = Some (line_of sc))
  then req_extraData (pkt_req sc') = 1 ∧ writeData sc (mem_data m) (pkt_addr sc - mem_start m) = Ok (mem_data m')
  else req_extraData (pkt_req sc') = 0 ∧ mem_data m' = mem_data m.
Proof.
  intros W Hi Hr Hw Hl H. unfold mem_access in H. rewrite Hi in H. inv_ok.
  match goal with x : AbstractMemory * Packet * list Z |- _ => destruct x as [[m1 p1] w1] end.
  match goal with E : mem_serve _ _ = _ |- _ => rename E into Hs end.
  assert (pkt_req sc' = pkt_req p1 ∧ m' = m1) as [-> ->].
  { destruct (pkt_needsResponse p1); inv_ok; [|done]. match goal with E : makeResponse _ = _ |- _ => unfold makeResponse in E end. by inv_ok. }
  clear H. unfold mem_serve in Hs. inv_ok. rewrite decide_False in Hs by (intros Hc; unfold pkt_isRead in Hr; by rewrite Hc in Hr). rewrite Hr, Hw in Hs.
  destruct (writeOK (mem_locked m) sc) as [[[l' p2] ok] wk] eqn:Hok. destruct (writeOK_refines _ _ _ _ _ _ W Hok) as (_ & Hx & _).
  rewrite Hl in Hx. destruct Hx as [Hx Hd]. unfold spec_store_cond in Hx. fold (line_of sc) in Hx.
  assert (p2 = setExtraData sc (if ok then 1 else 0)) as ->.
  { unfold writeOK, checkLockedAddrList in Hok. rewrite Hl in Hok. destruct (mem_locked m) as [|x l]; [by injection Hok as <- <- <- <-|].
    destruct (find_record (x :: l) _ _); [destruct (erase_records (x :: l) _)|]; by injection Hok as <- <- <- <-. }
  match goal with E : getAddr sc = Ok _ |- _ => unfold getAddr in E end. inv_ok.
  case_decide; injection Hx as _ ->; [|by injection Hs as <- <- <-]. inv_ok. split; [done|]. done.
Qed.

(** ** Properties *)

(** C37: load-locked and store-conditional are atomic with respect to stores.
    Between a load-locked and the store-conditional of the same context to the
    same line, with no other load-locked of that context, any sequence of
    accesses may reach the memory: the store-conditional succeeds, and writes
    its bytes, exactly when none of them was a store to the line (a write, or
    another store-conditional that succeeded); otherwise it fails and the memory
    is as before it.  Swaps are not among these stores: they write the memory
    but leave every reservation. *)
Theorem store_conditional_atomic m ll ps sc m1 ll' w1 m2 oks m3 sc' w3 :
  locked_wf (mem_locked m) → load_locked ll → memInhibitAsserted ll = false →
  pkt_isRead sc = false → pkt_isWrite sc = true → pkt_isLLSC sc = true → memInhibitAsserted sc = false →
  req_contextId (pkt_req sc) = req_contextId (pkt_req ll) → line_of sc = line_of ll →
  (∀ p, p ∈ ps → load_locked p → req_contextId (pkt_req p) ≠ req_contextId (pkt_req ll)) →
  mem_access m ll = Ok (m1, ll', w1) → mem_run m1 ps = Ok (m2, oks) → mem_access m2 sc = Ok (m3, sc', w3) →
  (req_extraData (pkt_req sc') = 1 ↔ Forall2 (λ p ok, ¬ (ok = true ∧ line_of p = line_of ll)) ps oks) ∧
  (if decide (req_extraData (pkt_req sc') = 1) then writeData sc (mem_data m2) (pkt_addr sc - mem_start m2) = Ok (mem_data m3)
   else req_extraData (pkt_req sc') = 0 ∧ mem_data m3 = mem_data m2) ∧
  ∀ m p m' p' woken, pkt_cmd p = SwapReq → mem_access m p = Ok (m', p', woken) → mem_locked m' = mem_locked m ∧ plain_store m p = false.
Proof.
  intros W [L1 L2] Li S1 S2 S3 Si Hc Hl Hps E1 E2 E3. destruct (track_refines (mem_locked m) ll W) as [W1 R1].
  assert (mem_locked m1 = mem_trackLoadLocked (mem_locked m) ll) as Hm1.
  { apply mem_access_locks in E1 as [-> _]. unfold lock_step. rewrite Li, bool_decide_eq_false_2, L1, L2; [done|]. intros Hx. unfold pkt_isLLSC in L2. by rewrite Hx in L2. }
  rewrite <-Hm1 in W1, R1. destruct (mem_run_reservation m1 ps (req_contextId (pkt_req ll)) (line_of ll) m2 oks W1 Hps E2) as [W2 H].
  rewrite R1 in H. unfold spec_load_locked in H. rewrite lookup_insert_eq in H.
  pose proof (store_cond_access m2 sc m3 sc' w3 W2 Si S1 S2 S3 E3) as Hsc. rewrite Hc, Hl in Hsc. split; [|split].
  - case_decide as Hd; destruct Hsc as [-> _]; [|split; [done|intros HF; exfalso; apply Hd, H; by split]]. split; [intros _; by apply H|done].
  - case_decide as Hd; destruct Hsc as [Hx ?]; rewrite Hx; [by rewrite decide_True|by rewrite decide_False].
  - intros m0 p m' p' woken Hsw E. apply mem_access_locks in E as [-> ->]. unfold lock_step. rewrite (bool_decide_eq_true_2 (pkt_cmd p = SwapReq)) by done. by rewrite orb_true_r.
Qed.

Definition demo_lock_packet (cmd : MemCmd) (paddr ctx : Z) : Packet :=
  Packet_make ((Request_phys paddr 8 0 0) <| req_contextId := ctx |>) cmd.

Definition demo_lock_memory : AbstractMemory := mkMem 0 (replicate 128 0) [] [0] [0] [0] [0] [0] [0].
Definition demo_lock_data (cmd : MemCmd) (paddr ctx : Z) : Packet :=
  (flag_set (demo_lock_packet cmd paddr ctx) STATIC_DATA) <| pkt_data := Some (replicate 8 7) |>.

(** A store of another context to the next line does not disturb the pair. *)
Lemma store_conditional_atomic_witness :
  ∃ m1 ll' m2 oks m3 sc', mem_access demo_lock_memory (demo_lock_data LoadLockedReq 64 1) = Ok (m1, ll', []) ∧
    mem_run m1 [demo_lock_data WriteReq 80 2] = Ok (m2, oks) ∧ mem_access m2 (demo_lock_data StoreCondReq 72 1) = Ok (m3, sc', [1]) ∧
    req_extraData (pkt_req sc') = 1.
Proof.
  destruct (mem_access demo_lock_memory (demo_lock_data LoadLockedReq 64 1)) as [[[m1 ll'] w1]|] eqn:E1; [|vm_compute in E1; discriminate E1].
  destruct (mem_run m1 [demo_lock_data WriteReq 80 2]) as [[m2 oks]|] eqn:E2; [|vm_compute in E1; injection E1 as <- <- <-; vm_compute in E2; discriminate E2].
  destruct (mem_access m2 (demo_lock_data StoreCondReq 72 1)) as [[[m3 sc'] w3]|] eqn:E3;
    [|vm_compute in E1; injection E1 as <- <- <-; vm_compute in E2; injection E2 as <- <-; vm_compute in E3; discriminate E3].
  destruct (store_conditional_atomic demo_lock_memory (demo_lock_data LoadLockedReq 64 1) [demo_lock_data WriteReq 80 2] (demo_lock_data StoreCondReq 72 1)
    m1 ll' w1 m2 oks m3 sc' w3) as [H _]; try done; [constructor| |].
  { intros p ->%list_elem_of_singleton [Hx _]. discriminate Hx. }
  exists m1, ll', m2, oks, m3, sc'. vm_compute in E1. injection E1 as <- <- <-. vm_compute in E2. injection E2 as <- <-. vm_compute in E3. injection E3 as <- <- <-.
  split; [reflexivity|]. split; [reflexivity|]. split; [reflexivity|]. apply H. repeat constructor. intros [_ Hx]. discriminate Hx.
Defined.

(** A swap in between is not seen: the store-conditional succeeds although
    another context has changed the word. *)
Lemma swap_keeps_reservation :
  ∃ m1 ll' m2 oks m3 sc', mem_access demo_lock_memory (demo_lock_data LoadLockedReq 64 1) = Ok (m1, ll', []) ∧
    mem_run m1 [demo_lock_data SwapReq 64 2] = Ok (m2, oks) ∧ mem_data m2 ≠ mem_data m1 ∧
    mem_access m2 (demo_lock_data StoreCondReq 64 1) = Ok (m3, sc', [1]) ∧ req_extraData (pkt_req sc') = 1.
Proof. do 6 eexists. split; [vm_compute; reflexivity|]. split; [vm_compute; reflexivity|]. split; [by vm_compute|]. split; [vm_compute; reflexivity|reflexivity]. Qed.
