(* ===== verification/PortProxy.v ===== *)
(** * Port proxies: functional access to the memory of one domain

    [PARDg5VPortProxy] of [src/pardg5-v/hyper/mem/port_proxy.cc] and [.hh]: a
    blob is read or written in line-sized functional requests that carry the
    tag of the proxy.  The port behind the proxy is an argument; [FuncMemory]
    states what the proxy relies on. *)

From S2P Require Import Prelude BaseLib ChunkGen Packet.
Local Open Scope Z_scope.

(** ** The memory behind the port *)

(** A functional request of one line, with its bytes, for addresses the domain
    may use. *)
Record func_request (line : Z) (reach : Z → Z → Prop) (p : Packet) (data : list Z) : Prop := {
  fr_wf : pkt_wf p;
  fr_ptr : flag_isSet (pkt_flags p) (Z.lor STATIC_DATA DYNAMIC_DATA) = true;
  fr_data : pkt_data p = Some data;
  fr_len : Z.of_nat (length data) = pkt_size p;
  fr_line : 0 < pkt_size p ∧ pkt_addr p mod line + pkt_size p ≤ line;
  fr_addr : 0 ≤ pkt_addr p ∧ pkt_addr p + pkt_size p ≤ 2 ^ 64;
  fr_reach : ∀ a, pkt_addr p ≤ a < pkt_addr p + pkt_size p → reach (guest_of p) a
}.

(** A memory with a byte per domain and address, in states that satisfy [ok]:
    reads return the bytes, writes change exactly the bytes of their domain. *)
Class FuncMemory {M : Type} (line : Z) (sendFunctional : M → Packet → result (M * Packet))
    (byte_at : M → Z → Z → Z) (reach : Z → Z → Prop) (ok : M → Prop) : Prop := {
  fm_read m p data :
    ok m → pkt_cmd p = ReadReq → func_request line reach p data →
    ∃ p', sendFunctional m p = Ok (m, p') ∧
      pkt_data p' = Some (byte_at m (guest_of p) <$> addr_range (pkt_addr p) (length data));
  fm_write m p data :
    ok m → pkt_cmd p = WriteReq → func_request line reach p data →
    ∃ m' p', sendFunctional m p = Ok (m', p') ∧ ok m' ∧ pkt_data p' = Some data ∧
      ∀ g a, reach g a → byte_at m' g a =
        if decide (g = guest_of p ∧ pkt_addr p ≤ a < pkt_addr p + pkt_size p)
        then data !!! Z.to_nat (a - pkt_addr p) else byte_at m g a
}.

(** ** The proxy *)

Record PortProxy : Type := mkPortProxy { pp_cacheLineSize : Z; pp_tag : Z }.
Definition updateTag (pp : PortProxy) (tag : Z) : PortProxy := mkPortProxy (pp_cacheLineSize pp) tag.

(** The packet of one chunk: [Request::setPhys], [setQosTag], [dataStatic]. *)
Definition blob_packet (pp : PortProxy) (cmd : MemCmd) (a n : Z) (data : list Z) : Packet :=
  let req := (Request_phys a n 0 funcMasterId) <| req_qosTag := wrap 64 (pp_tag pp) |> in
  (flag_set (Packet_make req cmd) STATIC_DATA) <| pkt_data := Some data |>.

Section Proxy.

Context {M : Type} (sendFunctional : M → Packet → result (M * Packet)).

(** One round of the loop of [blobHelper] at position [pos] of the buffer; the
    packet shares its bytes with the buffer. *)
Definition blob_step (pp : PortProxy) (cmd : MemCmd) (st : M * list Z * nat) (a n : Z) : result (M * list Z * nat) :=
  let '(m, buf, pos) := st in
  if decide (pos + Z.to_nat n ≤ length buf)%nat then
    '(m, p) ← sendFunctional m (blob_packet pp cmd a n (slice buf pos (Z.to_nat n)));
    data ← (match pkt_data p with Some d => Ok d | None => Err NullDeref end);
    Ok (m, splice buf pos data, (pos + Z.to_nat n)%nat)
  else Err OutOfBounds.

Definition blobHelper (pp : PortProxy) (m : M) (addr : Z) (buf : list Z) (size : Z) (cmd : MemCmd)
  : result (M * list Z) :=
  assertb (0 <=? pp_tag pp) ;;
  '(m, buf, _) ← chunk_loop addr (wrap 32 size) (pp_cacheLineSize pp) (λ st a n _, blob_step pp cmd st a n) (m, buf, 0%nat);
  Ok (m, buf).

Definition readBlob (pp : PortProxy) (m : M) (addr : Z) (buf : list Z) (size : Z) : result (M * list Z) :=
  blobHelper pp m addr buf size ReadReq.
Definition writeBlob (pp : PortProxy) (m : M) (addr : Z) (buf : list Z) (size : Z) : result (M * list Z) :=
  blobHelper pp m addr buf size WriteReq.

(** [memsetBlob]: an array of a negative length cannot be allocated. *)
Definition memsetBlob (pp : PortProxy) (m : M) (addr v size : Z) : result M :=
  if size <? 0 then Err OutOfBounds
  else '(m, _) ← blobHelper pp m addr (replicate (Z.to_nat size) (wrap 8 v)) size WriteReq; Ok m.

(** ** Blobs against the memory *)

Context (line : Z) (byte_at : M → Z → Z → Z) (reach : Z → Z → Prop) (ok : M → Prop)
  `{!FuncMemory line sendFunctional byte_at reach ok} (pp : PortProxy).
Hypothesis Hline : pp_cacheLineSize pp = line ∧ isPowerOf2 line = true ∧ 0 < line < 2 ^ 31.
Hypothesis Htag : 0 ≤ pp_tag pp.

Let g := QOSTAG_TO_GUESTID (pp_tag pp).

Lemma blob_request cmd a n data :
  0 < n → a mod line + n ≤ line → 0 ≤ a → a + n ≤ 2 ^ 64 → Z.of_nat (length data) = n →
  (∀ x, a ≤ x < a + n → reach g x) →
  guest_of (blob_packet pp cmd a n data) = g ∧ func_request line reach (blob_packet pp cmd a n data) data.
Proof using.
  clear. intros Hn Hl Ha He Hd Hr.
  assert (guest_of (blob_packet pp cmd a n data) = g) as Hg.
  { unfold guest_of, blob_packet. cbn. subst g. unfold QOSTAG_TO_GUESTID. rewrite !land_0xFF. f_equal.
    by rewrite wrap_mod by (lia || by exists (2 ^ 56)). }
  split; [done|]. split; try done. by rewrite Hg.
Qed.

(** A run of chunks written from the buffer. *)
Lemma blob_write_run a off sizes m buf (pos : nat) :
  ok m → aligned_run line a sizes → 0 ≤ a → let total := sum_list_with Z.to_nat sizes in
  a + Z.of_nat total ≤ 2 ^ 64 → (pos + total ≤ length buf)%nat → (∀ x, a ≤ x < a + Z.of_nat total → reach g x) →
  ∃ m', foldM (λ st '(a, n, o), blob_step pp WriteReq st a n) (m, buf, pos) (place a off sizes) =
      Ok (m', buf, (pos + total)%nat) ∧ ok m' ∧
    ∀ d x, reach d x → byte_at m' d x =
      if decide (d = g ∧ a ≤ x < a + Z.of_nat total) then buf !!! (pos + Z.to_nat (x - a))%nat else byte_at m d x.
Proof using FuncMemory0.
  revert a off m pos. induction sizes as [|n sizes IH]; intros a off m pos Hm Hal Ha total He Hb Hr.
  { exists m. simpl. split; [by rewrite Nat.add_0_r|]. split; [done|]. intros d x Hd. subst total. simpl in *. rewrite decide_False by lia. done. }
  destruct Hal as (Hn & Hl & Hal). subst total. cbn [sum_list_with] in *.
  set (rest := sum_list_with Z.to_nat sizes) in *. cbn [place foldM]. unfold blob_step at 2.
  rewrite decide_True by lia.
  destruct (blob_request WriteReq a n (slice buf pos (Z.to_nat n))) as [Hg Hreq]; [lia..|rewrite length_slice; lia| |].
  { intros x Hx. apply Hr. lia. }
  destruct (fm_write m (blob_packet pp WriteReq a n (slice buf pos (Z.to_nat n))) _ Hm eq_refl Hreq) as (m1 & p1 & -> & Hok & Hd & Hm1).
  set (data := slice buf pos (Z.to_nat n)) in *.
  change (pkt_addr (blob_packet pp WriteReq a n data)) with a in Hm1. change (pkt_size (blob_packet pp WriteReq a n data)) with n in Hm1.
  cbn [mbind result_bind]. rewrite Hd. cbn [mbind result_bind].
  subst data. rewrite splice_slice by lia.
  destruct (IH (a + n) (off + n) m1 (pos + Z.to_nat n)%nat) as (m' & Hf & Hok' & Hm'); [done|done|lia|fold rest; lia|fold rest; lia| |].
  { intros x Hx. fold rest in Hx. apply Hr. lia. }
  fold rest in Hf, Hm'. exists m'. split; [rewrite Hf; do 2 f_equal; lia|]. split; [done|]. intros d x Hx. rewrite Hm', Hm1, Hg by done.
  destruct (decide (d = g ∧ a + n ≤ x < a + n + Z.of_nat rest)) as [[-> Hi]|Hi].
  - rewrite decide_True by (split; [done|lia]). f_equal. lia.
  - destruct (decide (d = g ∧ a ≤ x < a + n)) as [[-> Hj]|Hj].
    + rewrite decide_True by (split; [done|lia]). unfold slice.
      rewrite !list_lookup_total_alt, lookup_take_lt, lookup_drop by lia. done.
    + rewrite decide_False; [done|]. intros [-> Hk]. destruct (decide (x < a + n)); [apply Hj|apply Hi]; split; (done || lia).
Qed.

(** A run of chunks read into the buffer. *)
Lemma blob_read_run a off sizes m buf (pos : nat) :
  ok m → aligned_run line a sizes → 0 ≤ a → let total := sum_list_with Z.to_nat sizes in
  a + Z.of_nat total ≤ 2 ^ 64 → (pos + total ≤ length buf)%nat → (∀ x, a ≤ x < a + Z.of_nat total → reach g x) →
  foldM (λ st '(a, n, o), blob_step pp ReadReq st a n) (m, buf, pos) (place a off sizes) =
    Ok (m, splice buf pos (byte_at m g <$> addr_range a total), (pos + total)%nat).
Proof using FuncMemory0.
  intros Hm. revert a off buf pos. induction sizes as [|n sizes IH]; intros a off buf pos Hal Ha total He Hb Hr.
  { subst total. simpl. rewrite Nat.add_0_r. do 2 f_equal. unfold splice. simpl. rewrite Nat.add_0_r. by rewrite take_drop. }
  destruct Hal as (Hn & Hl & Hal). subst total. cbn [sum_list_with] in *.
  set (rest := sum_list_with Z.to_nat sizes) in *. cbn [place foldM]. unfold blob_step at 2.
  rewrite decide_True by lia.
  destruct (blob_request ReadReq a n (slice buf pos (Z.to_nat n))) as [Hg Hreq]; [lia..|rewrite length_slice; lia| |].
  { intros x Hx. apply Hr. lia. }
  destruct (fm_read m (blob_packet pp ReadReq a n (slice buf pos (Z.to_nat n))) _ Hm eq_refl Hreq) as (p1 & -> & Hd). cbn [mbind result_bind]. rewrite Hd. cbn [mbind result_bind].
  rewrite Hg, length_slice by lia. change (pkt_addr (blob_packet _ _ _ _ _)) with a.
  rewrite (IH (a + n) (off + n)); [|done|lia|fold rest; lia| |].
  - fold rest. do 2 f_equal; [|lia]. f_equal. rewrite addr_range_add, fmap_app, <-splice_app;
      rewrite ?length_fmap, ?length_addr_range; [|lia]. by rewrite Z2Nat.id by lia.
  - fold rest. rewrite length_splice by (rewrite length_fmap, length_addr_range; lia). lia.
  - intros x Hx. fold rest in Hx. apply Hr. lia.
Qed.

(** Whole blobs; sizes are [int]s. *)
Definition blob_region (addr : Z) (n : nat) : Prop :=
  in_width 64 addr ∧ addr + Z.of_nat n ≤ 2 ^ 64 ∧ Z.of_nat n < 2 ^ 31 ∧
  ∀ x, addr ≤ x < addr + Z.of_nat n → reach g x.

Lemma blob_chunks cmd addr n m buf :
  blob_region addr n →
  blobHelper pp m addr buf (Z.of_nat n) cmd =
    '(m, buf, _) ← foldM (λ st '(a, k, o), blob_step pp cmd st a k) (m, buf, 0%nat)
                     (place addr 0 (chunk_sizes addr (Z.of_nat n) line));
    Ok (m, buf).
Proof using Hline Htag.
  intros (Ha & He & Hn & _). destruct Hline as (Hpl & Hp & Hl). unfold blobHelper.
  rewrite (proj2 (Z.leb_le _ _) Htag). cbn [assertb mbind result_bind].
  rewrite Hpl, wrap_small by (unfold in_width; lia).
  rewrite chunk_loop_spec by (done || unfold region, in_width in *; lia). done.
Qed.

Lemma writeBlob_spec m addr data :
  ok m → blob_region addr (length data) →
  ∃ m', writeBlob pp m addr data (Z.of_nat (length data)) = Ok (m', data) ∧ ok m' ∧
    ∀ d x, reach d x → byte_at m' d x =
      if decide (d = g ∧ addr ≤ x < addr + Z.of_nat (length data))
      then data !!! Z.to_nat (x - addr) else byte_at m d x.
Proof.
  intros Hm HR. unfold writeBlob. rewrite blob_chunks by done. pose proof HR as (Ha & He & Hn & Hr).
  destruct (chunk_sizes_run addr (Z.of_nat (length data)) line) as [Hs Hal]; [lia|lia|]. rewrite Nat2Z.id in Hs.
  destruct (blob_write_run addr 0 (chunk_sizes addr (Z.of_nat (length data)) line) m data 0%nat)
    as (m' & -> & Hok & Hm'); rewrite ?Hs; try done; [apply Ha|]. rewrite Hs in Hm'. cbn [mbind result_bind].
  exists m'. by split.
Qed.

Lemma readBlob_spec m addr buf :
  ok m → blob_region addr (length buf) →
  readBlob pp m addr buf (Z.of_nat (length buf)) = Ok (m, byte_at m g <$> addr_range addr (length buf)).
Proof.
  intros Hm HR. unfold readBlob. rewrite blob_chunks by done. pose proof HR as (Ha & He & Hn & Hr).
  destruct (chunk_sizes_run addr (Z.of_nat (length buf)) line) as [Hs Hal]; [lia|lia|]. rewrite Nat2Z.id in Hs.
  rewrite blob_read_run; rewrite ?Hs; try done; [|apply Ha]. cbn [mbind result_bind].
  by rewrite splice_all by (by rewrite length_fmap, length_addr_range).
Qed.

Lemma memsetBlob_spec m addr v n :
  ok m → blob_region addr n →
  ∃ m', memsetBlob pp m addr v (Z.of_nat n) = Ok m' ∧ ok m' ∧
    ∀ d x, reach d x → byte_at m' d x =
      if decide (d = g ∧ addr ≤ x < addr + Z.of_nat n) then wrap 8 v else byte_at m d x.
Proof.
  intros Hm HR. unfold memsetBlob. destruct (Z.ltb_spec (Z.of_nat n) 0); [lia|]. rewrite Nat2Z.id.
  destruct (writeBlob_spec m addr (replicate n (wrap 8 v))) as (m' & Hw & Hok & Hm'); [done|by rewrite length_replicate|].
  unfold writeBlob in Hw. rewrite length_replicate in Hw, Hm'. rewrite Hw. cbn [mbind result_bind]. exists m'.
  split; [done|]. split; [done|]. intros d x Hx. rewrite Hm' by done. case_decide as Hc; [|done].
  rewrite lookup_total_replicate_2; [done|lia].
Qed.

End Proxy.

(** The bytes of a region that holds [data]. *)
Lemma written_read (f : Z → Z) addr (data : list Z) k :
  (∀ x, addr ≤ x < addr + Z.of_nat (length data) → f x = data !!! Z.to_nat (x - addr)) → k = length data →
  f <$> addr_range addr k = data.
Proof.
  intros Hf ->. apply list_eq_same_length with (n := length data); [done|by rewrite length_fmap, length_addr_range|].
  intros i x y Hi Hx Hy. unfold addr_range in Hx. rewrite !list_lookup_fmap, lookup_seq_lt in Hx by done. simpl in Hx.
  injection Hx as <-. rewrite Hf by lia. replace (Z.to_nat (addr + Z.of_nat i - addr)) with i by lia.
  by apply list_lookup_total_correct.
Qed.

(** ** Properties *)

(** A blob written through a proxy is read back, and nothing else changes.
    Whatever the alignment and the length of the blob, the loop over the lines
    ends; reading the region returns the bytes written; and every byte outside
    the region, and every byte of another domain, is as before. *)
Theorem proxy_roundtrip {M : Type} (sendFunctional : M → Packet → result (M * Packet)) (line : Z)
    (byte_at : M → Z → Z → Z) (reach : Z → Z → Prop) (ok : M → Prop) `{!FuncMemory line sendFunctional byte_at reach ok}
    (pp : PortProxy) (m : M) (addr : Z) (data buf : list Z) :
  ok m → pp_cacheLineSize pp = line → isPowerOf2 line = true → 0 < line < 2 ^ 31 → 0 ≤ pp_tag pp →
  blob_region reach pp addr (length data) → length buf = length data →
  ∃ m', writeBlob sendFunctional pp m addr data (Z.of_nat (length data)) = Ok (m', data) ∧
    readBlob sendFunctional pp m' addr buf (Z.of_nat (length data)) = Ok (m', data) ∧
    ∀ d x, reach d x → d ≠ QOSTAG_TO_GUESTID (pp_tag pp) ∨ ¬ (addr ≤ x < addr + Z.of_nat (length data)) →
      byte_at m' d x = byte_at m d x.
Proof.
  intros Hm Hpl Hpow Hl Ht HR Hb.
  destruct (writeBlob_spec sendFunctional line byte_at reach ok pp (conj Hpl (conj Hpow Hl)) Ht m addr data Hm HR) as (m' & Hw & Hok & Hm').
  exists m'. split; [done|]. split.
  - rewrite <-Hb, (readBlob_spec sendFunctional line byte_at reach ok pp (conj Hpl (conj Hpow Hl)) Ht) by (done || by rewrite Hb).
    do 2 f_equal. apply written_read; [|done]. intros x Hx. rewrite Hm', decide_True by (done || by apply HR). done.
  - intros d x Hd Hx. rewrite Hm', decide_False by (done || naive_solver). done.
Qed.
