(* ===== verification/BlobWriter.v ===== *)
(** * Code that writes through a port proxy

    The BIOS tables of [src/gem5-pard/src/arch/x86/bios], the kernel image and
    the boot structures of a logical domain are written through a port proxy
    and never read back.  Such code is a [Writer]: the blobs it hands to
    [PortProxy::writeBlob], in order, and its result; [perform] carries them
    out through the proxy of [PortProxy].  What the writes leave in memory is
    [image], by [perform_spec]. *)

From S2P Require Import Prelude BaseLib ChunkGen Packet PortProxy.
Local Open Scope Z_scope.

(** ** Writers *)

(** A blob: its address and its bytes. *)
Definition Blob : Type := Z * list Z.

Record Writer (A : Type) : Type := mkWriter { runWriter : result (list Blob * A) }.
Arguments mkWriter {A} _.
Arguments runWriter {A} _.

#[export] Instance writer_ret : MRet Writer := λ A a, mkWriter (Ok ([], a)).
#[export] Instance writer_bind : MBind Writer := λ A B f w,
  mkWriter ('(l1, a) ← runWriter w; '(l2, b) ← runWriter (f a); Ok (l1 ++ l2, b)).

(** Code without writes. *)
Definition wlift {A} (r : result A) : Writer A := mkWriter (a ← r; Ok ([], a)).

(** [proxy.writeBlob(addr, bytes, size)] of all the bytes; addresses are
    computed at 64 bits. *)
Definition put (addr : Z) (bytes : list Z) : Writer unit := mkWriter (Ok ([(wrap 64 addr, bytes)], ())).

(** A loop over a sequence, with an accumulator. *)
Fixpoint wfold {A S} (f : S → A → Writer S) (s : S) (l : list A) : Writer S :=
  match l with [] => mret s | a :: l => s ← f s a; wfold f s l end.

(** What a writer does. *)
Definition writes {A} (w : Writer A) (log : list Blob) (a : A) : Prop := runWriter w = Ok (log, a).

Lemma writes_ret {A} (a : A) : writes (mret a) [] a.
Proof. done. Qed.

Lemma writes_put addr bytes : in_width 64 addr → writes (put addr bytes) [(addr, bytes)] ().
Proof. intros H. unfold writes, put. simpl. by rewrite wrap_small. Qed.

Lemma writes_lift {A} (r : result A) a : r = Ok a → writes (wlift r) [] a.
Proof. by intros ->. Qed.

Lemma writes_bind {A B} (w : Writer A) (f : A → Writer B) l1 a l2 b :
  writes w l1 a → writes (f a) l2 b → writes (w ≫= f) (l1 ++ l2) b.
Proof. unfold writes. simpl. intros -> H. simpl. by rewrite H. Qed.

Lemma writes_then {A B} (w : Writer A) (k : A → B) l a : writes w l a → writes (x ← w; mret (k x)) l (k a).
Proof. intros H. rewrite <-(app_nil_r l). by eapply writes_bind, writes_ret. Qed.

Lemma writes_fold_nil {A S} (f : S → A → Writer S) s : writes (wfold f s []) [] s.
Proof. done. Qed.

Lemma writes_fold_cons {A S} (f : S → A → Writer S) s a l l1 s1 l2 s2 :
  writes (f s a) l1 s1 → writes (wfold f s1 l) l2 s2 → writes (wfold f s (a :: l)) (l1 ++ l2) s2.
Proof. intros H1 H2. exact (writes_bind (f s a) (λ s, wfold f s l) l1 s1 l2 s2 H1 H2). Qed.

Lemma writes_det {A} (w : Writer A) l1 a1 l2 a2 : writes w l1 a1 → writes w l2 a2 → l1 = l2 ∧ a1 = a2.
Proof. unfold writes. intros -> H. by inversion H. Qed.

Lemma writes_bind_inv {A B} (w : Writer A) (f : A → Writer B) l b :
  writes (w ≫= f) l b → ∃ l1 a l2, writes w l1 a ∧ writes (f a) l2 b ∧ l = l1 ++ l2.
Proof.
  unfold writes. simpl. destruct (runWriter w) as [[l1 a]|]; [|done]. simpl.
  destruct (runWriter (f a)) as [[l2 b']|] eqn:E; [|done]. simpl. intros [= <- <-]. by exists l1, a, l2.
Qed.

(** ** What writes leave in memory *)

Definition write_at (f : Z → Z) (w : Blob) : Z → Z := λ x,
  if decide (w.1 ≤ x < w.1 + Z.of_nat (length w.2)) then w.2 !!! Z.to_nat (x - w.1) else f x.
Definition image (f : Z → Z) (log : list Blob) : Z → Z := foldl write_at f log.

(** The bytes of a region. *)
Definition bytes_at (f : Z → Z) (a : Z) (n : nat) : list Z := f <$> addr_range a n.

(** All the writes fall in a region, or outside it. *)
Definition within (lo hi : Z) (log : list Blob) : Prop :=
  Forall (λ w : Blob, lo ≤ w.1 ∧ w.1 + Z.of_nat (length w.2) ≤ hi) log.
Definition avoids (lo hi : Z) (log : list Blob) : Prop :=
  Forall (λ w : Blob, w.1 + Z.of_nat (length w.2) ≤ lo ∨ hi ≤ w.1) log.

Lemma image_app f l1 l2 : image f (l1 ++ l2) = image (image f l1) l2.
Proof. apply foldl_app. Qed.

Lemma image_cons f w l : image f (w :: l) = image (write_at f w) l.
Proof. done. Qed.

Lemma image_avoids f lo hi log x : avoids lo hi log → lo ≤ x < hi → image f log x = f x.
Proof.
  revert f. induction log as [|w log IH]; intros f Ha Hx; [done|].
  apply Forall_cons in Ha as [Hw Ha]. rewrite image_cons, IH by done.
  unfold write_at. rewrite decide_False by lia. done.
Qed.

Lemma within_avoids lo hi lo' hi' log : within lo hi log → hi ≤ lo' ∨ hi' ≤ lo → avoids lo' hi' log.
Proof. intros H Hd. eapply Forall_impl; [exact H|]. intros w [? ?]. lia. Qed.

Lemma within_mono lo hi lo' hi' log : within lo hi log → lo' ≤ lo → hi ≤ hi' → within lo' hi' log.
Proof. intros H ? ?. eapply Forall_impl; [exact H|]. intros w [? ?]. lia. Qed.

Lemma within_app lo hi l1 l2 : within lo hi (l1 ++ l2) ↔ within lo hi l1 ∧ within lo hi l2.
Proof. apply Forall_app. Qed.

Lemma avoids_app lo hi l1 l2 : avoids lo hi (l1 ++ l2) ↔ avoids lo hi l1 ∧ avoids lo hi l2.
Proof. apply Forall_app. Qed.

Lemma avoids_nil lo hi : avoids lo hi [].
Proof. constructor. Qed.

Lemma avoids_cons lo hi a p log : a + Z.of_nat (length p) ≤ lo ∨ hi ≤ a → avoids lo hi log → avoids lo hi ((a, p) :: log).
Proof. by constructor. Qed.

(** The image depends only on the memory below it, address by address. *)
Lemma image_ext f g log x : f x = g x → image f log x = image g log x.
Proof.
  revert f g. induction log as [|w log IH]; intros f g H; [done|].
  rewrite !image_cons. apply IH. unfold write_at. by case_decide.
Qed.

Lemma length_bytes_at f a n : length (bytes_at f a n) = n.
Proof. unfold bytes_at. by rewrite length_fmap, length_addr_range. Qed.

Lemma bytes_at_lookup f a n i : (i < n)%nat → bytes_at f a n !! i = Some (f (a + Z.of_nat i)).
Proof. intros H. unfold bytes_at, addr_range. by rewrite !list_lookup_fmap, lookup_seq_lt by lia. Qed.

Lemma bytes_at_ext f g a n : (∀ x, a ≤ x < a + Z.of_nat n → f x = g x) → bytes_at f a n = bytes_at g a n.
Proof. intros H. apply list_fmap_ext. intros i x Hx%list_elem_of_lookup_2%elem_of_addr_range. by apply H. Qed.

Lemma bytes_at_add f a n k : bytes_at f a (n + k) = bytes_at f a n ++ bytes_at f (a + Z.of_nat n) k.
Proof. unfold bytes_at. by rewrite addr_range_add, fmap_app. Qed.

Lemma bytes_at_avoids f log a n :
  avoids a (a + Z.of_nat n) log → bytes_at (image f log) a n = bytes_at f a n.
Proof. intros H. apply bytes_at_ext. intros x Hx. by eapply image_avoids. Qed.

(** Writing inside a region changes its bytes in place. *)
Lemma bytes_at_write f a n (o : nat) bytes :
  (o + length bytes ≤ n)%nat → bytes_at (write_at f (a + Z.of_nat o, bytes)) a n = splice (bytes_at f a n) o bytes.
Proof.
  intros H. apply list_eq_same_length with (n := n);
    [rewrite length_splice; rewrite length_bytes_at; [done|lia]|by rewrite length_bytes_at|].
  intros i x y Hi Hx Hy. rewrite bytes_at_lookup in Hx by done. injection Hx as <-.
  apply list_lookup_total_correct in Hy as <-. rewrite splice_lookup_total by (rewrite length_bytes_at; lia).
  unfold write_at. simpl. destruct (decide (o ≤ i < o + length bytes)%nat).
  - rewrite decide_True by lia. f_equal. lia.
  - rewrite decide_False by lia. symmetry. apply list_lookup_total_correct, bytes_at_lookup. lia.
Qed.

(** A blob on its own region. *)
Lemma bytes_at_blob f a bytes : bytes_at (write_at f (a, bytes)) a (length bytes) = bytes.
Proof.
  replace a with (a + Z.of_nat 0) at 1 by lia. rewrite bytes_at_write by lia.
  apply splice_all. by rewrite length_bytes_at.
Qed.

(** ** Regions that a writer fills

    [fills w a bytes r]: the writer returns [r], writes nothing outside the
    region of [bytes] from [a], and leaves exactly [bytes] there, whatever was
    in memory before. *)
Definition fills {A} (w : Writer A) (a : Z) (bytes : list Z) (r : A) : Prop :=
  ∃ log, writes w log r ∧ within a (a + Z.of_nat (length bytes)) log ∧
    ∀ f, bytes_at (image f log) a (length bytes) = bytes.

Lemma fills_ret {A} (r : A) a : fills (mret r) a [] r.
Proof. exists []. split; [done|]. split; [constructor|done]. Qed.

Lemma fills_put a bytes : in_width 64 a → fills (put a bytes) a bytes ().
Proof.
  intros H. exists [(a, bytes)]. split; [by apply writes_put|].
  split; [apply Forall_singleton; simpl; lia|]. intros f. apply bytes_at_blob.
Qed.

Lemma fills_bind {A B} (w : Writer A) (k : A → Writer B) a b1 r1 b2 r2 a2 :
  fills w a b1 r1 → a2 = a + Z.of_nat (length b1) → fills (k r1) a2 b2 r2 → fills (w ≫= k) a (b1 ++ b2) r2.
Proof.
  intros (l1 & W1 & I1 & F1) -> (l2 & W2 & I2 & F2). exists (l1 ++ l2). split; [by eapply writes_bind|].
  rewrite length_app. split.
  - apply within_app. split; (eapply within_mono; [done|lia|lia]).
  - intros f. rewrite image_app, bytes_at_add, F2. f_equal.
    rewrite bytes_at_avoids; [apply F1|]. eapply within_avoids; [done|lia].
Qed.

(** A last step without writes. *)
Lemma fills_then {A B} (w : Writer A) (k : A → B) a b r : fills w a b r → fills (x ← w; mret (k x)) a b (k r).
Proof. intros H. rewrite <-(app_nil_r b). by eapply fills_bind; [done|done|apply fills_ret]. Qed.

(** ** Pieces written out of order *)

(** The pieces of a structure side by side from [a]. *)
Fixpoint laid (a : Z) (pieces : list (list Z)) : list Blob :=
  match pieces with [] => [] | p :: ps => (a, p) :: laid (a + Z.of_nat (length p)) ps end.

Lemma laid_read F a pieces :
  Forall (λ w : Blob, bytes_at F w.1 (length w.2) = w.2) (laid a pieces) →
  bytes_at F a (length (concat pieces)) = concat pieces.
Proof.
  revert a. induction pieces as [|p ps IH]; intros a H; [done|]. simpl in *.
  apply Forall_cons in H as [H1 H2]. simpl in H1. by rewrite length_app, bytes_at_add, IH, H1.
Qed.

Lemma laid_get F a pieces :
  bytes_at F a (length (concat pieces)) = concat pieces →
  Forall (λ w : Blob, bytes_at F w.1 (length w.2) = w.2) (laid a pieces).
Proof.
  revert a. induction pieces as [|p ps IH]; intros a H; [constructor|]. simpl in *.
  rewrite length_app, bytes_at_add in H. apply app_inj_1 in H as [H1 H2]; [|by rewrite length_bytes_at].
  constructor; [done|by apply IH].
Qed.

(** The last write to a region is that of a given blob. *)
Inductive last_write (b : Z) (p : list Z) : list Blob → Prop :=
| lw_hit log : avoids b (b + Z.of_nat (length p)) log → last_write b p ((b, p) :: log)
| lw_skip w log : last_write b p log → last_write b p (w :: log)
| lw_right l1 l2 : last_write b p l2 → last_write b p (l1 ++ l2)
| lw_left l1 l2 : last_write b p l1 → avoids b (b + Z.of_nat (length p)) l2 → last_write b p (l1 ++ l2).

Lemma last_write_read b p log : last_write b p log → ∀ f, bytes_at (image f log) b (length p) = p.
Proof.
  induction 1 as [log H|w log H IH|l1 l2 H IH|l1 l2 H IH Ha]; intros f.
  - rewrite image_cons, bytes_at_avoids by done. apply bytes_at_blob.
  - by rewrite image_cons.
  - by rewrite image_app.
  - by rewrite image_app, bytes_at_avoids.
Qed.

(** ** Sums of bytes *)

Definition bsum (l : list Z) : Z := foldr Z.add 0 l.

Lemma bsum_app l1 l2 : bsum (l1 ++ l2) = bsum l1 + bsum l2.
Proof. induction l1 as [|x l1 IH]; simpl; lia. Qed.

Lemma bsum_cons x l : bsum (x :: l) = x + bsum l.
Proof. done. Qed.

(** ** Carrying the writes out *)

Section Perform.

Context {M : Type} (sendFunctional : M → Packet → result (M * Packet)).

Definition perform (pp : PortProxy) (m : M) (log : list Blob) : result M :=
  foldM (λ m '(a, bytes), '(m, _) ← writeBlob sendFunctional pp m a bytes (Z.of_nat (length bytes)); Ok m) m log.

Lemma perform_app pp m l1 l2 : perform pp m (l1 ++ l2) = (m ← perform pp m l1; perform pp m l2).
Proof. apply foldM_app. Qed.

Context (line : Z) (byte_at : M → Z → Z → Z) (reach : Z → Z → Prop) (ok : M → Prop)
  `{!FuncMemory line sendFunctional byte_at reach ok} (pp : PortProxy).
Hypothesis Hline : pp_cacheLineSize pp = line ∧ isPowerOf2 line = true ∧ 0 < line < 2 ^ 31.
Hypothesis Htag : 0 ≤ pp_tag pp.

Let g := QOSTAG_TO_GUESTID (pp_tag pp).

(** The proxy's domain may use every byte that is written. *)
Definition reachable (log : list Blob) : Prop := Forall (λ w : Blob, blob_region reach pp w.1 (length w.2)) log.

(** The writes happen, leave the image in the memory of the domain, and
    nothing of another domain changes. *)
Lemma perform_spec log m :
  ok m → reachable log →
  ∃ m', perform pp m log = Ok m' ∧ ok m' ∧
    ∀ d x, reach d x → byte_at m' d x = if decide (d = g) then image (byte_at m g) log x else byte_at m d x.
Proof using Hline Htag FuncMemory0.
  revert m. induction log as [|[a bytes] log IH]; intros m Hm Hr.
  { exists m. split; [done|]. split; [done|]. intros d x _. by case_decide; subst. }
  apply Forall_cons in Hr as [Hb Hr]. simpl in Hb.
  destruct (writeBlob_spec sendFunctional line byte_at reach ok pp Hline Htag m a bytes Hm Hb) as (m1 & Hw & Hm1 & H1).
  destruct (IH m1 Hm1 Hr) as (m' & Hp & Hm' & H'). exists m'.
  split; [unfold perform in *; simpl; by rewrite Hw|]. split; [done|]. intros d x Hx.
  rewrite H' by done. case_decide as Hd; [|rewrite H1 by done; rewrite decide_False by naive_solver; done]. subst d.
  rewrite image_cons. apply image_ext. rewrite H1 by done. unfold write_at. simpl.
  fold g. destruct (decide (a ≤ x < a + Z.of_nat (length bytes))) as [Hin|Hin];
    [rewrite decide_True by done|rewrite decide_False by naive_solver]; done.
Qed.

End Perform.
