(* ===== verification/IntelMP.v ===== *)
(** * The Intel MP tables

    [src/gem5-pard/src/arch/x86/bios/intelmp.cc] and [.hh]: the floating pointer
    structure, the configuration table and its entries, written through a
    proxy.  The virtual [writeOut] of an entry is a match on its class. *)

From S2P Require Import Prelude BaseLib BlobWriter.
Local Open Scope Z_scope.

(** ** Fields and strings *)

(** The loop that adds up the bytes of a field; eight rounds empty 64 bits. *)
Fixpoint field_sum (fuel : nat) (guestVal checkSum : Z) : Z :=
  match fuel with
  | O => checkSum
  | S fuel => if guestVal =? 0 then checkSum else field_sum fuel (Z.shiftr guestVal 8) (wrap 8 (checkSum + guestVal))
  end.

(** [writeOutField] of a type of [n] bytes. *)
Definition writeOutField (n : nat) (addr val : Z) : Writer Z :=
  put addr (le_split n val) ;; mret (field_sum 8 val 0).

(** The bytes of a string literal, and of a [std::string] cut or padded to a length. *)
Definition str_bytes (s : string) : list Z := (λ c, Z.of_N (Ascii.N_of_ascii c)) <$> String.list_ascii_of_string s.
Definition cleanedString (str : list Z) (length : nat) : list Z :=
  if decide (length < List.length str)%nat then take length str else str ++ replicate (length - List.length str) 0.

Definition add_sum (checkSum x : Z) : Z := wrap 8 (checkSum + x).

Definition writeOutString (addr : Z) (str : list Z) (length : nat) : Writer Z :=
  put addr (cleanedString str length) ;; mret (foldl add_sum 0 (cleanedString str length)).

(** ** The floating pointer structure *)

Record FloatingPointer : Type := mkFloatingPointer {
  fp_tableAddr : Z;
  fp_specRev : Z;
  fp_defaultConfig : Z;
  fp_imcrPresent : bool
}.

Definition FloatingPointer_make (spec_rev default_config : Z) (imcr_present : bool) : FloatingPointer :=
  mkFloatingPointer 0 spec_rev default_config imcr_present.
Definition fp_setTableAddr (fp : FloatingPointer) (addr : Z) : FloatingPointer :=
  mkFloatingPointer (wrap 32 addr) (fp_specRev fp) (fp_defaultConfig fp) (fp_imcrPresent fp).

Definition fp_signature : list Z := str_bytes "_MP_".

Definition fp_writeOut (fp : FloatingPointer) (addr : Z) : Writer Z :=
  wlift (fatal_if ((fp_tableAddr fp =? 0) && (fp_defaultConfig fp =? 0))) ;;
  wlift (fatal_if (negb (fp_tableAddr fp =? 0) && negb (fp_defaultConfig fp =? 0))) ;;
  put addr fp_signature ;;
  let checkSum := foldl add_sum 0 fp_signature in
  s ← writeOutField 4 (addr + 4) (fp_tableAddr fp);
  let checkSum := add_sum checkSum s in
  put (addr + 8) [1] ;;
  let checkSum := add_sum checkSum 1 in
  put (addr + 9) [fp_specRev fp] ;;
  let checkSum := add_sum checkSum (fp_specRev fp) in
  put (addr + 11) [fp_defaultConfig fp] ;;
  let checkSum := add_sum checkSum (fp_defaultConfig fp) in
  s ← writeOutField 4 (addr + 12) (if fp_imcrPresent fp then Z.shiftl 1 7 else 0);
  let checkSum := add_sum checkSum s in
  put (addr + 10) [wrap 8 (- checkSum)] ;;
  mret 16.

(** ** Entries *)

Inductive BaseConfigEntry : Type :=
| Processor (localApicID localApicVersion cpuFlags cpuSignature featureFlags : Z)
| Bus (busID : Z) (busType : list Z)
| IOAPIC (id version flags address : Z)
| IntAssignment (type interruptType flags sourceBusID sourceBusIRQ destApicID destApicIntIn : Z).

Inductive ExtConfigEntry : Type :=
| AddrSpaceMapping (busID addrType addr addrLength : Z)
| BusHierarchy (busID info parentBus : Z)
| CompatAddrSpaceMod (busID mod_ rangeList : Z).

(** [replaceBits(val, first, last, bit_val)] as the processor entry calls it,
    with [first < last]: the mask is a shift by a negative count, which C++
    leaves undefined; [m] is the mask the compiled code has. *)
Definition replaceBits_reversed (m val last bit_val : Z) : Z :=
  Z.lor (Z.land (wrap 32 (Z.shiftl bit_val last)) m) (Z.land val (Z.lnot m)).

Definition Processor_make (m local_apic_id local_apic_version : Z) (enable bootstrap : bool)
    (family feature_flags model stepping : Z) : BaseConfigEntry :=
  let cpuFlags := if enable then 1 else 0 in
  let cpuFlags := if bootstrap then Z.lor cpuFlags 2 else cpuFlags in
  let cpuSignature := replaceBits_reversed m 0 3 stepping in
  let cpuSignature := replaceBits_reversed m cpuSignature 7 model in
  let cpuSignature := replaceBits_reversed m cpuSignature 11 family in
  Processor local_apic_id local_apic_version cpuFlags cpuSignature feature_flags.

Definition Bus_make (bus_id : Z) (bus_type : list Z) : BaseConfigEntry := Bus bus_id bus_type.
Definition IOAPIC_make (id version : Z) (enable : bool) (address : Z) : BaseConfigEntry :=
  IOAPIC id version (if enable then 1 else 0) address.

(** [IntAssignment::IntAssignment]: the bounds handed to [replaceBits] are in
    the wrong order, which makes the mask empty. *)
Definition IntAssignment_make (type interrupt_type polarity trigger source_bus_id source_bus_irq dest_id dest_intin : Z)
  : BaseConfigEntry :=
  let flags := insertBits 16 0 0 1 polarity in
  let flags := insertBits 16 flags 2 3 trigger in
  IntAssignment type interrupt_type flags source_bus_id source_bus_irq dest_id dest_intin.
Definition IOIntAssignment_make := IntAssignment_make 3.
Definition LocalIntAssignment_make := IntAssignment_make 4.

Definition BusHierarchy_make (bus_id : Z) (subtractive_decode : bool) (parent_bus : Z) : ExtConfigEntry :=
  BusHierarchy bus_id (if subtractive_decode then 1 else 0) parent_bus.
Definition AddrSpaceMapping_make (bus_id address_type address length : Z) : ExtConfigEntry :=
  AddrSpaceMapping bus_id address_type address length.
Definition CompatAddrSpaceMod_make (bus_id : Z) (add : bool) (range_list : Z) : ExtConfigEntry :=
  CompatAddrSpaceMod bus_id (if add then 1 else 0) range_list.

(** The fields of an entry in turn, each added to the checksum. *)
Definition fields (checkSum : Z) (l : list (Z * nat * Z)) : Writer Z :=
  wfold (λ checkSum '(a, n, val), s ← writeOutField n a val; mret (add_sum checkSum s)) checkSum l.

Definition base_head (type addr checkSum : Z) : Writer Z := put addr [type] ;; mret (add_sum checkSum type).
Definition ext_head (type length addr checkSum : Z) : Writer Z :=
  put addr [type] ;; put (addr + 1) [length] ;; mret (add_sum (add_sum checkSum type) length).

(** [BaseConfigEntry::writeOut]: the size of the entry and the new checksum. *)
Definition base_writeOut (e : BaseConfigEntry) (addr checkSum : Z) : Writer (Z * Z) :=
  match e with
  | Processor localApicID localApicVersion cpuFlags cpuSignature featureFlags =>
      checkSum ← base_head 0 addr checkSum;
      checkSum ← fields checkSum [(addr + 1, 1%nat, localApicID); (addr + 2, 1%nat, localApicVersion);
        (addr + 3, 1%nat, cpuFlags); (addr + 4, 4%nat, cpuSignature); (addr + 8, 4%nat, featureFlags)];
      put (addr + 12) (le_split 4 0) ;;
      put (addr + 16) (le_split 4 0) ;;
      mret (20, checkSum)
  | Bus busID busType =>
      checkSum ← base_head 1 addr checkSum;
      checkSum ← fields checkSum [(addr + 1, 1%nat, busID)];
      s ← writeOutString (addr + 2) busType 6;
      mret (8, add_sum checkSum s)
  | IOAPIC id version flags address =>
      checkSum ← base_head 2 addr checkSum;
      checkSum ← fields checkSum [(addr + 1, 1%nat, id); (addr + 2, 1%nat, version); (addr + 3, 1%nat, flags);
        (addr + 4, 4%nat, address)];
      mret (8, checkSum)
  | IntAssignment type interruptType flags sourceBusID sourceBusIRQ destApicID destApicIntIn =>
      checkSum ← base_head type addr checkSum;
      checkSum ← fields checkSum [(addr + 1, 1%nat, interruptType); (addr + 2, 2%nat, flags); (addr + 4, 1%nat, sourceBusID);
        (addr + 5, 1%nat, sourceBusIRQ); (addr + 6, 1%nat, destApicID); (addr + 7, 1%nat, destApicIntIn)];
      mret (8, checkSum)
  end.

(** [ExtConfigEntry::writeOut]; in [AddrSpaceMapping::writeOut] the parameter
    [addr] hides the member. *)
Definition ext_writeOut (e : ExtConfigEntry) (addr checkSum : Z) : Writer (Z * Z) :=
  match e with
  | AddrSpaceMapping busID addrType _ addrLength =>
      checkSum ← ext_head 128 20 addr checkSum;
      checkSum ← fields checkSum [(addr + 2, 1%nat, busID); (addr + 3, 1%nat, addrType); (addr + 4, 8%nat, addr);
        (addr + 12, 8%nat, addrLength)];
      mret (20, checkSum)
  | BusHierarchy busID info parentBus =>
      checkSum ← ext_head 129 8 addr checkSum;
      checkSum ← fields checkSum [(addr + 2, 1%nat, busID); (addr + 3, 1%nat, info); (addr + 4, 1%nat, parentBus)];
      put (addr + 5) (le_split 3 0) ;;
      mret (8, checkSum)
  | CompatAddrSpaceMod busID mod_ rangeList =>
      checkSum ← ext_head 130 8 addr checkSum;
      checkSum ← fields checkSum [(addr + 2, 1%nat, busID); (addr + 3, 1%nat, mod_); (addr + 4, 4%nat, rangeList)];
      mret (8, checkSum)
  end.

(** ** The configuration table *)

Record ConfigTable : Type := mkConfigTable {
  ct_specRev : Z;
  ct_oemID : list Z;
  ct_productID : list Z;
  ct_oemTableAddr : Z;
  ct_oemTableSize : Z;
  ct_localApic : Z;
  ct_baseEntries : list BaseConfigEntry;
  ct_extEntries : list ExtConfigEntry
}.

Definition ct_signature : list Z := str_bytes "PCMP".

(** Entries one after the other from [addr + offset]; offsets have 16 bits. *)
Definition entries {E} (writeOut : E → Z → Z → Writer (Z * Z)) (addr : Z) (st : Z * Z) (l : list E) : Writer (Z * Z) :=
  wfold (λ '(offset, checkSum) e, '(size, checkSum) ← writeOut e (addr + offset) checkSum; mret (wrap 16 (offset + size), checkSum)) st l.

Definition ct_writeOut (ct : ConfigTable) (addr : Z) : Writer Z :=
  put addr ct_signature ;;
  let checkSum := foldl add_sum 0 ct_signature in
  put (addr + 6) [ct_specRev ct] ;;
  let checkSum := add_sum checkSum (ct_specRev ct) in
  s ← writeOutString (addr + 8) (ct_oemID ct) 8;
  let checkSum := add_sum checkSum s in
  s ← writeOutString (addr + 16) (ct_productID ct) 12;
  let checkSum := add_sum checkSum s in
  checkSum ← fields checkSum [(addr + 28, 4%nat, ct_oemTableAddr ct); (addr + 32, 2%nat, ct_oemTableSize ct);
    (addr + 34, 2%nat, wrap 16 (Z.of_nat (length (ct_baseEntries ct)))); (addr + 36, 4%nat, ct_localApic ct)];
  put (addr + 43) [0] ;;
  '(offset, checkSum) ← entries base_writeOut addr (44, checkSum) (ct_baseEntries ct);
  checkSum ← fields checkSum [(addr + 4, 2%nat, offset)];
  '(extOffset, extCheckSum) ← entries ext_writeOut (addr + offset) (0, 0) (ct_extEntries ct);
  let extCheckSum := wrap 8 (- extCheckSum) in
  checkSum ← fields checkSum [(addr + 40, 2%nat, extOffset); (addr + 42, 1%nat, extCheckSum)];
  _ ← writeOutField 1 (addr + 7) (wrap 8 (- checkSum));
  mret (offset + extOffset).

(** ** Checksums *)

Lemma add_sum_wrap c x : add_sum (wrap 8 c) x = wrap 8 (c + x).
Proof. unfold add_sum, wrap. by rewrite Z.add_mod_idemp_l. Qed.

Lemma add_sum_wrap2 c x : add_sum (wrap 8 c) (wrap 8 x) = wrap 8 (c + x).
Proof. unfold add_sum, wrap. by rewrite <-Z.add_mod. Qed.

Lemma foldl_add_sum l c : foldl add_sum (wrap 8 c) l = wrap 8 (c + bsum l).
Proof.
  revert c. induction l as [|x l IH]; intros c; simpl; [by rewrite Z.add_0_r|].
  rewrite add_sum_wrap, IH. f_equal. lia.
Qed.

Lemma bsum_zeros n : bsum (replicate n 0) = 0.
Proof. induction n; simpl; lia. Qed.

Lemma le_split_zero n : le_split n 0 = replicate n 0.
Proof. induction n as [|n IH]; [done|]. cbn [le_split replicate]. change (0 / 256) with 0. by rewrite IH. Qed.

(** The loop of [writeOutField] adds up the bytes it wrote. *)
Lemma field_sum_bytes n v c :
  0 ≤ v → field_sum n v (wrap 8 c) = wrap 8 (c + bsum (le_split n v)).
Proof.
  revert v c. induction n as [|n IH]; intros v c Hv; cbn [field_sum le_split bsum foldr]; [by rewrite Z.add_0_r|].
  destruct (Z.eqb_spec v 0) as [->|Hz].
  { change (0 mod 256) with 0. change (0 / 256) with 0. rewrite le_split_zero. fold (bsum (replicate n 0)).
    rewrite bsum_zeros. by rewrite !Z.add_0_r. }
  fold (add_sum (wrap 8 c) v). rewrite add_sum_wrap, Z.shiftr_div_pow2, IH by (try apply Z.div_pos; lia).
  change (2 ^ 8) with 256. fold (bsum (le_split n (v / 256))). unfold wrap. change (2 ^ 8) with 256.
  rewrite Z.add_assoc, (Z.add_mod (c + v)), (Z.add_mod (c + v mod 256)), <-(Z.add_mod_idemp_r c v) by done. done.
Qed.

Lemma le_split_high n k v : in_width (8 * Z.of_nat n) v → le_split (n + k) v = le_split n v ++ replicate k 0.
Proof.
  revert v. induction n as [|n IH]; intros v Hv.
  { unfold in_width in Hv. simpl in Hv. assert (v = 0) as -> by lia. by rewrite le_split_zero. }
  cbn [Nat.add le_split app]. f_equal. apply IH. unfold in_width in *.
  replace (8 * Z.of_nat (S n)) with (8 + 8 * Z.of_nat n) in Hv by lia. rewrite Z.pow_add_r in Hv by lia.
  change (2 ^ 8) with 256 in Hv. split; [apply Z.div_pos; lia|apply Z.div_lt_upper_bound; lia].
Qed.

Lemma field_sum_width n v : (n ≤ 8)%nat → in_width (8 * Z.of_nat n) v → field_sum 8 v 0 = wrap 8 (bsum (le_split n v)).
Proof.
  intros Hn Hv. change 0 with (wrap 8 0) at 1. rewrite field_sum_bytes by apply Hv.
  replace 8%nat with (n + (8 - n))%nat by lia. rewrite le_split_high, bsum_app, bsum_zeros by done. f_equal. lia.
Qed.

(** ** What fields and entries leave in memory *)

Lemma fills_field n a v :
  in_width 64 a → (n ≤ 8)%nat → in_width (8 * Z.of_nat n) v →
  fills (writeOutField n a v) a (le_split n v) (wrap 8 (bsum (le_split n v))).
Proof.
  intros Ha Hn Hv. unfold writeOutField. rewrite (field_sum_width n) by done.
  by apply (fills_then (put a (le_split n v)) (λ _, wrap 8 (bsum (le_split n v))) a _ ()), fills_put.
Qed.

Lemma fills_string a str n :
  in_width 64 a → fills (writeOutString a str n) a (cleanedString str n) (wrap 8 (bsum (cleanedString str n))).
Proof.
  intros Ha. unfold writeOutString. change 0 with (wrap 8 0). rewrite foldl_add_sum, Z.add_0_l.
  by apply (fills_then (put a (cleanedString str n)) (λ _, wrap 8 (bsum (cleanedString str n))) a _ ()), fills_put.
Qed.

Lemma length_cleanedString str n : length (cleanedString str n) = n.
Proof.
  unfold cleanedString. case_decide; [rewrite length_take; lia|]. rewrite length_app, length_replicate. lia.
Qed.

(** Fields side by side. *)
Fixpoint field_bytes (l : list (nat * Z)) : list Z :=
  match l with [] => [] | (n, v) :: l => le_split n v ++ field_bytes l end.
Fixpoint field_places (a : Z) (l : list (nat * Z)) : list (Z * nat * Z) :=
  match l with [] => [] | (n, v) :: l => (a, n, v) :: field_places (a + Z.of_nat n) l end.
Definition field_ok (f : nat * Z) : Prop := (f.1 ≤ 8)%nat ∧ in_width (8 * Z.of_nat f.1) f.2.

Lemma length_field_bytes l : length (field_bytes l) = sum_list_with fst l.
Proof. induction l as [|[n v] l IH]; simpl; [done|]. by rewrite length_app, length_le_split, IH. Qed.

Lemma fills_fields a l c :
  0 ≤ a → a + Z.of_nat (sum_list_with fst l) < 2 ^ 64 → Forall field_ok l →
  fills (fields (wrap 8 c) (field_places a l)) a (field_bytes l) (wrap 8 (c + bsum (field_bytes l))).
Proof.
  revert a c. induction l as [|[n v] l IH]; intros a c Ha He Hl.
  { simpl. rewrite Z.add_0_r. apply fills_ret. }
  apply Forall_cons in Hl as [[Hn Hv] Hl]. simpl in He, Hn, Hv. cbn [field_bytes field_places].
  rewrite bsum_app, Z.add_assoc. unfold fields. cbn [wfold].
  eapply fills_bind; [|reflexivity|].
  - apply fills_then. apply fills_field; [unfold in_width|..]; (done || lia).
  - rewrite length_le_split. rewrite add_sum_wrap2. apply IH; (done || lia).
Qed.

(** The bytes of an entry as the MP specification lays them out; an address
    space mapping shows the address of the entry itself. *)
Definition base_bytes (e : BaseConfigEntry) : list Z :=
  match e with
  | Processor localApicID localApicVersion cpuFlags cpuSignature featureFlags =>
      0 :: field_bytes [(1%nat, localApicID); (1%nat, localApicVersion); (1%nat, cpuFlags); (4%nat, cpuSignature);
                        (4%nat, featureFlags)] ++ replicate 8 0
  | Bus busID busType => 1 :: field_bytes [(1%nat, busID)] ++ cleanedString busType 6
  | IOAPIC id version flags address =>
      2 :: field_bytes [(1%nat, id); (1%nat, version); (1%nat, flags); (4%nat, address)]
  | IntAssignment type interruptType flags sourceBusID sourceBusIRQ destApicID destApicIntIn =>
      type :: field_bytes [(1%nat, interruptType); (2%nat, flags); (1%nat, sourceBusID); (1%nat, sourceBusIRQ);
                           (1%nat, destApicID); (1%nat, destApicIntIn)]
  end.
Definition ext_bytes (addr : Z) (e : ExtConfigEntry) : list Z :=
  match e with
  | AddrSpaceMapping busID addrType _ addrLength =>
      [128; 20] ++ field_bytes [(1%nat, busID); (1%nat, addrType); (8%nat, addr); (8%nat, addrLength)]
  | BusHierarchy busID info parentBus =>
      [129; 8] ++ field_bytes [(1%nat, busID); (1%nat, info); (1%nat, parentBus)] ++ replicate 3 0
  | CompatAddrSpaceMod busID mod_ rangeList =>
      [130; 8] ++ field_bytes [(1%nat, busID); (1%nat, mod_); (4%nat, rangeList)]
  end.
Definition base_size (e : BaseConfigEntry) : nat := match e with Processor _ _ _ _ _ => 20%nat | _ => 8%nat end.
Definition ext_size (e : ExtConfigEntry) : nat := match e with AddrSpaceMapping _ _ _ _ => 20%nat | _ => 8%nat end.

(** The members of an entry have the widths of their types. *)
Definition base_ok (e : BaseConfigEntry) : Prop :=
  match e with
  | Processor i v f s ff => in_width 8 i ∧ in_width 8 v ∧ in_width 8 f ∧ in_width 32 s ∧ in_width 32 ff
  | Bus i _ => in_width 8 i
  | IOAPIC i v f a => in_width 8 i ∧ in_width 8 v ∧ in_width 8 f ∧ in_width 32 a
  | IntAssignment _ i f b q d n =>
      in_width 8 i ∧ in_width 16 f ∧ in_width 8 b ∧ in_width 8 q ∧ in_width 8 d ∧ in_width 8 n
  end.
Definition ext_ok (e : ExtConfigEntry) : Prop :=
  match e with
  | AddrSpaceMapping b t a l => in_width 8 b ∧ in_width 8 t ∧ in_width 64 a ∧ in_width 64 l
  | BusHierarchy b i p => in_width 8 b ∧ in_width 8 i ∧ in_width 8 p
  | CompatAddrSpaceMod b m r => in_width 8 b ∧ in_width 8 m ∧ in_width 32 r
  end.

Lemma length_base_bytes e : length (base_bytes e) = base_size e.
Proof. destruct e; cbn -[le_split cleanedString]; rewrite ?length_app, ?length_le_split, ?length_cleanedString; done. Qed.
Lemma length_ext_bytes a e : length (ext_bytes a e) = ext_size e.
Proof. destruct e; cbn -[le_split]; rewrite ?length_app, ?length_le_split; done. Qed.

Lemma fills_fields_at a places l c :
  places = field_places a l → 0 ≤ a → a + Z.of_nat (sum_list_with fst l) < 2 ^ 64 → Forall field_ok l →
  fills (fields (wrap 8 c) places) a (field_bytes l) (wrap 8 (c + bsum (field_bytes l))).
Proof. intros ->. apply fills_fields. Qed.

Lemma fills_base_head type a c : in_width 64 a → fills (base_head type a (wrap 8 c)) a [type] (wrap 8 (c + type)).
Proof.
  intros H. unfold base_head. rewrite add_sum_wrap.
  by apply (fills_then (put a [type]) (λ _, wrap 8 (c + type)) a _ ()), fills_put.
Qed.

Lemma fills_ext_head type len a c :
  0 ≤ a → a + 1 < 2 ^ 64 → fills (ext_head type len a (wrap 8 c)) a [type; len] (wrap 8 (c + type + len)).
Proof.
  intros H H'. unfold ext_head. rewrite !add_sum_wrap. change [type; len] with ([type] ++ [len]).
  eapply fills_bind; [apply fills_put; unfold in_width; lia|reflexivity|]. simpl (length _).
  by apply (fills_then (put (a + 1) [len]) (λ _, wrap 8 (c + type + len)) _ _ ()), fills_put; unfold in_width; lia.
Qed.

Lemma fills_at {A} (w : Writer A) a a' b r : fills w a b r → a = a' → fills w a' b r.
Proof. by intros ? <-. Qed.

Lemma fills_res {A} (w : Writer A) a b r r' : fills w a b r → r = r' → fills w a b r'.
Proof. by intros ? <-. Qed.

(** Running a writer piece by piece over consecutive regions. *)
Ltac solve_places :=
  cbn [field_places length Z.of_nat];
  repeat match goal with |- _ :: _ = _ :: _ => f_equal | |- (_, _) = (_, _) => f_equal end; first [reflexivity | lia].
Ltac fill_len := rewrite ?length_field_bytes, ?length_le_split, ?length_cleanedString; cbn; unfold in_width; lia.
Ltac solve_fields := repeat first [apply Forall_nil_2 | apply Forall_cons_2; [split; simpl; [lia|tauto]|]].
Ltac fill_fields := apply fills_fields_at; [solve_places|fill_len|fill_len|solve_fields].
Ltac fill_put :=
  lazymatch goal with
  | |- fills (base_head _ _ _) _ _ _ => apply fills_base_head; fill_len
  | |- fills (ext_head _ _ _ _) _ _ _ => apply fills_ext_head; fill_len
  | |- fills (fields _ _) _ _ _ => fill_fields
  | |- fills (writeOutString _ _ _) _ _ _ => apply fills_string; fill_len
  | |- fills (put _ _) _ _ _ => apply fills_put; fill_len
  end.
Ltac fill_step := eapply fills_bind; [eapply fills_at; [fill_put|fill_len]|reflexivity|].

Ltac fill_end :=
  eapply fills_res; [eapply fills_then, fills_at; [fill_put|fill_len]|];
  apply pair_eq; split; [reflexivity|]; cbn [fst snd]; rewrite ?add_sum_wrap2; f_equal;
  rewrite ?bsum_app, ?bsum_cons, ?le_split_zero, ?bsum_zeros; try change (bsum []) with 0; lia.

Lemma fills_base e a c :
  base_ok e → 0 ≤ a → a + Z.of_nat (base_size e) < 2 ^ 64 →
  fills (base_writeOut e a (wrap 8 c)) a (base_bytes e) (Z.of_nat (base_size e), wrap 8 (c + bsum (base_bytes e))).
Proof.
  intros Hok Ha He. destruct e as [i v f s ff|i t|i v f ad|ty i f b q d n]; cbn [base_ok base_size] in *;
    unfold base_writeOut; cbn [base_bytes base_size];
    match goal with |- fills _ _ (?t :: ?l) (_, wrap 8 (_ + bsum (?t :: ?l))) => change (t :: l) with ([t] ++ l) end; fill_step.
  - fill_step. change (replicate 8 0) with (le_split 4 0 ++ le_split 4 0). fill_step. fill_end.
  - fill_step. fill_end.
  - fill_end.
  - fill_end.
Qed.

Lemma fills_ext e a c :
  ext_ok e → 0 ≤ a → a + Z.of_nat (ext_size e) < 2 ^ 64 →
  fills (ext_writeOut e a (wrap 8 c)) a (ext_bytes a e) (Z.of_nat (ext_size e), wrap 8 (c + bsum (ext_bytes a e))).
Proof.
  intros Hok Ha He. assert (in_width 64 a) by (unfold in_width; lia).
  destruct e as [b t d l|b i p|b m r]; cbn [ext_ok ext_size] in *;
    unfold ext_writeOut; cbn [ext_bytes ext_size]; fill_step.
  - fill_end.
  - fill_step. fill_end.
  - fill_end.
Qed.

(** ** Runs of entries *)

Section Runs.

Context {E : Type} (writeOut : E → Z → Z → Writer (Z * Z)) (bytes : Z → E → list Z) (size : E → nat) (ok : E → Prop).
Hypothesis fills_entry : ∀ e a c, ok e → 0 ≤ a → a + Z.of_nat (size e) < 2 ^ 64 →
  fills (writeOut e a (wrap 8 c)) a (bytes a e) (Z.of_nat (size e), wrap 8 (c + bsum (bytes a e))).
Hypothesis entry_length : ∀ a e, length (bytes a e) = size e.

(** The bytes of entries side by side from [a]. *)
Fixpoint run_bytes (a : Z) (l : list E) : list Z :=
  match l with [] => [] | e :: l => bytes a e ++ run_bytes (a + Z.of_nat (size e)) l end.

Lemma length_run_bytes a l : length (run_bytes a l) = sum_list_with size l.
Proof using entry_length. revert a. induction l as [|e l IH]; intros a; simpl; [done|]. by rewrite length_app, entry_length, IH. Qed.

Lemma fills_entries a off c l :
  Forall ok l → 0 ≤ a → 0 ≤ off → off + Z.of_nat (sum_list_with size l) < 2 ^ 16 →
  a + off + Z.of_nat (sum_list_with size l) < 2 ^ 64 →
  fills (entries writeOut a (off, wrap 8 c) l) (a + off) (run_bytes (a + off) l)
    (off + Z.of_nat (sum_list_with size l), wrap 8 (c + bsum (run_bytes (a + off) l))).
Proof using fills_entry entry_length.
  revert off c. induction l as [|e l IH]; intros off c Hl Ha Ho Hs He; simpl in *.
  { rewrite !Z.add_0_r. apply fills_ret. }
  apply Forall_cons in Hl as [He1 Hl]. unfold entries. cbn [wfold]. eapply fills_bind; [|reflexivity|].
  - rewrite <-(app_nil_r (bytes (a + off) e)).
    eapply fills_bind; [apply fills_entry; (done || lia)|reflexivity|]. apply fills_ret.
  - rewrite entry_length. cbn beta iota. rewrite wrap_small by (unfold in_width; lia).
    fold (entries writeOut a (off + Z.of_nat (size e), wrap 8 (c + bsum (bytes (a + off) e))) l).
    eapply fills_res; [eapply fills_at; [replace (a + off + Z.of_nat (size e)) with (a + (off + Z.of_nat (size e))) by lia; apply IH; (done || lia)|lia]|].
    apply pair_eq. split; simpl; [lia|]. rewrite bsum_app. f_equal. rewrite <-Z.add_assoc.
    do 2 f_equal; f_equal; f_equal; lia.
Qed.

End Runs.

(** ** The configuration table *)

Definition mp_base (ct : ConfigTable) : list Z := run_bytes (λ _, base_bytes) base_size 0 (ct_baseEntries ct).
Definition mp_base_size (ct : ConfigTable) : Z := 44 + Z.of_nat (sum_list_with base_size (ct_baseEntries ct)).
Definition mp_ext (a : Z) (ct : ConfigTable) : list Z := run_bytes ext_bytes ext_size (a + mp_base_size ct) (ct_extEntries ct).
Definition mp_ext_size (ct : ConfigTable) : Z := Z.of_nat (sum_list_with ext_size (ct_extEntries ct)).

(** The 44 bytes of the header, with a given checksum. *)
Definition mp_header (a : Z) (ct : ConfigTable) (checkSum : Z) : list (list Z) :=
  [ct_signature; le_split 2 (mp_base_size ct); [ct_specRev ct]; [checkSum]; cleanedString (ct_oemID ct) 8;
   cleanedString (ct_productID ct) 12; le_split 4 (ct_oemTableAddr ct); le_split 2 (ct_oemTableSize ct);
   le_split 2 (Z.of_nat (length (ct_baseEntries ct))); le_split 4 (ct_localApic ct); le_split 2 (mp_ext_size ct);
   [wrap 8 (- bsum (mp_ext a ct))]; [0]].
Definition mp_checkSum (a : Z) (ct : ConfigTable) : Z := wrap 8 (- bsum (concat (mp_header a ct 0) ++ mp_base ct)).

(** The table in memory. *)
Definition mp_table (a : Z) (ct : ConfigTable) : list Z :=
  concat (mp_header a ct (mp_checkSum a ct)) ++ mp_base ct ++ mp_ext a ct.

Record ct_ok (ct : ConfigTable) : Prop := {
  cto_rev : in_width 8 (ct_specRev ct);
  cto_oem : in_width 32 (ct_oemTableAddr ct);
  cto_oemsize : in_width 16 (ct_oemTableSize ct);
  cto_apic : in_width 32 (ct_localApic ct);
  cto_base : Forall base_ok (ct_baseEntries ct);
  cto_ext : Forall ext_ok (ct_extEntries ct);
  cto_size : mp_base_size ct + mp_ext_size ct < 2 ^ 16
}.

Lemma run_bytes_base a l : run_bytes (λ _, base_bytes) base_size a l = run_bytes (λ _, base_bytes) base_size 0 l.
Proof. revert a. generalize 0. induction l as [|e l IH]; intros x a; [done|]. simpl. f_equal. apply IH. Qed.

Lemma fills_base_run ct a c :
  ct_ok ct → 0 ≤ a → a + mp_base_size ct < 2 ^ 64 →
  fills (entries base_writeOut a (44, wrap 8 c) (ct_baseEntries ct)) (a + 44) (mp_base ct)
    (mp_base_size ct, wrap 8 (c + bsum (mp_base ct))).
Proof.
  intros H Ha He. destruct H. unfold mp_base, mp_base_size, mp_ext_size in *. rewrite <-(run_bytes_base (a + 44)).
  apply (fills_entries base_writeOut (λ _, base_bytes) base_size base_ok); try done; try lia.
  - intros. by apply fills_base.
  - intros. apply length_base_bytes.
Qed.

Lemma fills_ext_run ct a :
  ct_ok ct → 0 ≤ a → a + mp_base_size ct + mp_ext_size ct < 2 ^ 64 →
  fills (entries ext_writeOut (a + mp_base_size ct) (0, 0) (ct_extEntries ct)) (a + mp_base_size ct) (mp_ext a ct)
    (mp_ext_size ct, wrap 8 (bsum (mp_ext a ct))).
Proof.
  intros H Ha He. destruct H. unfold mp_ext, mp_base_size, mp_ext_size in *. set (x := a + _) in *.
  change 0 with (wrap 8 0) at 2. replace x with (x + 0) at 2 3 4 by lia.
  pose proof (fills_entries ext_writeOut ext_bytes ext_size ext_ok) as F.
  eapply fills_res; [apply F|]; try done; try lia.
  - intros. by apply fills_ext.
  - intros. apply length_ext_bytes.
Qed.

(** ** Headers, whose fields are written out of order *)

(** The blobs and the checksum of a run of fields at any places. *)
Definition place_blobs (l : list (Z * nat * Z)) : list Blob := (λ '(a, n, v), (a, le_split n v)) <$> l.
Definition place_ok (f : Z * nat * Z) : Prop := in_width 64 f.1.1 ∧ field_ok (f.1.2, f.2).

Lemma writes_field n a v :
  in_width 64 a → (n ≤ 8)%nat → in_width (8 * Z.of_nat n) v →
  writes (writeOutField n a v) [(a, le_split n v)] (wrap 8 (bsum (le_split n v))).
Proof.
  intros Ha Hn Hv. unfold writeOutField. rewrite (field_sum_width n) by done.
  by apply (writes_then (put a (le_split n v)) (λ _, wrap 8 (bsum (le_split n v))) _ ()), writes_put.
Qed.

Lemma writes_string a str n :
  in_width 64 a → writes (writeOutString a str n) [(a, cleanedString str n)] (wrap 8 (bsum (cleanedString str n))).
Proof.
  intros Ha. unfold writeOutString. change 0 with (wrap 8 0). rewrite foldl_add_sum, Z.add_0_l.
  by apply (writes_then (put a (cleanedString str n)) (λ _, wrap 8 (bsum (cleanedString str n))) _ ()), writes_put.
Qed.

Lemma writes_fields l c :
  Forall place_ok l → writes (fields (wrap 8 c) l) (place_blobs l) (wrap 8 (c + bsum (concat (place_blobs l).*2))).
Proof.
  revert c. induction l as [|[[a n] v] l IH]; intros c Hl; [cbn; by rewrite Z.add_0_r|].
  apply Forall_cons in Hl as [(Ha & Hn & Hv) Hl]. cbn [place_blobs fmap list_fmap concat snd]. rewrite bsum_app, Z.add_assoc.
  unfold fields. cbn [wfold]. apply (writes_bind _ _ [(a, le_split n v)] (wrap 8 (c + bsum (le_split n v)))); [|by apply IH].
  rewrite <-add_sum_wrap2. by apply (writes_then (writeOutField n a v)), writes_field.
Qed.

Lemma length_ct_signature : length ct_signature = 4%nat.
Proof. done. Qed.

Create Rewrite HintDb blob_len.
#[export] Hint Rewrite length_le_split length_cleanedString length_ct_signature : blob_len.

(** Steps of a writer in turn, and the last write of a piece. *)
Ltac solve_width := first [done | apply wrap_range; lia | unfold in_width; lia].
Ltac solve_place_oks :=
  repeat first [apply Forall_nil_2 | apply Forall_cons_2; [split; [cbn; solve_width|split; simpl; [lia|solve_width]]|]].
Ltac write_step := eapply writes_bind; [first
  [ by apply writes_lift | apply writes_put; solve_width | apply writes_string; solve_width
  | apply writes_field; [solve_width|lia|simpl; solve_width] | apply writes_fields; solve_place_oks ]|].
Ltac solve_avoids :=
  match goal with
  | |- avoids _ _ (_ ++ _) => apply avoids_app; split; solve_avoids
  | |- avoids _ _ [] => apply avoids_nil
  | |- avoids _ _ (_ :: _) => apply avoids_cons; [autorewrite with blob_len; simpl; lia|solve_avoids]
  | H : within _ _ ?l |- avoids _ _ ?l => eapply within_avoids; [exact H|autorewrite with blob_len; simpl; lia]
  end.
Ltac find_write :=
  lazymatch goal with
  | |- last_write _ _ (_ ++ _) => first [apply lw_right; find_write | apply lw_left; [find_write|solve_avoids]]
  | |- last_write _ _ (_ :: _) => first [apply lw_skip; find_write | apply lw_hit; solve_avoids]
  end.
Ltac solve_within :=
  repeat first [apply Forall_nil_2
               | apply Forall_cons_2; [cbn [fst snd]; autorewrite with blob_len; simpl; lia|]
               | apply within_app; split].

Lemma entry_count l : (length l ≤ sum_list_with base_size l)%nat.
Proof. induction l as [|e l IH]; simpl; [done|]. destruct e; simpl; lia. Qed.

Lemma wrap_opp_wrap w x : 0 < w → wrap w (- wrap w x) = wrap w (- x).
Proof. intros H. unfold wrap. rewrite <-!(Z.sub_0_l (_ mod _)), <-(Z.sub_0_l x). by rewrite Zminus_mod_idemp_r. Qed.

Lemma length_mp_base ct : Z.of_nat (length (mp_base ct)) = mp_base_size ct - 44.
Proof.
  unfold mp_base, mp_base_size. rewrite length_run_bytes; [lia|]. intros. apply length_base_bytes.
Qed.
Lemma length_mp_ext a ct : Z.of_nat (length (mp_ext a ct)) = mp_ext_size ct.
Proof. unfold mp_ext, mp_ext_size. rewrite length_run_bytes; [lia|]. intros. apply length_ext_bytes. Qed.
Lemma length_mp_header a ct c : length (concat (mp_header a ct c)) = 44%nat.
Proof. cbn [mp_header concat]. rewrite !length_app, !length_le_split, !length_cleanedString. done. Qed.

(** The writes of the table around those of its entries. *)
Definition table_log (a : Z) (ct : ConfigTable) (l1 l2 : list Blob) : list Blob :=
  [(a, ct_signature); (a + 6, [ct_specRev ct]); (a + 8, cleanedString (ct_oemID ct) 8);
   (a + 16, cleanedString (ct_productID ct) 12); (a + 28, le_split 4 (ct_oemTableAddr ct));
   (a + 32, le_split 2 (ct_oemTableSize ct)); (a + 34, le_split 2 (Z.of_nat (length (ct_baseEntries ct))));
   (a + 36, le_split 4 (ct_localApic ct)); (a + 43, [0])] ++ l1 ++
  [(a + 4, le_split 2 (mp_base_size ct))] ++ l2 ++
  [(a + 40, le_split 2 (mp_ext_size ct)); (a + 42, [wrap 8 (- bsum (mp_ext a ct))]); (a + 7, [mp_checkSum a ct])].

Lemma le_split_byte x : in_width 8 x → le_split 1 x = [x].
Proof. intros H. cbn. by rewrite (Z.mod_small x 256). Qed.

Lemma table_writes ct a :
  ct_ok ct → 0 ≤ a → a + mp_base_size ct + mp_ext_size ct < 2 ^ 64 →
  ∃ l1 l2, writes (ct_writeOut ct a) (table_log a ct l1 l2) (mp_base_size ct + mp_ext_size ct) ∧
    within (a + 44) (a + mp_base_size ct) l1 ∧ (∀ f, bytes_at (image f l1) (a + 44) (length (mp_base ct)) = mp_base ct) ∧
    within (a + mp_base_size ct) (a + mp_base_size ct + mp_ext_size ct) l2 ∧
    ∀ f, bytes_at (image f l2) (a + mp_base_size ct) (length (mp_ext a ct)) = mp_ext a ct.
Proof.
  intros H Ha He. pose proof H as []. pose proof (entry_count (ct_baseEntries ct)).
  assert (0 ≤ mp_ext_size ct) by (unfold mp_ext_size; lia).
  assert (Z.of_nat (length (ct_baseEntries ct)) + 44 ≤ mp_base_size ct) by (unfold mp_base_size; lia).
  set (n := Z.of_nat (length (ct_baseEntries ct))) in *.
  set (P := [(a + 28, 4%nat, ct_oemTableAddr ct); (a + 32, 2%nat, ct_oemTableSize ct); (a + 34, 2%nat, n); (a + 36, 4%nat, ct_localApic ct)]).
  set (c := bsum ct_signature + ct_specRev ct + bsum (cleanedString (ct_oemID ct) 8) + bsum (cleanedString (ct_productID ct) 12)
            + bsum (concat (place_blobs P).*2)).
  destruct (fills_base_run ct a c H Ha ltac:(lia)) as (l1 & W1 & I1 & F1).
  destruct (fills_ext_run ct a H Ha He) as (l2 & W2 & I2 & F2).
  rewrite length_mp_base in I1. rewrite length_mp_ext in I2. exists l1, l2.
  split; [|split; [by replace (a + mp_base_size ct) with (a + 44 + (mp_base_size ct - 44)) by lia|done]].
  unfold ct_writeOut. change (foldl add_sum 0 ct_signature) with (wrap 8 (bsum ct_signature)). rewrite add_sum_wrap.
  fold n. rewrite (wrap_small 16 n) by (unfold in_width; lia).
  eassert (writes _ _ _) as W; [|match goal with |- writes _ ?l _ => match type of W with writes _ ?l' _ => replace l with l'; [exact W|] end end].
  - write_step. write_step. write_step. rewrite add_sum_wrap2. write_step. rewrite add_sum_wrap2. write_step.
    write_step. eapply writes_bind; [exact W1|]. write_step.
    eapply writes_bind; [exact W2|]. cbv zeta. write_step. write_step. apply writes_ret.
  - unfold table_log. rewrite app_nil_r. fold n. cbn [place_blobs fmap list_fmap app].
    rewrite !wrap_opp_wrap, (le_split_byte (wrap 8 (- bsum _))), le_split_byte by (lia || apply wrap_range; lia).
    repeat f_equal. unfold mp_checkSum. f_equal. f_equal. subst c P. cbn [place_blobs fmap list_fmap concat snd mp_header].
    rewrite !bsum_app, !bsum_cons. change (bsum []) with 0. fold n. lia.
Qed.

Lemma fills_table ct a :
  ct_ok ct → 0 ≤ a → a + mp_base_size ct + mp_ext_size ct < 2 ^ 64 →
  fills (ct_writeOut ct a) a (mp_table a ct) (mp_base_size ct + mp_ext_size ct).
Proof.
  intros H Ha He. destruct (table_writes ct a H Ha He) as (l1 & l2 & W & I1 & F1 & I2 & F2).
  pose proof (length_mp_base ct). pose proof (length_mp_ext a ct). exists (table_log a ct l1 l2). split; [done|].
  unfold mp_table. rewrite !length_app, length_mp_header. split.
  - unfold table_log. apply within_app. split; [solve_within|]. apply within_app. split; [eapply within_mono; [done|lia|lia]|].
    apply within_app. split; [solve_within|]. apply within_app. split; [eapply within_mono; [done|lia|lia]|solve_within].
  - intros f. rewrite !bytes_at_add. f_equal; [|f_equal].
    + rewrite <-(length_mp_header a ct (mp_checkSum a ct)). apply laid_read. cbn [mp_header laid].
      rewrite !length_le_split, !length_cleanedString. simpl (length _). rewrite <-!Z.add_assoc. simpl (Z.add (Z.of_nat _) _).
      repeat first [apply Forall_nil_2 | apply Forall_cons_2]; cbn [fst snd]; apply last_write_read; unfold table_log; find_write.
    + unfold table_log. rewrite image_app, image_app. rewrite bytes_at_avoids; [apply F1|]. solve_avoids.
    + replace (a + Z.of_nat 44 + Z.of_nat (length (mp_base ct))) with (a + mp_base_size ct) by lia.
      unfold table_log. rewrite 4!image_app. rewrite bytes_at_avoids; [apply F2|]. solve_avoids.
Qed.

(** ** The floating pointer structure *)

Definition fp_features (fp : FloatingPointer) : Z := if fp_imcrPresent fp then Z.shiftl 1 7 else 0.
Definition fp_pieces (fp : FloatingPointer) (checkSum : Z) : list (list Z) :=
  [fp_signature; le_split 4 (fp_tableAddr fp); [1]; [fp_specRev fp]; [checkSum]; [fp_defaultConfig fp]; le_split 4 (fp_features fp)].
Definition fp_checkSum (fp : FloatingPointer) : Z := wrap 8 (- bsum (concat (fp_pieces fp 0))).
Definition fp_bytes (fp : FloatingPointer) : list Z := concat (fp_pieces fp (fp_checkSum fp)).

Record fp_ok (fp : FloatingPointer) : Prop := {
  fpo_table : in_width 32 (fp_tableAddr fp);
  fpo_rev : in_width 8 (fp_specRev fp);
  fpo_default : in_width 8 (fp_defaultConfig fp);
  fpo_one : fp_tableAddr fp = 0 ↔ fp_defaultConfig fp ≠ 0
}.

Lemma fills_fp fp a : fp_ok fp → 0 ≤ a → a + 16 < 2 ^ 64 → fills (fp_writeOut fp a) a (fp_bytes fp) 16.
Proof.
  intros [T R D O] Ha He. assert (in_width 32 (fp_features fp)) by (unfold fp_features; destruct (fp_imcrPresent fp); by unfold in_width; vm_compute).
  assert (length (fp_bytes fp) = 16%nat) as Hl by (unfold fp_bytes, fp_pieces; cbn [concat]; rewrite !length_app, !length_le_split; done).
  assert (writes (fp_writeOut fp a)
    [(a, fp_signature); (a + 4, le_split 4 (fp_tableAddr fp)); (a + 8, [1]); (a + 9, [fp_specRev fp]);
     (a + 11, [fp_defaultConfig fp]); (a + 12, le_split 4 (fp_features fp)); (a + 10, [fp_checkSum fp])] 16) as W.
  { unfold fp_writeOut. fold (fp_features fp). change (foldl add_sum 0 fp_signature) with (wrap 8 (bsum fp_signature)).
    assert ((fp_tableAddr fp =? 0) && (fp_defaultConfig fp =? 0) = false ∧
            negb (fp_tableAddr fp =? 0) && negb (fp_defaultConfig fp =? 0) = false) as [-> ->]
      by (destruct (Z.eqb_spec (fp_tableAddr fp) 0), (Z.eqb_spec (fp_defaultConfig fp) 0); (done || tauto)).
    eassert (writes _ _ _) as W; [|match goal with |- writes _ ?l _ => match type of W with writes _ ?l' _ => replace l with l'; [exact W|] end end].
    - do 4 write_step. rewrite add_sum_wrap2. do 3 write_step. rewrite !add_sum_wrap. write_step. rewrite add_sum_wrap2. write_step. apply writes_ret.
    - rewrite app_nil_r. cbn [app]. rewrite wrap_opp_wrap by lia. repeat f_equal. unfold fp_checkSum. f_equal. f_equal. unfold fp_pieces. cbn [concat].
      rewrite !bsum_app, !bsum_cons. change (bsum []) with 0. lia. }
  eexists. split; [exact W|]. rewrite Hl. split; [solve_within|]. intros f. rewrite <-Hl. apply laid_read. unfold fp_pieces. cbn [laid].
  rewrite !length_le_split. simpl (length _). rewrite <-!Z.add_assoc. simpl (Z.add (Z.of_nat _) _).
  repeat first [apply Forall_nil_2 | apply Forall_cons_2]; cbn [fst snd]; apply last_write_read; find_write.
Qed.

(** ** Properties *)

Lemma fp_checksum_zero fp : wrap 8 (bsum (fp_bytes fp)) = 0.
Proof.
  unfold fp_bytes, fp_checkSum. set (x := bsum (concat (fp_pieces fp 0))).
  replace (bsum _) with (x + wrap 8 (- x)).
  - unfold wrap. rewrite Z.add_mod_idemp_r, Z.add_opp_diag_r by done. done.
  - subst x. unfold fp_pieces. cbn [concat]. rewrite !bsum_app, !bsum_cons. lia.
Qed.

Lemma mp_checksum_zero ct a : wrap 8 (bsum (concat (mp_header a ct (mp_checkSum a ct)) ++ mp_base ct)) = 0.
Proof.
  unfold mp_checkSum. set (x := bsum (concat (mp_header a ct 0) ++ mp_base ct)).
  replace (bsum _) with (x + wrap 8 (- x)).
  - unfold wrap. rewrite Z.add_mod_idemp_r, Z.add_opp_diag_r by done. done.
  - subst x. cbn [mp_header concat]. rewrite !bsum_app, !bsum_cons. lia.
Qed.

(** The bytes [fp_writeOut] leaves, field by field. *)
Lemma fp_image fp b f :
  fp_ok fp → 0 ≤ b → b + 16 < 2 ^ 64 →
  ∃ log, writes (fp_writeOut fp b) log 16 ∧ within b (b + 16) log ∧
    let m := image f log in
    bytes_at m b 16 = fp_bytes fp ∧ bytes_at m b 4 = fp_signature ∧ le_combine (bytes_at m (b + 4) 4) = fp_tableAddr fp ∧
    bytes_at m (b + 8) 2 = [1; fp_specRev fp] ∧ bytes_at m (b + 11) 1 = [fp_defaultConfig fp] ∧
    le_combine (bytes_at m (b + 12) 4) = fp_features fp.
Proof.
  intros Hok Hb He. destruct (fills_fp fp b Hok Hb He) as (log & W & I & F). exists log. split; [done|].
  assert (length (fp_bytes fp) = 16%nat) as Hl by (unfold fp_bytes, fp_pieces; cbn [concat]; rewrite !length_app, !length_le_split; done).
  rewrite Hl in *. split; [exact I|]. intros m. specialize (F f). fold m in F. split; [exact F|]. pose proof F as P. rewrite <-Hl in P.
  apply laid_get in P. unfold fp_pieces in P. cbn [laid] in P. rewrite !length_le_split in P. simpl (length _) in P.
  rewrite <-!Z.add_assoc in P. simpl (Z.add (Z.of_nat _) _) in P.
  assert (in_width 32 (fp_features fp)) by (unfold fp_features; destruct (fp_imcrPresent fp); by unfold in_width; vm_compute).
  split; [exact (Forall_lookup_1 _ _ 0 _ P eq_refl)|].
  assert (bytes_at m (b + 4) 4 = le_split 4 (fp_tableAddr fp)) as -> by exact (Forall_lookup_1 _ _ 1 _ P eq_refl).
  assert (bytes_at m (b + 12) 4 = le_split 4 (fp_features fp)) as -> by exact (Forall_lookup_1 _ _ 6 _ P eq_refl).
  destruct Hok. rewrite !le_combine_split_small by (unfold in_width in *; simpl; lia). split; [done|]. split.
  - change 2%nat with (1 + 1)%nat. rewrite bytes_at_add.
    assert (bytes_at m (b + 8) 1 = [1]) as -> by exact (Forall_lookup_1 _ _ 2 _ P eq_refl).
    replace (b + 8 + Z.of_nat 1) with (b + 9) by lia.
    assert (bytes_at m (b + 9) 1 = [fp_specRev fp]) as -> by exact (Forall_lookup_1 _ _ 3 _ P eq_refl). done.
  - split; [exact (Forall_lookup_1 _ _ 5 _ P eq_refl)|done].
Qed.

(** The configuration table that [ct_writeOut] leaves. *)
Lemma table_image ct a f :
  ct_ok ct → 0 ≤ a → a + mp_base_size ct + mp_ext_size ct < 2 ^ 64 →
  ∃ log, writes (ct_writeOut ct a) log (mp_base_size ct + mp_ext_size ct) ∧
    within a (a + (mp_base_size ct + mp_ext_size ct)) log ∧
    let m := image f log in
    bytes_at m a (Z.to_nat (mp_base_size ct)) = concat (mp_header a ct (mp_checkSum a ct)) ++ mp_base ct ∧
    bytes_at m (a + mp_base_size ct) (Z.to_nat (mp_ext_size ct)) = mp_ext a ct ∧
    Forall (λ p, bytes_at m p.1 (length p.2) = p.2) (laid a (mp_header a ct (mp_checkSum a ct))) ∧
    bytes_at m (a + 44) (length (mp_base ct)) = mp_base ct.
Proof.
  intros H Ha He. destruct (fills_table ct a H Ha He) as (log & W & I & F). exists log. split; [done|].
  pose proof (length_mp_base ct) as Lb. pose proof (length_mp_ext a ct) as Lx.
  pose proof (entry_count (ct_baseEntries ct)). assert (0 ≤ mp_base_size ct - 44 ∧ 0 ≤ mp_ext_size ct) by lia.
  specialize (F f). unfold mp_table in F, I. rewrite !length_app, length_mp_header in F, I. split; [eapply within_mono; [done|lia|lia]|].
  intros m. fold m in F. rewrite app_assoc, Nat.add_assoc, bytes_at_add in F.
  apply app_inj_1 in F as [Fb Fx]; [|rewrite length_bytes_at, length_app, length_mp_header; lia].
  replace (Z.to_nat (mp_base_size ct)) with (44 + length (mp_base ct))%nat by lia.
  replace (Z.to_nat (mp_ext_size ct)) with (length (mp_ext a ct)) by lia.
  replace (a + mp_base_size ct) with (a + Z.of_nat (44 + length (mp_base ct))) by lia.
  split; [done|]. split; [done|]. rewrite bytes_at_add in Fb.
  apply app_inj_1 in Fb as [Fh Fe]; [|by rewrite length_bytes_at, length_mp_header]. split; [|exact Fe].
  rewrite <-(length_mp_header a ct (mp_checkSum a ct)) in Fh. by apply laid_get in Fh.
Qed.

(** C33: the MP tables are valid in memory.  For any configuration table whose
    entries fit 16-bit offsets, [ConfigTable::writeOut] writes only the bytes
    of the table: the signature, revision, identifications and addresses in the
    header, then the base entries and the extended entries one after the other,
    each in the layout of the specification ([base_bytes], [ext_bytes]; an
    address space mapping shows its own place where its address belongs); the
    bytes of the base table add up to zero modulo 256, the extended entries and
    their checksum do too, and the length and count fields hold the size of the
    base table, the number of entries and the size of the extended table.
    [FloatingPointer::writeOut] writes only its 16 bytes: the signature, the
    address of the table, length, revision, default configuration and the mode
    flag, with a sum of zero; it fails if both or neither of a table and a
    default configuration are given. *)
Theorem mp_table_checksums (ct : ConfigTable) (fp : FloatingPointer) (a b : Z) (f : Z → Z) :
  ct_ok ct → 0 ≤ a → a + mp_base_size ct + mp_ext_size ct < 2 ^ 64 →
  in_width 32 (fp_tableAddr fp) → in_width 8 (fp_specRev fp) → in_width 8 (fp_defaultConfig fp) → 0 ≤ b → b + 16 < 2 ^ 64 →
  (∃ log, writes (ct_writeOut ct a) log (mp_base_size ct + mp_ext_size ct) ∧
    within a (a + (mp_base_size ct + mp_ext_size ct)) log ∧
    let m := image f log in
    wrap 8 (bsum (bytes_at m a (Z.to_nat (mp_base_size ct)))) = 0 ∧
    wrap 8 (bsum (bytes_at m (a + mp_base_size ct) (Z.to_nat (mp_ext_size ct))) + bsum (bytes_at m (a + 42) 1)) = 0 ∧
    bytes_at m a 4 = ct_signature ∧ bytes_at m (a + 6) 1 = [ct_specRev ct] ∧
    bytes_at m (a + 8) 8 = cleanedString (ct_oemID ct) 8 ∧ bytes_at m (a + 16) 12 = cleanedString (ct_productID ct) 12 ∧
    le_combine (bytes_at m (a + 28) 4) = ct_oemTableAddr ct ∧ le_combine (bytes_at m (a + 32) 2) = ct_oemTableSize ct ∧
    le_combine (bytes_at m (a + 36) 4) = ct_localApic ct ∧
    le_combine (bytes_at m (a + 4) 2) = mp_base_size ct ∧
    le_combine (bytes_at m (a + 34) 2) = Z.of_nat (length (ct_baseEntries ct)) ∧
    le_combine (bytes_at m (a + 40) 2) = mp_ext_size ct ∧
    bytes_at m (a + 44) (length (mp_base ct)) = mp_base ct ∧
    bytes_at m (a + mp_base_size ct) (Z.to_nat (mp_ext_size ct)) = mp_ext a ct) ∧
  if bool_decide (fp_tableAddr fp = 0 ↔ fp_defaultConfig fp ≠ 0) then
    ∃ log, writes (fp_writeOut fp b) log 16 ∧ within b (b + 16) log ∧
      let m := image f log in
      wrap 8 (bsum (bytes_at m b 16)) = 0 ∧ bytes_at m b 4 = fp_signature ∧ le_combine (bytes_at m (b + 4) 4) = fp_tableAddr fp ∧
      bytes_at m (b + 8) 2 = [1; fp_specRev fp] ∧ bytes_at m (b + 11) 1 = [fp_defaultConfig fp] ∧
      le_combine (bytes_at m (b + 12) 4) = (if fp_imcrPresent fp then 128 else 0)
  else runWriter (fp_writeOut fp b) = Err FatalCalled.
Proof.
  intros H Ha He F1 F2 F3 Hb Hb2. split.
  - destruct (table_image ct a f H Ha He) as (log & W & I & Fb & Fx & Fh & Fe). exists log. split; [done|]. split; [done|].
    intros m. fold m in Fb, Fx, Fh, Fe. rewrite Fb, Fx, mp_checksum_zero. pose proof H as [].
    pose proof (length_mp_ext a ct) as Lx. pose proof (entry_count (ct_baseEntries ct)).
    assert (Z.of_nat (length (ct_baseEntries ct)) + 44 ≤ mp_base_size ct ∧ 0 ≤ mp_ext_size ct) by (unfold mp_base_size; lia).
    cbn [mp_header laid] in Fh. rewrite !length_le_split, !length_cleanedString in Fh. simpl (length _) in Fh.
    rewrite <-!Z.add_assoc in Fh. simpl (Z.add (Z.of_nat _) _) in Fh.
    assert (bytes_at m (a + 4) 2 = le_split 2 (mp_base_size ct)) as -> by exact (Forall_lookup_1 _ _ 1 _ Fh eq_refl).
    assert (bytes_at m (a + 28) 4 = le_split 4 (ct_oemTableAddr ct)) as -> by exact (Forall_lookup_1 _ _ 6 _ Fh eq_refl).
    assert (bytes_at m (a + 32) 2 = le_split 2 (ct_oemTableSize ct)) as -> by exact (Forall_lookup_1 _ _ 7 _ Fh eq_refl).
    assert (bytes_at m (a + 34) 2 = le_split 2 (Z.of_nat (length (ct_baseEntries ct)))) as -> by exact (Forall_lookup_1 _ _ 8 _ Fh eq_refl).
    assert (bytes_at m (a + 36) 4 = le_split 4 (ct_localApic ct)) as -> by exact (Forall_lookup_1 _ _ 9 _ Fh eq_refl).
    assert (bytes_at m (a + 40) 2 = le_split 2 (mp_ext_size ct)) as -> by exact (Forall_lookup_1 _ _ 10 _ Fh eq_refl).
    assert (bytes_at m (a + 42) 1 = [wrap 8 (- bsum (mp_ext a ct))]) as -> by exact (Forall_lookup_1 _ _ 11 _ Fh eq_refl).
    rewrite !le_combine_split_small by (unfold in_width in *; simpl; lia). split; [done|]. split.
    { cbn [bsum foldr]. rewrite Z.add_0_r. unfold wrap. rewrite Z.add_mod_idemp_r, Z.add_opp_diag_r by done. done. }
    split; [exact (Forall_lookup_1 _ _ 0 _ Fh eq_refl)|]. split; [exact (Forall_lookup_1 _ _ 2 _ Fh eq_refl)|].
    split; [pose proof (Forall_lookup_1 _ _ 4 _ Fh eq_refl) as P; cbn [fst snd] in P; rewrite length_cleanedString in P; exact P|].
    split; [pose proof (Forall_lookup_1 _ _ 5 _ Fh eq_refl) as P; cbn [fst snd] in P; rewrite length_cleanedString in P; exact P|done].
  - case_bool_decide as Ho.
    + destruct (fp_image fp b f) as (log & W & I & P1 & P2); [done..|]. exists log. split; [done|]. split; [done|].
      intros m. fold m in P1, P2. rewrite P1, fp_checksum_zero. by split.
    + unfold fp_writeOut. destruct (Z.eqb_spec (fp_tableAddr fp) 0), (Z.eqb_spec (fp_defaultConfig fp) 0); try done; exfalso; tauto.
Qed.

(** One processor, one bus, an I/O APIC and a bus hierarchy entry. *)
Definition demo_table : ConfigTable :=
  mkConfigTable 4 [] [] 0 0 0xFEE00000
    [Processor 0 0x14 3 0 0; Bus 0 (str_bytes "ISA"); IOAPIC 1 0x11 1 0xfec00000; IntAssignment 3 0 0 0 1 1 1]
    [BusHierarchy 0 1 1].
Lemma demo_table_ok : ct_ok demo_table.
Proof. split; try done; repeat first [apply Forall_nil_2 | apply Forall_cons_2]; by vm_compute. Qed.

Lemma mp_table_checksums_witness :
  (∃ log, writes (ct_writeOut demo_table 0xF0100) log 96 ∧ within 0xF0100 (0xF0100 + 96) log ∧
    wrap 8 (bsum (bytes_at (image (λ _, 7) log) 0xF0100 88)) = 0) ∧
  ∃ log, writes (fp_writeOut (mkFloatingPointer 0xF0100 4 0 true) 0xF0000) log 16 ∧
    wrap 8 (bsum (bytes_at (image (λ _, 7) log) 0xF0000 16)) = 0.
Proof.
  destruct (mp_table_checksums demo_table (mkFloatingPointer 0xF0100 4 0 true) 0xF0100 0xF0000 (λ _, 7)) as [(log & H1 & H2 & H3 & _) H];
    [exact demo_table_ok|done|by vm_compute|by vm_compute|by vm_compute|by vm_compute|done|done|].
  split; [exists log; split; [exact H1|]; split; [exact H2|exact H3]|].
  rewrite bool_decide_eq_true_2 in H by done. destruct H as (log2 & W2 & _ & S2 & _). exists log2. split; [exact W2|exact S2].
Defined.

(** ** What the code does not do *)

(** Polarity and trigger mode of an interrupt assignment never reach the table. *)
Lemma polarity_dropped type it polarity trigger b q d n :
  IntAssignment_make type it polarity trigger b q d n = IntAssignment type it 0 b q d n.
Proof.
  unfold IntAssignment_make. f_equal. unfold insertBits. cbv zeta.
  change (wrap 16 (Z.shiftl (mask (0 - 1 + 1)) 1)) with 0. change (wrap 16 (Z.shiftl (mask (2 - 3 + 1)) 3)) with 0.
  by rewrite !Z.land_0_r.
Qed.

(** The address of an address space mapping does not reach the table. *)
Lemma mapping_address_ignored b t x y l a c :
  ext_writeOut (AddrSpaceMapping b t x l) a c = ext_writeOut (AddrSpaceMapping b t y l) a c.
Proof. done. Qed.
