(* ===== verification/SmBios.v ===== *)
(** * The SMBIOS tables and the E820 memory map

    [src/gem5-pard/src/arch/x86/bios/smbios.cc], [.hh], [e820.cc] and [.hh]: the
    SMBIOS entry point, its structures, and the memory map handed to the
    kernel, written through a proxy. *)

From S2P Require Import Prelude BaseLib BlobWriter IntelMP.
Local Open Scope Z_scope.

(** ** Structures *)

(** The strings of a [SMBiosStructure]. *)
Record Strings : Type := mkStrings { ss_stringFields : bool; ss_strings : list (list Z) }.

(** [addString]: the index of the string, and the strings after it. *)
Definition addString (ss : Strings) (newString : list Z) : Z * Strings :=
  if decide (length newString = 0%nat) then (0, mkStrings true (ss_strings ss))
  else let strings := ss_strings ss ++ [newString] in (Z.of_nat (length strings), mkStrings true strings).

Definition readString (ss : Strings) (n : Z) : result (list Z) :=
  assertb ((0 <? n) && (n <=? Z.of_nat (length (ss_strings ss)))) ;; at_ (ss_strings ss) (n - 1).
Definition setString (ss : Strings) (n : Z) (newString : list Z) : result Strings :=
  assertb ((0 <? n) && (n <=? Z.of_nat (length (ss_strings ss)))) ;;
  strings ← upd_at (ss_strings ss) (n - 1) newString;
  Ok (mkStrings (ss_stringFields ss) strings).

Definition getStringLength (ss : Strings) : Z :=
  foldl (λ size s, size + (Z.of_nat (length s) + 1)) 0 (ss_strings ss) + 1.

Definition writeOutStrings (ss : Strings) (addr : Z) : Writer unit :=
  offset ← (if bool_decide (length (ss_strings ss) = 0%nat) && ss_stringFields ss
            then put addr [0] ;; mret 1
            else wfold (λ offset s, put (addr + offset) (s ++ [0]) ;; mret (offset + (Z.of_nat (length s) + 1))) 0 (ss_strings ss));
  put (addr + offset) [0].

(** [composeBitVector]: the shift is one of [int]s. *)
Definition composeBitVector (vec : list Z) : result Z :=
  foldM (λ val k, if k <? 32 then Ok (Z.lor val (wrap 64 (swrap 32 (Z.shiftl 1 k)))) else Err BadShift) 0 vec.

Record BiosInformation : Type := mkBiosInformation {
  bi_type : Z;
  bi_handle : Z;
  bi_strings : Strings;
  bi_vendor : Z;
  bi_version : Z;
  bi_startingAddrSegment : Z;
  bi_releaseDate : Z;
  bi_romSize : Z;
  bi_characteristics : Z;
  bi_characteristicExtBytes : Z;
  bi_majorVer : Z;
  bi_minorVer : Z;
  bi_embContFirmwareMajor : Z;
  bi_embContFirmwareMinor : Z
}.

Definition BiosInformation_make (vendor version : list Z) (starting_addr_segment : Z) (release_date : list Z) (rom_size : Z)
    (characteristics characteristic_ext_bytes : list Z) (major minor emb_major emb_minor : Z) : result BiosInformation :=
  let '(iv, ss) := addString (mkStrings false []) vendor in
  let '(ir, ss) := addString ss version in
  let '(id, ss) := addString ss release_date in
  c ← composeBitVector characteristics;
  e ← composeBitVector characteristic_ext_bytes;
  Ok (mkBiosInformation 0 0 ss (wrap 8 iv) (wrap 8 ir) starting_addr_segment (wrap 8 id) rom_size c (wrap 16 e)
        major minor emb_major emb_minor).

(** [BiosInformation::getLength]. *)
Definition bi_getLength : Z := 0x18.

(** [SMBiosStructure::writeOut]: type, length and handle. *)
Definition struct_writeOut (bi : BiosInformation) (addr : Z) : Writer Z :=
  put addr [bi_type bi] ;;
  put (addr + 1) [bi_getLength] ;;
  put (addr + 2) (le_split 2 (bi_handle bi)) ;;
  mret (wrap 16 (bi_getLength + getStringLength (bi_strings bi))).

Definition bi_writeOut (bi : BiosInformation) (addr : Z) : Writer Z :=
  size ← struct_writeOut bi addr;
  let size := wrap 8 size in
  put (addr + 0x4) [bi_vendor bi] ;;
  put (addr + 0x5) [bi_version bi] ;;
  put (addr + 0x6) (le_split 2 (bi_startingAddrSegment bi)) ;;
  put (addr + 0x8) [bi_releaseDate bi] ;;
  put (addr + 0x9) [bi_romSize bi] ;;
  put (addr + 0xA) (le_split 8 (bi_characteristics bi)) ;;
  put (addr + 0x12) (le_split 2 (bi_characteristicExtBytes bi)) ;;
  put (addr + 0x14) [bi_majorVer bi] ;;
  put (addr + 0x15) [bi_minorVer bi] ;;
  put (addr + 0x16) [bi_embContFirmwareMajor bi] ;;
  put (addr + 0x17) [bi_embContFirmwareMinor bi] ;;
  writeOutStrings (bi_strings bi) (addr + bi_getLength) ;;
  mret size.

(** ** The table *)

Record SMBiosTable : Type := mkSMBiosTable {
  sm_majorVersion : Z;
  sm_minorVersion : Z;
  sm_tableAddr : Z;
  sm_smbiosBCDRevision : Z;
  sm_structures : list BiosInformation
}.

Definition sm_anchor : list Z := str_bytes "_SM_".
Definition dmi_anchor : list Z := str_bytes "_DMI_".
Definition formattedArea : list Z := [0; 0; 0; 0; 0].
Definition entryPointLength : Z := 0x1F.
Definition entryPointRevision : Z := 0.

Definition SMBiosTable_make (major_version minor_version : Z) (structures : list BiosInformation) : result SMBiosTable :=
  assertb (major_version <=? 9) ;;
  assertb (minor_version <=? 9) ;;
  Ok (mkSMBiosTable major_version minor_version 0 (wrap 8 (Z.lor (Z.shiftl major_version 4) minor_version)) structures).
Definition sm_setTableAddr (sm : SMBiosTable) (addr : Z) : SMBiosTable :=
  mkSMBiosTable (sm_majorVersion sm) (sm_minorVersion sm) (wrap 32 addr) (sm_smbiosBCDRevision sm) (sm_structures sm).

(** The loops that add the bytes of a field to a checksum. *)
Fixpoint shift_sum (n : nat) (val checkSum : Z) : Z :=
  match n with O => checkSum | S n => shift_sum n (Z.shiftr val 8) (add_sum checkSum val) end.

(** The sizes of header and structures. *)
Definition sm_writeOut (sm : SMBiosTable) (addr : Z) : Writer (Z * Z) :=
  put addr sm_anchor ;;
  let mainChecksum := foldl add_sum 0 sm_anchor in
  put (addr + 0x5) [entryPointLength] ;;
  let mainChecksum := add_sum mainChecksum entryPointLength in
  put (addr + 0x6) [sm_majorVersion sm] ;;
  let mainChecksum := add_sum mainChecksum (sm_majorVersion sm) in
  put (addr + 0x7) [sm_minorVersion sm] ;;
  let mainChecksum := add_sum mainChecksum (sm_minorVersion sm) in
  put (addr + 0xA) [entryPointRevision] ;;
  let mainChecksum := add_sum mainChecksum entryPointRevision in
  put (addr + 0xB) formattedArea ;;
  let mainChecksum := foldl add_sum mainChecksum formattedArea in
  put (addr + 0x10) dmi_anchor ;;
  let intChecksum := foldl add_sum 0 dmi_anchor in
  put (addr + 0x18) (le_split 4 (sm_tableAddr sm)) ;;
  let intChecksum := shift_sum 4 (sm_tableAddr sm) intChecksum in
  let numStructs := wrap 16 (Z.of_nat (length (sm_structures sm))) in
  put (addr + 0x1C) (le_split 2 numStructs) ;;
  let intChecksum := shift_sum 2 numStructs intChecksum in
  put (addr + 0x1E) [sm_smbiosBCDRevision sm] ;;
  let intChecksum := add_sum intChecksum (sm_smbiosBCDRevision sm) in
  let base := sm_tableAddr sm in
  '(offset, maxSize) ← wfold (λ '(offset, maxSize) bi,
      size ← bi_writeOut bi (base + offset);
      mret (wrap 64 (offset + size), if maxSize <? size then size else maxSize)) (0, 0) (sm_structures sm);
  put (addr + 0x8) (le_split 2 maxSize) ;;
  let mainChecksum := shift_sum 2 maxSize mainChecksum in
  put (addr + 0x4) [wrap 8 (- mainChecksum)] ;;
  let tableSize := wrap 16 offset in
  put (addr + 0x16) (le_split 2 tableSize) ;;
  let intChecksum := shift_sum 2 tableSize intChecksum in
  put (addr + 0x15) [wrap 8 (- intChecksum)] ;;
  mret (0x1F, offset).

(** ** The memory map *)

Record E820Entry : Type := mkE820Entry { e8_addr : Z; e8_size : Z; e8_type : Z }.
Definition E820Table : Type := list E820Entry.

(** [writeVal] of an [n]-byte value: the address after it. *)
Definition writeVal (n : nat) (val addr : Z) : Writer Z := put addr (le_split n val) ;; mret (addr + Z.of_nat n).

(** [writeTo]; the number of entries is kept in a byte. *)
Definition e820_writeTo (t : E820Table) (countAddr addr : Z) : Writer unit :=
  let e820Nr := wrap 8 (Z.of_nat (length t)) in
  wlift (assertb (e820Nr <=? 128)) ;;
  put countAddr [e820Nr] ;;
  _ ← wfold (λ addr e,
        addr ← writeVal 8 (e8_addr e) addr;
        addr ← writeVal 8 (e8_size e) addr;
        writeVal 4 (e8_type e) addr) addr (take (Z.to_nat e820Nr) t);
  mret ().

(** ** Structures in memory *)

Lemma shift_sum_bytes n v c : shift_sum n v (wrap 8 c) = wrap 8 (c + bsum (le_split n v)).
Proof.
  revert v c. induction n as [|n IH]; intros v c; cbn [shift_sum le_split]; [by rewrite Z.add_0_r|].
  rewrite add_sum_wrap, IH, bsum_cons, Z.shiftr_div_pow2 by lia. change (2 ^ 8) with 256. unfold wrap. change (2 ^ 8) with 256.
  rewrite Z.add_assoc, (Z.add_mod (c + v)), (Z.add_mod (c + v mod 256)), <-(Z.add_mod_idemp_r c v) by done. done.
Qed.

Definition string_bytes (ss : Strings) : list Z := concat ((λ s, s ++ [0]) <$> ss_strings ss) ++ [0].
Definition bi_bytes (bi : BiosInformation) : list Z :=
  [bi_type bi; bi_getLength] ++ le_split 2 (bi_handle bi) ++ [bi_vendor bi; bi_version bi] ++
  le_split 2 (bi_startingAddrSegment bi) ++ [bi_releaseDate bi; bi_romSize bi] ++ le_split 8 (bi_characteristics bi) ++
  le_split 2 (bi_characteristicExtBytes bi) ++
  [bi_majorVer bi; bi_minorVer bi; bi_embContFirmwareMajor bi; bi_embContFirmwareMinor bi] ++ string_bytes (bi_strings bi).

Lemma getStringLength_bytes ss : getStringLength ss = Z.of_nat (length (string_bytes ss)).
Proof.
  unfold getStringLength, string_bytes. rewrite length_app. simpl. rewrite Nat2Z.inj_add. f_equal.
  assert (∀ n, foldl (λ size s, size + (Z.of_nat (length s) + 1)) n (ss_strings ss) =
    n + Z.of_nat (length (concat ((λ s, s ++ [0]) <$> ss_strings ss)))) as ->; [|done].
  induction (ss_strings ss) as [|s l IH]; intros n; cbn [foldl fmap list_fmap concat]; [simpl; lia|].
  rewrite IH, !length_app. simpl (length [_]). lia.
Qed.

Lemma length_bi_bytes bi : Z.of_nat (length (bi_bytes bi)) = bi_getLength + getStringLength (bi_strings bi).
Proof. rewrite getStringLength_bytes. unfold bi_bytes. rewrite !length_app, !length_le_split. unfold bi_getLength. simpl. lia. Qed.

(** Strings that are written as [getStringLength] counts them. *)
Definition strings_ok (ss : Strings) : Prop := ss_strings ss ≠ [] ∨ ss_stringFields ss = false.

Lemma fills_string_run l a (o : Z) :
  0 ≤ a → 0 ≤ o → a + o + Z.of_nat (length (concat ((λ s, s ++ [0]) <$> l))) < 2 ^ 64 →
  fills (wfold (λ offset s, put (a + offset) (s ++ [0]) ;; mret (offset + (Z.of_nat (length s) + 1))) o l)
    (a + o) (concat ((λ s, s ++ [0]) <$> l)) (o + Z.of_nat (length (concat ((λ s, s ++ [0]) <$> l)))).
Proof.
  revert o. induction l as [|s l IH]; intros o Ha Ho He; cbn [fmap list_fmap concat wfold] in *.
  { rewrite Z.add_0_r. apply fills_ret. }
  rewrite !length_app in *. simpl (length [_]) in *. eapply fills_bind; [|reflexivity|].
  - apply (fills_then (put (a + o) (s ++ [0])) (λ _, o + (Z.of_nat (length s) + 1)) _ _ ()), fills_put. unfold in_width. lia.
  - cbn beta. rewrite length_app. simpl (length [_]). set (o' := o + (Z.of_nat (length s) + 1)).
    replace (a + o + Z.of_nat (length s + 1)) with (a + o') by lia.
    eapply fills_res; [apply IH; lia|]. lia.
Qed.

Lemma fills_strings ss a :
  strings_ok ss → 0 ≤ a → a + Z.of_nat (length (string_bytes ss)) < 2 ^ 64 →
  fills (writeOutStrings ss a) a (string_bytes ss) ().
Proof.
  intros Hok Ha He. unfold writeOutStrings, string_bytes in *. rewrite length_app in He. simpl in He.
  assert (bool_decide (length (ss_strings ss) = 0%nat) && ss_stringFields ss = false) as ->.
  { destruct Hok as [H| ->]; [|by rewrite andb_false_r]. rewrite bool_decide_eq_false_2; [done|]. by destruct (ss_strings ss). }
  eapply fills_bind; [|reflexivity|].
  - eapply fills_at; [apply (fills_string_run _ a 0); lia|lia].
  - eapply fills_at; [apply fills_put; unfold in_width; lia|lia].
Qed.

Definition bi_ok (bi : BiosInformation) : Prop :=
  strings_ok (bi_strings bi) ∧ bi_getLength + getStringLength (bi_strings bi) < 256.

Lemma fills_struct bi a :
  0 ≤ a → a + 4 < 2 ^ 64 → fills (struct_writeOut bi a) a ([bi_type bi; bi_getLength] ++ le_split 2 (bi_handle bi))
    (wrap 16 (bi_getLength + getStringLength (bi_strings bi))).
Proof.
  intros Ha He. unfold struct_writeOut. change ([?x; ?y] ++ ?l) with ([x] ++ [y] ++ l). fill_step. fill_step.
  eapply fills_res; [eapply (fills_then _ (λ _, _)), fills_at; [fill_put|fill_len]|done].
Qed.

Lemma fills_bi bi a :
  bi_ok bi → 0 ≤ a → a + Z.of_nat (length (bi_bytes bi)) < 2 ^ 64 →
  fills (bi_writeOut bi a) a (bi_bytes bi) (Z.of_nat (length (bi_bytes bi))).
Proof.
  intros [Hs Hl] Ha He. rewrite length_bi_bytes in *. rewrite getStringLength_bytes in *. unfold bi_getLength in *.
  unfold bi_writeOut, bi_bytes. rewrite (app_assoc [_; _]).
  eapply fills_bind; [apply fills_struct; lia|reflexivity|]. rewrite getStringLength_bytes. unfold bi_getLength.
  repeat match goal with |- context [[?x; ?y] ++ ?l] => change ([x; y] ++ l) with ([x] ++ [y] ++ l) end.
  change ([?x; ?y; ?z; ?w] ++ ?l) with ([x] ++ [y] ++ [z] ++ [w] ++ l). do 11 fill_step.
  eapply fills_res; [eapply (fills_then _ (λ _, _)), fills_at; [apply fills_strings; (done || lia)|fill_len]|].
  rewrite (wrap_small 16), wrap_small by (unfold in_width; lia). done.
Qed.

(** ** The table in memory *)

Definition sm_structs (l : list BiosInformation) : list Z := concat (bi_bytes <$> l).
Definition sm_maxSize (l : list BiosInformation) (m : Z) : Z :=
  foldl (λ m bi, if m <? Z.of_nat (length (bi_bytes bi)) then Z.of_nat (length (bi_bytes bi)) else m) m l.

Lemma fills_structs base l (o m : Z) :
  Forall bi_ok l → 0 ≤ base → 0 ≤ o → base + o + Z.of_nat (length (sm_structs l)) < 2 ^ 64 →
  fills (wfold (λ '(offset, maxSize) bi,
      size ← bi_writeOut bi (base + offset);
      mret (wrap 64 (offset + size), if maxSize <? size then size else maxSize)) (o, m) l)
    (base + o) (sm_structs l) (o + Z.of_nat (length (sm_structs l)), sm_maxSize l m).
Proof.
  revert o m. induction l as [|bi l IH]; intros o m Hl Hb Ho He; unfold sm_structs, sm_maxSize in *; cbn [fmap list_fmap concat wfold foldl] in *.
  { rewrite Z.add_0_r. apply fills_ret. }
  apply Forall_cons in Hl as [Hbi Hl]. rewrite length_app in *.
  eapply fills_bind; [|reflexivity|].
  - apply (fills_then (bi_writeOut bi (base + o)) (λ size, (wrap 64 (o + size), if m <? size then size else m))), fills_bi; (done || lia).
  - cbn beta iota. rewrite wrap_small by (unfold in_width; lia). rewrite <-Z.add_assoc.
    eapply fills_res; [apply IH; (done || lia)|]. f_equal. lia.
Qed.

Lemma sm_maxSize_width l m : Forall bi_ok l → in_width 16 m → in_width 16 (sm_maxSize l m).
Proof.
  intros Hl. revert m. induction Hl as [|bi l [_ Hb] Hl IH]; intros m Hm; [done|]. apply IH.
  pose proof (length_bi_bytes bi). case_match; [|done]. unfold in_width. lia.
Qed.

(** The 31 bytes of the header with given checksums. *)
Definition sm_main (sm : SMBiosTable) (mainChecksum : Z) : list (list Z) :=
  [sm_anchor; [mainChecksum]; [entryPointLength]; [sm_majorVersion sm]; [sm_minorVersion sm];
   le_split 2 (sm_maxSize (sm_structures sm) 0); [entryPointRevision]; formattedArea].
Definition sm_inter (sm : SMBiosTable) (intChecksum : Z) : list (list Z) :=
  [dmi_anchor; [intChecksum]; le_split 2 (Z.of_nat (length (sm_structs (sm_structures sm)))); le_split 4 (sm_tableAddr sm);
   le_split 2 (Z.of_nat (length (sm_structures sm))); [sm_smbiosBCDRevision sm]].
Definition sm_mainChecksum (sm : SMBiosTable) : Z := wrap 8 (- bsum (concat (sm_main sm 0))).
Definition sm_intChecksum (sm : SMBiosTable) : Z := wrap 8 (- bsum (concat (sm_inter sm 0))).

Record sm_ok (sm : SMBiosTable) : Prop := {
  smo_table : in_width 32 (sm_tableAddr sm);
  smo_structs : Forall bi_ok (sm_structures sm);
  smo_size : Z.of_nat (length (sm_structs (sm_structures sm))) < 2 ^ 16
}.

(** The writes of the header around those of the structures. *)
Definition sm_log (a : Z) (sm : SMBiosTable) (l : list Blob) : list Blob :=
  [(a, sm_anchor); (a + 0x5, [entryPointLength]); (a + 0x6, [sm_majorVersion sm]); (a + 0x7, [sm_minorVersion sm]);
   (a + 0xA, [entryPointRevision]); (a + 0xB, formattedArea); (a + 0x10, dmi_anchor); (a + 0x18, le_split 4 (sm_tableAddr sm));
   (a + 0x1C, le_split 2 (Z.of_nat (length (sm_structures sm)))); (a + 0x1E, [sm_smbiosBCDRevision sm])] ++ l ++
  [(a + 0x8, le_split 2 (sm_maxSize (sm_structures sm) 0)); (a + 0x4, [sm_mainChecksum sm]);
   (a + 0x16, le_split 2 (Z.of_nat (length (sm_structs (sm_structures sm))))); (a + 0x15, [sm_intChecksum sm])].

Lemma struct_count l : (length l ≤ length (sm_structs l))%nat.
Proof.
  induction l as [|bi l IH]; [done|]. unfold sm_structs in *. cbn [fmap list_fmap concat]. rewrite length_app. simpl. lia.
Qed.

Lemma sm_writes sm a :
  sm_ok sm → 0 ≤ a → a + 0x1F < 2 ^ 64 →
  ∃ l, writes (sm_writeOut sm a) (sm_log a sm l) (0x1F, Z.of_nat (length (sm_structs (sm_structures sm)))) ∧
    within (sm_tableAddr sm) (sm_tableAddr sm + Z.of_nat (length (sm_structs (sm_structures sm)))) l ∧
    ∀ f, bytes_at (image f l) (sm_tableAddr sm) (length (sm_structs (sm_structures sm))) = sm_structs (sm_structures sm).
Proof.
  intros [T S Z] Ha He. pose proof (struct_count (sm_structures sm)). pose proof T as [T1 T2].
  destruct (fills_structs (sm_tableAddr sm) (sm_structures sm) 0 0) as (l & W & I & F); [done|lia|lia|lia|].
  rewrite !Z.add_0_r in I, F. rewrite Z.add_0_l in W. exists l. split; [|done].
  unfold sm_writeOut. cbv zeta. rewrite (wrap_small 16 (Z.of_nat (length (sm_structures sm)))) by (unfold in_width; lia).
  change (foldl add_sum 0 sm_anchor) with (wrap 8 (bsum sm_anchor)). change (foldl add_sum 0 dmi_anchor) with (wrap 8 (bsum dmi_anchor)).
  rewrite !add_sum_wrap, foldl_add_sum, !shift_sum_bytes, !add_sum_wrap.
  eassert (writes _ _ _) as Wr; [|match goal with |- writes _ ?l _ => match type of Wr with writes _ ?l' _ => replace l with l'; [exact Wr|] end end].
  - do 10 write_step. eapply writes_bind; [exact W|]. cbv beta iota zeta.
    rewrite (wrap_small 16) by (unfold in_width; lia). rewrite !shift_sum_bytes, !wrap_opp_wrap by lia.
    do 4 write_step. apply writes_ret.
  - unfold sm_log. rewrite app_nil_r. cbn [app]. unfold sm_mainChecksum, sm_intChecksum.
    repeat f_equal; unfold sm_main, sm_inter; cbn [concat]; rewrite !bsum_app, !bsum_cons; try change (bsum []) with 0; lia.
Qed.

Lemma length_sm_header sm c1 c2 : length (concat (sm_main sm c1 ++ sm_inter sm c2)) = 31%nat.
Proof. rewrite concat_app. unfold sm_main, sm_inter. cbn [concat]. rewrite !length_app, !length_le_split. done. Qed.

Lemma length_sm_anchor : length sm_anchor = 4%nat.
Proof. done. Qed.
Lemma length_dmi_anchor : length dmi_anchor = 5%nat.
Proof. done. Qed.
#[export] Hint Rewrite length_sm_anchor length_dmi_anchor : blob_len.

(** Everything the table leaves in memory: the pieces of the header and the structures. *)
Lemma sm_image sm a l f :
  within (sm_tableAddr sm) (sm_tableAddr sm + Z.of_nat (length (sm_structs (sm_structures sm)))) l →
  (∀ f, bytes_at (image f l) (sm_tableAddr sm) (length (sm_structs (sm_structures sm))) = sm_structs (sm_structures sm)) →
  a + 0x1F ≤ sm_tableAddr sm ∨ sm_tableAddr sm + Z.of_nat (length (sm_structs (sm_structures sm))) ≤ a →
  Forall (λ w : Blob, bytes_at (image f (sm_log a sm l)) w.1 (length w.2) = w.2)
    (laid a (sm_main sm (sm_mainChecksum sm) ++ sm_inter sm (sm_intChecksum sm))) ∧
  bytes_at (image f (sm_log a sm l)) (sm_tableAddr sm) (length (sm_structs (sm_structures sm))) = sm_structs (sm_structures sm).
Proof.
  intros I F D. split.
  - unfold sm_main, sm_inter. cbn [app laid]. rewrite !length_le_split, length_sm_anchor, length_dmi_anchor. simpl (length _).
    rewrite <-!Z.add_assoc. simpl (Z.add (Z.of_nat _) _).
    repeat first [apply Forall_nil_2 | apply Forall_cons_2]; cbn [fst snd]; apply last_write_read; unfold sm_log; find_write.
  - unfold sm_log. rewrite 2!image_app, bytes_at_avoids; [apply F|].
    solve_avoids.
Qed.

(** ** The memory map in memory *)

Definition e820_bytes (e : E820Entry) : list Z := le_split 8 (e8_addr e) ++ le_split 8 (e8_size e) ++ le_split 4 (e8_type e).
Definition e820_ok (e : E820Entry) : Prop := in_width 64 (e8_addr e) ∧ in_width 64 (e8_size e) ∧ in_width 32 (e8_type e).

(** How the kernel reads an entry back. *)
Definition e820_parse (bytes : list Z) : E820Entry :=
  mkE820Entry (le_combine (slice bytes 0 8)) (le_combine (slice bytes 8 8)) (le_combine (slice bytes 16 4)).

Lemma length_e820_bytes e : length (e820_bytes e) = 20%nat.
Proof. unfold e820_bytes. by rewrite !length_app, !length_le_split. Qed.

Lemma e820_parse_bytes e : e820_ok e → e820_parse (e820_bytes e) = e.
Proof.
  intros (H1 & H2 & H3). destruct e as [a s t]. unfold e820_parse, e820_bytes, slice. cbn [e8_addr e8_size e8_type] in *. f_equal.
  - rewrite drop_0, take_app_length' by (by rewrite length_le_split). by apply (le_combine_split_small 8).
  - rewrite drop_app_length' by (by rewrite length_le_split). rewrite take_app_length' by (by rewrite length_le_split).
    by apply (le_combine_split_small 8).
  - rewrite app_assoc, drop_app_length' by (rewrite length_app, !length_le_split; done).
    rewrite take_ge by (rewrite length_le_split; lia). by apply (le_combine_split_small 4).
Qed.

Lemma fills_e820 t a :
  0 ≤ a → a + Z.of_nat (length (concat (e820_bytes <$> t))) < 2 ^ 64 →
  fills (wfold (λ addr e,
        addr ← writeVal 8 (e8_addr e) addr;
        addr ← writeVal 8 (e8_size e) addr;
        writeVal 4 (e8_type e) addr) a t) a (concat (e820_bytes <$> t)) (a + Z.of_nat (length (concat (e820_bytes <$> t)))).
Proof.
  revert a. induction t as [|e t IH]; intros a Ha He; cbn [fmap list_fmap concat wfold] in *.
  { rewrite Z.add_0_r. apply fills_ret. }
  rewrite length_app, length_e820_bytes in *.
  assert (∀ n v x, 0 ≤ x < 2 ^ 64 → fills (writeVal n v x) x (le_split n v) (x + Z.of_nat n)) as V.
  { intros n v x Hx. apply (fills_then (put x (le_split n v)) (λ _, x + Z.of_nat n) _ _ ()), fills_put. done. }
  eapply fills_bind; [|reflexivity|].
  - unfold e820_bytes. eapply fills_bind; [apply V; lia|by rewrite length_le_split|].
    eapply fills_bind; [apply V; lia|by rewrite length_le_split|]. apply V. lia.
  - cbn beta. rewrite length_e820_bytes. eapply fills_res; [eapply fills_at; [apply IH; lia|lia]|lia].
Qed.

Lemma length_e820_run t : length (concat (e820_bytes <$> t)) = (20 * length t)%nat.
Proof. induction t as [|e t IH]; cbn [fmap list_fmap concat]; [done|]. rewrite length_app, IH, length_e820_bytes. simpl. lia. Qed.

(** Reading entry by entry. *)
Lemma e820_read (m : Z → Z) t a :
  Forall e820_ok t → bytes_at m a (20 * length t) = concat (e820_bytes <$> t) →
  (λ i, e820_parse (bytes_at m (a + 20 * Z.of_nat i) 20)) <$> seq 0 (length t) = t.
Proof.
  intros Hok. revert a. induction Hok as [|e t He Ht IH]; intros a R; [done|].
  cbn [fmap list_fmap concat length seq] in *. replace (20 * S (length t))%nat with (20 + 20 * length t)%nat in R by lia.
  rewrite bytes_at_add in R. apply app_inj_1 in R as [R1 R2]; [|by rewrite length_bytes_at, length_e820_bytes].
  f_equal; [rewrite Z.add_0_r, R1; by apply e820_parse_bytes|].
  rewrite <-(IH _ R2) at 2. rewrite <-fmap_S_seq, <-list_fmap_compose. apply list_fmap_ext. intros i x _. simpl.
  do 2 f_equal. lia.
Qed.

(** The writes of a map with at most 128 entries. *)
Lemma e820_writes t ca a :
  (length t ≤ 128)%nat → in_width 64 ca → 0 ≤ a → a + 20 * Z.of_nat (length t) < 2 ^ 64 →
  ∃ l, writes (e820_writeTo t ca a) ((ca, [Z.of_nat (length t)]) :: l) () ∧ within a (a + 20 * Z.of_nat (length t)) l ∧
    ∀ f, bytes_at (image f l) a (20 * length t) = concat (e820_bytes <$> t).
Proof.
  intros Hn Hc Ha He. pose proof (length_e820_run t) as Hl. destruct (fills_e820 t a) as (l & W & I & F); [lia|lia|].
  exists l. rewrite Hl in *. split; [|split; [eapply within_mono; [done|lia|lia]|done]].
  unfold e820_writeTo. rewrite wrap_small, Nat2Z.id, take_ge by (try (unfold in_width); lia). cbv zeta.
  rewrite (proj2 (Z.leb_le _ _)) by lia. change (?x :: l) with ([] ++ [x] ++ l).
  eapply writes_bind; [by apply writes_lift|]. eapply writes_bind; [by apply writes_put|]. by apply (writes_then _ (λ _, ())) with (a := a + Z.of_nat (20 * length t)).
Qed.

(** ** Properties *)

Lemma checksum_zero l1 l2 : wrap 8 (bsum (l1 ++ [wrap 8 (- bsum (l1 ++ [0] ++ l2))] ++ l2)) = 0.
Proof.
  rewrite !bsum_app, !bsum_cons. change (bsum []) with 0. rewrite !Z.add_0_r, !Z.add_0_l. unfold wrap.
  set (x := bsum l1 + bsum l2). replace (bsum l1 + (- x mod 2 ^ 8 + bsum l2)) with (x + - x mod 2 ^ 8) by lia.
  rewrite Z.add_mod_idemp_r, Z.add_opp_diag_r by done. done.
Qed.

Lemma sm_checksums_zero sm :
  wrap 8 (bsum (concat (sm_main sm (sm_mainChecksum sm)))) = 0 ∧ wrap 8 (bsum (concat (sm_inter sm (sm_intChecksum sm)))) = 0.
Proof. split; [apply (checksum_zero sm_anchor)|apply (checksum_zero dmi_anchor)]. Qed.

(** The largest of a list of sizes, zero if there is none. *)
Definition is_largest (v : Z) (l : list Z) : Prop := (∀ x, x ∈ l → x ≤ v) ∧ if bool_decide (l = []) then v = 0 else v ∈ l.

Lemma sm_maxSize_largest l : is_largest (sm_maxSize l 0) ((λ bi, Z.of_nat (length (bi_bytes bi))) <$> l).
Proof.
  assert (∀ l m, 0 ≤ m → m ≤ sm_maxSize l m ∧ (∀ x, x ∈ (λ bi, Z.of_nat (length (bi_bytes bi))) <$> l → x ≤ sm_maxSize l m) ∧
    (sm_maxSize l m = m ∨ sm_maxSize l m ∈ (λ bi, Z.of_nat (length (bi_bytes bi))) <$> l)) as H.
  { clear l. induction l as [|bi l IH]; intros m Hm; [split; [done|]; split; [by intros x ?%elem_of_nil|by left]|].
    change (sm_maxSize (bi :: l) m) with (sm_maxSize l (if m <? Z.of_nat (length (bi_bytes bi)) then Z.of_nat (length (bi_bytes bi)) else m)).
    set (n := Z.of_nat (length (bi_bytes bi))). cbn [fmap list_fmap]. fold n.
    destruct (Z.ltb_spec m n).
    - destruct (IH n) as (A & B & C); [lia|]. split; [lia|]. split; [intros x [->|Hx]%elem_of_cons; [lia|by apply B]|].
      right. destruct C as [->|C]; [left|by right].
    - destruct (IH m) as (A & B & C); [lia|]. split; [lia|]. split; [intros x [->|Hx]%elem_of_cons; [lia|by apply B]|].
      destruct C as [C|C]; [by left|right; by right]. }
  destruct (H l 0 ltac:(lia)) as (A & B & C). split; [exact B|]. case_bool_decide as Hl.
  - apply fmap_nil_inv in Hl. by rewrite Hl.
  - destruct C as [C|C]; [|done]. destruct l as [|bi l]; [done|]. assert (Z.of_nat (length (bi_bytes bi)) ≤ 0) as Hz; [|exfalso; unfold bi_bytes in Hz; simpl in Hz; lia].
    rewrite <-C. apply B. left.
Qed.

(** C34: the SMBIOS entry point is valid in memory.  For any structures whose
    strings are in use and whose sizes fit a byte, outside the entry point,
    [SMBiosTable::writeOut] leaves an entry point whose 31 bytes, and whose
    intermediate part, add up to zero modulo 256; its fields name the place,
    the number and the total size of the structures, which lie there one after
    the other, and the size of the largest of them (zero if there are none);
    nothing else is written. *)
Theorem smbios_checksums (sm : SMBiosTable) (a : Z) (f : Z → Z) :
  let size := Z.of_nat (length (sm_structs (sm_structures sm))) in
  sm_ok sm → 0 ≤ a → a + 0x1F < 2 ^ 64 → a + 0x1F ≤ sm_tableAddr sm ∨ sm_tableAddr sm + size ≤ a →
  ∃ log, writes (sm_writeOut sm a) log (0x1F, size) ∧
    let m := image f log in
    wrap 8 (bsum (bytes_at m a 31)) = 0 ∧ wrap 8 (bsum (bytes_at m (a + 0x10) 15)) = 0 ∧
    le_combine (bytes_at m (a + 0x16) 2) = size ∧ le_combine (bytes_at m (a + 0x18) 4) = sm_tableAddr sm ∧
    le_combine (bytes_at m (a + 0x1C) 2) = Z.of_nat (length (sm_structures sm)) ∧
    is_largest (le_combine (bytes_at m (a + 0x8) 2)) ((λ bi, Z.of_nat (length (bi_bytes bi))) <$> sm_structures sm) ∧
    bytes_at m a 4 = sm_anchor ∧ bytes_at m (a + 0x6) 2 = [sm_majorVersion sm; sm_minorVersion sm] ∧
    (∀ x, ¬ (a ≤ x < a + 0x1F) → ¬ (sm_tableAddr sm ≤ x < sm_tableAddr sm + size) → m x = f x) ∧
    bytes_at m (sm_tableAddr sm) (length (sm_structs (sm_structures sm))) = sm_structs (sm_structures sm).
Proof.
  intros size Hok Ha He D. destruct (sm_writes sm a Hok Ha He) as (l & W & I & F). exists (sm_log a sm l). split; [done|].
  intros m. destruct (sm_image sm a l f I F D) as [P S]. fold m in P, S. pose proof Hok as [T B Hs].
  pose proof (struct_count (sm_structures sm)). destruct (sm_checksums_zero sm) as [Zm Zi].
  pose proof (laid_read m a _ P) as R. rewrite length_sm_header, concat_app in R.
  assert (length (concat (sm_main sm (sm_mainChecksum sm))) = 16%nat) as Lm by (unfold sm_main; cbn [concat]; rewrite !length_app, !length_le_split; done).
  assert (bytes_at m (a + 0x10) 15 = concat (sm_inter sm (sm_intChecksum sm))) as ->.
  { change 31%nat with (16 + 15)%nat in R. rewrite bytes_at_add in R. apply app_inj_1 in R as [_ R]; [done|]. by rewrite length_bytes_at. }
  rewrite R, bsum_app. unfold sm_main, sm_inter in P. cbn [app laid] in P.
  rewrite !length_le_split, length_sm_anchor, length_dmi_anchor in P. simpl (length _) in P.
  rewrite <-!Z.add_assoc in P. simpl (Z.add (Z.of_nat _) _) in P.
  assert (bytes_at m (a + 0x16) 2 = le_split 2 size) as -> by exact (Forall_lookup_1 _ _ 10 _ P eq_refl).
  assert (bytes_at m (a + 0x18) 4 = le_split 4 (sm_tableAddr sm)) as -> by exact (Forall_lookup_1 _ _ 11 _ P eq_refl).
  assert (bytes_at m (a + 0x1C) 2 = le_split 2 (Z.of_nat (length (sm_structures sm)))) as -> by exact (Forall_lookup_1 _ _ 12 _ P eq_refl).
  assert (bytes_at m (a + 0x8) 2 = le_split 2 (sm_maxSize (sm_structures sm) 0)) as -> by exact (Forall_lookup_1 _ _ 5 _ P eq_refl).
  assert (in_width 16 (sm_maxSize (sm_structures sm) 0)) as Hmax by (apply sm_maxSize_width; [done|unfold in_width; lia]).
  rewrite !le_combine_split_small by (unfold in_width in *; simpl; lia).
  split; [unfold wrap in *; by rewrite Z.add_mod, Zm, Zi|]. do 4 (split; [done|]). split; [apply sm_maxSize_largest|].
  split; [exact (Forall_lookup_1 _ _ 0 _ P eq_refl)|]. split; [|split; [|exact S]].
  - change 2%nat with (1 + 1)%nat. rewrite bytes_at_add. replace (a + 6 + Z.of_nat 1) with (a + 7) by lia.
    assert (bytes_at m (a + 6) 1 = [sm_majorVersion sm]) as -> by exact (Forall_lookup_1 _ _ 3 _ P eq_refl).
    assert (bytes_at m (a + 7) 1 = [sm_minorVersion sm]) as -> by exact (Forall_lookup_1 _ _ 4 _ P eq_refl). done.
  - intros x X1 X2. subst m. unfold sm_log. apply (image_avoids _ x (x + 1)); [|lia]. apply avoids_app. split; [|apply avoids_app; split].
    + solve_avoids.
    + eapply within_avoids; [exact I|unfold size in X2; lia].
    + solve_avoids.
Qed.

(** The structure the program creates for a domain, after the entry point. *)
Definition demo_smbios : SMBiosTable :=
  mkSMBiosTable 2 5 0xF001F 0x25 [mkBiosInformation 0 0 (mkStrings true [str_bytes "06/08/2008"]) 0 0 0 1 0 0 0 0 0 0 0].
Lemma smbios_checksums_witness :
  ∃ log, writes (sm_writeOut demo_smbios 0xF0000) log (0x1F, 36) ∧
    wrap 8 (bsum (bytes_at (image (λ _, 7) log) 0xF0000 31)) = 0.
Proof.
  destruct (smbios_checksums demo_smbios 0xF0000 (λ _, 7)) as (log & H1 & H2 & _).
  - split; [done| |done]. apply Forall_singleton. split; [by left|by vm_compute].
  - done.
  - done.
  - left. by vm_compute.
  - exists log. split; [exact H1|exact H2].
Defined.

(** The memory map is read back as it was given.  For at most 128 entries,
    [E820Table::writeTo] leaves their number at the count address and, from
    the map address on, twenty bytes for each entry from which the entry is
    recovered; nothing else is written. *)
Theorem e820_roundtrip (t : E820Table) (ca a : Z) (f : Z → Z) :
  (length t ≤ 128)%nat → Forall e820_ok t → in_width 64 ca → 0 ≤ a → a + 20 * Z.of_nat (length t) < 2 ^ 64 →
  ca < a ∨ a + 20 * Z.of_nat (length t) ≤ ca →
  ∃ log, writes (e820_writeTo t ca a) log () ∧
    let m := image f log in
    m ca = Z.of_nat (length t) ∧
    (λ i, e820_parse (bytes_at m (a + 20 * Z.of_nat i) 20)) <$> seq 0 (length t) = t ∧
    ∀ x, x ≠ ca → ¬ (a ≤ x < a + 20 * Z.of_nat (length t)) → m x = f x.
Proof.
  intros Hn Hok Hc Ha He D. destruct (e820_writes t ca a Hn Hc Ha He) as (l & W & I & F). eexists. split; [exact W|].
  intros m. split; [|split].
  - subst m. rewrite image_cons, (image_avoids _ ca (ca + 1) l) by first [lia | eapply within_avoids; [done|lia]].
    unfold write_at. simpl. rewrite decide_True by lia. by rewrite Z.sub_diag.
  - assert (bytes_at m a (20 * length t) = concat (e820_bytes <$> t)) as R by (subst m; rewrite image_cons; apply F).
    by apply e820_read.
  - intros x H1 H2. subst m. rewrite image_cons, (image_avoids _ x (x + 1) l) by first [lia | eapply within_avoids; [done|lia]].
    unfold write_at. simpl. rewrite decide_False by lia. done.
Qed.

Definition demo_e820 : E820Table := [mkE820Entry 0 0x9fc00 1; mkE820Entry 0x9fc00 0x60400 2; mkE820Entry 0x100000 0x7ff00000 1].
Lemma e820_roundtrip_witness :
  ∃ log, writes (e820_writeTo demo_e820 0x903e8 0x904d0) log () ∧
    e820_parse (bytes_at (image (λ _, 0) log) (0x904d0 + 20 * 1) 20) = mkE820Entry 0x9fc00 0x60400 2.
Proof.
  destruct (e820_roundtrip demo_e820 0x903e8 0x904d0 (λ _, 0)) as (log & H1 & _ & H2 & _);
    [vm_compute; lia| |done|done|by vm_compute|left; lia|].
  - repeat first [apply Forall_nil_2 | apply Forall_cons_2]; by vm_compute.
  - exists log. split; [exact H1|]. apply (f_equal (λ l, l !! 1%nat)) in H2. exact (Some_inj _ _ H2).
Defined.

(** ** What the code does not do *)

(** A structure none of whose strings are used is written with two
    terminators, of which the size that places the next structure counts one. *)
Lemma unused_strings_overlap bi a :
  bi_strings bi = mkStrings true [] → in_width 64 (a + 0x18) → in_width 64 (a + 0x19) →
  ∃ log, writes (writeOutStrings (bi_strings bi) (a + 0x18)) log () ∧
    log = [(a + 0x18, [0]); (a + 0x19, [0])] ∧ bi_getLength + getStringLength (bi_strings bi) = 0x19.
Proof.
  intros -> H1 H2. eexists. split; [|done]. unfold writeOutStrings. cbn [ss_strings ss_stringFields length bool_decide andb].
  unfold writes, put. rewrite bool_decide_eq_true_2 by done. cbn. replace (a + 24 + 1) with (a + 25) by lia.
  by rewrite !wrap_small.
Qed.

(** The size of a structure is cut to a byte: one of 256 bytes takes none. *)
Lemma structure_size_wraps bi a :
  strings_ok (bi_strings bi) → getStringLength (bi_strings bi) = 232 → 0 ≤ a → a + 256 < 2 ^ 64 →
  ∃ log, writes (bi_writeOut bi a) log 0.
Proof.
  intros Hs Hg Ha He. rewrite getStringLength_bytes in Hg.
  destruct (fills_struct bi a) as (l1 & W1 & _); [lia|lia|].
  destruct (fills_strings (bi_strings bi) (a + bi_getLength)) as (l2 & W2 & _); [done|unfold bi_getLength; lia|unfold bi_getLength; lia|].
  eexists. unfold bi_writeOut. eapply writes_bind; [exact W1|]. rewrite getStringLength_bytes, Hg.
  do 11 write_step. eapply (writes_then _ (λ _, _)). exact W2.
Qed.
