(* ===== verification/GuestMemory.v ===== *)
(** * Domains in one physical memory

    The address mapper of [AddrMapper] in front of a physical memory
    ([PhysMem]): to functional requests the two are one memory per domain, so that port proxies of different domains never
    see each other's bytes. *)

From S2P Require Import Prelude BaseLib ChunkGen Packet GuestAddr AddrMapper PortProxy PhysMem.
Local Open Scope Z_scope.

(** ** Lines and entries *)

(** The guest ranges of the entries consist of whole lines. *)
Definition line_aligned (line : Z) (tlb : list LDomAddrTLBEntry) : Prop :=
  Forall (λ e, ent_start e mod line = 0 ∧ ent_size e mod line = 0) tlb.

Lemma ent_contains_iff e d a :
  ent_wf e → ent_contains e d a = true ↔ ent_domid e = d ∧ ent_start e ≤ a < ent_start e + ent_size e.
Proof.
  intros (H1 & H2 & H3 & H4 & H5). unfold ent_contains. rewrite !andb_true_iff, Z.eqb_eq, !Z.leb_le.
  rewrite wrap_small by (unfold in_width; lia). lia.
Qed.

Lemma line_bounds line s n a x :
  0 < line → s mod line = 0 → n mod line = 0 → a / line = x / line → s ≤ a < s + n → s ≤ x < s + n.
Proof.
  intros Hl Hs Hn Hd [H1 H2]. apply Z.div_exact in Hs, Hn; [|lia..].
  assert (s / line ≤ a / line) by (apply Z.div_le_mono; lia).
  assert (a / line < s / line + n / line) by (apply Z.div_lt_upper_bound; lia).
  pose proof (Z.div_mod x line). pose proof (Z.mod_pos_bound x line Hl). rewrite Hd in *. nia.
Qed.

Lemma contains_line line e d a x :
  0 < line → ent_wf e → ent_start e mod line = 0 ∧ ent_size e mod line = 0 → a / line = x / line →
  ent_contains e d x = ent_contains e d a.
Proof.
  intros Hl W [Hs Hn] Hd. apply eq_true_iff_eq. rewrite !ent_contains_iff by done.
  split; intros [H1 H2]; (split; [done|]); [apply (line_bounds line _ _ x a)|apply (line_bounds line _ _ a x)]; done.
Qed.

(** Within a line the translation is linear. *)
Lemma remap_line line tlb d a x :
  0 < line → Forall ent_wf tlb → line_aligned line tlb → mapped tlb d a → a / line = x / line →
  mapped tlb d x ∧ tlb_remapAddr tlb d x = tlb_remapAddr tlb d a + (x - a).
Proof.
  intros Hl. induction tlb as [|e tlb IH]; intros W A Hm Hd; [by destruct Hm as (e & ?%elem_of_nil & _)|].
  apply Forall_cons in W as [We W], A as [Ae A]. cbn [tlb_remapAddr].
  rewrite (contains_line line e d a x) by done. destruct (ent_contains e d a) eqn:Hc.
  - split; [exists e; split; [left|]; by rewrite (contains_line line e d a x)|].
    assert (ent_contains e d x = true) as Hcx by (by rewrite (contains_line line e d a x)).
    destruct (ent_translate_wf e d a We Hc) as [-> _], (ent_translate_wf e d x We Hcx) as [-> _]. lia.
  - destruct IH as [(e' & Hin & Hc') Hr]; [done|done| |done|].
    { destruct Hm as (e' & [->|Hin]%elem_of_cons & Hc'); [congruence|by exists e']. }
    split; [exists e'; split; [by right|done]|done].
Qed.

(** ** The two together *)

Section Composition.

Context (am : AddrMapper) (start line n : Z).
Hypothesis Hline : 0 < line.
Hypothesis Hwf : tlb_wf (am_tlb am).
Hypothesis Hal : line_aligned line (am_tlb am).
Hypothesis Hmem : 0 ≤ start ∧ start + n ≤ 2 ^ 64.

(** The functional access a proxy makes through the mapper. *)
Definition mapped_access : list Z → Packet → result (list Z * Packet) := recvFunctional am (functionalAccess start).

(** The byte a domain has at an address, the addresses it may use, and the size
    of the memory. *)
Definition domain_byte (pmem : list Z) (d a : Z) : Z := pmem !!! Z.to_nat (tlb_remapAddr (am_tlb am) d a - start).
Definition domain_reach (d a : Z) : Prop :=
  mapped (am_tlb am) d a ∧ start ≤ tlb_remapAddr (am_tlb am) d a < start + n.
Definition full_memory (pmem : list Z) : Prop := Z.of_nat (length pmem) = n.

(** The machine addresses of a request are consecutive. *)
Lemma request_linear p data x :
  func_request line domain_reach p data → pkt_addr p ≤ x < pkt_addr p + pkt_size p →
  tlb_remapAddr (am_tlb am) (guest_of p) x = tlb_remapAddr (am_tlb am) (guest_of p) (pkt_addr p) + (x - pkt_addr p).
Proof using Hline Hwf Hal.
  intros R Hx. destruct (fr_line _ _ _ _ R) as [Hs Hl]. pose proof (Z.mod_pos_bound (pkt_addr p) line Hline).
  eapply (remap_line line); try done; [apply Hwf|apply (fr_reach _ _ _ _ R); lia|].
  pose proof (Z.div_mod (pkt_addr p) line). apply (Z.div_unique _ _ _ (x - line * (pkt_addr p / line))); lia.
Qed.

(** The machine range of a request lies in the memory. *)
Lemma request_inside p data :
  func_request line domain_reach p data →
  let ma := tlb_remapAddr (am_tlb am) (guest_of p) (pkt_addr p) in start ≤ ma ∧ ma + pkt_size p ≤ start + n.
Proof using Hline Hwf Hal.
  intros R ma. destruct (fr_line _ _ _ _ R) as [Hs _].
  destruct (fr_reach _ _ _ _ R (pkt_addr p)) as [_ H1]; [lia|].
  destruct (fr_reach _ _ _ _ R (pkt_addr p + pkt_size p - 1)) as [_ H2]; [lia|].
  rewrite (request_linear p data) in H2 by (done || lia). subst ma. lia.
Qed.

(** What reaches physical memory. *)
Definition translated (p : Packet) : Packet := p <| pkt_addr := tlb_remapAddr (am_tlb am) (guest_of p) (pkt_addr p) |>.

Lemma mapped_access_unfold pmem p :
  pkt_wf p →
  mapped_access pmem p =
    '(pmem, q) ← functionalAccess start pmem (translated p);
    q ← setAddr q (pkt_addr p); Ok (pmem, q).
Proof using.
  clear. intros Hp. unfold mapped_access, recvFunctional. rewrite getAddr_wf, PKT_TO_GUESTID_wf by done.
  cbn [mbind result_bind]. by rewrite setAddr_wf by done.
Qed.

(** The checks of [functionalAccess] on a translated request. *)
Lemma access_prefix pmem p data {A} (f : Z → Z → result A) :
  full_memory pmem → func_request line domain_reach p data →
  (addr ← getAddr (translated p);
   size ← getSize (translated p);
   assertb (in_range start pmem addr size) ;; f addr size) =
  f (tlb_remapAddr (am_tlb am) (guest_of p) (pkt_addr p)) (pkt_size p).
Proof using Hline Hwf Hal Hmem.
  intros Hf R. destruct (request_inside p data R) as [H1 H2]. destruct (fr_line _ _ _ _ R) as [Hs _].
  assert (pkt_wf (translated p)) as Hq by apply R.
  rewrite getAddr_wf, getSize_wf by done. cbn [mbind result_bind]. cbn [translated pkt_addr pkt_size setf].
  change (pkt_size (translated p)) with (pkt_size p).
  change (pkt_addr (translated p)) with (tlb_remapAddr (am_tlb am) (guest_of p) (pkt_addr p)).
  unfold in_range. rewrite wrap_small by (unfold in_width; lia). rewrite Hf.
  rewrite (proj2 (Z.leb_le _ _) H1), (proj2 (Z.leb_le _ _)) by lia. done.
Qed.

(** What [makeResponse] and the way back leave of a served request. *)
Lemma served_back q : pkt_wf q → pkt_cmd q = ReadReq ∨ pkt_cmd q = WriteReq →
  ∃ q', makeResponse q = Ok q' ∧ pkt_data q' = pkt_data q ∧ pkt_wf q'.
Proof using.
  clear. intros (F1 & F2 & F3) Hc. unfold makeResponse, pkt_needsResponse, pkt_isRequest.
  destruct Hc as [-> | ->]; cbn [assertb mbind result_bind]; (eexists; split; [reflexivity|]; split; [done|]);
    unfold pkt_wf; cbn -[flag_isSet Z.ldiff]; by rewrite !flag_isSet_ldiff.
Qed.

(** The bytes that a translated request moves. *)
Lemma translated_setData pmem p data :
  full_memory pmem → func_request line domain_reach p data →
  setData (translated p) pmem (tlb_remapAddr (am_tlb am) (guest_of p) (pkt_addr p) - start) =
    Ok ((translated p) <| pkt_data := Some (domain_byte pmem (guest_of p) <$> addr_range (pkt_addr p) (length data)) |>).
Proof using Hline Hwf Hal Hmem.
  intros Hf R. destruct (request_inside p data R) as [H1 H2]. pose proof R as [Rw Rp Rd Rl [Rs Rf] Ra Rr].
  set (ma := tlb_remapAddr _ _ _) in *. unfold setData, getPtr. change (pkt_flags (translated p)) with (pkt_flags p).
  change (pkt_data (translated p)) with (pkt_data p). rewrite Rp, Rd. cbn [assertb mbind result_bind].
  rewrite getSize_wf by apply R. change (pkt_size (translated p)) with (pkt_size p). cbn [mbind result_bind].
  unfold full_memory in Hf. rewrite decide_True by lia.
  rewrite splice_all by (rewrite length_slice; lia).
  match goal with |- Ok (setf _ (λ _, Some ?x) _) = Ok (setf _ (λ _, Some ?y) _) => enough (x = y) as -> by done end.
  apply list_eq_same_length with (n := length data); [by rewrite length_fmap, length_addr_range|rewrite length_slice; lia|].
  intros i x y Hi Hx Hy. unfold slice in Hx. rewrite lookup_take_lt, lookup_drop in Hx by lia.
  unfold addr_range in Hy. rewrite !list_lookup_fmap, lookup_seq_lt in Hy by lia. injection Hy as <-.
  unfold domain_byte. rewrite (request_linear p data) by (done || lia). fold ma. apply list_lookup_total_correct in Hx as <-.
  f_equal. lia.
Qed.

Lemma translated_writeData pmem p data :
  full_memory pmem → func_request line domain_reach p data →
  ∃ pmem', writeData (translated p) pmem (tlb_remapAddr (am_tlb am) (guest_of p) (pkt_addr p) - start) = Ok pmem' ∧ full_memory pmem' ∧
    ∀ d a, domain_reach d a → domain_byte pmem' d a =
      if decide (d = guest_of p ∧ pkt_addr p ≤ a < pkt_addr p + pkt_size p)
      then data !!! Z.to_nat (a - pkt_addr p) else domain_byte pmem d a.
Proof using Hline Hwf Hal Hmem.
  intros Hf R. destruct (request_inside p data R) as [H1 H2]. pose proof R as [Rw Rp Rd Rl [Rs Rf] Ra Rr].
  set (ma := tlb_remapAddr _ _ _) in *. unfold writeData, getPtr. change (pkt_flags (translated p)) with (pkt_flags p).
  change (pkt_data (translated p)) with (pkt_data p). rewrite Rp, Rd. cbn [assertb mbind result_bind].
  rewrite getSize_wf by apply R. change (pkt_size (translated p)) with (pkt_size p). cbn [mbind result_bind].
  unfold full_memory in *. rewrite decide_True by lia. rewrite take_ge by lia. eexists. split; [done|].
  split; [rewrite length_splice; lia|]. intros d a [Hm Hin]. unfold domain_byte. rewrite splice_lookup_total by lia.
  destruct (decide (d = guest_of p ∧ pkt_addr p ≤ a < pkt_addr p + pkt_size p)) as [[-> Hx]|Hx].
  - rewrite (request_linear p data a) by done. fold ma. rewrite decide_True by lia. f_equal. lia.
  - rewrite decide_False; [done|]. intros Hr.
    set (y := pkt_addr p + (tlb_remapAddr (am_tlb am) d a - ma)).
    assert (pkt_addr p ≤ y < pkt_addr p + pkt_size p) as Hy by lia.
    assert ((d, a) = (guest_of p, y)) as [= Ed Ea]; [|apply Hx; split; [done|lia]].
    apply dec_stable. intros Hne. apply (remap_injective (am_tlb am) d (guest_of p) a y Hwf Hm); [apply Rr; lia|done|].
    rewrite (request_linear p data y) by done. fold ma. lia.
Qed.

Lemma mapped_read pmem p data :
  full_memory pmem → pkt_cmd p = ReadReq → func_request line domain_reach p data →
  ∃ p', mapped_access pmem p = Ok (pmem, p') ∧
    pkt_data p' = Some (domain_byte pmem (guest_of p) <$> addr_range (pkt_addr p) (length data)).
Proof using Hline Hwf Hal Hmem.
  intros Hf Hc R. rewrite mapped_access_unfold by apply R. unfold functionalAccess. rewrite (access_prefix pmem p data) by done.
  assert (pkt_isRead (translated p) = true) as -> by (unfold pkt_isRead; cbn; by rewrite Hc).
  rewrite (translated_setData pmem p data) by done. cbn [mbind result_bind].
  match goal with |- context [makeResponse ?q] => destruct (served_back q) as (q' & -> & Hd & Hq); [apply R|by left|] end.
  cbn [mbind result_bind]. rewrite setAddr_wf by done. cbn [mbind result_bind]. eexists. split; [done|]. exact Hd.
Qed.

Lemma mapped_write pmem p data :
  full_memory pmem → pkt_cmd p = WriteReq → func_request line domain_reach p data →
  ∃ pmem' p', mapped_access pmem p = Ok (pmem', p') ∧ full_memory pmem' ∧ pkt_data p' = Some data ∧
    ∀ d a, domain_reach d a → domain_byte pmem' d a =
      if decide (d = guest_of p ∧ pkt_addr p ≤ a < pkt_addr p + pkt_size p)
      then data !!! Z.to_nat (a - pkt_addr p) else domain_byte pmem d a.
Proof using Hline Hwf Hal Hmem.
  intros Hf Hc R. rewrite mapped_access_unfold by apply R. unfold functionalAccess. rewrite (access_prefix pmem p data) by done.
  assert (pkt_isRead (translated p) = false ∧ pkt_isWrite (translated p) = true) as [-> ->]
    by (unfold pkt_isRead, pkt_isWrite; cbn; by rewrite Hc).
  destruct (translated_writeData pmem p data Hf R) as (pmem' & -> & Hf' & Hb). cbn [mbind result_bind].
  destruct (served_back (translated p)) as (q & -> & Hd & Hq); [apply R|by right|]. cbn [mbind result_bind].
  rewrite setAddr_wf by done. cbn [mbind result_bind]. eexists _, _. split; [done|]. split; [done|].
  split; [|done]. rewrite <-(fr_data _ _ _ _ R). exact Hd.
Qed.

#[export] Instance mapped_memory : FuncMemory line mapped_access domain_byte domain_reach full_memory.
Proof using Hline Hwf Hal Hmem. split; [apply mapped_read|apply mapped_write]. Qed.

End Composition.

(** ** Properties *)

(** C2: domains are isolated in physical memory.  Behind an address mapper whose
    entries use disjoint machine memory, what the proxy of one domain writes is
    read back by it, and what the proxy of another domain reads, at the same or
    at any other address, is the same before and after. *)
Theorem domain_memory_isolated (am : AddrMapper) (start line n : Z) (pp pp2 : PortProxy) (pmem data buf buf2 : list Z)
    (addr addr2 : Z) :
  isPowerOf2 line = true → 0 < line < 2 ^ 31 → tlb_wf (am_tlb am) → line_aligned line (am_tlb am) →
  0 ≤ start ∧ start + n ≤ 2 ^ 64 → full_memory n pmem →
  pp_cacheLineSize pp = line → pp_cacheLineSize pp2 = line → 0 ≤ pp_tag pp → 0 ≤ pp_tag pp2 →
  QOSTAG_TO_GUESTID (pp_tag pp) ≠ QOSTAG_TO_GUESTID (pp_tag pp2) →
  blob_region (domain_reach am start n) pp addr (length data) → length buf = length data →
  blob_region (domain_reach am start n) pp2 addr2 (length buf2) →
  ∃ pmem' bytes, writeBlob (mapped_access am start) pp pmem addr data (Z.of_nat (length data)) = Ok (pmem', data) ∧
    readBlob (mapped_access am start) pp pmem' addr buf (Z.of_nat (length data)) = Ok (pmem', data) ∧
    readBlob (mapped_access am start) pp2 pmem addr2 buf2 (Z.of_nat (length buf2)) = Ok (pmem, bytes) ∧
    readBlob (mapped_access am start) pp2 pmem' addr2 buf2 (Z.of_nat (length buf2)) = Ok (pmem', bytes).
Proof.
  intros Hpow Hl Hwf Hal Hmem Hf Hp Hp2 Ht Ht2 Hne HR Hb HR2.
  pose proof (mapped_memory am start line n (proj1 Hl) Hwf Hal Hmem) as FM.
  destruct (writeBlob_spec _ line _ _ _ pp (conj Hp (conj Hpow Hl)) Ht pmem addr data Hf HR) as (pmem' & Hw & Hf' & Hm).
  pose proof (readBlob_spec _ line _ _ _ pp (conj Hp (conj Hpow Hl)) Ht pmem' addr buf Hf') as Hr.
  rewrite Hb in Hr. specialize (Hr HR).
  pose proof (readBlob_spec _ line _ _ _ pp2 (conj Hp2 (conj Hpow Hl)) Ht2 pmem addr2 buf2 Hf HR2) as Hr2.
  pose proof (readBlob_spec _ line _ _ _ pp2 (conj Hp2 (conj Hpow Hl)) Ht2 pmem' addr2 buf2 Hf' HR2) as Hr2'.
  eexists pmem', _. split; [exact Hw|]. rewrite Hr, Hr2, Hr2'. split; [|split; [done|]]; do 2 f_equal.
  - eapply written_read; [|done]. intros x Hx. rewrite Hm, decide_True by (done || by apply HR). done.
  - apply list_fmap_ext. intros i x Hx. apply list_elem_of_lookup_2, elem_of_addr_range in Hx.
    rewrite Hm, decide_False; [done|by intros [He _]; apply Hne|by apply HR2].
Qed.

(** Two domains with 256 bytes each, in the upper and the lower half of memory. *)
Definition demo_halves : AddrMapper := mkAddrMapper [mkEntry 0 0 256 256; mkEntry 1 0 256 0] [] [0; 0; 0; 0] [0; 0; 0; 0].
Lemma demo_halves_wf : tlb_wf (am_tlb demo_halves).
Proof.
  split; [repeat constructor; simpl; lia|]. intros i j e1 e2 Hi Hj Hij. unfold machine_disjoint.
  destruct i as [|[|]], j as [|[|]]; simplify_eq/=; lia.
Qed.
Lemma demo_halves_reach d a : d = 0 ∨ d = 1 → 0 ≤ a < 256 → domain_reach demo_halves 0 512 d a.
Proof.
  intros Hd Ha. destruct demo_halves_wf as [W _].
  assert (mapped (am_tlb demo_halves) d a) as Hm.
  { destruct Hd as [-> | ->]; [exists (mkEntry 0 0 256 256)|exists (mkEntry 1 0 256 0)];
      (split; [set_solver|]); apply ent_contains_iff; simpl; unfold ent_wf; simpl; lia. }
  split; [done|]. destruct (remapAddr_mapped _ _ _ Hm) as (i & e & Hi & Hc & ->). apply list_elem_of_lookup_2 in Hi.
  rewrite Forall_forall in W. destruct (ent_translate_wf e d a (W e Hi) Hc) as [_ Hr].
  cbn in Hi. rewrite !elem_of_cons in Hi. destruct Hi as [->|[->|[]%elem_of_nil]]; simpl in Hr; lia.
Qed.

(** Domain 0 writes 100 bytes across lines; domain 1 reads the same addresses. *)
Lemma domain_memory_isolated_witness :
  ∃ pmem' bytes,
    writeBlob (mapped_access demo_halves 0) (mkPortProxy 64 0) (replicate 512 0) 30 (replicate 100 7) 100 = Ok (pmem', replicate 100 7) ∧
    readBlob (mapped_access demo_halves 0) (mkPortProxy 64 0) pmem' 30 (replicate 100 0) 100 = Ok (pmem', replicate 100 7) ∧
    readBlob (mapped_access demo_halves 0) (mkPortProxy 64 1) (replicate 512 0) 30 (replicate 100 3) 100 = Ok (replicate 512 0, bytes) ∧
    readBlob (mapped_access demo_halves 0) (mkPortProxy 64 1) pmem' 30 (replicate 100 3) 100 = Ok (pmem', bytes).
Proof.
  apply (domain_memory_isolated demo_halves 0 64 512 (mkPortProxy 64 0) (mkPortProxy 64 1) (replicate 512 0)
    (replicate 100 7) (replicate 100 0) (replicate 100 3) 30 30);
    [reflexivity|done|apply demo_halves_wf|by repeat constructor|done|reflexivity|done|done|done|done|discriminate| |reflexivity|];
    (split; [done|]; split; [done|]; split; [done|]; intros x Hx; apply demo_halves_reach;
     [by vm_compute; auto|cbn in Hx; lia]).
Defined.

Lemma proxy_roundtrip_witness :
  ∃ pmem', writeBlob (mapped_access demo_halves 0) (mkPortProxy 64 1) (replicate 512 0) 60 (replicate 10 7) 10 = Ok (pmem', replicate 10 7) ∧
    readBlob (mapped_access demo_halves 0) (mkPortProxy 64 1) pmem' 60 (replicate 10 0) 10 = Ok (pmem', replicate 10 7) ∧
    domain_byte demo_halves 0 pmem' 0 60 = 0.
Proof.
  pose proof (mapped_memory demo_halves 0 64 512 ltac:(done) demo_halves_wf ltac:(by repeat constructor) ltac:(done)) as FM.
  destruct (proxy_roundtrip (mapped_access demo_halves 0) 64 (domain_byte demo_halves 0) (domain_reach demo_halves 0 512)
    (full_memory 512) (mkPortProxy 64 1) (replicate 512 0) 60 (replicate 10 7) (replicate 10 0)) as (pmem' & H1 & H2 & H3);
    [reflexivity|done|reflexivity|done|done| |reflexivity|].
  - split; [done|]. split; [done|]. split; [done|]. intros x Hx. apply demo_halves_reach; [by vm_compute; auto|cbn in Hx; lia].
  - exists pmem'. split; [exact H1|]. split; [exact H2|]. rewrite H3; [by vm_compute|apply demo_halves_reach; [by left|done]|by left].
Defined.
