(* ===== verification/DmaPort.v ===== *)
(** * The DMA port

    [PARDg5VDmaPort] of [src/pardg5-v/hyper/dev/dma_device.cc] and [.hh]: a DMA action is split into
    line-sized requests that carry the tag of a domain, queued, sent in timing
    or in atomic mode, and completed by an event when all bytes are in.  The bus
    is an argument; events are numbers. *)

From S2P Require Import Prelude BaseLib ChunkGen Packet.
Local Open Scope Z_scope.

(** ** State *)

Record DmaReqState : Type := mkDmaReqState {
  ds_completionEvent : option nat;
  ds_totBytes : Z;
  ds_numBytes : Z;
  ds_delay : Z
}.

(** Request states live in a store; a deleted one is [None].  [dp_scheduled]
    are the completion events that wait in the event queue, with their ticks,
    and [dp_signalled] counts [signalDrainDone]. *)
Record DmaPort : Type := mkDmaPort {
  dp_transmitList : list Packet;
  dp_sendEvent : option Z;
  dp_masterId : Z;
  dp_pendingCount : Z;
  dp_drainManager : bool;
  dp_signalled : nat;
  dp_inRetry : bool;
  dp_time_stamp : list Z;
  dp_throughput : list Z;
  dp_states : list (option DmaReqState);
  dp_scheduled : list (nat * Z)
}.
#[export] Instance eta_DmaPort : Eta DmaPort := λ d,
  mkDmaPort (dp_transmitList d) (dp_sendEvent d) (dp_masterId d) (dp_pendingCount d) (dp_drainManager d)
    (dp_signalled d) (dp_inRetry d) (dp_time_stamp d) (dp_throughput d) (dp_states d) (dp_scheduled d).

Definition DMA : Z := 1023.
Definition GUESTNUM : Z := 2.
Definition BEGIN_TIME : Z := 1200000000000.
Definition TIME_WINDOW : Z := 1000000000.

Definition DmaPort_make (masterId : Z) : DmaPort :=
  mkDmaPort [] None masterId 0 false 0 false (replicate (Z.to_nat GUESTNUM) BEGIN_TIME)
    (replicate (Z.to_nat GUESTNUM) 0) [] [].

(** What the port asks the simulator. *)
Record DmaEnv : Type := mkDmaEnv { de_curTick : Z; de_nextEdge : Z; de_lineSize : Z }.

(** ** Operations *)

(** The [while] loop of [update_guest_bandwidth]: time stamp and throughput. *)
Fixpoint bandwidth_loop (fuel : nat) (tick ts thr : Z) : result (Z * Z) :=
  match fuel with
  | O => Err OutOfFuel
  | S fuel =>
      if TIME_WINDOW <? tick - ts then bandwidth_loop fuel tick (ts + TIME_WINDOW) 0 else Ok (ts, thr)
  end.
Definition update_guest_bandwidth (ev : DmaEnv) (d : DmaPort) (guestID bytes : Z) : result DmaPort :=
  if GUESTNUM <=? guestID then Ok d
  else
    ts ← at_ (dp_time_stamp d) guestID;
    if ts <? de_curTick ev then
      thr ← at_ (dp_throughput d) guestID;
      '(ts, thr) ← bandwidth_loop (Z.to_nat ((de_curTick ev - ts) / TIME_WINDOW) + 2) (de_curTick ev) ts thr;
      stamps ← upd_at (dp_time_stamp d) guestID ts;
      thrs ← upd_at (dp_throughput d) guestID (thr + bytes);
      Ok (d <| dp_time_stamp := stamps |> <| dp_throughput := thrs |>)
    else Ok d.

(** [device->schedule]: an event is scheduled once.  The event queue also asserts
    that [when] is not in the past; see [completion_not_past]. *)
Definition scheduleEvent (d : DmaPort) (e : nat) (when : Z) : result DmaPort :=
  assertb (negb (bool_decide (e ∈ (dp_scheduled d).*1))) ;;
  Ok (d <| dp_scheduled := dp_scheduled d ++ [(e, when)] |>).

(** As long as the ticks of the simulation do not wrap, completion is not
    scheduled for the past. *)
Lemma completion_not_past ev delay d :
  0 ≤ de_curTick ev → 0 ≤ delay + d → de_curTick ev + (delay + d) < 2 ^ 64 →
  de_curTick ev ≤ wrap 64 (de_curTick ev + (delay + d)).
Proof. intros. rewrite wrap_small by (split; lia). lia. Qed.

(** [dynamic_cast<DmaReqState*>(pkt->senderState)]. *)
Definition dma_state (d : DmaPort) (p : Packet) : result (nat * DmaReqState) :=
  match pkt_senderState p with
  | SSOther id :: _ =>
      s ← at_ (dp_states d) (Z.of_nat id);
      match s with Some s => Ok (id, s) | None => Err NullDeref end
  | _ => Err AssertFail
  end.

Definition handleResp (ev : DmaEnv) (d : DmaPort) (p : Packet) (delay : Z) : result DmaPort :=
  assertb (pkt_isResponse p) ;;
  '(id, s) ← dma_state d p;
  d ← update_guest_bandwidth ev d (wrap 16 (req_qosTag (pkt_req p))) (req_size (pkt_req p));
  assertb (negb (dp_pendingCount d =? 0)) ;;
  let d := d <| dp_pendingCount := dp_pendingCount d - 1 |> in
  let s := mkDmaReqState (ds_completionEvent s) (ds_totBytes s) (wrap 64 (ds_numBytes s + req_size (pkt_req p))) (ds_delay s) in
  assertb (ds_numBytes s <=? ds_totBytes s) ;;
  d ← (if ds_totBytes s =? ds_numBytes s then
         d ← (match ds_completionEvent s with
              | Some e => scheduleEvent d e (wrap 64 (de_curTick ev + (delay + ds_delay s)))
              | None => Ok d
              end);
         sts ← upd_at (dp_states d) (Z.of_nat id) None;
         Ok (d <| dp_states := sts |>)
       else
         sts ← upd_at (dp_states d) (Z.of_nat id) (Some s);
         Ok (d <| dp_states := sts |>));
  if (dp_pendingCount d =? 0) && dp_drainManager d
  then Ok (d <| dp_drainManager := false |> <| dp_signalled := S (dp_signalled d) |>)
  else Ok d.

Definition dma_recvTimingResp (ev : DmaEnv) (d : DmaPort) (p : Packet) : result DmaPort :=
  assertb (negb (memInhibitAsserted p && negb (sharedAsserted p))) ;;
  handleResp ev d p 0.

Definition dma_drain (d : DmaPort) : DmaPort * Z :=
  if dp_pendingCount d =? 0 then (d, 0) else (d <| dp_drainManager := true |>, 1).

Definition queueDma (d : DmaPort) (p : Packet) : DmaPort :=
  d <| dp_transmitList := dp_transmitList d ++ [p] |> <| dp_pendingCount := wrap 32 (dp_pendingCount d + 1) |>.

(** [trySendTimingReq] when the peer answers [accept]: the packet sent. *)
Definition trySendTimingReq (ev : DmaEnv) (accept : bool) (d : DmaPort) : result (DmaPort * list Packet) :=
  match dp_transmitList d with
  | [] => Err OutOfBounds
  | p :: rest =>
      let d := d <| dp_inRetry := negb accept |> in
      if accept then
        let d := d <| dp_transmitList := rest |> in
        if bool_decide (rest = []) then Ok (d, [p])
        else
          assertb (bool_decide (dp_sendEvent d = None)) ;;
          Ok (d <| dp_sendEvent := Some (de_nextEdge ev) |>, [p])
      else Ok (d, [])
  end.

(** [sendDma] in timing mode. *)
Definition sendDma_timing (ev : DmaEnv) (accept : bool) (d : DmaPort) : result (DmaPort * list Packet) :=
  assertb (negb (bool_decide (dp_transmitList d = []))) ;;
  if dp_inRetry d || negb (bool_decide (dp_sendEvent d = None)) then Ok (d, [])
  else trySendTimingReq ev accept d.

Definition dma_recvRetry (ev : DmaEnv) (accept : bool) (d : DmaPort) : result (DmaPort * list Packet) :=
  assertb (negb (bool_decide (dp_transmitList d = []))) ;;
  trySendTimingReq ev accept d.

(** [sendDma] in atomic mode: everything is sent and handled at once; the served
    packets, whose bytes are those of the buffer of the device. *)
Fixpoint sendDma_atomic {M : Type} (sendAtomic : M → Packet → result (M * Packet * Z)) (ev : DmaEnv)
    (l : list Packet) (d : DmaPort) (m : M) : result (DmaPort * M * list Packet) :=
  match l with
  | [] => Ok (d, m, [])
  | p :: l =>
      let d := d <| dp_transmitList := l |> in
      '(m, p, lat) ← sendAtomic m p;
      d ← handleResp ev d p lat;
      '(d, m, ps) ← sendDma_atomic sendAtomic ev l d m;
      Ok (d, m, p :: ps)
  end.

(** The packet of one chunk; [data] is the buffer of the device, if any. *)
Definition dma_packet (d : DmaPort) (cmd : MemCmd) (flags guestID : Z) (data : option (list Z)) (id : nat) (a n o : Z)
  : result Packet :=
  let req := (Request_phys a n flags (dp_masterId d)) <| req_taskId := DMA |> <| req_qosTag := guestID |> in
  let p := Packet_make req cmd in
  p ← (match data with
       | None => Ok p
       | Some buf =>
           if decide (o + n ≤ Z.of_nat (length buf))
           then Ok ((flag_set p STATIC_DATA) <| pkt_data := Some (slice buf (Z.to_nat o) (Z.to_nat n)) |>)
           else Err OutOfBounds
       end);
  Ok (p <| pkt_senderState := [SSOther id] |>).

(** The first half of [dmaAction]: the request state and the queued packets. *)
Definition queue_action (ev : DmaEnv) (d : DmaPort) (cmd : MemCmd) (addr size guestID : Z) (event : option nat)
    (data : option (list Z)) (delay flags : Z) : result DmaPort :=
  let id := length (dp_states d) in
  let d := d <| dp_states := dp_states d ++ [Some (mkDmaReqState event (wrap 64 size) 0 delay)] |> in
  chunk_loop addr (wrap 32 size) (de_lineSize ev)
    (λ d a n o, p ← dma_packet d cmd flags guestID data id a n o; Ok (queueDma d p)) d.

Definition dmaAction_timing (ev : DmaEnv) (accept : bool) (d : DmaPort) (cmd : MemCmd) (addr size guestID : Z)
    (event : option nat) (data : option (list Z)) (delay flags : Z) : result (DmaPort * list Packet) :=
  d ← queue_action ev d cmd addr size guestID event data delay flags;
  sendDma_timing ev accept d.

Definition dmaAction_atomic {M : Type} (sendAtomic : M → Packet → result (M * Packet * Z)) (ev : DmaEnv) (d : DmaPort)
    (m : M) (cmd : MemCmd) (addr size guestID : Z) (event : option nat) (data : option (list Z)) (delay flags : Z)
  : result (DmaPort * M * list Packet) :=
  d ← queue_action ev d cmd addr size guestID event data delay flags;
  assertb (negb (bool_decide (dp_transmitList d = []))) ;;
  sendDma_atomic sendAtomic ev (dp_transmitList d) d m.

Definition dmaPending (d : DmaPort) : bool := 0 <? dp_pendingCount d.

(** ** The packets of an action *)

(** The packet for [n] bytes at [a], [o] bytes into the action. *)
Record chunk_packet (cmd : MemCmd) (guestID : Z) (data : option (list Z)) (id : nat) (c : Z * Z * Z) (p : Packet) : Prop := {
  cp_cmd : pkt_cmd p = cmd;
  cp_addr : pkt_addr p = c.1.1;
  cp_size : pkt_size p = c.1.2;
  cp_req_size : req_size (pkt_req p) = c.1.2;
  cp_tag : pkt_qosTag p = guestID;
  cp_req_tag : req_qosTag (pkt_req p) = guestID;
  cp_state : pkt_senderState p = [SSOther id];
  cp_data : pkt_data p = (λ buf, slice buf (Z.to_nat c.2) (Z.to_nat c.1.2)) <$> data;
  cp_wf : pkt_wf p;
  cp_ptr : flag_isSet (pkt_flags p) (Z.lor STATIC_DATA DYNAMIC_DATA) = bool_decide (is_Some data);
  cp_inhibit : memInhibitAsserted p = false
}.

(** The master and the flags of a request. *)
Definition made_by (mid flags : Z) (p : Packet) : Prop := req_masterId (pkt_req p) = mid ∧ req_flags (pkt_req p) = flags.

(** A run of chunks is queued in order. *)
Lemma queue_run cmd flags guestID data id a off sizes d line :
  aligned_run line a sizes → 0 ≤ off →
  (∀ buf, data = Some buf → off + Z.of_nat (sum_list_with Z.to_nat sizes) ≤ Z.of_nat (length buf)) →
  0 ≤ dp_pendingCount d → dp_pendingCount d + Z.of_nat (length sizes) < 2 ^ 32 →
  ∃ pk, foldM (λ d '(a, n, o), p ← dma_packet d cmd flags guestID data id a n o; Ok (queueDma d p)) d (place a off sizes) =
      Ok (d <| dp_transmitList := dp_transmitList d ++ pk |> <| dp_pendingCount := dp_pendingCount d + Z.of_nat (length sizes) |>) ∧
    Forall2 (chunk_packet cmd guestID data id) (place a off sizes) pk ∧ Forall (made_by (dp_masterId d) flags) pk.
Proof.
  revert a off d. induction sizes as [|n sizes IH]; intros a off d Hal Ho Hd Hp Hb.
  { exists []. split; [|by split]. simpl. rewrite app_nil_r, Z.add_0_r. by destruct d. }
  destruct Hal as (Hn & Hl & Hal). cbn [sum_list_with length] in *. cbn [place foldM].
  assert (∃ p, dma_packet d cmd flags guestID data id a n off = Ok p ∧ chunk_packet cmd guestID data id (a, n, off) p ∧
    made_by (dp_masterId d) flags p) as (p & -> & Hc & Hm).
  { unfold dma_packet. destruct data as [buf|]; [|eexists; split; [reflexivity|by split]].
    specialize (Hd buf eq_refl). rewrite decide_True by lia. eexists. split; [reflexivity|]. by split. }
  cbn [mbind result_bind].
  destruct (IH (a + n) (off + n) (queueDma d p)) as (pk & Hf & HF & HM); [done|lia| | | |].
  - intros buf Hbuf. specialize (Hd buf Hbuf). lia.
  - cbn. rewrite wrap_small by (unfold in_width; lia). lia.
  - cbn -[length]. rewrite wrap_small by (unfold in_width; lia). lia.
  - exists (p :: pk). split; [|split; by constructor]. rewrite Hf. f_equal. unfold queueDma. destruct d. cbn -[length].
    rewrite <-app_assoc, wrap_small by (cbn -[length] in *; unfold in_width; lia). cbn [app]. f_equal. lia.
Qed.

(** The size of an action: a positive [int] that lies in the address space and,
    if the device has a buffer, in the buffer. *)
Record action_ok (ev : DmaEnv) (d : DmaPort) (addr size : Z) (data : option (list Z)) : Prop := {
  ao_line : isPowerOf2 (de_lineSize ev) = true ∧ 0 < de_lineSize ev < 2 ^ 31;
  ao_size : 0 < size < 2 ^ 31;
  ao_addr : in_width 64 addr ∧ addr + size ≤ 2 ^ 64;
  ao_data : ∀ buf, data = Some buf → size ≤ Z.of_nat (length buf);
  ao_pending : 0 ≤ dp_pendingCount d ∧
    dp_pendingCount d + Z.of_nat (length (chunk_sizes addr size (de_lineSize ev))) < 2 ^ 32
}.

Lemma queue_action_spec ev d cmd addr size guestID event data delay flags :
  action_ok ev d addr size data →
  ∃ pk, queue_action ev d cmd addr size guestID event data delay flags =
      Ok (d <| dp_states := dp_states d ++ [Some (mkDmaReqState event size 0 delay)] |>
            <| dp_transmitList := dp_transmitList d ++ pk |>
            <| dp_pendingCount := dp_pendingCount d + Z.of_nat (length pk) |>) ∧
    Forall2 (chunk_packet cmd guestID data (length (dp_states d))) (chunks addr size (de_lineSize ev)) pk ∧
    Forall (made_by (dp_masterId d) flags) pk.
Proof.
  intros [[Hpow Hl] Hs [Ha He] Hd [Hp Hb]]. unfold queue_action. cbn zeta.
  rewrite !wrap_small by (unfold in_width in *; lia). rewrite chunk_loop_spec by (done || (split; [done|lia])).
  destruct (chunk_sizes_run addr size (de_lineSize ev)) as [Hsum Hal]; [lia|lia|].
  destruct (queue_run cmd flags guestID data (length (dp_states d)) addr 0 (chunk_sizes addr size (de_lineSize ev))
    (d <| dp_states := dp_states d ++ [Some (mkDmaReqState event size 0 delay)] |>) (de_lineSize ev)) as (pk & Hf & HF & HM); [done|lia| |done|done|].
  { intros buf Hbuf. specialize (Hd buf Hbuf). lia. }
  exists pk. unfold chunks. rewrite Hf. split; [|done]. apply Forall2_length in HF. rewrite length_place in HF. by rewrite HF.
Qed.

(** ** Bandwidth windows *)

(** The loop ends in the window of the current tick; the throughput of a window
    that has passed is dropped. *)
Lemma bandwidth_loop_spec fuel tick ts thr :
  ts < tick → (tick - ts) / TIME_WINDOW < Z.of_nat fuel →
  ∃ ts' thr', bandwidth_loop fuel tick ts thr = Ok (ts', thr') ∧ 0 < tick - ts' ≤ TIME_WINDOW ∧
    (ts' - ts) mod TIME_WINDOW = 0 ∧ (thr' = if decide (ts' = ts) then thr else 0).
Proof.
  revert ts thr. induction fuel as [|fuel IH]; intros ts thr Ht Hf.
  { pose proof (Z.div_pos (tick - ts) TIME_WINDOW ltac:(lia) ltac:(done)). lia. }
  cbn [bandwidth_loop]. destruct (Z.ltb_spec TIME_WINDOW (tick - ts)) as [Hw|Hw].
  - destruct (IH (ts + TIME_WINDOW) 0) as (ts' & thr' & -> & H1 & H2 & H3); [lia| |].
    { replace (tick - (ts + TIME_WINDOW)) with (tick - ts + (-1) * TIME_WINDOW) by lia. rewrite Z.div_add by done. lia. }
    exists ts', thr'. split; [done|]. split; [done|]. split.
    + replace (ts' - ts) with (ts' - (ts + TIME_WINDOW) + 1 * TIME_WINDOW) by lia. by rewrite Z.mod_add.
    + rewrite H3. destruct (decide (ts' = ts)) as [->|]; [|by case_decide]. exfalso.
      assert (ts = ts + TIME_WINDOW ∨ ts < ts + TIME_WINDOW) as [?|?] by (unfold TIME_WINDOW; lia); unfold TIME_WINDOW in *; lia.
  - exists ts, thr. split; [done|]. split; [lia|]. rewrite Z.sub_diag. by rewrite decide_True.
Qed.

Definition stamps_ok (d : DmaPort) : Prop := length (dp_time_stamp d) = 2%nat ∧ length (dp_throughput d) = 2%nat.

Lemma update_bandwidth_ok ev d g bytes :
  stamps_ok d → 0 ≤ g →
  ∃ st th, update_guest_bandwidth ev d g bytes = Ok (d <| dp_time_stamp := st |> <| dp_throughput := th |>) ∧
    length st = 2%nat ∧ length th = 2%nat.
Proof.
  intros [H1 H2] Hg. unfold update_guest_bandwidth.
  assert (Ok d = Ok (d <| dp_time_stamp := dp_time_stamp d |> <| dp_throughput := dp_throughput d |>)) as Hid by (by destruct d).
  destruct (Z.leb_spec GUESTNUM g) as [|Hlt]; [by eexists _, _|]. unfold GUESTNUM in Hlt.
  destruct (at_total (dp_time_stamp d) g) as [ts Hts]; [lia|]. rewrite Hts. cbn [mbind result_bind].
  destruct (Z.ltb_spec ts (de_curTick ev)); [|by eexists _, _].
  destruct (at_total (dp_throughput d) g) as [thr Hthr]; [lia|]. rewrite Hthr. cbn [mbind result_bind].
  destruct (bandwidth_loop_spec (Z.to_nat ((de_curTick ev - ts) / TIME_WINDOW) + 2) (de_curTick ev) ts thr)
    as (ts' & thr' & -> & _); [done|lia|]. cbn [mbind result_bind]. unfold upd_at.
  rewrite !decide_True by lia. cbn [mbind result_bind]. eexists _, _. split; [done|]. by rewrite !length_insert.
Qed.

(** ** The invariant of the port *)

(** Bytes that the packets [l] still owe to request state [id]. *)
Definition owed (id : nat) (l : list Packet) : nat :=
  sum_list_with (λ p, if decide (pkt_senderState p = [SSOther id]) then Z.to_nat (req_size (pkt_req p)) else 0%nat) l.

(** The completion events of the request states. *)
Definition live_events (sts : list (option DmaReqState)) : list nat := omap (λ o, o ≫= ds_completionEvent) sts.

(** The books of the port about the packets [out] that are out: every packet
    belongs to a live request state, whose missing bytes are those of its
    packets, and no event is in use twice. *)
Record dma_books (d : DmaPort) (out : list Packet) : Prop := {
  db_pending : dp_pendingCount d = Z.of_nat (length out) ∧ dp_pendingCount d < 2 ^ 32;
  db_states : ∀ id s, dp_states d !! id = Some (Some s) →
    0 ≤ ds_numBytes s < ds_totBytes s ∧ ds_totBytes s < 2 ^ 31 ∧
    ds_totBytes s = ds_numBytes s + Z.of_nat (owed id out);
  db_packets : ∀ p, p ∈ out →
    ∃ id s, pkt_senderState p = [SSOther id] ∧ dp_states d !! id = Some (Some s) ∧ 0 < req_size (pkt_req p);
  db_stamps : stamps_ok d;
  db_events : NoDup ((dp_scheduled d).*1 ++ live_events (dp_states d));
  db_drain : dp_drainManager d = true → 0 < dp_pendingCount d
}.

(** Something will send the packets that wait: the send event or a retry, and
    never both. *)
Definition sender_ok (d : DmaPort) : Prop :=
  (dp_sendEvent d ≠ None → dp_inRetry d = false) ∧
  (dp_transmitList d = [] ↔ dp_sendEvent d = None ∧ dp_inRetry d = false).

(** [flight] are the requests on their way. *)
Definition dma_inv (d : DmaPort) (flight : list Packet) : Prop :=
  dma_books d (dp_transmitList d ++ flight) ∧ sender_ok d.

Lemma DmaPort_make_inv mid : dma_inv (DmaPort_make mid) [].
Proof.
  split; [|by split]. split; [done|by intros id s Hs|by intros p Hp%elem_of_nil|done|constructor|done].
Qed.

#[export] Instance owed_perm id : Proper ((≡ₚ) ==> (=)) (owed id).
Proof. intros l1 l2 Hl. unfold owed. by rewrite Hl. Qed.

Lemma owed_app id l1 l2 : owed id (l1 ++ l2) = (owed id l1 + owed id l2)%nat.
Proof. unfold owed. apply sum_list_with_app. Qed.

(** The order of the packets does not matter, nor do the fields of the sender. *)
Lemma books_ext d d' out out' :
  dma_books d out → out ≡ₚ out' → dp_pendingCount d' = dp_pendingCount d → dp_states d' = dp_states d →
  dp_time_stamp d' = dp_time_stamp d → dp_throughput d' = dp_throughput d → dp_scheduled d' = dp_scheduled d →
  dp_drainManager d' = dp_drainManager d → dma_books d' out'.
Proof.
  intros [B1 B2 B3 B4 B5 B6] Hp E1 E2 E3 E4 E5 E6. unfold stamps_ok in *. split; rewrite ?E1, ?E2, ?E5, ?E6; try done.
  - by rewrite <-Hp.
  - intros id s Hs. rewrite <-Hp. by apply B2.
  - intros p. rewrite <-Hp. apply B3.
  - unfold stamps_ok. by rewrite E3, E4.
Qed.

(** Sending the first packet moves it from the list to the flight. *)
Lemma trySend_spec ev accept d flight p rest :
  dma_books d (dp_transmitList d ++ flight) → dp_transmitList d = p :: rest → dp_sendEvent d = None →
  ∃ d' sent, trySendTimingReq ev accept d = Ok (d', sent) ∧ dma_inv d' (flight ++ sent) ∧
    sent = (if accept then [p] else []) ∧ dp_transmitList d' = (if accept then rest else p :: rest) ∧
    dp_states d' = dp_states d ∧ dp_scheduled d' = dp_scheduled d.
Proof.
  intros B Hl Hs. unfold trySendTimingReq. rewrite Hl in *. destruct accept; cbn [negb].
  - case_bool_decide as Hr.
    + eexists _, [p]. split; [done|]. split; [|by repeat split]. split; [|by split; cbn; [|rewrite Hs; naive_solver]].
      eapply books_ext; [exact B|..]; try done. cbn. subst rest. apply Permutation_cons_append.
    + cbn [dp_sendEvent setf]. rewrite Hs, bool_decide_eq_true_2 by done. cbn [assertb mbind result_bind].
      eexists _, [p]. split; [done|]. split; [|by repeat split]. split; [|by split; [done|split; [done|by intros [? _]]]].
      eapply books_ext; [exact B|..]; try done. cbn. rewrite app_assoc. apply Permutation_cons_append.
  - eexists _, []. split; [done|]. rewrite app_nil_r. split; [|by repeat split]. split; [|by split; cbn; [rewrite Hs|split; [by rewrite Hl|by intros [_ ?]]]].
    eapply books_ext; [exact B|..]; try done. cbn. by rewrite Hl.
Qed.

Lemma owed_chunks cmd guestID data id a off sizes pk id' :
  Forall2 (chunk_packet cmd guestID data id) (place a off sizes) pk →
  owed id' pk = if decide (id' = id) then sum_list_with Z.to_nat sizes else 0%nat.
Proof.
  revert a off pk. induction sizes as [|n sizes IH]; intros a off pk HF; cbn [place] in HF.
  { apply Forall2_nil_inv_l in HF as ->. by case_decide. }
  apply Forall2_cons_inv_l in HF as (p & pk' & Hp & HF & ->). apply IH in HF. destruct Hp.
  unfold owed in *. cbn [sum_list_with]. rewrite HF, cp_state0, cp_req_size0. cbn [fst snd].
  destruct (decide (id' = id)) as [->|Hne]; [by rewrite decide_True|]. by rewrite decide_False by congruence.
Qed.

Lemma owed_absent id l : (∀ p, p ∈ l → pkt_senderState p ≠ [SSOther id]) → owed id l = 0%nat.
Proof.
  induction l as [|p l IH]; intros H; [done|]. unfold owed in *. cbn [sum_list_with].
  rewrite decide_False by (apply H; left). apply IH. intros q Hq. apply H. by right.
Qed.

Lemma live_events_app l1 l2 : live_events (l1 ++ l2) = live_events l1 ++ live_events l2.
Proof. unfold live_events. apply omap_app. Qed.

(** Packets of a run are positive. *)
Lemma run_positive cmd guestID data id line a off sizes pk p :
  aligned_run line a sizes → Forall2 (chunk_packet cmd guestID data id) (place a off sizes) pk → p ∈ pk →
  pkt_senderState p = [SSOther id] ∧ 0 < req_size (pkt_req p).
Proof.
  revert a off pk. induction sizes as [|n sizes IH]; intros a off pk Hal HF Hp; cbn [place] in HF.
  { apply Forall2_nil_inv_l in HF as ->. by apply elem_of_nil in Hp. }
  destruct Hal as (Hn & _ & Hal). apply Forall2_cons_inv_l in HF as (q & pk' & Hq & HF & ->).
  apply elem_of_cons in Hp as [->|Hp]; [|by eapply IH]. destruct Hq. by rewrite cp_req_size0.
Qed.

(** A new action keeps the books. *)
Lemma queue_books ev d out cmd addr size guestID event data delay pk :
  dma_books d out → action_ok ev d addr size data →
  (∀ e, event = Some e → e ∉ (dp_scheduled d).*1 ++ live_events (dp_states d)) →
  Forall2 (chunk_packet cmd guestID data (length (dp_states d))) (chunks addr size (de_lineSize ev)) pk →
  dma_books (d <| dp_states := dp_states d ++ [Some (mkDmaReqState event size 0 delay)] |>
               <| dp_transmitList := dp_transmitList d ++ pk |>
               <| dp_pendingCount := dp_pendingCount d + Z.of_nat (length pk) |>) (out ++ pk).
Proof.
  intros [B1 B2 B3 B4 B5 B6] [[Hpow Hl] Hs Ha Hd [Hp Hb]] He HF. unfold chunks in HF.
  destruct (chunk_sizes_run addr size (de_lineSize ev)) as [Hsum Hal]; [lia|lia|].
  pose proof (Forall2_length _ _ _ HF) as Hlen. rewrite length_place in Hlen.
  assert (∀ id, owed id (out ++ pk) = owed id out + if decide (id = length (dp_states d)) then Z.to_nat size else 0)%nat as How.
  { intros id. rewrite owed_app, (owed_chunks _ _ _ _ _ _ _ _ _ HF). by rewrite Hsum. }
  split; cbn.
  - rewrite length_app. lia.
  - intros id s Hid. rewrite How. apply lookup_app_Some in Hid as [Hid|[Hge Hid]].
    + rewrite decide_False by (apply lookup_lt_Some in Hid; lia). rewrite Nat.add_0_r. by apply B2.
    + apply list_lookup_singleton_Some in Hid as [Hz [= <-]]. assert (id = length (dp_states d)) as -> by lia.
      rewrite decide_True by done. cbn. rewrite owed_absent; [lia|]. intros p Hp' Hst.
      destruct (B3 p Hp') as (id' & s' & Hst' & Hid' & _). rewrite Hst in Hst'. injection Hst' as <-.
      apply lookup_lt_Some in Hid'. lia.
  - intros p [Hp'|Hp']%elem_of_app.
    + destruct (B3 p Hp') as (id & s & H1 & H2 & H3). exists id, s. split; [done|]. split; [|done].
      by apply lookup_app_l_Some.
    + destruct (run_positive _ _ _ _ _ _ _ _ _ p Hal HF Hp') as [H1 H2].
      eexists _, _. split; [exact H1|]. split; [by apply list_lookup_middle|done].
  - done.
  - rewrite live_events_app, app_assoc. apply NoDup_app. split; [done|]. destruct event as [e|]; cbn; [|by split; [set_solver|constructor]].
    specialize (He e eq_refl). split; [set_solver|apply NoDup_singleton].
  - intros Hdr. specialize (B6 Hdr). lia.
Qed.

(** The state of a packet with its books. *)
Lemma books_state d out p :
  dma_books d out → p ∈ out →
  ∃ id s, dma_state d p = Ok (id, s) ∧ dp_states d !! id = Some (Some s) ∧ pkt_senderState p = [SSOther id].
Proof.
  intros B Hp. destruct (db_packets _ _ B p Hp) as (id & s & H1 & H2 & _). exists id, s. unfold dma_state. rewrite H1.
  assert (at_ (dp_states d) (Z.of_nat id) = Ok (Some s)) as -> by (apply at_Ok; split; [lia|by rewrite Nat2Z.id]). done.
Qed.

Lemma live_events_insert sts id s (o : option DmaReqState) :
  sts !! id = Some (Some s) → ds_completionEvent <$> o = Some (ds_completionEvent s) ∨ o = None →
  live_events sts ≡ₚ (if o is None then option_list (ds_completionEvent s) else []) ++ live_events (<[id := o]> sts).
Proof.
  intros Hs Ho. apply lookup_lt_Some in Hs as Hlt. rewrite <-(take_drop_middle sts id (Some s) Hs) at 1.
  rewrite insert_take_drop by done. rewrite !live_events_app. unfold live_events. cbn [omap list_omap].
  destruct o as [s'|]; cbn [mbind option_bind].
  - destruct Ho as [[= ->]|?]; [|done]. cbn [app]. by destruct (ds_completionEvent s).
  - destruct (ds_completionEvent s) as [e|]; cbn [option_list app]; [|done]. by rewrite <-Permutation_middle.
Qed.

Lemma owed_zero id l : (∀ p, p ∈ l → 0 < req_size (pkt_req p)) → owed id l = 0%nat →
  ∀ p, p ∈ l → pkt_senderState p ≠ [SSOther id].
Proof.
  intros Hpos H0 p Hp Hst. apply list_elem_of_split in Hp as (l1 & l2 & ->). unfold owed in H0.
  rewrite sum_list_with_app in H0. cbn [sum_list_with] in H0. rewrite decide_True in H0 by done.
  specialize (Hpos p ltac:(set_solver)). lia.
Qed.

(** The response of a packet: the request object and the sender state are
    those of the packet, and no line is handed over in ownership state. *)
Record answered (p r : Packet) : Prop := {
  an_response : pkt_isResponse r = true;
  an_req : pkt_req r = pkt_req p;
  an_state : pkt_senderState r = pkt_senderState p;
  an_owner : memInhibitAsserted r && negb (sharedAsserted r) = false
}.

(** The books after the last, or another, response of a request state. *)
Lemma books_complete d out p id s st th :
  dma_books d (p :: out) → pkt_senderState p = [SSOther id] → dp_states d !! id = Some (Some s) →
  owed id out = 0%nat → length st = 2%nat → length th = 2%nat →
  ∀ sched, sched.*1 = (dp_scheduled d).*1 ++ option_list (ds_completionEvent s) →
  ∀ dr, (dr = true → 0 < dp_pendingCount d - 1) → ∀ sg,
  dma_books (mkDmaPort (dp_transmitList d) (dp_sendEvent d) (dp_masterId d) (dp_pendingCount d - 1) dr sg
    (dp_inRetry d) st th (<[id := None]> (dp_states d)) sched) out.
Proof.
  intros [B1 B2 B3 B4 B5 B6] Hst Hs H0 Hl1 Hl2 sched Hsched dr Hdr sg. split; cbn.
  - cbn in B1. lia.
  - intros id' s' Hid'. apply list_lookup_insert_Some in Hid' as [(_ & [=] & _)|[Hne Hid']].
    destruct (B2 id' s' Hid') as (H1 & H2 & H3). split; [done|]. split; [done|]. unfold owed in H3. cbn [sum_list_with] in H3.
    rewrite decide_False in H3 by congruence. exact H3.
  - intros q Hq. destruct (B3 q) as (id' & s' & H1 & H2 & H3); [by right|]. exists id', s'. split; [done|]. split; [|done].
    rewrite list_lookup_insert_ne; [done|]. intros <-. eapply (owed_zero id out); [|done..].
    intros q' Hq'. destruct (B3 q') as (?&?&_&_&?); [by right|done].
  - by split.
  - rewrite Hsched, <-app_assoc. rewrite (live_events_insert _ id s None) in B5 by (done || by right). done.
  - done.
Qed.

Lemma books_partial d out p id s st th :
  dma_books d (p :: out) → pkt_senderState p = [SSOther id] → dp_states d !! id = Some (Some s) →
  owed id out ≠ 0%nat → length st = 2%nat → length th = 2%nat →
  ∀ dr, (dr = true → 0 < dp_pendingCount d - 1) → ∀ sg,
  dma_books (mkDmaPort (dp_transmitList d) (dp_sendEvent d) (dp_masterId d) (dp_pendingCount d - 1) dr sg
    (dp_inRetry d) st th
    (<[id := Some (mkDmaReqState (ds_completionEvent s) (ds_totBytes s) (ds_numBytes s + req_size (pkt_req p)) (ds_delay s))]>
       (dp_states d)) (dp_scheduled d)) out.
Proof.
  intros [B1 B2 B3 B4 B5 B6] Hst Hs H0 Hl1 Hl2 dr Hdr sg. destruct (B3 p) as (_ & _ & _ & _ & Hpos); [left|].
  apply lookup_lt_Some in Hs as Hlt. split; cbn.
  - cbn in B1. lia.
  - intros id' s' Hid'. apply list_lookup_insert_Some in Hid' as [(<- & [= <-] & _)|[Hne Hid']]; cbn.
    + destruct (B2 id s Hs) as (H1 & H2 & H3). unfold owed in H3. cbn [sum_list_with] in H3.
      rewrite decide_True in H3 by done. fold (owed id out) in H3. lia.
    + destruct (B2 id' s' Hid') as (H1 & H2 & H3). split; [done|]. split; [done|]. unfold owed in H3. cbn [sum_list_with] in H3.
      rewrite decide_False in H3 by congruence. exact H3.
  - intros q Hq. destruct (B3 q) as (id' & s' & H1 & H2 & H3); [by right|]. destruct (decide (id = id')) as [<-|Hne].
    + eexists id, _. split; [done|]. split; [by apply list_lookup_insert_eq|done].
    + exists id', s'. split; [done|]. split; [by rewrite list_lookup_insert_ne|done].
  - by split.
  - match goal with |- context [<[id := ?o]> _] => rewrite (live_events_insert _ id s o) in B5 end; [exact B5|done|by left].
  - done.
Qed.

(** The drain signal at the end of [handleResp]. *)
Definition drained_signal (pc : Z) (dm : bool) (sg : nat) : bool * nat :=
  if (pc =? 0) && dm then (false, S sg) else (dm, sg).

Lemma handleResp_eval ev tl se mi pc dm sg ir ts thr sts sc p r delay id s st th :
  let d := mkDmaPort tl se mi pc dm sg ir ts thr sts sc in
  pkt_isResponse r = true → pkt_req r = pkt_req p → dma_state d r = Ok (id, s) → sts !! id = Some (Some s) →
  update_guest_bandwidth ev d (wrap 16 (req_qosTag (pkt_req p))) (req_size (pkt_req p)) =
    Ok (d <| dp_time_stamp := st |> <| dp_throughput := th |>) →
  pc ≠ 0 → in_width 64 (ds_numBytes s + req_size (pkt_req p)) → ds_numBytes s + req_size (pkt_req p) ≤ ds_totBytes s →
  (∀ e, ds_completionEvent s = Some e → e ∉ sc.*1) →
  let num := ds_numBytes s + req_size (pkt_req p) in
  let last := ds_totBytes s =? num in
  handleResp ev d r delay =
    Ok (mkDmaPort tl se mi (pc - 1) (drained_signal (pc - 1) dm sg).1 (drained_signal (pc - 1) dm sg).2 ir st th
      (<[id := if last then None else Some (mkDmaReqState (ds_completionEvent s) (ds_totBytes s) num (ds_delay s))]> sts)
      (sc ++ if last then (λ e, (e, wrap 64 (de_curTick ev + (delay + ds_delay s)))) <$> option_list (ds_completionEvent s) else [])).
Proof.
  intros d Hr Hq Hst Hs Hup Hpc Hw Hle He num last. unfold handleResp. rewrite Hr. cbn [assertb mbind result_bind].
  rewrite Hst. cbn [mbind result_bind]. rewrite Hq, Hup. subst d. cbn. rewrite (proj2 (Z.eqb_neq pc 0)) by done. cbn.
  rewrite (wrap_small 64 (ds_numBytes s + _)) by done. rewrite (proj2 (Z.leb_le _ _) Hle). cbn.
  apply lookup_lt_Some in Hs. unfold drained_signal. fold num. fold last.
  assert (∀ o, upd_at sts (Z.of_nat id) o = Ok (<[id := o]> sts)) as Hu.
  { intros o. unfold upd_at. rewrite decide_True by lia. by rewrite Nat2Z.id. }
  destruct last.
  - destruct (ds_completionEvent s) as [e|]; cbn; [unfold scheduleEvent; cbn; rewrite bool_decide_eq_false_2 by (by apply He); cbn|];
      rewrite Hu; cbn; rewrite ?app_nil_r; by destruct ((pc - 1 =? 0) && dm).
  - cbn. rewrite Hu. cbn. rewrite ?app_nil_r. by destruct ((pc - 1 =? 0) && dm).
Qed.

(** A response of a packet that is out is handled; the event of its action is
    scheduled exactly when no byte of the action is owed any more. *)
Lemma handleResp_spec ev d out p r delay :
  dma_books d (p :: out) → pkt_isResponse r = true → pkt_req r = pkt_req p → pkt_senderState r = pkt_senderState p →
  ∃ d' id s, handleResp ev d r delay = Ok d' ∧ dma_books d' out ∧
    pkt_senderState p = [SSOther id] ∧ dp_states d !! id = Some (Some s) ∧
    dp_scheduled d' = dp_scheduled d ++
      (if decide (owed id out = 0%nat)
       then (λ e, (e, wrap 64 (de_curTick ev + (delay + ds_delay s)))) <$> option_list (ds_completionEvent s) else []) ∧
    dp_pendingCount d' = dp_pendingCount d - 1 ∧
    (dp_pendingCount d' = 0 → dp_drainManager d' = false ∧ dp_signalled d' = (dp_signalled d + if dp_drainManager d then 1 else 0)%nat) ∧
    (owed id out = 0%nat → dp_states d' = <[id := None]> (dp_states d)) ∧
    (∃ o, dp_states d' = <[id := o]> (dp_states d) ∧
       ∀ s', o = Some s' → ds_completionEvent s' = ds_completionEvent s ∧ ds_delay s' = ds_delay s) ∧
    dp_transmitList d' = dp_transmitList d ∧ dp_sendEvent d' = dp_sendEvent d ∧ dp_inRetry d' = dp_inRetry d.
Proof.
  intros B A1 A2 A3. destruct (books_state _ _ p B) as (id & s & Hst & Hs & Hss); [left|].
  destruct (db_packets _ _ B p) as (id' & s' & Hss' & _ & Hpos); [left|]. rewrite Hss in Hss'. injection Hss' as <-.
  destruct (db_states _ _ B id s Hs) as (N1 & N2 & N3). unfold owed in N3. cbn [sum_list_with] in N3.
  rewrite decide_True in N3 by done. fold (owed id out) in N3. destruct (db_pending _ _ B) as [P1 P2]. cbn [length] in P1.
  assert (dma_state d r = Ok (id, s)) as Hsr by (rewrite <-Hst; unfold dma_state; by rewrite A3).
  destruct (update_bandwidth_ok ev d (wrap 16 (req_qosTag (pkt_req p))) (req_size (pkt_req p))) as (st & th & Hup & L1 & L2);
    [apply B|apply wrap_range; lia|].
  assert (∀ e, ds_completionEvent s = Some e → e ∉ (dp_scheduled d).*1) as He.
  { intros e Hev Hin. pose proof (db_events _ _ B) as Hnd. rewrite (live_events_insert _ id s None) in Hnd by (done || by right).
    rewrite Hev in Hnd. apply NoDup_app in Hnd as (_ & Hx & _). apply (Hx e Hin). left. }
  pose proof (books_complete d _ p id s st th B Hss Hs) as HC. pose proof (books_partial d _ p id s st th B Hss Hs) as HP.
  destruct d as [tl se mi pc dm sg ir ts thr sts sc]. cbn [dp_transmitList dp_sendEvent dp_masterId dp_pendingCount dp_drainManager
    dp_signalled dp_inRetry dp_time_stamp dp_throughput dp_states dp_scheduled] in *.
  rewrite (handleResp_eval ev tl se mi pc dm sg ir ts thr sts sc p r delay id s st th); try done;
    [|lia|unfold in_width; lia|lia].
  assert ((drained_signal (pc - 1) dm sg).1 = true → 0 < pc - 1) as Hdr.
  { unfold drained_signal. destruct (Z.eqb_spec (pc - 1) 0); [by destruct dm|]. cbn. intros ->. lia. }
  eexists _, id, s. split; [done|]. cbn.
  assert ((ds_totBytes s =? ds_numBytes s + req_size (pkt_req p)) = bool_decide (owed id out = 0%nat)) as ->.
  { destruct (Z.eqb_spec (ds_totBytes s) (ds_numBytes s + req_size (pkt_req p))); symmetry;
      [apply bool_decide_eq_true_2|apply bool_decide_eq_false_2]; lia. }
  split.
  { case_bool_decide as H0; [apply HC; try done|rewrite app_nil_r; by apply HP].
    rewrite fmap_app. f_equal. by destruct (ds_completionEvent s). }
  split; [done|]. split; [done|]. split; [by case_bool_decide; case_decide|]. split; [done|]. split; [|split; [|split; [|done]]].
  - intros Hz. unfold drained_signal. rewrite (proj2 (Z.eqb_eq _ _) Hz). destruct dm; cbn; (split; [done|lia]).
  - intros Ho. by rewrite bool_decide_eq_true_2.
  - eexists. split; [done|]. intros s2. case_bool_decide; [done|]. by intros [= <-].
Qed.

Lemma response_spec ev d flight f1 p f2 r :
  dma_inv d flight → flight = f1 ++ p :: f2 → answered p r →
  ∃ d' id s, dma_recvTimingResp ev d r = Ok d' ∧ dma_inv d' (f1 ++ f2) ∧
    pkt_senderState p = [SSOther id] ∧ dp_states d !! id = Some (Some s) ∧
    dp_scheduled d' = dp_scheduled d ++
      (if decide (owed id (dp_transmitList d ++ f1 ++ f2) = 0%nat)
       then (λ e, (e, wrap 64 (de_curTick ev + ds_delay s))) <$> option_list (ds_completionEvent s) else []) ∧
    dp_pendingCount d' = dp_pendingCount d - 1 ∧
    (dp_pendingCount d' = 0 → dp_drainManager d' = false ∧ dp_signalled d' = (dp_signalled d + if dp_drainManager d then 1 else 0)%nat).
Proof.
  intros [B [S1 S2]] -> [A1 A2 A3 A4].
  assert (dma_books d (p :: dp_transmitList d ++ f1 ++ f2)) as B'.
  { eapply books_ext; [exact B|..]; try done. by rewrite !app_assoc, Permutation_middle. }
  destruct (handleResp_spec ev d _ p r 0 B' A1 A2 A3) as (d' & id & s & H1 & H2 & H3 & H4 & H5 & H6 & H7 & _ & _ & E1 & E2 & E3).
  exists d', id, s. unfold dma_recvTimingResp. rewrite A4. cbn [negb assertb mbind result_bind]. split; [done|].
  split; [split; [by rewrite E1|unfold sender_ok; by rewrite E1, E2, E3]|]. done.
Qed.

(** [sendDma] with the books in order and a packet to send. *)
Lemma sendDma_spec ev accept d flight :
  dma_books d (dp_transmitList d ++ flight) → dp_transmitList d ≠ [] →
  (dp_sendEvent d ≠ None → dp_inRetry d = false) →
  ∃ d' sent, sendDma_timing ev accept d = Ok (d', sent) ∧ dma_inv d' (flight ++ sent) ∧
    dp_states d' = dp_states d ∧ dp_scheduled d' = dp_scheduled d.
Proof.
  intros B Hne Hx. unfold sendDma_timing. rewrite (bool_decide_eq_false_2 (dp_transmitList d = [])) by exact Hne. cbn [negb assertb mbind result_bind].
  destruct (dp_inRetry d || negb (bool_decide (dp_sendEvent d = None))) eqn:E.
  - exists d, []. rewrite app_nil_r. split; [done|]. split; [|done]. split; [done|]. split; [done|]. split; [done|].
    intros [H1 H2]. rewrite H1, H2 in E. done.
  - apply orb_false_iff in E as [_ E]. apply negb_false_iff, bool_decide_eq_true in E.
    destruct (dp_transmitList d) as [|p rest] eqn:Hl; [done|]. rewrite <-Hl in B.
    destruct (trySend_spec ev accept d flight p rest B Hl E) as (d' & sent & -> & I & _ & _ & H1 & H2). by exists d', sent.
Qed.

(** Starting an action. *)
Lemma action_spec ev accept d flight cmd addr size guestID event data delay flags :
  dma_inv d flight → action_ok ev d addr size data →
  (∀ e, event = Some e → e ∉ (dp_scheduled d).*1 ++ live_events (dp_states d)) →
  ∃ d' sent, dmaAction_timing ev accept d cmd addr size guestID event data delay flags = Ok (d', sent) ∧
    dma_inv d' (flight ++ sent) ∧ dp_scheduled d' = dp_scheduled d ∧ 0 < dp_pendingCount d'.
Proof.
  intros [B [S1 S2]] Hok He.
  destruct (queue_action_spec ev d cmd addr size guestID event data delay flags Hok) as (pk & Hq & HF & HM').
  unfold dmaAction_timing. rewrite Hq. cbn [mbind result_bind].
  pose proof (queue_books ev d _ cmd addr size guestID event data delay pk B Hok He HF) as B1.
  assert (pk ≠ []) as Hne.
  { intros ->. apply Forall2_length in HF. unfold chunks, chunk_sizes in HF. destruct (ao_size _ _ _ _ _ Hok) as [Hs _].
    by rewrite (proj2 (Z.eqb_neq size 0)) in HF by lia. }
  set (d1 := setf dp_pendingCount _ _) in *.
  destruct (sendDma_spec ev accept d1 flight) as (d' & sent & H1 & H2 & H3 & H4).
  - eapply books_ext; [exact B1|..]; try done. cbn. rewrite <-!app_assoc. by rewrite (Permutation_app_comm flight).
  - cbn. intros Hx. by apply app_nil in Hx as [_ ?].
  - exact S1.
  - exists d', sent. split; [done|]. split; [done|]. split; [done|]. destruct (db_pending _ _ (proj1 H2)) as [Hp _].
    destruct (db_states _ _ (proj1 H2) (length (dp_states d)) (mkDmaReqState event size 0 delay)) as (_ & _ & Hs).
    { rewrite H3. subst d1. cbn. by apply list_lookup_middle. }
    cbn in Hs. destruct (ao_size _ _ _ _ _ Hok) as [Hpos _]. rewrite Hp. destruct (_ ++ flight ++ sent); [cbn in Hs; lia|cbn; lia].
Qed.

(** ** Atomic mode *)

(** The requests [l] served one after the other. *)
Fixpoint send_all {M : Type} (sendAtomic : M → Packet → result (M * Packet * Z)) (m : M) (l : list Packet) : result (M * list Packet) :=
  match l with
  | [] => Ok (m, [])
  | p :: l =>
      '(m, r, _) ← sendAtomic m p;
      '(m, rs) ← send_all sendAtomic m l;
      Ok (m, r :: rs)
  end.

(** The response of an atomic access. *)
Definition responded (p r : Packet) : Prop :=
  pkt_isResponse r = true ∧ pkt_req r = pkt_req p ∧ pkt_senderState r = pkt_senderState p.

(** The requests that are not yet served are those of one action; the last one
    completes it. *)
Lemma atomic_run {M} (sendAtomic : M → Packet → result (M * Packet * Z)) (ok : M → Prop) (Q : Packet → Prop) ev id s l d m :
  (∀ m p, ok m → Q p → ∃ m' r lat, sendAtomic m p = Ok (m', r, lat) ∧ ok m' ∧ responded p r) →
  l ≠ [] → ok m → dma_books d l → Forall (λ p, pkt_senderState p = [SSOther id] ∧ Q p) l → dp_states d !! id = Some (Some s) →
  dp_transmitList d = l →
  ∃ d' m' ps lat, sendDma_atomic sendAtomic ev l d m = Ok (d', m', ps) ∧ dma_books d' [] ∧ ok m' ∧
    send_all sendAtomic m l = Ok (m', ps) ∧ length ps = length l ∧
    dp_transmitList d' = [] ∧ dp_sendEvent d' = dp_sendEvent d ∧ dp_inRetry d' = dp_inRetry d ∧
    dp_states d' = <[id := None]> (dp_states d) ∧
    dp_scheduled d' = dp_scheduled d ++
      ((λ e, (e, wrap 64 (de_curTick ev + (lat + ds_delay s)))) <$> option_list (ds_completionEvent s)).
Proof.
  intros HM. revert s d m. induction l as [|p l IH]; intros s d m Hne Hm B HF Hs Hl; [done|].
  apply Forall_cons in HF as [[Hp Hq] HF]. cbn [sendDma_atomic send_all].
  destruct (HM m p Hm Hq) as (m1 & r & lat & Hsend & Hm1 & R1 & R2 & R3). rewrite Hsend. cbn [mbind result_bind].
  set (d0 := d <| dp_transmitList := l |>).
  assert (dma_books d0 (p :: l)) as B0 by (by eapply books_ext; [exact B|..]).
  destruct (handleResp_spec ev d0 l p r lat B0 R1 R2 R3) as (d1 & id' & s' & -> & B1 & Hp' & Hs' & Hsch & _ & _ & Hdone & (o & Hst & Ho) & E1 & E2 & E3).
  rewrite Hp in Hp'. injection Hp' as <-. change (dp_states d0) with (dp_states d) in *. rewrite Hs in Hs'. injection Hs' as <-.
  change (dp_scheduled d0) with (dp_scheduled d) in Hsch. change (dp_transmitList d0) with l in E1. cbn [mbind result_bind].
  destruct l as [|q l].
  { exists d1, m1, [r], lat. cbn [sendDma_atomic send_all mbind result_bind]. repeat (split; [done|]).
    split; [by apply Hdone|]. by rewrite Hsch, decide_True. }
  destruct (db_packets _ _ B1 q) as (i1 & s1 & Hi1 & Hs1 & Hpos); [left|]. pose proof HF as [[Hq1 _] _]%Forall_cons.
  rewrite Hq1 in Hi1. injection Hi1 as <-. rewrite Hst in Hs1. pose proof Hs1 as Hx.
  apply list_lookup_insert_Some in Hx as [(_ & -> & _)|[Hx _]]; [|done]. destruct (Ho s1 eq_refl) as [Oe Od].
  destruct (IH s1 d1 m1) as (d' & m' & ps & lat' & -> & B' & Hm' & -> & Hlen & T1 & T2 & T3 & T4 & T5); [done|done|done|done|by rewrite Hst|done|].
  cbn [mbind result_bind]. exists d', m', (r :: ps), lat'. split; [done|]. split; [done|]. split; [done|]. split; [done|].
  split; [cbn [length]; by rewrite Hlen|]. split; [done|]. split; [by rewrite T2, E2|]. split; [by rewrite T3, E3|].
  split; [by rewrite T4, Hst, list_insert_insert_eq|].
  rewrite T5, Hsch, Oe, Od, decide_False, app_nil_r; [done|].
  intros H0. eapply (owed_zero id (q :: l)); [|exact H0|left|done].
  intros x Hin. by destruct (db_packets _ _ B1 x Hin) as (_ & _ & _ & _ & ?).
Qed.

(** A whole action in atomic mode, over a peer that answers the packets of the
    action in states that satisfy [ok]. *)
Lemma atomic_action_spec {M} (sendAtomic : M → Packet → result (M * Packet * Z)) (ok : M → Prop) ev d m cmd addr size guestID event data delay flags :
  (∀ m p c, ok m → c ∈ chunks addr size (de_lineSize ev) → chunk_packet cmd guestID data (length (dp_states d)) c p →
     made_by (dp_masterId d) flags p → ∃ m' r lat, sendAtomic m p = Ok (m', r, lat) ∧ ok m' ∧ responded p r) →
  ok m → dma_inv d [] → dp_transmitList d = [] → action_ok ev d addr size data →
  (∀ e, event = Some e → e ∉ (dp_scheduled d).*1 ++ live_events (dp_states d)) →
  ∃ d' m' pk ps lat, dmaAction_atomic sendAtomic ev d m cmd addr size guestID event data delay flags = Ok (d', m', ps) ∧
    ok m' ∧ send_all sendAtomic m pk = Ok (m', ps) ∧
    Forall2 (chunk_packet cmd guestID data (length (dp_states d))) (chunks addr size (de_lineSize ev)) pk ∧
    Forall (made_by (dp_masterId d) flags) pk ∧ dma_inv d' [] ∧ dp_transmitList d' = [] ∧ length ps = length (chunks addr size (de_lineSize ev)) ∧
    dp_states d' = dp_states d ++ [None] ∧
    dp_scheduled d' = dp_scheduled d ++ ((λ e, (e, wrap 64 (de_curTick ev + (lat + delay)))) <$> option_list event).
Proof.
  intros HM Hm [B [S1 S2]] Htl Hok He. rewrite Htl in B.
  destruct (queue_action_spec ev d cmd addr size guestID event data delay flags Hok) as (pk & Hq & HF & HM').
  pose proof (queue_books ev d _ cmd addr size guestID event data delay pk B Hok He HF) as B1.
  unfold dmaAction_atomic. rewrite Hq. cbn [mbind result_bind].
  set (d1 := setf dp_pendingCount _ _) in *. assert (dp_transmitList d1 = pk) as Hl1 by (subst d1; cbn; by rewrite Htl).
  destruct (ao_size _ _ _ _ _ Hok) as [Hs _]. pose proof (Forall2_length _ _ _ HF) as Hlen.
  assert (pk ≠ []) as Hne.
  { intros ->. unfold chunks, chunk_sizes in Hlen. by rewrite (proj2 (Z.eqb_neq size 0)) in Hlen by lia. }
  rewrite Hl1, bool_decide_eq_false_2 by done. cbn [negb assertb mbind result_bind].
  destruct (atomic_run sendAtomic ok (λ p, ∃ c, c ∈ chunks addr size (de_lineSize ev) ∧
      chunk_packet cmd guestID data (length (dp_states d)) c p ∧ made_by (dp_masterId d) flags p) ev (length (dp_states d))
    (mkDmaReqState event size 0 delay) pk d1 m) as (d' & m' & ps & lat & -> & B' & Hm' & Hall & Hps & T1 & T2 & T3 & T4 & T5); try done.
  - intros m0 p H0 (c & Hc & Hp & Hmd). by apply (HM m0 p c).
  - apply Forall_lookup. intros i p Hp. destruct (Forall2_lookup_r _ _ _ _ _ HF Hp) as (c & Hc & C).
    split; [apply C|]. exists c. split; [by eapply list_elem_of_lookup_2|]. split; [done|]. by eapply Forall_lookup_1.
  - subst d1. cbn. by apply list_lookup_middle.
  - destruct (proj1 S2 Htl) as [N1 N2]. exists d', m', pk, ps, lat. split; [done|]. split; [done|]. split; [done|]. split; [done|]. split; [done|].
    split; [split; [by rewrite T1|split; rewrite ?T2, ?T3; cbn; [by rewrite N1, N2|by rewrite T1, N1, N2]]|].
    split; [done|]. split; [congruence|]. split; [|done].
    rewrite T4. subst d1. cbn. by rewrite insert_app_r_alt, Nat.sub_diag by lia.
Qed.

(** ** What the packets of an action carry *)

Definition packet_range (p : Packet) : list Z := addr_range (pkt_addr p) (Z.to_nat (pkt_size p)).

Lemma run_cover cmd guestID buf id line a off sizes pk :
  aligned_run line a sizes → 0 ≤ off → Forall2 (chunk_packet cmd guestID (Some buf) id) (place a off sizes) pk →
  concat (packet_range <$> pk) = addr_range a (sum_list_with Z.to_nat sizes) ∧
  concat (default [] ∘ pkt_data <$> pk) = slice buf (Z.to_nat off) (sum_list_with Z.to_nat sizes) ∧
  Forall (λ p, pkt_cmd p = cmd ∧ pkt_qosTag p = guestID ∧ 0 < pkt_size p ∧ pkt_addr p mod line + pkt_size p ≤ line) pk.
Proof.
  revert a off pk. induction sizes as [|n sizes IH]; intros a off pk Hal Ho HF; cbn [place] in HF.
  { apply Forall2_nil_inv_l in HF as ->. by split; [|split]. }
  destruct Hal as (Hn & Hl & Hal). apply Forall2_cons_inv_l in HF as (p & pk' & [C1 C2 C3 C4 C5 C6 C7 C8 _ _ _] & HF & ->).
  destruct (IH (a + n) (off + n) pk' Hal) as (I1 & I2 & I3); [lia|done|]. cbn [fst snd] in *.
  cbn [fmap list_fmap concat sum_list_with]. rewrite I1, I2. split; [|split].
  - unfold packet_range. rewrite C2, C3, addr_range_add. by rewrite Z2Nat.id by lia.
  - cbn [compose]. rewrite C8. cbn. unfold slice. replace (Z.to_nat (off + n)) with (Z.to_nat off + Z.to_nat n)%nat by lia.
    rewrite <-drop_drop. symmetry. rewrite <-(take_drop (Z.to_nat n) (take _ _)), take_take, skipn_firstn_comm.
    f_equal; f_equal; lia.
  - constructor; [|done]. rewrite C1, C2, C3, C5. done.
Qed.

(** ** Properties *)

(** C21: the DMA port keeps its books and never fails.  Starting an action (in
    the address space, with an event that is not in use), the send event, a
    retry and the response of any packet on its way all succeed and keep the
    invariant: the pending count is the number of packets out, every live
    action is owed exactly the bytes of its packets, waiting packets have a
    send event or a retry to come, and no event is scheduled twice.  A drain request keeps it too. *)
Theorem dma_invariant ev d flight :
  dma_inv d flight →
  (∀ accept cmd addr size guestID event data delay flags,
     action_ok ev d addr size data →
     (∀ e, event = Some e → e ∉ (dp_scheduled d).*1 ++ live_events (dp_states d)) →
     ∃ d' sent, dmaAction_timing ev accept d cmd addr size guestID event data delay flags = Ok (d', sent) ∧
       dma_inv d' (flight ++ sent)) ∧
  (∀ accept, dp_sendEvent d ≠ None →
     ∃ d' sent, sendDma_timing ev accept (d <| dp_sendEvent := None |>) = Ok (d', sent) ∧ dma_inv d' (flight ++ sent)) ∧
  (∀ accept, dp_inRetry d = true →
     ∃ d' sent, dma_recvRetry ev accept d = Ok (d', sent) ∧ dma_inv d' (flight ++ sent)) ∧
  (∀ f1 p f2 r, flight = f1 ++ p :: f2 → answered p r →
     ∃ d', dma_recvTimingResp ev d r = Ok d' ∧ dma_inv d' (f1 ++ f2)) ∧
  dma_inv (dma_drain d).1 flight.
Proof.
  intros [B [S1 S2]]. split; [|split; [|split; [|split]]].
  - intros accept cmd addr size guestID event data delay flags Hok He.
    destruct (action_spec ev accept d flight cmd addr size guestID event data delay flags) as (d' & sent & H1 & H2 & _); [by split|done..|].
    by exists d', sent.
  - intros accept Hev. destruct (sendDma_spec ev accept (d <| dp_sendEvent := None |>) flight) as (d' & sent & H1 & H2 & _);
      [by eapply books_ext; [exact B|..]|by intros [Hx _]%S2|cbn; intros Hx; by destruct Hx|by exists d', sent].
  - intros accept Hr. assert (dp_sendEvent d = None) as Hev.
    { destruct (dp_sendEvent d) as [t|]; [|done]. by rewrite S1 in Hr. }
    assert (dp_transmitList d ≠ []) as Hne by (intros [_ Hx]%S2; congruence).
    unfold dma_recvRetry. rewrite (bool_decide_eq_false_2 (dp_transmitList d = [])) by exact Hne. cbn [negb assertb mbind result_bind].
    destruct (dp_transmitList d) as [|p rest] eqn:Hl; [done|]. rewrite <-Hl in B.
    destruct (trySend_spec ev accept d flight p rest B Hl Hev) as (d' & sent & H1 & H2 & _). by exists d', sent.
  - intros f1 p f2 r Hfl Han. destruct (response_spec ev d flight f1 p f2 r) as (d' & id & s & H1 & H2 & _); [by split|done..|].
    by exists d'.
  - unfold dma_drain. destruct (Z.eqb_spec (dp_pendingCount d) 0) as [|Hne]; [by split|]. split; [|by split].
    destruct B as [[B1 B1'] B2 B3 B4 B5 B6]. split; try done. intros _. cbn in *. lia.
Qed.

(** An action completes once, with its last byte.  A response schedules the
    completion event of its action exactly when no other packet of the action
    is out, at the current tick plus the delay of the action, and the last
    packet of all answers a drain request. *)
Theorem dma_completion ev d f1 p f2 r :
  dma_inv d (f1 ++ p :: f2) → answered p r →
  ∃ d' id s, dma_recvTimingResp ev d r = Ok d' ∧ pkt_senderState p = [SSOther id] ∧ dp_states d !! id = Some (Some s) ∧
    dp_scheduled d' = dp_scheduled d ++
      (if decide (owed id (dp_transmitList d ++ f1 ++ f2) = 0%nat)
       then (λ e, (e, wrap 64 (de_curTick ev + ds_delay s))) <$> option_list (ds_completionEvent s) else []) ∧
    dp_pendingCount d' = dp_pendingCount d - 1 ∧
    (dp_pendingCount d' = 0 → dp_drainManager d' = false ∧
       dp_signalled d' = (dp_signalled d + if dp_drainManager d then 1 else 0)%nat).
Proof.
  intros I Han. destruct (response_spec ev d _ f1 p f2 r I eq_refl Han) as (d' & id & s & H1 & _ & H2 & H3 & H4 & H5 & H6).
  by exists d', id, s.
Qed.

(** C39: an action in atomic mode is over when the call returns.  All its packets
    have been served in order, nothing is pending, the request state is gone
    and the completion event is scheduled once, after the latency of the last
    packet and the delay of the action. *)
Theorem dma_atomic_completes {M} (sendAtomic : M → Packet → result (M * Packet * Z)) ev d m cmd addr size guestID event data delay flags :
  (∀ m p, pkt_cmd p = cmd → pkt_qosTag p = guestID → ∃ m' r lat, sendAtomic m p = Ok (m', r, lat) ∧
     pkt_isResponse r = true ∧ pkt_req r = pkt_req p ∧ pkt_senderState r = pkt_senderState p) →
  dma_inv d [] → dp_transmitList d = [] → action_ok ev d addr size data →
  (∀ e, event = Some e → e ∉ (dp_scheduled d).*1 ++ live_events (dp_states d)) →
  ∃ d' m' ps lat, dmaAction_atomic sendAtomic ev d m cmd addr size guestID event data delay flags = Ok (d', m', ps) ∧
    dma_inv d' [] ∧ dp_pendingCount d' = 0 ∧ dp_transmitList d' = [] ∧
    length ps = length (chunks addr size (de_lineSize ev)) ∧
    dp_states d' = dp_states d ++ [None] ∧
    dp_scheduled d' = dp_scheduled d ++ ((λ e, (e, wrap 64 (de_curTick ev + (lat + delay)))) <$> option_list event).
Proof.
  intros HM I Htl Hok He.
  destruct (atomic_action_spec sendAtomic (λ _, True) ev d m cmd addr size guestID event data delay flags) as
    (d' & m' & pk & ps & lat & H1 & _ & _ & _ & _ & H2 & H3 & H4 & H5 & H6); try done.
  - intros m0 p c _ _ [C1 _ _ _ C5 _ _ _ _ _ _] _. destruct (HM m0 p C1 C5) as (m' & r & lat & Hr). exists m', r, lat. destruct Hr as [Hr1 Hr2]. by split.
  - exists d', m', ps, lat. split; [done|]. split; [done|]. split; [|done].
    destruct H2 as [B _]. destruct (db_pending _ _ B) as [-> _]. by rewrite H3.
Qed.

(** What an action asks for.  Its packets are queued behind those that wait,
    they cover the addresses of the action in order, each stays in one line and
    carries the command and the tag of the domain, and their bytes are those of
    the buffer. *)
Theorem dma_action_packets ev d cmd addr size guestID event buf delay flags :
  action_ok ev d addr size (Some buf) →
  ∃ d' pk, queue_action ev d cmd addr size guestID event (Some buf) delay flags = Ok d' ∧
    dp_transmitList d' = dp_transmitList d ++ pk ∧
    concat (packet_range <$> pk) = addr_range addr (Z.to_nat size) ∧
    concat (default [] ∘ pkt_data <$> pk) = take (Z.to_nat size) buf ∧
    Forall (λ p, pkt_cmd p = cmd ∧ pkt_qosTag p = guestID ∧ 0 < pkt_size p ∧
      pkt_addr p mod de_lineSize ev + pkt_size p ≤ de_lineSize ev) pk.
Proof.
  intros Hok. destruct (queue_action_spec ev d cmd addr size guestID event (Some buf) delay flags Hok) as (pk & Hq & HF & HM').
  destruct Hok as [[Hpow Hl] Hs _ _ _]. destruct (chunk_sizes_run addr size (de_lineSize ev)) as [Hsum Hal]; [lia|lia|].
  eexists _, pk. split; [exact Hq|]. split; [done|].
  rewrite <-Hsum. by apply (run_cover cmd guestID buf (length (dp_states d)) (de_lineSize ev) addr 0).
Qed.

(** ** Examples *)

Definition demo_dma_env : DmaEnv := mkDmaEnv 100 200 64.
Lemma demo_action_ok : action_ok demo_dma_env (DmaPort_make 5) 100 50 (Some (replicate 50 7)).
Proof.
  split; [by split|by vm_compute|by split|intros buf [= <-]; by vm_compute|by vm_compute].
Qed.

(** An action of 50 bytes at address 100 in lines of 64 bytes: two packets, the
    first one is sent at once. *)
Lemma dma_invariant_witness :
  ∃ d' sent, dmaAction_timing demo_dma_env true (DmaPort_make 5) WriteReq 100 50 1 (Some 7%nat) (Some (replicate 50 7)) 10 0 = Ok (d', sent) ∧
    dma_inv d' ([] ++ sent) ∧ length sent = 1%nat.
Proof.
  destruct (proj1 (dma_invariant demo_dma_env (DmaPort_make 5) [] (DmaPort_make_inv 5)) true WriteReq 100 50 1 (Some 7%nat)
    (Some (replicate 50 7)) 10 0 demo_action_ok) as (d' & sent & H1 & H2).
  - intros e _. by apply not_elem_of_nil.
  - exists d', sent. split; [exact H1|]. split; [exact H2|]. vm_compute in H1. by injection H1 as <- <-.
Defined.

Lemma dma_action_packets_witness :
  ∃ d' pk, queue_action demo_dma_env (DmaPort_make 5) WriteReq 100 50 1 None (Some (replicate 50 7)) 10 0 = Ok d' ∧
    dp_transmitList d' = [] ++ pk ∧
    concat (packet_range <$> pk) = addr_range 100 50 ∧
    concat (default [] ∘ pkt_data <$> pk) = replicate 50 7 ∧
    Forall (λ p, pkt_cmd p = WriteReq ∧ pkt_qosTag p = 1 ∧ 0 < pkt_size p ∧ pkt_addr p mod 64 + pkt_size p ≤ 64) pk.
Proof. exact (dma_action_packets demo_dma_env (DmaPort_make 5) WriteReq 100 50 1 None (replicate 50 7) 10 0 demo_action_ok). Defined.

(** A peer that answers every request after 3 ticks and counts them. *)
Definition demo_peer (m : nat) (p : Packet) : result (nat * Packet * Z) :=
  Ok (S m, p <| pkt_cmd := responseCommand (pkt_cmd p) |>, 3).
Lemma dma_atomic_completes_witness :
  ∃ d' m' ps, dmaAction_atomic demo_peer demo_dma_env (DmaPort_make 5) 0%nat WriteReq 100 50 1 (Some 7%nat) (Some (replicate 50 7)) 10 0 = Ok (d', m', ps) ∧
    dma_inv d' [] ∧ dp_pendingCount d' = 0 ∧ m' = 2%nat ∧ dp_scheduled d' = [(7%nat, 113)].
Proof.
  destruct (dma_atomic_completes demo_peer demo_dma_env (DmaPort_make 5) 0%nat WriteReq 100 50 1 (Some 7%nat) (Some (replicate 50 7)) 10 0)
    as (d' & m' & ps & lat & H1 & H2 & H3 & _).
  - intros m p Hc _. eexists _, _, _. split; [reflexivity|]. split; [unfold pkt_isResponse; cbn; by rewrite Hc|done].
  - apply DmaPort_make_inv.
  - done.
  - apply demo_action_ok.
  - intros e _. by apply not_elem_of_nil.
  - exists d', m', ps. split; [exact H1|]. split; [exact H2|]. split; [exact H3|]. clear H2 H3. vm_compute in H1.
    injection H1 as <- <- _. by split.
Defined.

(** The response of the only packet of an action of 20 bytes. *)
Definition demo_small : DmaPort * list Packet :=
  match dmaAction_timing demo_dma_env true (DmaPort_make 5) WriteReq 64 20 1 (Some 7%nat) (Some (replicate 20 7)) 10 0 with
  | Ok r => r
  | Err _ => (DmaPort_make 5, [])
  end.
Definition demo_request_packet : Packet := hd (Packet_make (Request_phys 0 0 0 0) WriteReq) demo_small.2.
Lemma demo_small_inv : dma_inv demo_small.1 ([] ++ demo_request_packet :: []).
Proof.
  assert (action_ok demo_dma_env (DmaPort_make 5) 64 20 (Some (replicate 20 7))) as Hok
    by (split; [by split|by vm_compute|by split|intros buf [= <-]; by vm_compute|by vm_compute]).
  destruct (queue_action_spec demo_dma_env (DmaPort_make 5) WriteReq 64 20 1 (Some 7%nat) (Some (replicate 20 7)) 10 0 Hok) as (pk & Hq & HF & _).
  pose proof (queue_books demo_dma_env (DmaPort_make 5) [] WriteReq 64 20 1 (Some 7%nat) (Some (replicate 20 7)) 10 pk
    (proj1 (DmaPort_make_inv 5)) Hok (λ e _, not_elem_of_nil e) HF) as B.
  vm_compute in Hq. injection Hq as Hq. subst pk. split; [|by vm_compute].
  eapply books_ext; [exact B|..]; vm_compute; reflexivity.
Qed.
Lemma dma_completion_witness :
  ∃ d', dma_recvTimingResp demo_dma_env demo_small.1 (demo_request_packet <| pkt_cmd := WriteResp |>) = Ok d' ∧
    dp_pendingCount d' = 0 ∧ dp_scheduled d' = [(7%nat, 110)].
Proof.
  destruct (dma_completion demo_dma_env demo_small.1 [] demo_request_packet [] (demo_request_packet <| pkt_cmd := WriteResp |>) demo_small_inv)
    as (d' & id & s & H1 & _ & _ & _ & H2 & _); [by split|].
  exists d'. split; [exact H1|]. split; [rewrite H2; reflexivity|]. clear H2. vm_compute in H1. by injection H1 as <-.
Defined.
