(* ===== verification/DmaDevice.v ===== *)
(** * The DMA device

    [PARDg5VDmaDevice] of [src/pardg5-v/hyper/dev/dma_device.hh]: the sector
    cipher, [dmaWrite] and [dmaRead] over the DMA port, and [drain].  Encryption
    mirrors every 512-byte sector. *)

From S2P Require Import Prelude BaseLib ChunkGen Packet DmaPort.
Local Open Scope Z_scope.

(** ** The cipher *)

Definition SectorSize : Z := 512.

(** The body of the loop of [EncryptSector(&data[base])] and [DecryptSector],
    which have the same code: byte [i] and byte [SectorSize - 1 - i] change
    places. *)
Definition swap_bytes (base : Z) (data : list Z) (i : nat) : result (list Z) :=
  temp ← at_ data (base + Z.of_nat i);
  other ← at_ data (base + (SectorSize - 1 - Z.of_nat i));
  data ← upd_at data (base + Z.of_nat i) other;
  upd_at data (base + (SectorSize - 1 - Z.of_nat i)) temp.
Definition EncryptSector (base : Z) (data : list Z) : result (list Z) :=
  foldM (swap_bytes base) data (seq 0 (Z.to_nat (SectorSize / 2))).
Definition DecryptSector (base : Z) (data : list Z) : result (list Z) :=
  foldM (swap_bytes base) data (seq 0 (Z.to_nat (SectorSize / 2))).

(** [Encrypt] and [Decrypt]: sector by sector while the offset is below [size]. *)
Definition Encrypt (size : Z) (data : list Z) : result (list Z) :=
  foldM (λ data i, EncryptSector (SectorSize * Z.of_nat i) data) data
    (seq 0 (Z.to_nat ((size + SectorSize - 1) / SectorSize))).
Definition Decrypt (size : Z) (data : list Z) : result (list Z) :=
  foldM (λ data i, DecryptSector (SectorSize * Z.of_nat i) data) data
    (seq 0 (Z.to_nat ((size + SectorSize - 1) / SectorSize))).

(** ** Transfers *)

(** [dmaWrite] and [dmaRead] in timing mode, with the buffer of the device
    before and after the call. *)
Definition dmaWrite_timing (ev : DmaEnv) (accept : bool) (d : DmaPort) (addr size guestID : Z) (need_decrypt : bool)
    (event : option nat) (data : list Z) (delay : Z) : result (DmaPort * list Packet * list Z) :=
  data ← (if need_decrypt then Decrypt size data else Ok data);
  '(d, sent) ← dmaAction_timing ev accept d WriteReq addr size guestID event (Some data) delay 0;
  Ok (d, sent, data).
Definition dmaRead_timing (ev : DmaEnv) (accept : bool) (d : DmaPort) (addr size guestID : Z) (need_encrypt : bool)
    (event : option nat) (data : list Z) (delay : Z) : result (DmaPort * list Packet * list Z) :=
  '(d, sent) ← dmaAction_timing ev accept d ReadReq addr size guestID event (Some data) delay 0;
  data ← (if need_encrypt then Encrypt size data else Ok data);
  Ok (d, sent, data).

(** In atomic mode the packets are served in place: their bytes are those of the
    part of the buffer they point into. *)
Fixpoint served_buffer (data : list Z) (off : nat) (ps : list Packet) : list Z :=
  match ps with
  | [] => data
  | p :: ps =>
      let b := default [] (pkt_data p) in served_buffer (splice data off b) (off + length b)%nat ps
  end.
Definition dmaWrite_atomic {M : Type} (sendAtomic : M → Packet → result (M * Packet * Z)) (ev : DmaEnv) (d : DmaPort) (m : M)
    (addr size guestID : Z) (need_decrypt : bool) (event : option nat) (data : list Z) (delay : Z)
  : result (DmaPort * M * list Z) :=
  data ← (if need_decrypt then Decrypt size data else Ok data);
  '(d, m, ps) ← dmaAction_atomic sendAtomic ev d m WriteReq addr size guestID event (Some data) delay 0;
  Ok (d, m, served_buffer data 0 ps).
Definition dmaRead_atomic {M : Type} (sendAtomic : M → Packet → result (M * Packet * Z)) (ev : DmaEnv) (d : DmaPort) (m : M)
    (addr size guestID : Z) (need_encrypt : bool) (event : option nat) (data : list Z) (delay : Z)
  : result (DmaPort * M * list Z) :=
  '(d, m, ps) ← dmaAction_atomic sendAtomic ev d m ReadReq addr size guestID event (Some data) delay 0;
  let data := served_buffer data 0 ps in
  data ← (if need_encrypt then Encrypt size data else Ok data);
  Ok (d, m, data).

(** ** Draining *)

(** [drain] of the device; [pio] is the count of the programmed-I/O port. *)
Definition device_drain (pio : Z) (d : DmaPort) : DmaPort * DrainState * Z :=
  let '(d, n) := dma_drain d in
  let count := pio + n in
  (d, if count =? 0 then Drained else Draining, count).

Lemma served_buffer_cons data off p ps b :
  pkt_data p = Some b → served_buffer data off (p :: ps) = served_buffer (splice data off b) (off + length b) ps.
Proof. intros H. cbn [served_buffer]. by rewrite H. Qed.

(** ** What the cipher does *)

(** The byte that the sector of byte [i] holds at the place of [i] afterwards. *)
Definition mirror (i : nat) : nat := (512 * (i / 512) + (511 - i mod 512))%nat.

(** [data'] is [data] read through [f]. *)
Definition reads (f : nat → nat) (data data' : list Z) : Prop :=
  length data' = length data ∧ ∀ i, data' !! i = data !! f i.

Lemma mirror_involutive i : mirror (mirror i) = i.
Proof. unfold mirror. pose proof (Nat.div_mod_eq i 512). pose proof (Nat.mod_upper_bound i 512).
  assert ((512 * (i / 512) + (511 - i mod 512)) / 512 = i / 512)%nat as -> by (symmetry; apply (Nat.div_unique _ 512 _ (511 - i mod 512)); lia).
  assert ((512 * (i / 512) + (511 - i mod 512)) mod 512 = 511 - i mod 512)%nat as -> by (symmetry; apply (Nat.mod_unique _ 512 (i / 512)); lia).
  lia.
Qed.

Lemma mirror_sector i n : (mirror i < 512 * n ↔ i < 512 * n)%nat.
Proof. unfold mirror. pose proof (Nat.div_mod_eq i 512). pose proof (Nat.mod_upper_bound i 512). nia. Qed.

(** The first [k] swaps of the sector at [b]. *)
Definition swapped (b k i : nat) : nat :=
  if decide (b ≤ i < b + k ∨ b + 511 - k < i < b + 512)%nat then (b + 511 - (i - b))%nat else i.

Lemma swap_step b k data data' :
  (k < 256)%nat → (b + 512 ≤ length data)%nat → reads (swapped b k) data data' →
  ∃ data'', swap_bytes (Z.of_nat b) data' k = Ok data'' ∧ reads (swapped b (S k)) data data''.
Proof.
  intros Hk Hlen [Hl Hr]. unfold swap_bytes, SectorSize.
  destruct (lookup_lt_is_Some_2 data' (b + k)) as [x Hx]; [lia|].
  destruct (lookup_lt_is_Some_2 data' (b + 511 - k)) as [y Hy]; [lia|].
  assert (at_ data' (Z.of_nat b + Z.of_nat k) = Ok x) as ->.
  { apply at_Ok. split; [lia|]. by replace (Z.to_nat _) with (b + k)%nat by lia. }
  assert (at_ data' (Z.of_nat b + (512 - 1 - Z.of_nat k)) = Ok y) as ->.
  { apply at_Ok. split; [lia|]. by replace (Z.to_nat _) with (b + 511 - k)%nat by lia. }
  cbn [mbind result_bind]. unfold upd_at. rewrite decide_True by lia. cbn [mbind result_bind].
  rewrite decide_True by (rewrite length_insert; lia). eexists. split; [done|]. split; [by rewrite !length_insert|].
  replace (Z.to_nat (Z.of_nat b + Z.of_nat k)) with (b + k)%nat by lia.
  replace (Z.to_nat (Z.of_nat b + (512 - 1 - Z.of_nat k))) with (b + 511 - k)%nat by lia.
  rewrite Hr in Hx, Hy. unfold swapped in Hx, Hy. rewrite decide_False in Hx by lia. rewrite decide_False in Hy by lia.
  intros i. unfold swapped. destruct (decide (i = b + 511 - k)%nat) as [->|H1].
  - rewrite list_lookup_insert_eq by (rewrite length_insert; lia). rewrite decide_True by lia. rewrite <-Hx. f_equal. lia.
  - rewrite list_lookup_insert_ne by done. destruct (decide (i = b + k)%nat) as [->|H2].
    + rewrite list_lookup_insert_eq by lia. rewrite decide_True by lia. rewrite <-Hy. f_equal. lia.
    + rewrite list_lookup_insert_ne by done. rewrite Hr. unfold swapped.
      destruct (decide (b ≤ i < b + k ∨ b + 511 - k < i < b + 512)%nat); [by rewrite decide_True by lia|by rewrite decide_False by lia].
Qed.

Lemma sector_spec b data :
  (b + 512 ≤ length data)%nat → ∃ data', EncryptSector (Z.of_nat b) data = Ok data' ∧ reads (swapped b 256) data data'.
Proof.
  intros Hlen. change (EncryptSector (Z.of_nat b) data) with (foldM (swap_bytes (Z.of_nat b)) data (seq 0 256)).
  assert (∀ k, (k ≤ 256)%nat → ∃ data', foldM (swap_bytes (Z.of_nat b)) data (seq 0 k) = Ok data' ∧ reads (swapped b k) data data') as H;
    [|by apply H].
  induction k as [|k IH]; intros Hk.
  - exists data. split; [done|]. split; [done|]. intros i. unfold swapped. by rewrite decide_False by lia.
  - destruct IH as (data' & Hd & Hr); [lia|]. rewrite seq_S, foldM_app, Hd. cbn [mbind result_bind Nat.add foldM].
    destruct (swap_step b k data data') as (data'' & -> & Hr'); [lia|done..|]. cbn [mbind result_bind]. by exists data''.
Qed.

(** Sector by sector, each byte of the first [n] sectors is mirrored. *)
Definition enciphered (n i : nat) : nat := if decide (i < 512 * n)%nat then mirror i else i.

Lemma sectors_spec n data :
  (512 * n ≤ length data)%nat →
  ∃ data', foldM (λ data i, EncryptSector (SectorSize * Z.of_nat i) data) data (seq 0 n) = Ok data' ∧ reads (enciphered n) data data'.
Proof.
  induction n as [|n IH]; intros Hlen.
  { exists data. split; [done|]. split; [done|]. intros i. unfold enciphered. by rewrite decide_False by lia. }
  destruct IH as (data' & Hd & Hl & Hr); [lia|]. rewrite seq_S, foldM_app, Hd. cbn [mbind result_bind Nat.add foldM].
  replace (SectorSize * Z.of_nat n) with (Z.of_nat (512 * n)) by (unfold SectorSize; lia).
  destruct (sector_spec (512 * n) data') as (data'' & -> & Hl' & Hr'); [lia|]. cbn [mbind result_bind]. exists data''.
  split; [done|]. split; [congruence|]. intros i. rewrite Hr', Hr. f_equal. unfold enciphered, swapped.
  destruct (decide (512 * n ≤ i < 512 * n + 512)%nat) as [Hi|Hi].
  - rewrite (decide_True (P := _ ∨ _)) by lia. rewrite decide_False by lia. rewrite decide_True by lia.
    unfold mirror. assert (i / 512 = n)%nat as -> by (symmetry; apply (Nat.div_unique _ 512 _ (i - 512 * n)); lia).
    assert (i mod 512 = i - 512 * n)%nat as -> by (symmetry; apply (Nat.mod_unique _ 512 n); lia). lia.
  - rewrite (decide_False (P := _ ∨ _)) by lia. destruct (decide (i < 512 * n)%nat); [by rewrite decide_True by lia|by rewrite decide_False by lia].
Qed.

(** Sectors that a transfer of [size] bytes touches. *)
Definition sectors (size : Z) : nat := Z.to_nat ((size + SectorSize - 1) / SectorSize).

Lemma Encrypt_spec size data :
  (512 * sectors size ≤ length data)%nat → ∃ data', Encrypt size data = Ok data' ∧ reads (enciphered (sectors size)) data data'.
Proof. apply sectors_spec. Qed.

(** A sector that leaves the buffer is an access out of bounds. *)
Lemma sector_out b data : (length data < b + 512)%nat → EncryptSector (Z.of_nat b) data = Err OutOfBounds.
Proof.
  intros Hlen. change (EncryptSector (Z.of_nat b) data) with
    (data ← swap_bytes (Z.of_nat b) data 0; foldM (swap_bytes (Z.of_nat b)) data (seq 1 255)).
  unfold swap_bytes. assert (at_ data (Z.of_nat b + (SectorSize - 1 - Z.of_nat 0)) = Err OutOfBounds) as ->
    by (apply at_out; right; unfold SectorSize; lia).
  unfold at_. destruct (decide _); [|done]. by destruct (data !! _).
Qed.

Lemma Encrypt_out size data : (length data < 512 * sectors size)%nat → Encrypt size data = Err OutOfBounds.
Proof.
  intros Hlen. unfold Encrypt. fold (sectors size). set (n := (length data / 512)%nat).
  pose proof (Nat.div_mod_eq (length data) 512). pose proof (Nat.mod_upper_bound (length data) 512).
  assert (sectors size = n + S (sectors size - n - 1))%nat as -> by lia.
  rewrite seq_app, foldM_app. destruct (sectors_spec n data) as (data' & -> & Hl & _); [lia|].
  cbn [mbind result_bind seq foldM]. replace (SectorSize * Z.of_nat (0 + n)) with (Z.of_nat (512 * n)) by (unfold SectorSize; lia).
  by rewrite sector_out by lia.
Qed.

Lemma Decrypt_Encrypt size data : Decrypt size data = Encrypt size data.
Proof. done. Qed.

(** ** Properties *)

(** Decryption undoes encryption.  With a buffer of whole sectors [Encrypt]
    succeeds, keeps the length and [Decrypt] gives the buffer back; so a
    transfer that is written with [need_decrypt] and was read with
    [need_encrypt] carries the original bytes. *)
Theorem cipher_roundtrip size data :
  (512 * sectors size ≤ length data)%nat →
  ∃ data', Encrypt size data = Ok data' ∧ length data' = length data ∧ Decrypt size data' = Ok data.
Proof.
  intros Hlen. destruct (Encrypt_spec size data Hlen) as (data' & H1 & Hl & Hr). exists data'. split; [done|]. split; [done|].
  rewrite Decrypt_Encrypt. destruct (Encrypt_spec size data') as (data'' & -> & Hl' & Hr'); [by rewrite Hl|]. f_equal.
  apply list_eq. intros i. rewrite Hr', Hr. f_equal. unfold enciphered.
  destruct (decide (i < 512 * sectors size)%nat) as [Hi|Hi]; [|by rewrite decide_False].
  rewrite decide_True by (by apply mirror_sector). apply mirror_involutive.
Qed.

(** C40: the cipher works on whole sectors, whatever the size.  It succeeds
    exactly when the buffer holds [size] rounded up to sectors (otherwise it
    leaves the buffer), and it then moves byte [i] of a transfer to the mirror
    place in its sector: a transfer of [size] below a sector ends up in bytes of
    the buffer beyond [size]. *)
Theorem cipher_bounds size data :
  (Encrypt size data ≠ Err OutOfBounds ↔ (512 * sectors size ≤ length data)%nat) ∧
  (∀ data', Encrypt size data = Ok data' →
     (∀ i, (i < 512 * sectors size)%nat → data' !! mirror i = data !! i) ∧
     (∀ i, (512 * sectors size ≤ i)%nat → data' !! i = data !! i)).
Proof.
  split.
  - split; [|intros Hlen; by destruct (Encrypt_spec size data Hlen) as (? & -> & _)].
    intros Hok. destruct (decide (512 * sectors size ≤ length data)%nat) as [|Hlt]; [done|].
    destruct Hok. apply Encrypt_out. lia.
  - intros data' He. destruct (decide (512 * sectors size ≤ length data)%nat) as [Hlen|Hlt];
      [|rewrite Encrypt_out in He by lia; done].
    destruct (Encrypt_spec size data Hlen) as (d & Hd & _ & Hr). rewrite He in Hd. injection Hd as <-. unfold enciphered in Hr.
    split; intros i Hi; rewrite Hr; [|by rewrite decide_False by lia].
    rewrite decide_True by (by apply mirror_sector). by rewrite mirror_involutive.
Qed.

Lemma cipher_roundtrip_witness :
  ∃ data', Encrypt 600 (replicate 512 1 ++ replicate 512 2) = Ok data' ∧ length data' = 1024%nat ∧
    Decrypt 600 data' = Ok (replicate 512 1 ++ replicate 512 2).
Proof. apply (cipher_roundtrip 600 (replicate 512 1 ++ replicate 512 2)). vm_compute. lia. Defined.

(** In timing mode [dmaRead] enciphers a buffer that has not been read yet.
    The call succeeds, and what it leaves in the buffer is the cipher of the old
    contents: packets of the action are still out and its completion event is
    not scheduled, so the bytes that arrive later stay in the clear. *)
Theorem dmaRead_encrypts_early ev accept d flight addr size guestID event data delay :
  dma_inv d flight → action_ok ev d addr size (Some data) →
  (∀ e, event = Some e → e ∉ (dp_scheduled d).*1 ++ live_events (dp_states d)) →
  (512 * sectors size ≤ length data)%nat →
  ∃ d' sent data', dmaRead_timing ev accept d addr size guestID true event data delay = Ok (d', sent, data') ∧
    Encrypt size data = Ok data' ∧ dmaPending d' = true ∧ dp_scheduled d' = dp_scheduled d.
Proof.
  intros I Hok He Hlen.
  destruct (action_spec ev accept d flight ReadReq addr size guestID event (Some data) delay 0 I Hok He) as (d' & sent & H1 & _ & H2 & H3).
  destruct (Encrypt_spec size data Hlen) as (data' & H4 & _). exists d', sent, data'. unfold dmaRead_timing.
  rewrite H1. cbn [mbind result_bind]. rewrite H4. split; [done|]. split; [done|]. split; [by apply Z.ltb_lt|done].
Qed.

Lemma dmaRead_encrypts_early_witness :
  ∃ d' sent data', dmaRead_timing demo_dma_env true (DmaPort_make 5) 0 512 1 true (Some 7%nat) (replicate 512 9) 0 = Ok (d', sent, data') ∧
    Encrypt 512 (replicate 512 9) = Ok data' ∧ dmaPending d' = true ∧ dp_scheduled d' = [].
Proof.
  apply (dmaRead_encrypts_early demo_dma_env true (DmaPort_make 5) [] 0 512 1 (Some 7%nat) (replicate 512 9) 0);
    [apply DmaPort_make_inv|split; [by split|by vm_compute|by split|intros buf [= <-]; by vm_compute|by vm_compute]|
     intros e _; by apply not_elem_of_nil|vm_compute; lia].
Defined.

(** ** Draining the device *)

(** The device reports drained exactly when no packet is out on either port,
    and otherwise the DMA port remembers to signal. *)
Lemma device_drain_spec pio d :
  0 ≤ pio → 0 ≤ dp_pendingCount d →
  let '(d', st, count) := device_drain pio d in
  (st = Drained ↔ pio = 0 ∧ dmaPending d = false) ∧ (dmaPending d = true → dp_drainManager d' = true) ∧
  count = pio + (if dmaPending d then 1 else 0).
Proof.
  intros Hp Hd. unfold device_drain, dma_drain, dmaPending. destruct (Z.eqb_spec (dp_pendingCount d) 0) as [->|Hne]; cbn.
  - destruct (Z.eqb_spec (pio + 0) 0); (split; [split; [intros; try done; lia|intros [? _]; try done; lia]|done]).
  - rewrite (proj2 (Z.ltb_lt _ _)) by lia. rewrite (proj2 (Z.eqb_neq (pio + 1) 0)) by lia. by split; [split; [|intros []]|].
Qed.
