(* ===== verification/GuestDma.v ===== *)
(** * DMA of a domain through the address mapper

    The DMA device of [DmaDevice] in atomic mode, over the address mapper of
    [AddrMapper] in front of the physical memory of [PhysMem]: a device moves
    bytes of the domain it works for and of no other.  [AtomicMemory] states
    what the device relies on; the composed memory system implements it. *)

From S2P Require Import Prelude BaseLib ChunkGen Packet GuestAddr AddrMapper PhysMem PortProxy GuestMemory DmaPort DmaDevice.
Local Open Scope Z_scope.

(** ** The memory a device sees *)

(** A memory with a byte per domain and address, in states that satisfy [ok],
    for requests that satisfy [accepts]. *)
Class AtomicMemory {M : Type} (line : Z) (sendAtomic : M → Packet → result (M * Packet * Z))
    (byte_at : M → Z → Z → Z) (reach : Z → Z → Prop) (ok : M → Prop) (accepts : Packet → Prop) : Prop := {
  atm_read m p data :
    ok m → accepts p → pkt_cmd p = ReadReq → func_request line reach p data →
    ∃ m' r lat, sendAtomic m p = Ok (m', r, lat) ∧ ok m' ∧ responded p r ∧
      (∀ g a, reach g a → byte_at m' g a = byte_at m g a) ∧
      pkt_data r = Some (byte_at m (guest_of p) <$> addr_range (pkt_addr p) (length data));
  atm_write m p data :
    ok m → accepts p → pkt_cmd p = WriteReq → func_request line reach p data →
    ∃ m' r lat, sendAtomic m p = Ok (m', r, lat) ∧ ok m' ∧ responded p r ∧ pkt_data r = Some data ∧
      ∀ g a, reach g a → byte_at m' g a =
        if decide (g = guest_of p ∧ pkt_addr p ≤ a < pkt_addr p + pkt_size p)
        then data !!! Z.to_nat (a - pkt_addr p) else byte_at m g a
}.

(** ** The mapper and physical memory implement it *)

(** [recvAtomic] of the mapper with [SimpleMemory::recvAtomic] behind it. *)
Definition mapped_atomic (latency : Z) (st : AddrMapper * AbstractMemory) (p : Packet)
  : result (AddrMapper * AbstractMemory * Packet * Z) :=
  '(am, mem, t, q) ← recvAtomic st.1 (simple_recvAtomic latency) st.2 p;
  Ok ((am, mem), q, t).

Lemma setData_flags p mem off p' : setData p mem off = Ok p' → pkt_flags p' = pkt_flags p.
Proof. unfold setData. intros H. inv_ok. case_decide; by simplify_eq/=. Qed.

Lemma writeOK_flags l p l' p' ok woken : writeOK l p = (l', p', ok, woken) → pkt_flags p' = pkt_flags p.
Proof.
  unfold writeOK, checkLockedAddrList. destruct l; [intros [= _ <- _ _]; by destruct (pkt_isLLSC p)|].
  set (e := erase_records _ _). destruct (pkt_isLLSC p); [set (f := find_record _ _ _); destruct f|]; destruct e; by intros [= _ <- _ _].
Qed.

Lemma mem_serve_flags m p m' p' woken : mem_serve m p = Ok (m', p', woken) → pkt_flags p' = pkt_flags p.
Proof.
  intros H. unfold mem_serve in H. inv_ok. case_decide; [|destruct (pkt_isRead p); [|destruct (pkt_isWrite p)]].
  - inv_ok. unfold mem_swap in *. inv_ok. by eapply setData_flags.
  - inv_ok. by eapply setData_flags.
  - destruct (writeOK (mem_locked m) p) as [[[l p1] ok] wk] eqn:Hw. apply writeOK_flags in Hw. by destruct ok; inv_ok.
  - by destruct (pkt_isInvalidate p); inv_ok.
Qed.

#[export] Instance simple_keeps_valid latency : KeepsValid (simple_recvAtomic latency).
Proof.
  intros m p m' t q Hp H. unfold simple_recvAtomic in H. inv_ok. unfold mem_access in E. inv_ok.
  destruct (memInhibitAsserted p); inv_ok; [by inv_ok|].
  destruct a as [[m1 q1'] w1], a2 as [[m2 q1] w2]. inv_ok. apply mem_serve_flags in E3 as Hf.
  assert (pkt_wf q1) as Hp0 by (by eapply pkt_wf_flags; [symmetry; exact Hf|]).
  destruct (pkt_needsResponse q1); inv_ok; [|done]. unfold makeResponse in *. inv_ok.
  destruct Hp0 as (F1 & F2 & F3). unfold pkt_wf. cbn -[flag_isSet Z.ldiff]. by rewrite !flag_isSet_ldiff.
Qed.

Section Mapped.

Context (am : AddrMapper) (start line n masters latency : Z).
Hypothesis Hline : 0 < line.
Hypothesis Hwf : tlb_wf (am_tlb am).
Hypothesis Hal : line_aligned line (am_tlb am).
Hypothesis Hmem : 0 ≤ start ∧ start + n ≤ 2 ^ 64.

Record memory_ok (mem : AbstractMemory) : Prop := {
  so_start : mem_start mem = start;
  so_full : full_memory n (mem_data mem);
  so_masters : Forall (λ v : list Z, Z.of_nat (length v) = masters)
    [mem_bytesRead mem; mem_bytesInstRead mem; mem_bytesWritten mem; mem_numReads mem; mem_numWrites mem; mem_numOther mem]
}.
Record system_ok (st : AddrMapper * AbstractMemory) : Prop := {
  so_tlb : am_tlb st.1 = am_tlb am;
  so_stats : length (am_bytesRead st.1) = 4%nat ∧ length (am_bytesWritten st.1) = 4%nat;
  so_memory : memory_ok st.2
}.
Definition system_byte (st : AddrMapper * AbstractMemory) (d a : Z) : Z := domain_byte am start (mem_data st.2) d a.

(** Requests of a known master and domain that no cache has answered. *)
Record plain_request (p : Packet) : Prop := {
  pr_inhibit : memInhibitAsserted p = false;
  pr_master : 0 ≤ req_masterId (pkt_req p) < masters;
  pr_guest : guest_of p < 4;
  pr_fetch : req_isInstFetch (pkt_req p) = false
}.

(** [access] on a translated request, up to the statistics. *)
Lemma serve_prefix mem p data :
  memory_ok mem → func_request line (domain_reach am start n) p data → memInhibitAsserted p = false →
  mem_access mem (translated am p) =
    ('(m, q, woken) ← mem_serve mem (translated am p);
     if pkt_needsResponse q then q ← makeResponse q; Ok (m, q, woken) else Ok (m, q, woken)).
Proof using Hline Hwf Hal Hmem.
  intros S R Hi. unfold mem_access. pose proof (so_full _ S) as Hf. pose proof (so_start _ S) as Hs. rewrite Hs.
  change (memInhibitAsserted (translated am p)) with (memInhibitAsserted p). rewrite Hi.
  pose proof (access_prefix am start line n Hline Hwf Hal Hmem (mem_data mem) p data
    (λ _ _, '(m, q, woken) ← mem_serve mem (translated am p);
     if pkt_needsResponse q then q ← makeResponse q; Ok (m, q, woken) else Ok (m, q, woken)) Hf R) as H.
  exact H.
Qed.

(** The way back of a served request. *)
Lemma served_response q : pkt_wf q → pkt_cmd q = ReadReq ∨ pkt_cmd q = WriteReq →
  ∃ r, (if pkt_needsResponse q then makeResponse q else Ok q) = Ok r ∧ responded q r ∧ pkt_data r = pkt_data q ∧
    pkt_wf r ∧ memInhibitAsserted r = memInhibitAsserted q.
Proof using.
  clear. intros W Hc. destruct (served_back q W Hc) as (r & Hr & Hd & Hw). exists r.
  assert (pkt_needsResponse q = true) as -> by (unfold pkt_needsResponse; destruct Hc as [-> | ->]; done).
  split; [done|]. unfold makeResponse in Hr. inv_ok.
  split; [split; [unfold pkt_isResponse; cbn; destruct Hc as [-> | ->]; done|done]|]. split; [done|]. split; [done|].
  unfold memInhibitAsserted. cbn -[flag_isSet Z.ldiff]. by rewrite flag_isSet_ldiff.
Qed.

(** Reading and writing through [access]. *)
Lemma serve_read mem p data :
  memory_ok mem → plain_request p → pkt_cmd p = ReadReq → func_request line (domain_reach am start n) p data →
  ∃ mem', mem_serve mem (translated am p) =
      Ok (mem', (translated am p) <| pkt_data := Some (domain_byte am start (mem_data mem) (guest_of p) <$> addr_range (pkt_addr p) (length data)) |>, []) ∧
    mem_data mem' = mem_data mem ∧ memory_ok mem'.
Proof using Hline Hwf Hal Hmem.
  intros S [P1 P2 P3 P4] Hc R. pose proof (translated_setData am start line n Hline Hwf Hal Hmem (mem_data mem) p data (so_full _ S) R) as Hd.
  destruct S as [S3 S4 S5]. unfold mem_serve.
  rewrite getAddr_wf, getSize_wf by apply R. cbn [mbind result_bind]. rewrite decide_False by (change (pkt_cmd (translated am p)) with (pkt_cmd p); by rewrite Hc).
  assert (pkt_isRead (translated am p) = true ∧ pkt_isWrite (translated am p) = false ∧ pkt_isLLSC (translated am p) = false) as (-> & -> & ->)
    by (unfold pkt_isRead, pkt_isWrite, pkt_isLLSC; cbn; by rewrite Hc).
  cbn [negb assertb mbind result_bind]. change (pkt_addr (translated am p)) with (tlb_remapAddr (am_tlb am) (guest_of p) (pkt_addr p)).
  rewrite S3, Hd. cbn [mbind result_bind]. rewrite !Forall_cons in S5. destruct S5 as (T1 & T2 & T3 & T4 & T5 & T6 & _).
  destruct (stat_add_ok (mem_numReads mem) (req_masterId (pkt_req p)) 1) as (v1 & E1 & L1); [lia|].
  destruct (stat_add_ok (mem_bytesRead mem) (req_masterId (pkt_req p)) (pkt_size p)) as (v2 & E2 & L2); [lia|].
  change (req_masterId (pkt_req (translated am p))) with (req_masterId (pkt_req p)).
  change (pkt_size (translated am p)) with (pkt_size p). rewrite E1, E2. cbn [mbind result_bind].
  match goal with |- context [req_isInstFetch ?q] => change q with (pkt_req p) end. rewrite P4. cbn [mbind result_bind].
  eexists. split; [done|]. split; [done|]. split; cbn; try done. repeat constructor; congruence.
Qed.

Lemma serve_write mem p data :
  memory_ok mem → plain_request p → pkt_cmd p = WriteReq → func_request line (domain_reach am start n) p data →
  ∃ mem' woken, mem_serve mem (translated am p) = Ok (mem', translated am p, woken) ∧ memory_ok mem' ∧
    ∀ d a, domain_reach am start n d a → domain_byte am start (mem_data mem') d a =
      if decide (d = guest_of p ∧ pkt_addr p ≤ a < pkt_addr p + pkt_size p)
      then data !!! Z.to_nat (a - pkt_addr p) else domain_byte am start (mem_data mem) d a.
Proof using Hline Hwf Hal Hmem.
  intros S [P1 P2 P3 P4] Hc R.
  destruct (translated_writeData am start line n Hline Hwf Hal Hmem (mem_data mem) p data (so_full _ S) R) as (pmem' & Hd & Hf & Hb).
  destruct S as [S3 S4 S5]. unfold mem_serve.
  rewrite getAddr_wf, getSize_wf by apply R. cbn [mbind result_bind]. rewrite decide_False by (change (pkt_cmd (translated am p)) with (pkt_cmd p); by rewrite Hc).
  assert (pkt_isRead (translated am p) = false ∧ pkt_isWrite (translated am p) = true ∧ pkt_isLLSC (translated am p) = false) as (-> & -> & HL)
    by (unfold pkt_isRead, pkt_isWrite, pkt_isLLSC; cbn; by rewrite Hc).
  assert (∃ l' woken, writeOK (mem_locked mem) (translated am p) = (l', translated am p, true, woken)) as (l' & woken & ->).
  { unfold writeOK, checkLockedAddrList. rewrite HL. destruct (mem_locked mem); [by eexists _, _|].
    set (e := erase_records _ _). destruct e. by eexists _, _. }
  change (pkt_addr (translated am p)) with (tlb_remapAddr (am_tlb am) (guest_of p) (pkt_addr p)).
  change (mem_data (mem <| mem_locked := l' |>)) with (mem_data mem). rewrite S3, Hd. cbn [mbind result_bind].
  rewrite !Forall_cons in S5. destruct S5 as (T1 & T2 & T3 & T4 & T5 & T6 & _).
  destruct (stat_add_ok (mem_numWrites mem) (req_masterId (pkt_req p)) 1) as (v1 & E1 & L1); [lia|].
  destruct (stat_add_ok (mem_bytesWritten mem) (req_masterId (pkt_req p)) (pkt_size p)) as (v2 & E2 & L2); [lia|].
  change (req_masterId (pkt_req (translated am p))) with (req_masterId (pkt_req p)).
  change (pkt_size (translated am p)) with (pkt_size p). change (pkt_req (translated am p)) with (pkt_req p). rewrite P4. cbn [negb assertb mbind result_bind].
  change (mem_numWrites (mem <| mem_locked := l' |>)) with (mem_numWrites mem).
  change (mem_bytesWritten (mem <| mem_locked := l' |>)) with (mem_bytesWritten mem). rewrite E1, E2. cbn [mbind result_bind].
  eexists _, woken. split; [done|]. split; [|exact Hb]. split; cbn; try done. repeat constructor; congruence.
Qed.

(** A served request on its way back through the mapper. *)
Lemma mapped_atomic_back st p mem' q woken :
  system_ok st → plain_request p → (∃ data, func_request line (domain_reach am start n) p data) →
  pkt_cmd p = ReadReq ∨ pkt_cmd p = WriteReq →
  mem_serve st.2 (translated am p) = Ok (mem', q, woken) → pkt_cmd q = pkt_cmd p → pkt_req q = pkt_req p →
  pkt_senderState q = pkt_senderState p → memory_ok mem' →
  ∃ st' r lat, mapped_atomic latency st p = Ok (st', r, lat) ∧ st'.2 = mem' ∧ system_ok st' ∧ responded p r ∧ pkt_data r = pkt_data q.
Proof using Hline Hwf Hal Hmem.
  intros S P [data R] Hc Hs Q1 Q2 Q3 S'. destruct st as [am0 mem]. pose proof S as [U1 U2 Sm]. cbn in U1, U2, Sm, Hs.
  destruct (recvAtomic_transparent am0 (simple_recvAtomic latency) mem p) as (am1 & A1 & A2 & A3 & A4); [apply R|apply P|apply U2..|].
  unfold mapped_atomic. cbn [fst snd]. rewrite A4, U1. fold (translated am p). unfold simple_recvAtomic.
  rewrite (serve_prefix mem p data Sm R) by apply P. rewrite Hs. cbn [mbind result_bind].
  assert (pkt_wf q) as Wq by (eapply pkt_wf_flags; [symmetry; eapply mem_serve_flags, Hs|apply R]).
  destruct (served_response q Wq) as (r & Hr & (G1 & G2 & G3) & G4 & G5 & G6); [by rewrite Q1|].
  destruct (pkt_needsResponse q); [|injection Hr as <-]; [rewrite Hr|]; cbn [mbind result_bind]; eexists _, _, _;
    (split; [reflexivity|]); (split; [done|]); (split; [|split; [split; [done|cbn; split; congruence]|done]]);
    (split; [cbn; congruence|done|done]).
Qed.

#[export] Instance mapped_atomic_memory :
  AtomicMemory line (mapped_atomic latency) system_byte (domain_reach am start n) system_ok plain_request.
Proof using Hline Hwf Hal Hmem.
  split; intros st p data S P Hc R.
  - destruct (serve_read st.2 p data (so_memory _ S) P Hc R) as (mem' & Hs & Hd & Sm).
    destruct (mapped_atomic_back st p mem' _ _ S P (ex_intro _ data R) (or_introl Hc) Hs) as (st' & r & lat & H1 & <- & H2 & H3 & H4); try done.
    exists st', r, lat. split; [done|]. split; [done|]. split; [done|]. split; [|done]. intros g a _. unfold system_byte. by rewrite Hd.
  - destruct (serve_write st.2 p data (so_memory _ S) P Hc R) as (mem' & woken & Hs & Sm & Hb).
    destruct (mapped_atomic_back st p mem' _ _ S P (ex_intro _ data R) (or_intror Hc) Hs) as (st' & r & lat & H1 & <- & H2 & H3 & H4); try done.
    exists st', r, lat. split; [done|]. split; [done|]. split; [done|]. split; [rewrite H4; apply R|done].
Qed.

End Mapped.

(** ** Transfers over such a memory *)

Lemma place_elem line a off sizes c :
  aligned_run line a sizes → c ∈ place a off sizes →
  0 < c.1.2 ∧ c.1.1 mod line + c.1.2 ≤ line ∧ a ≤ c.1.1 ∧ c.1.1 + c.1.2 ≤ a + Z.of_nat (sum_list_with Z.to_nat sizes) ∧
  c.2 = off + (c.1.1 - a).
Proof.
  revert a off. induction sizes as [|n sizes IH]; intros a off Hal Hc; cbn [place] in Hc; [by apply elem_of_nil in Hc|].
  destruct Hal as (Hn & Hl & Hal). cbn [sum_list_with]. apply elem_of_cons in Hc as [->|Hc]; cbn [fst snd]; [lia|].
  destruct (IH (a + n) (off + n) Hal Hc) as (H1 & H2 & H3 & H4 & H5). lia.
Qed.

Section Transfers.

Context {M : Type} (line : Z) (sendAtomic : M → Packet → result (M * Packet * Z)) (byte_at : M → Z → Z → Z)
  (reach : Z → Z → Prop) (ok : M → Prop) (accepts : Packet → Prop)
  `{!AtomicMemory line sendAtomic byte_at reach ok accepts}.
Context (guestID : Z).

Let g := QOSTAG_TO_GUESTID guestID.

(** A chunk of an action is a request of the domain. *)
Lemma chunk_request cmd buf id c p :
  chunk_packet cmd guestID (Some buf) id c p → 0 < c.1.2 → c.1.1 mod line + c.1.2 ≤ line → 0 ≤ c.1.1 → c.1.1 + c.1.2 ≤ 2 ^ 64 →
  0 ≤ c.2 → c.2 + c.1.2 ≤ Z.of_nat (length buf) → (∀ x, c.1.1 ≤ x < c.1.1 + c.1.2 → reach g x) →
  guest_of p = g ∧ func_request line reach p (slice buf (Z.to_nat c.2) (Z.to_nat c.1.2)).
Proof using.
  clear. intros [C1 C2 C3 C4 C5 C6 C7 C8 C9 C10 C11] Hn Hl Ha He Ho Hd Hr.
  assert (guest_of p = g) as Hg by (unfold guest_of; by rewrite C5). split; [done|].
  split; rewrite ?C2, ?C3, ?Hg; try done. rewrite length_slice; lia.
Qed.

(** A run of chunks written, and read, one after the other. *)
Lemma write_run id a off sizes m buf pk :
  ok m → aligned_run line a sizes → 0 ≤ a → 0 ≤ off → let total := sum_list_with Z.to_nat sizes in
  a + Z.of_nat total ≤ 2 ^ 64 → (Z.to_nat off + total ≤ length buf)%nat → (∀ x, a ≤ x < a + Z.of_nat total → reach g x) →
  Forall2 (chunk_packet WriteReq guestID (Some buf) id) (place a off sizes) pk → Forall accepts pk →
  ∃ m' ps, send_all sendAtomic m pk = Ok (m', ps) ∧ ok m' ∧ served_buffer buf (Z.to_nat off) ps = buf ∧
    ∀ d x, reach d x → byte_at m' d x =
      if decide (d = g ∧ a ≤ x < a + Z.of_nat total) then buf !!! (Z.to_nat off + Z.to_nat (x - a))%nat else byte_at m d x.
Proof using AtomicMemory0.
  revert a off m pk. induction sizes as [|n sizes IH]; intros a off m pk Hok Hal Ha Ho total He Hd Hr HF Hac; cbn [place] in HF.
  { apply Forall2_nil_inv_l in HF as ->. exists m, []. repeat (split; [done|]). intros d x _. rewrite decide_False; [done|]. cbn in total. lia. }
  subst total. cbn [sum_list_with] in *. set (rest := sum_list_with Z.to_nat sizes) in *. destruct Hal as (Hn & Hl & Hal).
  apply Forall2_cons_inv_l in HF as (p & pk' & Hp & HF & ->). apply Forall_cons in Hac as [Hac Hac'].
  destruct (chunk_request WriteReq buf id (a, n, off) p Hp) as [Hg R]; cbn [fst snd] in *; try lia; [intros x Hx; apply Hr; lia|].
  destruct (atm_write m p _ Hok Hac (cp_cmd _ _ _ _ _ _ Hp) R) as (m1 & r & lat & Hs & Hok1 & _ & Hd1 & Hb1).
  cbn [send_all]. rewrite Hs. cbn [mbind result_bind].
  destruct (IH (a + n) (off + n) m1 pk') as (m' & ps & -> & Hok' & Hsb & Hb); [done|done|lia|lia|lia|lia| |done|done|].
  { intros x Hx. apply Hr. lia. }
  cbn [mbind result_bind]. exists m', (r :: ps). split; [done|]. split; [done|]. rewrite (served_buffer_cons _ _ _ _ _ Hd1).
  rewrite splice_slice, length_slice by lia. split; [by replace (Z.to_nat off + Z.to_nat n)%nat with (Z.to_nat (off + n)) by lia|].
  intros d x Hdx. rewrite Hb, Hb1 by done. rewrite Hg, (cp_addr _ _ _ _ _ _ Hp), (cp_size _ _ _ _ _ _ Hp). cbn [fst snd].
  destruct (decide (d = g ∧ a + n ≤ x < a + n + Z.of_nat rest)) as [[-> Hx]|Hx].
  - rewrite decide_True by lia. f_equal. lia.
  - destruct (decide (d = g ∧ a ≤ x < a + n)) as [[-> Hx']|Hx'].
    + rewrite decide_True by lia. unfold slice. by rewrite lookup_total_take_lt, lookup_total_drop by lia.
    + rewrite decide_False; [done|]. intros [-> Hx'']. apply Hx. split; [done|]. lia.
Qed.

Lemma read_run id a off sizes m buf buf' pk :
  ok m → aligned_run line a sizes → 0 ≤ a → 0 ≤ off → let total := sum_list_with Z.to_nat sizes in
  a + Z.of_nat total ≤ 2 ^ 64 → (Z.to_nat off + total ≤ length buf)%nat → length buf' = length buf →
  (∀ x, a ≤ x < a + Z.of_nat total → reach g x) →
  Forall2 (chunk_packet ReadReq guestID (Some buf) id) (place a off sizes) pk → Forall accepts pk →
  ∃ m' ps, send_all sendAtomic m pk = Ok (m', ps) ∧ ok m' ∧
    served_buffer buf' (Z.to_nat off) ps = splice buf' (Z.to_nat off) (byte_at m g <$> addr_range a total) ∧
    ∀ d x, reach d x → byte_at m' d x = byte_at m d x.
Proof using AtomicMemory0.
  revert a off m pk buf'. induction sizes as [|n sizes IH]; intros a off m pk buf' Hok Hal Ha Ho total He Hd Hb' Hr HF Hac; cbn [place] in HF.
  { apply Forall2_nil_inv_l in HF as ->. exists m, []. split; [done|]. split; [done|]. split; [|done].
    cbn. unfold splice. cbn. by rewrite Nat.add_0_r, take_drop. }
  subst total. cbn [sum_list_with] in *. set (rest := sum_list_with Z.to_nat sizes) in *. destruct Hal as (Hn & Hl & Hal).
  apply Forall2_cons_inv_l in HF as (p & pk' & Hp & HF & ->). apply Forall_cons in Hac as [Hac Hac'].
  destruct (chunk_request ReadReq buf id (a, n, off) p Hp) as [Hg R]; cbn [fst snd] in *; try lia; [intros x Hx; apply Hr; lia|].
  destruct (atm_read m p _ Hok Hac (cp_cmd _ _ _ _ _ _ Hp) R) as (m1 & r & lat & Hs & Hok1 & _ & Hb1 & Hd1).
  rewrite length_slice in Hd1 by lia. rewrite Hg, (cp_addr _ _ _ _ _ _ Hp) in Hd1. cbn [fst snd] in Hd1.
  cbn [send_all]. rewrite Hs. cbn [mbind result_bind].
  set (bytes := byte_at m g <$> addr_range a (Z.to_nat n)) in *. assert (length bytes = Z.to_nat n) as Hlb by (subst bytes; by rewrite length_fmap, length_addr_range).
  destruct (IH (a + n) (off + n) m1 pk' (splice buf' (Z.to_nat off) bytes)) as (m' & ps & -> & Hok' & Hsb & Hb); [done|done|lia|lia|lia|lia| | |done|done|].
  { rewrite length_splice; lia. }
  { intros x Hx. apply Hr. lia. }
  cbn [mbind result_bind]. exists m', (r :: ps). split; [done|]. split; [done|]. split; [|intros d x Hx; rewrite Hb by done; by apply Hb1].
  rewrite (served_buffer_cons _ _ _ _ _ Hd1), Hlb.
  replace (Z.to_nat off + Z.to_nat n)%nat with (Z.to_nat (off + n)) by lia. rewrite Hsb.
  replace (Z.to_nat (off + n)) with (Z.to_nat off + length bytes)%nat by lia.
  assert (byte_at m1 g <$> addr_range (a + n) rest = byte_at m g <$> addr_range (a + n) rest) as ->.
  { apply list_fmap_ext. intros i x Hx. apply list_elem_of_lookup_2, elem_of_addr_range in Hx. apply Hb1, Hr. lia. }
  rewrite splice_app by (rewrite length_fmap, length_addr_range; lia). f_equal. subst bytes.
  rewrite addr_range_add, fmap_app, Z2Nat.id by lia. done.
Qed.

(** A device that works for the domain: its port is idle, and the memory
    accepts its requests. *)
Record idle_device (ev : DmaEnv) (d : DmaPort) : Prop := {
  id_inv : dma_inv d [];
  id_idle : dp_transmitList d = [];
  id_line : de_lineSize ev = line;
  id_accepts : ∀ p, memInhibitAsserted p = false → made_by (dp_masterId d) 0 p → guest_of p = g → accepts p
}.
Definition dma_region (ev : DmaEnv) (d : DmaPort) (addr size : Z) (buf : list Z) : Prop :=
  action_ok ev d addr size (Some buf) ∧ ∀ x, addr ≤ x < addr + size → reach g x.

(** The packets of an action are accepted requests. *)
Lemma action_request cmd ev d addr size buf c p :
  idle_device ev d → dma_region ev d addr size buf → c ∈ chunks addr size line →
  chunk_packet cmd guestID (Some buf) (length (dp_states d)) c p → made_by (dp_masterId d) 0 p →
  accepts p ∧ func_request line reach p (slice buf (Z.to_nat c.2) (Z.to_nat c.1.2)).
Proof using.
  intros [I1 I2 I3 I4] [[[Hpow Hl] Hs [Ha He] Hd Hp] Hr] Hc Hcp Hm. rewrite I3 in *. specialize (Hd buf eq_refl). unfold in_width in Ha.
  destruct (chunk_sizes_run addr size line) as [Hsum Hal]; [lia|lia|].
  destruct (place_elem line addr 0 _ c Hal Hc) as (P1 & P2 & P3 & P4 & P5). rewrite Hsum in P4.
  destruct (chunk_request cmd buf (length (dp_states d)) c p Hcp) as [Hg R]; try lia; [intros x Hx; apply Hr; lia|].
  split; [|done]. apply I4; [apply Hcp|done|done].
Qed.

Lemma accepted_all cmd ev d addr size buf pk :
  idle_device ev d → dma_region ev d addr size buf →
  Forall2 (chunk_packet cmd guestID (Some buf) (length (dp_states d))) (chunks addr size line) pk →
  Forall (made_by (dp_masterId d) 0) pk → Forall accepts pk.
Proof using.
  intros I Hreg HF HM. apply Forall_lookup. intros i p Hp. destruct (Forall2_lookup_r _ _ _ _ _ HF Hp) as (c & Hc & C).
  eapply (action_request cmd ev d addr size buf c p); try done; [by eapply list_elem_of_lookup_2|by eapply Forall_lookup_1].
Qed.

(** [dmaWrite] and [dmaRead] without cipher. *)
Lemma dmaWrite_atomic_spec ev d m addr size event buf delay :
  idle_device ev d → dma_region ev d addr size buf → ok m →
  (∀ e, event = Some e → e ∉ (dp_scheduled d).*1 ++ live_events (dp_states d)) →
  ∃ d' m', dmaWrite_atomic sendAtomic ev d m addr size guestID false event buf delay = Ok (d', m', buf) ∧
    ok m' ∧ dma_inv d' [] ∧ dp_transmitList d' = [] ∧
    ∀ x y, reach x y → byte_at m' x y =
      if decide (x = g ∧ addr ≤ y < addr + size) then buf !!! Z.to_nat (y - addr) else byte_at m x y.
Proof using AtomicMemory0.
  intros I Hreg Hok He. pose proof I as [I1 I2 I3 I4]. pose proof Hreg as [Hact Hr].
  destruct (atomic_action_spec sendAtomic ok ev d m WriteReq addr size guestID event (Some buf) delay 0)
    as (d' & m' & pk & ps & lat & H1 & H2 & H3 & HF & HM & H4 & H5 & _); try done.
  - intros m0 p c Hm Hc Hcp Hmd. rewrite I3 in Hc. destruct (action_request WriteReq ev d addr size buf c p) as [Hac R]; try done.
    destruct (atm_write m0 p _ Hm Hac (cp_cmd _ _ _ _ _ _ Hcp) R) as (m1 & r & lat & X1 & X2 & X3 & _). by exists m1, r, lat.
  - rewrite I3 in HF. pose proof (accepted_all WriteReq ev d addr size buf pk I Hreg HF HM) as Hac.
    destruct Hact as [[Hpow Hl] Hs [Ha Hend] Hd _]. rewrite I3 in *. specialize (Hd buf eq_refl).
    destruct (chunk_sizes_run addr size line) as [Hsum Hal]; [lia|lia|].
    destruct (write_run (length (dp_states d)) addr 0 (chunk_sizes addr size line) m buf pk) as (m2 & ps2 & X1 & _ & X2 & X3); try done;
      [unfold in_width in Ha; lia|lia|cbn; lia|intros x Hx; apply Hr; lia|].
    rewrite H3 in X1. injection X1 as <- <-. exists d', m'. unfold dmaWrite_atomic. cbn [mbind result_bind]. rewrite H1. cbn [mbind result_bind].
    change (Z.to_nat 0) with 0%nat in X2. rewrite X2. repeat (split; [done|]). intros x y Hxy. rewrite X3 by done. rewrite Hsum, Z2Nat.id by lia. done.
Qed.

Lemma dmaRead_atomic_spec ev d m addr size event buf delay :
  idle_device ev d → dma_region ev d addr size buf → ok m →
  (∀ e, event = Some e → e ∉ (dp_scheduled d).*1 ++ live_events (dp_states d)) →
  ∃ d' m', dmaRead_atomic sendAtomic ev d m addr size guestID false event buf delay =
      Ok (d', m', splice buf 0 (byte_at m g <$> addr_range addr (Z.to_nat size))) ∧
    ok m' ∧ dma_inv d' [] ∧ dp_transmitList d' = [] ∧ ∀ x y, reach x y → byte_at m' x y = byte_at m x y.
Proof using AtomicMemory0.
  intros I Hreg Hok He. pose proof I as [I1 I2 I3 I4]. pose proof Hreg as [Hact Hr].
  destruct (atomic_action_spec sendAtomic ok ev d m ReadReq addr size guestID event (Some buf) delay 0)
    as (d' & m' & pk & ps & lat & H1 & H2 & H3 & HF & HM & H4 & H5 & _); try done.
  - intros m0 p c Hm Hc Hcp Hmd. rewrite I3 in Hc. destruct (action_request ReadReq ev d addr size buf c p) as [Hac R]; try done.
    destruct (atm_read m0 p _ Hm Hac (cp_cmd _ _ _ _ _ _ Hcp) R) as (m1 & r & lat & X1 & X2 & X3 & _). by exists m1, r, lat.
  - rewrite I3 in HF. pose proof (accepted_all ReadReq ev d addr size buf pk I Hreg HF HM) as Hac.
    destruct Hact as [[Hpow Hl] Hs [Ha Hend] Hd _]. rewrite I3 in *. specialize (Hd buf eq_refl).
    destruct (chunk_sizes_run addr size line) as [Hsum Hal]; [lia|lia|].
    destruct (read_run (length (dp_states d)) addr 0 (chunk_sizes addr size line) m buf buf pk) as (m2 & ps2 & X1 & _ & X2 & X3); try done;
      [unfold in_width in Ha; lia|lia|cbn; lia|intros x Hx; apply Hr; lia|].
    rewrite H3 in X1. injection X1 as <- <-. exists d', m'. unfold dmaRead_atomic. cbn [mbind result_bind]. rewrite H1. cbn [mbind result_bind].
    change (Z.to_nat 0) with 0%nat in X2. rewrite X2, Hsum. done.
Qed.

End Transfers.

(** ** Reservations behind the mapper

    The records of [LockedAddr] hold the address of the request object, which
    the mapper does not translate: a store of any domain ends the reservations
    of all contexts at its guest address, whatever machine address they use. *)
Lemma reservation_crosses_domains am start line n masters latency st p data ctx :
  0 < line → tlb_wf (am_tlb am) → line_aligned line (am_tlb am) → 0 ≤ start ∧ start + n ≤ 2 ^ 64 →
  system_ok am start n masters st → locked_wf (mem_locked st.2) → plain_request masters p →
  pkt_cmd p = WriteReq → func_request line (domain_reach am start n) p data →
  reservations (mem_locked st.2) !! ctx = Some (line_of p) →
  ∃ st' r lat, mapped_atomic latency st p = Ok (st', r, lat) ∧ reservations (mem_locked st'.2) !! ctx = None.
Proof.
  intros Hl Hwf Hal Hmem S W P Hc R Hres.
  destruct (serve_write am start line n masters Hl Hwf Hal Hmem st.2 p data (so_memory _ _ _ _ _ S) P Hc R) as (mem' & woken & Hs & Sm & _).
  destruct (mapped_atomic_back am start line n masters latency Hl Hwf Hal Hmem st p mem' _ _ S P (ex_intro _ data R) (or_intror Hc) Hs)
    as (st' & r & lat & H1 & <- & _); try done.
  exists st', r, lat. split; [done|].
  assert (mem_locked st'.2 = (lock_step (mem_locked st.2) (translated am p)).1) as ->.
  { eapply mem_serve_locks, Hs. change (memInhibitAsserted (translated am p)) with (memInhibitAsserted p). apply P. }
  unfold lock_step, pkt_isRead, pkt_isWrite. change (memInhibitAsserted (translated am p)) with (memInhibitAsserted p). rewrite (pr_inhibit _ _ P).
  change (pkt_cmd (translated am p)) with (pkt_cmd p). rewrite Hc. rewrite bool_decide_eq_false_2 by done. cbn [orb testCmdAttrib].
  destruct (writeOK (mem_locked st.2) (translated am p)) as [[[l' p'] ok] wk] eqn:Hw.
  destruct (writeOK_refines _ _ _ _ _ _ W Hw) as (_ & Hx & _). unfold pkt_isLLSC in Hx.
  change (pkt_cmd (translated am p)) with (pkt_cmd p) in Hx. rewrite Hc in Hx. destruct Hx as (_ & _ & Hx).
  change (reservations l' !! ctx = None). rewrite Hx. unfold spec_store. apply map_lookup_filter_None. right.
  intros x Hx'. rewrite Hres in Hx'. injection Hx' as <-. intros Hn. by apply Hn.
Qed.

(** ** Properties *)

(** C3: DMA reaches the memory of its own domain and no other.  Through the
    address mapper, with disjoint machine memory per domain, a device that
    writes a buffer for a domain leaves every byte of every other domain and
    every other byte of the domain as it was, and a device that then reads the
    region for that domain gets exactly the bytes written. *)
Theorem dma_domain_isolated (am : AddrMapper) (start line n masters latency : Z) (st : AddrMapper * AbstractMemory)
    (guestID : Z) (ev : DmaEnv) (d d2 : DmaPort) (addr size delay : Z) (data buf : list Z) :
  tlb_wf (am_tlb am) → line_aligned line (am_tlb am) → 0 ≤ start ∧ start + n ≤ 2 ^ 64 →
  system_ok am start n masters st → de_lineSize ev = line → QOSTAG_TO_GUESTID guestID < 4 →
  dma_inv d [] ∧ dp_transmitList d = [] ∧ 0 ≤ dp_masterId d < masters →
  dma_inv d2 [] ∧ dp_transmitList d2 = [] ∧ 0 ≤ dp_masterId d2 < masters →
  action_ok ev d addr size (Some data) → action_ok ev d2 addr size (Some buf) →
  size = Z.of_nat (length data) → length buf = length data →
  (∀ x, addr ≤ x < addr + size → domain_reach am start n (QOSTAG_TO_GUESTID guestID) x) →
  ∃ d' st1 d2' st2,
    dmaWrite_atomic (mapped_atomic latency) ev d st addr size guestID false None data delay = Ok (d', st1, data) ∧
    dmaRead_atomic (mapped_atomic latency) ev d2 st1 addr size guestID false None buf delay = Ok (d2', st2, data) ∧
    ∀ g a, domain_reach am start n g a → g ≠ QOSTAG_TO_GUESTID guestID ∨ ¬ addr ≤ a < addr + size →
      system_byte am start st1 g a = system_byte am start st g a ∧ system_byte am start st2 g a = system_byte am start st g a.
Proof.
  intros Hwf Hal Hmem S Hline Hg (I1 & I2 & I3) (J1 & J2 & J3) Hok Hok2 Hsz Hlen Hr.
  assert (0 < line) as Hl by (destruct (ao_line _ _ _ _ _ Hok); lia).
  pose proof (mapped_atomic_memory am start line n masters latency Hl Hwf Hal Hmem) as AM.
  assert (∀ d0, dma_inv d0 [] → dp_transmitList d0 = [] → 0 ≤ dp_masterId d0 < masters →
    idle_device line (plain_request masters) guestID ev d0) as Hidle.
  { intros d0 H1 H2 H3. split; try done. intros p P1 [P2 P3] P4. split; [done|by rewrite P2|by rewrite P4|].
    unfold req_isInstFetch. by rewrite P3. }
  destruct (dmaWrite_atomic_spec line (mapped_atomic latency) (system_byte am start) (domain_reach am start n) (system_ok am start n masters)
    (plain_request masters) guestID ev d st addr size None data delay) as (d' & st1 & W1 & W2 & _ & _ & W3); [by apply Hidle|done|done|done|].
  destruct (dmaRead_atomic_spec line (mapped_atomic latency) (system_byte am start) (domain_reach am start n) (system_ok am start n masters)
    (plain_request masters) guestID ev d2 st1 addr size None buf delay) as (d2' & st2 & R1 & R2 & _ & _ & R3); [by apply Hidle|done|done|done|].
  exists d', st1, d2', st2. split; [done|]. split.
  - rewrite R1. do 2 f_equal. rewrite splice_all by (rewrite length_fmap, length_addr_range; lia).
    rewrite Hsz, Nat2Z.id. eapply written_read; [|done]. intros x Hx. rewrite W3 by (apply Hr; lia). by rewrite decide_True by lia.
  - intros g a Ha Hne. rewrite (R3 g a Ha), (W3 g a Ha). by rewrite decide_False by lia.
Qed.

(** Two domains with 256 bytes each; a device writes 100 bytes for domain 1. *)
Definition demo_memory : AbstractMemory := mkMem 0 (replicate 512 0) [] [0] [0] [0] [0] [0] [0].
Lemma dma_domain_isolated_witness :
  ∃ d' st1 d2' st2,
    dmaWrite_atomic (mapped_atomic 5) demo_dma_env (DmaPort_make 0) (demo_halves, demo_memory) 30 100 1 false None (replicate 100 7) 0 =
      Ok (d', st1, replicate 100 7) ∧
    dmaRead_atomic (mapped_atomic 5) demo_dma_env (DmaPort_make 0) st1 30 100 1 false None (replicate 100 0) 0 = Ok (d2', st2, replicate 100 7) ∧
    system_byte demo_halves 0 st2 0 30 = 0.
Proof.
  assert (∀ buf, length buf = 100%nat → action_ok demo_dma_env (DmaPort_make 0) 30 100 (Some buf)) as Hok.
  { intros buf Hb. split; [by split|by vm_compute|by split|intros b [= <-]; rewrite Hb; by vm_compute|by vm_compute]. }
  destruct (dma_domain_isolated demo_halves 0 64 512 1 5 (demo_halves, demo_memory) 1 demo_dma_env (DmaPort_make 0) (DmaPort_make 0)
    30 100 0 (replicate 100 7) (replicate 100 0)) as (d' & st1 & d2' & st2 & H1 & H2 & H3).
  - apply demo_halves_wf.
  - by repeat constructor.
  - done.
  - split; [done|done|]. split; [done|done|]. by repeat constructor.
  - done.
  - done.
  - split; [apply DmaPort_make_inv|done].
  - split; [apply DmaPort_make_inv|done].
  - by apply Hok.
  - by apply Hok.
  - done.
  - done.
  - intros x Hx. apply demo_halves_reach; [by vm_compute; auto|lia].
  - exists d', st1, d2', st2. split; [exact H1|]. split; [exact H2|].
    destruct (H3 0 30) as [_ H4]; [apply demo_halves_reach; [left; reflexivity|lia]|left; vm_compute; discriminate|].
    etransitivity; [exact H4|]. vm_compute. reflexivity.
Defined.
