(* ===== verification/DomainWalk.v ===== *)
(** * Page walks over the memory of a domain

    The atomic walks of [PageWalker] in long mode over a memory with a byte
    per domain and address ([AtomicMemory] of [GuestDma]): the translation a
    walk computes is the one the tables in the domain's memory define
    ([long_mapping]), and the walk changes nothing but accessed bits. *)

From S2P Require Import Prelude BaseLib ChunkGen Trie X86Tlb X86Isa Packet PageWalker GuestAddr AddrMapper PhysMem PortProxy GuestMemory DmaPort DmaDevice GuestDma.
Local Open Scope Z_scope.

(** ** Entries up to the accessed bit *)

Definition sees (x y : Z) : Prop := ∀ i, 0 ≤ i < 64 → i ≠ 5 → Z.testbit x i = Z.testbit y i.

Lemma sees_refl x : sees x x.
Proof. done. Qed.
Lemma sees_sym x y : sees x y → sees y x.
Proof. intros H i Hi Hn. by rewrite H. Qed.
Lemma sees_trans x y z : sees x y → sees y z → sees x z.
Proof. intros H1 H2 i Hi Hn. by rewrite H1, H2. Qed.

Lemma sees_bits x y hi lo : sees x y → 5 < lo → lo ≤ hi < 64 → bits x hi lo = bits y hi lo.
Proof.
  intros H Hlo Hhi. apply Z.bits_inj'. intros i Hi. rewrite !bits_testbit by lia. case_bool_decide; [|done]. cbn. apply H; lia.
Qed.
Lemma sees_flag x y b : sees x y → 0 ≤ b < 64 → b ≠ 5 → flag x b = flag y b.
Proof.
  intros H Hb Hn. unfold flag. f_equal. f_equal. apply Z.bits_inj'. intros i Hi. rewrite !bits_testbit by lia.
  case_bool_decide; [|done]. cbn. apply H; lia.
Qed.
Lemma sees_land x y msk : sees x y → in_width 64 msk → Z.testbit msk 5 = false → Z.land x msk = Z.land y msk.
Proof.
  intros H Hw H5. apply Z.bits_inj'. intros i Hi. rewrite !Z.land_spec.
  destruct (decide (i = 5)) as [->|]; [by rewrite H5, !andb_false_r|].
  destruct (Z_lt_le_dec i 64); [by rewrite H by lia|]. by rewrite (testbit_high msk 64), !andb_false_r by (done || lia).
Qed.

(** The entry with the accessed bit set. *)
Lemma sees_accessed x : sees (set_flag x 5 1) x.
Proof. intros i Hi Hn. unfold set_flag. rewrite insertBits_testbit by lia. by rewrite bool_decide_eq_false_2 by lia. Qed.
Lemma sees_wrap x : sees (wrap 64 x) x.
Proof. intros i Hi Hn. rewrite wrap_land_ones by lia. autorewrite with zbit. rewrite bool_decide_eq_true_2 by lia. by rewrite andb_true_r. Qed.

(** ** The translation the tables define *)

Record mapping : Type := mkMapping {
  mp_frame : Z;
  mp_logBytes : Z;
  mp_writable : bool;
  mp_user : bool
}.

Section Reference.

Context (word : Z → Z) (fetch : bool).

(** An entry that leads on: present, and not a barrier to instruction fetch. *)
Definition passes (pte : Z) : bool := PTE_p pte && negb (fetch && PTE_nx pte).
Definition table_of (pte : Z) : Z := Z.land pte (Z.shiftl (Z.ones 40) 12).
Definition slot (table index : Z) : Z := table + index * 8.

(** The entries read for an address, up to the one that ends the walk. *)
Definition long_path (cr3 va : Z) : list Z :=
  let a4 := slot (table_of cr3) (bits va 47 39) in
  if negb (passes (word a4)) then [a4] else
  let a3 := slot (table_of (word a4)) (bits va 38 30) in
  if negb (passes (word a3)) then [a4; a3] else
  let a2 := slot (table_of (word a3)) (bits va 29 21) in
  if negb (passes (word a2)) || PTE_ps (word a2) then [a4; a3; a2] else
  [a4; a3; a2; slot (table_of (word a2)) (bits va 20 12)].

(** The page of an address: every entry on the way must be passed, and each
    may take away the right to write and the access from user mode. *)
Definition long_mapping (cr3 va : Z) : option mapping :=
  let path := word <$> long_path cr3 va in
  if forallb passes path then
    let large := (length path =? 3)%nat in
    let leaf := default 0 (last path) in
    Some (mkMapping (if large then Z.land leaf (Z.shiftl (Z.ones 31) 21) else table_of leaf) (if large then 21 else 12)
            (forallb PTE_w path) (forallb PTE_u path))
  else None.

End Reference.

(** ** The levels of long mode in terms of it *)

Lemma wrap_slot pte va hi lo :
  0 ≤ lo → hi = lo + 8 → hi < 64 → wrap 64 (table_base pte 40 + bits va hi lo * 8) = slot (table_of pte) (bits va hi lo).
Proof.
  intros Hlo -> Hhi. change (table_base pte 40) with (table_of pte). apply wrap_small. unfold slot.
  assert (in_width 52 (table_of pte)) as Ht.
  { apply in_width_bits; [lia|apply Z.land_nonneg; right; done|]. intros i Hi. unfold table_of. rewrite Z.land_spec.
    by rewrite (testbit_high (Z.shiftl (Z.ones 40) 12) 52), andb_false_r by (done || lia). }
  pose proof (bits_width va (lo + 8) lo ltac:(lia)) as Hb. replace (lo + 8 - lo + 1) with 9 in Hb by lia. unfold in_width in *. lia.
Qed.

Lemma bad_passes fetch pte : (PTE_nx pte && fetch) || negb (PTE_p pte) = negb (passes fetch pte).
Proof. unfold passes. by destruct (PTE_nx pte), fetch, (PTE_p pte). Qed.

Section Levels.

Context (fetch : bool) (e : TlbEntry) (pte : Z).
Let va : Z := te_vaddr e.

Lemma level_LongPML4 : level LongPML4 8 e pte (PTE_nx pte && fetch) =
  Ok (if passes fetch pte then ((set_perms e pte) <| te_noExec := PTE_nx pte |>, negb (PTE_a pte), NextTable (slot (table_of pte) (bits va 38 30)) LongPDP)
      else (set_perms e pte, negb (PTE_a pte), Faults (PTE_p pte))).
Proof. unfold level. cbv zeta. rewrite bad_passes. destruct (passes fetch pte); [|done]. cbn [negb]. unfold longl3. by rewrite wrap_slot by lia. Qed.

Lemma level_LongPDP : level LongPDP 8 e pte (PTE_nx pte && fetch) =
  Ok (and_perms e pte, negb (PTE_a pte), if passes fetch pte then NextTable (slot (table_of pte) (bits va 29 21)) LongPD else Faults (PTE_p pte)).
Proof. unfold level. cbv zeta. rewrite bad_passes. destruct (passes fetch pte); [|done]. cbn [negb]. unfold longl2. by rewrite wrap_slot by lia. Qed.

Lemma level_LongPD : level LongPD 8 e pte (PTE_nx pte && fetch) =
  Ok (if passes fetch pte then
        if PTE_ps pte then (map_page ((and_perms e pte) <| te_logBytes := 21 |>) pte (Z.land pte (Z.shiftl (Z.ones 31) 21)) 12 (2 ^ 21), negb (PTE_a pte), MapsPage)
        else ((and_perms e pte) <| te_logBytes := 12 |>, negb (PTE_a pte), NextTable (slot (table_of pte) (bits va 20 12)) LongPTE)
      else (and_perms e pte, negb (PTE_a pte), Faults (PTE_p pte))).
Proof.
  unfold level. cbv zeta. rewrite bad_passes. destruct (passes fetch pte); [|done]. cbn [negb]. destruct (PTE_ps pte); [done|].
  cbn [negb]. unfold longl1. by rewrite wrap_slot by lia.
Qed.

Lemma level_LongPTE : level LongPTE 8 e pte (PTE_nx pte && fetch) =
  Ok (if passes fetch pte then (map_page (and_perms e pte) pte (table_of pte) 12 (2 ^ 12), negb (PTE_a pte), MapsPage)
      else (and_perms e pte, negb (PTE_a pte), Faults (PTE_p pte))).
Proof. unfold level. cbv zeta. rewrite bad_passes. by destruct (passes fetch pte). Qed.

End Levels.

(** What the accessed bit does not touch. *)
Lemma sees_fields fetch x y : sees x y →
  passes fetch x = passes fetch y ∧ table_of x = table_of y ∧ PTE_ps x = PTE_ps y ∧ PTE_w x = PTE_w y ∧ PTE_u x = PTE_u y ∧
  Z.land x (Z.shiftl (Z.ones 31) 21) = Z.land y (Z.shiftl (Z.ones 31) 21).
Proof.
  intros H. unfold passes, PTE_p, PTE_nx, PTE_ps, PTE_w, PTE_u. rewrite !(sees_flag x y) by (done || lia).
  repeat split; apply sees_land; done.
Qed.

(** ** The memory of the walk *)

(** What a walk relies on beyond [AtomicMemory]: the answer is the packet sent,
    with address, size and flags as they were. *)
Class KeepsPacket {M : Type} (sendAtomic : M → Packet → result (M * Packet * Z)) : Prop :=
  keeps_packet m p m' r t : sendAtomic m p = Ok (m', r, t) → pkt_wf p →
    pkt_wf r ∧ pkt_addr r = pkt_addr p ∧ pkt_size r = pkt_size p ∧ memInhibitAsserted r = memInhibitAsserted p ∧
    flag_isSet (pkt_flags r) (Z.lor STATIC_DATA DYNAMIC_DATA) = flag_isSet (pkt_flags p) (Z.lor STATIC_DATA DYNAMIC_DATA).

Lemma combine_set n v : le_combine (le_split n v) = v mod 2 ^ (8 * Z.of_nat n).
Proof. rewrite le_combine_split. f_equal. replace 256 with (2 ^ 8) by done. by rewrite <-Z.pow_mul_r by lia. Qed.

Section Walk.

Context {M : Type} (line : Z) (sendAtomic : M → Packet → result (M * Packet * Z)) (byte_at : M → Z → Z → Z)
  (reach : Z → Z → Prop) (ok : M → Prop) (accepts : Packet → Prop)
  `{!AtomicMemory line sendAtomic byte_at reach ok accepts} `{!KeepsPacket sendAtomic}.
Context (masterId : Z) (tc : ThreadContext).

Let g : Z := walk_domain tc.
Hypothesis Hline : 0 < line ∧ (8 | line).
Hypothesis Haccepts : ∀ p, memInhibitAsserted p = false → guest_of p = g → req_masterId (pkt_req p) = masterId →
  req_isInstFetch (pkt_req p) = false → accepts p.

(** The 8-byte word of the domain's memory, and the words a walk may read. *)
Definition word_at (m : M) (a : Z) : Z := le_combine (byte_at m g <$> addr_range a 8).
Definition table_word (a : Z) : Prop := (8 | a) ∧ 0 ≤ a ∧ a + 8 ≤ 2 ^ 64 ∧ ∀ x, a ≤ x < a + 8 → reach g x.

(** Two memories with the same tables, up to accessed bits, and the same
    contents of every other domain. *)
Definition tables_kept (m m' : M) : Prop :=
  (∀ a, table_word a → sees (word_at m' a) (word_at m a)) ∧
  (∀ d x, reach d x → d ≠ g → byte_at m' d x = byte_at m d x).
Lemma tables_kept_refl m : tables_kept m m.
Proof. done. Qed.
Lemma tables_kept_trans m1 m2 m3 : tables_kept m1 m2 → tables_kept m2 m3 → tables_kept m1 m3.
Proof.
  intros [H1 H2] [H3 H4]. split; [|intros; by rewrite H4, H2]. intros a Ha. eapply sees_trans; [by apply H3|by apply H1].
Qed.

(** The read packet of one entry. *)
Definition entry_read (a fl : Z) : Packet :=
  (flag_set (Packet_make (Request_phys a 8 fl masterId) ReadReq) (Z.lor DYNAMIC_DATA ARRAY_DATA)) <| pkt_data := Some (replicate 8 0) |>.
Lemma walk_read_entry a fl : walk_read masterId a 8 fl = Ok (entry_read a fl).
Proof. done. Qed.

(** The answer to the read of an entry, ready to be written back. *)
Record entry_answer (a fl : Z) (r : Packet) : Prop := {
  ea_wf : pkt_wf r;
  ea_ptr : flag_isSet (pkt_flags r) (Z.lor STATIC_DATA DYNAMIC_DATA) = true;
  ea_addr : pkt_addr r = a;
  ea_size : pkt_size r = 8;
  ea_inhibit : memInhibitAsserted r = false;
  ea_master : req_masterId (pkt_req r) = masterId;
  ea_flags : req_flags (pkt_req r) = fl
}.

Lemma table_word_line a : table_word a → a mod line + 8 ≤ line.
Proof using Hline.
  intros ((k & ->) & _). destruct Hline as [Hl (q & Hq)]. pose proof (Z.mod_pos_bound (k * 8) line Hl).
  assert ((k * 8) mod line = (k mod q) * 8) as ->; [by rewrite Hq, Zmult_mod_distr_r|].
  assert (0 < q) by lia. pose proof (Z.mod_pos_bound k q). lia.
Qed.

Lemma read_entry m a fl tag :
  ok m → table_word a → walk_tag tc = Ok tag → flag_isSet fl INST_FETCH = false →
  ∃ m' r t, sendAtomic m (setQosTag (entry_read a fl) tag) = Ok (m', r, t) ∧ ok m' ∧ tables_kept m m' ∧
    (∀ x, table_word x → word_at m' x = word_at m x) ∧ entry_answer a fl r ∧ pkt_data r = Some (byte_at m g <$> addr_range a 8).
Proof using All.
  intros Hm Ha Htag Hfl. set (p := setQosTag (entry_read a fl) tag).
  assert (guest_of p = g) as Hg. { destruct (walk_tag_guest tc (entry_read a fl)) as (tag' & E & H). rewrite Htag in E. by injection E as <-. }
  assert (func_request line reach p (replicate 8 0)) as Hr.
  { pose proof (table_word_line a Ha). destruct Ha as (_ & H0 & H1 & H2).
    split; [done|done|done|done|split; [cbn; lia|done]|split; cbn; lia|]. intros x Hx. rewrite Hg. by apply H2. }
  assert (accepts p) as Hacc by (by apply Haccepts).
  destruct (atm_read m p (replicate 8 0) Hm Hacc eq_refl Hr) as (m' & r & t & Hs & Hm' & (Hresp & Hreq & _) & Hsame & Hd).
  destruct (keeps_packet m p m' r t Hs) as (K1 & K2 & K3 & K4 & K5); [apply Hr|].
  exists m', r, t. rewrite Hg in Hd. split; [done|]. split; [done|].
  assert (∀ x, table_word x → word_at m' x = word_at m x) as Hw.
  { intros x (_ & _ & _ & Hx). unfold word_at. f_equal. apply list_fmap_ext. intros i y Hy. apply Hsame, Hx.
    apply (elem_of_addr_range x 8). by eapply list_elem_of_lookup_2. }
  split; [split; [|intros; by apply Hsame]|]. { intros x Hx. by rewrite Hw. }
  split; [done|]. split; [|done]. split; [done|by rewrite K5|by rewrite K2|by rewrite K3|by rewrite K4|by rewrite Hreq|by rewrite Hreq].
Qed.

Lemma get_answer a fl r l : entry_answer a fl r → pkt_data r = Some l → length l = 8%nat → Packet_get 8 r = Ok (le_combine l).
Proof using.
  clear. intros [_ Hp _ Hs _ _ _] Hd Hl. unfold Packet_get. rewrite Hp, Hs, Hd. cbn [assertb mbind result_bind Z.leb Z.compare].
  rewrite decide_True by lia. by rewrite take_ge by lia.
Qed.

(** The write of the accessed bit. *)
Lemma write_accessed m a fl r l tag :
  ok m → table_word a → walk_tag tc = Ok tag → flag_isSet fl INST_FETCH = false → entry_answer a fl r →
  pkt_data r = Some l → length l = 8%nat → le_combine l = word_at m a →
  ∃ wr m' r' t, accessed_write r (word_at m a) = Ok wr ∧ sendAtomic m (setQosTag wr tag) = Ok (m', r', t) ∧ ok m' ∧ tables_kept m m'.
Proof using All.
  intros Hm Ha Htag Hfl [R1 R2 R3 R4 R5 R6 R7] Hd Hlen Hv. set (v' := set_flag (word_at m a) 5 1).
  assert (accessed_write r (word_at m a) = Ok (r <| pkt_data := Some (le_split 8 v') |> <| pkt_cmd := WriteReq |> <| pkt_dest := InvalidPortID |>)) as Hw.
  { unfold accessed_write, Packet_set. rewrite R2, R4, Hd. cbn [assertb mbind result_bind Z.leb Z.compare]. rewrite decide_True by lia.
    cbn [mbind result_bind]. unfold splice. rewrite take_0, drop_ge, app_nil_r by (rewrite length_le_split; lia). done. }
  rewrite Hw. set (wr := r <| pkt_data := _ |> <| pkt_cmd := WriteReq |> <| pkt_dest := _ |>). set (p := setQosTag wr tag).
  assert (guest_of p = g) as Hg. { destruct (walk_tag_guest tc wr) as (tag' & E & H). rewrite Htag in E. by injection E as <-. }
  assert (func_request line reach p (le_split 8 v')) as Hr.
  { pose proof (table_word_line a Ha). destruct Ha as (_ & H0 & H1 & H2). change (pkt_addr p) with (pkt_addr r). change (pkt_size p) with (pkt_size r).
    assert (pkt_wf p ∧ flag_isSet (pkt_flags p) (Z.lor STATIC_DATA DYNAMIC_DATA) = true) as [W1 W2].
    { destruct R1 as (F1 & F2 & F3). unfold pkt_wf, p, setQosTag, flag_set. cbn -[flag_isSet Z.lor Z.ldiff].
      by rewrite !flag_isSet_lor, F1, F2, F3, R2. }
    split; [exact W1|exact W2|done|change (pkt_size p) with (pkt_size r); by rewrite R4|..];
      change (pkt_addr p) with (pkt_addr r); change (pkt_size p) with (pkt_size r); rewrite R3, R4; [split; [lia|done]|lia|].
    intros x Hx. rewrite Hg. by apply H2. }
  assert (accepts p) as Hacc.
  { apply Haccepts; [|done|exact R6|].
    - unfold memInhibitAsserted, p, setQosTag, flag_set. cbn -[flag_isSet Z.lor Z.ldiff]. rewrite flag_isSet_lor. unfold memInhibitAsserted in R5. by rewrite R5.
    - change (flag_isSet (req_flags (pkt_req r)) INST_FETCH = false). by rewrite R7. }
  destruct (atm_write m p (le_split 8 v') Hm Hacc eq_refl Hr) as (m' & r' & t & Hs & Hm' & _ & _ & Hb).
  exists wr, m', r', t. split; [done|]. split; [done|]. split; [done|].
  change (pkt_addr p) with (pkt_addr r) in Hb. change (pkt_size p) with (pkt_size r) in Hb. rewrite R3, R4, Hg in Hb.
  split; [|intros d x Hx Hd'; rewrite Hb by done; by rewrite decide_False by naive_solver].
  intros b Hb'. destruct (decide (b = a)) as [->|Hne].
  - replace (word_at m' a) with (le_combine (le_split 8 v')).
    { rewrite combine_set. eapply sees_trans; [apply (sees_wrap v')|apply sees_accessed]. }
    unfold word_at. f_equal. apply list_eq. intros i. rewrite list_lookup_fmap.
    destruct (decide (i < 8)%nat) as [Hi|Hi]; [|by rewrite !lookup_ge_None_2 by (rewrite ?length_addr_range, ?length_le_split; lia)].
    unfold addr_range. rewrite list_lookup_fmap, lookup_seq_lt by done. cbn [fmap option_fmap option_map]. rewrite Hb by (apply Ha; lia). rewrite decide_True by (split; [done|lia]).
    replace (Z.to_nat (a + Z.of_nat (0 + i) - a)) with i by lia. apply list_lookup_lookup_total_lt. rewrite length_le_split. lia.
  - replace (word_at m' b) with (word_at m b); [apply sees_refl|]. unfold word_at. f_equal. apply list_fmap_ext. intros i y Hy.
    apply list_elem_of_lookup_2 in Hy. apply (elem_of_addr_range b 8) in Hy. destruct Hb' as ((kb & ->) & _ & _ & Hx), Ha as ((ka & ->) & _).
    rewrite Hb by (by apply Hx). rewrite decide_False; [done|]. intros [_ ?]. lia.
Qed.

Definition next_flags (pte fl : Z) : Z := Z.lor (Z.ldiff fl UNCACHEABLE) (if PTE_pcd pte then UNCACHEABLE else 0).
Lemma next_flags_fetch pte fl : flag_isSet fl INST_FETCH = false → flag_isSet (next_flags pte fl) INST_FETCH = false.
Proof using.
  clear. intros H. unfold next_flags. rewrite flag_isSet_lor, flag_isSet_ldiff, H by done. by destruct (PTE_pcd pte).
Qed.

(** The walk about to read the entry at [a]. *)
Definition at_entry (w : WalkerState) (a fl : Z) : Prop :=
  ws_read w = Some (entry_read a fl) ∧ ws_dataSize w = 8 ∧ ws_functional w = false ∧ ws_state w ≠ Ready ∧ ws_state w ≠ Waiting ∧
  flag_isSet fl INST_FETCH = false.
Definition bad_fetch (w : WalkerState) (pte : Z) : bool := PTE_nx pte && bool_decide (ws_mode w = Mode_Execute) && ws_enableNX w.

(** One round of the loop. *)
Lemma loop_step n m tlb w a fl e wr act :
  ok m → table_word a → at_entry w a fl →
  level (ws_state w) 8 (ws_entry w) (word_at m a) (bad_fetch w (word_at m a)) = Ok (e, wr, act) →
  ∃ m', ok m' ∧ tables_kept m m' ∧
    match act with
    | NextTable a' next =>
        let w' := w <| ws_entry := e |> <| ws_state := next |> <| ws_nextState := Ready |> <| ws_read := Some (entry_read a' (next_flags (word_at m a) fl)) |> in
        atomic_loop masterId tc sendAtomic (S n) m tlb w = atomic_loop masterId tc sendAtomic n m' tlb w'
    | MapsPage =>
        atomic_loop masterId tc sendAtomic (S n) m tlb w =
          ('(tlb, _) ← tlb_insert tlb (te_vaddr e) e; Ok (m', tlb, w <| ws_entry := e |> <| ws_state := Ready |> <| ws_nextState := Ready |> <| ws_read := None |>, None))
    | Faults present => ∃ w' f, atomic_loop masterId tc sendAtomic (S n) m tlb w = Ok (m', tlb, w', Some f)
    end.
Proof using All.
  intros Hm Ha (Hrd & Hds & Hfn & Hs1 & Hs2 & Hfl) Hlev. cbn [atomic_loop]. rewrite Hrd. cbn [mbind result_bind].
  destruct (walk_tag_guest tc (entry_read a fl)) as (tag & Htag & _). rewrite Htag. cbn [mbind result_bind].
  destruct (read_entry m a fl tag Hm Ha Htag Hfl) as (m1 & r & t & -> & Hm1 & Hk1 & Hw1 & Hr & Hd). cbn [mbind result_bind].
  assert (Packet_get 8 r = Ok (word_at m a)) as Hget. { eapply get_answer; [done|done|]. by rewrite length_fmap, length_addr_range. }
  assert (stepWalk masterId tc tlb (w <| ws_read := Some r |>) =
    match act with
    | NextTable a' next =>
        write ← (if wr then wr ← accessed_write r (word_at m a); Ok (Some wr) else Ok None);
        Ok (tlb, w <| ws_read := Some r |> <| ws_entry := e |> <| ws_nextState := next |> <| ws_read := Some (entry_read a' (next_flags (word_at m a) fl)) |>, None, write)
    | MapsPage => tlb ← ('(tlb, _) ← tlb_insert tlb (te_vaddr e) e; Ok tlb); Ok (tlb, endWalk (w <| ws_read := Some r |> <| ws_entry := e |>), None, None)
    | Faults present => '(w, fault) ← pageFault tc (w <| ws_read := Some r |> <| ws_entry := e |>) present; Ok (tlb, endWalk w, Some fault, None)
    end) as ->.
  { unfold stepWalk. cbn -[Packet_get level pageFault walk_read accessed_write tlb_insert getSize next_flags].
    rewrite (bool_decide_eq_false_2 (ws_state w = Ready)), (bool_decide_eq_false_2 (ws_state w = Waiting)) by done. cbn [negb andb assertb mbind result_bind]. rewrite Hds. cbn [Z.eqb Pos.eqb]. rewrite Hget. cbn [mbind result_bind].
    unfold bad_fetch in Hlev. rewrite Hlev. cbn [mbind result_bind]. destruct act as [a' next| |present]; [|by rewrite Hfn|done].
    rewrite (getSize_wf r) by apply Hr. cbn [mbind result_bind]. rewrite (ea_size _ _ _ Hr), (ea_flags _ _ _ Hr). by rewrite walk_read_entry. }
  destruct act as [a' next| |present].
  - destruct wr.
    + destruct (write_accessed m1 a fl r (byte_at m g <$> addr_range a 8) tag) as (wr & m2 & r2 & t2 & Hacw & Hsend & Hm2 & Hk2); try done;
        [by rewrite Hw1|].
      rewrite Hw1 in Hacw by done. rewrite Hacw. exists m2. split; [done|]. split; [by eapply tables_kept_trans|]. cbn [mbind result_bind].
      match goal with |- context [ws_read ?x] => set (w1 := x) end. change (ws_read w1) with (Some (entry_read a' (next_flags (word_at m a) fl))).
      cbn [assertb mbind result_bind]. rewrite Hsend. reflexivity.
    + exists m1. split; [done|]. split; [done|]. cbn [mbind result_bind].
      match goal with |- context [ws_read ?x] => set (w1 := x) end. change (ws_read w1) with (Some (entry_read a' (next_flags (word_at m a) fl))).
      cbn [assertb mbind result_bind]. reflexivity.
  - exists m1. split; [done|]. split; [done|]. by destruct (tlb_insert tlb (te_vaddr e) e) as [[tlb' i]|f].
  - exists m1. split; [done|]. split; [done|]. unfold pageFault. change (readMiscRegNoEffect tc MISCREG_M5_REG) with (Ok (reg tc MISCREG_M5_REG)).
    cbn [mbind result_bind]. eexists _, _. reflexivity.
Qed.

(** The end of a walk: the entry that goes into the TLB. *)
Record maps_to (va : Z) (mp : mapping) (e : TlbEntry) : Prop := {
  mt_frame : te_paddr e = mp_frame mp;
  mt_logBytes : te_logBytes e = mp_logBytes mp;
  mt_writable : te_writable e = mp_writable mp;
  mt_user : te_user e = mp_user mp;
  mt_vaddr : te_vaddr e = Z.land va (Z.lnot (2 ^ mp_logBytes mp - 1))
}.
Definition walk_result (m : M) (tlb : TLB) (va : Z) (spec : option mapping) (r : result (M * TLB * WalkerState * option PageFault)) : Prop :=
  ∃ m', ok m' ∧ tables_kept m m' ∧
    match spec with
    | Some mp => ∃ e w, maps_to va mp e ∧ r = ('(tlb, _) ← tlb_insert tlb (te_vaddr e) e; Ok (m', tlb, w, None))
    | None => ∃ w f, r = Ok (m', tlb, w, Some f)
    end.

Lemma walk_result_kept m m1 tlb va spec r : tables_kept m m1 → walk_result m1 tlb va spec r → walk_result m tlb va spec r.
Proof using. intros H (m' & Ho & Hk & Hr). exists m'. split; [done|]. split; [by eapply tables_kept_trans|done]. Qed.

(** A walk at its last possible entry, and at each entry before it. *)
Section Long.
Context (va : Z) (fetch : bool).
Definition walk_at (s : WState) (w : WalkerState) (e : TlbEntry) (a fl : Z) : Prop :=
  at_entry w a fl ∧ ws_state w = s ∧ ws_entry w = e ∧ te_vaddr e = va ∧ bool_decide (ws_mode w = Mode_Execute) && ws_enableNX w = fetch.

Lemma walk_at_level s w e a fl m : walk_at s w e a fl → 
  level (ws_state w) 8 (ws_entry w) (word_at m a) (bad_fetch w (word_at m a)) = level s 8 e (word_at m a) (PTE_nx (word_at m a) && fetch).
Proof using. intros (_ & -> & -> & _ & <-). unfold bad_fetch. by rewrite andb_assoc. Qed.

Lemma walk_at_next s w e a fl s' e' a' fl' :
  walk_at s w e a fl → s' ≠ Ready → s' ≠ Waiting → te_vaddr e' = te_vaddr e → flag_isSet fl' INST_FETCH = false →
  walk_at s' (w <| ws_entry := e' |> <| ws_state := s' |> <| ws_nextState := Ready |> <| ws_read := Some (entry_read a' fl') |>) e' a' fl'.
Proof using. intros ((H1 & H2 & H3 & H4 & H5 & H6) & _ & _ & H8 & H9) N1 N2 Hv Hf. repeat (split; [done|]). split; [by rewrite Hv|done]. Qed.

(** What the tables below an entry define, with the rights granted above it. *)
Definition spec_PTE (m0 : M) (w u : bool) (a : Z) : option mapping :=
  let x := word_at m0 a in if passes fetch x then Some (mkMapping (table_of x) 12 (w && PTE_w x) (u && PTE_u x)) else None.
Definition spec_PD (m0 : M) (w u : bool) (a : Z) : option mapping :=
  let x := word_at m0 a in
  if passes fetch x then
    if PTE_ps x then Some (mkMapping (Z.land x (Z.shiftl (Z.ones 31) 21)) 21 (w && PTE_w x) (u && PTE_u x))
    else spec_PTE m0 (w && PTE_w x) (u && PTE_u x) (slot (table_of x) (bits va 20 12))
  else None.
Definition spec_PDP (m0 : M) (w u : bool) (a : Z) : option mapping :=
  let x := word_at m0 a in
  if passes fetch x then spec_PD m0 (w && PTE_w x) (u && PTE_u x) (slot (table_of x) (bits va 29 21)) else None.
Definition spec_PML4 (m0 : M) (a : Z) : option mapping :=
  let x := word_at m0 a in
  if passes fetch x then spec_PDP m0 (PTE_w x) (PTE_u x) (slot (table_of x) (bits va 38 30)) else None.

(** The tables below an entry are words of the domain. *)
Definition below_PD (m0 : M) (a : Z) : Prop := table_word a ∧
  let x := word_at m0 a in passes fetch x = true → PTE_ps x = false → table_word (slot (table_of x) (bits va 20 12)).
Definition below_PDP (m0 : M) (a : Z) : Prop := table_word a ∧
  let x := word_at m0 a in passes fetch x = true → below_PD m0 (slot (table_of x) (bits va 29 21)).
Definition below_PML4 (m0 : M) (a : Z) : Prop := table_word a ∧
  let x := word_at m0 a in passes fetch x = true → below_PDP m0 (slot (table_of x) (bits va 38 30)).

Lemma walk_PTE n m m0 tlb w e a fl :
  ok m → tables_kept m0 m → table_word a → walk_at LongPTE w e a fl → te_logBytes e = 12 →
  walk_result m tlb va (spec_PTE m0 (te_writable e) (te_user e) a) (atomic_loop masterId tc sendAtomic (S n) m tlb w).
Proof using All.
  intros Hm [Hk _] Ha Hw Hlog. destruct (sees_fields fetch _ _ (Hk a Ha)) as (E1 & E2 & _ & E4 & E5 & _). unfold spec_PTE. cbv zeta. rewrite <-E1, <-E2, <-E4, <-E5.
  pose proof (walk_at_level _ _ _ _ _ m Hw) as Hl. rewrite level_LongPTE in Hl. destruct Hw as (Hat & _ & _ & Hv & _).
  destruct (passes fetch (word_at m a)).
  - destruct (loop_step n m tlb w a fl _ _ _ Hm Ha Hat Hl) as (m' & Hm' & Hk' & H). exists m'. split; [done|]. split; [done|].
    eexists _, _. split; [|exact H]. split; cbn; try done. by rewrite Hv.
  - destruct (loop_step n m tlb w a fl _ _ _ Hm Ha Hat Hl) as (m' & Hm' & Hk' & H). exists m'. by split.
Qed.

Lemma walk_PD n m m0 tlb w e a fl :
  ok m → tables_kept m0 m → below_PD m0 a → walk_at LongPD w e a fl →
  walk_result m tlb va (spec_PD m0 (te_writable e) (te_user e) a) (atomic_loop masterId tc sendAtomic (S (S n)) m tlb w).
Proof using All.
  intros Hm Hk0 [Ha Hb] Hw. pose proof Hk0 as [Hk _]. destruct (sees_fields fetch _ _ (Hk a Ha)) as (E1 & E2 & E3 & E4 & E5 & E6).
  unfold spec_PD. cbv zeta in Hb |- *. rewrite <-E1, <-E2, <-E3, <-E4, <-E5, <-E6. rewrite <-E1, <-E2, <-E3 in Hb.
  pose proof (walk_at_level _ _ _ _ _ m Hw) as Hl. rewrite level_LongPD in Hl. pose proof Hw as (Hat & _ & _ & Hv & _).
  destruct (passes fetch (word_at m a)); [destruct (PTE_ps (word_at m a))|].
  - destruct (loop_step (S n) m tlb w a fl _ _ _ Hm Ha Hat Hl) as (m' & Hm' & Hk' & H). exists m'. split; [done|]. split; [done|].
    eexists _, _. split; [|exact H]. split; cbn; try done. by rewrite Hv.
  - destruct (loop_step (S n) m tlb w a fl _ _ _ Hm Ha Hat Hl) as (m' & Hm' & Hk' & H). cbv zeta in H. rewrite H. eapply walk_result_kept; [done|].
    rewrite Hv. set (e' := (and_perms e (word_at m a)) <| te_logBytes := 12 |>).
    change (te_writable e && PTE_w (word_at m a)) with (te_writable e'). change (te_user e && PTE_u (word_at m a)) with (te_user e').
    eapply walk_PTE; [done|by eapply tables_kept_trans|by apply Hb| |done].
    eapply walk_at_next; [done..|]. apply next_flags_fetch, Hat.
  - destruct (loop_step (S n) m tlb w a fl _ _ _ Hm Ha Hat Hl) as (m' & Hm' & Hk' & H). exists m'. by split.
Qed.

Lemma walk_PDP n m m0 tlb w e a fl :
  ok m → tables_kept m0 m → below_PDP m0 a → walk_at LongPDP w e a fl →
  walk_result m tlb va (spec_PDP m0 (te_writable e) (te_user e) a) (atomic_loop masterId tc sendAtomic (S (S (S n))) m tlb w).
Proof using All.
  intros Hm Hk0 [Ha Hb] Hw. pose proof Hk0 as [Hk _]. destruct (sees_fields fetch _ _ (Hk a Ha)) as (E1 & E2 & E3 & E4 & E5 & E6).
  unfold spec_PDP. cbv zeta in Hb |- *. rewrite <-E1, <-E2, <-E4, <-E5. rewrite <-E1, <-E2 in Hb.
  pose proof (walk_at_level _ _ _ _ _ m Hw) as Hl. rewrite level_LongPDP in Hl. pose proof Hw as (Hat & _ & _ & Hv & _).
  destruct (passes fetch (word_at m a)).
  - destruct (loop_step (S (S n)) m tlb w a fl _ _ _ Hm Ha Hat Hl) as (m' & Hm' & Hk' & H). cbv zeta in H. rewrite H. eapply walk_result_kept; [done|].
    rewrite Hv. set (e' := and_perms e (word_at m a)).
    change (te_writable e && PTE_w (word_at m a)) with (te_writable e'). change (te_user e && PTE_u (word_at m a)) with (te_user e').
    eapply walk_PD; [done|by eapply tables_kept_trans|by apply Hb|].
    eapply walk_at_next; [done..|]. apply next_flags_fetch, Hat.
  - destruct (loop_step (S (S n)) m tlb w a fl _ _ _ Hm Ha Hat Hl) as (m' & Hm' & Hk' & H). exists m'. by split.
Qed.

Lemma walk_PML4 n m tlb w e a fl :
  ok m → below_PML4 m a → walk_at LongPML4 w e a fl →
  walk_result m tlb va (spec_PML4 m a) (atomic_loop masterId tc sendAtomic (S (S (S (S n)))) m tlb w).
Proof using All.
  intros Hm [Ha Hb] Hw. unfold spec_PML4. cbv zeta in Hb |- *.
  pose proof (walk_at_level _ _ _ _ _ m Hw) as Hl. rewrite level_LongPML4 in Hl. pose proof Hw as (Hat & _ & _ & Hv & _).
  destruct (passes fetch (word_at m a)).
  - destruct (loop_step (S (S (S n))) m tlb w a fl _ _ _ Hm Ha Hat Hl) as (m' & Hm' & Hk' & H). cbv zeta in H. rewrite H. eapply walk_result_kept; [done|].
    rewrite Hv. set (e' := (set_perms e (word_at m a)) <| te_noExec := PTE_nx (word_at m a) |>).
    change (PTE_w (word_at m a)) with (te_writable e'). change (PTE_u (word_at m a)) with (te_user e').
    eapply walk_PDP; [done|done|by apply Hb|].
    eapply walk_at_next; [done..|]. apply next_flags_fetch, Hat.
  - destruct (loop_step (S (S (S n))) m tlb w a fl _ _ _ Hm Ha Hat Hl) as (m' & Hm' & Hk' & H). exists m'. by split.
Qed.

(** The nested specifications are the mapping of the path. *)
Local Ltac paths := cbn -[passes slot table_of word_at bits PTE_w PTE_u PTE_ps].
Lemma spec_mapping m cr3 : spec_PML4 m (slot (table_of cr3) (bits va 47 39)) = long_mapping (word_at m) fetch cr3 va.
Proof using.
  unfold long_mapping, long_path, spec_PML4, spec_PDP, spec_PD, spec_PTE. cbv zeta.
  destruct (passes fetch (word_at m (slot (table_of cr3) _))) eqn:P4; cbn [negb]; [|paths; by rewrite P4]. set (x4 := word_at m (slot _ _)) in *.
  destruct (passes fetch (word_at m (slot (table_of x4) _))) eqn:P3; cbn [negb]; [|paths; fold x4; by rewrite P4, P3]. set (x3 := word_at m (slot (table_of x4) _)) in *.
  destruct (passes fetch (word_at m (slot (table_of x3) _))) eqn:P2; cbn [negb orb]; [|paths; fold x4 x3; by rewrite P4, P3, P2]. set (x2 := word_at m (slot (table_of x3) _)) in *.
  destruct (PTE_ps x2) eqn:PS; [paths; fold x4 x3 x2; by rewrite P4, P3, P2, !andb_true_r, !andb_assoc|].
  set (x1 := word_at m (slot (table_of x2) _)). paths. fold x4 x3 x2 x1. rewrite P4, P3, P2. destruct (passes fetch x1); [|done]. by rewrite !andb_true_r, !andb_assoc.
Qed.

Lemma path_below m cr3 :
  (∀ a, a ∈ long_path (word_at m) fetch cr3 va → table_word a) → below_PML4 m (slot (table_of cr3) (bits va 47 39)).
Proof using All.
  unfold long_path. cbv zeta. intros H. assert (∀ l : list Z, (∀ x, x ∈ l → table_word x) → Forall table_word l) as Hall by (intros l; by rewrite Forall_forall).
  apply Hall in H. clear Hall. unfold below_PML4, below_PDP, below_PD. cbv zeta.
  set (a4 := slot (table_of cr3) _) in *. destruct (passes fetch (word_at m a4)); cbn [negb] in H; [|apply Forall_cons in H as [? _]; naive_solver].
  set (a3 := slot (table_of (word_at m a4)) _) in *. destruct (passes fetch (word_at m a3)); cbn [negb] in H; [|repeat apply Forall_cons in H as [? H]; naive_solver].
  set (a2 := slot (table_of (word_at m a3)) _) in *. destruct (passes fetch (word_at m a2)); cbn [negb orb] in H; [|repeat apply Forall_cons in H as [? H]; naive_solver].
  destruct (PTE_ps (word_at m a2)); repeat apply Forall_cons in H as [? H]; naive_solver.
Qed.
End Long.

Lemma cr3_table cr3 va : wrap 64 (Z.shiftl (bits cr3 51 12) 12 + longl4 va * 8) = slot (table_of cr3) (bits va 47 39).
Proof using.
  clear. replace (Z.shiftl (bits cr3 51 12) 12) with (table_base cr3 40); [by apply wrap_slot|].
  unfold table_base, bits. change (mask 40) with (Z.ones 40). change (mask (51 - 12 + 1)) with (Z.ones 40). zbits.
  rewrite shiftr_testbit by lia. by replace (i - 12 + 12) with i by lia.
Qed.

(** A walk of a thread in long mode. *)
Lemma long_walk va mode m tlb entry :
  Efer_lma (reg tc MISCREG_EFER) = true → ok m →
  let fetch := bool_decide (mode = Mode_Execute) && Efer_nxe (reg tc MISCREG_EFER) in
  (∀ a, a ∈ long_path (word_at m) fetch (reg tc MISCREG_CR3) va → table_word a) →
  ∃ m', ok m' ∧ tables_kept m m' ∧
    match long_mapping (word_at m) fetch (reg tc MISCREG_CR3) va with
    | Some mp => ∃ e, maps_to va mp e ∧
        start_atomic masterId tc sendAtomic m tlb entry va mode = ('(tlb, _) ← tlb_insert tlb (te_vaddr e) e; Ok (m', tlb, None))
    | None => ∃ f, start_atomic masterId tc sendAtomic m tlb entry va mode = Ok (m', tlb, Some f)
    end.
Proof using All.
  intros Hlma Hm fetch Hp. unfold start_atomic. change (initState _ _ _) with (Ok ((WalkerState_make entry false) <| ws_mode := mode |>)).
  cbn [mbind result_bind]. unfold startWalk_atomic. cbn [ws_started negb assertb mbind result_bind setf WalkerState_make]. unfold setupWalk.
  change (readMiscRegNoEffect tc MISCREG_CR3) with (Ok (reg tc MISCREG_CR3)). change (readMiscRegNoEffect tc MISCREG_EFER) with (Ok (reg tc MISCREG_EFER)).
  change (readMiscRegNoEffect tc MISCREG_CR4) with (Ok (reg tc MISCREG_CR4)). cbn [mbind result_bind]. rewrite Hlma, cr3_table, walk_read_entry. cbn [mbind result_bind].
  match goal with |- context [atomic_loop _ _ _ _ _ _ ?x] => set (w := x) end.
  pose proof (walk_PML4 va fetch 0 m tlb w (entry <| te_vaddr := va |>) (slot (table_of (reg tc MISCREG_CR3)) (bits va 47 39))
    (if flag (reg tc MISCREG_CR3) 4 then Z.lor PHYSICAL UNCACHEABLE else PHYSICAL) Hm) as Hw.
  destruct Hw as (m' & Hm' & Hk & H); [by apply path_below|by repeat split; cbn; destruct (flag (reg tc MISCREG_CR3) 4)|].
  exists m'. split; [done|]. split; [done|]. rewrite spec_mapping in H. unfold walk_depth.
  destruct (long_mapping (word_at m) fetch (reg tc MISCREG_CR3) va) as [mp|].
  - destruct H as (e & w' & He & ->). exists e. split; [done|]. by destruct (tlb_insert tlb (te_vaddr e) e) as [[tlb' i]|f].
  - destruct H as (w' & f & ->). by exists f.
Qed.

Lemma page_contains va k e : in_width 64 va → 0 ≤ k → te_logBytes e = k → te_vaddr e = Z.land va (Z.lnot (2 ^ k - 1)) → in_page e va ∧ in_width 64 (te_vaddr e).
Proof using.
  clear. intros Hv Hk Hl He. unfold in_page. rewrite Hl, He. replace (2 ^ k - 1) with (Z.ones k) by (rewrite Z.ones_equiv; lia). split.
  - zbits.
  - apply in_width_bits; [lia|apply Z.land_nonneg; left; apply Hv|]. intros i Hi. by rewrite Z.land_spec, (testbit_high va 64) by (done || lia).
Qed.
End Walk.

(** The page a walk found goes into the TLB. *)
Lemma insert_mapped tlb tm va mp e :
  tlb_inv tlb tm → tlb_entries tlb ≠ [] → in_width 64 va → maps_to va mp e → mp_logBytes mp = 21 ∨ mp_logBytes mp = 12 →
  (∀ j x, in_use tlb j x → ¬ in_page x (Z.land va (Z.lnot (2 ^ mp_logBytes mp - 1)))) →
  ∃ tlb' tm' i e', tlb_insert tlb (te_vaddr e) e = Ok (tlb', i) ∧ tlb_inv tlb' tm' ∧ in_use tlb' i e' ∧ maps_to va mp e' ∧ in_page e' va.
Proof.
  intros Hwf Hne Hv He Hlog Hfree. destruct (page_contains va (mp_logBytes mp) e Hv) as [Hin Hw]; [lia|apply He|apply He|].
  destruct (tlb_insert_ok tlb tm (te_vaddr e) e Hwf Hne) as (tlb' & tm' & i & s & Hi & Hwf' & Hent & (old & Hold & _)).
  { split; [exact Hw|]. cbn. rewrite (mt_logBytes _ _ _ He). lia. }
  { intros j x Hx. rewrite (mt_vaddr _ _ _ He). by apply (Hfree j). }
  exists tlb', tm', i, (placed e (te_vaddr e) s). split; [done|]. split; [done|].
  split; [split; [rewrite Hent; apply list_lookup_insert_eq; by eapply lookup_lt_Some|done]|]. split; [by destruct He|exact Hin].
Qed.

(** ** The mapper and physical memory implement it *)

Lemma setData_size p mem off p' : setData p mem off = Ok p' → pkt_size p' = pkt_size p.
Proof. unfold setData. intros H. inv_ok. case_decide; by simplify_eq/=. Qed.
Lemma writeOK_size l p l' p' ok woken : writeOK l p = (l', p', ok, woken) → pkt_size p' = pkt_size p.
Proof.
  unfold writeOK, checkLockedAddrList. destruct l; [intros [= _ <- _ _]; by destruct (pkt_isLLSC p)|].
  set (e := erase_records _ _). destruct (pkt_isLLSC p); [set (f := find_record _ _ _); destruct f|]; destruct e; by intros [= _ <- _ _].
Qed.
Lemma mem_serve_size m p m' p' woken : mem_serve m p = Ok (m', p', woken) → pkt_size p' = pkt_size p.
Proof.
  intros H. unfold mem_serve in H. inv_ok. case_decide; [|destruct (pkt_isRead p); [|destruct (pkt_isWrite p)]].
  - inv_ok. unfold mem_swap in *. inv_ok. by eapply setData_size.
  - inv_ok. by eapply setData_size.
  - destruct (writeOK (mem_locked m) p) as [[[l p1] ok] wk] eqn:Hw. apply writeOK_size in Hw. by destruct ok; inv_ok.
  - by destruct (pkt_isInvalidate p); inv_ok.
Qed.

(** The flags of a packet, except the one [makeResponse] clears. *)
Definition flags_kept (p q : Packet) : Prop := pkt_flags q = pkt_flags p ∨ pkt_flags q = Z.ldiff (pkt_flags p) EXPRESS_SNOOP.
Lemma flags_kept_isSet p q f : flags_kept p q → Z.ldiff f EXPRESS_SNOOP = f → flag_isSet (pkt_flags q) f = flag_isSet (pkt_flags p) f.
Proof. intros [-> | ->] Hf; [done|]. by rewrite flag_isSet_ldiff. Qed.

Lemma simple_recvAtomic_keeps latency m p m' t q : simple_recvAtomic latency m p = Ok (m', t, q) → flags_kept p q ∧ pkt_size q = pkt_size p.
Proof.
  intros H. unfold simple_recvAtomic in H. inv_ok. unfold mem_access in E. inv_ok.
  destruct (memInhibitAsserted p); inv_ok; [inv_ok; by split; [left|]|].
  destruct a as [[m1 q1'] w1], a2 as [[m2 q1] w2]. inv_ok. pose proof (mem_serve_flags _ _ _ _ _ E3) as Hf. pose proof (mem_serve_size _ _ _ _ _ E3) as Hs.
  destruct (pkt_needsResponse q1); inv_ok; [|by split; [left|]]. unfold makeResponse in *. inv_ok. split; [|done]. right. cbn. by rewrite Hf.
Qed.

#[export] Instance mapped_keeps_packet latency : KeepsPacket (mapped_atomic latency).
Proof.
  intros [am mem] p [am' mem'] r t H W. unfold mapped_atomic in H. inv_ok. destruct a as [[[am1 mem1] t1] q]. inv_ok. cbn [fst snd] in *.
  unfold recvAtomic in E. rewrite getAddr_wf in E by done. cbn [mbind result_bind] in E. inv_ok. rewrite setAddr_wf in E2 by done. inv_ok.
  destruct a2 as [[mem2 t2] q1]. inv_ok. unfold setAddr in *. inv_ok. apply simple_recvAtomic_keeps in E3 as [Hk Hs].
  assert (∀ f, Z.ldiff f EXPRESS_SNOOP = f → flag_isSet (pkt_flags q1) f = flag_isSet (pkt_flags p) f) as HF.
  { intros f Hf. by rewrite (flags_kept_isSet _ _ f Hk Hf). }
  destruct W as (W1 & W2 & W3). repeat split; cbn -[flag_isSet]; [by rewrite HF..|by rewrite Hs|unfold memInhibitAsserted; cbn -[flag_isSet]; by rewrite HF|by rewrite HF].
Qed.

(** ** Properties *)

(** C15: a page walk in long mode computes the translation that the tables in
    the domain's own memory define.  For any memory with a byte per domain and
    address, any thread in long mode, any address whose tables lie in memory of
    its domain and any access: if every entry on the way is present (and
    executable, for a fetch with no-execute enabled), the walk succeeds and
    puts into the TLB the page with the frame of the last entry, writable and
    open to user mode exactly if every entry says so, and it contains the
    address; otherwise the walk ends in a page fault and leaves the TLB alone.
    Either way the tables keep their contents up to accessed bits, and no byte
    of another domain changes. *)
Theorem long_walk_translates {M} line send byte_at reach ok accepts
    `{!@AtomicMemory M line send byte_at reach ok accepts} `{!KeepsPacket send} masterId tc va mode m tlb tm entry :
  0 < line ∧ (8 | line) →
  (∀ p, memInhibitAsserted p = false → guest_of p = walk_domain tc → req_masterId (pkt_req p) = masterId →
    req_isInstFetch (pkt_req p) = false → accepts p) →
  Efer_lma (reg tc MISCREG_EFER) = true → in_width 64 va → ok m → tlb_inv tlb tm → tlb_entries tlb ≠ [] →
  let fetch := bool_decide (mode = Mode_Execute) && Efer_nxe (reg tc MISCREG_EFER) in
  let cr3 := reg tc MISCREG_CR3 in
  let word := word_at byte_at tc m in
  (∀ a, a ∈ long_path word fetch cr3 va → table_word reach tc a) →
  ∃ m', ok m' ∧ tables_kept byte_at reach tc m m' ∧
    match long_mapping word fetch cr3 va with
    | Some mp =>
        (∀ j e, in_use tlb j e → ¬ in_page e (Z.land va (Z.lnot (2 ^ mp_logBytes mp - 1)))) →
        ∃ tlb' tm' i e, start_atomic masterId tc send m tlb entry va mode = Ok (m', tlb', None) ∧ tlb_inv tlb' tm' ∧
          in_use tlb' i e ∧ maps_to va mp e ∧ in_page e va
    | None => ∃ fault, start_atomic masterId tc send m tlb entry va mode = Ok (m', tlb, Some fault)
    end.
Proof.
  intros Hline Hacc Hlma Hv Hm Hwf Hne fetch cr3 word Hp.
  destruct (long_walk line send byte_at reach ok accepts masterId tc Hline Hacc va mode m tlb entry Hlma Hm Hp) as (m' & Hm' & Hk & Hres).
  exists m'. split; [done|]. split; [done|]. fold fetch cr3 word in Hres. destruct (long_mapping word fetch cr3 va) as [mp|] eqn:Hmap; [|exact Hres].
  intros Hfree. destruct Hres as (e & He & ->).
  assert (mp_logBytes mp = 21 ∨ mp_logBytes mp = 12) as Hlog.
  { unfold long_mapping in Hmap. destruct (forallb _ _); [|done]. injection Hmap as <-. cbn. by case_match; auto. }
  destruct (insert_mapped tlb tm va mp e Hwf Hne Hv He Hlog Hfree) as (tlb' & tm' & i & e' & -> & Hrest). by exists tlb', tm', i, e'.
Qed.

(** Domain 1 has one table that maps itself at every level; its thread walks
    address 0x123 through the mapper and finds page 0. *)
Definition demo_self_map : AddrMapper * AbstractMemory := (demo_halves, mkMem 0 (7 :: replicate 511 0) [] [0] [0] [0] [0] [0] [0]).
Definition demo_walk_thread (t : TLB) : ThreadContext := set_reg (set_reg (demo_thread t) MISCREG_EFER 0x500) MISCREG_QR0 1.
Lemma long_walk_translates_witness :
  ∃ t st' tlb' i e, TLB_make 2 = Ok t ∧
    start_atomic 0 (demo_walk_thread t) (mapped_atomic 5) demo_self_map t zero_entry 0x123 Mode_Write = Ok (st', tlb', None) ∧
    in_use tlb' i e ∧ maps_to 0x123 (mkMapping 0 12 true true) e ∧ in_page e 0x123.
Proof.
  destruct (TLB_make_ok 2) as (t & Ht & Hwf & He); [done|].
  pose proof (mapped_atomic_memory demo_halves 0 64 512 1 5 ltac:(lia) demo_halves_wf ltac:(by repeat constructor) ltac:(lia)) as HA.
  destruct (@long_walk_translates _ 64 (mapped_atomic 5) (system_byte demo_halves 0) (domain_reach demo_halves 0 512)
    (system_ok demo_halves 0 512 1) (plain_request 1) HA _ 0 (demo_walk_thread t) 0x123 Mode_Write demo_self_map t ∅ zero_entry)
    as (m' & _ & _ & H).
  - split; [lia|]. by exists 8.
  - intros p H1 H2 H3 H4. change (walk_domain (demo_walk_thread t)) with 1 in H2. split; [done|by rewrite H3|by rewrite H2|done].
  - reflexivity.
  - unfold in_width. lia.
  - split; [done|done|]. split; [done|done|]. by repeat constructor.
  - exact Hwf.
  - by rewrite He.
  - change (∀ a, a ∈ long_path (word_at (system_byte demo_halves 0) (demo_walk_thread t) demo_self_map) false 0 0x123 →
      table_word (domain_reach demo_halves 0 512) (demo_walk_thread t) a).
    assert (long_path (word_at (system_byte demo_halves 0) (demo_walk_thread t) demo_self_map) false 0 0x123 = [0; 0; 0; 0]) as -> by (vm_compute; reflexivity).
    intros a Ha. assert (a = 0) as -> by (by repeat (apply elem_of_cons in Ha as [->|Ha]; [done|]); apply elem_of_nil in Ha).
    split; [by exists 0|]. split; [lia|]. split; [lia|]. intros x Hx. apply demo_halves_reach; [by right|lia].
  - assert (long_mapping (word_at (system_byte demo_halves 0) (demo_walk_thread t) demo_self_map)
      (bool_decide (Mode_Write = Mode_Execute) && Efer_nxe (reg (demo_walk_thread t) MISCREG_EFER)) (reg (demo_walk_thread t) MISCREG_CR3) 0x123
      = Some (mkMapping 0 12 true true)) as Hmap by (vm_compute; reflexivity).
    cbv zeta in H. rewrite Hmap in H. destruct H as (tlb' & _ & i & e & H1 & _ & H3 & H4 & H5).
    + intros j x [Hj Hu] _. rewrite He in Hj. apply lookup_replicate in Hj as [-> _]. exact (Hu eq_refl).
    + exists t, m', tlb', i, e. split; [exact Ht|]. split; [exact H1|]. split; [exact H3|]. split; [exact H4|exact H5].
Defined.
