(* ===== verification/LDomain.v ===== *)
(** * Logical domains: construction and boot

    [src/pardg5-v/hyper/arch/PARDg5VLDomain.cc] and [.hh], the tables made in
    [bios.cc], the system's list of domains ([system.cc], [system.hh]) and the
    loading of a kernel ([src/gem5-pard/src/base/loader/object_file.cc]).
    Booting a domain writes its memory through a proxy that carries the
    domain's tag ([BlobWriter]) and sets the registers of its first thread
    ([X86Isa]). *)

From S2P Require Import Prelude BaseLib ChunkGen Trie X86Tlb X86Isa Packet PageWalker GuestAddr AddrMapper PhysMem PortProxy BlobWriter IntelMP SmBios GuestMemory DmaPort DmaDevice GuestDma DomainWalk.
Local Open Scope Z_scope.

(** ** Object files *)

Inductive Arch : Type := UnknownArch | Alpha | SPARC64 | SPARC32 | Mips | X86_64 | I386 | Arm64 | Arm | Thumb | Power.
#[export] Instance Arch_eq_dec : EqDecision Arch.
Proof. solve_decision. Defined.

Record ObjSection : Type := mkObjSection { sec_baseAddr : Z; sec_fileImage : option (list Z); sec_size : Z }.
Record ObjectFile : Type := mkObjectFile {
  of_text : ObjSection; of_data : ObjSection; of_bss : ObjSection; of_arch : Arch; of_entry : Z
}.

Definition loadSection (sec : ObjSection) (addrMask offset : Z) : Writer unit :=
  if sec_size sec =? 0 then mret ()
  else
    let addr := wrap 64 (Z.land (sec_baseAddr sec) addrMask + offset) in
    match sec_fileImage sec with
    | Some image =>
        if decide (Z.to_nat (sec_size sec) ≤ length image)%nat then put addr (take (Z.to_nat (sec_size sec)) image)
        else wlift (Err OutOfBounds)
    | None => put addr (replicate (Z.to_nat (sec_size sec)) 0)
    end.
Definition loadSections (o : ObjectFile) (addrMask offset : Z) : Writer unit :=
  loadSection (of_text o) addrMask offset ;; loadSection (of_data o) addrMask offset ;; loadSection (of_bss o) addrMask offset.

(** ** Domains *)

Record PARDg5VLDomain : Type := mkLDomain {
  ld_domID : Z;
  ld_physProxy : PortProxy;
  ld_kernel : option ObjectFile;
  ld_kernelEntry : Z;
  ld_loadAddrMask : Z;
  ld_loadAddrOffset : Z;
  ld_commandLine : list Z;
  ld_e820Table : E820Table;
  ld_smbiosTable : SMBiosTable;
  ld_mpFloatingPointer : FloatingPointer;
  ld_mpConfigTable : option ConfigTable
}.
#[export] Instance eta_PARDg5VLDomain : Eta PARDg5VLDomain := λ d,
  mkLDomain (ld_domID d) (ld_physProxy d) (ld_kernel d) (ld_kernelEntry d) (ld_loadAddrMask d) (ld_loadAddrOffset d)
    (ld_commandLine d) (ld_e820Table d) (ld_smbiosTable d) (ld_mpFloatingPointer d) (ld_mpConfigTable d).

(** ** Segments *)

(** A bit union built field by field. *)
Definition bit_union (fields : list (Z * Z * Z)) : Z := foldl (λ d '(hi, lo, v), insertBits 64 d hi lo v) 0 fields.

Definition csDesc : Z :=
  bit_union [(43, 43, 1); (42, 42, 0); (41, 41, 1); (46, 45, 0); (47, 47, 1); (53, 53, 1); (54, 54, 0); (55, 55, 1); (44, 44, 1);
    (51, 48, 0xF); (15, 0, 0xFFFF)].
Definition dsDesc : Z :=
  bit_union [(43, 43, 0); (42, 42, 0); (41, 41, 1); (46, 45, 0); (47, 47, 1); (54, 54, 1); (55, 55, 1); (44, 44, 1);
    (51, 48, 0xF); (15, 0, 0xFFFF)].
Definition tssDesc : Z :=
  bit_union [(43, 40, 0xB); (46, 45, 0); (47, 47, 1); (54, 54, 1); (55, 55, 1); (44, 44, 0); (51, 48, 0xF); (15, 0, 0xFFFF)].

(** Selector of an entry of the descriptor table. *)
Definition SegSelector_si (si : Z) : Z := insertBits 64 0 15 3 si.

(** The attributes [installSegDesc] derives from a descriptor. *)
Definition desc_attr (desc : Z) : Z :=
  let rights :=
    if flag desc 44 then
      if flag desc 43 then [(14, 14, 0); (13, 13, bits desc 41 41); (12, 12, 0)]
      else [(14, 14, bits desc 42 42); (13, 13, 1); (12, 12, bits desc 41 41)]
    else [(13, 13, 1); (12, 12, 1); (14, 14, 0)] in
  bit_union ([(1, 0, bits desc 46 45); (2, 2, 0); (3, 3, bits desc 54 54); (4, 4, bits desc 53 53); (5, 5, bits desc 52 52);
    (6, 6, bits desc 55 55); (7, 7, bits desc 47 47); (15, 15, bits desc 44 44); (11, 8, bits desc 43 40)] ++ rights).

Definition honorBase (seg : Z) (longmode : bool) : bool :=
  negb longmode || (seg =? SEGMENT_REG_FS) || (seg =? SEGMENT_REG_GS) || (seg =? SEGMENT_REG_TSL) || (seg =? SYS_SEGMENT_REG_TR).

Definition desc_base (desc : Z) : Z := wrap 64 (bits desc 39 16 + wrap 64 (Z.shiftl (bits desc 63 56) 24)).
Definition desc_limit (desc : Z) : Z := Z.lor (bits desc 15 0) (Z.shiftl (bits desc 51 48) 16).

(** Register writes in order. *)
Definition set_regs (tc : ThreadContext) (l : list (Z * Z)) : result ThreadContext := foldM (λ tc '(r, v), setMiscReg tc r v) tc l.

Definition seg_writes (seg desc : Z) (longmode : bool) : list (Z * Z) :=
  [(MISCREG_SEG_BASE seg, desc_base desc); (MISCREG_SEG_EFF_BASE seg, if honorBase seg longmode then desc_base desc else 0);
   (MISCREG_SEG_LIMIT seg, desc_limit desc); (MISCREG_SEG_ATTR seg, desc_attr desc)].
Definition installSegDesc (tc : ThreadContext) (seg desc : Z) (longmode : bool) : result ThreadContext :=
  set_regs tc (seg_writes seg desc longmode).

(** ** Boot *)

Definition GDTBase : Z := 0x76000.
Definition PageMapLevel4 : Z := 0x70000.
Definition PageDirPtrTable : Z := 0x71000.
Definition PageDirTable : list Z := [0x72000; 0x73000; 0x74000; 0x75000].

(** The descriptor table, the selectors and the task register. *)
Definition setup_gdt (tc : ThreadContext) : Writer ThreadContext :=
  let numGDTEntries := 0 in
  put (GDTBase + numGDTEntries * 8) (le_split 8 0) ;;
  let numGDTEntries := numGDTEntries + 1 in
  put (GDTBase + numGDTEntries * 8) (le_split 8 csDesc) ;;
  let numGDTEntries := numGDTEntries + 1 in
  let cs := SegSelector_si (numGDTEntries - 1) in
  tc ← wlift (setMiscReg tc (MISCREG_SEG_SEL SEGMENT_REG_CS) cs);
  put (GDTBase + numGDTEntries * 8) (le_split 8 dsDesc) ;;
  let numGDTEntries := numGDTEntries + 1 in
  let ds := SegSelector_si (numGDTEntries - 1) in
  tc ← wlift (set_regs tc [(MISCREG_SEG_SEL SEGMENT_REG_DS, ds); (MISCREG_SEG_SEL SEGMENT_REG_ES, ds); (MISCREG_SEG_SEL SEGMENT_REG_FS, ds);
                           (MISCREG_SEG_SEL SEGMENT_REG_GS, ds); (MISCREG_SEG_SEL SEGMENT_REG_SS, ds); (MISCREG_SEG_SEL SEGMENT_REG_TSL, 0);
                           (MISCREG_SEG_BASE SEGMENT_REG_TSG, GDTBase); (MISCREG_SEG_LIMIT SEGMENT_REG_TSG, 8 * numGDTEntries - 1)]);
  put (GDTBase + numGDTEntries * 8) (le_split 8 tssDesc) ;;
  let numGDTEntries := numGDTEntries + 1 in
  let tss := SegSelector_si (numGDTEntries - 1) in
  tc ← wlift (setMiscReg tc (MISCREG_SEG_SEL SYS_SEGMENT_REG_TR) tss);
  tc ← wlift (installSegDesc tc SYS_SEGMENT_REG_TR tssDesc true);
  mret tc.

(** The page tables that map the first 4 GB to themselves. *)
Definition page_tables : Writer unit :=
  wfold (λ _ i, put (PageMapLevel4 + Z.of_nat i * 8) (le_split 8 0x6)) () (seq 0 512) ;;
  put PageMapLevel4 (le_split 8 (Z.lor 0x7 PageDirPtrTable)) ;;
  wfold (λ _ i, put (PageDirPtrTable + Z.of_nat i * 8) (le_split 8 0x6)) () (seq 0 512) ;;
  wfold (λ _ table, pdt ← wlift (at_ PageDirTable (Z.of_nat table));
                    put (PageDirPtrTable + Z.of_nat table * 8) (le_split 8 (Z.lor 0x7 pdt))) () (seq 0 4) ;;
  wfold (λ base table,
    pdt ← wlift (at_ PageDirTable (Z.of_nat table));
    wfold (λ base i, put (pdt + Z.of_nat i * 8) (le_split 8 (Z.lor 0x87 base)) ;; mret (wrap 64 (base + Z.shiftl 2 20))) base (seq 0 512))
    0 (seq 0 4) ;;
  mret ().

(** From real mode to long mode. *)
Definition enter_long_mode (tc : ThreadContext) (kernelEntry : Z) : result ThreadContext :=
  cr0 ← readMiscRegNoEffect tc MISCREG_CR0;
  let cr0 := set_flag cr0 31 0 in
  tc ← setMiscReg tc MISCREG_CR0 cr0;
  let cr0 := set_flag cr0 0 1 in
  tc ← setMiscReg tc MISCREG_CR0 cr0;
  cr4 ← readMiscRegNoEffect tc MISCREG_CR4;
  tc ← setMiscReg tc MISCREG_CR4 (set_flag cr4 5 1);
  tc ← setMiscReg tc MISCREG_CR3 PageMapLevel4;
  efer ← readMiscRegNoEffect tc MISCREG_EFER;
  tc ← setMiscReg tc MISCREG_EFER (set_flag efer 8 1);
  tc ← installSegDesc tc SEGMENT_REG_CS csDesc true;
  tc ← installSegDesc tc SEGMENT_REG_DS dsDesc true;
  tc ← installSegDesc tc SEGMENT_REG_ES dsDesc true;
  tc ← installSegDesc tc SEGMENT_REG_FS dsDesc true;
  tc ← installSegDesc tc SEGMENT_REG_GS dsDesc true;
  tc ← installSegDesc tc SEGMENT_REG_SS dsDesc true;
  tc ← setMiscReg tc MISCREG_CR0 (set_flag cr0 31 1);
  Ok (tc <| tc_pcState := PCState_make kernelEntry |>).

(** The default argument [table = 0]: right after the header. *)
Definition writeOutSMBiosTable (sm : SMBiosTable) (header table : Z) : Writer (SMBiosTable * Z * Z) :=
  let table := if table =? 0 then wrap 64 (header + 0x1F) else table in
  let sm := sm_setTableAddr sm table in
  '(headerSize, structSize) ← sm_writeOut sm header;
  wlift (assertb ((table <? header) || (wrap 64 (header + headerSize) <=? table))) ;;
  wlift (assertb ((header <? table) || (wrap 64 (table + structSize) <=? header))) ;;
  mret (sm, headerSize, structSize).

Definition writeOutMPTable (mfp : FloatingPointer) (mct : option ConfigTable) (fp table : Z) : Writer (FloatingPointer * Z * Z) :=
  let table := match mct with Some _ => if table =? 0 then wrap 64 (fp + 0x10) else table | None => table end in
  let mfp := match mct with Some _ => fp_setTableAddr mfp table | None => mfp end in
  fpSize ← fp_writeOut mfp fp;
  tableSize ← (match mct with Some ct => ct_writeOut ct table | None => mret 0 end);
  wlift (assertb ((table <? fp) || (wrap 64 (fp + fpSize) <=? table))) ;;
  wlift (assertb ((fp <? table) || (wrap 64 (table + tableSize) <=? fp))) ;;
  wlift (assertb (fpSize =? 0x10)) ;;
  mret (mfp, fpSize, tableSize).

Definition bios_tables (ld : PARDg5VLDomain) : Writer PARDg5VLDomain :=
  let ebdaPos := 0xF0000 in
  '(sm, fixed, table) ← writeOutSMBiosTable (ld_smbiosTable ld) ebdaPos 0;
  let ebdaPos := roundUp (wrap 64 (ebdaPos + (fixed + table))) 16 in
  '(fp, _, _) ← writeOutMPTable (ld_mpFloatingPointer ld) (ld_mpConfigTable ld) ebdaPos 0;
  mret (ld <| ld_smbiosTable := sm |> <| ld_mpFloatingPointer := fp |>).

Definition set_mtrrs (tc : ThreadContext) : result ThreadContext :=
  set_regs tc [(MISCREG_MTRR_PHYS_BASE 0, 0x0000000000000006); (MISCREG_MTRR_PHYS_MASK 0, 0xFFFFFFFF80000800);
               (MISCREG_MTRR_PHYS_BASE 1, 0x0000000080000006); (MISCREG_MTRR_PHYS_MASK 1, 0xFFFFFFFFC0000800)].

Definition realModeData : Z := 0x90200.
Definition commandLineBuff : Z := 0x90000.
Definition INTREG_RSI : Z := 6.

Definition prepareLinuxEnv (ld : PARDg5VLDomain) (tc : ThreadContext) : Writer ThreadContext :=
  let n := Z.of_nat (length (ld_commandLine ld)) in
  wlift (panic_if (realModeData - commandLineBuff <? n + 1)) ;;
  put commandLineBuff (ld_commandLine ld ++ [0]) ;;
  put (realModeData + 0x228) (le_split 4 commandLineBuff) ;;
  e820_writeTo (ld_e820Table ld) (realModeData + 0x1e8) (realModeData + 0x2d0) ;;
  let f := tc_intRegs tc in
  mret (tc <| tc_intRegs := λ i, if i =? INTREG_RSI then realModeData else f i |>).

Definition initBSPState (ld : PARDg5VLDomain) (tc : ThreadContext) : Writer (PARDg5VLDomain * ThreadContext) :=
  tc ← wlift (setMiscReg tc MISCREG_QR0 (ld_domID ld));
  kernel ← wlift (match ld_kernel ld with Some k => Ok k | None => Err NullDeref end);
  loadSections kernel (ld_loadAddrMask ld) (ld_loadAddrOffset ld) ;;
  wlift (fatal_if (bool_decide (of_arch kernel = I386))) ;;
  tc ← setup_gdt tc;
  page_tables ;;
  tc ← wlift (enter_long_mode tc (ld_kernelEntry ld));
  ld ← bios_tables ld;
  tc ← wlift (set_mtrrs tc);
  tc ← prepareLinuxEnv ld tc;
  mret (ld, tc).

(** ** Construction *)

(** The tables of a domain made at run time ([bios.cc]). *)
Definition createIntelMPConfigTable (base_entries : list BaseConfigEntry) (ext_entries : list ExtConfigEntry) : ConfigTable :=
  mkConfigTable 4 [] [] 0 0 0xFEE00000 base_entries ext_entries.
Definition createIntelMPFloatingPointer : FloatingPointer := FloatingPointer_make 4 0 true.
Definition createIntelMPProcessor (m local_apic_id local_apic_version : Z) (enable bootstrap : bool) : BaseConfigEntry :=
  Processor_make m local_apic_id local_apic_version enable bootstrap 0 0 0 0.
Definition createIntelMPIOAPIC (id version : Z) (enable : bool) (address : Z) : BaseConfigEntry := IOAPIC_make id version enable address.
Definition createIntelMPBus (bus_type : list Z) (bus_id : Z) : BaseConfigEntry := Bus_make bus_id bus_type.
Definition createIntelMPBusHierarchy (bus_id : Z) (subtractive_decode : bool) (parent_bus : Z) : ExtConfigEntry :=
  BusHierarchy_make bus_id subtractive_decode parent_bus.
Definition createIntelMPIOIntAssignment (interrupt_type polarity trigger source_bus_id source_bus_irq dest_io_apic_id dest_io_apic_intin : Z)
  : BaseConfigEntry :=
  IOIntAssignment_make interrupt_type polarity trigger source_bus_id source_bus_irq dest_io_apic_id dest_io_apic_intin.
Definition createE820Entry (addr size type : Z) : E820Entry := mkE820Entry addr size type.
Definition createE820Table (entries : list E820Entry) : E820Table := entries.
Definition createSMBiosBiosInformation : result BiosInformation :=
  BiosInformation_make [] [] 0 (str_bytes "06/08/2008") 0 [] [] 0 0 0 0.
Definition createSMBiosTable (structures : list BiosInformation) : result SMBiosTable := SMBiosTable_make 2 5 structures.

(** [assignISAInt]. *)
Definition assignISAInt (io_apic_id : Z) (pin : Z * Z) : BaseConfigEntry :=
  createIntelMPIOIntAssignment 0 0 0 0 pin.1 io_apic_id pin.2.

Definition base_entries (m : Z) : list BaseConfigEntry :=
  let io_apic_id := 1 in
  [createIntelMPProcessor m 0 0x14 true true; createIntelMPIOAPIC 1 0x11 true 0xfec00000;
   createIntelMPBus (str_bytes "ISA") 0; createIntelMPBus (str_bytes "PCI") 1;
   createIntelMPIOIntAssignment 0 0 0 1 (0 + Z.shiftl 4 2) io_apic_id 16] ++
  (assignISAInt io_apic_id <$> [(0, 2); (1, 1); (3, 3); (4, 4); (5, 5); (6, 6); (7, 7); (8, 8); (9, 9); (10, 10); (11, 11); (12, 12);
    (13, 13); (14, 14); (15, 15)]).

(** ** The system's domains *)

Record X86PARDg5VSystem : Type := mkSystem {
  sys_domains : list (option PARDg5VLDomain);
  sys_numDomains : Z;
  sys_cacheLineSize : Z;
  sys_threadContexts : list ThreadContext
}.
#[export] Instance eta_X86PARDg5VSystem : Eta X86PARDg5VSystem := λ s,
  mkSystem (sys_domains s) (sys_numDomains s) (sys_cacheLineSize s) (sys_threadContexts s).

Fixpoint first_free (l : list (option PARDg5VLDomain)) (id : nat) : nat :=
  match l with Some _ :: l => first_free l (S id) | _ => id end.

(** [registerPARDg5VLDomain]: the domain in its slot, and the slot. *)
Definition registerPARDg5VLDomain (sys : X86PARDg5VSystem) (domain : PARDg5VLDomain) : X86PARDg5VSystem * Z :=
  let id := first_free (sys_domains sys) 0 in
  let domains := if decide (length (sys_domains sys) ≤ id)%nat then sys_domains sys ++ replicate (id + 1 - length (sys_domains sys)) None
                 else sys_domains sys in
  (sys <| sys_domains := <[id := Some domain]> domains |> <| sys_numDomains := sys_numDomains sys + 1 |>, Z.of_nat id).

(** The end of both constructors: the domain learns its number and tags its
    proxy with it; the slot holds the domain itself. *)
Definition register_domain (sys : X86PARDg5VSystem) (ld : PARDg5VLDomain) : X86PARDg5VSystem * PARDg5VLDomain :=
  let '(sys, id) := registerPARDg5VLDomain sys ld in
  let ld := ld <| ld_domID := wrap 16 id |> <| ld_physProxy := updateTag (ld_physProxy ld) (wrap 16 id) |> in
  (sys <| sys_domains := <[Z.to_nat id := Some ld]> (sys_domains sys) |>, ld).

(** The second constructor, with the kernel file found on disk, and [m] the
    mask of [Processor_make]. *)
Definition LDomain_make (sys : X86PARDg5VSystem) (kernelFile : option ObjectFile) (m memsize : Z)
  : result (X86PARDg5VSystem * PARDg5VLDomain) :=
  let commandLine := str_bytes "earlyprintk=ttyS0 console=ttyS0 lpj=7999923 root=/dev/sda1 no_timer_check" in
  let e820Table := createE820Table [createE820Entry 0 0x9fc00 1; createE820Entry 0x9fc00 0x60400 2;
    createE820Entry 0x100000 (wrap 64 (memsize - 0x100000)) 1; createE820Entry 0xFFFF0000 0x10000 2] in
  bi ← createSMBiosBiosInformation;
  smbiosTable ← createSMBiosTable [bi];
  let mpConfigTable := createIntelMPConfigTable (base_entries m) [createIntelMPBusHierarchy 0 true 1] in
  kernel ← (match kernelFile with Some k => Ok k | None => Err FatalCalled end);
  Ok (register_domain sys
    (mkLDomain 0 (mkPortProxy (sys_cacheLineSize sys) (-1)) (Some kernel) (of_entry kernel) 0xFFFFFFFFFF 0 commandLine e820Table smbiosTable
      createIntelMPFloatingPointer (Some mpConfigTable))).

Definition createPARDg5VLDom (sys : X86PARDg5VSystem) (kernelFile : option ObjectFile) (m : Z) : result (X86PARDg5VSystem * PARDg5VLDomain) :=
  LDomain_make sys kernelFile m 0x80000000.

Definition getPARDg5VLDomain (sys : X86PARDg5VSystem) (id : Z) : result (option PARDg5VLDomain) :=
  if id <? sys_numDomains sys then at_ (sys_domains sys) id else Ok None.
Definition getThreadContext (sys : X86PARDg5VSystem) (tid : Z) : result ThreadContext := at_ (sys_threadContexts sys) tid.

(** [initState]: every thread is suspended, then each domain boots on the thread
    of its number; the writes of each boot, with the proxy they go through. *)
Definition boot_one (st : X86PARDg5VSystem * list (PortProxy * list Blob)) (i : nat) : result (X86PARDg5VSystem * list (PortProxy * list Blob)) :=
  let '(sys, logs) := st in
  d ← at_ (sys_domains sys) (Z.of_nat i);
  ld ← (match d with Some ld => Ok ld | None => Err NullDeref end);
  tc ← getThreadContext sys (Z.of_nat i);
  '(log, (ld', tc)) ← runWriter (initBSPState ld tc);
  domains ← upd_at (sys_domains sys) (Z.of_nat i) (Some ld');
  threads ← upd_at (sys_threadContexts sys) (Z.of_nat i) (tc <| tc_status := Active |>);
  Ok (sys <| sys_domains := domains |> <| sys_threadContexts := threads |>, logs ++ [(ld_physProxy ld, log)]).
Definition system_initState (sys : X86PARDg5VSystem) (hostKernel : bool) : result (X86PARDg5VSystem * list (PortProxy * list Blob)) :=
  fatal_if hostKernel ;;
  let sys := sys <| sys_threadContexts := (λ tc, tc <| tc_status := Suspended |>) <$> sys_threadContexts sys |> in
  foldM boot_one (sys, []) (seq 0 (length (sys_domains sys))).
