(* ===== verification/DomainBoot.v ===== *)
(** * What booting a domain leaves

    The boot of a logical domain ([initBSPState] of [LDomain]) from any state
    of its thread and of its memory: the registers it leaves, the writes it
    makes, and the address space the thread then runs in, walked by
    [PageWalker] over the domain's memory. *)

From S2P Require Import Prelude BaseLib ChunkGen Trie X86Tlb X86Isa Packet PageWalker GuestAddr AddrMapper PhysMem PortProxy BlobWriter IntelMP SmBios GuestMemory DmaPort DmaDevice GuestDma DomainWalk LDomain.
Local Open Scope Z_scope.

(** ** Registers *)

(** What writes to the registers [l] keep. *)
Record regs_kept (l : list Z) (tc tc' : ThreadContext) : Prop := {
  rk_tlbs : tlbs_wf tc';
  rk_reg i : Forall (λ r, i ∉ touched r) l → reg tc' i = reg tc i;
  rk_pcState : tc_pcState tc' = tc_pcState tc;
  rk_intRegs : tc_intRegs tc' = tc_intRegs tc;
  rk_itb_size : length (tlb_entries (tc_itb tc')) = length (tlb_entries (tc_itb tc));
  rk_dtb_size : length (tlb_entries (tc_dtb tc')) = length (tlb_entries (tc_dtb tc));
  rk_itb i e : in_use (tc_itb tc') i e → in_use (tc_itb tc) i e;
  rk_dtb i e : in_use (tc_dtb tc') i e → in_use (tc_dtb tc) i e;
  rk_mode : MISCREG_EFER ∉ l → MISCREG_RFLAGS ∉ l → mode_synced tc → mode_synced tc'
}.

Lemma regs_kept_nil tc : tlbs_wf tc → regs_kept [] tc tc.
Proof. done. Qed.
Lemma regs_kept_trans l1 l2 tc1 tc2 tc3 : regs_kept l1 tc1 tc2 → regs_kept l2 tc2 tc3 → regs_kept (l1 ++ l2) tc1 tc3.
Proof.
  intros [A1 A2 A3 A4 A8 A9 A5 A6 A7] [B1 B2 B3 B4 B8 B9 B5 B6 B7]. split; [done|..|congruence|congruence|congruence|congruence|eauto|eauto|].
  - intros i [H1 H2]%Forall_app. by rewrite B2, A2.
  - rewrite !not_elem_of_app. naive_solver.
Qed.

(** A flush keeps the number of entries. *)
Lemma flush_size drop t l t' : foldM (flush_step drop) t l = Ok t' → length (tlb_entries t') = length (tlb_entries t).
Proof.
  apply (foldM_inv (λ t', length (tlb_entries t') = length (tlb_entries t))); [done|]. intros t1 i t2 _ <- H. unfold flush_step in H. inv_ok.
  destruct (te_trieHandle a); [|by injection H as <-]. destruct (drop a); [|by injection H as <-].
  unfold release in H. inv_ok. destruct (te_trieHandle a0); [|done]. inv_ok. cbn. apply length_insert.
Qed.

(** Registers other than the model-specific ones are left alone. *)
Definition thread_kept (tc tc' : ThreadContext) : Prop :=
  tc_pcState tc' = tc_pcState tc ∧ tc_intRegs tc' = tc_intRegs tc ∧
  length (tlb_entries (tc_itb tc')) = length (tlb_entries (tc_itb tc)) ∧ length (tlb_entries (tc_dtb tc')) = length (tlb_entries (tc_dtb tc)).
Lemma setMiscReg_frame tc r v tc' : setMiscReg tc r v = Ok tc' → thread_kept tc tc'.
Proof.
  assert (∀ tc0 r v tc', setMiscRegNoEffect tc0 r v = Ok tc' → tc' = set_reg tc0 r v) as HN.
  { unfold setMiscRegNoEffect. intros. inv_ok. done. }
  assert (∀ drop tc0 tc', flush_tlbs (λ t, foldM (flush_step drop) t (seq 0 (length (tlb_entries t)))) tc0 = Ok tc' → thread_kept tc0 tc') as HF.
  { unfold flush_tlbs. intros. inv_ok. repeat split; cbn; by eapply flush_size. }
  unfold setMiscReg. cbv zeta. intros H. repeat case_match.
  all: try (apply HN in H as ->; done).
  all: try (unfold set_DR6, set_DR7 in H; inv_ok; apply HN in H as ->; done).
  all: try (by injection H as <-).
  - unfold set_CR0 in H. inv_ok. apply HN in H as ->.
    assert (thread_kept tc a) as Hk; [|exact Hk].
    destruct (CR0_pg (Z.lxor _ _)); cbn [andb] in E; [apply HF in E|injection E as <-; by repeat split].
    destruct (Efer_lme _); exact E.
  - inv_ok. apply HN in H as ->. by apply HF in E.
  - unfold set_CR4 in H. inv_ok. apply HN in H as ->. destruct (_ || _); [by apply HF in E|by injection E as <-].
  - unfold set_CS_ATTR in H. cbv zeta in H. destruct (SegAttr_longMode (Z.lxor _ _)); apply HN in H as ->; by repeat split.
Qed.

Lemma setMiscReg_kept tc r v : tlbs_wf tc → writable r v = true → ∃ tc', setMiscReg tc r v = Ok tc' ∧ regs_kept [r] tc tc'.
Proof.
  intros Hwf Hw. destruct (setMiscReg_outcome tc r v Hwf Hw) as (tc' & Hs & (Ht & Hi & Hd) & Hr & Hm). exists tc'. split; [done|].
  destruct (setMiscReg_frame _ _ _ _ Hs) as (Hp & Hx & Hy & Hz). split; try done.
  - intros i Hf. apply Hr. by apply Forall_cons in Hf as [? _].
  - intros i e [H _]%Hi. done.
  - intros i e [H _]%Hd. done.
  - rewrite !list_elem_of_singleton. intros H1 H2 Hmo. by apply Hm; [|intros ->..].
Qed.

Lemma set_regs_kept l tc :
  tlbs_wf tc → Forall (λ p : Z * Z, writable p.1 p.2 = true) l → ∃ tc', set_regs tc l = Ok tc' ∧ regs_kept l.*1 tc tc'.
Proof.
  revert tc. induction l as [|[r v] l IH]; intros tc Hwf Hw; [by exists tc|]. apply Forall_cons in Hw as [Hr Hw].
  destruct (setMiscReg_kept tc r v Hwf Hr) as (tc1 & H1 & K1). destruct (IH tc1) as (tc2 & H2 & K2); [apply K1|done|].
  exists tc2. split; [unfold set_regs in *; cbn; by rewrite H1|]. exact (regs_kept_trans [r] l.*1 _ _ _ K1 K2).
Qed.

(** The value of a register that holds what is written to it. *)
Lemma CR3_value tc v tc' : setMiscReg tc MISCREG_CR3 v = Ok tc' → reg tc' MISCREG_CR3 = v.
Proof. intros H. change ((tc ← flush_tlbs flushNonGlobal tc; setMiscRegNoEffect tc MISCREG_CR3 v) = Ok tc') in H. inv_ok. unfold setMiscRegNoEffect in H. by inv_ok. Qed.
Lemma CR4_value tc v tc' : setMiscReg tc MISCREG_CR4 v = Ok tc' → reg tc' MISCREG_CR4 = v.
Proof. intros H. change (set_CR4 tc v = Ok tc') in H. unfold set_CR4, setMiscRegNoEffect in H. by inv_ok. Qed.
Lemma EFER_value tc v tc' : setMiscReg tc MISCREG_EFER v = Ok tc' → reg tc' MISCREG_EFER = v.
Proof. intros H. change (setMiscRegNoEffect tc MISCREG_EFER v = Ok tc') in H. unfold setMiscRegNoEffect in H. by inv_ok. Qed.
Lemma QR0_value tc v tc' : setMiscReg tc MISCREG_QR0 v = Ok tc' → reg tc' MISCREG_QR0 = v.
Proof. intros H. change (setMiscRegNoEffect tc MISCREG_QR0 v = Ok tc') in H. unfold setMiscRegNoEffect in H. by inv_ok. Qed.
Lemma CS_ATTR_value tc v tc' : setMiscReg tc MISCREG_CS_ATTR v = Ok tc' → reg tc' MISCREG_CS_ATTR = v.
Proof.
  intros H. change (set_CS_ATTR tc v = Ok tc') in H. unfold set_CS_ATTR, setMiscRegNoEffect in H. cbv zeta in H.
  destruct (SegAttr_longMode _); by inv_ok.
Qed.

(** Writing a closed list of registers. *)
Ltac writables := repeat (apply Forall_cons_2; [reflexivity|]); apply Forall_nil_2.
Ltac keeps_reg K := apply K; refine (bool_decide_unpack _ _); vm_compute; exact I.

Ltac put_step := eapply writes_bind; [apply writes_put; vm_compute; split; [discriminate|reflexivity]|].
Ltac lift_step H := eapply writes_bind; [apply writes_lift; exact H|].

Definition gdt_log : list Blob :=
  [(GDTBase, le_split 8 0); (GDTBase + 8, le_split 8 csDesc); (GDTBase + 16, le_split 8 dsDesc); (GDTBase + 24, le_split 8 tssDesc)].
Definition gdt_regs : list Z :=
  (MISCREG_SEG_SEL <$> [SEGMENT_REG_CS; SEGMENT_REG_DS; SEGMENT_REG_ES; SEGMENT_REG_FS; SEGMENT_REG_GS; SEGMENT_REG_SS; SEGMENT_REG_TSL]) ++
  [MISCREG_SEG_BASE SEGMENT_REG_TSG; MISCREG_SEG_LIMIT SEGMENT_REG_TSG; MISCREG_SEG_SEL SYS_SEGMENT_REG_TR] ++ (seg_writes SYS_SEGMENT_REG_TR tssDesc true).*1.

Lemma setup_gdt_writes tc : tlbs_wf tc → ∃ tc', writes (setup_gdt tc) gdt_log tc' ∧ regs_kept gdt_regs tc tc'.
Proof.
  intros Hwf. unfold setup_gdt. cbv zeta.
  destruct (setMiscReg_kept tc (MISCREG_SEG_SEL SEGMENT_REG_CS) (SegSelector_si (0 + 1 + 1 - 1)) Hwf eq_refl) as (tc1 & H1 & K1).
  match goal with |- context [set_regs _ ?l] => destruct (set_regs_kept l tc1 (rk_tlbs _ _ _ K1)) as (tc2 & H2 & K2); [writables|] end.
  match goal with |- context [setMiscReg _ (MISCREG_SEG_SEL SYS_SEGMENT_REG_TR) ?v] =>
    destruct (setMiscReg_kept tc2 (MISCREG_SEG_SEL SYS_SEGMENT_REG_TR) v (rk_tlbs _ _ _ K2) eq_refl) as (tc3 & H3 & K3) end.
  destruct (set_regs_kept (seg_writes SYS_SEGMENT_REG_TR tssDesc true) tc3 (rk_tlbs _ _ _ K3)) as (tc4 & H4 & K4); [writables|].
  exists tc4. split.
  - eassert (writes (setup_gdt tc) _ tc4) as W.
    { unfold setup_gdt. cbv zeta. do 2 put_step. lift_step H1. put_step. lift_step H2.
    put_step. lift_step H3. lift_step H4. apply writes_ret. }
    exact W.
  - exact (regs_kept_trans _ _ _ _ _ K1 (regs_kept_trans _ _ _ _ _ K2 (regs_kept_trans _ _ _ _ _ K3 K4))).
Qed.

(** A thread in 64-bit mode, in ring 0, with paging on and no cached translation. *)
Record in_long_mode (tc : ThreadContext) : Prop := {
  lm_tlbs : tlbs_wf tc;
  lm_CR0 : CR0_pg (reg tc MISCREG_CR0) = true ∧ CR0_pe (reg tc MISCREG_CR0) = true;
  lm_CR3 : reg tc MISCREG_CR3 = PageMapLevel4;
  lm_CR4 : CR4_pae (reg tc MISCREG_CR4) = true;
  lm_EFER : Efer_lme (reg tc MISCREG_EFER) = true ∧ Efer_lma (reg tc MISCREG_EFER) = true;
  lm_CS_ATTR : reg tc MISCREG_CS_ATTR = desc_attr csDesc;
  lm_mode : mode_synced tc;
  lm_itb i e : ¬ in_use (tc_itb tc) i e;
  lm_dtb i e : ¬ in_use (tc_dtb tc) i e
}.

Lemma flag_set_same v b x : 0 ≤ b < 64 → x = 0 ∨ x = 1 → flag (set_flag v b x) b = (x =? 1).
Proof. intros Hb Hx. unfold flag, set_flag. rewrite bits_insertBits by lia. by destruct Hx as [-> | ->]; rewrite Z.sub_diag. Qed.
Lemma flag_set_other v b c x : 0 ≤ b < 64 → 0 ≤ c < 64 → c ≠ b → flag (set_flag v b x) c = flag v c.
Proof.
  intros Hb Hc Hn. unfold flag, set_flag. by rewrite bits_insertBits_other by lia.
Qed.
Lemma flag_testbit z b : 0 ≤ b < 64 → flag z b = Z.testbit z b.
Proof.
  intros Hb. unfold flag. destruct (Z.testbit z b) eqn:E.
  - apply negb_true_iff, Z.eqb_neq. intros H0. apply (f_equal (λ x, Z.testbit x 0)) in H0. rewrite bits_testbit in H0 by lia.
    rewrite bool_decide_eq_true_2, Z.add_0_l, E in H0 by lia. discriminate H0.
  - apply negb_false_iff, Z.eqb_eq. apply Z.bits_inj'. intros i Hi. rewrite bits_testbit, Z.bits_0 by lia.
    case_bool_decide; [|done]. replace (i + b) with b by lia. by rewrite E.
Qed.
Lemma flag_lxor x y b : 0 ≤ b < 64 → flag (Z.lxor x y) b = xorb (flag x b) (flag y b).
Proof. intros Hb. by rewrite !flag_testbit, Z.lxor_spec. Qed.

(** The installation of a segment. *)
Lemma installSegDesc_kept tc seg desc :
  tlbs_wf tc → Forall (λ p : Z * Z, writable p.1 p.2 = true) (seg_writes seg desc true) →
  ∃ tc', installSegDesc tc seg desc true = Ok tc' ∧ regs_kept (seg_writes seg desc true).*1 tc tc'.
Proof. intros H Hw. by apply set_regs_kept. Qed.

Lemma install_CS_attr tc tc' : installSegDesc tc SEGMENT_REG_CS csDesc true = Ok tc' → reg tc' MISCREG_CS_ATTR = desc_attr csDesc.
Proof.
  unfold installSegDesc, seg_writes, set_regs. intros H. cbn [foldM] in H. inv_ok. by eapply CS_ATTR_value.
Qed.

(** The segments, from the state with the control registers set. *)
Definition data_segments : list Z := [SEGMENT_REG_DS; SEGMENT_REG_ES; SEGMENT_REG_FS; SEGMENT_REG_GS; SEGMENT_REG_SS].
Definition segment_regs : list Z := (seg_writes SEGMENT_REG_CS csDesc true).*1 ++ concat ((λ seg, (seg_writes seg dsDesc true).*1) <$> data_segments).
Definition install_all (tc : ThreadContext) : result ThreadContext :=
  tc ← installSegDesc tc SEGMENT_REG_CS csDesc true; foldM (λ tc seg, installSegDesc tc seg dsDesc true) tc data_segments.

Lemma install_data_kept l tc :
  tlbs_wf tc → Forall (λ seg, Forall (λ p : Z * Z, writable p.1 p.2 = true) (seg_writes seg dsDesc true)) l →
  ∃ tc', foldM (λ tc seg, installSegDesc tc seg dsDesc true) tc l = Ok tc' ∧
    regs_kept (concat ((λ seg, (seg_writes seg dsDesc true).*1) <$> l)) tc tc'.
Proof.
  revert tc. induction l as [|seg l IH]; intros tc Hwf Hl; [by exists tc|]. apply Forall_cons in Hl as [Hs Hl].
  destruct (installSegDesc_kept tc seg dsDesc Hwf Hs) as (tc1 & H1 & K1). destruct (IH tc1 (rk_tlbs _ _ _ K1) Hl) as (tc2 & H2 & K2).
  exists tc2. split; [cbn [foldM]; by rewrite H1|]. exact (regs_kept_trans _ _ _ _ _ K1 K2).
Qed.
Lemma install_all_spec tc :
  tlbs_wf tc → ∃ tc', install_all tc = Ok tc' ∧ regs_kept segment_regs tc tc' ∧ reg tc' MISCREG_CS_ATTR = desc_attr csDesc.
Proof.
  intros Hwf. unfold install_all. destruct (installSegDesc_kept tc SEGMENT_REG_CS csDesc Hwf) as (tc1 & H1 & K1); [writables|].
  destruct (install_data_kept data_segments tc1 (rk_tlbs _ _ _ K1)) as (tc2 & H2 & K2); [repeat (apply Forall_cons_2; [writables|]); apply Forall_nil_2|].
  exists tc2. rewrite H1. split; [exact H2|]. split; [exact (regs_kept_trans _ _ _ _ _ K1 K2)|].
  rewrite <-(install_CS_attr _ _ H1). keeps_reg K2.
Qed.

(** The control registers, up to the switch. *)
Definition control_setup (tc : ThreadContext) : result (ThreadContext * Z) :=
  cr0 ← readMiscRegNoEffect tc MISCREG_CR0;
  let cr0 := set_flag cr0 31 0 in
  tc ← setMiscReg tc MISCREG_CR0 cr0;
  let cr0 := set_flag cr0 0 1 in
  tc ← setMiscReg tc MISCREG_CR0 cr0;
  cr4 ← readMiscRegNoEffect tc MISCREG_CR4;
  tc ← setMiscReg tc MISCREG_CR4 (set_flag cr4 5 1);
  tc ← setMiscReg tc MISCREG_CR3 PageMapLevel4;
  efer ← readMiscRegNoEffect tc MISCREG_EFER;
  tc ← setMiscReg tc MISCREG_EFER (set_flag efer 8 1);
  Ok (tc, cr0).

Lemma enter_long_mode_split tc pc :
  enter_long_mode tc pc = ('(tc, cr0) ← control_setup tc; tc ← install_all tc; tc ← setMiscReg tc MISCREG_CR0 (set_flag cr0 31 1);
    Ok (tc <| tc_pcState := PCState_make pc |>)).
Proof.
  unfold enter_long_mode, control_setup, install_all, data_segments. cbn [foldM]. cbv zeta.
  generalize setMiscReg readMiscRegNoEffect installSegDesc. intros set rd install.
  repeat match goal with |- (?r ≫= _) = _ => destruct r; cbn [mbind result_bind] end; reflexivity.
Qed.

Definition control_regs : list Z := [MISCREG_CR0; MISCREG_CR0; MISCREG_CR4; MISCREG_CR3; MISCREG_EFER].
Lemma control_setup_spec tc :
  tlbs_wf tc → ∃ tc' cr0, control_setup tc = Ok (tc', cr0) ∧ regs_kept control_regs tc tc' ∧ CR0_pe cr0 = true ∧
    CR0_pg (reg tc' MISCREG_CR0) = false ∧ reg tc' MISCREG_CR3 = PageMapLevel4 ∧ CR4_pae (reg tc' MISCREG_CR4) = true ∧
    Efer_lme (reg tc' MISCREG_EFER) = true.
Proof.
  intros Hwf. unfold control_setup. change (readMiscRegNoEffect tc MISCREG_CR0) with (Ok (reg tc MISCREG_CR0)). cbn [mbind result_bind]. cbv zeta.
  set (c0 := set_flag _ 31 0). set (c1 := set_flag c0 0 1).
  destruct (setMiscReg_kept tc MISCREG_CR0 c0 Hwf eq_refl) as (tc1 & H1 & K1). rewrite H1. cbn [mbind result_bind].
  destruct (setMiscReg_kept tc1 MISCREG_CR0 c1 (rk_tlbs _ _ _ K1) eq_refl) as (tc2 & H2 & K2). rewrite H2. cbn [mbind result_bind].
  destruct (set_CR0_outcome tc1 c1 (rk_tlbs _ _ _ K1)) as (tc2' & H2' & _ & Hcr0 & _ & _).
  assert (tc2' = tc2) as -> by (change (set_CR0 tc1 c1 = Ok tc2) in H2; congruence). clear H2'.
  change (readMiscRegNoEffect tc2 MISCREG_CR4) with (Ok (reg tc2 MISCREG_CR4)). cbn [mbind result_bind].
  set (c4 := set_flag (reg tc2 MISCREG_CR4) 5 1).
  destruct (setMiscReg_kept tc2 MISCREG_CR4 c4 (rk_tlbs _ _ _ K2) eq_refl) as (tc3 & H3 & K3). rewrite H3. cbn [mbind result_bind].
  destruct (setMiscReg_kept tc3 MISCREG_CR3 PageMapLevel4 (rk_tlbs _ _ _ K3) eq_refl) as (tc4 & H4 & K4). rewrite H4. cbn [mbind result_bind].
  change (readMiscRegNoEffect tc4 MISCREG_EFER) with (Ok (reg tc4 MISCREG_EFER)). cbn [mbind result_bind].
  set (ef := set_flag (reg tc4 MISCREG_EFER) 8 1).
  destruct (setMiscReg_kept tc4 MISCREG_EFER ef (rk_tlbs _ _ _ K4) eq_refl) as (tc5 & H5 & K5). rewrite H5. cbn [mbind result_bind].
  pose proof (regs_kept_trans _ _ _ _ _ K3 (regs_kept_trans _ _ _ _ _ K4 K5)) as K35.
  exists tc5, c1. split; [done|]. split; [exact (regs_kept_trans _ _ _ _ _ K1 (regs_kept_trans _ _ _ _ _ K2 K35))|].
  split; [by apply flag_set_same; [lia|right]|]. split; [|split; [|split]].
  - assert (reg tc5 MISCREG_CR0 = reg tc2 MISCREG_CR0) as -> by keeps_reg K35. rewrite Hcr0. unfold CR0_pg, CR0_et_bit.
    unfold c1, c0. rewrite !flag_set_other by lia. by apply flag_set_same; [lia|left].
  - rewrite <-(CR3_value _ _ _ H4). keeps_reg K5.
  - assert (reg tc5 MISCREG_CR4 = c4) as ->; [|by apply flag_set_same; [lia|right]].
    rewrite <-(CR4_value _ _ _ H3). keeps_reg (regs_kept_trans _ _ _ _ _ K4 K5).
  - rewrite (EFER_value _ _ _ H5). by apply flag_set_same; [lia|right].
Qed.

Definition same_size (tc tc' : ThreadContext) : Prop :=
  length (tlb_entries (tc_itb tc')) = length (tlb_entries (tc_itb tc)) ∧ length (tlb_entries (tc_dtb tc')) = length (tlb_entries (tc_dtb tc)).
Lemma kept_size l tc tc' : regs_kept l tc tc' → same_size tc tc'.
Proof. intros [_ _ _ _ H1 H2 _ _ _]. by split. Qed.
Lemma same_size_trans tc1 tc2 tc3 : same_size tc1 tc2 → same_size tc2 tc3 → same_size tc1 tc3.
Proof. unfold same_size. intros [-> ->] [-> ->]. done. Qed.

Lemma enter_long_mode_spec tc pc :
  tlbs_wf tc → ∃ tc', enter_long_mode tc pc = Ok tc' ∧ in_long_mode tc' ∧ reg tc' MISCREG_QR0 = reg tc MISCREG_QR0 ∧
    tc_pcState tc' = PCState_make pc ∧ same_size tc tc'.
Proof.
  intros Hwf. rewrite enter_long_mode_split.
  destruct (control_setup_spec tc Hwf) as (tc1 & c1 & -> & K1 & Hpe & Hpg & H3 & H4 & He). cbn [mbind result_bind].
  destruct (install_all_spec tc1 (rk_tlbs _ _ _ K1)) as (tc2 & -> & K2 & Hcs). cbn [mbind result_bind].
  pose proof (regs_kept_trans _ _ _ _ _ K1 K2) as K12. pose proof (rk_tlbs _ _ _ K2) as W2.
  destruct (setMiscReg_kept tc2 MISCREG_CR0 (set_flag c1 31 1) W2 eq_refl) as (tc3 & H & K3). rewrite H. cbn [mbind result_bind].
  destruct (set_CR0_outcome tc2 (set_flag c1 31 1) W2) as (tc3' & H' & (Hf & _ & _) & Hcr0 & Hefer & Hm).
  assert (tc3' = tc3) as -> by (change (set_CR0 tc2 (set_flag c1 31 1) = Ok tc3) in H; congruence). clear H'.
  assert (CR0_pg (Z.lxor (reg tc2 MISCREG_CR0) (set_flag c1 31 1)) = true) as Htog.
  { unfold CR0_pg. rewrite flag_lxor by lia. assert (reg tc2 MISCREG_CR0 = reg tc1 MISCREG_CR0) as -> by keeps_reg K2.
    unfold CR0_pg in Hpg. by rewrite Hpg, flag_set_same by (try (by right); lia). }
  assert (reg tc2 MISCREG_EFER = reg tc1 MISCREG_EFER) as Ee by keeps_reg K2.
  assert (∀ e, survives tc2 MISCREG_CR0 (set_flag c1 31 1) e = false) as Hdead by (intros e; unfold survives; cbn [Z.eqb MISCREG_CR0]; by rewrite Htog).
  exists (tc3 <| tc_pcState := PCState_make pc |>). split; [done|]. split; [split|split; [|split; [done|]]].
  - exact (rk_tlbs _ _ _ K3).
  - change (reg (tc3 <| tc_pcState := PCState_make pc |>) MISCREG_CR0) with (reg tc3 MISCREG_CR0). rewrite Hcr0. unfold CR0_pg, CR0_pe, CR0_et_bit.
    rewrite !(flag_set_other _ 4) by lia. rewrite flag_set_same, flag_set_other by (try (by right); lia). by split.
  - change (reg tc3 MISCREG_CR3 = PageMapLevel4). rewrite <-H3. keeps_reg (regs_kept_trans _ _ _ _ _ K2 K3).
  - change (CR4_pae (reg tc3 MISCREG_CR4) = true). rewrite <-H4. f_equal. keeps_reg (regs_kept_trans _ _ _ _ _ K2 K3).
  - change (Efer_lme (reg tc3 MISCREG_EFER) = true ∧ Efer_lma (reg tc3 MISCREG_EFER) = true). rewrite Hefer. cbv zeta. rewrite Htog, Ee, He. cbn [andb].
    unfold CR0_pg, Efer_lme, Efer_lma. rewrite flag_set_same by (try (by right); lia). rewrite flag_set_same by (try (by right); lia).
    rewrite flag_set_other by lia. split; [exact He|reflexivity].
  - change (reg tc3 MISCREG_CS_ATTR = desc_attr csDesc). rewrite <-Hcs. keeps_reg K3.
  - exact Hm.
  - intros i e Hu. apply Hf in Hu as [_ Hu]. by rewrite Hdead in Hu.
  - intros i e Hu. apply Hf in Hu as [_ Hu]. by rewrite Hdead in Hu.
  - change (reg tc3 MISCREG_QR0 = reg tc MISCREG_QR0). keeps_reg (regs_kept_trans _ _ _ _ _ K12 K3).
  - exact (kept_size _ _ _ (regs_kept_trans _ _ _ _ _ K12 K3)).
Qed.

(** ** Page tables *)

(** A log of aligned 8-byte words: the last write to each. *)
Definition words_of (log : list Blob) : gmap Z (list Z) := foldl (λ m w, <[w.1 := w.2]> m) ∅ log.
Definition word_blob (w : Blob) : Prop := length w.2 = 8%nat ∧ w.1 mod 8 = 0.

Lemma image_words f log a l :
  Forall word_blob log → a mod 8 = 0 → words_of log !! a = Some l → bytes_at (image f log) a 8 = l.
Proof.
  intros Hl Ha. revert l. induction log as [|[b p] log IH] using rev_ind; intros l H; [done|].
  apply Forall_app in Hl as [Hl Hw]. apply Forall_cons in Hw as [[Hp Hb] _]. cbn [fst snd] in *.
  unfold words_of in H. rewrite foldl_app in H. cbn in H. rewrite image_app. change (image (image f log) [(b, p)]) with (write_at (image f log) (b, p)).
  destruct (decide (b = a)) as [->|Hne].
  - rewrite lookup_insert_eq in H. injection H as ->. rewrite <-Hp. apply bytes_at_blob.
  - rewrite lookup_insert_ne in H by done. rewrite <-(IH Hl l H). apply (bytes_at_avoids _ [(b, p)]).
    apply avoids_cons; [|apply avoids_nil]. rewrite Hp. apply Z.div_exact in Ha, Hb; lia.
Qed.

Definition pt_log : list Blob := match runWriter page_tables with Ok (l, _) => l | Err _ => [] end.
Lemma page_tables_writes : writes page_tables pt_log ().
Proof.
  unfold writes, pt_log. assert (match runWriter page_tables with Ok _ => true | Err _ => false end = true) as H by (vm_compute; reflexivity).
  by destruct (runWriter page_tables) as [[l []]|].
Qed.

(** The entries of the three levels. *)
Definition PML4E : Z := 0x71007.
Definition PDPE (j : Z) : Z := 0x72007 + 0x1000 * j.
Definition PDE (i : Z) : Z := Z.lor 0x87 (Z.shiftl i 21).

(** The log holds aligned words inside the tables ... *)
Definition table_blob (w : Blob) : bool := (length w.2 =? 8)%nat && (w.1 mod 8 =? 0) && (0x70000 <=? w.1) && (w.1 + 8 <=? 0x76000).
Lemma pt_blobs : forallb table_blob pt_log = true.
Proof. vm_compute. reflexivity. Qed.

(** ... and ends with these entries. *)
Definition pt_holds (words : gmap Z (list Z)) (base : Z) (entry : Z → Z) (i : nat) : bool :=
  bool_decide (words !! (base + 8 * Z.of_nat i) = Some (le_split 8 (entry (Z.of_nat i)))).
Definition all_hold (base : Z) (entry : Z → Z) (n : nat) : bool := let words := words_of pt_log in forallb (pt_holds words base entry) (seq 0 n).
Lemma pt_PML4E : all_hold 0x70000 (λ _, PML4E) 1 = true.
Proof. vm_compute. reflexivity. Qed.
Lemma pt_PDPE : all_hold 0x71000 PDPE 4 = true.
Proof. vm_compute. reflexivity. Qed.
Lemma pt_PDE : all_hold 0x72000 PDE 2048 = true.
Proof. vm_compute. reflexivity. Qed.

Lemma holds_lookup words base entry n i :
  forallb (pt_holds words base entry) (seq 0 n) = true → 0 ≤ i < Z.of_nat n → words !! (base + 8 * i) = Some (le_split 8 (entry i)).
Proof.
  intros H Hi. rewrite forallb_forall in H. specialize (H (Z.to_nat i)). unfold pt_holds in H. rewrite Z2Nat.id in H by lia.
  apply bool_decide_eq_true in H; [exact H|]. apply in_seq. lia.
Qed.
Lemma all_hold_lookup base entry n i :
  all_hold base entry n = true → 0 ≤ i < Z.of_nat n → words_of pt_log !! (base + 8 * i) = Some (le_split 8 (entry i)).
Proof. exact (holds_lookup (words_of pt_log) base entry n i). Qed.

Lemma pt_log_blobs : Forall word_blob pt_log ∧ within 0x70000 0x76000 pt_log.
Proof.
  pose proof pt_blobs as H. rewrite forallb_forall in H. unfold within. rewrite <-Forall_and. apply Forall_forall. intros [a l] Hw.
  apply list_elem_of_In, H in Hw. unfold table_blob in Hw. cbn [fst snd] in *. rewrite !andb_true_iff, Nat.eqb_eq, Z.eqb_eq, !Z.leb_le in Hw.
  unfold word_blob. cbn. lia.
Qed.

(** The words of the tables, after any writes before them and after writes
    that keep out of them. *)
Definition word_in (f : Z → Z) (a : Z) : Z := le_combine (bytes_at f a 8).

Lemma pt_word f log1 log2 a v :
  avoids 0x70000 0x76000 log2 → words_of pt_log !! a = Some (le_split 8 v) → in_width 64 v → 0x70000 ≤ a → a + 8 ≤ 0x76000 → a mod 8 = 0 →
  word_in (image f (log1 ++ pt_log ++ log2)) a = v.
Proof.
  intros Hav Hw Hv H1 H2 Ha. unfold word_in. rewrite !image_app, bytes_at_avoids.
  - rewrite (image_words _ pt_log a _ (proj1 pt_log_blobs) Ha Hw), le_combine_split. by apply Z.mod_small.
  - eapply Forall_impl; [exact Hav|]. cbn. lia.
Qed.

Opaque pt_log.

(** An address below 4 GB: the indices into the tables. *)
Lemma low_indices va : 0 ≤ va < 2 ^ 32 →
  bits va 47 39 = 0 ∧ bits va 38 30 = va / 2 ^ 30 ∧ bits va 29 21 = (va / 2 ^ 21) mod 512 ∧ Z.land va (Z.lnot (2 ^ 21 - 1)) = va / 2 ^ 21 * 2 ^ 21.
Proof.
  intros H. assert (∀ hi lo, 0 ≤ lo ≤ hi → hi < 64 → bits va hi lo = (va / 2 ^ lo) mod 2 ^ (hi - lo + 1)) as Hb.
  { intros hi lo Hh Hl. unfold bits. rewrite mask_ones by lia. rewrite Z.land_ones, Z.shiftr_div_pow2 by lia. done. }
  rewrite !Hb by lia. split; [|split; [|split]].
  - rewrite Z.div_small by lia. done.
  - apply Z.mod_small. split; [apply Z.div_pos; lia|]. apply Z.div_lt_upper_bound; lia.
  - done.
  - replace (2 ^ 21 - 1) with (Z.ones 21) by done. rewrite <-Z.ldiff_land, Z.ldiff_ones_r by lia. by rewrite Z.shiftr_div_pow2, Z.shiftl_mul_pow2 by lia.
Qed.

Lemma PDE_fields : forallb (λ i, let v := PDE (Z.of_nat i) in
  (Z.land v (Z.shiftl (Z.ones 31) 21) =? Z.of_nat i * 2 ^ 21) && PTE_p v && negb (PTE_nx v) && PTE_ps v && PTE_w v && PTE_u v && (0 <=? v) && (v <? 2 ^ 64)) (seq 0 2048) = true.
Proof. vm_compute. reflexivity. Qed.

(** A memory with these tables maps the first 4 GB to themselves. *)
Record identity_tables (word : Z → Z) : Prop := {
  it_PML4E : word 0x70000 = PML4E;
  it_PDPE j : 0 ≤ j < 4 → word (0x71000 + 8 * j) = PDPE j;
  it_PDE i : 0 ≤ i < 2048 → word (0x72000 + 8 * i) = PDE i
}.

Lemma PDPE_fields j : 0 ≤ j < 4 → table_of (PDPE j) = 0x72000 + 0x1000 * j ∧ PTE_p (PDPE j) = true ∧ PTE_nx (PDPE j) = false ∧
  PTE_w (PDPE j) = true ∧ PTE_u (PDPE j) = true ∧ in_width 64 (PDPE j).
Proof.
  intros Hj. assert (j = 0 ∨ j = 1 ∨ j = 2 ∨ j = 3) as H by lia.
  repeat destruct H as [->|H]; [..|subst j]; repeat split; try reflexivity; discriminate.
Qed.
Lemma PDE_field i : 0 ≤ i < 2048 → Z.land (PDE i) (Z.shiftl (Z.ones 31) 21) = i * 2 ^ 21 ∧ PTE_p (PDE i) = true ∧ PTE_nx (PDE i) = false ∧
  PTE_ps (PDE i) = true ∧ PTE_w (PDE i) = true ∧ PTE_u (PDE i) = true ∧ in_width 64 (PDE i).
Proof.
  intros Hi. pose proof PDE_fields as H. rewrite forallb_forall in H. specialize (H (Z.to_nat i)). rewrite Z2Nat.id in H by lia. cbv zeta in H.
  rewrite !andb_true_iff, negb_true_iff, Z.eqb_eq, Z.leb_le, Z.ltb_lt in H. unfold in_width. destruct H as [[[[[[[H1 H2] H3] H4] H5] H6] H7] H8]; [apply in_seq; lia|]. tauto.
Qed.

Lemma identity_walk word fetch va :
  identity_tables word → 0 ≤ va < 2 ^ 32 →
  long_path word fetch PageMapLevel4 va = [0x70000; 0x71000 + 8 * (va / 2 ^ 30); 0x72000 + 8 * (va / 2 ^ 21)] ∧
  long_mapping word fetch PageMapLevel4 va = Some (mkMapping (va / 2 ^ 21 * 2 ^ 21) 21 true true).
Proof.
  intros [T4 T3 T2] Hva. destruct (low_indices va Hva) as (I4 & I3 & I2 & _).
  assert (0 ≤ va / 2 ^ 30 < 4) as Hj by (split; [apply Z.div_pos; lia|apply Z.div_lt_upper_bound; lia]).
  assert (0 ≤ va / 2 ^ 21 < 2048) as Hi by (split; [apply Z.div_pos; lia|apply Z.div_lt_upper_bound; lia]).
  destruct (PDPE_fields _ Hj) as (B3 & P3 & N3 & W3 & U3 & _). destruct (PDE_field _ Hi) as (F2 & P2 & N2 & S2 & W2 & U2 & _).
  assert (long_path word fetch PageMapLevel4 va = [0x70000; 0x71000 + 8 * (va / 2 ^ 30); 0x72000 + 8 * (va / 2 ^ 21)]) as Hp.
  { unfold long_path. cbv zeta. rewrite I4. change (slot (table_of PageMapLevel4) 0) with 0x70000. rewrite T4.
    assert (passes fetch PML4E = true) as -> by (by destruct fetch). cbn [negb].
    replace (slot (table_of PML4E) (bits va 38 30)) with (0x71000 + 8 * (va / 2 ^ 30)) by (rewrite I3; change (table_of PML4E) with 0x71000; unfold slot; lia).
    rewrite T3 by done. assert (passes fetch (PDPE (va / 2 ^ 30)) = true) as -> by (unfold passes; rewrite P3, N3; by destruct fetch). cbn [negb].
    replace (slot (table_of (PDPE (va / 2 ^ 30))) (bits va 29 21)) with (0x72000 + 8 * (va / 2 ^ 21)).
    { rewrite T2 by done. by rewrite S2, orb_true_r. }
    rewrite B3, I2. unfold slot. change (2 ^ 30) with (2 ^ 21 * 512). rewrite <-Z.div_div by lia. pose proof (Z.div_mod (va / 2 ^ 21) 512). lia. }
  split; [exact Hp|]. unfold long_mapping. rewrite Hp. cbn [fmap list_fmap forallb length Nat.eqb last default]. rewrite T4, T3, T2 by done.
  assert (passes fetch PML4E && (passes fetch (PDPE (va / 2 ^ 30)) && (passes fetch (PDE (va / 2 ^ 21)) && true)) = true) as ->.
  { unfold passes. rewrite P3, N3, P2, N2. by destruct fetch. }
  unfold id. rewrite F2, W3, U3, W2, U2. reflexivity.
Qed.

(** ** The other writes *)

(** A section with its bytes, inside the memory of the domain. *)
Definition section_in (hi addrMask offset : Z) (sec : ObjSection) : Prop :=
  0 ≤ sec_size sec ∧ (sec_size sec = 0 ∨
    ((∀ l, sec_fileImage sec = Some l → sec_size sec ≤ Z.of_nat (length l)) ∧
     wrap 64 (Z.land (sec_baseAddr sec) addrMask + offset) + sec_size sec ≤ hi)).

Lemma writes_put_wrap a bytes : writes (put (wrap 64 a) bytes) [(wrap 64 a, bytes)] ().
Proof. apply writes_put. unfold in_width. apply wrap_range. lia. Qed.

Lemma loadSection_writes hi addrMask offset sec :
  section_in hi addrMask offset sec → ∃ log, writes (loadSection sec addrMask offset) log () ∧ within 0 hi log.
Proof.
  intros [H0 Hs]. unfold loadSection. destruct (Z.eqb_spec (sec_size sec) 0); [exists []; split; [done|apply Forall_nil_2]|].
  destruct Hs as [Hs|[Hi Hhi]]; [done|]. set (a := wrap 64 _) in *. assert (0 ≤ a) as Ha by (apply wrap_range; lia).
  destruct (sec_fileImage sec) as [l|].
  - specialize (Hi l eq_refl). rewrite decide_True by lia. eexists. split; [apply writes_put_wrap|]. apply Forall_singleton. cbn [fst snd]. fold a.
    rewrite length_take. lia.
  - eexists. split; [apply writes_put_wrap|]. apply Forall_singleton. cbn [fst snd]. fold a. rewrite length_replicate. lia.
Qed.

Lemma loadSections_writes hi o addrMask offset :
  Forall (section_in hi addrMask offset) [of_text o; of_data o; of_bss o] →
  ∃ log, writes (loadSections o addrMask offset) log () ∧ within 0 hi log.
Proof.
  intros (H1 & H)%Forall_cons. apply Forall_cons in H as [H2 H]. apply Forall_cons in H as [H3 _].
  apply loadSection_writes in H1 as (l1 & W1 & I1). apply loadSection_writes in H2 as (l2 & W2 & I2). apply loadSection_writes in H3 as (l3 & W3 & I3).
  exists (l1 ++ l2 ++ l3). split; [|by rewrite !within_app]. unfold loadSections. eapply writes_bind; [exact W1|]. by eapply writes_bind.
Qed.

(** Tables that fit the BIOS area from 0xF0000. *)
Definition mp_position (sm : SMBiosTable) : Z := roundUp (0xF001F + Z.of_nat (length (sm_structs (sm_structures sm)))) 16.
Record bios_ok (sm : SMBiosTable) (fp : FloatingPointer) (ct : ConfigTable) : Prop := {
  bo_smbios : sm_ok (sm_setTableAddr sm 0xF001F);
  bo_pointer : fp_ok (fp_setTableAddr fp (mp_position sm + 0x10));
  bo_table : ct_ok ct;
  bo_size : mp_position sm + 0x10 + mp_base_size ct + mp_ext_size ct ≤ 0x100000
}.

Lemma smbios_writes sm :
  sm_ok (sm_setTableAddr sm 0xF001F) → let size := Z.of_nat (length (sm_structs (sm_structures sm))) in
  ∃ log, writes (writeOutSMBiosTable sm 0xF0000 0) log (sm_setTableAddr sm 0xF001F, 0x1F, size) ∧ within 0xF0000 (0xF001F + size) log.
Proof.
  intros Hok size. destruct (sm_writes _ 0xF0000 Hok) as (l & W & I & _); [lia|lia|]. cbn [sm_structures sm_setTableAddr] in W, I. fold size in W, I.
  change (sm_tableAddr (sm_setTableAddr sm 0xF001F)) with 0xF001F in I. exists (sm_log 0xF0000 (sm_setTableAddr sm 0xF001F) l). split.
  - unfold writeOutSMBiosTable. change (wrap 64 (0xF0000 + 0x1F)) with 0xF001F. cbn [Z.eqb]. cbv zeta. rewrite <-(app_nil_r (sm_log _ _ _)).
    eapply writes_bind; [exact W|]. reflexivity.
  - unfold sm_log. apply within_app. split; [solve_within|]. apply within_app. split; [eapply within_mono; [exact I|lia|lia]|solve_within].
Qed.

Lemma mp_writes fp ct p :
  fp_ok (fp_setTableAddr fp (p + 0x10)) → ct_ok ct → 0 ≤ p → p + 0x10 + mp_base_size ct + mp_ext_size ct ≤ 0x100000 → 0 ≤ mp_base_size ct + mp_ext_size ct →
  ∃ log r, writes (writeOutMPTable fp (Some ct) p 0) log (fp_setTableAddr fp (p + 0x10), 16, r) ∧ within p 0x100000 log.
Proof.
  intros Hf Hc Hp Hs Hn. destruct (fills_fp _ p Hf Hp) as (l1 & W1 & I1 & _); [lia|]. destruct (fills_table ct (p + 0x10) Hc) as (l2 & W2 & I2 & _); [lia|lia|].
  assert (length (fp_bytes (fp_setTableAddr fp (p + 0x10))) = 16%nat) as L1 by (unfold fp_bytes, fp_pieces; cbn [concat]; rewrite !length_app, !length_le_split; done).
  assert (Z.of_nat (length (mp_table (p + 0x10) ct)) = mp_base_size ct + mp_ext_size ct) as L2.
  { unfold mp_table. rewrite !length_app, length_mp_header. pose proof (length_mp_base ct). pose proof (length_mp_ext (p + 0x10) ct). lia. }
  exists (l1 ++ l2), (mp_base_size ct + mp_ext_size ct). split.
  - unfold writeOutMPTable. cbn [Z.eqb]. rewrite (wrap_small 64 (p + 0x10)) by (unfold in_width; lia). cbv zeta. eapply writes_bind; [exact W1|].
    rewrite <-(app_nil_r l2). eapply writes_bind; [exact W2|]. rewrite (wrap_small 64 (p + 16)), (wrap_small 64) by (unfold in_width; lia).
    rewrite (proj2 (Z.leb_le (p + 16) (p + 16))), orb_true_r, (proj2 (Z.ltb_lt p (p + 16))) by lia. reflexivity.
  - apply within_app. split; (eapply within_mono; [eassumption|lia|lia]).
Qed.

(** The boot fills in the addresses of the tables and nothing else of the domain. *)
Definition same_domain (ld ld' : PARDg5VLDomain) : Prop :=
  ld_domID ld' = ld_domID ld ∧ ld_physProxy ld' = ld_physProxy ld ∧ ld_kernel ld' = ld_kernel ld.

Lemma bios_tables_writes ld ct :
  ld_mpConfigTable ld = Some ct → bios_ok (ld_smbiosTable ld) (ld_mpFloatingPointer ld) ct →
  ∃ log ld', writes (bios_tables ld) log ld' ∧ within 0xF0000 0x100000 log ∧ ld_commandLine ld' = ld_commandLine ld ∧ ld_e820Table ld' = ld_e820Table ld ∧ same_domain ld ld'.
Proof.
  intros Hct [H1 H2 H3 H4]. destruct (smbios_writes _ H1) as (l1 & W1 & I1). cbv zeta in *. set (size := Z.of_nat _) in *.
  assert (0 ≤ mp_base_size ct ∧ 0 ≤ mp_ext_size ct) as [? ?] by (unfold mp_base_size, mp_ext_size; lia).
  assert (size < 2 ^ 16) as Hsz by (apply (smo_size _ H1)).
  assert (0xF001F + size ≤ mp_position (ld_smbiosTable ld)) as Hpos.
  { unfold mp_position. fold size. unfold roundUp. cbv zeta. change (wrap 64 (16 - 1)) with (Z.ones 4). rewrite wrap_small by (unfold in_width; change (Z.ones 4) with 15; lia).
    rewrite <-Z.ldiff_land, Z.ldiff_ones_r, Z.shiftr_div_pow2, Z.shiftl_mul_pow2 by lia. change (Z.ones 4) with 15. change (2 ^ 4) with 16.
    pose proof (Z.div_mod (0xF001F + size + 15) 16). pose proof (Z.mod_pos_bound (0xF001F + size + 15) 16). lia. }
  destruct (mp_writes (ld_mpFloatingPointer ld) ct (mp_position (ld_smbiosTable ld)) H2 H3) as (l2 & r & W2 & I2); [lia|lia|lia|].
  eexists (l1 ++ l2), _. split; [|split; [apply within_app; split; (eapply within_mono; [eassumption|lia|lia])|]].
  - unfold bios_tables. cbv zeta. eapply writes_bind; [exact W1|]. rewrite Hct.
    replace (wrap 64 (0xF0000 + (0x1F + size))) with (0xF001F + size) by (rewrite wrap_small by (unfold in_width; lia); lia).
    rewrite <-(app_nil_r l2). eapply writes_bind; [exact W2|]. reflexivity.
  - by repeat split.
Qed.

Lemma prepareLinuxEnv_writes ld tc :
  (length (ld_commandLine ld) < 512)%nat → (length (ld_e820Table ld) ≤ 128)%nat →
  ∃ log, writes (prepareLinuxEnv ld tc) log (let f := tc_intRegs tc in tc <| tc_intRegs := λ i, if i =? INTREG_RSI then realModeData else f i |>) ∧
    within 0x90000 0x91000 log.
Proof.
  intros Hc He. destruct (e820_writes (ld_e820Table ld) (realModeData + 0x1e8) (realModeData + 0x2d0) He) as (l & W & I & _); [unfold in_width, realModeData; lia|unfold realModeData; lia..|].
  eexists. split.
  - unfold prepareLinuxEnv. cbv zeta. eapply writes_bind; [apply writes_lift; rewrite (proj2 (Z.ltb_ge _ _)) by (unfold realModeData, commandLineBuff; lia); reflexivity|].
    put_step. put_step. eapply writes_bind; [exact W|]. apply writes_ret.
  - unfold realModeData, commandLineBuff in *. cbn [app]. repeat first [apply Forall_nil_2|apply Forall_cons_2]; cbn [fst snd]; rewrite ?length_app, ?length_le_split; cbn [length]; try lia.
    rewrite app_nil_r. eapply within_mono; [exact I|lia|lia].
Qed.

(** ** The whole boot *)

(** A domain whose kernel and tables fit memory below [hi]. *)
Record bootable (hi : Z) (ld : PARDg5VLDomain) : Prop := {
  bt_hi : 0x100000 ≤ hi < 2 ^ 31;
  bt_kernel : ∃ k, ld_kernel ld = Some k ∧ of_arch k ≠ I386 ∧
    Forall (section_in hi (ld_loadAddrMask ld) (ld_loadAddrOffset ld)) [of_text k; of_data k; of_bss k];
  bt_commandLine : (length (ld_commandLine ld) < 512)%nat;
  bt_e820 : (length (ld_e820Table ld) ≤ 128)%nat;
  bt_bios : ∃ ct, ld_mpConfigTable ld = Some ct ∧ bios_ok (ld_smbiosTable ld) (ld_mpFloatingPointer ld) ct
}.

(** The state a thread starts its kernel in. *)
Record kernel_started (ld : PARDg5VLDomain) (tc : ThreadContext) : Prop := {
  ks_long : in_long_mode tc;
  ks_domain : reg tc MISCREG_QR0 = ld_domID ld;
  ks_pc : tc_pcState tc = PCState_make (ld_kernelEntry ld);
  ks_rsi : tc_intRegs tc INTREG_RSI = realModeData
}.

Lemma kept_in_long_mode l tc tc' :
  in_long_mode tc → regs_kept l tc tc' → MISCREG_EFER ∉ l → MISCREG_RFLAGS ∉ l →
  (∀ i, i ∈ [MISCREG_CR0; MISCREG_CR3; MISCREG_CR4; MISCREG_EFER; MISCREG_CS_ATTR] → Forall (λ r, i ∉ touched r) l) → in_long_mode tc'.
Proof.
  intros [L1 L2 L3 L4 L5 L6 L7 L8 L9] [K1 K2 K3 K4 _ _ K5 K6 K7] He Hr Hk.
  assert (Forall (λ i, reg tc' i = reg tc i) [MISCREG_CR0; MISCREG_CR3; MISCREG_CR4; MISCREG_EFER; MISCREG_CS_ATTR]) as Hs
    by (apply Forall_forall; intros i Hi; apply K2, Hk, Hi).
  rewrite !Forall_cons in Hs. destruct Hs as (E0 & E3 & E4 & Ef & Ec & _).
  split; rewrite ?E0, ?E3, ?E4, ?Ef, ?Ec; try assumption; [exact (K7 He Hr L7)|intros i e Hu; exact (L8 i e (K5 i e Hu))|intros i e Hu; exact (L9 i e (K6 i e Hu))].
Qed.

Lemma long_mode_intRegs tc f : in_long_mode tc → in_long_mode (tc <| tc_intRegs := f |>).
Proof. intros [L1 L2 L3 L4 L5 L6 L7 L8 L9]. split; assumption. Qed.

Definition mtrr_regs : list Z := [MISCREG_MTRR_PHYS_BASE 0; MISCREG_MTRR_PHYS_MASK 0; MISCREG_MTRR_PHYS_BASE 1; MISCREG_MTRR_PHYS_MASK 1].
Lemma set_mtrrs_kept tc : tlbs_wf tc → ∃ tc', set_mtrrs tc = Ok tc' ∧ regs_kept mtrr_regs tc tc'.
Proof. intros H. unfold set_mtrrs. match goal with |- context [set_regs _ ?l] => destruct (set_regs_kept l tc H) as (tc' & H1 & H2); [writables|] end. by exists tc'. Qed.

Lemma initBSPState_spec hi ld tc :
  bootable hi ld → tlbs_wf tc →
  ∃ l1 l2 ld' tc', writes (initBSPState ld tc) (l1 ++ pt_log ++ l2) (ld', tc') ∧ within 0 hi (l1 ++ pt_log ++ l2) ∧
    avoids 0x70000 0x76000 l2 ∧ kernel_started ld tc' ∧ same_size tc tc' ∧ same_domain ld ld'.
Proof.
  intros [Bh (k & Bk & Ba & Bs) Bc Be (ct & Bct & Bb)] Hwf.
  destruct (setMiscReg_kept tc MISCREG_QR0 (ld_domID ld) Hwf eq_refl) as (tc1 & H1 & K1).
  destruct (loadSections_writes hi k _ _ Bs) as (l1 & W1 & I1).
  destruct (setup_gdt_writes tc1 (rk_tlbs _ _ _ K1)) as (tc2 & W2 & K2).
  destruct (enter_long_mode_spec tc2 (ld_kernelEntry ld) (rk_tlbs _ _ _ K2)) as (tc3 & H3 & L3 & Q3 & P3 & R3).
  destruct (bios_tables_writes ld ct Bct Bb) as (l4 & ld' & W4 & I4 & C4 & E4 & D4).
  destruct (set_mtrrs_kept tc3 (lm_tlbs _ L3)) as (tc5 & H5 & K5).
  destruct (prepareLinuxEnv_writes ld' tc5) as (l6 & W6 & I6); [by rewrite C4|by rewrite E4|].
  exists (l1 ++ gdt_log), (l4 ++ l6), ld'. eexists. split; [|split; [|split; [|split; [|split; [|exact D4]]]]].
  - assert ((l1 ++ gdt_log) ++ pt_log ++ l4 ++ l6 = [] ++ [] ++ l1 ++ [] ++ gdt_log ++ pt_log ++ [] ++ l4 ++ [] ++ l6 ++ []) as ->
      by (rewrite !app_nil_l, app_nil_r, <-!app_assoc; reflexivity).
    unfold initBSPState. eapply writes_bind; [apply writes_lift; exact H1|]. rewrite Bk. eapply writes_bind; [by apply writes_lift|].
    eapply writes_bind; [exact W1|]. eapply writes_bind; [apply writes_lift; by rewrite bool_decide_eq_false_2|]. eapply writes_bind; [exact W2|].
    eapply writes_bind; [exact page_tables_writes|]. eapply writes_bind; [apply writes_lift; exact H3|]. eapply writes_bind; [exact W4|].
    eapply writes_bind; [apply writes_lift; exact H5|]. eapply writes_bind; [exact W6|]. apply writes_ret.
  - rewrite !within_app. split; [split; [exact I1|]|split; [|split]].
    + repeat first [apply Forall_nil_2|apply Forall_cons_2]; cbn [fst snd]; rewrite length_le_split; unfold GDTBase; lia.
    + eapply within_mono; [apply pt_log_blobs|lia|lia].
    + eapply within_mono; [exact I4|lia|lia].
    + eapply within_mono; [exact I6|lia|lia].
  - apply avoids_app. split; (eapply within_avoids; [eassumption|lia]).
  - split.
    + apply long_mode_intRegs. eapply (kept_in_long_mode mtrr_regs tc3); [exact L3|exact K5| | |].
      * refine (bool_decide_unpack _ _). vm_compute. exact I.
      * refine (bool_decide_unpack _ _). vm_compute. exact I.
      * intros i Hi. repeat (apply elem_of_cons in Hi as [->|Hi]; [refine (bool_decide_unpack _ _); vm_compute; exact I|]).
        destruct (proj1 (elem_of_nil _) Hi).
    + change (reg tc5 MISCREG_QR0 = ld_domID ld). transitivity (reg tc3 MISCREG_QR0); [keeps_reg K5|]. rewrite Q3, <-(QR0_value _ _ _ H1). keeps_reg K2.
    + change (tc_pcState tc5 = PCState_make (ld_kernelEntry ld)). by rewrite (rk_pcState _ _ _ K5).
    + reflexivity.
  - eapply same_size_trans; [exact (kept_size _ _ _ (regs_kept_trans _ _ _ _ _ K1 K2))|]. eapply same_size_trans; [exact R3|]. exact (kept_size _ _ _ K5).
Qed.

(** ** Through the mapper into physical memory *)

Section Booted.

Context (am : AddrMapper) (start line n masters : Z).
Hypothesis Hline : isPowerOf2 line = true ∧ 0 < line < 2 ^ 31 ∧ (8 | line).
Hypothesis Hwf : tlb_wf (am_tlb am).
Hypothesis Hal : line_aligned line (am_tlb am).
Hypothesis Hmem : 0 ≤ start ∧ start + n ≤ 2 ^ 64.

(** The domain [g] has the memory below [hi]. *)
Definition owns (g hi : Z) : Prop := ∀ x, 0 ≤ x < hi → domain_reach am start n g x.

Lemma within_reachable g hi pp log :
  QOSTAG_TO_GUESTID (pp_tag pp) = g → owns g hi → hi < 2 ^ 31 → within 0 hi log → reachable (domain_reach am start n) pp log.
Proof using.
  clear. intros Hg Ho Hh Hw. eapply Forall_impl; [exact Hw|]. intros [a l] [H1 H2]. cbn [fst snd] in *. unfold blob_region.
  split; [unfold in_width; lia|]. split; [lia|]. split; [lia|]. intros x Hx. rewrite Hg. apply Ho. lia.
Qed.

(** The tables the boot leaves in the memory of the domain. *)
Lemma booted_tables byte l1 l2 f :
  avoids 0x70000 0x76000 l2 → (∀ x, 0x70000 ≤ x < 0x76000 → byte x = image f (l1 ++ pt_log ++ l2) x) →
  identity_tables (λ a, le_combine (byte <$> addr_range a 8)).
Proof using.
  clear. intros Hav Hb.
  assert (∀ a v, words_of pt_log !! a = Some (le_split 8 v) → in_width 64 v → 0x70000 ≤ a → a + 8 ≤ 0x76000 → a mod 8 = 0 →
    le_combine (byte <$> addr_range a 8) = v) as Hw.
  { intros a v H1 H2 H3 H4 H5. rewrite <-(pt_word f l1 l2 a v Hav H1 H2 H3 H4 H5). unfold word_in, bytes_at. f_equal.
    apply list_fmap_ext. intros k x Hx%list_elem_of_lookup_2%elem_of_addr_range. apply Hb. lia. }
  assert (∀ b k, b mod 8 = 0 → (b + 8 * k) mod 8 = 0) as Hmod by (intros b k H; rewrite Z.mul_comm, Z.mod_add by lia; exact H).
  split.
  - apply Hw; [exact (all_hold_lookup 0x70000 (λ _, PML4E) 1 0 pt_PML4E ltac:(lia))|unfold in_width, PML4E; lia|lia|lia|reflexivity].
  - intros j Hj. apply Hw; [exact (all_hold_lookup 0x71000 PDPE 4 j pt_PDPE ltac:(lia))|apply (PDPE_fields j Hj)|lia|lia|by apply Hmod].
  - intros i Hi. apply Hw; [exact (all_hold_lookup 0x72000 PDE 2048 i pt_PDE ltac:(lia))|apply (PDE_field i Hi)|lia|lia|by apply Hmod].
Qed.

End Booted.

(** ** Properties *)

(** C4: a domain boots into its own memory and nobody else's.  From any state
    of the thread and of the memory, for a domain whose kernel and tables fit
    memory that its entries of the address mapper give it: the boot completes;
    all its writes go through, none changes a byte of another domain; the
    thread is left in 64-bit mode at the kernel's entry, with the number of the
    domain in its QoS register, the boot parameters in [RSI] and empty TLBs;
    and every address below 4 GB then walks, through the tables the boot wrote,
    to the same address of the domain, in a writable 2 MB page. *)
Theorem boot_identity_map (am : AddrMapper) (mem : AbstractMemory) (start line n masters latency masterId hi : Z)
    (ld : PARDg5VLDomain) (tc : ThreadContext) (entry : TlbEntry) :
  isPowerOf2 line = true → 0 < line < 2 ^ 31 → (8 | line) → tlb_wf (am_tlb am) → line_aligned line (am_tlb am) →
  0 ≤ start ∧ start + n ≤ 2 ^ 64 → system_ok am start n masters (am, mem) → 0 ≤ masterId < masters →
  bootable hi ld → 0 ≤ ld_domID ld < 4 → ld_physProxy ld = mkPortProxy line (ld_domID ld) → owns am start n (ld_domID ld) hi →
  tlbs_wf tc → tlb_entries (tc_itb tc) ≠ [] → tlb_entries (tc_dtb tc) ≠ [] →
  ∃ log ld' tc' pmem', writes (initBSPState ld tc) log (ld', tc') ∧
    perform (mapped_access am start) (ld_physProxy ld) (mem_data mem) log = Ok pmem' ∧
    (∀ d x, domain_reach am start n d x → d ≠ ld_domID ld → domain_byte am start pmem' d x = domain_byte am start (mem_data mem) d x) ∧
    kernel_started ld tc' ∧
    ∀ va mode tlb, 0 ≤ va < 2 ^ 32 → tlb = tc_itb tc' ∨ tlb = tc_dtb tc' →
      ∃ st' tlb' i e, start_atomic masterId tc' (mapped_atomic latency) (am, mem <| mem_data := pmem' |>) tlb entry va mode = Ok (st', tlb', None) ∧
        in_use tlb' i e ∧ in_page e va ∧ maps_to va (mkMapping (va / 2 ^ 21 * 2 ^ 21) 21 true true) e.
Proof.
  intros Hpow Hl H8 Hwf Hal Hmem Hsys Hmid Hboot Hdom Hpp Hown Htlbs Hni Hnd.
  destruct (initBSPState_spec hi ld tc Hboot Htlbs) as (l1 & l2 & ld' & tc' & W & I & Hav & K & [Si Sd] & _).
  pose proof (bt_hi _ _ Hboot) as Hhi.
  assert (QOSTAG_TO_GUESTID (ld_domID ld) = ld_domID ld) as Hg.
  { assert (ld_domID ld = 0 ∨ ld_domID ld = 1 ∨ ld_domID ld = 2 ∨ ld_domID ld = 3) as Hc by lia. by repeat destruct Hc as [->|Hc]; [..|rewrite Hc]. }
  pose proof (mapped_memory am start line n (proj1 Hl) Hwf Hal Hmem) as FM.
  destruct (perform_spec (mapped_access am start) line (domain_byte am start) (domain_reach am start n) (full_memory n) (ld_physProxy ld)
    ltac:(by rewrite Hpp) ltac:(rewrite Hpp; cbn; lia) (l1 ++ pt_log ++ l2) (mem_data mem)) as (pmem' & P & Hf & Hb).
  { apply (so_full _ _ _ _ (so_memory _ _ _ _ _ Hsys)). }
  { eapply within_reachable; [rewrite Hpp; exact Hg|exact Hown|lia|exact I]. }
  rewrite Hpp in Hb. cbn [pp_tag] in Hb. rewrite Hg in Hb.
  exists (l1 ++ pt_log ++ l2), ld', tc', pmem'. split; [exact W|]. split; [exact P|]. split; [intros d x Hx Hd; rewrite Hb by done; by rewrite decide_False|].
  split; [exact K|]. intros va mode tlb Hva Htlb.
  assert (walk_domain tc' = ld_domID ld) as Hwd by (unfold walk_domain; rewrite (ks_domain _ _ K); exact Hg).
  pose proof (mapped_atomic_memory am start line n masters latency (proj1 Hl) Hwf Hal Hmem) as AM.
  set (word := word_at (system_byte am start) tc' (am, mem <| mem_data := pmem' |>)).
  assert (identity_tables word) as Ht.
  { apply (booted_tables (system_byte am start (am, mem <| mem_data := pmem' |>) (walk_domain tc')) l1 l2 (domain_byte am start (mem_data mem) (ld_domID ld)) Hav).
    intros x Hx. rewrite Hwd. transitivity (domain_byte am start pmem' (ld_domID ld) x); [reflexivity|]. rewrite Hb by (apply Hown; lia). by rewrite decide_True. }
  set (fetch := bool_decide (mode = Mode_Execute) && Efer_nxe (reg tc' MISCREG_EFER)).
  destruct (identity_walk word fetch va Ht Hva) as [Hpath Hmap].
  destruct (long_walk line (mapped_atomic latency) (system_byte am start) (domain_reach am start n) (system_ok am start n masters) (plain_request masters)
    masterId tc' (conj (proj1 Hl) H8)) with (va := va) (mode := mode) (m := (am, mem <| mem_data := pmem' |>)) (tlb := tlb) (entry := entry)
    as (st' & _ & _ & Hw).
  { intros p P1 P2 P3 P4. split; [done|by rewrite P3|rewrite P2, Hwd; lia|done]. }
  { apply (lm_EFER _ (ks_long _ _ K)). }
  { destruct Hsys as [S1 S2 [S3 S4 S5]]. split; [done|done|]. split; [done|done|done]. }
  { fold fetch word. rewrite (lm_CR3 _ (ks_long _ _ K)), Hpath. intros a Ha.
    assert (0x70000 ≤ a ∧ a + 8 ≤ 0x76000 ∧ (8 | a)) as (A1 & A2 & A3).
    { assert (0 ≤ va / 2 ^ 30 < 4) by (split; [apply Z.div_pos; lia|apply Z.div_lt_upper_bound; lia]).
      assert (0 ≤ va / 2 ^ 21 < 2048) by (split; [apply Z.div_pos; lia|apply Z.div_lt_upper_bound; lia]).
      rewrite !elem_of_cons in Ha. destruct Ha as [->|[->|[->|[]%elem_of_nil]]]; (split; [lia|split; [lia|]]).
      - by exists 0xE000. - exists (0xE200 + va / 2 ^ 30). lia. - exists (0xE400 + va / 2 ^ 21). lia. }
    split; [exact A3|]. split; [lia|]. split; [lia|]. intros x Hx. rewrite Hwd. apply Hown. lia. }
  fold fetch word in Hw. rewrite (lm_CR3 _ (ks_long _ _ K)), Hmap in Hw. destruct Hw as (e & He & ->).
  assert (∃ tm, tlb_inv tlb tm) as [tm Hinv] by (destruct (lm_tlbs _ (ks_long _ _ K)); by destruct Htlb as [-> | ->]).
  assert (tlb_entries tlb ≠ []) as Hne.
  { rewrite <-length_zero_iff_nil in *. destruct Htlb as [-> | ->]; [by rewrite Si|by rewrite Sd]. }
  destruct (insert_mapped tlb tm va _ e Hinv Hne ltac:(unfold in_width; lia) He ltac:(by left)) as (tlb' & tm' & i & e' & Hi & _ & U & Me & Pe).
  { intros j x Hu. exfalso. destruct Htlb as [-> | ->]; [exact (lm_itb _ (ks_long _ _ K) j x Hu)|exact (lm_dtb _ (ks_long _ _ K) j x Hu)]. }
  rewrite Hi. by exists st', tlb', i, e'.
Qed.

(** ** Domains made at run time *)

(** The system's list: as many domains as are counted, none missing, and each
    knows its place. *)
Definition domains_wf (sys : X86PARDg5VSystem) : Prop :=
  sys_numDomains sys = Z.of_nat (length (sys_domains sys)) ∧ Z.of_nat (length (sys_domains sys)) < 2 ^ 16 ∧
  ∀ i d, sys_domains sys !! i = Some d → ∃ ld, d = Some ld ∧ ld_domID ld = Z.of_nat i ∧ pp_tag (ld_physProxy ld) = Z.of_nat i.

Lemma first_free_all l id : (∀ i d, l !! i = Some d → ∃ ld : PARDg5VLDomain, d = Some ld) → first_free l id = (id + length l)%nat.
Proof.
  revert id. induction l as [|d l IH]; intros id H; cbn; [lia|]. destruct (H 0%nat d eq_refl) as (ld & ->).
  rewrite IH; [lia|]. intros i d Hi. exact (H (S i) d Hi).
Qed.

Lemma insert_end (l : list (option PARDg5VLDomain)) (d : option PARDg5VLDomain) : <[length l := d]> (l ++ [None]) = l ++ [d].
Proof. by rewrite insert_app_r_alt, Nat.sub_diag by lia. Qed.

Lemma register_domain_spec sys ld :
  domains_wf sys → let id := Z.of_nat (length (sys_domains sys)) in
  let ld' := ld <| ld_domID := id |> <| ld_physProxy := updateTag (ld_physProxy ld) id |> in
  register_domain sys ld = (sys <| sys_domains := sys_domains sys ++ [Some ld'] |> <| sys_numDomains := id + 1 |>, ld').
Proof.
  intros (Hn & Hb & Hd) id ld'. unfold register_domain, registerPARDg5VLDomain. rewrite (first_free_all (sys_domains sys) 0) by (intros i d Hi; destruct (Hd i d Hi) as (x & -> & _); by exists x).
  rewrite Nat.add_0_l, decide_True by lia. replace (length (sys_domains sys) + 1 - length (sys_domains sys))%nat with 1%nat by lia. cbn [replicate].
  rewrite insert_end. rewrite (wrap_small 16) by (unfold in_width; lia). rewrite Nat2Z.id. fold id. rewrite Hn. fold id. f_equal.
  destruct sys as [ds nd cl ts]. cbn in *. by rewrite insert_app_r_alt, Nat.sub_diag by lia.
Qed.

Lemma registered_wf sys ld :
  domains_wf sys → Z.of_nat (length (sys_domains sys)) + 1 < 2 ^ 16 → domains_wf (register_domain sys ld).1.
Proof.
  intros Hwf Hlen. rewrite register_domain_spec by done. destruct Hwf as (Hn & Hb & Hd). split; [cbn; rewrite length_app; cbn; lia|].
  split; [cbn; rewrite length_app; cbn; lia|]. cbn. intros i d Hi. apply lookup_app_Some in Hi as [Hi|[Hge Hi]]; [by apply Hd|].
  apply list_lookup_singleton_Some in Hi as [Hi <-]. eexists. split; [done|]. cbn. split; lia.
Qed.

Lemma created_tables m :
  ∃ bi sm, createSMBiosBiosInformation = Ok bi ∧ createSMBiosTable [bi] = Ok sm ∧
    bios_ok sm createIntelMPFloatingPointer (createIntelMPConfigTable (base_entries m) [createIntelMPBusHierarchy 0 true 1]).
Proof.
  eexists _, _. split; [reflexivity|]. split; [reflexivity|]. split.
  - split; [by vm_compute| |by vm_compute]. apply Forall_singleton. split; [by left|by vm_compute].
  - split; [by vm_compute..|]. vm_compute. split; [discriminate|]. intros H. destruct (H eq_refl).
  - split; [by vm_compute..| | |by vm_compute].
    + repeat (apply Forall_cons_2; [by vm_compute|]). apply Forall_nil_2.
    + repeat (apply Forall_cons_2; [by vm_compute|]). apply Forall_nil_2.
  - vm_compute. discriminate.
Qed.

Lemma LDomain_make_wf sys k m memsize sys' ld :
  domains_wf sys → Z.of_nat (length (sys_domains sys)) + 1 < 2 ^ 16 → LDomain_make sys k m memsize = Ok (sys', ld) → domains_wf sys'.
Proof.
  intros Hwf Hlen H. destruct (created_tables m) as (bi & sm & E1 & E2 & _). unfold LDomain_make in H. rewrite E1 in H. cbn [mbind result_bind] in H.
  rewrite E2 in H. cbn [mbind result_bind] in H. destruct k as [k|]; [|done]. cbn [mbind result_bind] in H.
  match type of H with Ok ?x = _ => assert (x = (sys', ld)) as Hx by congruence; clear H end.
  match type of Hx with register_domain sys ?y = _ => pose proof (registered_wf sys y Hwf Hlen) as Hr; rewrite Hx in Hr; exact Hr end.
Qed.

(** C30: a new domain gets a number and a view of memory of its own.  Over a
    well-formed list of domains, creating a domain with a kernel succeeds: the
    new domain has the next number, its memory proxy is tagged with it, it is
    found under it, the others stay where they are, and the list is well formed
    again; and whatever bit mask the processor entry of the tables is built with,
    the tables of the new domain fit, so it can boot as soon as its kernel's
    sections fit the memory.  Without a kernel the creation fails, and no
    lookup beyond the number of domains finds one. *)
Theorem created_domain (sys : X86PARDg5VSystem) (kernel : ObjectFile) (m memsize : Z) :
  domains_wf sys → Z.of_nat (length (sys_domains sys)) + 1 < 2 ^ 16 →
  ∃ sys' ld, LDomain_make sys (Some kernel) m memsize = Ok (sys', ld) ∧ domains_wf sys' ∧
    ld_domID ld = sys_numDomains sys ∧ ld_physProxy ld = mkPortProxy (sys_cacheLineSize sys) (ld_domID ld) ∧ ld_kernelEntry ld = of_entry kernel ∧
    getPARDg5VLDomain sys' (ld_domID ld) = Ok (Some ld) ∧
    (∀ id, 0 ≤ id < ld_domID ld → getPARDg5VLDomain sys' id = getPARDg5VLDomain sys id) ∧
    (∀ id, ld_domID ld < id → getPARDg5VLDomain sys' id = Ok None) ∧
    LDomain_make sys None m memsize = Err FatalCalled ∧
    (∀ hi, 0x100000 ≤ hi < 2 ^ 31 → of_arch kernel ≠ I386 → Forall (section_in hi 0xFFFFFFFFFF 0) [of_text kernel; of_data kernel; of_bss kernel] →
      bootable hi ld).
Proof.
  intros Hwf Hlen. pose proof Hwf as (Hn & Hb & Hd). destruct (created_tables m) as (bi & sm & E1 & E2 & Hok). unfold LDomain_make. rewrite E1. cbn [mbind result_bind]. rewrite E2.
  cbn [mbind result_bind]. match goal with |- context [register_domain sys ?x] => set (ld0 := x) end. eexists _, _. split; [by rewrite register_domain_spec|]. cbn [sys_domains sys_numDomains setf]. set (id := Z.of_nat (length (sys_domains sys))) in *.
  match goal with |- context [sys_domains sys ++ [Some ?x]] => set (ld := x) end.
  assert (ld_domID ld = id) as Hid by reflexivity.
  split; [|split; [|split; [reflexivity|split; [reflexivity|split; [|split; [|split; [|split; [reflexivity|]]]]]]]].
  - match goal with |- domains_wf ?x => assert (x = (register_domain sys ld0).1) as -> end; [by rewrite register_domain_spec|by apply registered_wf].
  - by rewrite Hn.
  - unfold getPARDg5VLDomain. cbn [sys_domains sys_numDomains setf]. rewrite Hid, (proj2 (Z.ltb_lt id (id + 1))) by lia.
    unfold id. apply at_Ok. split; [lia|]. rewrite Nat2Z.id. by apply list_lookup_middle.
  - intros k Hk. rewrite Hid in Hk. unfold getPARDg5VLDomain. cbn [sys_domains sys_numDomains setf]. rewrite (proj2 (Z.ltb_lt k (id + 1))), Hn, (proj2 (Z.ltb_lt k id)) by lia.
    destruct (lookup_lt_is_Some_2 (sys_domains sys) (Z.to_nat k)) as [d Hk']; [lia|]. transitivity (Ok d); [|symmetry]; apply at_Ok; (split; [lia|]); [|done].
    by apply lookup_app_l_Some.
  - intros k Hk. rewrite Hid in Hk. unfold getPARDg5VLDomain. cbn [sys_domains sys_numDomains setf]. by rewrite (proj2 (Z.ltb_ge k (id + 1))) by lia.
  - intros hi Hhi Ha Hs. split; [done|by exists kernel|apply Nat.ltb_lt; vm_compute; reflexivity|apply Nat.leb_le; reflexivity|]. eexists. split; [reflexivity|]. exact Hok.
Qed.

(** A kernel of three small sections. *)
Definition demo_kernel : ObjectFile :=
  mkObjectFile (mkObjSection 0x1000 (Some (replicate 16 0x90)) 16) (mkObjSection 0x2000 (Some [1; 2; 3; 4]) 4) (mkObjSection 0x3000 None 32) X86_64 0x1000.
Lemma demo_kernel_in : Forall (section_in 0x100000 0xFFFFFFFFFF 0) [of_text demo_kernel; of_data demo_kernel; of_bss demo_kernel].
Proof.
  repeat (apply Forall_cons_2; [split; [discriminate|right; split; [intros l H; vm_compute in H; try discriminate H; injection H as <-; vm_compute; discriminate|vm_compute; discriminate]]|]).
  apply Forall_nil_2.
Qed.
Lemma created_domain_witness :
  ∃ sys' ld, LDomain_make (mkSystem [] 0 64 []) (Some demo_kernel) 0 0x80000000 = Ok (sys', ld) ∧ ld_domID ld = 0 ∧
    getPARDg5VLDomain sys' 0 = Ok (Some ld) ∧ bootable 0x100000 ld.
Proof.
  destruct (created_domain (mkSystem [] 0 64 []) demo_kernel 0 0x80000000) as (sys' & ld & H1 & _ & H2 & _ & _ & H3 & _ & _ & _ & H4).
  - split; [reflexivity|]. split; [reflexivity|]. intros i d Hi. discriminate Hi.
  - reflexivity.
  - change (ld_domID ld = 0) in H2. exists sys', ld. split; [exact H1|]. split; [exact H2|]. split; [rewrite H2 in H3; exact H3|].
    apply H4; [split; [discriminate|reflexivity]|discriminate|exact demo_kernel_in].
Defined.

(** A domain with the kernel and the tables of a created one. *)
Definition demo_domain (sm : SMBiosTable) (id : Z) : PARDg5VLDomain :=
  mkLDomain id (mkPortProxy 64 id) (Some demo_kernel) 0x1000 0xFFFFFFFFFF 0 (str_bytes "console=ttyS0") [mkE820Entry 0 0x100000 1] sm
    createIntelMPFloatingPointer (Some (createIntelMPConfigTable (base_entries 0) [createIntelMPBusHierarchy 0 true 1])).
Lemma demo_domain_bootable : ∃ sm, ∀ id, bootable 0x100000 (demo_domain sm id).
Proof.
  destruct (created_tables 0) as (bi & sm & _ & _ & Hok). exists sm. intros id.
  split; [split; [discriminate|reflexivity]|exists demo_kernel; split; [reflexivity|split; [discriminate|exact demo_kernel_in]]|
    apply Nat.ltb_lt; vm_compute; reflexivity|apply Nat.leb_le; reflexivity|]. eexists. split; [reflexivity|exact Hok].
Qed.

(** Two domains with 1 MB each; domain 1 boots the kernel, and its thread then
    reaches the last byte below 4 GB. *)
Definition demo_mib : AddrMapper := mkAddrMapper [mkEntry 0 0 0x100000 0x100000; mkEntry 1 0 0x100000 0] [] [0; 0; 0; 0] [0; 0; 0; 0].
Lemma demo_mib_wf : tlb_wf (am_tlb demo_mib).
Proof.
  split; [repeat constructor; simpl; lia|]. intros i j e1 e2 Hi Hj Hij. unfold machine_disjoint.
  destruct i as [|[|]], j as [|[|]]; simplify_eq/=; lia.
Qed.
Lemma demo_mib_owns : owns demo_mib 0 0x200000 1 0x100000.
Proof.
  intros x Hx. assert (mapped (am_tlb demo_mib) 1 x) as Hm.
  { exists (mkEntry 1 0 0x100000 0). split; [right; left|]. apply ent_contains_iff; [unfold ent_wf; cbn; lia|cbn; lia]. }
  split; [exact Hm|]. destruct (remapAddr_mapped _ _ _ Hm) as (i & e & Hi & Hc & ->). apply list_elem_of_lookup_2 in Hi.
  destruct demo_mib_wf as [W _]. rewrite Forall_forall in W. destruct (ent_translate_wf e 1 x (W e Hi) Hc) as [_ Hr].
  cbn in Hi. rewrite !elem_of_cons in Hi. destruct Hi as [->|[->|[]%elem_of_nil]]; cbn in Hr; lia.
Qed.
Definition demo_ram : AbstractMemory := mkMem 0 (replicate (Z.to_nat 0x200000) 0) [] [0] [0] [0] [0] [0] [0].
Lemma demo_ram_ok : system_ok demo_mib 0 0x200000 1 (demo_mib, demo_ram).
Proof.
  split; [done|done|]. split; [done| |by repeat constructor]. unfold full_memory. cbn [snd demo_ram mem_data]. rewrite length_replicate. lia.
Qed.
Lemma boot_identity_map_witness :
  ∃ t ld log ld' tc' pmem' st' tlb' i e, TLB_make 2 = Ok t ∧ bootable 0x100000 ld ∧ ld_domID ld = 1 ∧
    writes (initBSPState ld (demo_thread t)) log (ld', tc') ∧ perform (mapped_access demo_mib 0) (mkPortProxy 64 1) (mem_data demo_ram) log = Ok pmem' ∧
    start_atomic 0 tc' (mapped_atomic 5) (demo_mib, demo_ram <| mem_data := pmem' |>) (tc_dtb tc') zero_entry 0xFFFFFFFF Mode_Write = Ok (st', tlb', None) ∧
    in_use tlb' i e ∧ in_page e 0xFFFFFFFF ∧ te_paddr e = 0xFFE00000.
Proof.
  destruct (TLB_make_ok 2) as (t & Ht & Hinv & He); [done|]. destruct demo_domain_bootable as [sm Hb]. specialize (Hb 1).
  set (ld := demo_domain sm 1) in *.
  assert (tlb_entries t ≠ []) as Hne by (rewrite He; discriminate).
  destruct (boot_identity_map demo_mib demo_ram 0 64 0x200000 1 5 0 0x100000 ld (demo_thread t) zero_entry) as (log & ld' & tc' & pmem' & W & P & _ & _ & H);
    [reflexivity|done|by exists 8|exact demo_mib_wf|by repeat constructor|done|exact demo_ram_ok|done|exact Hb|done|reflexivity|exact demo_mib_owns|
     split; exists ∅; exact Hinv|exact Hne|exact Hne|].
  destruct (H 0xFFFFFFFF Mode_Write (tc_dtb tc') ltac:(lia) (or_intror eq_refl)) as (st' & tlb' & i & e & S & U & Pg & M).
  exists t, ld, log, ld', tc', pmem', st', tlb', i, e. do 8 (split; [first [assumption|reflexivity]|]). exact (mt_frame _ _ _ M).
Defined.

(** Whatever the domain and its thread, a boot that completes leaves the number
    and the proxy of the domain. *)
Lemma initBSPState_same_domain ld tc log ld' tc' : writes (initBSPState ld tc) log (ld', tc') → same_domain ld ld'.
Proof.
  unfold initBSPState. intros H. apply writes_bind_inv in H as (? & tc1 & ? & _ & H & _). apply writes_bind_inv in H as (? & k & ? & _ & H & _).
  do 2 apply writes_bind_inv in H as (? & ? & ? & _ & H & _). apply writes_bind_inv in H as (? & tc2 & ? & _ & H & _).
  apply writes_bind_inv in H as (? & ? & ? & _ & H & _). apply writes_bind_inv in H as (? & tc3 & ? & _ & H & _).
  apply writes_bind_inv in H as (? & ld2 & ? & Hb & H & _). apply writes_bind_inv in H as (? & tc4 & ? & _ & H & _).
  apply writes_bind_inv in H as (? & tc5 & ? & _ & H & _). injection H as _ <- _.
  unfold bios_tables in Hb. cbv zeta in Hb. apply writes_bind_inv in Hb as (? & [[sm fixed] table] & ? & _ & Hb & _).
  apply writes_bind_inv in Hb as (? & [[fp s1] s2] & ? & _ & Hb & _). injection Hb as _ <-. by repeat split.
Qed.
