(* ===== verification/ControlPlane.v ===== *)
(** * Control-plane tables

    [src/pardg5-v/hyper/base/ControlPlane.hh]: the per-domain statistics table
    ([StatsTable]) and the trigger table ([TriggerTable]) that every PARD
    control plane carries.  Statistics are 64-bit words; the fields of a trigger
    entry keep their widths. *)

From S2P Require Import Prelude BaseLib Packet.
Local Open Scope Z_scope.

(** ** StatsTable *)

Record StatsTable : Type := mkStats {
  st_max_metrics : Z;
  st_stats : list (list Z)
}.
#[export] Instance eta_StatsTable : Eta StatsTable := λ t, mkStats (st_max_metrics t) (st_stats t).

(** [resetStats]: [memset] of every row to zero. *)
Definition resetStats (t : StatsTable) : StatsTable :=
  t <| st_stats := (λ _, replicate (Z.to_nat (st_max_metrics t)) 0) <$> st_stats t |>.

(** The constructor allocates [max_entries] rows and resets them. *)
Definition StatsTable_make (max_metrics max_entries : Z) : StatsTable :=
  resetStats (mkStats max_metrics
    (replicate (Z.to_nat max_entries) (replicate (Z.to_nat max_metrics) 0))).

(** [getStatsPtr]: the index of the row the pointer refers to; a domain outside
    the table gets row 0 (with a warning). *)
Definition getStatsPtr (t : StatsTable) (ldomID : Z) : Z :=
  if Z.of_nat (length (st_stats t)) <=? ldomID then 0 else ldomID.

(** [updateStatsPtr]: [memcpy] of [max_metrics] words. *)
Definition updateStatsPtr (t : StatsTable) (ldomID : Z) (data : list Z) : result StatsTable :=
  assertb (ldomID <? Z.of_nat (length (st_stats t))) ;;
  if decide (Z.of_nat (length data) < st_max_metrics t) then Err OutOfBounds else
  rows ← upd_at (st_stats t) ldomID (take (Z.to_nat (st_max_metrics t)) data);
  Ok (t <| st_stats := rows |>).

Definition getStats (t : StatsTable) (ldomID metric : Z) : result Z :=
  assertb (ldomID <? Z.of_nat (length (st_stats t))) ;;
  assertb (metric <? st_max_metrics t) ;;
  row ← at_ (st_stats t) ldomID;
  at_ row metric.

(** [update]: the registered updator rewrites the row in place. *)
Definition stats_update (updator : list Z → list Z) (t : StatsTable) (ldomID : Z)
  : result StatsTable :=
  assertb (ldomID <? Z.of_nat (length (st_stats t))) ;;
  row ← at_ (st_stats t) ldomID;
  rows ← upd_at (st_stats t) ldomID (updator row);
  Ok (t <| st_stats := rows |>).

Definition default_updator (stats : list Z) : list Z := stats.

(** ** TriggerTable *)

Definition COMPARATOR_EQ : Z := 0.
Definition COMPARATOR_LT : Z := 1.
Definition COMPARATOR_GT : Z := 2.

(** The 16-bit comparator word: [type] bits 0-3, [mode] bit 4, [delay] bits
    8-11. *)
Record TriggerEntry : Type := mkTrigger {
  te_ldom : Z;
  te_metric : Z;
  te_comparator : Z;
  te_value : Z;
  te_notify_id : Z;
  te_triggers : Z;
  te_reported : bool
}.
#[export] Instance eta_TriggerEntry : Eta TriggerEntry := λ e,
  mkTrigger (te_ldom e) (te_metric e) (te_comparator e) (te_value e) (te_notify_id e)
    (te_triggers e) (te_reported e).

Definition cmp_type (e : TriggerEntry) : Z := bits (te_comparator e) 3 0.
Definition cmp_mode (e : TriggerEntry) : Z := bits (te_comparator e) 4 4.
Definition cmp_delay (e : TriggerEntry) : Z := bits (te_comparator e) 11 8.

(** The constructor: every entry unused ([metric = (uint16_t)-1]) but entry 0,
    which the source fills for testing. *)
Definition TriggerTable_make (max_entries : Z) : result (list TriggerEntry) :=
  upd_at (replicate (Z.to_nat max_entries) (mkTrigger 0 0xFFFF 0 0 0 0 false)) 0
    (mkTrigger 1 0 0 2000 0x88 0 false).

(** The comparison selected by [comparator.param.type]; other types never
    trigger. *)
Definition is_trigger (e : TriggerEntry) (stats_value : Z) : bool :=
  if cmp_type e =? COMPARATOR_LT then stats_value <? te_value e
  else if cmp_type e =? COMPARATOR_GT then te_value e <? stats_value
  else if cmp_type e =? COMPARATOR_EQ then stats_value =? te_value e
  else false.

(** The body of the loop of [checkTrigger] on one entry. *)
Definition check_entry (t : StatsTable) (ldomID : Z) (e : TriggerEntry)
  : result (TriggerEntry * list (Z * Z)) :=
  if te_metric e =? 0xFFFF then Ok (e, []) else
  if negb (te_ldom e =? ldomID) then Ok (e, []) else
  stats_value ← getStats t ldomID (te_metric e);
  if is_trigger e stats_value then
    let e := e <| te_triggers := wrap 16 (te_triggers e + 1) |> in
    if (cmp_mode e =? 0) || (Z.shiftl 1 (cmp_delay e) =? te_triggers e)
    then Ok (e, [(te_notify_id e, 0)]) else Ok (e, [])
  else Ok (e, []).

Fixpoint checkTrigger (t : StatsTable) (ldomID : Z) (entries : list TriggerEntry)
  : result (list TriggerEntry * list (Z * Z)) :=
  match entries with
  | [] => Ok ([], [])
  | e :: es =>
      '(e', l) ← check_entry t ldomID e;
      '(es', ls) ← checkTrigger t ldomID es;
      Ok (e' :: es', l ++ ls)
  end.

(** ** Invariant and lemmas *)

Definition stats_wf (t : StatsTable) : Prop :=
  0 ≤ st_max_metrics t ∧
  Forall (λ row, Z.of_nat (length row) = st_max_metrics t) (st_stats t).

Definition in_table (t : StatsTable) (ldomID metric : Z) : Prop :=
  0 ≤ ldomID < Z.of_nat (length (st_stats t)) ∧ 0 ≤ metric < st_max_metrics t.

Lemma getStats_total t d mt : stats_wf t → in_table t d mt → is_ok (getStats t d mt).
Proof.
  intros [Hm Hf] [Hd Hmt]. unfold getStats.
  destruct (Z.ltb_spec d (Z.of_nat (length (st_stats t)))); [|lia].
  destruct (Z.ltb_spec mt (st_max_metrics t)); [|lia]. simpl.
  destruct (at_total (st_stats t) d Hd) as [row Hrow]. rewrite Hrow. simpl.
  apply at_Ok in Hrow as [_ Hrow]. apply (Forall_lookup_1 _ _ _ _ Hf) in Hrow.
  apply at_total. lia.
Qed.

Lemma StatsTable_make_wf mm me : 0 ≤ mm → stats_wf (StatsTable_make mm me).
Proof.
  intros Hm. split; [done|]. unfold StatsTable_make, resetStats. simpl.
  apply Forall_fmap, Forall_true. intros row. simpl. rewrite length_replicate. lia.
Qed.

Lemma resetStats_wf t : stats_wf t → stats_wf (resetStats t).
Proof.
  intros [Hm _]. split; [done|]. simpl. apply Forall_fmap, Forall_true. intros row. simpl.
  rewrite length_replicate. lia.
Qed.

Lemma updateStatsPtr_wf t d data t' :
  stats_wf t → updateStatsPtr t d data = Ok t' → stats_wf t'.
Proof.
  intros [Hm Hf] H. unfold updateStatsPtr in H. inv_ok. case_decide; [done|]. inv_ok.
  apply upd_at_Ok in E0 as [? ->]. split; [done|]. simpl. apply Forall_insert; [done|].
  rewrite length_take. lia.
Qed.

(** The entry after [n] checks in which the comparison held each time. *)
Lemma check_entry_fires t d e v :
  te_metric e ≠ 0xFFFF → te_ldom e = d → getStats t d (te_metric e) = Ok v →
  is_trigger e v = true →
  check_entry t d e =
    let e' := e <| te_triggers := wrap 16 (te_triggers e + 1) |> in
    Ok (e', if (cmp_mode e =? 0) || (Z.shiftl 1 (cmp_delay e) =? te_triggers e')
            then [(te_notify_id e, 0)] else []).
Proof.
  intros Hm Hd Hg Ht. unfold check_entry.
  destruct (Z.eqb_spec (te_metric e) 0xFFFF); [done|].
  destruct (Z.eqb_spec (te_ldom e) d); [|done]. simpl. rewrite Hg. simpl. rewrite Ht. simpl.
  change (cmp_mode (mkTrigger _ _ _ _ _ _ _)) with (cmp_mode e).
  change (cmp_delay (mkTrigger _ _ _ _ _ _ _)) with (cmp_delay e).
  by destruct ((cmp_mode e =? 0) || _).
Qed.

(** [n] successive checks of one entry; the list collects the notifications of
    each check. *)
Fixpoint check_n (t : StatsTable) (ldomID : Z) (n : nat) (e : TriggerEntry)
  : result (TriggerEntry * list (list (Z * Z))) :=
  match n with
  | O => Ok (e, [])
  | S n => '(e, l) ← check_entry t ldomID e;
           '(e, ls) ← check_n t ldomID n e; Ok (e, l :: ls)
  end.

Definition set_triggers (e : TriggerEntry) (k : Z) : TriggerEntry := e <| te_triggers := k |>.

Lemma check_n_delayed t d e v n k :
  te_metric e ≠ 0xFFFF → te_ldom e = d → getStats t d (te_metric e) = Ok v →
  is_trigger e v = true → cmp_mode e = 1 → te_triggers e = wrap 16 k →
  ∃ e' ls, check_n t d n e = Ok (e', ls) ∧ length ls = n ∧
    te_triggers e' = wrap 16 (k + Z.of_nat n) ∧
    ∀ i, (i < n)%nat → ls !! i =
      Some (if wrap 16 (k + Z.of_nat i + 1) =? 2 ^ cmp_delay e then [(te_notify_id e, 0)] else []).
Proof.
  revert e k. induction n as [|n IH]; intros e k Hm Hd Hg Ht Hmode Htr.
  - exists e, []. repeat split; [|lia]. rewrite Htr. f_equal. lia.
  - simpl. rewrite (check_entry_fires t d e v Hm Hd Hg Ht). simpl.
    set (e1 := mkTrigger _ _ _ _ _ _ _).
    destruct (IH e1 (k + 1)) as (e' & ls & E & L & T & N); try done.
    { simpl. by rewrite Htr, wrap_add_wrap. }
    rewrite E. simpl. eexists e', (_ :: ls). split; [reflexivity|].
    split; [simpl; lia|]. split; [rewrite T; f_equal; lia|].
    intros [|i] Hi.
    + simpl. rewrite Hmode. simpl. rewrite Htr, wrap_add_wrap, Z.shiftl_1_l, Z.add_0_r, Z.eqb_sym. done.
    + cbn [lookup list_lookup]. rewrite N by lia.
      by replace (k + 1 + Z.of_nat i + 1) with (k + Z.of_nat (S i) + 1) by lia.
Qed.

(** ** Properties *)

(** The comparison of an entry as a relation, the entries of a domain it holds
    for, and those among them that ask to be told now: always without a mode,
    else at the hit whose number is [2^delay]. *)
Definition compares (e : TriggerEntry) (v : Z) : Prop :=
  (cmp_type e = COMPARATOR_LT ∧ v < te_value e) ∨ (cmp_type e = COMPARATOR_GT ∧ te_value e < v) ∨ (cmp_type e = COMPARATOR_EQ ∧ v = te_value e).
Definition statistic (t : StatsTable) (d metric : Z) : Z := match getStats t d metric with Ok v => v | Err _ => 0 end.
Definition hit (t : StatsTable) (d : Z) (e : TriggerEntry) : Prop :=
  te_metric e ≠ 0xFFFF ∧ te_ldom e = d ∧ compares e (statistic t d (te_metric e)).
Definition count_hit (e : TriggerEntry) : TriggerEntry := e <| te_triggers := wrap 16 (te_triggers e + 1) |>.
Definition notifies (t : StatsTable) (d : Z) (e : TriggerEntry) : Prop :=
  hit t d e ∧ (cmp_mode e = 0 ∨ te_triggers (count_hit e) = 2 ^ cmp_delay e).
#[export] Instance compares_dec e v : Decision (compares e v).
Proof. unfold compares. apply _. Defined.
#[export] Instance hit_dec t d e : Decision (hit t d e).
Proof. unfold hit. apply _. Defined.
#[export] Instance notifies_dec t d e : Decision (notifies t d e).
Proof. unfold notifies. apply _. Defined.

Lemma is_trigger_compares e v : is_trigger e v = true ↔ compares e v.
Proof.
  unfold is_trigger, compares, COMPARATOR_LT, COMPARATOR_GT, COMPARATOR_EQ.
  destruct (Z.eqb_spec (cmp_type e) 1), (Z.eqb_spec (cmp_type e) 2), (Z.eqb_spec (cmp_type e) 0); rewrite ?Z.ltb_lt, ?Z.eqb_eq; lia.
Qed.

Lemma check_entry_spec t d e :
  stats_wf t → (te_metric e ≠ 0xFFFF → te_ldom e = d → in_table t d (te_metric e)) →
  check_entry t d e = Ok (if decide (hit t d e) then count_hit e else e, if decide (notifies t d e) then [(te_notify_id e, 0)] else []).
Proof.
  intros Hwf Hin. destruct (decide (te_metric e ≠ 0xFFFF ∧ te_ldom e = d)) as [[Hm Hd]|Hno].
  - destruct (getStats_total t d (te_metric e) Hwf (Hin Hm Hd)) as [v Hv].
    assert (statistic t d (te_metric e) = v) as Hs by (unfold statistic; by rewrite Hv). destruct (is_trigger e v) eqn:Ht.
    + rewrite (check_entry_fires t d e v) by done. apply is_trigger_compares in Ht.
      assert (hit t d e) as Hh by (split; [done|]; split; [done|by rewrite Hs]). rewrite decide_True by done. cbv zeta. fold (count_hit e). do 2 f_equal.
      rewrite Z.shiftl_1_l. destruct (Z.eqb_spec (cmp_mode e) 0), (Z.eqb_spec (2 ^ cmp_delay e) (te_triggers (count_hit e))); cbn [orb];
        (rewrite decide_True by (split; [done|auto])) || (rewrite decide_False by (intros [_ [?|?]]; congruence)); done.
    + assert (¬ hit t d e) as Hh by (intros (_ & _ & Hc); rewrite Hs, <-is_trigger_compares in Hc; congruence).
      rewrite !decide_False by (done || by intros [? _]). unfold check_entry.
      rewrite (proj2 (Z.eqb_neq _ _)), (proj2 (Z.eqb_eq _ _)), Hv by done. cbn [negb mbind result_bind]. by rewrite Ht.
  - rewrite !decide_False by (unfold notifies, hit; tauto). unfold check_entry. destruct (Z.eqb_spec (te_metric e) 0xFFFF); [done|].
    destruct (Z.eqb_spec (te_ldom e) d); [tauto|done].
Qed.

(** C35: [checkTrigger] is the loop it stands for.  If the metrics of the live
    entries of a domain are in the table, checking that domain succeeds: it adds
    one to the 16-bit counter of exactly the live entries of the domain whose
    comparison with the statistic holds, leaves every other entry and everything
    else in those entries as it was, and notifies, in the order of the table and
    once each, exactly the entries it counted that have no mode set or whose
    counter has just become [2^delay]. *)
Theorem checkTrigger_spec (t : StatsTable) (d : Z) (es : list TriggerEntry) :
  stats_wf t →
  (∀ e, e ∈ es → te_metric e ≠ 0xFFFF → te_ldom e = d → in_table t d (te_metric e)) →
  checkTrigger t d es =
    Ok ((λ e, if decide (hit t d e) then count_hit e else e) <$> es, (λ e, (te_notify_id e, 0)) <$> filter (notifies t d) es).
Proof.
  intros Hwf. induction es as [|e es IH]; intros Hin; [done|]. cbn [checkTrigger].
  rewrite check_entry_spec by (done || (apply Hin; left)). cbn [mbind result_bind].
  rewrite IH by (intros e0 He0; apply Hin; by right). cbn [mbind result_bind fmap list_fmap]. rewrite filter_cons. by destruct (decide (notifies t d e)).
Qed.

Definition demo_stats : StatsTable := mkStats 2 [[7; 9]; [2000; 5]].

(** The entry the constructor fills, one of another domain, and a delayed one. *)
Lemma checkTrigger_spec_witness :
  checkTrigger demo_stats 1 [mkTrigger 1 0 0 2000 0x88 0 false; mkTrigger 0 0 0 7 1 0 false; mkTrigger 1 1 0x211 9 2 2 false] =
    Ok ([mkTrigger 1 0 0 2000 0x88 1 false; mkTrigger 0 0 0 7 1 0 false; mkTrigger 1 1 0x211 9 2 3 false], [(0x88, 0)]).
Proof.
  rewrite (checkTrigger_spec demo_stats 1).
  - vm_compute. reflexivity.
  - split; [simpl; lia | repeat constructor].
  - intros e He _ _. repeat (apply elem_of_cons in He as [->|He]; [unfold in_table; simpl; lia|]). by apply elem_of_nil in He.
Defined.

(** A delayed trigger ([mode] set) whose comparison holds at every check
    notifies at the check that brings its 16-bit counter to [2^delay] and at no
    other one; starting from zero that is the [2^delay]-th check, and again
    65536 checks later. *)
Theorem delayed_trigger_fires (t : StatsTable) (d : Z) (e : TriggerEntry) (v : Z) (n : nat) :
  te_metric e ≠ 0xFFFF → te_ldom e = d → getStats t d (te_metric e) = Ok v →
  is_trigger e v = true → cmp_mode e = 1 → te_triggers e = 0 →
  ∃ e' ls, check_n t d n e = Ok (e', ls) ∧
    ∀ i, (i < n)%nat →
      ls !! i = Some [(te_notify_id e, 0)] ↔ (Z.of_nat i + 1) mod 65536 = 2 ^ cmp_delay e.
Proof.
  intros Hm Hd Hg Ht Hmode Htr.
  destruct (check_n_delayed t d e v n 0 Hm Hd Hg Ht Hmode Htr) as (e' & ls & E & _ & _ & N).
  exists e', ls. split; [done|]. intros i Hi. rewrite N, Z.add_0_l by done. unfold wrap.
  change (2 ^ 16) with 65536. destruct (Z.eqb_spec ((Z.of_nat i + 1) mod 65536) (2 ^ cmp_delay e)); split; intros; done.
Qed.

Lemma delayed_trigger_fires_witness :
  ∃ e' ls, check_n demo_stats 1 5 (mkTrigger 1 0 0x210 2000 0x88 0 false) = Ok (e', ls) ∧
    ∀ i, (i < 5)%nat → ls !! i = Some [(0x88, 0)] ↔ (Z.of_nat i + 1) mod 65536 = 4.
Proof.
  apply (delayed_trigger_fires demo_stats 1 (mkTrigger 1 0 0x210 2000 0x88 0 false) 2000 5);
    vm_compute; try discriminate; reflexivity.
Defined.
