(* ===== verification/CPNet.v ===== *)
(** * The control-plane network: adaptor, connector, managed resources

    [src/pardg5-v/hyper/arch/glomgr.hh] (class [ManagedResource]),
    [src/pardg5-v/hyper/gm/CPConnector.cc] and [.hh] (the register window in
    front of one resource) and [src/pardg5-v/hyper/gm/CPAdaptor.cc] and [.hh]
    (the PCI device through which the platform's resource manager reaches every
    connector). *)

From S2P Require Import Prelude BaseLib Packet.
Local Open Scope Z_scope.

(** ** ManagedResource

    The word interface of a resource: [set(ldomID, destAddr, data)] and
    [get(ldomID, destAddr)].  [get] may change the resource (the tag store
    recomputes its statistics). *)
Class ManagedResource (S : Type) := {
  mr_set : S → Z → Z → Z → result S;
  mr_get : S → Z → Z → result (S * Z)
}.

(** What a resource promises of its read-write registers, at the domains and
    destination addresses [reg] selects: a value written is read back, and the
    other registers keep their values. *)
Class ResourceRegisters (S : Type) `{ManagedResource S} (inv : S → Prop) (reg : S → Z → Z → Prop) := {
  reg_set : ∀ s d a v, inv s → reg s d a → in_width 64 v →
    ∃ s', mr_set s d a v = Ok s' ∧ inv s' ∧ (∀ d' a', reg s d' a' → reg s' d' a') ∧
      (∃ s'', mr_get s' d a = Ok (s'', v)) ∧
      ∀ d' a', reg s d' a' → (d', a') ≠ (d, a) →
        snd <$> mr_get s' d' a' = snd <$> mr_get s d' a'
}.

(** ** CPConnector *)

(** The 32 bytes of [struct CPConnRegs]: [cpType] at 0, [cpIdent] at 4,
    [cpCmd] at 16, [cpState] at 17, [cpLDomID] at 18, [cpDestAddr] at 20,
    [cpData] at 24. *)
Record CPConnector (S : Type) : Type := mkConn {
  cc_devID : Z;
  cc_regs : list Z;
  cc_resource : option S
}.
Arguments mkConn {S} _ _ _.
Arguments cc_devID {S} _.
Arguments cc_regs {S} _.
Arguments cc_resource {S} _.
#[export] Instance eta_CPConnector S : Eta (CPConnector S) := λ c,
  mkConn (cc_devID c) (cc_regs c) (cc_resource c).

Definition regs_cmd (regs : list Z) : Z := le_combine (slice regs 16 1).
Definition regs_ldom (regs : list Z) : Z := le_combine (slice regs 18 2).
Definition regs_dest (regs : list Z) : Z := le_combine (slice regs 20 4).
Definition regs_data (regs : list Z) : Z := le_combine (slice regs 24 8).

(** [strncpy(dst, s, n)]: at most [n] bytes, padded with zeros. *)
Definition strncpy (s : list Z) (n : nat) : list Z :=
  take n s ++ replicate (n - length s) 0.

(** The constructor: [memset(&regs, 0xFF, ...)], then type and identifier. *)
Definition CPConnector_make {S} (cp_dev type_ : Z) (ident : list Z) : CPConnector S :=
  let regs := replicate 32 0xFF in
  let regs := splice regs 0 (le_split 4 type_) in
  let regs := splice regs 4 (strncpy ident 12) in
  mkConn cp_dev regs None.

Definition cc_registerManagedResource {S} (c : CPConnector S) (res : S) : result (CPConnector S) :=
  match cc_resource c with
  | Some _ => Err PanicCalled
  | None => Ok (c <| cc_resource := Some res |>)
  end.

(** [getAddrRanges]: [RangeEx(base, base+31)], the bounds of the one range. *)
Definition cc_getAddrRanges {S} (c : CPConnector S) : Z * Z :=
  let base := cc_devID c * 32 in (base, base + 31 - 1).

Definition valid_offset (offset : Z) : bool :=
  existsb (Z.eqb offset) [0; 4; 8; 16; 17; 18; 20; 24].
Definition valid_size (n : Z) : bool := existsb (Z.eqb n) [1; 2; 4; 8].

(** The [cpCmd] register: 'G' and 'S' run a command, anything else is reset. *)
Definition cc_command {S} `{ManagedResource S} (c : CPConnector S) : result (CPConnector S) :=
  let regs := cc_regs c in
  if regs_cmd regs =? 71 (* 'G' *) then
    match cc_resource c with
    | None => Err NullDeref
    | Some s =>
        '(s, v) ← mr_get s (regs_ldom regs) (regs_dest regs);
        Ok (c <| cc_resource := Some s |> <| cc_regs := splice regs 24 (le_split 8 v) |>)
    end
  else if regs_cmd regs =? 83 (* 'S' *) then
    match cc_resource c with
    | None => Err NullDeref
    | Some s =>
        s ← mr_set s (regs_ldom regs) (regs_dest regs) (regs_data regs);
        Ok (c <| cc_resource := Some s |>)
    end
  else Ok (c <| cc_regs := splice regs 16 [0xFF] |>).

(** [CPConnector::recvAtomic]: the packet after the access and the latency. *)
Definition cc_recvAtomic {S} `{ManagedResource S} (c : CPConnector S) (p : Packet)
  : result (CPConnector S * Packet * Z) :=
  addr ← getAddr p;
  size ← getSize p;
  let offset := wrap 64 (addr - cc_devID c * 32) in
  assertb (valid_offset offset) ;;
  assertb (valid_size size) ;;
  bytes ← getPtr p;
  let o := Z.to_nat offset in let n := Z.to_nat size in
  '(c, p) ← (if pkt_isRead p then
               if decide (n ≤ length bytes)%nat
               then Ok (c, p <| pkt_data := Some (splice bytes 0 (slice (cc_regs c) o n)) |>)
               else Err OutOfBounds
             else if pkt_isWrite p then
               if decide (n ≤ length bytes)%nat
               then Ok (c <| cc_regs := splice (cc_regs c) o (take n bytes) |>, p)
               else Err OutOfBounds
             else Err PanicCalled);
  if offset =? 16 then
    c ← cc_command c; Ok (c, p, 3)
  else Ok (c, p, 1).

(** ** CPAdaptor *)

Record CPAdaptor : Type := mkAdaptor {
  cpa_command : Z;
  cpa_BARAddrs : list Z;
  cpa_BARSize : list Z
}.
#[export] Instance eta_CPAdaptor : Eta CPAdaptor := λ a,
  mkAdaptor (cpa_command a) (cpa_BARAddrs a) (cpa_BARSize a).

(** [CPACommandReg::selectCP]. *)
Definition selectCP (command : Z) : Z := bits command 9 0.

(** [cpRegisterMap]: base and size of each register of a connector. *)
Definition cpRegisterMap : list (Z * Z) :=
  [(0x0, 4); (0x4, 4); (0x8, 8); (0x10, 1); (0x11, 1); (0x12, 2); (0x14, 4); (0x18, 8)].

Definition accessCommand (a : CPAdaptor) (offset size : Z) (data : list Z) (read : bool)
  : result (CPAdaptor * list Z) :=
  if offset =? 0 then
    assertb (size =? 4) ;;
    if read then Ok (a, le_split 4 (cpa_command a))
    else Ok (a <| cpa_command := le_combine (take 4 data) |>, data)
  else Err PanicCalled.

(** The search of [accessData] through the register map. *)
Fixpoint check_register (rmap : list (Z * Z)) (offset size : Z) : result bool :=
  match rmap with
  | [] => Ok false
  | (base, sz) :: rmap' =>
      if offset =? base then panic_if (negb (size =? sz)) ;; Ok true
      else check_register rmap' offset size
  end.

(** The packet [accessData] builds for the control-plane network:
    [Request(paddr, size, UNCACHEABLE, funcMasterId)] and [dataStatic(data)]. *)
Definition cpn_packet (paddr size : Z) (read : bool) (data : list Z) : Packet :=
  (flag_set (Packet_make (Request_phys paddr size UNCACHEABLE funcMasterId) (if read then ReadReq else WriteReq))
    STATIC_DATA) <| pkt_data := Some data |>.

Section Network.

(** The state behind the control-plane network and the atomic access through
    it, and [PciDevice::isBAR] applied to the adaptor's base registers. *)
Context {N : Type} (sendAtomic : N → Packet → result (N * Packet)).

Definition accessData (a : CPAdaptor) (net : N) (offset size : Z) (data : list Z) (read : bool)
  : result (N * list Z) :=
  check_ok ← check_register cpRegisterMap offset size;
  panic_if (negb check_ok) ;;
  let paddr := selectCP (cpa_command a) * 32 + offset in
  '(net, pkt) ← sendAtomic net (cpn_packet paddr size read data);
  data ← getPtr pkt;
  Ok (net, data).

Definition isBAR (a : CPAdaptor) (addr : Z) (bar : nat) : bool :=
  match cpa_BARAddrs a !! bar, cpa_BARSize a !! bar with
  | Some base, Some sz => (base <=? addr) && (addr <? wrap 64 (base + sz))
  | _, _ => false
  end.

Definition getBAR (a : CPAdaptor) (addr : Z) : option (nat * Z) :=
  match List.find (isBAR a addr) (seq 0 6) with
  | Some b => Some (b, wrap 64 (addr - default 0 (cpa_BARAddrs a !! b)))
  | None => None
  end.

(** [dispatchAccess]: [read] and [write] call it with the two values of the
    flag.  [pkt->allocate()] gives a packet without data a buffer of its size,
    whose contents are the argument [fresh]. *)
Definition dispatchAccess (a : CPAdaptor) (net : N) (p : Packet) (read : bool) (fresh : list Z)
  : result (CPAdaptor * N * Packet) :=
  addr ← getAddr p;
  match getBAR a addr with
  | None => Err PanicCalled
  | Some (bar, off) =>
      size ← getSize p;
      let p := match pkt_data p with
               | Some _ => p
               | None => flag_set (p <| pkt_data := Some fresh |>) (Z.lor DYNAMIC_DATA ARRAY_DATA)
               end in
      panic_if (negb (valid_size size)) ;;
      data ← getPtr p;
      '(a, net, data) ←
        (match bar with
         | 0%nat => '(a, data) ← accessCommand a off size data read; Ok (a, net, data)
         | 1%nat => '(net, data) ← accessData a net off size data read; Ok (a, net, data)
         | _ => Err PanicCalled
         end);
      p ← makeResponse (p <| pkt_data := Some data |>);
      Ok (a, net, p)
  end.

End Network.

(** ** The network behind the adaptor

    What the adaptor relies on: the control-plane network delivers a request
    whose address lies in the range a connector announces to that connector's
    [recvAtomic], and changes nothing else.  [conn] and [put] are the view of
    one connector in the state of the network. *)
Class RoutesTo {N S : Type} `{ManagedResource S} (sendAtomic : N → Packet → result (N * Packet))
    (conn : N → CPConnector S) (put : CPConnector S → N → N) := {
  conn_put : ∀ c n, conn (put c n) = c;
  routes : ∀ n p, fst (cc_getAddrRanges (conn n)) ≤ pkt_addr p ≤ snd (cc_getAddrRanges (conn n)) →
    sendAtomic n p = ('(c, p', _) ← cc_recvAtomic (conn n) p; Ok (put c n, p'))
}.

(** A crossbar with two connectors decodes the address. *)
Definition xbar_send {S T} `{ManagedResource S} `{ManagedResource T}
    (n : CPConnector S * CPConnector T) (p : Packet)
  : result ((CPConnector S * CPConnector T) * Packet) :=
  let inside {U} (c : CPConnector U) :=
    (fst (cc_getAddrRanges c) <=? pkt_addr p) && (pkt_addr p <=? snd (cc_getAddrRanges c)) in
  if inside (fst n) then '(c, p', _) ← cc_recvAtomic (fst n) p; Ok ((c, snd n), p')
  else if inside (snd n) then '(c, p', _) ← cc_recvAtomic (snd n) p; Ok ((fst n, c), p')
  else Err FatalCalled.

#[export] Instance xbar_routes_fst {S T} `{ManagedResource S} `{ManagedResource T} :
  RoutesTo (@xbar_send S T _ _) fst (λ c n, (c, snd n)).
Proof.
  split; [done|]. intros [c1 c2] p [H1 H2]. unfold xbar_send. simpl in *.
  apply Z.leb_le in H1. apply Z.leb_le in H2. unfold cc_getAddrRanges in *. simpl in *.
  by rewrite H1, H2.
Qed.

(** Case analysis on the register of the map. *)
Ltac reg_cases H :=
  unfold cpRegisterMap in H;
  repeat (apply elem_of_cons in H as [H|H]; [injection H as -> ->|]);
  [.. | by apply elem_of_nil in H].
Ltac in_regs := unfold cpRegisterMap; rewrite ?elem_of_cons; tauto.

Section Protocol.
Context {N S : Type} `{RoutesTo N S sendAtomic conn put}.

(** The connector behind the adaptor's command register, with its resource. *)
Definition connected (a : CPAdaptor) (n : N) (s : S) : Prop :=
  cc_devID (conn n) = selectCP (cpa_command a) ∧ length (cc_regs (conn n)) = 32%nat ∧
  cc_resource (conn n) = Some s.

(** The register sequence that programs one parameter of one domain ... *)
Definition program_set (a : CPAdaptor) (n : N) (d addr v : Z) : result N :=
  '(n, _) ← accessData sendAtomic a n 0x12 2 (le_split 2 d) false;
  '(n, _) ← accessData sendAtomic a n 0x14 4 (le_split 4 addr) false;
  '(n, _) ← accessData sendAtomic a n 0x18 8 (le_split 8 v) false;
  '(n, _) ← accessData sendAtomic a n 0x10 1 [83] false;
  Ok n.

(** ... and the one that reads it. *)
Definition program_get (a : CPAdaptor) (n : N) (d addr : Z) : result (N * Z) :=
  '(n, _) ← accessData sendAtomic a n 0x12 2 (le_split 2 d) false;
  '(n, _) ← accessData sendAtomic a n 0x14 4 (le_split 4 addr) false;
  '(n, _) ← accessData sendAtomic a n 0x10 1 [71] false;
  '(n, data) ← accessData sendAtomic a n 0x18 8 (replicate 8 0) true;
  Ok (n, le_combine data).

Lemma selectCP_range cmd : 0 ≤ selectCP cmd < 1024.
Proof. unfold selectCP. rewrite bits_mod by lia. apply Z.mod_pos_bound. lia. Qed.

(** An access to one of the registers reaches the connector at its offset. *)
Lemma accessData_delivers a n s off sz data read :
  connected a n s → (off, sz) ∈ cpRegisterMap → Z.of_nat (length data) = sz →
  accessData sendAtomic a n off sz data read =
    ('(c, p, _) ← cc_recvAtomic (conn n) (cpn_packet (selectCP (cpa_command a) * 32 + off) sz read data);
     data' ← getPtr p; Ok (put c n, data')).
Proof.
  intros (Hd & Hl & Hs) Hin Hlen. unfold accessData.
  assert (check_register cpRegisterMap off sz = Ok true) as ->.
  { by reg_cases Hin. }
  assert (0 ≤ off ≤ 24) by (reg_cases Hin; lia).
  simpl. rewrite routes; [by destruct (cc_recvAtomic _ _) as [[[? ?] ?]|]|].
  unfold cc_getAddrRanges. simpl. rewrite Hd. lia.
Qed.

(** What [recvAtomic] of the connector makes of the adaptor's packets. *)
Lemma cc_recvAtomic_packet (c : CPConnector S) off sz read data :
  0 ≤ cc_devID c < 1024 → (off, sz) ∈ cpRegisterMap → Z.of_nat (length data) = sz →
  cc_recvAtomic c (cpn_packet (cc_devID c * 32 + off) sz read data) =
    (let o := Z.to_nat off in let n := Z.to_nat sz in
     let p := cpn_packet (cc_devID c * 32 + off) sz read data in
     let c' := if read then c else c <| cc_regs := splice (cc_regs c) o data |> in
     let p' := if read then p <| pkt_data := Some (splice data 0 (slice (cc_regs c) o n)) |> else p in
     if off =? 16 then c' ← cc_command c'; Ok (c', p', 3) else Ok (c', p', 1)).
Proof.
  intros Hd Hin Hlen. unfold cc_recvAtomic.
  assert (valid_offset off = true ∧ valid_size sz = true ∧ 0 ≤ off ≤ 24) as (Ho & Hz & Hr).
  { reg_cases Hin; repeat split; lia. }
  cbn [getAddr getSize cpn_packet pkt_flags pkt_addr pkt_size]. simpl.
  replace (wrap 64 _) with off; [|rewrite wrap_small; [lia | unfold in_width; lia]].
  rewrite Ho, Hz. simpl. rewrite !decide_True by lia.
  destruct read; simpl; rewrite ?take_ge by lia; by destruct (off =? 16).
Qed.

Lemma connected_put a n s c s' :
  connected a n s → cc_devID c = cc_devID (conn n) → length (cc_regs c) = 32%nat →
  cc_resource c = Some s' → connected a (put c n) s'.
Proof. intros (? & ? & ?) ???. unfold connected. rewrite conn_put.
  repeat split; congruence.
Qed.

(** Writing a plain register changes its bytes and nothing else. *)
Lemma accessData_write a n s off sz data :
  connected a n s → (off, sz) ∈ cpRegisterMap → Z.of_nat (length data) = sz → off ≠ 16 →
  ∃ n', accessData sendAtomic a n off sz data false = Ok (n', data) ∧
    cc_regs (conn n') = splice (cc_regs (conn n)) (Z.to_nat off) data ∧ connected a n' s.
Proof.
  intros Hc Hin Hlen Hne. rewrite (accessData_delivers _ _ s) by done.
  pose proof (selectCP_range (cpa_command a)). pose proof Hc as (Hd & Hl & Hs).
  rewrite <-Hd in *. rewrite cc_recvAtomic_packet by done. cbn zeta.
  apply Z.eqb_neq in Hne as ->. simpl.
  eexists. split; [done|]. rewrite conn_put. split; [done|].
  eapply connected_put; [done..| |done]. simpl. rewrite length_splice; [done|].
  rewrite Hl. reg_cases Hin; lia.
Qed.

(** Writing the command register stores the letter and runs the command. *)
Lemma accessData_command a n s b c :
  connected a n s → 
  cc_command ((conn n) <| cc_regs := splice (cc_regs (conn n)) 16 [b] |>) = Ok c →
  accessData sendAtomic a n 0x10 1 [b] false = Ok (put c n, [b]).
Proof.
  intros Hc Hcmd. rewrite (accessData_delivers _ _ s) by (done || in_regs).
  pose proof (selectCP_range (cpa_command a)). pose proof Hc as (Hd & Hl & Hs).
  rewrite <-Hd in *. rewrite cc_recvAtomic_packet by (done || in_regs). cbn zeta.
  change (Z.to_nat 16) with 16%nat. rewrite Hcmd. done.
Qed.

(** Reading a plain register returns its bytes. *)
Lemma accessData_read a n s off sz data :
  connected a n s → (off, sz) ∈ cpRegisterMap → Z.of_nat (length data) = sz → off ≠ 16 →
  accessData sendAtomic a n off sz data true =
    Ok (put (conn n) n, slice (cc_regs (conn n)) (Z.to_nat off) (Z.to_nat sz)).
Proof.
  intros Hc Hin Hlen Hne. rewrite (accessData_delivers _ _ s) by done.
  pose proof (selectCP_range (cpa_command a)). pose proof Hc as (Hd & Hl & Hs).
  rewrite <-Hd in *. rewrite cc_recvAtomic_packet by done. cbn zeta.
  apply Z.eqb_neq in Hne as ->. simpl.
  unfold getPtr. simpl. do 3 f_equal. unfold splice. simpl.
  rewrite drop_ge, app_nil_r; [done|]. unfold slice.
  rewrite length_take, length_drop, Hl. reg_cases Hin; lia.
Qed.

(** Selecting the domain and the parameter, the first two writes of both
    sequences. *)
Lemma select_parameter a n s d addr :
  connected a n s → in_width 16 d → in_width 32 addr →
  ∃ n1 n2, accessData sendAtomic a n 0x12 2 (le_split 2 d) false = Ok (n1, le_split 2 d) ∧
    accessData sendAtomic a n1 0x14 4 (le_split 4 addr) false = Ok (n2, le_split 4 addr) ∧
    connected a n2 s ∧ regs_ldom (cc_regs (conn n2)) = d ∧ regs_dest (cc_regs (conn n2)) = addr.
Proof.
  intros Hc Hd Ha.
  destruct (accessData_write a n s 0x12 2 (le_split 2 d)) as (n1 & W1 & R1 & C1); [done|in_regs|done..|].
  destruct (accessData_write a n1 s 0x14 4 (le_split 4 addr)) as (n2 & W2 & R2 & C2); [done|in_regs|done..|].
  exists n1, n2. do 3 (split; [done|]). destruct Hc as (_ & L0 & _), C1 as (_ & L1 & _).
  rewrite R2. unfold regs_ldom, regs_dest. change (Z.to_nat 20) with 20%nat. split.
  - rewrite slice_splice_ne by (rewrite ?length_le_split; lia). rewrite R1.
    rewrite (slice_splice_eq _ _ (le_split 2 d)) by lia. by apply le_combine_split_small.
  - rewrite (slice_splice_eq _ _ (le_split 4 addr)) by lia. by apply le_combine_split_small.
Qed.

(** The command letter is in place and the parameters are untouched. *)
Lemma regs_cmd_write regs b :
  length regs = 32%nat →
  let regs' := splice regs 16 [b] in
  length regs' = 32%nat ∧ regs_cmd regs' = b ∧ regs_ldom regs' = regs_ldom regs ∧
  regs_dest regs' = regs_dest regs ∧ regs_data regs' = regs_data regs.
Proof.
  intros Hl. unfold regs_cmd, regs_ldom, regs_dest, regs_data. cbn zeta.
  rewrite (slice_splice_eq _ 16 [b]), length_splice, !slice_splice_ne by (simpl; lia).
  repeat split; [done | simpl; lia].
Qed.

Lemma program_set_exec a n s d addr v s' :
  connected a n s → in_width 16 d → in_width 32 addr → in_width 64 v →
  mr_set s d addr v = Ok s' →
  ∃ n', program_set a n d addr v = Ok n' ∧ connected a n' s'.
Proof.
  intros Hc Hd Ha Hv Hset. unfold program_set.
  destruct (select_parameter a n s d addr) as (n1 & n2 & -> & W2 & C2 & D2 & A2); [done..|].
  cbn [mbind result_bind]. rewrite W2. cbn [mbind result_bind].
  destruct (accessData_write a n2 s 0x18 8 (le_split 8 v)) as (n3 & -> & R3 & C3); [done|in_regs|done..|].
  cbn [mbind result_bind]. pose proof C3 as (_ & L3 & S3). destruct C2 as (_ & L2 & _).
  destruct (regs_cmd_write (cc_regs (conn n3)) 83 L3) as (Lc & Bc & Dc & Ac & Vc).
  pose (c' := (conn n3) <| cc_regs := splice (cc_regs (conn n3)) 16 [83] |> <| cc_resource := Some s' |>).
  rewrite (accessData_command _ _ s 83 c'); [|done|].
  - eexists. split; [done|]. by eapply connected_put.
  - unfold cc_command. cbn [setf cc_regs cc_resource]. rewrite Bc, S3, Dc, Ac, Vc. simpl.
    rewrite R3. unfold regs_ldom, regs_dest, regs_data in *. change (Z.to_nat 24) with 24%nat.
    rewrite !slice_splice_ne, D2, A2 by (rewrite ?length_le_split; lia).
    rewrite (slice_splice_eq _ _ (le_split 8 v)), le_combine_split_small by (done || lia).
    rewrite Hset. unfold c'. simpl. by rewrite R3.
Qed.

Lemma program_get_exec a n s d addr v s' :
  connected a n s → in_width 16 d → in_width 32 addr → in_width 64 v →
  mr_get s d addr = Ok (s', v) →
  ∃ n', program_get a n d addr = Ok (n', v) ∧ connected a n' s'.
Proof.
  intros Hc Hd Ha Hv Hget. unfold program_get.
  destruct (select_parameter a n s d addr) as (n1 & n2 & -> & W2 & C2 & D2 & A2); [done..|].
  cbn [mbind result_bind]. rewrite W2. cbn [mbind result_bind]. pose proof C2 as (_ & L2 & S2).
  destruct (regs_cmd_write (cc_regs (conn n2)) 71 L2) as (Lc & Bc & Dc & Ac & Vc).
  pose (regs := splice (splice (cc_regs (conn n2)) 16 [71]) 24 (le_split 8 v)).
  pose (c' := (conn n2) <| cc_resource := Some s' |> <| cc_regs := regs |>).
  assert (length regs = 32%nat) by (unfold regs; rewrite length_splice; rewrite ?length_le_split; lia).
  rewrite (accessData_command _ _ s 71 c'); [|done|].
  - cbn [mbind result_bind]. assert (connected a (put c' n2) s') by by eapply connected_put.
    rewrite (accessData_read _ _ s'); [|done|in_regs|done..]. cbn [mbind result_bind].
    rewrite conn_put. exists (put c' (put c' n2)).
    change (slice _ _ _) with (slice regs 24 (length (le_split 8 v))). unfold regs.
    rewrite (slice_splice_eq _ _ (le_split 8 v)), le_combine_split_small by (done || lia).
    split; [done|]. eapply connected_put; try done. by rewrite conn_put.
  - unfold cc_command. cbn [setf cc_regs cc_resource]. rewrite Bc, S2, Dc, Ac. simpl.
    rewrite D2, A2, Hget. done.
Qed.

End Protocol.

(** ** Properties *)

Section EndToEnd.
Context {N S : Type} `{ManagedResource S} {inv : S → Prop} {reg : S → Z → Z → Prop}
  `{!ResourceRegisters S inv reg} {sendAtomic : N → Packet → result (N * Packet)}
  {conn : N → CPConnector S} {put : CPConnector S → N → N} `{!RoutesTo sendAtomic conn put}.

(** C12: for any managed resource that keeps its register contract, behind any
    network that routes by the announced ranges: programming a parameter of a
    domain through the adaptor's data window succeeds, reading it back through
    the window returns the value written, and every other parameter, of this or
    of another domain, still reads as the resource held it before. *)
Theorem program_roundtrip a n s d addr v :
  connected (conn := conn) a n s → inv s → reg s d addr →
  in_width 16 d → in_width 32 addr → in_width 64 v →
  ∃ n' n'', program_set (sendAtomic := sendAtomic) a n d addr v = Ok n' ∧
    program_get (sendAtomic := sendAtomic) a n' d addr = Ok (n'', v) ∧
    ∀ d' addr' w, reg s d' addr' → (d', addr') ≠ (d, addr) →
      in_width 16 d' → in_width 32 addr' → in_width 64 w →
      snd <$> mr_get s d' addr' = Ok w →
      snd <$> program_get (sendAtomic := sendAtomic) a n' d' addr' = Ok w.
Proof.
  intros Hc Hi Hr Hd Ha Hv.
  destruct (reg_set s d addr v Hi Hr Hv) as (s' & Hset & Hi' & _ & [s'' Hget] & Hother).
  destruct (program_set_exec (put := put) a n s d addr v s') as (n' & Hp & Hc'); [done..|].
  destruct (program_get_exec (put := put) a n' s' d addr v s'') as (n'' & Hg & _); [done..|].
  exists n', n''. do 2 (split; [done|]). intros d' addr' w Hr' Hne Hd' Ha' Hw Hold.
  rewrite <-(Hother _ _ Hr' Hne) in Hold. destruct (mr_get s' d' addr') as [[s1 w']|] eqn:E; [|done].
  injection Hold as ->.
  by destruct (program_get_exec (put := put) a n' s' d' addr' w s1) as (n1 & -> & _).
Qed.

(** The command register is not a plain register: a read of it through the
    adaptor executes the command letter it holds once more.  A manager that
    polls [command] after a set repeats the [set] on every poll. *)
Theorem read_command_reexecutes a n s s' data :
  connected (conn := conn) a n s → length data = 1%nat →
  regs_cmd (cc_regs (conn n)) = 83 →
  mr_set s (regs_ldom (cc_regs (conn n))) (regs_dest (cc_regs (conn n)))
    (regs_data (cc_regs (conn n))) = Ok s' →
  ∃ n', accessData sendAtomic a n 0x10 1 data true = Ok (n', slice (cc_regs (conn n)) 16 1) ∧
    connected (conn := conn) a n' s'.
Proof.
  intros Hc Hlen Hcmd Hset. rewrite (accessData_delivers (put := put) _ _ s) by (done || in_regs || lia).
  pose proof (selectCP_range (cpa_command a)). pose proof Hc as (Hd & Hl & Hs).
  rewrite <-Hd in *. rewrite cc_recvAtomic_packet by (done || in_regs || lia).
  unfold cc_command. cbn zeta. rewrite Hcmd, Hs. simpl. rewrite Hset. simpl.
  eexists. split; [unfold getPtr; simpl; do 3 f_equal|by eapply connected_put].
  unfold splice. rewrite drop_ge, app_nil_r; [done|].
  unfold slice. rewrite length_take, length_drop. lia.
Qed.

End EndToEnd.
