(* ===== verification/DramCtrl.v ===== *)
(** * The control plane of the DRAM controller

    [src/pardg5-v/hyper/mem/dram_ctrl.cc]: the parameter table of
    [DRAMCtrl] (three 64-bit words for each of 32 domains, in one contiguous
    vector), its statistics table, and the [get]/[set] pair through which the
    control-plane network reads and programs them.  The controller is an
    instance of the resource interface of [CPNet]. *)

From S2P Require Import Prelude BaseLib Packet ControlPlane CPNet.
Local Open Scope Z_scope.

(** [struct ParamTableEntry]. *)
Record ParamTableEntry : Type := mkParam {
  pe_priority : Z;
  pe_effective_priority : Z;
  pe_rowbuf_mask : Z
}.
Definition param_words (e : ParamTableEntry) : list Z :=
  [pe_priority e; pe_effective_priority e; pe_rowbuf_mask e].

(** The words of [std::vector<ParamTableEntry> params], in memory order. *)
Record DRAMCtrl : Type := mkDram {
  dc_params : list Z;
  dc_stats : StatsTable
}.
#[export] Instance eta_DRAMCtrl : Eta DRAMCtrl := λ d, mkDram (dc_params d) (dc_stats d).

(** [DRAMCtrlStats] has 37 words. *)
Definition DRAM_METRICS : Z := 37.

(** The constructors: [params(32)] zeroes the table, the loop of
    [PARDg5VDRAMCtrl] fills the rows of the four domains; the controller is
    then registered with its connector. *)
Definition PARDg5VDRAMCtrl_make (n_original n_remapped : nat) (connector : CPConnector DRAMCtrl)
  : result (CPConnector DRAMCtrl) :=
  fatal_if (negb (n_original =? n_remapped)%nat) ;;
  let params := replicate 32 (mkParam 0 0 0) in
  params ← foldM (λ ps i, upd_at ps i (mkParam 0 0 1)) params [0; 1; 2; 3];
  cc_registerManagedResource connector
    (mkDram (params ≫= param_words) (StatsTable_make DRAM_METRICS 32)).

(** [union CPA_DESTADDR] and its accessors. *)
Definition TYPE_PARAMETERS : Z := 0.
Definition TYPE_STATISTICS : Z := 1.
Definition TYPE_TRIGGERS : Z := 2.
Definition TYPE_TLB : Z := 3.
Definition CPA_DESTADDR_TYPE (destAddr : Z) : Z := bits destAddr 15 14.
Definition CPA_DESTADDR_OFFSET (destAddr : Z) : Z :=
  if CPA_DESTADDR_TYPE destAddr =? TYPE_TLB then bits destAddr 13 12 else bits destAddr 7 0.

(** [get]: the row pointer is an index into the words of the table, the offset
    is added to it unchecked. *)
Definition dram_get (s : DRAMCtrl) (ldomID destAddr : Z) : result Z :=
  if 4 <=? ldomID then Ok (2 ^ 64 - 1) else
  let ty := CPA_DESTADDR_TYPE destAddr in
  if ty =? TYPE_PARAMETERS then at_ (dc_params s) (3 * ldomID + CPA_DESTADDR_OFFSET destAddr)
  else if ty =? TYPE_STATISTICS then
    row ← at_ (st_stats (dc_stats s)) (getStatsPtr (dc_stats s) ldomID);
    at_ row (CPA_DESTADDR_OFFSET destAddr)
  else if ty =? TYPE_TRIGGERS then Ok 0xFFFFCCCCCCCCCCCC
  else if ty =? TYPE_TLB then Ok 0xFFFFDDDDDDDDDDDD
  else Ok (2 ^ 64 - 1).

Definition dram_set (s : DRAMCtrl) (ldomID destAddr data : Z) : result DRAMCtrl :=
  if 4 <=? ldomID then Ok s else
  if CPA_DESTADDR_TYPE destAddr =? TYPE_PARAMETERS then
    params ← upd_at (dc_params s) (3 * ldomID + CPA_DESTADDR_OFFSET destAddr) data;
    Ok (s <| dc_params := params |>)
  else Ok s.

#[export] Instance dram_resource : ManagedResource DRAMCtrl := {
  mr_set := dram_set;
  mr_get s d a := v ← dram_get s d a; Ok (s, v)
}.

(** ** Lemmas *)

Definition dram_wf (s : DRAMCtrl) : Prop := length (dc_params s) = 96%nat.

(** The registers of the contract: the three parameters of the four domains. *)
Definition dram_reg (_ : DRAMCtrl) (d a : Z) : Prop := 0 ≤ d < 4 ∧ 0 ≤ a < 3.

Lemma dest_type_range a : 0 ≤ CPA_DESTADDR_TYPE a < 4.
Proof. unfold CPA_DESTADDR_TYPE. rewrite bits_mod by lia. apply Z.mod_pos_bound. lia. Qed.

Lemma dest_param a : 0 ≤ a < 256 → CPA_DESTADDR_TYPE a = 0 ∧ CPA_DESTADDR_OFFSET a = a.
Proof.
  intros Ha. assert (CPA_DESTADDR_TYPE a = 0) as Ht.
  { unfold CPA_DESTADDR_TYPE. rewrite bits_mod by lia.
    rewrite Z.div_small by lia. done. }
  split; [done|]. unfold CPA_DESTADDR_OFFSET. rewrite Ht. simpl. rewrite bits_mod by lia.
  rewrite Z.div_1_r. apply Z.mod_small. lia.
Qed.

(** Below the row width the parameter type is selected and the offset is the
    address itself. *)
Lemma dram_get_param s d a :
  0 ≤ d < 4 → 0 ≤ a < 256 → dram_get s d a = at_ (dc_params s) (3 * d + a).
Proof.
  intros Hd Ha. destruct (dest_param a Ha) as [Ht Ho]. unfold dram_get.
  destruct (Z.leb_spec 4 d); [lia|]. by rewrite Ht, Ho.
Qed.

Lemma dram_set_param s d a v :
  0 ≤ d < 4 → 0 ≤ a < 256 →
  dram_set s d a v = (ps ← upd_at (dc_params s) (3 * d + a) v; Ok (s <| dc_params := ps |>)).
Proof.
  intros Hd Ha. destruct (dest_param a Ha) as [Ht Ho]. unfold dram_set.
  destruct (Z.leb_spec 4 d); [lia|]. by rewrite Ht, Ho.
Qed.

#[export] Instance dram_registers : ResourceRegisters DRAMCtrl dram_wf dram_reg.
Proof.
  split. intros s d a v Hwf [Hd Ha] Hv. simpl. rewrite dram_set_param by lia.
  destruct (upd_at (dc_params s) (3 * d + a) v) as [ps|] eqn:E.
  2:{ unfold upd_at in E. rewrite decide_True in E; [done|]. unfold dram_wf in Hwf. lia. }
  simpl. eexists. split; [done|]. split; [|split; [done|split]].
  - unfold dram_wf. simpl. by rewrite (upd_at_length _ _ _ _ E).
  - rewrite dram_get_param by lia. simpl. rewrite (at_upd_eq _ _ _ _ E). simpl. eauto.
  - intros d' a' [Hd' Ha'] Hne. rewrite !dram_get_param by lia. simpl.
    rewrite (at_upd_ne _ _ _ (3 * d' + a') _ E); [by destruct (at_ _ _)|].
    intros Heq. apply Hne. assert (d' = d) by lia. subst. f_equal. lia.
Qed.

(** The controller as its constructor leaves it, behind connector 2. *)
Definition demo_dram : DRAMCtrl :=
  mkDram (mjoin (replicate 4 [0; 0; 1] ++ replicate 28 [0; 0; 0])) (StatsTable_make DRAM_METRICS 32).
Definition demo_conn : CPConnector DRAMCtrl :=
  mkConn 2 (cc_regs (@CPConnector_make DRAMCtrl 2 0x44 [77; 67])) (Some demo_dram).
Definition demo_net : CPConnector DRAMCtrl * CPConnector DRAMCtrl :=
  (demo_conn, CPConnector_make 3 0x43 []).
Definition demo_adaptor : CPAdaptor := mkAdaptor 2 [] [].

Example demo_conn_made : PARDg5VDRAMCtrl_make 0 0 (CPConnector_make 2 0x44 [77; 67]) = Ok demo_conn.
Proof. reflexivity. Qed.

(** The end-to-end contract of the control-plane network at the memory
    controller: the row-buffer mask of domain 1 is programmed and read back. *)
Lemma program_roundtrip_witness :
  ∃ n' n'', program_set (sendAtomic := xbar_send) demo_adaptor demo_net 1 2 0xC = Ok n' ∧
    program_get (sendAtomic := xbar_send) demo_adaptor n' 1 2 = Ok (n'', 0xC) ∧
    ∀ d' addr' w, dram_reg demo_dram d' addr' → (d', addr') ≠ (1, 2) →
      in_width 16 d' → in_width 32 addr' → in_width 64 w →
      snd <$> mr_get demo_dram d' addr' = Ok w →
      snd <$> program_get (sendAtomic := xbar_send) demo_adaptor n' d' addr' = Ok w.
Proof.
  apply (program_roundtrip (conn := fst) (put := λ c n, (c, snd n)) (inv := dram_wf) (reg := dram_reg)
    demo_adaptor demo_net demo_dram 1 2 0xC).
  all: unfold connected, dram_wf, dram_reg, in_width; repeat split; try lia; reflexivity.
Defined.

(** A set command left in the command register. *)
Definition demo_polled : CPConnector DRAMCtrl * CPConnector DRAMCtrl :=
  (demo_conn <| cc_regs := splice (cc_regs demo_conn) 16 ([83; 0] ++ le_split 2 1 ++ le_split 4 0 ++ le_split 8 7) |>,
   snd demo_net).

Lemma read_command_reexecutes_witness :
  ∃ n', accessData xbar_send demo_adaptor demo_polled 0x10 1 [0] true = Ok (n', [83]) ∧
    connected (conn := fst) demo_adaptor n' (demo_dram <| dc_params := <[3%nat := 7]> (dc_params demo_dram) |>).
Proof.
  apply (read_command_reexecutes (conn := fst) (put := λ c n, (c, snd n))
    demo_adaptor demo_polled demo_dram _ [0]); [repeat split; reflexivity | reflexivity..].
Defined.

(** ** Properties *)

(** [set] and [get] of the memory controller on every destination address:
    a domain above 3 or a table other than the parameters changes nothing, and a
    parameter write changes exactly the word [3 * domain + offset] of the table,
    or leaves the table's memory when that word does not exist. *)
Theorem dram_set_spec s d a v :
  dram_wf s → 0 ≤ d →
  match dram_set s d a v with
  | Ok s' =>
      dc_stats s' = dc_stats s ∧ dram_wf s' ∧
      (if (4 <=? d) || negb (CPA_DESTADDR_TYPE a =? TYPE_PARAMETERS) then s' = s
       else dc_params s' !! Z.to_nat (3 * d + CPA_DESTADDR_OFFSET a) = Some v ∧
            ∀ i, i ≠ Z.to_nat (3 * d + CPA_DESTADDR_OFFSET a) → dc_params s' !! i = dc_params s !! i)
  | Err e => e = OutOfBounds ∧ d < 4 ∧ 96 ≤ 3 * d + CPA_DESTADDR_OFFSET a
  end.
Proof.
  intros Hwf Hd. unfold dram_set. destruct (Z.leb_spec 4 d); simpl; [done|].
  destruct (CPA_DESTADDR_TYPE a =? TYPE_PARAMETERS); simpl; [|done].
  assert (0 ≤ CPA_DESTADDR_OFFSET a) as Ho.
  { unfold CPA_DESTADDR_OFFSET. case_match; rewrite bits_mod by lia; apply Z.mod_pos_bound; lia. }
  unfold dram_wf in *. unfold upd_at. case_decide as Hin; simpl; [|split; [done|lia]].
  split; [done|]. split; [by rewrite length_insert|]. split.
  - apply list_lookup_insert_eq. lia.
  - intros i Hi. by apply list_lookup_insert_ne.
Qed.

Lemma dram_set_spec_witness :
  dram_wf demo_dram ∧
  match dram_set demo_dram 1 2 0xC with
  | Ok s' => dc_stats s' = dc_stats demo_dram ∧ dram_wf s' ∧
      dc_params s' !! 5%nat = Some 0xC ∧ ∀ i, i ≠ 5%nat → dc_params s' !! i = dc_params demo_dram !! i
  | Err _ => False
  end.
Proof. split; [done|]. exact (dram_set_spec demo_dram 1 2 0xC eq_refl ltac:(done)). Defined.

(** The offset is not checked against the row: a write of domain [d] at
    offset [3 + k] succeeds and is the write of parameter [k] of domain [d + 1],
    so the manager's access on behalf of one domain changes the DRAM priority of
    another. *)
Theorem dram_set_crosses_domains s d k v :
  dram_wf s → 0 ≤ d → d + 1 < 4 → 0 ≤ k < 3 →
  dram_set s d (3 + k) v = dram_set s (d + 1) k v ∧
  ∃ s', dram_set s d (3 + k) v = Ok s' ∧ dram_get s' (d + 1) k = Ok v.
Proof.
  intros Hwf Hd Hd1 Hk.
  assert (dram_set s d (3 + k) v = dram_set s (d + 1) k v) as ->.
  { rewrite !dram_set_param by lia. by replace (3 * (d + 1) + k) with (3 * d + (3 + k)) by lia. }
  split; [done|]. rewrite dram_set_param by lia.
  destruct (upd_at (dc_params s) (3 * (d + 1) + k) v) as [ps|] eqn:E.
  - eexists. split; [done|]. rewrite dram_get_param by lia. by eapply at_upd_eq.
  - unfold upd_at in E. rewrite decide_True in E; [done|]. unfold dram_wf in Hwf. lia.
Qed.

Lemma dram_set_crosses_domains_witness :
  dram_set demo_dram 0 4 63 = dram_set demo_dram 1 1 63 ∧
  ∃ s', dram_set demo_dram 0 4 63 = Ok s' ∧ dram_get s' 1 1 = Ok 63.
Proof. apply (dram_set_crosses_domains demo_dram 0 1 63); done || lia. Defined.

