(* ===== verification/CacheBlk.v ===== *)
(** * Cache blocks

    [src/pardg5-v/hyper/mem/cache/blk.hh]: the status bits of a block, its
    domain tag, its coherence state as [print] reads it, and the
    load-locked/store-conditional protocol kept in its lock list. *)

From S2P Require Import Prelude BaseLib Packet.
Local Open Scope Z_scope.

(** [enum CacheBlkStatusBits]. *)
Definition BlkValid : Z := 0x01.
Definition BlkWritable : Z := 0x02.
Definition BlkReadable : Z := 0x04.
Definition BlkDirty : Z := 0x08.
Definition BlkReferenced : Z := 0x10.
Definition BlkHWPrefetched : Z := 0x20.
Definition BlkSecure : Z := 0x40.

(** [ContextSwitchTaskId] and [Request::invldMasterId]. *)
Definition Unknown : Z := 1024.
Definition NumTaskId : Z := 1025.
Definition invldMasterId : Z := 65535.

(** [CacheBlk::Lock]. *)
Record Lock : Type := mkLock {
  lk_contextId : Z;
  lk_lowAddr : Z;
  lk_highAddr : Z
}.

Definition Lock_make (req : Request) : Lock :=
  mkLock (req_contextId req) (req_paddr req) (wrap 64 (req_paddr req + req_size req - 1)).

Definition matchesContext (l : Lock) (req : Request) : bool :=
  let req_low := req_paddr req in
  let req_high := wrap 64 (req_low + req_size req - 1) in
  (lk_contextId l =? req_contextId req) &&
  ((lk_lowAddr l <=? req_low) && (req_high <=? lk_highAddr l)).

Definition overlapping (l : Lock) (req : Request) : bool :=
  let req_low := req_paddr req in
  let req_high := wrap 64 (req_low + req_size req - 1) in
  (req_low <=? lk_highAddr l) && (lk_lowAddr l <=? req_high).

(** [cb_data] is the offset of the block's bytes in the data store ([None] for
    the null pointer); [cb_set] and [cb_way] are [int]s, [cb_qosTag] is the
    [int] that holds the tag of the owner. *)
Record CacheBlk : Type := mkBlk {
  cb_task_id : Z;
  cb_asid : Z;
  cb_tag : Z;
  cb_data : option Z;
  cb_size : Z;
  cb_status : Z;
  cb_whenReady : Z;
  cb_set : Z;
  cb_way : Z;
  cb_isTouched : bool;
  cb_refCount : Z;
  cb_qosTag : Z;
  cb_srcMasterId : Z;
  cb_tickInserted : Z;
  cb_lockList : list Lock
}.
#[export] Instance eta_CacheBlk : Eta CacheBlk := λ b,
  mkBlk (cb_task_id b) (cb_asid b) (cb_tag b) (cb_data b) (cb_size b) (cb_status b)
    (cb_whenReady b) (cb_set b) (cb_way b) (cb_isTouched b) (cb_refCount b) (cb_qosTag b)
    (cb_srcMasterId b) (cb_tickInserted b) (cb_lockList b).

(** The constructor; it leaves [way] unset, so its value is an argument. *)
Definition CacheBlk_make (way : Z) : CacheBlk :=
  mkBlk Unknown (-1) 0 None 0 0 0 (-1) way false 0 (-1) invldMasterId 0 [].

(** [operator=] copies some of the fields. *)
Definition CacheBlk_assign (b rhs : CacheBlk) : CacheBlk :=
  b <| cb_asid := cb_asid rhs |> <| cb_tag := cb_tag rhs |> <| cb_data := cb_data rhs |>
    <| cb_size := cb_size rhs |> <| cb_status := cb_status rhs |>
    <| cb_whenReady := cb_whenReady rhs |> <| cb_set := cb_set rhs |>
    <| cb_refCount := cb_refCount rhs |> <| cb_task_id := cb_task_id rhs |>.

Definition blk_isWritable (b : CacheBlk) : bool :=
  let needed_bits := Z.lor BlkWritable BlkValid in
  Z.land (cb_status b) needed_bits =? needed_bits.
Definition blk_isReadable (b : CacheBlk) : bool :=
  let needed_bits := Z.lor BlkReadable BlkValid in
  Z.land (cb_status b) needed_bits =? needed_bits.
Definition blk_isValid (b : CacheBlk) : bool := negb (Z.land (cb_status b) BlkValid =? 0).
Definition blk_isDirty (b : CacheBlk) : bool := negb (Z.land (cb_status b) BlkDirty =? 0).
Definition blk_isReferenced (b : CacheBlk) : bool := negb (Z.land (cb_status b) BlkReferenced =? 0).
Definition blk_wasPrefetched (b : CacheBlk) : bool :=
  negb (Z.land (cb_status b) BlkHWPrefetched =? 0).
Definition blk_isSecure (b : CacheBlk) : bool := negb (Z.land (cb_status b) BlkSecure =? 0).

Definition getGuestID (b : CacheBlk) : Z := QOSTAG_TO_GUESTID (cb_qosTag b).
Definition setGuestID (b : CacheBlk) (guest : Z) : CacheBlk :=
  b <| cb_qosTag := swrap 32 (SET_GUESTID (cb_qosTag b) guest) |>.

Definition trackLoadLocked (b : CacheBlk) (p : Packet) : result CacheBlk :=
  assertb (pkt_isLLSC p) ;;
  Ok (b <| cb_lockList := Lock_make (pkt_req p) :: cb_lockList b |>).

(** The erasing loop of [clearLoadLocks]. *)
Fixpoint erase_overlapping (locks : list Lock) (req : Request) : list Lock :=
  match locks with
  | [] => []
  | l :: locks' =>
      if overlapping l req then erase_overlapping locks' req
      else l :: erase_overlapping locks' req
  end.

Definition clearLoadLocks (b : CacheBlk) (req : option Request) : CacheBlk :=
  match req with
  | None => b <| cb_lockList := [] |>
  | Some r => b <| cb_lockList := erase_overlapping (cb_lockList b) r |>
  end.

Definition blk_invalidate (b : CacheBlk) : CacheBlk :=
  clearLoadLocks (b <| cb_status := 0 |> <| cb_isTouched := false |>) None.

(** [checkWrite]: the block and the request after the write check, and whether
    the write proceeds. *)
Definition checkWrite (b : CacheBlk) (p : Packet) : CacheBlk * Packet * bool :=
  let req := pkt_req p in
  if pkt_isLLSC p then
    let success := existsb (λ l, matchesContext l req) (cb_lockList b) in
    let req := req <| req_extraData := if success then 1 else 0 |> in
    (clearLoadLocks b (Some req), p <| pkt_req := req |>, success)
  else (clearLoadLocks b (Some req), p, true).

(** The coherence letter of [print]. *)
Inductive Moesi : Type := StM | StO | StE | StS | StI | StT.
Definition print_state (b : CacheBlk) : Moesi :=
  let state := Z.lor (Z.lor (Z.shiftl (Z.b2z (blk_isWritable b)) 2) (Z.shiftl (Z.b2z (blk_isDirty b)) 1))
                 (Z.b2z (blk_isValid b)) in
  if state =? 7 then StM else if state =? 3 then StO else if state =? 5 then StE
  else if state =? 1 then StS else if state =? 0 then StI else StT.

(** [CacheBlkIsDirtyVisitor] as a traversal of the blocks with early exit. *)
Fixpoint visit_isDirty (blks : list CacheBlk) : bool :=
  match blks with
  | [] => false
  | b :: blks' => if blk_isDirty b then true else visit_isDirty blks'
  end.

(** ** Lemmas *)

Lemma getGuestID_setGuestID b g : getGuestID (setGuestID b g) = g mod 256.
Proof.
  rewrite <-(QOSTAG_SET_GUESTID (cb_qosTag b) g). unfold getGuestID, setGuestID, QOSTAG_TO_GUESTID.
  simpl. f_equal. rewrite !land_0xFF. unfold swrap, wrap.
  rewrite <-(Z.mod_mod_divide (SET_GUESTID (cb_qosTag b) g) (2 ^ 32) 256) by (exists (2 ^ 24); done).
  generalize (SET_GUESTID (cb_qosTag b) g). intros x.
  replace ((x + 2 ^ (32 - 1)) mod 2 ^ 32 - 2 ^ (32 - 1))
    with (x mod 2 ^ 32 + (- (if decide (2 ^ 31 ≤ x mod 2 ^ 32) then 2 ^ 24 else 0)) * 256).
  - by rewrite Z.mod_add.
  - pose proof (Z.mod_pos_bound x (2 ^ 32) ltac:(lia)).
    rewrite <-(Zplus_mod_idemp_l x). case_decide.
    + rewrite <-(Z.mod_unique (x mod 2 ^ 32 + 2 ^ (32 - 1)) (2 ^ 32) 1 (x mod 2 ^ 32 - 2 ^ 31)); lia.
    + rewrite (Z.mod_small (x mod 2 ^ 32 + _)); lia.
Qed.

Lemma invalidate_not_valid b : blk_isValid (blk_invalidate b) = false.
Proof. done. Qed.

Lemma erase_overlapping_filter locks req :
  erase_overlapping locks req = filter (λ l, overlapping l req = false) locks.
Proof.
  induction locks as [|l locks IH]; [done|]. simpl. rewrite filter_cons, IH.
  by case_decide; destruct (overlapping l req).
Qed.

Lemma matchesContext_overlapping l req :
  req_size req > 0 → in_width 64 (req_paddr req + req_size req - 1) → 0 ≤ req_paddr req →
  matchesContext l req = true → overlapping l req = true.
Proof.
  unfold matchesContext, overlapping. intros Hs Hw Ha. rewrite wrap_small by done.
  rewrite !andb_true_iff, !Z.leb_le. intros [_ [H1 H2]]. lia.
Qed.

Lemma visit_isDirty_exists blks : visit_isDirty blks = true ↔ ∃ b, b ∈ blks ∧ blk_isDirty b = true.
Proof.
  induction blks as [|b blks IH]; simpl; [set_solver|].
  destruct (blk_isDirty b) eqn:E; [split; [set_solver|done]|].
  rewrite IH. split; intros (b0 & Hin & Hd); [exists b0; set_solver|].
  apply elem_of_cons in Hin as [->|]; [congruence | eauto].
Qed.

(** The status predicates as bits of the status word. *)
Lemma isValid_bit b : blk_isValid b = Z.testbit (cb_status b) 0.
Proof. unfold blk_isValid. change BlkValid with (Z.shiftl 1 0). by rewrite land_bit_zero, negb_involutive by lia. Qed.
Lemma isDirty_bit b : blk_isDirty b = Z.testbit (cb_status b) 3.
Proof. unfold blk_isDirty. change BlkDirty with (Z.shiftl 1 3). by rewrite land_bit_zero, negb_involutive by lia. Qed.
Lemma isSecure_bit b : blk_isSecure b = Z.testbit (cb_status b) 6.
Proof. unfold blk_isSecure. change BlkSecure with (Z.shiftl 1 6). by rewrite land_bit_zero, negb_involutive by lia. Qed.

Lemma land_two_bits x i : 0 < i → (Z.land x (2 ^ i + 1) =? 2 ^ i + 1) = Z.testbit x i && Z.testbit x 0.
Proof.
  intros Hi. assert (∀ j, Z.testbit (2 ^ i + 1) j = bool_decide (j = i) || bool_decide (j = 0)) as Hb.
  { intros j. replace (2 ^ i + 1) with (Z.lor (2 ^ i) 1).
    - rewrite Z.lor_spec. destruct (decide (0 ≤ j)); [|rewrite !Z.testbit_neg_r by lia; zbits_cases; done].
      rewrite Z.pow2_bits_eqb by lia. change 1 with (2 ^ 0). rewrite Z.pow2_bits_eqb by lia.
      destruct (Z.eqb_spec i j), (Z.eqb_spec 0 j); zbits_cases; done.
    - rewrite <-Z.add_lor_land. assert (Z.land (2 ^ i) 1 = 0) as ->; [|lia].
      apply Z.bits_inj'. intros n Hn. rewrite Z.land_spec, Z.testbit_0_l, Z.pow2_bits_eqb by lia.
      change 1 with (2 ^ 0). rewrite Z.pow2_bits_eqb by lia. destruct (Z.eqb_spec i n), (Z.eqb_spec 0 n); try done; lia. }
  destruct (Z.eqb_spec (Z.land x (2 ^ i + 1)) (2 ^ i + 1)) as [E|E].
  - symmetry. apply andb_true_iff. split;
      [apply (f_equal (λ z, Z.testbit z i)) in E | apply (f_equal (λ z, Z.testbit z 0)) in E];
      rewrite Z.land_spec, Hb in E; revert E; zbits_cases; rewrite ?andb_true_r; done.
  - symmetry. apply not_true_is_false. intros [H1 H0]%andb_true_iff. apply E. apply Z.bits_inj'. intros n Hn.
    rewrite Z.land_spec, Hb. zbits_cases; subst; rewrite ?H1, ?H0; btauto.
Qed.
Lemma isWritable_bit b : blk_isWritable b = Z.testbit (cb_status b) 1 && Z.testbit (cb_status b) 0.
Proof. apply (land_two_bits (cb_status b) 1). lia. Qed.
Lemma isReadable_bit b : blk_isReadable b = Z.testbit (cb_status b) 2 && Z.testbit (cb_status b) 0.
Proof. apply (land_two_bits (cb_status b) 2). lia. Qed.

Lemma isWritable_isValid b : blk_isWritable b = true → blk_isValid b = true.
Proof.
  unfold blk_isWritable, blk_isValid. rewrite Z.eqb_eq. intros H.
  assert (Z.land (cb_status b) BlkValid = BlkValid) as ->; [|done].
  change BlkValid with (Z.land (Z.lor BlkWritable BlkValid) BlkValid).
  by rewrite Z.land_assoc, H.
Qed.

(** A store that proceeds leaves no lock on the bytes it writes. *)
Lemma checkWrite_clears b p b' p' ok :
  checkWrite b p = (b', p', ok) →
  cb_lockList b' = filter (λ l, overlapping l (pkt_req p) = false) (cb_lockList b).
Proof.
  unfold checkWrite. destruct (pkt_isLLSC p); intros [= <- _ _]; simpl; by rewrite erase_overlapping_filter.
Qed.

(** A store does not clear every lock of the block, as the comments of
    [checkWrite] and [trackLoadLocked] say: a store conditional whose bytes it
    leaves alone still succeeds. *)
Lemma disjoint_lock_survives b w b' w' ok sc l :
  checkWrite b w = (b', w', ok) → l ∈ cb_lockList b → overlapping l (pkt_req w) = false →
  matchesContext l (pkt_req sc) = true → snd (checkWrite b' sc) = true.
Proof.
  intros Hw Hl Ho Hm. unfold checkWrite at 1. destruct (pkt_isLLSC sc); [|done]. cbn. apply existsb_exists. exists l.
  rewrite (checkWrite_clears _ _ _ _ _ Hw). split; [|done]. by apply list_elem_of_In, list_elem_of_filter.
Qed.

(** ** Properties *)

(** C36: load-locked and store-conditional, as the code keeps the locks: a store
    conditional succeeds exactly when its context holds a lock that covers its
    bytes; after any store (conditional or not, of any context) every lock that
    overlaps the stored bytes is gone and every other lock is kept, so a store
    conditional to those bytes fails until its context has locked them again.
    The comments of [checkWrite] and [trackLoadLocked] say that a store clears
    all locks of the block; [clearLoadLocks] and its comment say the overlapping
    ones. *)
Theorem llsc_protocol (b : CacheBlk) (w sc : Packet) b' w' ok :
  checkWrite b w = (b', w', ok) →
  pkt_isLLSC sc = true → pkt_req sc = pkt_req w →
  0 < req_size (pkt_req w) → 0 ≤ req_paddr (pkt_req w) →
  in_width 64 (req_paddr (pkt_req w) + req_size (pkt_req w) - 1) →
  (ok = true ↔ pkt_isLLSC w = false ∨ ∃ l, l ∈ cb_lockList b ∧ matchesContext l (pkt_req w) = true) ∧
  (∀ l, l ∈ cb_lockList b' ↔ l ∈ cb_lockList b ∧ overlapping l (pkt_req w) = false) ∧
  snd (checkWrite b' sc) = false ∧
  ∀ ll b'', pkt_req ll = pkt_req w → trackLoadLocked b' ll = Ok b'' → snd (checkWrite b'' sc) = true.
Proof.
  intros Hw Hsc Hreq Hs Ha Hwid. pose proof (checkWrite_clears _ _ _ _ _ Hw) as Hl.
  split; [|split; [|split]].
  - unfold checkWrite in Hw. destruct (pkt_isLLSC w); injection Hw as _ _ <-; [|naive_solver].
    rewrite existsb_exists. setoid_rewrite list_elem_of_In. naive_solver.
  - intros l. rewrite Hl, list_elem_of_filter. naive_solver.
  - unfold checkWrite. rewrite Hsc, Hreq, Hl. simpl. apply not_true_is_false.
    rewrite existsb_exists. intros (l & Hin & Hm). apply list_elem_of_In, list_elem_of_filter in Hin as [Ho _].
    by rewrite (matchesContext_overlapping l) in Ho by (done || lia).
  - intros ll b'' Hll Ht. unfold trackLoadLocked in Ht. inv_ok.
    unfold checkWrite. rewrite Hsc, Hreq. simpl. apply orb_true_iff. left.
    unfold matchesContext, Lock_make. simpl. rewrite Hll, Z.eqb_refl, Z.leb_refl, Z.leb_refl. done.
Qed.

Definition demo_store : Packet :=
  mkPacket 0xB00 StoreCondReq (mkRequest 0x1000 4 0 0 3 0 0 0) None 0 0x1000 false 4 0 0
    InvalidCmd 0 0 0 0 [].
Definition demo_locked : CacheBlk :=
  (CacheBlk_make 0) <| cb_lockList := [mkLock 3 0x1000 0x1003; mkLock 5 0x1008 0x100B] |>.

Lemma llsc_protocol_witness :
  snd (checkWrite demo_locked demo_store) = true ∧
  snd (checkWrite (fst (fst (checkWrite demo_locked demo_store))) demo_store) = false.
Proof.
  split; [reflexivity|].
  by destruct (llsc_protocol demo_locked demo_store demo_store _ _ _ eq_refl eq_refl eq_refl
    ltac:(done) ltac:(done) ltac:(split; done)) as (_ & _ & H & _).
Defined.

(** The status bits and the coherence letter agree: [print] reports M, O, E, S or I
    according to writable/dirty/valid, the transient letter is reported exactly
    for a dirty invalid block, and an invalidated block is I whatever it was. *)
Theorem print_state_moesi (b : CacheBlk) :
  (print_state b = StM ↔ blk_isValid b = true ∧ blk_isWritable b = true ∧ blk_isDirty b = true) ∧
  (print_state b = StO ↔ blk_isValid b = true ∧ blk_isWritable b = false ∧ blk_isDirty b = true) ∧
  (print_state b = StE ↔ blk_isValid b = true ∧ blk_isWritable b = true ∧ blk_isDirty b = false) ∧
  (print_state b = StS ↔ blk_isValid b = true ∧ blk_isWritable b = false ∧ blk_isDirty b = false) ∧
  (print_state b = StI ↔ blk_isValid b = false ∧ blk_isDirty b = false) ∧
  (print_state b = StT ↔ blk_isValid b = false ∧ blk_isDirty b = true) ∧
  print_state (blk_invalidate b) = StI.
Proof.
  pose proof (isWritable_isValid b) as Hwv. unfold print_state.
  change (print_state (blk_invalidate b)) with StI.
  destruct (blk_isWritable b), (blk_isDirty b), (blk_isValid b); simpl;
    try (discriminate (Hwv eq_refl)); repeat split; intros; naive_solver.
Qed.
