(* ===== verification/CacheSet.v ===== *)
(** * An associative set

    [src/pardg5-v/hyper/mem/cache/tags/cacheset.hh]: the array of block pointers
    of one set in recency order (position 0 is the most recently used), the tag
    search and the two rotations that keep the order.  A block pointer is the
    index of the block in the tag store's array. *)

From S2P Require Import Prelude BaseLib Packet CacheBlk.
Local Open Scope Z_scope.

(** The match condition of [findBlk] on one block. *)
Definition blk_matches (b : CacheBlk) (guest tag : Z) (is_secure : bool) : bool :=
  (cb_tag b =? tag) && blk_isValid b && (getGuestID b =? guest) && eqb (blk_isSecure b) is_secure.

(** The loop of [findBlk] from way [i] on: the way and the block found, or the
    associativity and no block. *)
Fixpoint findBlk (heap : list CacheBlk) (set : list nat) (guest tag : Z) (is_secure : bool) (i : Z)
  : result (Z * option nat) :=
  match set with
  | [] => Ok (i, None)
  | k :: set' =>
      b ← at_ heap (Z.of_nat k);
      if blk_matches b guest tag is_secure then Ok (i, Some k)
      else findBlk heap set' guest tag is_secure (i + 1)
  end.

(** The [do ... while] loop of [moveToHead] on the positions from [i] on: write
    [next] into the position and carry the pointer that was there, until that
    pointer is [blk]; past the last position the assertion fails. *)
Fixpoint shift_until (set : list nat) (next blk : nat) : result (list nat) :=
  match set with
  | [] => Err AssertFail
  | tmp :: set' =>
      if (tmp =? blk)%nat then Ok (next :: set')
      else rest ← shift_until set' tmp blk; Ok (next :: rest)
  end.

Definition moveToHead (set : list nat) (blk : nat) : result (list nat) :=
  head ← at_ set 0;
  if (head =? blk)%nat then Ok set else shift_until set blk blk.

(** [moveToTail] runs the same loop from the last position downwards. *)
Definition moveToTail (set : list nat) (blk : nat) : result (list nat) :=
  tail ← at_ set (Z.of_nat (length set) - 1);
  if (tail =? blk)%nat then Ok set
  else shifted ← shift_until (reverse set) blk blk; Ok (reverse shifted).

(** ** Lemmas *)

Lemma shift_until_spec set next blk l1 l2 :
  set = l1 ++ blk :: l2 → blk ∉ l1 → shift_until set next blk = Ok (next :: l1 ++ l2).
Proof.
  revert set next. induction l1 as [|x l1 IH]; intros set next -> Hn; simpl.
  - by rewrite Nat.eqb_refl.
  - apply not_elem_of_cons in Hn as [Hx Hn]. destruct (Nat.eqb_spec x blk); [congruence|].
    by rewrite (IH _ x eq_refl Hn).
Qed.

Lemma shift_until_absent set next blk : blk ∉ set → shift_until set next blk = Err AssertFail.
Proof.
  revert next. induction set as [|x set IH]; intros next Hn; simpl; [done|].
  apply not_elem_of_cons in Hn as [Hx Hn]. destruct (Nat.eqb_spec x blk); [congruence|].
  by rewrite IH.
Qed.

Lemma moveToHead_split l1 l2 blk :
  blk ∉ l1 → moveToHead (l1 ++ blk :: l2) blk = Ok (blk :: l1 ++ l2).
Proof.
  intros Hn. unfold moveToHead. destruct l1 as [|x l1]; simpl; [by rewrite Nat.eqb_refl|].
  apply not_elem_of_cons in Hn as [Hx Hn]. destruct (Nat.eqb_spec x blk); [congruence|].
  by rewrite (shift_until_spec (l1 ++ blk :: l2) x blk l1 l2).
Qed.

Lemma moveToTail_split l1 l2 blk :
  blk ∉ l2 → moveToTail (l1 ++ blk :: l2) blk = Ok (l1 ++ l2 ++ [blk]).
Proof.
  intros Hn. unfold moveToTail.
  destruct (at_total (l1 ++ blk :: l2) (Z.of_nat (length (l1 ++ blk :: l2)) - 1)) as [t Ht].
  { rewrite length_app. simpl. lia. }
  rewrite Ht. simpl. apply at_Ok in Ht as [_ Ht]. destruct (Nat.eqb_spec t blk) as [->|Hne].
  - destruct l2 as [|y l2] using rev_ind; [done|]. exfalso.
    rewrite length_app in Ht. simpl in Ht. rewrite length_app in Ht. simpl in Ht.
    rewrite lookup_app_r in Ht by lia. apply Hn. apply elem_of_app. right.
    destruct (Z.to_nat _ - length l1)%nat eqn:E in Ht; [lia|]. simpl in Ht.
    rewrite lookup_app_r in Ht by lia. replace (n - length l2)%nat with 0%nat in Ht by lia.
    simpl in Ht. injection Ht as ->. by apply list_elem_of_singleton.
  - rewrite reverse_app, reverse_cons, <-app_assoc. simpl.
    rewrite (shift_until_spec _ blk blk (reverse l2) (reverse l1)) by (done || by rewrite elem_of_reverse).
    simpl. by rewrite reverse_cons, reverse_app, !reverse_involutive, app_assoc.
Qed.

(** The other blocks of a set, in their order. *)
Definition others (set : list nat) (blk : nat) : list nat := filter (λ k, k ≠ blk) set.

Lemma others_absent set blk : blk ∉ set → others set blk = set.
Proof.
  intros Hn. unfold others. induction set as [|x set IH]; [done|].
  apply not_elem_of_cons in Hn as [Hx Hn]. rewrite filter_cons_True by done. by rewrite IH.
Qed.

Lemma others_split l1 l2 blk : NoDup (l1 ++ blk :: l2) → others (l1 ++ blk :: l2) blk = l1 ++ l2.
Proof.
  intros (_ & H1 & H2)%NoDup_app. apply NoDup_cons in H2 as [H2 _].
  unfold others. rewrite filter_app, filter_cons_False by naive_solver.
  fold (others l1 blk) (others l2 blk). rewrite !others_absent; [done..|].
  intros Hin. apply (H1 blk Hin). left.
Qed.

Lemma moveToHead_others set blk :
  NoDup set → blk ∈ set → moveToHead set blk = Ok (blk :: others set blk).
Proof.
  intros Hnd Hin. destruct (list_elem_of_split_l _ _ Hin) as (l1 & l2 & -> & Hn).
  by rewrite others_split, moveToHead_split.
Qed.

Lemma moveToTail_others set blk :
  NoDup set → blk ∈ set → moveToTail set blk = Ok (others set blk ++ [blk]).
Proof.
  intros Hnd Hin. destruct (list_elem_of_split_r _ _ Hin) as (l1 & l2 & -> & Hn).
  by rewrite others_split, moveToTail_split, app_assoc.
Qed.

Lemma others_perm set blk : NoDup set → blk ∈ set → blk :: others set blk ≡ₚ set.
Proof.
  intros Hnd Hin. destruct (list_elem_of_split_l _ _ Hin) as (l1 & l2 & -> & Hn).
  rewrite others_split by done. apply Permutation_middle.
Qed.

(** [findBlk] returns the first way whose block matches. *)
Lemma findBlk_Some heap set g t sec i w k :
  findBlk heap set g t sec i = Ok (w, Some k) →
  k ∈ set ∧ ∃ b, heap !! k = Some b ∧ blk_matches b g t sec = true.
Proof.
  revert i. induction set as [|x set IH]; intros i H; simpl in H; [done|]. inv_ok.
  apply at_Ok in E as [_ E]. rewrite Nat2Z.id in E.
  destruct (blk_matches a g t sec) eqn:Em; [injection H as <- <-; set_solver|].
  destruct (IH _ H) as (? & ?). set_solver.
Qed.

Lemma findBlk_None heap set g t sec i w :
  findBlk heap set g t sec i = Ok (w, None) →
  w = i + Z.of_nat (length set) ∧
  ∀ k b, k ∈ set → heap !! k = Some b → blk_matches b g t sec = false.
Proof.
  revert i. induction set as [|x set IH]; intros i H; simpl in H.
  - injection H as <-. split; [simpl; lia | set_solver].
  - inv_ok. apply at_Ok in E as [_ E]. rewrite Nat2Z.id in E.
    destruct (blk_matches a g t sec) eqn:Em; [done|].
    destruct (IH _ H) as (-> & IH'). split; [simpl; lia|].
    intros k b [->|Hin]%elem_of_cons Hb; [congruence | eauto].
Qed.

Lemma findBlk_total heap set g t sec i :
  (∀ k, k ∈ set → (k < length heap)%nat) → is_ok (findBlk heap set g t sec i).
Proof.
  revert i. induction set as [|x set IH]; intros i H; simpl; [eexists; done|].
  destruct (at_total heap (Z.of_nat x)) as [b ->]; [specialize (H x); set_solver by lia|].
  simpl. case_match; [eexists; done|]. apply IH. set_solver.
Qed.

(** ** Properties *)

(** The two rotations of a set whose ways hold distinct blocks: moving a
    block to the head (tail) puts it in the most (least) recently used position
    and keeps the relative order of all the others, so the set is a permutation
    of what it was; the assertion in the loop fails exactly when the block is
    not in the set. *)
Theorem recency_rotation (set : list nat) (blk : nat) :
  NoDup set → set ≠ [] →
  (blk ∈ set →
    moveToHead set blk = Ok (blk :: others set blk) ∧
    moveToTail set blk = Ok (others set blk ++ [blk]) ∧
    blk :: others set blk ≡ₚ set) ∧
  (blk ∉ set → moveToHead set blk = Err AssertFail ∧ moveToTail set blk = Err AssertFail).
Proof.
  intros Hnd Hne. split; [intros Hin|intros Hn].
  - auto using moveToHead_others, moveToTail_others, others_perm.
  - assert (0 < length set)%nat by (destruct set; simpl; [done | lia]). split.
    + unfold moveToHead. destruct (at_total set 0) as [h Hh]; [lia|]. rewrite Hh. simpl.
      apply at_Ok in Hh as [_ Hh]. apply list_elem_of_lookup_2 in Hh.
      destruct (Nat.eqb_spec h blk); [congruence|]. by apply shift_until_absent.
    + unfold moveToTail. destruct (at_total set (Z.of_nat (length set) - 1)) as [h Hh]; [lia|].
      rewrite Hh. simpl. apply at_Ok in Hh as [_ Hh]. apply list_elem_of_lookup_2 in Hh.
      destruct (Nat.eqb_spec h blk); [congruence|].
      by rewrite shift_until_absent by (by rewrite elem_of_reverse).
Qed.

Lemma recency_rotation_witness :
  moveToHead [4; 7; 5; 6]%nat 5%nat = Ok [5; 4; 7; 6]%nat ∧
  moveToTail [4; 7; 5; 6]%nat 7%nat = Ok [4; 5; 6; 7]%nat.
Proof.
  destruct (recency_rotation [4; 7; 5; 6]%nat 5%nat) as [H5 _]; [by apply (bool_decide_unpack _)|done|].
  destruct (recency_rotation [4; 7; 5; 6]%nat 7%nat) as [H7 _]; [by apply (bool_decide_unpack _)|done|].
  split; [apply H5 | apply H7]; by apply (bool_decide_unpack _).
Defined.
