(* ===== verification/LruTags.v ===== *)
(** * The way-partitioned LRU tag store

    [src/pardg5-v/hyper/mem/cache/tags/lru.cc] and [.hh] with the statistics of
    [tags/base.cc] and [.hh]: lookup by (domain, tag, security), LRU replacement
    restricted by a per-domain way mask, insertion, invalidation, the
    statistics, and the control plane that programs the masks. *)

From S2P Require Import Prelude BaseLib Packet CPNet CacheBlk CacheSet.
Local Open Scope Z_scope.

(** The statistics of [BaseTags]. *)
Record TagStats : Type := mkTagStats {
  ts_replacements : Z;
  ts_tagsInUse : Z;
  ts_totalRefs : Z;
  ts_sampledRefs : Z;
  ts_warmupCycle : Z;
  ts_occupancies : list Z;
  ts_occupanciesTaskId : list Z;
  ts_ageTaskId : list (list Z);
  ts_tagAccesses : Z;
  ts_dataAccesses : Z;
  ts_guestCapacity : list Z
}.
#[export] Instance eta_TagStats : Eta TagStats := λ t,
  mkTagStats (ts_replacements t) (ts_tagsInUse t) (ts_totalRefs t) (ts_sampledRefs t)
    (ts_warmupCycle t) (ts_occupancies t) (ts_occupanciesTaskId t) (ts_ageTaskId t)
    (ts_tagAccesses t) (ts_dataAccesses t) (ts_guestCapacity t).

(** [regStats]: the sizes of the statistics vectors. *)
Definition TagStats_make (maxMasters : Z) : TagStats :=
  mkTagStats 0 0 0 0 0 (replicate (Z.to_nat maxMasters) 0) (replicate (Z.to_nat NumTaskId) 0)
    (replicate (Z.to_nat NumTaskId) (replicate 5 0)) 0 0 (replicate 4 0).

(** The members of [BaseTags] and [LRU].  [lt_sets] holds for each set the
    block indices in recency order. *)
Record LRU : Type := mkLRU {
  lt_blkSize : Z;
  lt_hitLatency : Z;
  lt_warmupBound : Z;
  lt_warmedUp : bool;
  lt_numBlocks : Z;
  lt_assoc : Z;
  lt_numSets : Z;
  lt_sequentialAccess : bool;
  lt_sets : list (list nat);
  lt_blks : list CacheBlk;
  lt_setShift : Z;
  lt_tagShift : Z;
  lt_setMask : Z;
  lt_blkMask : Z;
  lt_waymasks : list Z;
  lt_stats : TagStats
}.
#[export] Instance eta_LRU : Eta LRU := λ t,
  mkLRU (lt_blkSize t) (lt_hitLatency t) (lt_warmupBound t) (lt_warmedUp t) (lt_numBlocks t)
    (lt_assoc t) (lt_numSets t) (lt_sequentialAccess t) (lt_sets t) (lt_blks t) (lt_setShift t)
    (lt_tagShift t) (lt_setMask t) (lt_blkMask t) (lt_waymasks t) (lt_stats t).

(** The block the constructor links in as way [j] of set [i]. *)
Definition link_blk (blkSize : Z) (assoc i j : nat) : CacheBlk :=
  let blkIndex := (i * assoc + j)%nat in
  (blk_invalidate ((CacheBlk_make 0) <| cb_data := Some (blkSize * Z.of_nat blkIndex) |>))
    <| cb_tag := Z.of_nat j |> <| cb_whenReady := 0 |> <| cb_isTouched := false |>
    <| cb_size := blkSize |> <| cb_set := Z.of_nat i |> <| cb_way := Z.of_nat j |>.

(** The constructor.  The two nested loops run over the sets and the ways with
    [blkIndex = i * assoc + j]. *)
Definition LRU_make (size block_size assoc hit_latency : Z) (sequential : bool)
    (waymasks : list Z) (maxMasters : Z) : result LRU :=
  if wrap 32 (block_size * assoc) =? 0 then Err DivByZero else
  let numSets := wrap 32 (size / wrap 32 (block_size * assoc)) in
  fatal_if ((block_size <? 4) || negb (isPowerOf2 block_size)) ;;
  fatal_if ((numSets <=? 0) || negb (isPowerOf2 numSets)) ;;
  fatal_if (assoc <=? 0) ;;
  fatal_if (hit_latency <=? 0) ;;
  setShift ← floorLog2 block_size;
  setBits ← floorLog2 numSets;
  let ns := Z.to_nat numSets in let a := Z.to_nat assoc in
  Ok (mkLRU block_size hit_latency (wrap 32 (numSets * assoc)) false (wrap 32 (numSets * assoc))
    assoc numSets sequential
    ((λ i, (λ j, i * a + j)%nat <$> seq 0 a) <$> seq 0 ns)
    (i ← seq 0 ns; j ← seq 0 a; [link_blk block_size a i j])
    setShift (setShift + setBits) (numSets - 1) (block_size - 1) waymasks
    (TagStats_make maxMasters)).

(** ** Address decomposition *)

Definition extractTag (t : LRU) (addr : Z) : Z := Z.shiftr addr (lt_tagShift t).
Definition extractSet (t : LRU) (addr : Z) : Z :=
  Z.land (Z.shiftr addr (lt_setShift t)) (lt_setMask t).
Definition extractBlkOffset (t : LRU) (addr : Z) : Z := Z.land addr (lt_blkMask t).
Definition blkAlign (t : LRU) (addr : Z) : Z := Z.land addr (Z.lnot (lt_blkMask t)).
Definition regenerateBlkAddr (t : LRU) (tag set : Z) : Z :=
  Z.lor (wrap 64 (Z.shiftl tag (lt_tagShift t))) (wrap 64 (Z.shiftl set (lt_setShift t))).

(** ** Operations

    A block pointer is an index into [lt_blks]. *)

Definition get_blk (t : LRU) (blk : nat) : result CacheBlk := at_ (lt_blks t) (Z.of_nat blk).
Definition put_blk (t : LRU) (blk : nat) (b : CacheBlk) : result LRU :=
  blks ← upd_at (lt_blks t) (Z.of_nat blk) b;
  Ok (t <| lt_blks := blks |>).

(** Apply a rotation to one set. *)
Definition rotate (f : list nat → nat → result (list nat)) (t : LRU) (set : Z) (blk : nat)
  : result LRU :=
  s ← at_ (lt_sets t) set;
  s' ← f s blk;
  sets ← upd_at (lt_sets t) set s';
  Ok (t <| lt_sets := sets |>).

Definition findBlock (t : LRU) (guest addr : Z) (is_secure : bool) : result (option nat) :=
  let tag := extractTag t addr in
  let set := extractSet t addr in
  s ← at_ (lt_sets t) set;
  '(_, blk) ← findBlk (lt_blks t) s guest tag is_secure 0;
  Ok blk.

(** [accessBlock]: the store, the block found and the access latency. *)
Definition accessBlock (t : LRU) (curTick clockPeriod : Z) (guest addr : Z) (is_secure : bool)
  : result (LRU * option nat * Z) :=
  let set := extractSet t addr in
  blk ← findBlock t guest addr is_secure;
  let lat := lt_hitLatency t in
  let st := lt_stats t in
  let st := st <| ts_tagAccesses := ts_tagAccesses st + lt_assoc t |> in
  let st := if lt_sequentialAccess t
            then match blk with
                 | Some _ => st <| ts_dataAccesses := ts_dataAccesses st + 1 |>
                 | None => st
                 end
            else st <| ts_dataAccesses := ts_dataAccesses st + lt_assoc t |> in
  let t := t <| lt_stats := st |> in
  match blk with
  | None => Ok (t, None, lat)
  | Some k =>
      t ← rotate moveToHead t set k;
      b ← get_blk t k;
      lat ← (if curTick <? cb_whenReady b then
               cyc ← divCeil (cb_whenReady b - curTick) clockPeriod;
               Ok (if lat <? cyc then cyc else lat)
             else Ok lat);
      t ← put_blk t k (b <| cb_refCount := swrap 32 (cb_refCount b + 1) |>);
      Ok (t, Some k, lat)
  end.

(** [(1 << way) & waymask]: the shift is of an [int], whose value converts to
    64 bits with its sign. *)
Definition way_selected (way waymask : Z) : result bool :=
  if decide (0 ≤ way < 32)
  then Ok (negb (Z.land (wrap 64 (swrap 32 (Z.shiftl 1 way))) waymask =? 0))
  else Err BadShift.

(** The loop of [findVictim] over the positions of the set from the least
    recently used one down to 0; [blk] is the candidate so far. *)
Fixpoint victim_loop (heap : list CacheBlk) (waymask : Z) (positions : list nat) (blk : option nat)
  : result (option nat) :=
  match positions with
  | [] => Ok blk
  | k :: ps =>
      b ← at_ heap (Z.of_nat k);
      sel ← way_selected (cb_way b) waymask;
      if sel : bool then Ok (Some k) else victim_loop heap waymask ps (Some k)
  end.

Definition findVictim (t : LRU) (guest addr : Z) : result nat :=
  let set := extractSet t addr in
  waymask ← at_ (lt_waymasks t) guest;
  assertb (negb (waymask =? 0)) ;;
  s ← at_ (lt_sets t) set;
  blk ← victim_loop (lt_blks t) waymask (reverse s) None;
  match blk with Some k => Ok k | None => Err NullDeref end.

(** The pieces of [insertBlock]: the first touch of a block ... *)
Definition first_touch (t : LRU) (curTick : Z) (b : CacheBlk) : LRU :=
  if cb_isTouched b then t else
  let inUse := ts_tagsInUse (lt_stats t) + 1 in
  let t := t <| lt_stats := (lt_stats t) <| ts_tagsInUse := inUse |> |> in
  if negb (lt_warmedUp t) && (lt_warmupBound t <=? inUse)
  then t <| lt_warmedUp := true |> <| lt_stats := (lt_stats t) <| ts_warmupCycle := curTick |> |>
  else t.

(** ... the eviction of a valid block ... *)
Definition evict_valid (st : TagStats) (maxMasters : Z) (b : CacheBlk) : result (TagStats * CacheBlk) :=
  if blk_isValid b then
    let st := st <| ts_replacements := ts_replacements st + 1 |>
                 <| ts_totalRefs := ts_totalRefs st + cb_refCount b |>
                 <| ts_sampledRefs := ts_sampledRefs st + 1 |> in
    let b := b <| cb_refCount := 0 |> in
    assertb (cb_srcMasterId b <? maxMasters) ;;
    occ ← stat_add (ts_occupancies st) (cb_srcMasterId b) (-1);
    Ok (st <| ts_occupancies := occ |>, blk_invalidate b)
  else Ok (st, b).

(** ... and the identity of the line it takes. *)
Definition take_identity (b : CacheBlk) (guest tag : Z) (is_secure : bool)
    (master_id task_id curTick : Z) : CacheBlk :=
  let b := setGuestID (b <| cb_isTouched := true |>) guest in
  let b := b <| cb_tag := tag |> in
  let b := if is_secure then b <| cb_status := Z.lor (cb_status b) BlkSecure |> else b in
  b <| cb_srcMasterId := master_id |> <| cb_task_id := task_id |> <| cb_tickInserted := curTick |>.

Definition insertBlock (t : LRU) (curTick maxMasters : Z) (guest : Z) (p : Packet) (blk : nat)
  : result LRU :=
  addr ← getAddr p;
  let master_id := req_masterId (pkt_req p) in
  let task_id := req_taskId (pkt_req p) in
  is_secure ← isSecure p;
  b ← get_blk t blk;
  let t := first_touch t curTick b in
  '(st, b) ← evict_valid (lt_stats t) maxMasters (b <| cb_isTouched := true |>);
  let b := take_identity b guest (extractTag t addr) is_secure master_id task_id curTick in
  assertb (master_id <? maxMasters) ;;
  occ ← stat_add (ts_occupancies st) master_id 1;
  t ← put_blk (t <| lt_stats := st <| ts_occupancies := occ |> |>) blk b;
  t ← rotate moveToHead t (extractSet t addr) blk;
  let st := lt_stats t in
  Ok (t <| lt_stats := st <| ts_tagAccesses := ts_tagAccesses st + 1 |>
                         <| ts_dataAccesses := ts_dataAccesses st + 1 |> |>).

(** [LRU::invalidate]: the caller clears the status of the block. *)
Definition lru_invalidate (t : LRU) (curTick maxMasters : Z) (blk : option nat) : result LRU :=
  match blk with
  | None => Err AssertFail
  | Some k =>
      b ← get_blk t k;
      assertb (blk_isValid b) ;;
      let st := lt_stats t in
      let st := st <| ts_tagsInUse := ts_tagsInUse st - 1 |> in
      assertb (cb_srcMasterId b <? maxMasters) ;;
      occ ← stat_add (ts_occupancies st) (cb_srcMasterId b) (-1);
      let b := b <| cb_srcMasterId := invldMasterId |> <| cb_task_id := Unknown |>
                 <| cb_tickInserted := curTick |> in
      let b := setGuestID b ALL_GUEST in
      t ← put_blk (t <| lt_stats := st <| ts_occupancies := occ |> |>) k b;
      rotate moveToTail t (cb_set b) k
  end.

Definition lru_clearLocks (t : LRU) : LRU :=
  t <| lt_blks := (λ b, clearLoadLocks b None) <$> lt_blks t |>.

Definition cleanupRefs (t : LRU) : LRU :=
  let step st b :=
    if blk_isValid b
    then st <| ts_totalRefs := ts_totalRefs st + cb_refCount b |>
            <| ts_sampledRefs := ts_sampledRefs st + 1 |>
    else st in
  t <| lt_stats := fold_left step (lt_blks t) (lt_stats t) |>.

(** [computeStats]: the age bucket of a block and the loop over the blocks;
    [us] and [ms] are the ticks of a micro- and of a millisecond. *)
Definition age_index (us ms age : Z) : Z :=
  if age / us <? 10 then 0 else if age / us <? 100 then 1
  else if age / ms <? 1 then 2 else if age / ms <? 10 then 3 else 4.

Definition compute_step (us ms curTick : Z) (st : TagStats) (b : CacheBlk) : result TagStats :=
  if blk_isValid b then
    assertb (cb_task_id b <? NumTaskId) ;;
    occ ← stat_add (ts_occupanciesTaskId st) (cb_task_id b) 1;
    let age := wrap 64 (curTick - cb_tickInserted b) in
    row ← at_ (ts_ageTaskId st) (cb_task_id b);
    row' ← stat_add row (age_index us ms age) 1;
    ages ← upd_at (ts_ageTaskId st) (cb_task_id b) row';
    cap ← stat_add (ts_guestCapacity st) (getGuestID b) 1;
    Ok (st <| ts_occupanciesTaskId := occ |> <| ts_ageTaskId := ages |> <| ts_guestCapacity := cap |>)
  else Ok st.

Definition computeStats (us ms curTick : Z) (t : LRU) : result LRU :=
  let st := lt_stats t in
  let st := st <| ts_occupanciesTaskId := replicate (Z.to_nat NumTaskId) 0 |>
               <| ts_ageTaskId := replicate (Z.to_nat NumTaskId) (replicate 5 0) |> in
  st ← foldM (compute_step us ms curTick) st (lt_blks t);
  Ok (t <| lt_stats := st |>).

(** [forEachBlk] with a visitor that may change the block and stop. *)
Fixpoint forEachBlk {V} (visitor : V → CacheBlk → V * CacheBlk * bool) (v : V) (blks : list CacheBlk)
  : V * list CacheBlk :=
  match blks with
  | [] => (v, [])
  | b :: blks' =>
      let '(v, b, go) := visitor v b in
      if go : bool then let '(v, blks') := forEachBlk visitor v blks' in (v, b :: blks')
      else (v, b :: blks')
  end.

(** ** Control plane *)

(** [set(tag, idx, value)], the value already converted by [atol]. *)
Definition lru_set_tag (t : LRU) (tag idx mask : Z) : result LRU :=
  if idx =? 0 then
    masks ← upd_at (lt_waymasks t) (QOSTAG_TO_GUESTID tag) (wrap 64 mask);
    Ok (t <| lt_waymasks := masks |>)
  else Ok t.

(** [query(tag, idx)]: the mask printed, or [None] for the text INV. *)
Definition lru_query (t : LRU) (tag idx : Z) : result (option Z) :=
  if negb (idx =? 0) then Ok None
  else m ← at_ (lt_waymasks t) (QOSTAG_TO_GUESTID tag); Ok (Some m).

Definition lru_set (t : LRU) (ldomID destAddr data : Z) : result LRU :=
  if destAddr =? 0 then
    masks ← upd_at (lt_waymasks t) ldomID data;
    Ok (t <| lt_waymasks := masks |>)
  else Ok t.

(** [get]: the capacity register recomputes the statistics. *)
Definition lru_get (us ms curTick : Z) (t : LRU) (ldomID destAddr : Z) : result (LRU * Z) :=
  if destAddr =? 0 then
    v ← (if Z.of_nat (length (lt_waymasks t)) <=? ldomID then Ok (2 ^ 64 - 1)
         else at_ (lt_waymasks t) ldomID);
    Ok (t, v)
  else if destAddr =? 8 then
    t ← computeStats us ms curTick t;
    v ← (if Z.of_nat (length (ts_guestCapacity (lt_stats t))) <=? ldomID then Ok (2 ^ 64 - 1)
         else at_ (ts_guestCapacity (lt_stats t)) ldomID);
    Ok (t, v)
  else if destAddr =? 16 then Ok (t, 44)
  else if destAddr =? 24 then Ok (t, 88)
  else Ok (t, 0).

(** The store as a managed resource, at a given time. *)
Definition lru_resource (us ms curTick : Z) : ManagedResource LRU := {|
  mr_set := lru_set;
  mr_get := lru_get us ms curTick
|}.

(** ** Invariant *)

(** The shifts and masks describe blocks of [2^b] bytes in [2^s] sets. *)
Record geometry (t : LRU) (b s : Z) : Prop := {
  geo_b : 2 ≤ b;
  geo_s : 0 ≤ s;
  geo_bs : b + s < 64;
  geo_blkSize : lt_blkSize t = 2 ^ b;
  geo_numSets : lt_numSets t = 2 ^ s;
  geo_setShift : lt_setShift t = b;
  geo_tagShift : lt_tagShift t = b + s;
  geo_setMask : lt_setMask t = 2 ^ s - 1;
  geo_blkMask : lt_blkMask t = 2 ^ b - 1
}.

(** Every set holds exactly its own blocks, each once, and every block knows
    its set and way. *)
Record layout (t : LRU) : Prop := {
  lay_assoc : 0 < lt_assoc t;
  lay_sets : Z.of_nat (length (lt_sets t)) = lt_numSets t;
  lay_blks : length (lt_blks t) = (length (lt_sets t) * Z.to_nat (lt_assoc t))%nat;
  lay_perm : ∀ i s, lt_sets t !! i = Some s →
    s ≡ₚ seq (i * Z.to_nat (lt_assoc t)) (Z.to_nat (lt_assoc t));
  lay_place : ∀ k b, lt_blks t !! k = Some b →
    cb_set b = Z.of_nat (k / Z.to_nat (lt_assoc t)) ∧
    cb_way b = Z.of_nat (k mod Z.to_nat (lt_assoc t))
}.

Definition lru_wf (t : LRU) : Prop := (∃ b s, geometry t b s) ∧ layout t.

(** What the operations leave alone. *)
Definition same_shape (t t' : LRU) : Prop :=
  lt_blkSize t' = lt_blkSize t ∧ lt_numSets t' = lt_numSets t ∧ lt_setShift t' = lt_setShift t ∧
  lt_tagShift t' = lt_tagShift t ∧ lt_setMask t' = lt_setMask t ∧ lt_blkMask t' = lt_blkMask t ∧
  lt_assoc t' = lt_assoc t.

Lemma geometry_shape t t' b s : same_shape t t' → geometry t b s → geometry t' b s.
Proof. intros (?&?&?&?&?&?&?) []. split; congruence. Qed.

(** Same shape, same sets and blocks in the same places. *)
Lemma layout_blks t t' :
  same_shape t t' → lt_sets t' = lt_sets t → length (lt_blks t') = length (lt_blks t) →
  (∀ k b', lt_blks t' !! k = Some b' →
     ∃ b, lt_blks t !! k = Some b ∧ cb_set b' = cb_set b ∧ cb_way b' = cb_way b) →
  lru_wf t → lru_wf t'.
Proof.
  intros Hs Hsets Hlen Hp [(b & s & G) L]. split; [eauto using geometry_shape|].
  destruct Hs as (?&Hn&?&?&?&?&Ha). destruct L as [L1 L2 L3 L4 L5].
  split; rewrite ?Hsets, ?Ha, ?Hn, ?Hlen; try done.
  intros k b' Hb'. destruct (Hp _ _ Hb') as (b0 & Hb0 & -> & ->). by apply L5.
Qed.

Lemma sets_lookup t i : layout t → 0 ≤ i < lt_numSets t → ∃ s, at_ (lt_sets t) i = Ok s.
Proof. intros L Hi. apply at_total. by rewrite (lay_sets _ L). Qed.

(** The members of a set. *)
Lemma set_members t i s k :
  layout t → lt_sets t !! i = Some s →
  k ∈ s ↔ (k / Z.to_nat (lt_assoc t) = i)%nat.
Proof.
  intros L Hs. rewrite (lay_perm _ L i s Hs), elem_of_seq.
  pose proof (lay_assoc _ L). assert (Z.to_nat (lt_assoc t) ≠ 0)%nat by lia. split.
  - intros [Hlo Hhi]. symmetry. apply (Nat.div_unique _ _ _ (k - i * Z.to_nat (lt_assoc t))); lia.
  - intros <-. pose proof (Nat.div_mod_eq k (Z.to_nat (lt_assoc t))).
    pose proof (Nat.mod_upper_bound k (Z.to_nat (lt_assoc t))). nia.
Qed.

Lemma set_NoDup t i s : layout t → lt_sets t !! i = Some s → NoDup s.
Proof. intros L Hs. rewrite (lay_perm _ L i s Hs). apply NoDup_seq. Qed.

Lemma set_lt t i s k : layout t → lt_sets t !! i = Some s → k ∈ s → (k < length (lt_blks t))%nat.
Proof.
  intros L Hs Hk. apply lookup_lt_Some in Hs as Hi. rewrite (lay_perm _ L i s Hs), elem_of_seq in Hk.
  rewrite (lay_blks _ L). nia.
Qed.

Lemma set_length t i s : layout t → lt_sets t !! i = Some s → Z.of_nat (length s) = lt_assoc t.
Proof.
  intros L Hs. rewrite (lay_perm _ L i s Hs), length_seq. pose proof (lay_assoc _ L). lia.
Qed.

Lemma extractSet_div t b s a : geometry t b s → extractSet t a = (a / 2 ^ b) mod 2 ^ s.
Proof.
  intros G. unfold extractSet. rewrite (geo_setMask _ _ _ G), (geo_setShift _ _ _ G).
  replace (2 ^ s - 1) with (Z.ones s) by (rewrite Z.ones_equiv; lia).
  rewrite Z.land_ones, Z.shiftr_div_pow2; [done|..]; destruct G; lia.
Qed.

Lemma extractSet_range t a : lru_wf t → 0 ≤ extractSet t a < lt_numSets t.
Proof.
  intros [(b & s & G) _]. rewrite (extractSet_div t b s) by done.
  rewrite (geo_numSets _ _ _ G). apply Z.mod_pos_bound. destruct G. lia.
Qed.

(** A rotation that permutes the set keeps the store well formed. *)
Lemma rotate_wf f t i k :
  lru_wf t → 0 ≤ i < lt_numSets t → (k / Z.to_nat (lt_assoc t))%nat = Z.to_nat i →
  (∀ s, NoDup s → k ∈ s → ∃ s', f s k = Ok s' ∧ s' ≡ₚ s) →
  ∃ s s', lt_sets t !! Z.to_nat i = Some s ∧ f s k = Ok s' ∧
    rotate f t i k = Ok (t <| lt_sets := <[Z.to_nat i := s']> (lt_sets t) |>) ∧
    lru_wf (t <| lt_sets := <[Z.to_nat i := s']> (lt_sets t) |>).
Proof.
  intros [G L] Hi Hk Hf. destruct (sets_lookup t i L Hi) as [s Hs].
  pose proof Hs as Hs'. apply at_Ok in Hs' as [_ Hs']. exists s.
  destruct (Hf s) as (s' & Hfs & Hp); [by eapply set_NoDup | by eapply set_members|].
  exists s'. split; [done|]. split; [done|]. unfold rotate. rewrite Hs. simpl. rewrite Hfs. simpl.
  assert (length (lt_sets t) = Z.to_nat (lt_numSets t)) as Hlen by (rewrite <-(lay_sets _ L); lia).
  unfold upd_at. rewrite decide_True by lia. split; [done|]. split.
  { destruct G as (b & w & G). exists b, w. by eapply geometry_shape; [|done]. }
  destruct L as [L1 L2 L3 L4 L5]. split; simpl; rewrite ?length_insert; try done.
  intros j s0. destruct (decide (j = Z.to_nat i)) as [->|Hne].
  - rewrite list_lookup_insert_eq by lia. intros [= <-]. rewrite Hp. by apply L4.
  - rewrite list_lookup_insert_ne by done. apply L4.
Qed.

Lemma rotate_head_wf t i k :
  lru_wf t → 0 ≤ i < lt_numSets t → (k / Z.to_nat (lt_assoc t))%nat = Z.to_nat i →
  ∃ s, lt_sets t !! Z.to_nat i = Some s ∧
    let t' := t <| lt_sets := <[Z.to_nat i := k :: others s k]> (lt_sets t) |> in
    rotate moveToHead t i k = Ok t' ∧ lru_wf t'.
Proof.
  intros Hwf Hi Hk. destruct (rotate_wf moveToHead t i k Hwf Hi Hk) as (s & s' & Hs & Hf & Hr).
  { intros s Hnd Hin. exists (k :: others s k). auto using moveToHead_others, others_perm. }
  exists s. split; [done|]. destruct Hwf as [_ L].
  rewrite moveToHead_others in Hf; [by injection Hf as <- | by eapply set_NoDup | by eapply set_members].
Qed.

Lemma rotate_tail_wf t i k :
  lru_wf t → 0 ≤ i < lt_numSets t → (k / Z.to_nat (lt_assoc t))%nat = Z.to_nat i →
  ∃ s, lt_sets t !! Z.to_nat i = Some s ∧
    let t' := t <| lt_sets := <[Z.to_nat i := others s k ++ [k]]> (lt_sets t) |> in
    rotate moveToTail t i k = Ok t' ∧ lru_wf t'.
Proof.
  intros Hwf Hi Hk. destruct (rotate_wf moveToTail t i k Hwf Hi Hk) as (s & s' & Hs & Hf & Hr).
  { intros s Hnd Hin. exists (others s k ++ [k]). split; [by apply moveToTail_others|].
    rewrite <-Permutation_cons_append. by apply others_perm. }
  exists s. split; [done|]. destruct Hwf as [_ L].
  rewrite moveToTail_others in Hf; [by injection Hf as <- | by eapply set_NoDup | by eapply set_members].
Qed.

(** Updating a block without moving it. *)
Lemma put_blk_wf t k b b' :
  lru_wf t → lt_blks t !! k = Some b → cb_set b' = cb_set b → cb_way b' = cb_way b →
  put_blk t k b' = Ok (t <| lt_blks := <[k := b']> (lt_blks t) |>) ∧
  lru_wf (t <| lt_blks := <[k := b']> (lt_blks t) |>).
Proof.
  intros Hwf Hb Hs Hw. pose proof (lookup_lt_Some _ _ _ Hb) as Hk. split.
  - unfold put_blk, upd_at. rewrite decide_True by lia. by rewrite Nat2Z.id.
  - eapply (layout_blks t); simpl; try done; [apply length_insert|].
    intros j b0. destruct (decide (j = k)) as [->|Hne].
    + rewrite list_lookup_insert_eq by done. intros [= <-]. eauto.
    + rewrite list_lookup_insert_ne by done. eauto.
Qed.

Lemma get_blk_Ok t k b : get_blk t k = Ok b ↔ lt_blks t !! k = Some b.
Proof. unfold get_blk. rewrite at_Ok, Nat2Z.id. intuition lia. Qed.

(** Changing the statistics keeps the store well formed. *)
Lemma stats_wf' t st : lru_wf t → lru_wf (t <| lt_stats := st |>).
Proof. apply layout_blks; eauto; done. Qed.

Lemma findBlock_total t g a sec : lru_wf t → is_ok (findBlock t g a sec).
Proof.
  intros [G L]. unfold findBlock.
  destruct (sets_lookup t (extractSet t a) L) as [s Hs]; [by apply extractSet_range|].
  rewrite Hs. simpl. apply at_Ok in Hs as [_ Hs].
  destruct (findBlk_total (lt_blks t) s g (extractTag t a) sec 0) as [[w o] ->]; [|by eexists].
  intros k Hk. by eapply set_lt.
Qed.

Lemma findBlock_Some t g a sec k :
  lru_wf t → findBlock t g a sec = Ok (Some k) →
  (k / Z.to_nat (lt_assoc t))%nat = Z.to_nat (extractSet t a) ∧
  ∃ b, lt_blks t !! k = Some b ∧ blk_matches b g (extractTag t a) sec = true.
Proof.
  intros [_ L] H. unfold findBlock in H. inv_ok. destruct a1 as [w o]. inv_ok.
  apply at_Ok in E as [_ E]. destruct (findBlk_Some _ _ _ _ _ _ _ _ E0) as [Hin Hb].
  split; [by apply (set_members t _ _ k L E) | done].
Qed.

(** ** Lookup as a map

    The block that holds a line of a domain, whatever the recency order. *)
Definition holds (t : LRU) (g a : Z) (sec : bool) (k : nat) : Prop :=
  (k / Z.to_nat (lt_assoc t))%nat = Z.to_nat (extractSet t a) ∧
  ∃ b, lt_blks t !! k = Some b ∧ blk_matches b g (extractTag t a) sec = true.

(** No line is held twice. *)
Definition lru_unique (t : LRU) : Prop :=
  ∀ g a sec k k', holds t g a sec k → holds t g a sec k' → k = k'.

Lemma findBlock_None t g a sec k :
  lru_wf t → findBlock t g a sec = Ok None → ¬ holds t g a sec k.
Proof.
  intros [G L] H (Hk & b & Hb & Hm). unfold findBlock in H. inv_ok. destruct a1 as [w o]. inv_ok.
  apply at_Ok in E as [_ E]. destruct (findBlk_None _ _ _ _ _ _ _ E0) as [_ Hn].
  rewrite (Hn k b) in Hm; [done| |done]. by apply (set_members t _ _ k L E).
Qed.

Lemma findBlock_holds t g a sec :
  lru_wf t → lru_unique t →
  ∃ o, findBlock t g a sec = Ok o ∧
    ∀ k, o = Some k ↔ holds t g a sec k.
Proof.
  intros Hwf Hu. destruct (findBlock_total t g a sec Hwf) as [o Ho]. exists o. split; [done|].
  intros k. destruct o as [k'|].
  - apply (findBlock_Some t g a sec k' Hwf) in Ho. split; [by intros [= ->]|].
    intros Hk. f_equal. by apply (Hu g a sec).
  - split; [done|]. intros Hk. by destruct (findBlock_None _ _ _ _ k Hwf Ho).
Qed.

(** ** Replacement *)

(** A way below 31 is selected when its bit of the mask is set. *)
Lemma way_selected_testbit way m :
  0 ≤ way < 31 → way_selected way m = Ok (Z.testbit m way).
Proof.
  intros Hw. unfold way_selected. rewrite decide_True by lia. f_equal.
  assert (1 ≤ 2 ^ way < 2 ^ 31).
  { split; [|apply Z.pow_lt_mono_r; lia]. apply (Z.pow_le_mono_r 2 0 way); lia. }
  rewrite Z.shiftl_1_l. unfold swrap. rewrite (wrap_small 32) by (unfold in_width; lia).
  rewrite wrap_small by (unfold in_width; lia). replace (2 ^ way + _ - _) with (2 ^ way) by lia.
  rewrite Z.land_comm. destruct (Z.testbit m way) eqn:E.
  - destruct (Z.eqb_spec (Z.land m (2 ^ way)) 0) as [H0|]; [|done].
    assert (Z.testbit (Z.land m (2 ^ way)) way = true) as Ht.
    { by rewrite Z.land_spec, E, Z.pow2_bits_true by lia. }
    by rewrite H0, Z.testbit_0_l in Ht.
  - apply negb_false_iff, Z.eqb_eq, Z.bits_inj'. intros i Hi.
    rewrite Z.land_spec, Z.testbit_0_l. destruct (decide (i = way)) as [->|].
    + by rewrite E.
    + rewrite Z.pow2_bits_false by lia. apply andb_false_r.
Qed.

(** Selected blocks of a list of positions. *)
Definition selected (heap : list CacheBlk) (m : Z) (k : nat) : Prop :=
  ∃ b, heap !! k = Some b ∧ Z.testbit m (cb_way b) = true.

(** The loop stops at the first selected position, or keeps the last one. *)
Lemma victim_loop_spec heap m ps o :
  (∀ k, k ∈ ps → ∃ b, heap !! k = Some b ∧ 0 ≤ cb_way b < 31) →
  (∃ ps1 k ps2, ps = ps1 ++ k :: ps2 ∧ selected heap m k ∧ (∀ j, j ∈ ps1 → ¬ selected heap m j) ∧
     victim_loop heap m ps o = Ok (Some k)) ∨
  ((∀ j, j ∈ ps → ¬ selected heap m j) ∧
   victim_loop heap m ps o = Ok (match last ps with Some k => Some k | None => o end)).
Proof.
  revert o. induction ps as [|k ps IH]; intros o Hps; [right; set_solver|]. simpl.
  destruct (Hps k) as (b & Hb & Hw); [left|].
  assert (at_ heap (Z.of_nat k) = Ok b) as ->.
  { apply at_Ok. rewrite Nat2Z.id. split; [lia | done]. }
  simpl. rewrite way_selected_testbit by done. simpl.
  destruct (Z.testbit m (cb_way b)) eqn:E.
  - left. exists [], k, ps. split; [done|]. split; [by exists b|]. split; [set_solver | done].
  - assert (¬ selected heap m k) as Hk by (intros (b' & Hb' & Ht); congruence).
    destruct (IH (Some k)) as [(ps1 & k' & ps2 & -> & Hs & Hn & ->)|[Hn ->]]; [set_solver| |].
    + left. exists (k :: ps1), k', ps2. split; [done|]. split; [done|]. split; [|done].
      intros j [->|]%elem_of_cons; auto.
    + right. split; [intros j [->|]%elem_of_cons; auto|]. rewrite last_cons.
      by destruct (last ps).
Qed.

Lemma findVictim_loop t g a m s :
  at_ (lt_waymasks t) g = Ok m → m ≠ 0 → at_ (lt_sets t) (extractSet t a) = Ok s →
  findVictim t g a =
    (blk ← victim_loop (lt_blks t) m (reverse s) None;
     match blk with Some k => Ok k | None => Err NullDeref end).
Proof.
  intros Hm Hne Hs. unfold findVictim. rewrite Hm. simpl. apply Z.eqb_neq in Hne as ->. simpl.
  by rewrite Hs.
Qed.

(** The ways of the blocks of a set. *)
Lemma set_ways t i s k :
  layout t → lt_sets t !! i = Some s → k ∈ s →
  ∃ b, lt_blks t !! k = Some b ∧ 0 ≤ cb_way b < lt_assoc t.
Proof.
  intros L Hs Hk. destruct (lookup_lt_is_Some_2 (lt_blks t) k) as [b Hb]; [by eapply set_lt|].
  exists b. split; [done|]. destruct (lay_place _ L k b Hb) as [_ ->]. pose proof (lay_assoc _ L).
  pose proof (Nat.mod_upper_bound k (Z.to_nat (lt_assoc t))). lia.
Qed.

(** The master identifiers fit the occupancy vector. *)
Definition masters_ok (mm : Z) (t : LRU) : Prop :=
  Z.of_nat (length (ts_occupancies (lt_stats t))) = mm ∧
  ∀ k b, lt_blks t !! k = Some b → blk_isValid b = true → 0 ≤ cb_srcMasterId b < mm.

Lemma first_touch_stats t tick b :
  ∃ w st, first_touch t tick b = t <| lt_warmedUp := w |> <| lt_stats := st |> ∧
    ts_occupancies st = ts_occupancies (lt_stats t).
Proof.
  unfold first_touch. destruct (cb_isTouched b).
  - exists (lt_warmedUp t), (lt_stats t). by destruct t.
  - cbn zeta. destruct (_ && _); eexists _, _; split; reflexivity.
Qed.

Lemma evict_valid_spec st mm b :
  Z.of_nat (length (ts_occupancies st)) = mm →
  (blk_isValid b = true → 0 ≤ cb_srcMasterId b < mm) →
  ∃ st' b', evict_valid st mm b = Ok (st', b') ∧
    length (ts_occupancies st') = length (ts_occupancies st) ∧
    cb_set b' = cb_set b ∧ cb_way b' = cb_way b ∧ cb_data b' = cb_data b ∧
    cb_status b' = if blk_isValid b then 0 else cb_status b.
Proof.
  intros Hocc Hsrc. unfold evict_valid. destruct (blk_isValid b); [|eauto 10].
  specialize (Hsrc eq_refl). cbn zeta.
  destruct (stat_add_ok (ts_occupancies st) (cb_srcMasterId b) (-1)) as (occ & Hadd & Hlen); [lia|].
  simpl. destruct (Z.ltb_spec (cb_srcMasterId b) mm); [|lia]. simpl. rewrite Hadd. simpl.
  eexists _, _. done.
Qed.

(** [insertBlock] into a block of the right set: the block takes the identity
    of the line and becomes the most recently used of its set; a valid block is
    evicted by it. *)
Lemma insertBlock_spec t tick mm g p k b :
  lru_wf t → masters_ok mm t → pkt_wf p → 0 ≤ req_masterId (pkt_req p) < mm →
  lt_blks t !! k = Some b → (k / Z.to_nat (lt_assoc t))%nat = Z.to_nat (extractSet t (pkt_addr p)) →
  ∃ t' s b', insertBlock t tick mm g p k = Ok t' ∧ lru_wf t' ∧ same_shape t t' ∧
    lt_waymasks t' = lt_waymasks t ∧
    lt_blks t' = <[k := b']> (lt_blks t) ∧
    lt_sets t !! Z.to_nat (extractSet t (pkt_addr p)) = Some s ∧
    lt_sets t' = <[Z.to_nat (extractSet t (pkt_addr p)) := k :: others s k]> (lt_sets t) ∧
    Z.of_nat (length (ts_occupancies (lt_stats t'))) = mm ∧
    cb_tag b' = extractTag t (pkt_addr p) ∧ getGuestID b' = g mod 256 ∧
    cb_srcMasterId b' = req_masterId (pkt_req p) ∧ cb_data b' = cb_data b ∧
    cb_set b' = cb_set b ∧ cb_way b' = cb_way b ∧
    cb_status b' = Z.lor (if blk_isValid b then 0 else cb_status b) (if pkt_isSecure p then BlkSecure else 0).
Proof.
  intros Hwf [Hocc Hsrc] Hp Hm Hb Hk. unfold insertBlock.
  rewrite getAddr_wf, isSecure_wf by done. cbn [mbind result_bind].
  rewrite (proj2 (get_blk_Ok t k b) Hb). cbn [mbind result_bind].
  destruct (first_touch_stats t tick b) as (w & st & -> & Hst).
  destruct (evict_valid_spec st mm (b <| cb_isTouched := true |>)) as (st' & b' & He & Ho & Hs' & Hw' & Hd' & Hv').
  { by rewrite Hst. }
  { apply (Hsrc k b Hb). }
  cbn zeta. set (t0 := setf lt_stats _ (setf lt_warmedUp _ t)).
  change (lt_stats t0) with st. rewrite He. cbn [mbind result_bind].
  change (extractTag t0 (pkt_addr p)) with (extractTag t (pkt_addr p)).
  set (b1 := take_identity b' _ _ _ _ _ _).
  assert (cb_set b1 = cb_set b ∧ cb_way b1 = cb_way b) as [Hs1 Hw1].
  { unfold b1, take_identity. destruct (pkt_isSecure p); simpl in *; naive_solver. }
  destruct (stat_add_ok (ts_occupancies st') (req_masterId (pkt_req p)) 1) as (occ & Hadd & Hlen).
  { rewrite Ho, Hst. lia. }
  destruct (Z.ltb_spec (req_masterId (pkt_req p)) mm); [|lia]. cbn [assertb mbind result_bind].
  rewrite Hadd. cbn [mbind result_bind].
  set (t1 := setf lt_stats _ _). 
  destruct (put_blk_wf t1 k b b1) as [-> Hwf1]; [|done..|].
  { eapply (layout_blks t); eauto; done. }
  cbn [mbind result_bind]. set (t2 := setf lt_blks _ _) in *.
  change (extractSet t2 (pkt_addr p)) with (extractSet t (pkt_addr p)).
  destruct (rotate_head_wf t2 (extractSet t (pkt_addr p)) k) as (s & Hsk & Hr & Hwf2);
    [done|by apply (extractSet_range t)|done|].
  cbn zeta in Hr, Hwf2. rewrite Hr. cbn [mbind result_bind].
  set (t3 := setf lt_sets _ _) in *.
  eexists _, s, b1. split; [done|]. split; [by apply stats_wf'|]. split; [done|]. split; [done|].
  split; [done|]. split; [done|]. split; [done|]. split.
  { simpl. rewrite Hlen, Ho, Hst. done. }
  unfold b1, take_identity. change (blk_isValid (b <| cb_isTouched := true |>)) with (blk_isValid b) in Hv'.
  destruct (pkt_isSecure p); simpl; rewrite Hv', ?Z.lor_0_r, Hd'; repeat split; try done; apply getGuestID_setGuestID.
Qed.

(** [accessBlock]: a hit changes the reference count of the block and moves it
    to the head of its set; a miss changes the statistics only. *)
Lemma accessBlock_spec t tick clk g a sec :
  lru_wf t → clk ≠ 0 →
  ∃ t' o lat, accessBlock t tick clk g a sec = Ok (t', o, lat) ∧
    findBlock t g a sec = Ok o ∧ lru_wf t' ∧ same_shape t t' ∧ lt_waymasks t' = lt_waymasks t ∧
    ts_occupancies (lt_stats t') = ts_occupancies (lt_stats t) ∧
    match o with
    | None => lt_blks t' = lt_blks t ∧ lt_sets t' = lt_sets t
    | Some k => ∃ b s, lt_blks t !! k = Some b ∧
        lt_blks t' = <[k := b <| cb_refCount := swrap 32 (cb_refCount b + 1) |>]> (lt_blks t) ∧
        lt_sets t !! Z.to_nat (extractSet t a) = Some s ∧
        lt_sets t' = <[Z.to_nat (extractSet t a) := k :: others s k]> (lt_sets t)
    end.
Proof.
  intros Hwf Hclk. unfold accessBlock. destruct (findBlock_total t g a sec Hwf) as [o Ho].
  rewrite Ho. cbn [mbind result_bind]. cbn zeta.
  set (st := if lt_sequentialAccess t then _ else _).
  assert (ts_occupancies st = ts_occupancies (lt_stats t)) as Hocc.
  { unfold st. destruct (lt_sequentialAccess t), o; reflexivity. }
  destruct o as [k|].
  2:{ eexists _, None, _. split; [done|]. split; [done|]. split; [by apply stats_wf'|]. done. }
  destruct (findBlock_Some t g a sec k Hwf Ho) as (Hk & b & Hb & _).
  set (t1 := setf lt_stats _ t). change (extractSet t a) with (extractSet t1 a) in *.
  destruct (rotate_head_wf t1 (extractSet t1 a) k) as (s & Hs & Hr & Hwf1); [by apply stats_wf'|..|done|].
  { apply (extractSet_range t1). by apply stats_wf'. }
  cbn zeta in *. rewrite Hr. cbn [mbind result_bind]. set (t2 := setf lt_sets _ t1) in *.
  rewrite (proj2 (get_blk_Ok t2 k b) Hb). cbn [mbind result_bind].
  assert (∃ lat, (if tick <? cb_whenReady b
     then cyc ← divCeil (cb_whenReady b - tick) clk;
          Ok (if lt_hitLatency t <? cyc then cyc else lt_hitLatency t)
     else Ok (lt_hitLatency t)) = Ok lat) as [lat ->].
  { unfold divCeil. apply Z.eqb_neq in Hclk as ->. destruct (tick <? _); eexists; reflexivity. }
  cbn [mbind result_bind].
  destruct (put_blk_wf t2 k b (b <| cb_refCount := swrap 32 (cb_refCount b + 1) |>)) as [-> Hwf2]; [done..|].
  cbn [mbind result_bind]. eexists _, (Some k), lat. do 6 (split; [done|]). by exists b, s.
Qed.

(** [invalidate] of a valid block: it loses its owner and becomes the first
    candidate of its set for replacement. *)
Lemma lru_invalidate_spec t tick mm k b :
  lru_wf t → masters_ok mm t → lt_blks t !! k = Some b → blk_isValid b = true →
  ∃ t' s b', lru_invalidate t tick mm (Some k) = Ok t' ∧ lru_wf t' ∧ same_shape t t' ∧
    lt_waymasks t' = lt_waymasks t ∧ lt_blks t' = <[k := b']> (lt_blks t) ∧
    cb_tag b' = cb_tag b ∧ cb_status b' = cb_status b ∧ getGuestID b' = ALL_GUEST ∧
    lt_sets t !! Z.to_nat (cb_set b) = Some s ∧
    lt_sets t' = <[Z.to_nat (cb_set b) := others s k ++ [k]]> (lt_sets t).
Proof.
  intros Hwf [Hocc Hsrc] Hb Hv. unfold lru_invalidate.
  rewrite (proj2 (get_blk_Ok t k b) Hb). cbn [mbind result_bind]. rewrite Hv. cbn [assertb mbind result_bind].
  pose proof (Hsrc k b Hb Hv) as Hm. destruct (Z.ltb_spec (cb_srcMasterId b) mm); [|lia].
  cbn [assertb mbind result_bind]. cbn zeta.
  destruct (stat_add_ok (ts_occupancies (lt_stats t)) (cb_srcMasterId b) (-1)) as (occ & Hadd & _); [lia|].
  change (ts_occupancies (setf ts_tagsInUse _ _)) with (ts_occupancies (lt_stats t)). rewrite Hadd.
  cbn [mbind result_bind]. set (t1 := setf lt_stats _ t). set (b1 := setGuestID _ ALL_GUEST).
  destruct (put_blk_wf t1 k b b1) as [-> Hwf1]; [by apply stats_wf'|done..|].
  cbn [mbind result_bind]. set (t2 := setf lt_blks _ t1) in *. change (cb_set b1) with (cb_set b).
  destruct Hwf as [G L]. destruct (lay_place _ L k b Hb) as [Hset _].
  destruct (rotate_tail_wf t2 (cb_set b) k) as (s & Hs & Hr & Hwf2); [done|..|].
  { rewrite Hset. change (lt_numSets t2) with (lt_numSets t). rewrite <-(lay_sets _ L).
    apply lookup_lt_Some in Hb. rewrite (lay_blks _ L) in Hb. pose proof (lay_assoc _ L).
    split; [lia|]. apply Nat2Z.inj_lt, Nat.Div0.div_lt_upper_bound. lia. }
  { rewrite Hset. change (lt_assoc t2) with (lt_assoc t). lia. }
  eexists _, s, b1. split; [done|]. split; [done|]. do 5 (split; [done|]). split; [|done].
  apply getGuestID_setGuestID.
Qed.

(** ** The constructor *)

(** The nested loops enumerate the blocks row by row. *)
Lemma grid_lookup {A} (f : nat → nat → A) (n a : nat) :
  (0 < a)%nat →
  let l := i ← seq 0 n; j ← seq 0 a; [f i j] in
  length l = (n * a)%nat ∧
  ∀ k x, l !! k = Some x → x = f (k / a)%nat (k mod a)%nat.
Proof.
  intros Ha. induction n as [|n [IHl IH]]; [done|]. cbn zeta in *.
  rewrite seq_S, bind_app. simpl. rewrite app_nil_r.
  assert (∀ i l, (j ← l; [f i j]) = f i <$> l) as Hrow.
  { intros i l. induction l; simpl; [done|]. by f_equal. }
  rewrite Hrow. rewrite length_app, length_fmap, length_seq, IHl. split; [lia|].
  intros k x [Hx|[Hk Hx]]%lookup_app_Some; [by apply IH|].
  rewrite IHl in Hk, Hx. apply list_lookup_fmap_Some in Hx as (j & -> & Hj).
  apply lookup_seq in Hj as [-> Hlt].
  assert (k = (a * n + (k - n * a))%nat) as Hk' by lia.
  rewrite <-(Nat.div_unique k a n (k - n * a)), <-(Nat.mod_unique k a n (k - n * a)) by lia. done.
Qed.

Lemma LRU_make_wf size bs assoc lat seqa wm mm t :
  in_width 31 bs → LRU_make size bs assoc lat seqa wm mm = Ok t → lru_wf t.
Proof.
  intros Hbs H. unfold LRU_make in H. destruct (_ =? 0); [done|].
  set (ns := wrap 32 (size / _)) in H. assert (in_width 32 ns) as Hns by (apply wrap_range; lia).
  inv_ok. apply orb_false_iff in E as [E_bs E_pow]. apply orb_false_iff in E0 as [E_ns E_npow].
  apply negb_false_iff in E_pow, E_npow. apply Z.ltb_ge in E_bs. apply Z.leb_gt in E_ns, E1.
  apply isPowerOf2_iff in E_pow as (b & Hb0 & Hb); [|lia].
  apply isPowerOf2_iff in E_npow as (s & Hs0 & Hs); [|lia].
  rewrite floorLog2_log2 in E3 by (lia || by eapply (in_width_mono 31)).
  rewrite floorLog2_log2 in E4 by done. injection E3 as <-. injection E4 as <-.
  assert (2 ≤ b) by (rewrite Hb in E_bs; apply (Z.pow_le_mono_r_iff 2); lia).
  assert (b < 31) by (apply (Z.pow_lt_mono_r_iff 2); destruct Hbs; lia).
  assert (s < 32) by (apply (Z.pow_lt_mono_r_iff 2); destruct Hns; lia).
  split.
  - exists b, s. split; simpl; rewrite ?Hb, ?Hs, ?Z.log2_pow2; done || lia.
  - destruct (grid_lookup (link_blk bs (Z.to_nat assoc)) (Z.to_nat ns) (Z.to_nat assoc)) as [Hl Hx]; [lia|].
    split; simpl; rewrite ?length_fmap, ?length_seq; try done; [lia|..].
    + intros i l Hl'. apply list_lookup_fmap_Some in Hl' as (j & -> & Hj).
      apply lookup_seq in Hj as [-> _]. by rewrite fmap_add_seq, Nat.add_0_r.
    + intros k b0 Hk. by rewrite (Hx k b0 Hk).
Qed.

(** A new store holds no line. *)
Lemma LRU_make_empty size bs assoc lat seqa wm mm t :
  LRU_make size bs assoc lat seqa wm mm = Ok t → 0 ≤ mm →
  (∀ k b, lt_blks t !! k = Some b → blk_isValid b = false) ∧ masters_ok mm t.
Proof.
  intros H Hmm. unfold LRU_make in H. destruct (_ =? 0); [done|]. inv_ok. apply Z.leb_gt in E1.
  assert (∀ n k b, (i ← seq 0 n; j ← seq 0 (Z.to_nat assoc); [link_blk bs (Z.to_nat assoc) i j]) !! k = Some b →
    blk_isValid b = false) as Hv.
  { intros n k b Hk. eapply (grid_lookup (link_blk bs (Z.to_nat assoc))) in Hk; [by subst b | lia]. }
  split; [intros k b; apply Hv|]. split; [simpl; rewrite length_replicate; lia|].
  intros k b Hb Hvb. by rewrite (Hv _ k b Hb) in Hvb.
Qed.

(** The blocks of a new store: their number and the place of their bytes. *)
Lemma LRU_make_blocks size bs assoc lat seqa wm mm t :
  LRU_make size bs assoc lat seqa wm mm = Ok t → 0 ≤ size < 2 ^ 32 → 0 < bs → bs * assoc < 2 ^ 32 →
  lt_blkSize t = bs ∧ lt_assoc t = assoc ∧ lt_waymasks t = wm ∧ lt_numBlocks t = Z.of_nat (length (lt_blks t)) ∧
  ∀ k b, lt_blks t !! k = Some b → cb_data b = Some (bs * Z.of_nat k) ∧ cb_status b = 0.
Proof.
  intros H Hsize Hbs Hba. unfold LRU_make in H. destruct (_ =? 0) eqn:Ez; [done|].
  set (ns := wrap 32 (size / _)) in H. inv_ok. apply Z.leb_gt in E1. apply orb_false_iff in E0 as [E_ns _].
  apply Z.leb_gt in E_ns.
  assert (wrap 32 (bs * assoc) = bs * assoc) as Hw by (apply wrap_small; unfold in_width; nia).
  assert (ns * (bs * assoc) ≤ size) as Hns.
  { subst ns. rewrite Hw. rewrite wrap_small; [pose proof (Z.mul_div_le size (bs * assoc)); nia|].
    split; [apply Z.div_pos; nia|]. apply Z.div_lt_upper_bound; nia. }
  destruct (grid_lookup (link_blk bs (Z.to_nat assoc)) (Z.to_nat ns) (Z.to_nat assoc)) as [Hl Hx]; [lia|].
  simpl. rewrite Hl. do 3 (split; [done|]). split.
  - rewrite wrap_small by (unfold in_width; nia). lia.
  - intros k b Hb. rewrite (Hx k b Hb). simpl. split; [|done]. do 2 f_equal.
    pose proof (Nat.div_mod_eq k (Z.to_nat assoc)). lia.
Qed.

Lemma empty_unique t : (∀ k b, lt_blks t !! k = Some b → blk_isValid b = false) → lru_unique t.
Proof.
  intros Hv g a sec k k' (_ & b & Hb & Hm). apply Hv in Hb. unfold blk_matches in Hm.
  rewrite Hb in Hm. by destruct (cb_tag b =? _).
Qed.

(** ** Steps of one domain

    What the cache does to the store on behalf of domain [g]: lookups, and fills
    of a chosen victim followed by the status the cache gives the new block. *)

Inductive guest_step (g : Z) : LRU → LRU → Prop :=
| step_access t tick clk a sec t' o lat :
    accessBlock t tick clk g a sec = Ok (t', o, lat) → clk ≠ 0 → guest_step g t t'
| step_fill t tick mm p k b t1 status t' :
    pkt_wf p → masters_ok mm t → 0 ≤ req_masterId (pkt_req p) < mm →
    findVictim t g (pkt_addr p) = Ok k → insertBlock t tick mm g p k = Ok t1 →
    get_blk t1 k = Ok b → put_blk t1 k (b <| cb_status := status |>) = Ok t' → guest_step g t t'.

(** The line a block holds. *)
Definition same_line (b b' : CacheBlk) : Prop :=
  cb_tag b' = cb_tag b ∧ cb_status b' = cb_status b ∧ cb_qosTag b' = cb_qosTag b ∧
  cb_way b' = cb_way b ∧ cb_lockList b' = cb_lockList b.

(** The mask of the domain selects one of the ways. *)
Definition mask_usable (t : LRU) (g m : Z) : Prop :=
  at_ (lt_waymasks t) g = Ok m ∧ m ≠ 0 ∧ ∃ w, 0 ≤ w < lt_assoc t ∧ Z.testbit m w = true.

Lemma findVictim_spec t g a m :
  lru_wf t → lt_assoc t ≤ 31 → at_ (lt_waymasks t) g = Ok m → m ≠ 0 →
  ∃ s, lt_sets t !! Z.to_nat (extractSet t a) = Some s ∧
  ((∃ s1 k s2, s = s1 ++ k :: s2 ∧ findVictim t g a = Ok k ∧ selected (lt_blks t) m k ∧
      ∀ j, j ∈ s2 → ¬ selected (lt_blks t) m j) ∨
   ((∀ j, j ∈ s → ¬ selected (lt_blks t) m j) ∧
    ∃ k s', s = k :: s' ∧ findVictim t g a = Ok k)).
Proof.
  intros Hwf Ha Hm Hne. pose proof Hwf as [G L].
  destruct (sets_lookup t (extractSet t a) L (extractSet_range t a Hwf)) as [s Hs].
  rewrite (findVictim_loop t g a m s) by done. apply at_Ok in Hs as [_ Hs]. exists s. split; [done|].
  destruct (victim_loop_spec (lt_blks t) m (reverse s) None) as [(p1 & k & p2 & Hr & Hsel & Hn & ->)|[Hn ->]].
  - intros k Hk. rewrite elem_of_reverse in Hk. destruct (set_ways t _ s k L Hs Hk) as (b & ? & ?).
    exists b. split; [done | lia].
  - left. exists (reverse p2), k, (reverse p1). split; [|split; [done|split; [done|]]].
    + rewrite <-(reverse_involutive s), Hr, reverse_app, reverse_cons. by rewrite <-app_assoc.
    + intros j Hj. apply Hn. by rewrite elem_of_reverse in Hj.
  - right. split; [intros j Hj; apply Hn; by rewrite elem_of_reverse|].
    pose proof (set_length t _ s L Hs). pose proof (lay_assoc _ L).
    destruct s as [|k s']; [simpl in *; lia|]. exists k, s'. split; [done|].
    rewrite reverse_cons, last_snoc. done.
Qed.

(** With a usable mask the victim's way is in the mask. *)
Lemma findVictim_selected t g a m :
  lru_wf t → lt_assoc t ≤ 31 → mask_usable t g m →
  ∃ k, findVictim t g a = Ok k ∧ selected (lt_blks t) m k ∧
    (k / Z.to_nat (lt_assoc t))%nat = Z.to_nat (extractSet t a).
Proof.
  intros Hwf Ha (Hm & Hne & w & Hw & Ht). pose proof Hwf as [G L].
  destruct (findVictim_spec t g a m) as (s & Hs & [(s1 & k & s2 & -> & Hv & Hsel & _)|[Hn _]]); [done..| |].
  - exists k. split; [done|]. split; [done|]. apply (set_members t _ _ k L Hs). set_solver.
  - exfalso. pose (k := (Z.to_nat (extractSet t a) * Z.to_nat (lt_assoc t) + Z.to_nat w)%nat).
    assert (k ∈ s) as Hk.
    { rewrite (lay_perm _ L _ s Hs), elem_of_seq. unfold k. lia. }
    destruct (set_ways t _ s k L Hs Hk) as (b & Hb & _). apply (Hn k Hk). exists b. split; [done|].
    destruct (lay_place _ L k b Hb) as [_ ->]. rewrite <-Ht. f_equal.
    rewrite <-(Nat.mod_unique k _ (Z.to_nat (extractSet t a)) (Z.to_nat w)); unfold k; lia.
Qed.

(** One step keeps the store well formed, the masks, and the lines outside the
    mask of the domain. *)
Lemma guest_step_outside g m t t' :
  guest_step g t t' → lru_wf t → lt_assoc t ≤ 31 → mask_usable t g m →
  lru_wf t' ∧ same_shape t t' ∧ lt_waymasks t' = lt_waymasks t ∧
  ∀ k b, lt_blks t !! k = Some b → Z.testbit m (cb_way b) = false →
    ∃ b', lt_blks t' !! k = Some b' ∧ same_line b b'.
Proof.
  intros Hst Hwf Ha Hm. destruct Hst as [t tick clk a sec t' o lat Hacc Hclk|].
  - destruct (accessBlock_spec t tick clk g a sec Hwf Hclk) as (t1 & o1 & lat1 & H1 & _ & Hwf1 & Hsh & Hwm & _ & Ho).
    rewrite Hacc in H1. injection H1 as <- <- <-. do 3 (split; [done|]). intros k b Hb _.
    destruct o as [k'|]; [|destruct Ho as [-> _]; by exists b].
    destruct Ho as (b' & s & Hb' & -> & _). destruct (decide (k = k')) as [->|Hne].
    + rewrite list_lookup_insert_eq by (by eapply lookup_lt_Some). rewrite Hb in Hb'. injection Hb' as <-.
      eexists. split; [done|]. done.
    + rewrite list_lookup_insert_ne by done. by exists b.
  - rename H into Hp, H0 into Hmm, H1 into Hid, H2 into Hv, H3 into Hins, H4 into Hget, H5 into Hput.
    destruct (findVictim_selected t g (pkt_addr p) m Hwf Ha Hm) as (k1 & Hv1 & Hsel & Hset).
    rewrite Hv in Hv1. injection Hv1 as <-. destruct Hsel as (bk & Hbk & Htk).
    destruct (insertBlock_spec t tick mm g p k bk) as (t2 & s & b' & Hins' & Hwf2 & Hsh & Hwm & Hblks & _); [done..|].
    rewrite Hins in Hins'. injection Hins' as <-. apply get_blk_Ok in Hget.
    destruct (put_blk_wf t1 k b (b <| cb_status := status |>)) as [Hput' Hwf']; [done..|].
    rewrite Hput in Hput'. injection Hput' as ->. do 3 (split; [done|]).
    intros k0 b0 Hb0 Ht0. assert (k0 ≠ k) by congruence. simpl. rewrite Hblks.
    rewrite !list_lookup_insert_ne by done. by exists b0.
Qed.

(** The way masks keep the register contract of the control-plane network, at
    destination address 0 of the domains that have a mask. *)
Definition lru_reg (t : LRU) (d a : Z) : Prop := a = 0 ∧ 0 ≤ d < Z.of_nat (length (lt_waymasks t)).

#[export] Instance lru_registers us ms tick :
  @ResourceRegisters LRU (lru_resource us ms tick) lru_wf lru_reg.
Proof.
  split. intros t d a v Hwf [-> Hd] Hv. simpl. unfold lru_set. simpl.
  destruct (upd_at (lt_waymasks t) d v) as [ms'|] eqn:E.
  2:{ unfold upd_at in E. by rewrite decide_True in E. }
  simpl. pose proof (upd_at_length _ _ _ _ E) as Hl. eexists. split; [done|].
  split; [by eapply (layout_blks t); eauto|].
  split; [unfold lru_reg; simpl; by rewrite Hl|].
  assert (∀ d', 0 ≤ d' < Z.of_nat (length (lt_waymasks t)) →
    (Z.of_nat (length ms') <=? d') = false ∧ (Z.of_nat (length (lt_waymasks t)) <=? d') = false) as Hlen.
  { intros d' Hd'. rewrite Hl. destruct (Z.leb_spec (Z.of_nat (length (lt_waymasks t))) d'); [lia | done]. }
  split.
  - unfold lru_get. simpl. rewrite (proj1 (Hlen d Hd)), (at_upd_eq _ _ _ _ E). by eexists.
  - intros d' a' [-> Hd'] Hne. unfold lru_get. simpl.
    rewrite (proj1 (Hlen d' Hd')), (proj2 (Hlen d' Hd')), (at_upd_ne _ _ _ d' _ E) by congruence.
    by destruct (at_ _ _).
Qed.

(** ** Lines and addresses *)

Lemma mask_geometry t b s :
  geometry t b s → lt_setMask t = Z.ones s ∧ lt_blkMask t = Z.ones b.
Proof. intros []. rewrite !Z.ones_equiv. lia. Qed.

Lemma blkAlign_div t b s a : geometry t b s → blkAlign t a = a / 2 ^ b * 2 ^ b.
Proof.
  intros G. destruct (mask_geometry _ _ _ G) as [_ Hm]. unfold blkAlign. rewrite Hm. destruct G.
  rewrite <-Z.shiftl_mul_pow2, <-Z.shiftr_div_pow2 by lia.
  apply Z.bits_inj'. intros i Hi. rewrite Z.land_spec, Z.lnot_spec, ones_testbit, Z.shiftl_spec by lia.
  case_bool_decide.
  - rewrite (Z.testbit_neg_r _ (i - b)) by lia. apply andb_false_r.
  - rewrite shiftr_testbit by lia. replace (i - b + b) with i by lia. apply andb_true_r.
Qed.

(** Two addresses are in the same block exactly when set and tag agree. *)
Lemma same_block t a a' :
  lru_wf t →
  blkAlign t a = blkAlign t a' ↔ extractSet t a = extractSet t a' ∧ extractTag t a = extractTag t a'.
Proof.
  intros [(b & s & G) _]. rewrite !(blkAlign_div t b s), !(extractSet_div t b s) by done.
  unfold extractTag. rewrite (geo_tagShift _ _ _ G). destruct G.
  assert (0 < 2 ^ b ∧ 0 < 2 ^ s) as [Hb Hs] by lia.
  rewrite !Z.shiftr_div_pow2, Z.pow_add_r, <-!Z.div_div by lia. split.
  - intros H. apply Z.mul_cancel_r in H as ->; [done | lia].
  - intros [H1 H2]. rewrite (Z.div_mod (a / 2 ^ b) (2 ^ s)), (Z.div_mod (a' / 2 ^ b) (2 ^ s)) by lia.
    by rewrite H1, H2.
Qed.

Lemma wrap64_shift a x : in_width 64 a → 0 ≤ x → wrap 64 (Z.shiftl (Z.shiftr a x) x) = Z.shiftl (Z.shiftr a x) x.
Proof.
  intros [Ha1 Ha2] Hx. apply wrap_small. rewrite Z.shiftl_mul_pow2, Z.shiftr_div_pow2 by lia.
  assert (0 < 2 ^ x) by lia. pose proof (Z.mul_div_le a (2 ^ x) ltac:(lia)).
  pose proof (Z.div_pos a (2 ^ x) Ha1 ltac:(lia)). unfold in_width. nia.
Qed.

(** Tag and set parts of an address are disjoint bit fields. *)
Lemma tag_set_bits a b s :
  in_width 64 a → 0 ≤ b → 0 ≤ s → b + s < 64 →
  Z.lor (Z.shiftl (Z.shiftr a (b + s)) (b + s)) (wrap 64 (Z.shiftl (Z.land (Z.shiftr a b) (Z.ones s)) b))
  = Z.shiftl (Z.shiftr a b) b.
Proof.
  intros Ha Hb Hs Hbs. rewrite (wrap_small 64 (Z.shiftl (Z.land _ _) _)).
  - apply Z.bits_inj'. intros i Hi. rewrite Z.lor_spec, !Z.shiftl_spec by lia.
    destruct (Z_lt_le_dec i b); [rewrite !Z.testbit_neg_r by lia; done|].
    rewrite Z.land_spec, (shiftr_testbit a b), ones_testbit by lia.
    replace (i - b + b) with i by lia. destruct (Z_lt_le_dec i (b + s)).
    + rewrite (Z.testbit_neg_r _ (i - (b + s))), bool_decide_true by lia. apply andb_true_r.
    + rewrite shiftr_testbit, bool_decide_false by lia. replace (i - (b + s) + (b + s)) with i by lia.
      by rewrite andb_false_r, orb_false_r.
  - rewrite Z.shiftl_mul_pow2, Z.land_ones by lia.
    assert (0 < 2 ^ b ∧ 0 < 2 ^ s) as [? ?] by (split; apply Z.pow_pos_nonneg; lia).
    pose proof (Z.mod_pos_bound (Z.shiftr a b) (2 ^ s) ltac:(lia)).
    assert (2 ^ s * 2 ^ b ≤ 2 ^ 64) by (rewrite <-Z.pow_add_r by lia; apply Z.pow_le_mono_r; lia).
    unfold in_width. nia.
Qed.

(** Tag and set give back the address of the block. *)
Lemma regenerate_align t a :
  lru_wf t → in_width 64 a → regenerateBlkAddr t (extractTag t a) (extractSet t a) = blkAlign t a.
Proof.
  intros [(b & s & G) _] Ha. pose proof (mask_geometry _ _ _ G) as [Hms _].
  unfold regenerateBlkAddr. rewrite (blkAlign_div t b s) by done.
  unfold extractTag, extractSet. rewrite Hms. destruct G as [Hb Hs Hbs _ _ Hss Hts _ _].
  rewrite Hss, Hts, wrap64_shift by (done || lia).
  rewrite tag_set_bits, Z.shiftl_mul_pow2, Z.shiftr_div_pow2 by (done || lia). done.
Qed.

(** The identity of the line after a fill. *)
Lemma blk_matches_iff b g tag sec :
  blk_matches b g tag sec = true ↔
  cb_tag b = tag ∧ blk_isValid b = true ∧ getGuestID b = g ∧ blk_isSecure b = sec.
Proof.
  unfold blk_matches. rewrite !andb_true_iff, !Z.eqb_eq, eqb_true_iff. tauto.
Qed.

(** Which lines the blocks hold after block [k] became [b'] in a store of the
    same shape: [k] holds the line of [b'], every other block what it held. *)
Lemma holds_replaced t t' k b' g a sec j :
  same_shape t t' → lt_blks t' = <[k := b']> (lt_blks t) → (k < length (lt_blks t))%nat →
  holds t' g a sec j ↔
    if decide (j = k)
    then (k / Z.to_nat (lt_assoc t))%nat = Z.to_nat (extractSet t a) ∧
         blk_matches b' g (extractTag t a) sec = true
    else holds t g a sec j.
Proof.
  intros (_&_&Hss&Hts&Hsm&_&Has) Hblks Hlt. unfold holds, extractSet, extractTag.
  rewrite Hss, Hts, Hsm, Has, Hblks. case_decide as Hj.
  - subst j. rewrite list_lookup_insert_eq by done. naive_solver.
  - by rewrite list_lookup_insert_ne by done.
Qed.

Lemma holds_block t g a a' sec j :
  lru_wf t → blkAlign t a = blkAlign t a' → holds t g a sec j → holds t g a' sec j.
Proof. intros Hwf [Hs Ht]%same_block; [|done]. unfold holds. by rewrite Hs, Ht. Qed.

(** The filled block: what the cache's choice of status leaves to look up. *)
Definition fill (t : LRU) (tick mm g : Z) (p : Packet) (k : nat) (status : Z) : result LRU :=
  t ← insertBlock t tick mm g p k;
  b ← get_blk t k;
  put_blk t k (b <| cb_status := status |>).

Lemma fill_spec t tick mm g p k b status :
  lru_wf t → masters_ok mm t → pkt_wf p → 0 ≤ req_masterId (pkt_req p) < mm →
  lt_blks t !! k = Some b → (k / Z.to_nat (lt_assoc t))%nat = Z.to_nat (extractSet t (pkt_addr p)) →
  ∃ t' b', fill t tick mm g p k status = Ok t' ∧ lru_wf t' ∧ same_shape t t' ∧
    lt_blks t' = <[k := b']> (lt_blks t) ∧ cb_tag b' = extractTag t (pkt_addr p) ∧
    getGuestID b' = g mod 256 ∧ cb_status b' = status.
Proof.
  intros Hwf Hmm Hp Hid Hb Hk. unfold fill.
  destruct (insertBlock_spec t tick mm g p k b) as
    (t1 & s & b1 & -> & Hwf1 & Hsh & _ & Hblks & _ & _ & _ & Htag & Hg & _); [done..|].
  assert (lt_blks t1 !! k = Some b1) as Hb1.
  { rewrite Hblks. apply list_lookup_insert_eq. by eapply lookup_lt_Some. }
  cbn [mbind result_bind]. rewrite (proj2 (get_blk_Ok t1 k b1) Hb1). cbn [mbind result_bind].
  destruct (put_blk_wf t1 k b1 (b1 <| cb_status := status |>)) as [-> Hwf2]; [done..|].
  exists (t1 <| lt_blks := <[k := b1 <| cb_status := status |>]> (lt_blks t1) |>), (b1 <| cb_status := status |>).
  do 3 (split; [done|]). split; [|done].
  simpl. rewrite Hblks. by rewrite list_insert_insert_eq.
Qed.

(** ** A small store: 8 sets of 2 ways, one way for each of two domains *)

Definition demo_lru : LRU :=
  match LRU_make 1024 64 2 1 false [1; 2] 4 with
  | Ok t => t
  | Err _ => mkLRU 0 0 0 false 0 0 0 false [] [] 0 0 0 0 [] (TagStats_make 0)
  end.
Lemma demo_lru_made : LRU_make 1024 64 2 1 false [1; 2] 4 = Ok demo_lru.
Proof. vm_compute. reflexivity. Qed.
Lemma demo_lru_wf : lru_wf demo_lru.
Proof. by apply (LRU_make_wf 1024 64 2 1 false [1; 2] 4). Qed.
Lemma demo_lru_empty :
  (∀ k b, lt_blks demo_lru !! k = Some b → blk_isValid b = false) ∧ masters_ok 4 demo_lru.
Proof. by apply (LRU_make_empty 1024 64 2 1 false [1; 2] 4). Qed.

(** A request of master 1 for the line at 0x1240, which maps to set 1. *)
Definition demo_line : Packet :=
  mkPacket 0xB00 ReadReq (mkRequest 0x1240 4 1 7 0 0 0 0) None 0 0x1240 false 4 0 0
    InvalidCmd 0 0 0 0 [].
Lemma demo_line_wf : pkt_wf demo_line.
Proof. repeat split. Qed.

(** ** Properties *)

(** C7: way partitioning.  While only domain [g] accesses and fills the cache,
    with a mask that selects at least one way, every block in a way outside the
    mask keeps its line: tag, status, owner and locks.  Two domains with
    disjoint masks therefore cannot evict each other's lines. *)
Theorem partition_isolation (g m : Z) (t t' : LRU) :
  rtc (guest_step g) t t' → lru_wf t → lt_assoc t ≤ 31 → mask_usable t g m →
  lru_wf t' ∧
  ∀ k b, lt_blks t !! k = Some b → Z.testbit m (cb_way b) = false →
    ∃ b', lt_blks t' !! k = Some b' ∧ same_line b b'.
Proof.
  intros Hr. induction Hr as [t|t t1 t2 Hst _ IH]; intros Hwf Ha Hm.
  { split; [done|]. intros k b Hb _. by exists b. }
  destruct (guest_step_outside g m t t1 Hst Hwf Ha Hm) as (Hwf1 & Hsh & Hwm & Hkeep).
  pose proof Hsh as (_&_&_&_&_&_&Has). destruct IH as [Hwf2 Hkeep2]; [done|by rewrite Has|..].
  { unfold mask_usable. by rewrite Hwm, Has. }
  split; [done|]. intros k b Hb Ht. destruct (Hkeep k b Hb Ht) as (b1 & Hb1 & S1).
  pose proof S1 as (_&_&_&Hw&_). destruct (Hkeep2 k b1 Hb1) as (b2 & Hb2 & S2); [by rewrite Hw|].
  exists b2. split; [done|]. unfold same_line in *. naive_solver congruence.
Qed.

Lemma partition_isolation_witness :
  ∃ t', fill demo_lru 5 4 0 demo_line 2 5 = Ok t' ∧
    ∀ k b, lt_blks demo_lru !! k = Some b → Z.testbit 1 (cb_way b) = false →
      ∃ b', lt_blks t' !! k = Some b' ∧ same_line b b'.
Proof.
  destruct (insertBlock demo_lru 5 4 0 demo_line 2) as [t1|] eqn:E1; [|by vm_compute in E1].
  destruct (get_blk t1 2) as [b1|] eqn:E2; [|by revert E1 E2; vm_compute; intros [= <-]].
  destruct (put_blk t1 2 (b1 <| cb_status := 5 |>)) as [t2|] eqn:E3;
    [|by revert E1 E3; vm_compute; intros [= <-]].
  exists t2. split; [unfold fill; rewrite E1; simpl; rewrite E2; done|].
  apply (partition_isolation 0 1 demo_lru t2); [|apply demo_lru_wf|done|].
  - apply rtc_once. eapply (step_fill 0 demo_lru 5 4 demo_line 2);
      [apply demo_line_wf|apply demo_lru_empty|done|reflexivity|done..].
  - split; [reflexivity|]. split; [done|]. exists 0. split; [split; reflexivity|done].
Defined.

(** C23: replacement.  The victim for an address is a block of the address's
    set whose way the domain's mask selects, and the least recently used such
    block; only when the mask selects none of the set's ways is the victim the
    most recently used block, in a way the domain may not use. *)
Theorem findVictim_lru (t : LRU) (g a m : Z) :
  lru_wf t → lt_assoc t ≤ 31 → at_ (lt_waymasks t) g = Ok m → m ≠ 0 →
  ∃ s, lt_sets t !! Z.to_nat (extractSet t a) = Some s ∧
  ((∃ s1 k s2, s = s1 ++ k :: s2 ∧ findVictim t g a = Ok k ∧ selected (lt_blks t) m k ∧
      ∀ j, j ∈ s2 → ¬ selected (lt_blks t) m j) ∨
   ((∀ w, 0 ≤ w < lt_assoc t → Z.testbit m w = false) ∧
    ∃ k s', s = k :: s' ∧ findVictim t g a = Ok k)).
Proof.
  intros Hwf Ha Hm Hne. destruct (findVictim_spec t g a m) as (s & Hs & [Hl|[Hn Hr]]); [done..|eauto|].
  exists s. split; [done|]. right. split; [|done]. intros w Hw. apply not_true_is_false. intros Ht.
  destruct (findVictim_selected t g a m) as (k & _ & Hsel & Hk); [done..|by split; eauto|].
  apply (Hn k); [|done]. by apply (set_members t _ s k (proj2 Hwf) Hs).
Qed.

Lemma findVictim_lru_witness :
  ∃ s, lt_sets demo_lru !! Z.to_nat (extractSet demo_lru 0x1240) = Some s ∧
  ((∃ s1 k s2, s = s1 ++ k :: s2 ∧ findVictim demo_lru 1 0x1240 = Ok k ∧ selected (lt_blks demo_lru) 2 k ∧
      ∀ j, j ∈ s2 → ¬ selected (lt_blks demo_lru) 2 j) ∨
   ((∀ w, 0 ≤ w < lt_assoc demo_lru → Z.testbit 2 w = false) ∧
    ∃ k s', s = k :: s' ∧ findVictim demo_lru 1 0x1240 = Ok k)).
Proof. apply (findVictim_lru demo_lru 1 0x1240 2); [apply demo_lru_wf|done|reflexivity|done]. Defined.

(** C8: lookup is a map from lines to blocks and a fill updates it.  In a store
    where no line is held twice, filling block [k] for a line that misses gives
    a store in which again no line is held twice, the line is found in [k], the
    line [k] held before is not found any more, and every other lookup, of any
    domain, gives what it gave before. *)
Theorem fill_lookup (t : LRU) (tick mm g : Z) (p : Packet) (k : nat) (b : CacheBlk) (status : Z) :
  lru_wf t → lru_unique t → masters_ok mm t → pkt_wf p → 0 ≤ req_masterId (pkt_req p) < mm →
  0 ≤ g < 256 → findBlock t g (pkt_addr p) (pkt_isSecure p) = Ok None →
  lt_blks t !! k = Some b → (k / Z.to_nat (lt_assoc t))%nat = Z.to_nat (extractSet t (pkt_addr p)) →
  Z.land status BlkValid ≠ 0 → negb (Z.land status BlkSecure =? 0) = pkt_isSecure p →
  ∃ t', fill t tick mm g p k status = Ok t' ∧ lru_wf t' ∧ lru_unique t' ∧
    ∀ g' a' sec', findBlock t' g' a' sec' =
      if decide (g' = g ∧ blkAlign t a' = blkAlign t (pkt_addr p) ∧ sec' = pkt_isSecure p)
      then Ok (Some k)
      else (λ o, if decide (o = Some k) then None else o) <$> findBlock t g' a' sec'.
Proof.
  intros Hwf Hu Hmm Hp Hid Hg Hmiss Hb Hk Hval Hsec.
  destruct (fill_spec t tick mm g p k b status) as (t' & b' & Hf & Hwf' & Hsh & Hblks & Ht & Hgu & Hst); [done..|].
  exists t'. split; [done|]. split; [done|]. apply lookup_lt_Some in Hb as Hlt.
  rewrite Z.mod_small in Hgu by done.
  assert (∀ g' a' sec' j, holds t' g' a' sec' j ↔
    if decide (j = k) then g' = g ∧ blkAlign t a' = blkAlign t (pkt_addr p) ∧ sec' = pkt_isSecure p
    else holds t g' a' sec' j) as Hh.
  { intros g' a' sec' j. rewrite (holds_replaced t t' k b') by done. case_decide; [|done].
    rewrite blk_matches_iff, same_block by done. unfold blk_isValid, blk_isSecure.
    rewrite Hst, Ht, Hgu, Hsec, Hk. rewrite (proj2 (Z.eqb_neq _ _) Hval).
    pose proof (extractSet_range t a' Hwf). pose proof (extractSet_range t (pkt_addr p) Hwf).
    split; [intros (?&?&?&?&?)|intros (->&[-> ->]&->)]; naive_solver lia. }
  assert (∀ g' a' sec' j, g' = g ∧ blkAlign t a' = blkAlign t (pkt_addr p) ∧ sec' = pkt_isSecure p →
    ¬ holds t g' a' sec' j) as Hno.
  { intros g' a' sec' j (-> & Ha & ->) Hj. apply (findBlock_None _ _ _ _ j Hwf Hmiss).
    by apply (holds_block t _ a'). }
  assert (lru_unique t') as Hu'.
  { intros g' a' sec' j j'. rewrite !Hh. repeat case_decide; subst; [done|..|apply Hu]; intros H1 H2; exfalso; by eapply Hno. }
  split; [done|]. intros g' a' sec'.
  destruct (findBlock_holds t' g' a' sec' Hwf' Hu') as (o' & -> & Ho').
  destruct (findBlock_holds t g' a' sec' Hwf Hu) as (o & -> & Ho). simpl.
  setoid_rewrite Hh in Ho'. case_decide as Hl.
  - f_equal. apply Ho'. by rewrite decide_True.
  - f_equal. apply option_eq. intros j. rewrite Ho'. case_decide as Hj; [subst j|].
    + split; [done|]. case_decide; [done | congruence].
    + rewrite <-Ho. case_decide; naive_solver congruence.
Qed.

Lemma fill_lookup_witness :
  ∃ t', fill demo_lru 5 4 0 demo_line 2 5 = Ok t' ∧ findBlock t' 0 0x1277 false = Ok (Some 2%nat).
Proof.
  destruct (fill_lookup demo_lru 5 4 0 demo_line 2 (link_blk 64 2 1 0) 5)
    as (t' & Hf & _ & _ & Hl);
    [apply demo_lru_wf|apply empty_unique, demo_lru_empty|apply demo_lru_empty|apply demo_line_wf|done|done|
     reflexivity..|done|done|].
  exists t'. split; [done|]. rewrite Hl. reflexivity.
Defined.

(** Address decomposition: a 64-bit address is its tag, its set and its
    block offset; the block address rebuilt from tag and set is the aligned
    address, and two addresses are in the same block exactly when tag and set
    agree. *)
Theorem address_roundtrip (t : LRU) (a a' : Z) :
  lru_wf t → in_width 64 a →
  regenerateBlkAddr t (extractTag t a) (extractSet t a) = blkAlign t a ∧
  blkAlign t a + extractBlkOffset t a = a ∧
  0 ≤ extractBlkOffset t a < lt_blkSize t ∧ 0 ≤ extractSet t a < lt_numSets t ∧
  (blkAlign t a = blkAlign t a' ↔ extractSet t a = extractSet t a' ∧ extractTag t a = extractTag t a').
Proof.
  intros Hwf Ha. pose proof (same_block t a a' Hwf) as Hsame. pose proof (extractSet_range t a Hwf) as Hset.
  split; [by apply regenerate_align|]. destruct Hwf as [(b & s & G) L]. pose proof (mask_geometry _ _ _ G) as [Hms Hmb].
  split; [|split; [|done]].
  - rewrite (blkAlign_div t b s) by done. unfold extractBlkOffset. rewrite Hmb, Z.land_ones by (destruct G; lia).
    pose proof (Z.div_mod a (2 ^ b)). destruct G. lia.
  - unfold extractBlkOffset. rewrite Hmb, Z.land_ones by (destruct G; lia).
    rewrite (geo_blkSize _ _ _ G). apply Z.mod_pos_bound. destruct G. lia.
Qed.

Lemma address_roundtrip_witness :
  regenerateBlkAddr demo_lru (extractTag demo_lru 0x1277) (extractSet demo_lru 0x1277) = 0x1240 ∧
  blkAlign demo_lru 0x1277 = blkAlign demo_lru 0x1240.
Proof.
  destruct (address_roundtrip demo_lru 0x1277 0x1240) as (-> & _ & _ & _ & H); [apply demo_lru_wf|by split|].
  split; [reflexivity|]. apply H. split; reflexivity.
Defined.

(** C24: the structural invariant (every set a permutation of its own blocks,
    every block in its place, the address geometry) is established by the
    constructor and kept by every operation of the store; lookups and accesses
    always return, insertion returns for a block of the right set and the
    invalidation for a valid block, whatever the order of operations before. *)
Theorem lru_invariant (t : LRU) :
  (∀ size bs assoc lat seqa wm mm, in_width 31 bs →
     LRU_make size bs assoc lat seqa wm mm = Ok t → lru_wf t) ∧
  (lru_wf t →
    (∀ g a sec, is_ok (findBlock t g a sec)) ∧
    (∀ tick clk g a sec, clk ≠ 0 →
       ∃ t' o lat, accessBlock t tick clk g a sec = Ok (t', o, lat) ∧ lru_wf t') ∧
    (∀ tick mm g p k, masters_ok mm t → pkt_wf p → 0 ≤ req_masterId (pkt_req p) < mm →
       (k < length (lt_blks t))%nat →
       (k / Z.to_nat (lt_assoc t))%nat = Z.to_nat (extractSet t (pkt_addr p)) →
       ∃ t', insertBlock t tick mm g p k = Ok t' ∧ lru_wf t') ∧
    (∀ tick mm k b, masters_ok mm t → lt_blks t !! k = Some b → blk_isValid b = true →
       ∃ t', lru_invalidate t tick mm (Some k) = Ok t' ∧ lru_wf t') ∧
    lru_wf (lru_clearLocks t) ∧ lru_wf (cleanupRefs t) ∧
    (∀ us ms tick t', computeStats us ms tick t = Ok t' → lru_wf t') ∧
    (∀ d a v t', lru_set t d a v = Ok t' → lru_wf t')).
Proof.
  split; [intros *; apply LRU_make_wf|]. intros Hwf. split; [intros *; by apply findBlock_total|]. split.
  { intros * Hc. destruct (accessBlock_spec t tick clk g a sec Hwf Hc) as (t' & o & lat & ? & _ & ? & _). eauto 6. }
  split.
  { intros * Hm Hp Hid Hk Hs. destruct (lookup_lt_is_Some_2 (lt_blks t) k Hk) as [b Hb].
    destruct (insertBlock_spec t tick mm g p k b) as (t' & s & b' & ? & ? & _); eauto. }
  split.
  { intros * Hm Hb Hv. destruct (lru_invalidate_spec t tick mm k b) as (t' & s & b' & ? & ? & _); eauto. }
  split.
  { eapply (layout_blks t); simpl; try done; [by rewrite length_fmap|].
    intros k b' Hb'. apply list_lookup_fmap_Some in Hb' as (b & -> & Hb). eauto. }
  split; [by apply stats_wf'|]. split.
  - intros * H. unfold computeStats in H. inv_ok. by apply stats_wf'.
  - intros * H. unfold lru_set in H. destruct (_ =? 0); inv_ok; [|done].
    eapply (layout_blks t); eauto; done.
Qed.

Lemma lru_invariant_witness : lru_wf demo_lru ∧ is_ok (findBlock demo_lru 0 0x1240 false).
Proof.
  destruct (lru_invariant demo_lru) as [Hmake Hops].
  assert (lru_wf demo_lru) as Hwf by (by apply (Hmake 1024 64 2 1 false [1; 2] 4); [|apply demo_lru_made]).
  split; [done|]. apply (Hops Hwf).
Defined.

(** ** Statistics per domain *)

(** The blocks that count for a domain. *)
Definition lines_of (g : Z) (blks : list CacheBlk) : Z :=
  Z.of_nat (length (filter (λ b, blk_isValid b = true ∧ getGuestID b = g) blks)).

(** The statistics vectors have the sizes [regStats] gives them. *)
Definition stats_sized (st : TagStats) : Prop :=
  Z.of_nat (length (ts_occupanciesTaskId st)) = NumTaskId ∧
  Z.of_nat (length (ts_ageTaskId st)) = NumTaskId ∧
  Forall (λ row, length row = 5%nat) (ts_ageTaskId st) ∧ length (ts_guestCapacity st) = 4%nat.

(** A block [computeStats] can account for: its task and its domain have a
    place in the vectors. *)
Definition countable (b : CacheBlk) : Prop :=
  blk_isValid b = true → 0 ≤ cb_task_id b < NumTaskId ∧ getGuestID b < 4.

Lemma age_index_range us ms age : 0 ≤ age_index us ms age < 5.
Proof. unfold age_index. repeat case_match; lia. Qed.

Lemma stat_add_lookup v i x v' :
  stat_add v i x = Ok v' → 0 ≤ i ∧
  ∀ j, v' !! j = if decide (j = Z.to_nat i) then (λ y, y + x) <$> v !! j else v !! j.
Proof.
  unfold stat_add. destruct (v !! Z.to_nat i) as [y|] eqn:E; [|done].
  case_decide; [|done]. intros [= <-]. split; [done|]. intros j. case_decide as Hj.
  - subst j. rewrite list_lookup_insert_eq by (by eapply lookup_lt_Some). by rewrite E.
  - by rewrite list_lookup_insert_ne.
Qed.

(** One block adds one to the capacity of its domain. *)
Lemma compute_step_spec us ms tick st b :
  stats_sized st → countable b →
  ∃ st', compute_step us ms tick st b = Ok st' ∧ stats_sized st' ∧
    ∀ g c, 0 ≤ g < 4 → ts_guestCapacity st !! Z.to_nat g = Some c →
      ts_guestCapacity st' !! Z.to_nat g = Some (c + lines_of g [b]).
Proof.
  intros (S1 & S2 & S3 & S4) Hc. unfold compute_step, countable, lines_of in *. simpl.
  destruct (blk_isValid b) eqn:Ev.
  2:{ exists st. split; [done|]. split; [done|]. intros g c Hg ->. rewrite filter_cons_False by (intros [? _]; congruence).
      change (Z.of_nat _) with 0. by rewrite Z.add_0_r. }
  destruct (Hc eq_refl) as [Ht Hg]. pose proof (QOSTAG_TO_GUESTID_range (cb_qosTag b)) as Hg0.
  fold (getGuestID b) in Hg0. destruct (Z.ltb_spec (cb_task_id b) NumTaskId); [|lia]. simpl.
  destruct (stat_add_ok (ts_occupanciesTaskId st) (cb_task_id b) 1) as (occ & -> & Lo); [lia|]. simpl.
  destruct (at_total (ts_ageTaskId st) (cb_task_id b)) as [row Hrow]; [lia|]. rewrite Hrow. simpl.
  apply at_Ok in Hrow as [_ Hrow]. pose proof (Forall_lookup_1 _ _ _ _ S3 Hrow) as Lr.
  pose proof (age_index_range us ms (wrap 64 (tick - cb_tickInserted b))).
  destruct (stat_add_ok row (age_index us ms (wrap 64 (tick - cb_tickInserted b))) 1) as (row' & -> & Lr').
  { rewrite Lr. lia. }
  simpl. unfold upd_at. rewrite decide_True by lia. simpl.
  destruct (stat_add_ok (ts_guestCapacity st) (getGuestID b) 1) as (cap & Hcap & Lc); [rewrite S4; lia|].
  rewrite Hcap. simpl. eexists. split; [done|]. split.
  - split; simpl; [lia|]. rewrite length_insert. split; [done|]. split; [|lia].
    apply Forall_insert; [done | by rewrite Lr'].
  - intros g c Hg' Hl. simpl. destruct (stat_add_lookup _ _ _ _ Hcap) as [_ Hj]. rewrite Hj, Hl.
    case_decide as Hgg.
    + assert (g = getGuestID b) as -> by lia. rewrite filter_cons_True by done. done.
    + rewrite filter_cons_False by (intros [_ <-]; done).
      change (Z.of_nat _) with 0. by rewrite Z.add_0_r.
Qed.

Lemma lines_of_cons g b blks : lines_of g (b :: blks) = lines_of g [b] + lines_of g blks.
Proof. unfold lines_of. rewrite !filter_cons. case_decide; simpl; lia. Qed.

Lemma compute_fold_spec us ms tick blks st :
  stats_sized st → Forall countable blks →
  ∃ st', foldM (compute_step us ms tick) st blks = Ok st' ∧ stats_sized st' ∧
    ∀ g c, 0 ≤ g < 4 → ts_guestCapacity st !! Z.to_nat g = Some c →
      ts_guestCapacity st' !! Z.to_nat g = Some (c + lines_of g blks).
Proof.
  intros Hs Hc. revert st Hs. induction Hc as [|b blks Hb _ IH]; intros st Hs; simpl.
  - exists st. split; [done|]. split; [done|]. intros g c _ ->. change (lines_of g []) with 0. by rewrite Z.add_0_r.
  - destruct (compute_step_spec us ms tick st b Hs Hb) as (st1 & -> & Hs1 & H1). simpl.
    destruct (IH st1 Hs1) as (st2 & -> & Hs2 & H2). exists st2. split; [done|]. split; [done|].
    intros g c Hg Hl. rewrite (H2 g _ Hg (H1 g c Hg Hl)), (lines_of_cons g b blks). f_equal. lia.
Qed.

(** The capacity register.  Reading the capacity of a domain through the
    control plane recomputes the statistics and adds the number of lines the
    domain holds to the counter, which nothing resets: a second read, with no
    access in between, reports the first value plus the occupancy again. *)
Theorem capacity_accumulates (us ms tick : Z) (t : LRU) (g c : Z) :
  stats_sized (lt_stats t) → Forall countable (lt_blks t) → 0 ≤ g < 4 →
  ts_guestCapacity (lt_stats t) !! Z.to_nat g = Some c →
  ∃ t1 t2, lru_get us ms tick t g 8 = Ok (t1, c + lines_of g (lt_blks t)) ∧
    lru_get us ms tick t1 g 8 = Ok (t2, c + 2 * lines_of g (lt_blks t)).
Proof.
  assert (∀ t c, stats_sized (lt_stats t) → Forall countable (lt_blks t) → 0 ≤ g < 4 →
    ts_guestCapacity (lt_stats t) !! Z.to_nat g = Some c →
    ∃ t', lru_get us ms tick t g 8 = Ok (t', c + lines_of g (lt_blks t)) ∧
      stats_sized (lt_stats t') ∧ lt_blks t' = lt_blks t ∧
      ts_guestCapacity (lt_stats t') !! Z.to_nat g = Some (c + lines_of g (lt_blks t))) as Hread.
  { clear t c. intros t c (S1 & S2 & S3 & S4) Hc Hg Hl. unfold lru_get. simpl. unfold computeStats.
    set (st0 := setf ts_ageTaskId _ _).
    destruct (compute_fold_spec us ms tick (lt_blks t) st0) as (st' & -> & Hs' & Hcap); [|done|].
    { unfold stats_sized. split; [done|]. split; [done|]. split; [|done]. by apply Forall_replicate. }
    cbn [mbind result_bind]. specialize (Hcap g c Hg Hl). destruct Hs' as (?&?&?&S4'). simpl. rewrite S4'.
    destruct (Z.leb_spec (Z.of_nat 4) g); [lia|].
    assert (at_ (ts_guestCapacity st') g = Ok (c + lines_of g (lt_blks t))) as ->.
    { apply at_Ok. split; [lia | done]. }
    simpl. eexists. split; [done|]. by repeat split. }
  intros Hs Hc Hg Hl. destruct (Hread t c Hs Hc Hg Hl) as (t1 & H1 & Hs1 & Hb1 & Hl1).
  destruct (Hread t1 _ Hs1 ltac:(by rewrite Hb1) Hg Hl1) as (t2 & H2 & _).
  exists t1, t2. split; [done|]. rewrite H2, Hb1. do 2 f_equal. lia.
Qed.

Lemma TagStats_make_sized mm : stats_sized (TagStats_make mm).
Proof.
  unfold stats_sized, TagStats_make. cbn [ts_occupanciesTaskId ts_ageTaskId ts_guestCapacity].
  rewrite !length_replicate. split; [done|]. split; [done|].
  split; [by apply Forall_replicate | done].
Qed.

(** A store whose only valid block belongs to domain 0. *)
Definition demo_counted : LRU :=
  demo_lru <| lt_blks := [(link_blk 64 2 0 0) <| cb_status := 5 |> <| cb_qosTag := 0 |>; link_blk 64 2 0 1] |>
    <| lt_stats := TagStats_make 4 |>.

Lemma capacity_accumulates_witness :
  ∃ t1 t2, lru_get 1000000 1000000000 9 demo_counted 0 8 = Ok (t1, 1) ∧
    lru_get 1000000 1000000000 9 t1 0 8 = Ok (t2, 2).
Proof.
  apply (capacity_accumulates 1000000 1000000000 9 demo_counted 0 0).
  - apply TagStats_make_sized.
  - repeat constructor; done.
  - done.
  - done.
Defined.
