(* ===== verification/Mshr.v ===== *)
(** * Miss status and handling registers

    [src/pardg5-v/hyper/mem/cache/mshr.cc] and [.hh].  The registers of every
    cache of the hierarchy live in one store, indexed by the identifiers that
    packets carry in their sender-state stacks, because a target that is added
    below marks the register above as pending downstream, and issuing a request
    clears those marks recursively. *)

From S2P Require Import Prelude BaseLib Packet.
Local Open Scope Z_scope.

(** ** Targets *)

Inductive Source : Type := FromCPU | FromSnoop | FromPrefetcher.
#[export] Instance Source_eq_dec : EqDecision Source.
Proof. solve_decision. Defined.

Record Target : Type := mkTarget {
  tg_recvTime : Z;
  tg_readyTime : Z;
  tg_order : Z;
  tg_pkt : Packet;
  tg_source : Source;
  tg_markedPending : bool
}.
#[export] Instance eta_Target : Eta Target := λ t,
  mkTarget (tg_recvTime t) (tg_readyTime t) (tg_order t) (tg_pkt t) (tg_source t) (tg_markedPending t).

Record TargetList : Type := mkTargets {
  tl_list : list Target;
  tl_needsExclusive : bool;
  tl_hasUpgrade : bool
}.
#[export] Instance eta_TargetList : Eta TargetList := λ t,
  mkTargets (tl_list t) (tl_needsExclusive t) (tl_hasUpgrade t).

Definition TargetList_make : TargetList := mkTargets [] false false.
Definition resetFlags (t : TargetList) : TargetList :=
  t <| tl_needsExclusive := false |> <| tl_hasUpgrade := false |>.
Definition tl_isReset (t : TargetList) : bool := negb (tl_needsExclusive t) && negb (tl_hasUpgrade t).

(** ** The register *)

Record MSHR : Type := mkMSHR {
  ms_readyTime : Z;
  ms_isUncacheable : bool;
  ms_downstreamPending : bool;
  ms_pendingDirty : bool;
  ms_postInvalidate : bool;
  ms_postDowngrade : bool;
  ms_order : Z;
  ms_guest : Z;
  ms_addr : Z;
  ms_size : Z;
  ms_isSecure : bool;
  ms_inService : bool;
  ms_isForward : bool;
  ms_threadNum : Z;
  ms_targets : TargetList;
  ms_deferredTargets : TargetList
}.
#[export] Instance eta_MSHR : Eta MSHR := λ m,
  mkMSHR (ms_readyTime m) (ms_isUncacheable m) (ms_downstreamPending m) (ms_pendingDirty m)
    (ms_postInvalidate m) (ms_postDowngrade m) (ms_order m) (ms_guest m) (ms_addr m) (ms_size m)
    (ms_isSecure m) (ms_inService m) (ms_isForward m) (ms_threadNum m) (ms_targets m)
    (ms_deferredTargets m).

(** The constructor; [guest] is not initialised, so its value is an argument,
    and [InvalidThreadID] is -1. *)
Definition MSHR_make (guest : Z) : MSHR :=
  mkMSHR 0 false false false false false 0 guest 0 0 false false false (-1)
    TargetList_make TargetList_make.

Definition ms_needsExclusive (m : MSHR) : bool := tl_needsExclusive (ms_targets m).
Definition isPendingDirty (m : MSHR) : result bool := assertb (ms_inService m) ;; Ok (ms_pendingDirty m).
Definition hasPostInvalidate (m : MSHR) : result bool := assertb (ms_inService m) ;; Ok (ms_postInvalidate m).
Definition hasPostDowngrade (m : MSHR) : result bool := assertb (ms_inService m) ;; Ok (ms_postDowngrade m).

Definition getNumTargets (m : MSHR) : Z :=
  Z.of_nat (length (tl_list (ms_targets m))) + Z.of_nat (length (tl_list (ms_deferredTargets m))).
Definition hasTargets (m : MSHR) : bool := match tl_list (ms_targets m) with [] => false | _ => true end.
Definition getTarget (m : MSHR) : result Target :=
  match tl_list (ms_targets m) with [] => Err AssertFail | t :: _ => Ok t end.
Definition popTarget (m : MSHR) : result MSHR :=
  match tl_list (ms_targets m) with
  | [] => Err OutOfBounds
  | _ :: ts => Ok (m <| ms_targets := (ms_targets m) <| tl_list := ts |> |>)
  end.

(** [targets.front()] of an empty list is undefined. *)
Definition isForwardNoResponse (m : MSHR) : result bool :=
  if negb (getNumTargets m =? 1) then Ok false else
  match tl_list (ms_targets m) with
  | [] => Err OutOfBounds
  | t :: _ => Ok (bool_decide (tg_source t = FromCPU) && negb (pkt_needsResponse (tg_pkt t)))
  end.

(** ** The store of registers *)

Abbreviation heap := (list MSHR).
Definition get_mshr (h : heap) (id : nat) : result MSHR := at_ h (Z.of_nat id).
Definition put_mshr (h : heap) (id : nat) (m : MSHR) : result heap := upd_at h (Z.of_nat id) m.

(** The flag updates and the new target of [TargetList::add]. *)
Definition tl_push (t : TargetList) (p : Packet) (recvTime readyTime order : Z) (source : Source)
    (markPending : bool) : TargetList :=
  let fromCpu := negb (bool_decide (source = FromSnoop)) in
  let t := if fromCpu && pkt_needsExclusive p then t <| tl_needsExclusive := true |> else t in
  let t := if fromCpu && (pkt_isUpgrade p || bool_decide (pkt_cmd p = StoreCondReq))
           then t <| tl_hasUpgrade := true |> else t in
  t <| tl_list := tl_list t ++ [mkTarget recvTime readyTime order p source markPending] |>.

(** The mark [TargetList::add] leaves on the next register up the stack. *)
Definition mark_upstream (h : heap) (p : Packet) (markPending : bool) : result heap :=
  if markPending then
    match findNextMshr (pkt_senderState p) with
    | None => Ok h
    | Some id =>
        m ← get_mshr h id;
        assertb (negb (ms_downstreamPending m)) ;;
        put_mshr h id (m <| ms_downstreamPending := true |>)
    end
  else Ok h.

(** [targets.add] and [deferredTargets.add] of register [id]. *)
Definition add_target (h : heap) (id : nat) (deferred : bool) (p : Packet)
    (curTick readyTime order : Z) (source : Source) (markPending : bool) : result heap :=
  h ← mark_upstream h p markPending;
  m ← get_mshr h id;
  put_mshr h id
    (if deferred
     then m <| ms_deferredTargets := tl_push (ms_deferredTargets m) p curTick readyTime order source markPending |>
     else m <| ms_targets := tl_push (ms_targets m) p curTick readyTime order source markPending |>).

Definition replaceUpgrade (p : Packet) : Packet :=
  match pkt_cmd p with
  | UpgradeReq => p <| pkt_cmd := ReadExReq |>
  | SCUpgradeReq => p <| pkt_cmd := SCUpgradeFailReq |>
  | StoreCondReq => p <| pkt_cmd := StoreCondFailReq |>
  | _ => p
  end.

Definition replaceUpgrades (t : TargetList) : TargetList :=
  if negb (tl_hasUpgrade t) then t
  else t <| tl_list := (λ tg, tg <| tg_pkt := replaceUpgrade (tg_pkt tg) |>) <$> tl_list t |>
         <| tl_hasUpgrade := false |>.

(** [MSHR::clearDownstreamPending], with the loop of
    [TargetList::clearDownstreamPending] over the register's targets. *)
Fixpoint clear_pending (fuel : nat) (h : heap) (id : nat) : result heap :=
  match fuel with
  | O => Err OutOfFuel
  | S fuel =>
      m ← get_mshr h id;
      assertb (ms_downstreamPending m) ;;
      h ← put_mshr h id (m <| ms_downstreamPending := false |>);
      foldM (λ h tg, if tg_markedPending tg
                     then match findNextMshr (pkt_senderState (tg_pkt tg)) with
                          | None => Ok h
                          | Some id' => clear_pending fuel h id'
                          end
                     else Ok h) h (tl_list (ms_targets m))
  end.

(** The flags still set bound the recursion: each call clears one. *)
Definition pending_count (h : heap) : nat := length (filter (λ m, ms_downstreamPending m = true) h).
Definition clearDownstreamPending (h : heap) (id : nat) : result heap :=
  clear_pending (S (pending_count h)) h id.

(** [TargetList::clearDownstreamPending]. *)
Definition tl_clearDownstreamPending (h : heap) (ts : list Target) : result heap :=
  foldM (λ h tg, if tg_markedPending tg
                 then match findNextMshr (pkt_senderState (tg_pkt tg)) with
                      | None => Ok h
                      | Some id' => clearDownstreamPending h id'
                      end
                 else Ok h) h ts.

(** ** Operations of a register *)

Definition mshr_allocate (h : heap) (id : nat) (guest addr size : Z) (p : Packet)
    (curTick whenReady order : Z) : result heap :=
  sec ← isSecure p;
  m ← get_mshr h id;
  let m := m <| ms_guest := guest |> <| ms_addr := addr |> <| ms_size := size |>
             <| ms_isSecure := sec |> <| ms_readyTime := whenReady |> <| ms_order := order |>
             <| ms_isForward := false |> <| ms_isUncacheable := req_isUncacheable (pkt_req p) |>
             <| ms_inService := false |> <| ms_downstreamPending := false |>
             <| ms_threadNum := 0 |> in
  assertb (tl_isReset (ms_targets m)) ;;
  let source := if bool_decide (pkt_cmd p = HardPFReq) then FromPrefetcher else FromCPU in
  h ← put_mshr h id m;
  h ← add_target h id false p curTick whenReady order source true;
  m ← get_mshr h id;
  assertb (tl_isReset (ms_deferredTargets m)) ;;
  Ok h.

(** [markInService]: whether the register only forwarded a request without
    response. *)
Definition mshr_markInService (h : heap) (id : nat) (p : Packet) : result (heap * bool) :=
  m ← get_mshr h id;
  assertb (negb (ms_inService m)) ;;
  fwd ← isForwardNoResponse m;
  if fwd : bool then
    assertb (getNumTargets m =? 1) ;;
    m ← popTarget m;
    h ← put_mshr h id m;
    Ok (h, true)
  else
    let m := m <| ms_inService := true |>
               <| ms_pendingDirty := tl_needsExclusive (ms_targets m) ||
                    (negb (sharedAsserted p) && memInhibitAsserted p) |>
               <| ms_postInvalidate := false |> <| ms_postDowngrade := false |> in
    h ← put_mshr h id m;
    h ← (if negb (ms_downstreamPending m)
         then tl_clearDownstreamPending h (tl_list (ms_targets m)) else Ok h);
    Ok (h, false).

Definition mshr_deallocate (h : heap) (id : nat) : result heap :=
  m ← get_mshr h id;
  assertb (bool_decide (tl_list (ms_targets m) = [])) ;;
  let m := m <| ms_targets := resetFlags (ms_targets m) |> in
  assertb (tl_isReset (ms_deferredTargets m)) ;;
  put_mshr h id (m <| ms_inService := false |>).

(** [allocateTarget]: whether the target has to wait for the response of the
    request in service. *)
Definition must_defer (m : MSHR) (p : Packet) : result bool :=
  if negb (ms_inService m) then Ok false else
  if negb (bool_decide (tl_list (ms_deferredTargets m) = [])) then Ok true else
  inv ← hasPostInvalidate m;
  if inv : bool then Ok true else
  if negb (pkt_needsExclusive p) then Ok false else
  dirty ← isPendingDirty m;
  if negb dirty then Ok true else
  down ← hasPostDowngrade m;
  if down : bool then Ok true else Ok (ms_isForward m).

Definition allocateTarget (h : heap) (id : nat) (p : Packet) (curTick whenReady order : Z)
  : result heap :=
  assertb (negb (bool_decide (pkt_cmd p = HardPFReq))) ;;
  m ← get_mshr h id;
  defer ← must_defer m p;
  if defer : bool then
    inv ← hasPostInvalidate m;
    let p := if inv : bool then replaceUpgrade p else p in
    add_target h id true p curTick whenReady order FromCPU true
  else add_target h id false p curTick whenReady order FromCPU (negb (ms_inService m)).

(** [handleSnoop]: the store, the snooped packet and whether the register takes
    the snoop. *)
Definition handleSnoop (h : heap) (id : nat) (p : Packet) (curTick order : Z)
  : result (heap * Packet * bool) :=
  m ← get_mshr h id;
  if negb (ms_inService m) || (isExpressSnoop p && ms_downstreamPending m) then
    if pkt_needsExclusive p then
      h ← put_mshr h id (m <| ms_targets := replaceUpgrades (ms_targets m) |>
                           <| ms_deferredTargets := replaceUpgrades (ms_deferredTargets m) |>);
      Ok (h, p, false)
    else Ok (h, p, false)
  else
    let m := if pkt_needsExclusive p
             then m <| ms_deferredTargets := replaceUpgrades (ms_deferredTargets m) |> else m in
    h ← put_mshr h id m;
    inv ← hasPostInvalidate m;
    if inv : bool then Ok (h, p, true) else
    dirty ← isPendingDirty m;
    '(h, p) ←
      (if dirty || pkt_isInvalidate p then
         h ← add_target h id false (Packet_copy p true) curTick curTick order FromSnoop
               (ms_downstreamPending m && tl_needsExclusive (ms_targets m));
         let p := if dirty : bool then setSupplyExclusive (assertMemInhibit p) else p in
         m ← get_mshr h id;
         h ← (if pkt_needsExclusive p then put_mshr h id (m <| ms_postInvalidate := true |>) else Ok h);
         Ok (h, p)
       else Ok (h, p));
    if negb (pkt_needsExclusive p) then
      m ← get_mshr h id;
      h ← put_mshr h id (m <| ms_postDowngrade := true |>);
      Ok (h, assertShared p, true)
    else Ok (h, p, true).

Definition promoteDeferredTargets (h : heap) (id : nat) (curTick : Z) : result (heap * bool) :=
  m ← get_mshr h id;
  assertb (bool_decide (tl_list (ms_targets m) = [])) ;;
  match tl_list (ms_deferredTargets m) with
  | [] => Ok (h, false)
  | front :: _ =>
      let m := m <| ms_targets := ms_deferredTargets m |>
                 <| ms_deferredTargets := resetFlags (ms_targets m) |>
                 <| ms_order := tg_order front |>
                 <| ms_readyTime := Z.max curTick (tg_readyTime front) |> in
      h ← put_mshr h id m;
      Ok (h, true)
  end.

(** [handleFill]: the condition is evaluated left to right, so the flags that
    need a request in service are read only for an unshared response. *)
Definition handleFill (h : heap) (id : nat) (p : Packet) : result heap :=
  m ← get_mshr h id;
  if sharedAsserted p then Ok h else
  inv ← hasPostInvalidate m;
  if inv : bool then Ok h else
  down ← hasPostDowngrade m;
  if down : bool then Ok h else
  if negb (tl_needsExclusive (ms_deferredTargets m)) then Ok h else
  assertb (negb (tl_needsExclusive (ms_targets m))) ;;
  let m := m <| ms_targets := (ms_targets m) <| tl_needsExclusive := true |> |> in
  h ← put_mshr h id m;
  assertb (negb (ms_downstreamPending m)) ;;
  h ← tl_clearDownstreamPending h (tl_list (ms_deferredTargets m));
  m ← get_mshr h id;
  let moved := tl_list (ms_targets m) ++ tl_list (ms_deferredTargets m) in
  put_mshr h id
    (m <| ms_targets := (ms_targets m) <| tl_list := moved |> |>
       <| ms_deferredTargets := resetFlags ((ms_deferredTargets m) <| tl_list := [] |>) |>).

(** ** Lemmas *)

Lemma get_mshr_Ok h id m : get_mshr h id = Ok m ↔ h !! id = Some m.
Proof. unfold get_mshr. rewrite at_Ok, Nat2Z.id. intuition lia. Qed.

Lemma put_mshr_Ok h id m h' :
  put_mshr h id m = Ok h' ↔ (id < length h)%nat ∧ h' = <[id := m]> h.
Proof. unfold put_mshr. rewrite upd_at_Ok, Nat2Z.id. intuition lia. Qed.

(** The register as it is apart from the flag that downstream caches set. *)
Definition unmark (m : MSHR) : MSHR := m <| ms_downstreamPending := false |>.

(** Stores that differ in those flags only, and never by a new flag. *)
Definition flags_cleared (h h' : heap) : Prop :=
  unmark <$> h' = unmark <$> h ∧
  ∀ i m m', h !! i = Some m → h' !! i = Some m' →
    ms_downstreamPending m' = true → ms_downstreamPending m = true.

Lemma flags_cleared_refl h : flags_cleared h h.
Proof. split; [done|]. naive_solver. Qed.

Lemma flags_cleared_length h h' : flags_cleared h h' → length h' = length h.
Proof. intros [H _]. apply (f_equal length) in H. by rewrite !length_fmap in H. Qed.

Lemma flags_cleared_trans h1 h2 h3 :
  flags_cleared h1 h2 → flags_cleared h2 h3 → flags_cleared h1 h3.
Proof.
  intros H12 H23. pose proof (flags_cleared_length _ _ H12). pose proof (flags_cleared_length _ _ H23).
  destruct H12 as [E12 P12], H23 as [E23 P23]. split; [congruence|].
  intros i m m' Hm Hm' Hf. destruct (lookup_lt_is_Some_2 h2 i) as [m2 Hm2].
  { apply lookup_lt_Some in Hm. lia. }
  eauto.
Qed.

Lemma clear_one h id m :
  h !! id = Some m → flags_cleared h (<[id := unmark m]> h).
Proof.
  intros Hm. split.
  - apply list_eq. intros i. rewrite !list_lookup_fmap. destruct (decide (i = id)) as [->|Hne].
    + rewrite list_lookup_insert_eq by (by eapply lookup_lt_Some). by rewrite Hm.
    + by rewrite list_lookup_insert_ne.
  - intros i m0 m' Hi Hi' Hf. destruct (decide (i = id)) as [->|Hne].
    + rewrite list_lookup_insert_eq in Hi' by (by eapply lookup_lt_Some). by injection Hi' as <-.
    + rewrite list_lookup_insert_ne in Hi' by done. congruence.
Qed.

Lemma pending_count_mono h h' : flags_cleared h h' → (pending_count h' ≤ pending_count h)%nat.
Proof.
  unfold pending_count. revert h'. induction h as [|m h IH]; intros [|m' h'] [He Hp]; try done.
  injection He as Hm He. rewrite !filter_cons.
  assert (flags_cleared h h') as Hc.
  { split; [done|]. intros i a a' Ha Ha'. by apply (Hp (S i)). }
  specialize (IH h' Hc). pose proof (Hp 0%nat m m' eq_refl eq_refl) as Hhd.
  repeat case_decide; simpl; try lia. naive_solver.
Qed.

Lemma pending_count_clear h id m :
  h !! id = Some m → ms_downstreamPending m = true →
  (S (pending_count (<[id := unmark m]> h)) ≤ pending_count h)%nat.
Proof.
  intros Hm Hf. unfold pending_count. revert id Hm. induction h as [|x h IH]; intros [|id] Hm; try done.
  - injection Hm as ->. simpl. rewrite !filter_cons, decide_False, decide_True by done. simpl. lia.
  - simpl. rewrite !filter_cons. specialize (IH id Hm). case_decide; simpl; lia.
Qed.

(** The recursion returns within the number of set flags, only clears flags,
    and clears the one it starts from. *)
Lemma clear_pending_spec fuel h id :
  (pending_count h < fuel)%nat →
  clear_pending fuel h id ≠ Err OutOfFuel ∧
  ∀ h', clear_pending fuel h id = Ok h' →
    flags_cleared h h' ∧ ∃ m', h' !! id = Some m' ∧ ms_downstreamPending m' = false.
Proof.
  revert h id. induction fuel as [|fuel IH]; intros h id Hf; [lia|]. simpl.
  destruct (get_mshr h id) as [m|e] eqn:Em.
  2:{ unfold get_mshr, at_ in Em. simpl. split; [|done]. repeat case_match; congruence. }
  apply get_mshr_Ok in Em. simpl. destruct (ms_downstreamPending m) eqn:Ep; simpl; [|done].
  pose proof (lookup_lt_Some _ _ _ Em) as Hlt.
  change (put_mshr h id _) with (put_mshr h id (unmark m)).
  rewrite (proj2 (put_mshr_Ok h id (unmark m) (<[id := unmark m]> h))) by done. simpl.
  pose proof (pending_count_clear h id m Em Ep) as Hcnt. pose proof (clear_one h id m Em) as Hc1.
  set (step := λ h tg, _). set (h1 := <[id := unmark m]> h) in *.
  assert (∀ ts h0, flags_cleared h1 h0 →
    foldM step h0 ts ≠ Err OutOfFuel ∧ ∀ h', foldM step h0 ts = Ok h' → flags_cleared h1 h') as Hloop.
  { induction ts as [|tg ts IHts]; intros h0 H0; simpl; [naive_solver|].
    assert (step h0 tg ≠ Err OutOfFuel ∧ ∀ h', step h0 tg = Ok h' → flags_cleared h1 h') as [Hn Hs].
    { unfold step. destruct (tg_markedPending tg); [|naive_solver].
      destruct (findNextMshr _) as [id'|]; [|naive_solver].
      destruct (IH h0 id') as [Hn Hs]; [pose proof (pending_count_mono _ _ H0); lia|].
      split; [done|]. intros h' H'. eapply flags_cleared_trans; [done|]. by apply Hs. }
    destruct (step h0 tg) as [h2|]; simpl; [apply IHts; by apply Hs | split; congruence]. }
  destruct (Hloop (tl_list (ms_targets m)) h1 (flags_cleared_refl h1)) as [Hn Hs].
  split; [done|]. intros h' H'. specialize (Hs h' H').
  split; [by eapply flags_cleared_trans|].
  destruct (lookup_lt_is_Some_2 h' id) as [m' Hm'].
  { rewrite (flags_cleared_length _ _ Hs). unfold h1. by rewrite length_insert. }
  exists m'. split; [done|]. destruct (ms_downstreamPending m') eqn:E; [|done].
  destruct Hs as [_ Hs]. by discriminate (Hs id (unmark m) m' (list_lookup_insert_eq h id _ Hlt) Hm' E).
Qed.

Lemma tl_clear_spec ts h :
  tl_clearDownstreamPending h ts ≠ Err OutOfFuel ∧
  ∀ h', tl_clearDownstreamPending h ts = Ok h' → flags_cleared h h'.
Proof.
  unfold tl_clearDownstreamPending. revert h. induction ts as [|tg ts IH]; intros h; simpl.
  { split; [done|]. intros h' [= <-]. apply flags_cleared_refl. }
  set (m := if tg_markedPending tg then _ else _).
  assert (m ≠ Err OutOfFuel ∧ ∀ h', m = Ok h' → flags_cleared h h') as [Hn Hs].
  { unfold m. destruct (tg_markedPending tg); [|naive_solver eauto using flags_cleared_refl].
    destruct (findNextMshr _) as [id|]; [|naive_solver eauto using flags_cleared_refl].
    destruct (clear_pending_spec (S (pending_count h)) h id) as [Hn Hs]; [lia|].
    split; [done|]. intros h' H'. by apply Hs. }
  destruct m as [h1|e]; simpl; [|split; congruence].
  destruct (IH h1) as [Hn1 Hs1]. split; [done|]. intros h' H'.
  eapply flags_cleared_trans; [by apply Hs | by apply Hs1].
Qed.

(** Reading a register out of a store that differs by flags only. *)
Lemma unmark_lookup (h h' : heap) id m :
  unmark <$> h' = unmark <$> h → h !! id = Some m →
  ∃ m', h' !! id = Some m' ∧ unmark m' = unmark m.
Proof.
  intros He Hm. apply (f_equal (lookup id)) in He. rewrite !list_lookup_fmap, Hm in He.
  destruct (h' !! id) as [m'|]; [|done]. exists m'. split; [done | by apply (inj Some) in He].
Qed.

(** Two registers that agree up to the flag agree on every other member. *)
Lemma unmark_fields m m' :
  unmark m' = unmark m →
  ms_targets m' = ms_targets m ∧ ms_deferredTargets m' = ms_deferredTargets m ∧
  ms_inService m' = ms_inService m ∧ ms_postInvalidate m' = ms_postInvalidate m ∧
  ms_postDowngrade m' = ms_postDowngrade m ∧ ms_pendingDirty m' = ms_pendingDirty m ∧
  ms_isForward m' = ms_isForward m.
Proof. destruct m, m'. unfold unmark. simpl. intros H. by injection H as -> -> -> -> -> -> -> -> -> -> -> -> -> -> ->. Qed.

Lemma mark_upstream_spec h p b h' : mark_upstream h p b = Ok h' → unmark <$> h' = unmark <$> h.
Proof.
  unfold mark_upstream. destruct b; [|by intros [= <-]].
  destruct (findNextMshr _) as [id|]; [|by intros [= <-]]. intros H. inv_ok.
  apply get_mshr_Ok in E. apply put_mshr_Ok in H as [Hlt ->].
  apply list_eq. intros i. rewrite !list_lookup_fmap. destruct (decide (i = id)) as [->|Hne].
  - rewrite list_lookup_insert_eq by done. by rewrite E.
  - by rewrite list_lookup_insert_ne.
Qed.

(** The requests a register holds, in service order. *)
Definition all_targets (m : MSHR) : list Target :=
  tl_list (ms_targets m) ++ tl_list (ms_deferredTargets m).

(** [add_target] appends to one of the two lists; apart from flags nothing
    else changes. *)
Lemma add_target_spec h id d p tick rt ord src mp h' m :
  h !! id = Some m → add_target h id d p tick rt ord src mp = Ok h' →
  ∃ m', h' !! id = Some m' ∧
    ms_targets m' = (if d then ms_targets m else tl_push (ms_targets m) p tick rt ord src mp) ∧
    ms_deferredTargets m' =
      (if d then tl_push (ms_deferredTargets m) p tick rt ord src mp else ms_deferredTargets m) ∧
    ms_inService m' = ms_inService m ∧ ms_postInvalidate m' = ms_postInvalidate m ∧
    ms_postDowngrade m' = ms_postDowngrade m ∧ ms_pendingDirty m' = ms_pendingDirty m ∧
    ms_isForward m' = ms_isForward m ∧
    ∀ i, i ≠ id → unmark <$> h' !! i = unmark <$> h !! i.
Proof.
  intros Hm H. unfold add_target in H. inv_ok. apply mark_upstream_spec in E. apply get_mshr_Ok in E0.
  apply put_mshr_Ok in H as [Hlt ->]. destruct (unmark_lookup h a id m E Hm) as (m1 & Hm1 & Hu).
  rewrite E0 in Hm1. injection Hm1 as ->. destruct (unmark_fields m m1 Hu) as (Ht & Hd & ?&?&?&?&?).
  eexists. rewrite list_lookup_insert_eq by done. split; [done|]. rewrite <-Ht, <-Hd.
  repeat (split; [by destruct d|]). intros i Hi. rewrite list_lookup_insert_ne by done.
  rewrite <-!list_lookup_fmap. by rewrite E.
Qed.

(** The requests that [replaceUpgrade] rewrites. *)
Definition upgrade_cmd (c : MemCmd) : bool :=
  match c with UpgradeReq | SCUpgradeReq | StoreCondReq => true | _ => false end.

(** The flags of a target list cover the requests in it. *)
Definition tl_ok (t : TargetList) : Prop :=
  ∀ tg, tg ∈ tl_list t → tg_source tg ≠ FromSnoop →
    (pkt_needsExclusive (tg_pkt tg) = true → tl_needsExclusive t = true) ∧
    (upgrade_cmd (pkt_cmd (tg_pkt tg)) = true → tl_hasUpgrade t = true).

(** Invariant of a register: targets are deferred only while a request is in
    service, and the flags cover both lists. *)
Definition mshr_inv (m : MSHR) : Prop :=
  (ms_inService m = false → tl_list (ms_deferredTargets m) = []) ∧
  tl_ok (ms_targets m) ∧ tl_ok (ms_deferredTargets m).

Lemma tl_push_list t p a b c s mp :
  tl_list (tl_push t p a b c s mp) = tl_list t ++ [mkTarget a b c p s mp].
Proof. unfold tl_push. repeat case_match; reflexivity. Qed.

Lemma tl_push_ok t p a b c s mp : tl_ok t → tl_ok (tl_push t p a b c s mp).
Proof.
  intros Hok tg Hin Hs. rewrite tl_push_list in Hin. apply elem_of_app in Hin as [Hin|Hin].
  - destruct (Hok tg Hin Hs) as [H1 H2]. unfold tl_push. repeat case_match; simpl; naive_solver.
  - apply list_elem_of_singleton in Hin as ->. simpl in *. unfold tl_push.
    rewrite bool_decide_false by done. simpl. split.
    + intros ->. repeat case_match; done.
    + intros Hup. assert (pkt_isUpgrade p || bool_decide (pkt_cmd p = StoreCondReq) = true) as ->.
      { unfold pkt_isUpgrade. destruct (pkt_cmd p); done. }
      repeat case_match; done.
Qed.

(** The upgrades of a list whose flag covers them are gone after replacement. *)
Lemma replaceUpgrade_none p : upgrade_cmd (pkt_cmd (replaceUpgrade p)) = false.
Proof. unfold replaceUpgrade. destruct (pkt_cmd p) eqn:E; simpl; rewrite ?E; done. Qed.

Lemma replaceUpgrade_exclusive p : pkt_needsExclusive (replaceUpgrade p) = pkt_needsExclusive p.
Proof. unfold replaceUpgrade, pkt_needsExclusive. destruct (pkt_cmd p) eqn:E; simpl; rewrite ?E; reflexivity. Qed.

Lemma replaceUpgrades_ok t :
  tl_ok t → tl_ok (replaceUpgrades t) ∧
  ∀ tg, tg ∈ tl_list (replaceUpgrades t) → tg_source tg ≠ FromSnoop →
    upgrade_cmd (pkt_cmd (tg_pkt tg)) = false.
Proof.
  intros Hok. unfold tl_ok, replaceUpgrades in *. destruct (tl_hasUpgrade t) eqn:E; simpl.
  - setoid_rewrite list_elem_of_fmap. split.
    + intros tg (tg0 & -> & Hin) Hs. simpl. rewrite replaceUpgrade_exclusive, replaceUpgrade_none.
      split; [by apply (Hok tg0) | done].
    + intros tg (tg0 & -> & Hin) Hs. apply replaceUpgrade_none.
  - rewrite E. split; [done|]. intros tg Hin Hs. apply not_true_is_false. intros Hup.
    by destruct (Hok tg Hin Hs) as [_ H2]; specialize (H2 Hup).
Qed.

(** Two loop bodies that agree while there is fuel. *)
Lemma foldM_fuel {A S} (f g : S → A → result S) s l :
  (∀ s a, f s a ≠ Err OutOfFuel → g s a = f s a) → foldM f s l ≠ Err OutOfFuel →
  foldM g s l = foldM f s l.
Proof.
  intros Hfg. revert s. induction l as [|a l IH]; intros s Hn; simpl in *; [done|].
  rewrite Hfg; [|intros He; apply Hn; by rewrite He].
  destruct (f s a) as [s1|]; simpl in *; [by apply IH | done].
Qed.

(** More fuel does not change a result. *)
Lemma clear_pending_mono fuel fuel' h id :
  (fuel ≤ fuel')%nat → clear_pending fuel h id ≠ Err OutOfFuel →
  clear_pending fuel' h id = clear_pending fuel h id.
Proof.
  revert fuel' h id. induction fuel as [|fuel IH]; intros [|fuel'] h id Hle Hn; [done|done|lia|].
  simpl in *. destruct (get_mshr h id) as [m|]; [|done]. simpl in *.
  destruct (assertb _); [|done]. simpl in *. destruct (put_mshr _ _ _) as [h1|]; [|done]. simpl in *.
  apply foldM_fuel; [|done]. intros h2 tg Hstep. destruct (tg_markedPending tg); [|done].
  destruct (findNextMshr _) as [id'|]; [|done]. apply IH; [lia | done].
Qed.

(** Operations that do not run out of steps. *)
Lemma bind_nofuel {A B} (m : result A) (f : A → result B) :
  m ≠ Err OutOfFuel → (∀ a, f a ≠ Err OutOfFuel) → (m ≫= f) ≠ Err OutOfFuel.
Proof. destruct m; simpl; [auto | congruence]. Qed.
Lemma at_nofuel {A} (l : list A) i : at_ l i ≠ Err OutOfFuel.
Proof. unfold at_. repeat case_match; congruence. Qed.
Lemma upd_at_nofuel {A} (l : list A) i x : upd_at l i x ≠ Err OutOfFuel.
Proof. unfold upd_at. repeat case_match; congruence. Qed.
Lemma assertb_nofuel b : assertb b ≠ Err OutOfFuel.
Proof. by destruct b. Qed.
Lemma Ok_nofuel {A} (a : A) : Ok a ≠ Err OutOfFuel.
Proof. done. Qed.
Lemma tl_clear_nofuel h ts : tl_clearDownstreamPending h ts ≠ Err OutOfFuel.
Proof. apply tl_clear_spec. Qed.
Create HintDb nofuel.
#[export] Hint Resolve at_nofuel upd_at_nofuel assertb_nofuel Ok_nofuel tl_clear_nofuel : nofuel.
Ltac nofuel :=
  repeat first
    [ apply bind_nofuel; [|intros ?]
    | case_match; try discriminate
    | progress unfold hasPostInvalidate, hasPostDowngrade, isForwardNoResponse, popTarget
    | progress eauto with nofuel ].

(** ** Properties *)

(** Clearing the downstream-pending marks terminates.  The recursion through
    the registers that forwarded a request needs no more steps than there are
    marks; it returns a store that differs from the one given only by cleared
    marks, the register it was called on among them; marking a register in
    service and handling a fill, which use it, never run out of steps either. *)
Theorem clear_pending_terminates (h : heap) (id : nat) (p : Packet) :
  clearDownstreamPending h id ≠ Err OutOfFuel ∧
  mshr_markInService h id p ≠ Err OutOfFuel ∧ handleFill h id p ≠ Err OutOfFuel ∧
  ∀ h', clearDownstreamPending h id = Ok h' →
    flags_cleared h h' ∧ (∃ m', h' !! id = Some m' ∧ ms_downstreamPending m' = false) ∧
    ∀ fuel, (pending_count h < fuel)%nat → clear_pending fuel h id = Ok h'.
Proof.
  destruct (clear_pending_spec (S (pending_count h)) h id) as [Hn Hs]; [lia|].
  split; [done|]. split; [unfold mshr_markInService; nofuel|]. split; [unfold handleFill; nofuel|].
  intros h' H'. destruct (Hs h' H') as [Hc Hm]. split; [done|]. split; [done|].
  intros fuel Hf. unfold clearDownstreamPending in H'. by rewrite <-H', (clear_pending_mono (S (pending_count h)) fuel).
Qed.

(** Requests of a register stay in order.  A request accepted by
    [allocateTarget] goes behind every request the register holds, in the
    deferred list exactly when [must_defer] says so; no request is lost, the
    exclusive and upgrade flags still cover both lists, and every other register
    changes by its downstream-pending mark at most. *)
Theorem allocateTarget_fifo (h h' : heap) (id : nat) (p : Packet) (tick when order : Z) (m : MSHR) :
  h !! id = Some m → mshr_inv m → allocateTarget h id p tick when order = Ok h' →
  ∃ m' p' mp, h' !! id = Some m' ∧ mshr_inv m' ∧
    all_targets m' = all_targets m ++ [mkTarget tick when order p' FromCPU mp] ∧
    (p' = p ∨ ms_postInvalidate m = true ∧ p' = replaceUpgrade p) ∧
    (must_defer m p = Ok true → ms_targets m' = ms_targets m) ∧
    (must_defer m p = Ok false → ms_deferredTargets m' = ms_deferredTargets m) ∧
    ∀ i, i ≠ id → unmark <$> h' !! i = unmark <$> h !! i.
Proof.
  intros Hm (Hdef & Ht & Hd) H. unfold allocateTarget in H. inv_ok. apply get_mshr_Ok in E0.
  rewrite Hm in E0. injection E0 as <-. rename a1 into d. rewrite E1. destruct d.
  - assert (ms_inService m = true) as Hs.
    { unfold must_defer in E1. by destruct (ms_inService m). }
    inv_ok. unfold hasPostInvalidate in E0. rewrite Hs in E0. simpl in E0. injection E0 as <-.
    destruct (add_target_spec _ _ _ _ _ _ _ _ _ _ m Hm H) as (m' & Hm' & Et & Ed & Es & _ & _ & _ & _ & Hother).
    eexists m', _, true. split; [done|]. split; [|split; [|split; [|split; [|done]]]].
    + unfold mshr_inv. rewrite Et, Ed, Es. split; [congruence|]. split; [done | by apply tl_push_ok].
    + unfold all_targets. rewrite Et, Ed, tl_push_list, app_assoc. done.
    + destruct (ms_postInvalidate m); auto.
    + done.
  - destruct (add_target_spec _ _ _ _ _ _ _ _ _ _ m Hm H) as (m' & Hm' & Et & Ed & Es & _ & _ & _ & _ & Hother).
    assert (tl_list (ms_deferredTargets m) = []) as Hnil.
    { unfold must_defer in E1. destruct (ms_inService m) eqn:Hs; [|by apply Hdef]. simpl in E1.
      destruct (tl_list (ms_deferredTargets m)); done. }
    eexists m', p, _. split; [done|]. split; [|split; [|split; [by left|split; [done|done]]]].
    + unfold mshr_inv. rewrite Et, Ed, Es. split; [done|]. split; [by apply tl_push_ok | done].
    + unfold all_targets. rewrite Et, Ed, Hnil, !app_nil_r. apply tl_push_list.
Qed.

Lemma must_defer_invalidate m q :
  ms_inService m = true → ms_postInvalidate m = true → must_defer m q = Ok true.
Proof.
  intros Hs Hi. unfold must_defer, hasPostInvalidate. rewrite Hs. simpl.
  destruct (negb _); [done|]. simpl. by rewrite Hi.
Qed.

Lemma must_defer_downgrade m q :
  ms_inService m = true → ms_postDowngrade m = true → pkt_needsExclusive q = true →
  must_defer m q = Ok true.
Proof.
  intros Hs Hi Hq. unfold must_defer, hasPostInvalidate, isPendingDirty, hasPostDowngrade. rewrite Hs, Hq. simpl.
  destruct (negb (bool_decide _)); [done|]. destruct (ms_postInvalidate m), (ms_pendingDirty m); simpl; try done.
  by rewrite Hi.
Qed.

(** Whether the register's own request precedes the snooped one. *)
Definition takes_snoop (m : MSHR) (p : Packet) : bool :=
  ms_inService m && negb (isExpressSnoop p && ms_downstreamPending m).

(** The replay of a taken snoop: the copy goes to the targets, the packet
    inhibits memory when the pending copy is dirty. *)
Lemma snoop_replay h id p tick order m h' p' :
  h !! id = Some m → ms_inService m = true →
  (if ms_pendingDirty m || pkt_isInvalidate p then
     h ← add_target h id false (Packet_copy p true) tick tick order FromSnoop
           (ms_downstreamPending m && tl_needsExclusive (ms_targets m));
     let p := if ms_pendingDirty m then setSupplyExclusive (assertMemInhibit p) else p in
     m ← get_mshr h id;
     h ← (if pkt_needsExclusive p then put_mshr h id (m <| ms_postInvalidate := true |>) else Ok h);
     Ok (h, p)
   else Ok (h, p)) = Ok (h', p') →
  pkt_needsExclusive p' = pkt_needsExclusive p ∧
  (ms_pendingDirty m = true → memInhibitAsserted p' = true) ∧
  ∃ m', h' !! id = Some m' ∧ ms_inService m' = true ∧
    (pkt_needsExclusive p = true → ms_pendingDirty m = true ∨ pkt_isInvalidate p = true →
     ms_postInvalidate m' = true).
Proof.
  intros Hm Hs H. destruct (ms_pendingDirty m || pkt_isInvalidate p) eqn:Ec.
  2:{ injection H as <- <-. apply orb_false_iff in Ec as [Ed Ei]. rewrite Ed, Ei.
      split; [done|]. split; [done|]. exists m. naive_solver. }
  inv_ok. cbn zeta in H. inv_ok. rename a into h1, E into Ha, E0 into Eg.
  destruct (add_target_spec _ _ _ _ _ _ _ _ _ _ m Hm Ha) as (m1 & Hm1 & _ & _ & Hs1 & _).
  apply get_mshr_Ok in Eg. rewrite Hm1 in Eg. injection Eg as <-. pose proof (lookup_lt_Some _ _ _ Hm1) as Hlt.
  assert (pkt_needsExclusive (if ms_pendingDirty m then setSupplyExclusive (assertMemInhibit p) else p)
    = pkt_needsExclusive p) as Hx by (by destruct (ms_pendingDirty m)).
  rewrite Hx in E1. split; [done|]. split.
  { intros ->. unfold memInhibitAsserted, setSupplyExclusive, assertMemInhibit, flag_set. simpl.
    rewrite flag_isSet_lor, flag_isSet_set by done; done. }
  destruct (pkt_needsExclusive p).
  - apply put_mshr_Ok in E1 as [_ ->]. eexists. rewrite list_lookup_insert_eq by done.
    split; [done|]. split; [|done]. simpl. congruence.
  - injection E1 as <-. exists m1. split; [done|]. split; [congruence | done].
Qed.

(** C18: snoops against a pending miss.  A register whose request is not yet on
    its way (not in service, or still buffered below) does not take the snoop
    and leaves the packet alone; an exclusive snoop then leaves no upgrade
    request among its targets.  A register that takes the snoop tells the
    requester: a pending dirty copy inhibits memory, a read snoop is answered as
    shared.  After an exclusive snoop of a pending dirty copy or an
    invalidation every later request waits for the next miss, after a read snoop
    every later exclusive request does. *)
Theorem handleSnoop_ordering (h h' : heap) (id : nat) (p p' : Packet) (tick order : Z) (m : MSHR) (taken : bool) :
  h !! id = Some m → mshr_inv m → handleSnoop h id p tick order = Ok (h', p', taken) →
  taken = takes_snoop m p ∧
  ∃ m', h' !! id = Some m' ∧
    (taken = false → p' = p ∧
       (pkt_needsExclusive p = true → ∀ tg, tg ∈ all_targets m' → tg_source tg ≠ FromSnoop →
          upgrade_cmd (pkt_cmd (tg_pkt tg)) = false)) ∧
    (taken = true →
       (ms_pendingDirty m = true → ms_postInvalidate m = false → memInhibitAsserted p' = true) ∧
       (pkt_needsExclusive p = true → ms_pendingDirty m = true ∨ pkt_isInvalidate p = true →
          ∀ q, must_defer m' q = Ok true) ∧
       (pkt_needsExclusive p = false → ms_postInvalidate m = false → sharedAsserted p' = true ∧
          ∀ q, pkt_needsExclusive q = true → must_defer m' q = Ok true)).
Proof.
  intros Hm (Hdef & Ht & Hd) H. unfold handleSnoop in H. rewrite (proj2 (get_mshr_Ok h id m) Hm) in H.
  cbn [mbind result_bind] in H. unfold takes_snoop. pose proof (lookup_lt_Some _ _ _ Hm) as Hlt.
  assert (ms_inService m && negb (isExpressSnoop p && ms_downstreamPending m)
    = negb (negb (ms_inService m) || (isExpressSnoop p && ms_downstreamPending m))) as -> by btauto.
  destruct (negb (ms_inService m) || _) eqn:Ec; cbn [negb].
  - destruct (pkt_needsExclusive p); inv_ok.
    + apply put_mshr_Ok in E as [_ ->]. split; [done|]. eexists. rewrite list_lookup_insert_eq by done.
      split; [done|]. split; [|done]. intros _. split; [done|]. intros _ tg Hin Hsrc.
      unfold all_targets in Hin. apply elem_of_app in Hin as [Hin|Hin]; simpl in Hin;
        [by apply (replaceUpgrades_ok _ Ht)|by apply (replaceUpgrades_ok _ Hd)].
    + split; [done|]. exists m. split; [done|]. done.
  - apply orb_false_iff in Ec as [Hs _]. apply negb_false_iff in Hs.
    set (m1 := if pkt_needsExclusive p then _ else m) in H.
    assert (ms_inService m1 = true ∧ ms_postInvalidate m1 = ms_postInvalidate m ∧
      ms_pendingDirty m1 = ms_pendingDirty m) as (Hs1 & Hi1 & Hd1).
    { unfold m1. by destruct (pkt_needsExclusive p). }
    inv_ok. apply put_mshr_Ok in E as [_ ->]. unfold hasPostInvalidate in E0. rewrite Hs1 in E0.
    simpl in E0. injection E0 as <-. rewrite <-Hi1, <-Hd1.
    assert (<[id := m1]> h !! id = Some m1) as Hm1 by (by apply list_lookup_insert_eq).
    destruct (ms_postInvalidate m1) eqn:Ei.
    { injection H as <- <- <-. split; [done|]. exists m1. split; [done|]. split; [done|].
      intros _. split; [done|]. split; [|done]. intros _ _ q. by apply must_defer_invalidate. }
    inv_ok. unfold isPendingDirty in E. rewrite Hs1 in E. simpl in E. injection E as <-.
    destruct a0 as [h2 p2].
    destruct (snoop_replay _ _ _ _ _ m1 h2 p2 Hm1 Hs1 E0) as (Hx & Hinh & m2 & Hm2 & Hs2 & Hpi).
    rewrite Hx in H. destruct (pkt_needsExclusive p); simpl in H.
    + injection H as <- <- <-. split; [done|]. exists m2. split; [done|]. split; [done|]. intros _.
      split; [naive_solver|]. split; [|done]. intros _ Hdi q. apply must_defer_invalidate; naive_solver.
    + inv_ok. apply get_mshr_Ok in E. rewrite Hm2 in E. injection E as <-. apply put_mshr_Ok in E1 as [Hl2 ->].
      split; [done|]. eexists. rewrite list_lookup_insert_eq by done. split; [done|]. split; [done|].
      intros _. split; [|split; [done|]].
      * intros Hdi _. unfold memInhibitAsserted, assertShared, flag_set. simpl. rewrite flag_isSet_lor.
        unfold memInhibitAsserted in Hinh. by rewrite Hinh.
      * intros _ _. split; [by apply flag_isSet_set|]. intros q Hq. by apply must_defer_downgrade.
Qed.

(** Deferred requests are served in order.  Promoting the deferred targets
    (when none is left to serve) and moving them up on an exclusive fill keep
    the sequence of all requests of the register; after a promotion nothing is
    deferred and the flags cover the promoted list, and the register is ready no
    earlier than its first request and the current time. *)
Theorem deferred_order (h h' : heap) (id : nat) (p : Packet) (tick : Z) (m : MSHR) (b : bool) :
  h !! id = Some m → mshr_inv m →
  (promoteDeferredTargets h id tick = Ok (h', b) →
     ∃ m', h' !! id = Some m' ∧ all_targets m' = all_targets m ∧
       (b = true ↔ all_targets m ≠ []) ∧ tl_list (ms_deferredTargets m') = [] ∧ mshr_inv m' ∧
       (b = true → tl_isReset (ms_deferredTargets m') = true ∧ tick ≤ ms_readyTime m' ∧
          ∃ tg, getTarget m' = Ok tg ∧ ms_order m' = tg_order tg ∧ tg_readyTime tg ≤ ms_readyTime m')) ∧
  (handleFill h id p = Ok h' →
     ∃ m', h' !! id = Some m' ∧ all_targets m' = all_targets m ∧
       ∀ i, i ≠ id → unmark <$> h' !! i = unmark <$> h !! i).
Proof.
  intros Hm (Hdef & Ht & Hd). split; intros H.
  - unfold promoteDeferredTargets in H. rewrite (proj2 (get_mshr_Ok h id m) Hm) in H. simpl in H.
    case_bool_decide as He; [|done]. simpl in H. unfold all_targets. rewrite He.
    destruct (tl_list (ms_deferredTargets m)) as [|front rest] eqn:Ed.
    { injection H as <- <-. exists m. rewrite He, Ed. do 2 (split; [done|]). split; [naive_solver|].
      do 2 (split; [done|]). done. }
    inv_ok. apply put_mshr_Ok in E as [Hlt ->]. eexists. rewrite list_lookup_insert_eq by done.
    split; [done|]. simpl. rewrite Ed, He, app_nil_r. do 2 (split; [done|]). split; [done|]. split.
    + split; [done|]. split; [done|]. intros tg Hin. simpl in Hin. rewrite He in Hin. by apply elem_of_nil in Hin.
    + intros _. split; [done|]. split; [lia|]. exists front. unfold getTarget. simpl. rewrite Ed.
      do 2 (split; [done|]). lia.
  - unfold handleFill in H. rewrite (proj2 (get_mshr_Ok h id m) Hm) in H. cbn [mbind result_bind] in H.
    assert (h' = h → ∃ m', h' !! id = Some m' ∧ all_targets m' = all_targets m ∧
       ∀ i, i ≠ id → unmark <$> h' !! i = unmark <$> h !! i) as Hsame by (intros ->; by exists m).
    destruct (sharedAsserted p); [by injection H as <-; auto|]. inv_ok. destruct a; [by injection H as <-; auto|].
    inv_ok. destruct a; [by injection H as <-; auto|].
    destruct (negb (tl_needsExclusive (ms_deferredTargets m))); [by injection H as <-; auto|].
    inv_ok. set (m1 := setf ms_targets _ m) in *.
    apply put_mshr_Ok in E2 as [Hlt ->]. apply tl_clear_spec in E4 as [Eu _]. apply get_mshr_Ok in E5.
    destruct (unmark_lookup (<[id := m1]> h) _ id m1 Eu) as (m2 & Hm2 & Hu); [by apply list_lookup_insert_eq|].
    rewrite E5 in Hm2. injection Hm2 as ->. destruct (unmark_fields m1 m2 Hu) as (Et2 & Ed2 & _).
    apply put_mshr_Ok in H as [Hlt2 ->]. eexists. rewrite list_lookup_insert_eq by done. split; [done|].
    split; [unfold all_targets; simpl; by rewrite Et2, Ed2, app_nil_r|].
    intros i Hi. rewrite list_lookup_insert_ne by done. rewrite <-!list_lookup_fmap, Eu, !list_lookup_fmap.
    by rewrite list_lookup_insert_ne by done.
Qed.

(** ** Instances: an upper register 0 whose request is held by register 1 *)

Definition demo_req (cmd : MemCmd) (st : list SenderState) : Packet :=
  mkPacket 0xB00 cmd (mkRequest 0x40 64 0 0 0 0 0 0) None 0 0x40 false 64 0 0
    InvalidCmd 0 0 0 0 st.
Definition demo_upper : MSHR := (MSHR_make 0) <| ms_downstreamPending := true |>.
Definition demo_lower : MSHR :=
  (MSHR_make 0) <| ms_downstreamPending := true |>
    <| ms_targets := tl_push TargetList_make (demo_req ReadReq [SSMshr 0]) 1 1 1 FromCPU true |>.
Definition demo_served : MSHR :=
  demo_lower <| ms_inService := true |> <| ms_pendingDirty := true |> <| ms_downstreamPending := false |>.

Lemma demo_served_inv : mshr_inv demo_served.
Proof.
  split; [done|]. split; [|intros tg Hin; by apply elem_of_nil in Hin].
  apply tl_push_ok. intros tg Hin. by apply elem_of_nil in Hin.
Qed.

Lemma clear_pending_terminates_witness :
  clearDownstreamPending [demo_upper; demo_lower] 1 = Ok [unmark demo_upper; unmark demo_lower] ∧
  clear_pending 9 [demo_upper; demo_lower] 1 = Ok [unmark demo_upper; unmark demo_lower].
Proof.
  assert (clearDownstreamPending [demo_upper; demo_lower] 1 = Ok [unmark demo_upper; unmark demo_lower]) as H
    by reflexivity.
  split; [done|].
  destruct (clear_pending_terminates [demo_upper; demo_lower] 1 (demo_req ReadReq [])) as (_ & _ & _ & Hc).
  apply (Hc _ H). apply (bool_decide_unpack _). reflexivity.
Defined.

Lemma allocateTarget_fifo_witness :
  ∃ h' m' p' mp, allocateTarget [demo_upper; demo_served] 1 (demo_req WriteReq []) 5 6 7 = Ok h' ∧
    h' !! 1%nat = Some m' ∧
    all_targets m' = all_targets demo_served ++ [mkTarget 5 6 7 p' FromCPU mp].
Proof.
  destruct (allocateTarget [demo_upper; demo_served] 1 (demo_req WriteReq []) 5 6 7) as [h'|] eqn:E; [|done].
  destruct (allocateTarget_fifo [demo_upper; demo_served] h' 1 _ 5 6 7 demo_served eq_refl demo_served_inv E) as (m' & p' & mp & ? & _ & ? & _).
  by exists h', m', p', mp.
Defined.

(** An exclusive snoop of the dirty register. *)
Lemma handleSnoop_ordering_witness :
  ∃ h' p' m', handleSnoop [demo_upper; demo_served] 1 (demo_req ReadExReq []) 5 7 = Ok (h', p', true) ∧
    h' !! 1%nat = Some m' ∧ memInhibitAsserted p' = true ∧ ∀ q, must_defer m' q = Ok true.
Proof.
  destruct (handleSnoop [demo_upper; demo_served] 1 (demo_req ReadExReq []) 5 7) as [[[h' p'] taken]|] eqn:E; [|done].
  destruct (handleSnoop_ordering [demo_upper; demo_served] h' 1 _ p' 5 7 demo_served taken eq_refl demo_served_inv E)
    as (-> & m' & Hm' & _ & Ht).
  destruct (Ht eq_refl) as (H1 & H2 & _). exists h', p', m'. split; [done|]. split; [done|].
  split; [by apply H1|]. intros q. apply H2; [reflexivity | by left].
Defined.

Definition demo_deferred : MSHR :=
  (MSHR_make 0) <| ms_inService := true |>
    <| ms_deferredTargets := tl_push TargetList_make (demo_req WriteReq []) 3 4 2 FromCPU true |>.

Lemma deferred_order_witness :
  ∃ h' m', promoteDeferredTargets [demo_deferred] 0 9 = Ok (h', true) ∧ h' !! 0%nat = Some m' ∧
    all_targets m' = all_targets demo_deferred ∧ tl_list (ms_deferredTargets m') = [].
Proof.
  destruct (promoteDeferredTargets [demo_deferred] 0 9) as [[h' b]|] eqn:E; [|done].
  destruct (deferred_order [demo_deferred] h' 0 (demo_req ReadResp []) 9 demo_deferred b) as [Hp _]; [done|..].
  { split; [done|]. split; [intros tg Hin; by apply elem_of_nil in Hin|].
    apply tl_push_ok. intros tg Hin. by apply elem_of_nil in Hin. }
  destruct (Hp E) as (m' & Hm' & Ha & _ & Hd & _). exists h', m'.
  split; [|done]. revert E. vm_compute. by intros [= <- <-].
Defined.
