(* ===== verification/MshrQueue.v ===== *)
(** * The queue of miss registers

    [src/pardg5-v/hyper/mem/cache/mshr_queue.cc] and [.hh]: the free, allocated
    and ready lists over the registers [mq_base .. mq_base + numEntries - 1] of
    the register store, with the counters the cache reads. *)

From S2P Require Import Prelude BaseLib Packet Mshr.
Local Open Scope Z_scope.

(** [mq_drainManager] says whether a drain manager waits; [mq_signalled] counts
    its notifications. *)
Record MSHRQueue : Type := mkQueue {
  mq_numEntries : Z;
  mq_numReserve : Z;
  mq_base : nat;
  mq_allocatedList : list nat;
  mq_readyList : list nat;
  mq_freeList : list nat;
  mq_drainManager : bool;
  mq_signalled : Z;
  mq_drainState : DrainState;
  mq_allocated : Z;
  mq_inServiceEntries : Z;
  mq_index : Z
}.
#[export] Instance eta_MSHRQueue : Eta MSHRQueue := λ q,
  mkQueue (mq_numEntries q) (mq_numReserve q) (mq_base q) (mq_allocatedList q) (mq_readyList q)
    (mq_freeList q) (mq_drainManager q) (mq_signalled q) (mq_drainState q) (mq_allocated q)
    (mq_inServiceEntries q) (mq_index q).

(** The constructor over registers [base ..]: the loop pushes each register on
    the free list. *)
Definition MSHRQueue_make (num_entries reserve index : Z) (base : nat) : MSHRQueue :=
  let n := num_entries + reserve - 1 in
  mkQueue n reserve base [] [] (seq base (Z.to_nat n)) false 0 Running 0 0 index.

(** [std::list::erase] of the position of a register; erasing a register that
    is not in the list is undefined. *)
Fixpoint list_erase (l : list nat) (id : nat) : result (list nat) :=
  match l with
  | [] => Err NullDeref
  | x :: l' => if (x =? id)%nat then Ok l' else l'' ← list_erase l' id; Ok (x :: l'')
  end.

Definition mshr_matches (m : MSHR) (guest addr : Z) (is_secure : bool) : bool :=
  (ms_guest m =? guest) && (ms_addr m =? addr) && eqb (ms_isSecure m) is_secure.

(** The loop of [findMatch] over the allocated list. *)
Fixpoint find_match (h : heap) (l : list nat) (guest addr : Z) (is_secure : bool)
  : result (option nat) :=
  match l with
  | [] => Ok None
  | id :: l' =>
      m ← get_mshr h id;
      if mshr_matches m guest addr is_secure then Ok (Some id)
      else find_match h l' guest addr is_secure
  end.
Definition findMatch (h : heap) (q : MSHRQueue) (guest addr : Z) (is_secure : bool)
  : result (option nat) := find_match h (mq_allocatedList q) guest addr is_secure.

Fixpoint find_matches (h : heap) (l : list nat) (guest addr : Z) (is_secure : bool)
  : result (list nat) :=
  match l with
  | [] => Ok []
  | id :: l' =>
      m ← get_mshr h id;
      rest ← find_matches h l' guest addr is_secure;
      Ok (if mshr_matches m guest addr is_secure then id :: rest else rest)
  end.
(** [findMatches]: the matches appended to the empty vector given. *)
Definition findMatches (h : heap) (q : MSHRQueue) (guest addr : Z) (is_secure : bool)
    (matches : list nat) : result (list nat * bool) :=
  assertb (bool_decide (matches = [])) ;;
  ms ← find_matches h (mq_allocatedList q) guest addr is_secure;
  Ok (ms, negb (bool_decide (ms = []))).

(** The overlap test and the loop of [findPending] over the ready list. *)
Definition pending_overlaps (m : MSHR) (addr size : Z) : bool :=
  if ms_addr m <? addr then addr <? wrap 64 (ms_addr m + ms_size m)
  else ms_addr m <? wrap 64 (addr + size).
Fixpoint find_pending (h : heap) (l : list nat) (guest addr size : Z) (is_secure : bool)
  : result (option nat) :=
  match l with
  | [] => Ok None
  | id :: l' =>
      m ← get_mshr h id;
      if (ms_guest m =? guest) && eqb (ms_isSecure m) is_secure && pending_overlaps m addr size
      then Ok (Some id) else find_pending h l' guest addr size is_secure
  end.
Definition findPending (h : heap) (q : MSHRQueue) (guest addr size : Z) (is_secure : bool)
  : result (option nat) := find_pending h (mq_readyList q) guest addr size is_secure.

(** The insertion loop of [addToReadyList], before the first register that is
    ready later; its end is the [assert(false)]. *)
Fixpoint insert_before (h : heap) (l : list nat) (readyTime : Z) (id : nat) : result (list nat) :=
  match l with
  | [] => Err AssertFail
  | x :: l' =>
      m ← get_mshr h x;
      if readyTime <? ms_readyTime m then Ok (id :: x :: l')
      else l'' ← insert_before h l' readyTime id; Ok (x :: l'')
  end.

Definition addToReadyList (h : heap) (q : MSHRQueue) (id : nat) : result MSHRQueue :=
  m ← get_mshr h id;
  match last (mq_readyList q) with
  | None => Ok (q <| mq_readyList := [id] |>)
  | Some b =>
      back ← get_mshr h b;
      if ms_readyTime back <=? ms_readyTime m
      then Ok (q <| mq_readyList := mq_readyList q ++ [id] |>)
      else l ← insert_before h (mq_readyList q) (ms_readyTime m) id;
           Ok (q <| mq_readyList := l |>)
  end.

(** [allocate]: the store, the queue and the register. *)
Definition mq_allocate (h : heap) (q : MSHRQueue) (guest addr size : Z) (p : Packet)
    (curTick when order : Z) : result (heap * MSHRQueue * nat) :=
  match mq_freeList q with
  | [] => Err AssertFail
  | id :: free =>
      m ← get_mshr h id;
      assertb (getNumTargets m =? 0) ;;
      let q := q <| mq_freeList := free |> in
      h ← mshr_allocate h id guest addr size p curTick when order;
      let q := q <| mq_allocatedList := mq_allocatedList q ++ [id] |> in
      q ← addToReadyList h q id;
      Ok (h, q <| mq_allocated := mq_allocated q + 1 |>, id)
  end.

(** The part of [deallocateOne] that drops the register from the in-service
    count or from the ready list, and the part that ends a drain. *)
Definition leave_service (q : MSHRQueue) (m : MSHR) (id : nat) : result MSHRQueue :=
  if ms_inService m then Ok (q <| mq_inServiceEntries := mq_inServiceEntries q - 1 |>)
  else ready ← list_erase (mq_readyList q) id; Ok (q <| mq_readyList := ready |>).
Definition check_drained (q : MSHRQueue) : MSHRQueue :=
  if mq_drainManager q && (mq_allocated q =? 0)
  then q <| mq_signalled := mq_signalled q + 1 |> <| mq_drainManager := false |>
         <| mq_drainState := Drained |>
  else q.

Definition deallocateOne (h : heap) (q : MSHRQueue) (id : nat) : result (heap * MSHRQueue) :=
  alloc ← list_erase (mq_allocatedList q) id;
  let q := q <| mq_allocatedList := alloc |> <| mq_freeList := id :: mq_freeList q |>
             <| mq_allocated := mq_allocated q - 1 |> in
  m ← get_mshr h id;
  q ← leave_service q m id;
  h ← mshr_deallocate h id;
  Ok (h, check_drained q).
Definition mq_deallocate : heap → MSHRQueue → nat → result (heap * MSHRQueue) := deallocateOne.

(** [moveToFront]; [*(mshr->readyIter)] is the register itself when it is on the
    ready list. *)
Definition moveToFront (h : heap) (q : MSHRQueue) (id : nat) : result MSHRQueue :=
  m ← get_mshr h id;
  if negb (ms_inService m) then
    ready ← list_erase (mq_readyList q) id;
    Ok (q <| mq_readyList := id :: ready |>)
  else Ok q.

Definition mq_markInService (h : heap) (q : MSHRQueue) (id : nat) (p : Packet)
  : result (heap * MSHRQueue) :=
  '(h, gone) ← mshr_markInService h id p;
  if gone : bool then mq_deallocate h q id
  else
    ready ← list_erase (mq_readyList q) id;
    Ok (h, q <| mq_readyList := ready |> <| mq_inServiceEntries := mq_inServiceEntries q + 1 |>).

Definition markPending (h : heap) (q : MSHRQueue) (id : nat) : result (heap * MSHRQueue) :=
  m ← get_mshr h id;
  assertb (ms_inService m) ;;
  h ← put_mshr h id (m <| ms_inService := false |>);
  let q := q <| mq_inServiceEntries := mq_inServiceEntries q - 1 |> in
  q ← addToReadyList h q id;
  Ok (h, q).

(** The body of the loop of [squash] on one register; only that register can
    leave the allocated list. *)
Definition squash_one (threadNum : Z) (st : heap * MSHRQueue) (id : nat) : result (heap * MSHRQueue) :=
  let '(h, q) := st in
  m ← get_mshr h id;
  if ms_threadNum m =? threadNum then
    assertb (negb (hasTargets m) || (0 =? threadNum)) ;;
    let m := m <| ms_targets := (ms_targets m) <| tl_list := [] |> |> in
    h ← put_mshr h id m;
    assertb (getNumTargets m =? 0) ;;
    if negb (ms_inService m) then deallocateOne h q id else Ok (h, q)
  else Ok (h, q).
Definition squash (h : heap) (q : MSHRQueue) (threadNum : Z) : result (heap * MSHRQueue) :=
  foldM (squash_one threadNum) (h, q) (mq_allocatedList q).

Definition havePending (q : MSHRQueue) : bool := negb (bool_decide (mq_readyList q = [])).
Definition isFull (q : MSHRQueue) : bool := mq_numEntries q - mq_numReserve q <? mq_allocated q.

Definition getNextMSHR (h : heap) (q : MSHRQueue) (curTick : Z) : result (option nat) :=
  match mq_readyList q with
  | [] => Ok None
  | id :: _ =>
      m ← get_mshr h id;
      Ok (if curTick <? ms_readyTime m then None else Some id)
  end.

Definition nextMSHRReadyTime (h : heap) (q : MSHRQueue) : result Z :=
  match mq_readyList q with
  | [] => Ok MaxTick
  | id :: _ => m ← get_mshr h id; Ok (ms_readyTime m)
  end.

Definition mq_drain (q : MSHRQueue) : MSHRQueue * Z :=
  if mq_allocated q =? 0 then (q <| mq_drainState := Drained |>, 0)
  else (q <| mq_drainManager := true |> <| mq_drainState := Draining |>, 1).

(** ** Invariant *)

(** A register on the free list. *)
Definition idle (m : MSHR) : Prop :=
  all_targets m = [] ∧ tl_isReset (ms_targets m) = true ∧ tl_isReset (ms_deferredTargets m) = true ∧
  ms_inService m = false.

(** Whether a register waits to be sent. *)
Definition waiting (h : heap) (id : nat) : Prop :=
  ∃ m, h !! id = Some m ∧ ms_inService m = false.
#[export] Instance waiting_dec h id : Decision (waiting h id).
Proof.
  unfold waiting. destruct (h !! id) as [m|].
  - destruct (ms_inService m) eqn:E; [right | left; eauto]. intros (m' & [= <-] & H). congruence.
  - right. naive_solver.
Defined.

Record queue_wf (h : heap) (q : MSHRQueue) : Prop := {
  qw_reserve : 1 ≤ mq_numReserve q;
  qw_store : (mq_base q + Z.to_nat (mq_numEntries q) ≤ length h)%nat;
  qw_entries : 0 ≤ mq_numEntries q;
  qw_lists : mq_freeList q ++ mq_allocatedList q ≡ₚ seq (mq_base q) (Z.to_nat (mq_numEntries q));
  qw_free : ∀ id m, id ∈ mq_freeList q → h !! id = Some m → idle m;
  qw_ready : mq_readyList q ≡ₚ filter (waiting h) (mq_allocatedList q);
  qw_allocated : mq_allocated q = Z.of_nat (length (mq_allocatedList q));
  qw_service : mq_inServiceEntries q =
    Z.of_nat (length (mq_allocatedList q)) - Z.of_nat (length (mq_readyList q))
}.

Lemma qw_NoDup h q : queue_wf h q → NoDup (mq_freeList q ++ mq_allocatedList q).
Proof. intros W. rewrite (qw_lists _ _ W). apply NoDup_seq. Qed.

Lemma qw_lookup h q id :
  queue_wf h q → id ∈ mq_freeList q ++ mq_allocatedList q → ∃ m, h !! id = Some m.
Proof.
  intros W Hin. rewrite (qw_lists _ _ W), elem_of_seq in Hin. apply lookup_lt_is_Some_2.
  pose proof (qw_store _ _ W). lia.
Qed.

Lemma qw_ready_alloc h q id : queue_wf h q → id ∈ mq_readyList q → id ∈ mq_allocatedList q ∧ waiting h id.
Proof. intros W Hin. rewrite (qw_ready _ _ W), list_elem_of_filter in Hin. naive_solver. Qed.

(** Registers that agree up to the downstream flag look the same to the queue. *)
Lemma unmark_idle m m' : unmark m' = unmark m → idle m → idle m'.
Proof.
  intros Hu. destruct (unmark_fields m m' Hu) as (Ht & Hd & Hs & _).
  unfold idle, all_targets. by rewrite Ht, Hd, Hs.
Qed.

Lemma unmark_lookup_at (h h' : heap) id m :
  unmark <$> h' !! id = unmark <$> h !! id → h' !! id = Some m →
  ∃ m0, h !! id = Some m0 ∧ unmark m = unmark m0.
Proof.
  intros He Hm. rewrite Hm in He. destruct (h !! id) as [m0|]; [|done]. exists m0.
  split; [done|]. by apply (inj Some) in He.
Qed.

Lemma unmark_waiting (h h' : heap) id :
  unmark <$> h' !! id = unmark <$> h !! id → waiting h' id ↔ waiting h id.
Proof.
  intros He. split; intros (m & Hm & Hs).
  - destruct (unmark_lookup_at h h' id m He Hm) as (m0 & H0 & Hu). exists m0. split; [done|].
    destruct (unmark_fields m0 m Hu) as (_ & _ & Hs' & _). congruence.
  - symmetry in He. destruct (unmark_lookup_at h' h id m He Hm) as (m0 & H0 & Hu). exists m0. split; [done|].
    destruct (unmark_fields m0 m Hu) as (_ & _ & Hs' & _). congruence.
Qed.

(** The queue only sees its own registers. *)
Lemma waiting_filter_ext (h h' : heap) (l : list nat) :
  (∀ id, id ∈ l → waiting h' id ↔ waiting h id) → filter (waiting h') l = filter (waiting h) l.
Proof.
  intros He. induction l as [|x l IH]; [done|]. rewrite !filter_cons, IH by set_solver.
  pose proof (He x ltac:(left)). by repeat case_decide; naive_solver.
Qed.

(** ** Lists *)

Lemma list_erase_spec l id : id ∈ l → ∃ l', list_erase l id = Ok l' ∧ l ≡ₚ id :: l'.
Proof.
  induction l as [|x l IH]; intros Hin; [by apply elem_of_nil in Hin|]. simpl.
  destruct (Nat.eqb_spec x id) as [->|Hne]; [by exists l|].
  apply elem_of_cons in Hin as [->|Hin]; [done|]. destruct (IH Hin) as (l' & -> & Hp). simpl.
  exists (x :: l'). split; [done|]. rewrite Hp. apply Permutation_swap.
Qed.

Lemma list_erase_absent l id : id ∉ l → list_erase l id = Err NullDeref.
Proof.
  induction l as [|x l IH]; intros Hn; [done|]. apply not_elem_of_cons in Hn as [Hx Hn]. simpl.
  destruct (Nat.eqb_spec x id) as [->|Hne]; [done|]. by rewrite IH.
Qed.

Lemma insert_before_spec h l rt id :
  (∀ x, x ∈ l → ∃ m, h !! x = Some m) → (∃ x m, x ∈ l ∧ h !! x = Some m ∧ rt < ms_readyTime m) →
  ∃ l', insert_before h l rt id = Ok l' ∧ l' ≡ₚ id :: l.
Proof.
  induction l as [|x l IH]; intros Hall (y & my & Hy & Hmy & Hlt); [by apply elem_of_nil in Hy|].
  destruct (Hall x ltac:(left)) as [m Hm]. simpl. rewrite (proj2 (get_mshr_Ok h x m) Hm). simpl.
  destruct (Z.ltb_spec rt (ms_readyTime m)); [by eexists|].
  apply elem_of_cons in Hy as [->|Hy]; [rewrite Hm in Hmy; injection Hmy as <-; lia|].
  destruct IH as (l' & -> & Hp); [set_solver | by exists y, my |]. simpl. eexists. split; [done|].
  rewrite Hp. apply Permutation_swap.
Qed.

(** [addToReadyList] always finds a place: the last register is ready later
    whenever the loop is entered. *)
Lemma addToReadyList_spec h q id m :
  (∀ x, x ∈ mq_readyList q → ∃ m, h !! x = Some m) → h !! id = Some m →
  ∃ l, addToReadyList h q id = Ok (q <| mq_readyList := l |>) ∧ l ≡ₚ id :: mq_readyList q.
Proof.
  intros Hall Hm. unfold addToReadyList. rewrite (proj2 (get_mshr_Ok h id m) Hm). simpl.
  destruct (last (mq_readyList q)) as [b|] eqn:El.
  - apply last_Some in El as [l0 El]. destruct (Hall b) as [mb Hmb]; [rewrite El; set_solver|].
    rewrite (proj2 (get_mshr_Ok h b mb) Hmb). simpl. destruct (Z.leb_spec (ms_readyTime mb) (ms_readyTime m)).
    + eexists. split; [done|]. by rewrite Permutation_app_comm.
    + destruct (insert_before_spec h (mq_readyList q) (ms_readyTime m) id) as (l' & -> & Hp); [done|..].
      { exists b, mb. split; [rewrite El; set_solver | done]. }
      simpl. by exists l'.
  - apply last_None in El. rewrite El. by exists [id].
Qed.

(** ** The register operations as the queue uses them *)

(** The register above, if the packet has one, is not marked yet. *)
Definition upstream_unmarked (h : heap) (p : Packet) : Prop :=
  ∀ u, findNextMshr (pkt_senderState p) = Some u →
    ∃ mu, h !! u = Some mu ∧ ms_downstreamPending mu = false.

Lemma add_target_ok h id d p tick rt ord src mp m :
  h !! id = Some m → (mp = true → upstream_unmarked h p) →
  ∃ h', add_target h id d p tick rt ord src mp = Ok h'.
Proof.
  intros Hm Hup. unfold add_target.
  assert (∃ h1 m1, mark_upstream h p mp = Ok h1 ∧ h1 !! id = Some m1) as (h1 & m1 & Hmark & Hm1).
  { unfold mark_upstream. destruct mp; [|eauto]. destruct (findNextMshr _) as [u|] eqn:E; [|eauto].
    destruct (Hup eq_refl u E) as (mu & Hmu & Hf). rewrite (proj2 (get_mshr_Ok h u mu) Hmu). simpl.
    rewrite Hf. simpl. pose proof (lookup_lt_Some _ _ _ Hmu).
    destruct (decide (u = id)) as [->|Hne]; (do 2 eexists); (split; [by apply put_mshr_Ok|]).
    - by apply list_lookup_insert_eq.
    - rewrite list_lookup_insert_ne by done. exact Hm. }
  rewrite Hmark. simpl. rewrite (proj2 (get_mshr_Ok h1 id m1) Hm1). simpl.
  pose proof (lookup_lt_Some _ _ _ Hm1). eexists. by apply put_mshr_Ok.
Qed.

(** Adding a target keeps the identity of the register. *)
Lemma add_target_ident h id d p tick rt ord src mp h' m :
  h !! id = Some m → add_target h id d p tick rt ord src mp = Ok h' →
  ∃ m', h' !! id = Some m' ∧ ms_guest m' = ms_guest m ∧ ms_addr m' = ms_addr m ∧
    ms_isSecure m' = ms_isSecure m ∧ ms_readyTime m' = ms_readyTime m.
Proof.
  intros Hm H. unfold add_target in H. inv_ok. apply mark_upstream_spec in E. apply get_mshr_Ok in E0.
  apply put_mshr_Ok in H as [Hlt ->]. destruct (unmark_lookup h a id m E Hm) as (m1 & Hm1 & Hu).
  rewrite E0 in Hm1. injection Hm1 as ->. eexists. rewrite list_lookup_insert_eq by done. split; [done|].
  destruct m1, m. unfold unmark in Hu. simpl in Hu. injection Hu as -> -> -> -> -> -> -> -> -> -> -> -> -> -> ->.
  by destruct d.
Qed.

Lemma mshr_allocate_spec h id guest addr size p tick when order m :
  h !! id = Some m → idle m → pkt_wf p → upstream_unmarked h p →
  ∃ h' m', mshr_allocate h id guest addr size p tick when order = Ok h' ∧ h' !! id = Some m' ∧
    ms_inService m' = false ∧ ms_guest m' = guest ∧ ms_addr m' = addr ∧ ms_isSecure m' = pkt_isSecure p ∧
    ms_readyTime m' = when ∧ tg_pkt <$> all_targets m' = [p] ∧ mshr_inv m' ∧
    ∀ i, i ≠ id → unmark <$> h' !! i = unmark <$> h !! i.
Proof.
  intros Hm (Ha & Hr & Hd & Hs) Hp Hup. apply app_eq_nil in Ha as [Hat Had].
  unfold mshr_allocate. rewrite isSecure_wf by done. cbn [mbind result_bind].
  rewrite (proj2 (get_mshr_Ok h id m) Hm). cbn [mbind result_bind]. cbn zeta.
  set (m1 := setf ms_threadNum _ _). change (ms_targets m1) with (ms_targets m). rewrite Hr.
  cbn [assertb mbind result_bind]. pose proof (lookup_lt_Some _ _ _ Hm) as Hlt.
  rewrite (proj2 (put_mshr_Ok h id m1 (<[id := m1]> h))) by done. cbn [mbind result_bind].
  assert (<[id := m1]> h !! id = Some m1) as Hm1 by (by apply list_lookup_insert_eq).
  set (src := if bool_decide _ then FromPrefetcher else FromCPU).
  destruct (add_target_ok (<[id := m1]> h) id false p tick when order src true m1 Hm1) as [h2 Hadd].
  { intros _ u Hu. destruct (Hup u Hu) as (mu & Hmu & Hf). destruct (decide (u = id)) as [->|Hne].
    - exists m1. done.
    - exists mu. by rewrite list_lookup_insert_ne. }
  rewrite Hadd. cbn [mbind result_bind].
  destruct (add_target_spec _ _ _ _ _ _ _ _ _ _ m1 Hm1 Hadd) as (m2 & Hm2 & Ht2 & Hd2 & Hs2 & _ & _ & _ & _ & Hother).
  destruct (add_target_ident _ _ _ _ _ _ _ _ _ _ m1 Hm1 Hadd) as (m2' & Hm2' & Hg & Haddr & Hsec & Hrt).
  rewrite Hm2 in Hm2'. injection Hm2' as <-. rewrite (proj2 (get_mshr_Ok h2 id m2) Hm2). cbn [mbind result_bind].
  rewrite Hd2. change (ms_deferredTargets m1) with (ms_deferredTargets m) in *. rewrite Hd. cbn [assertb mbind result_bind].
  exists h2, m2. do 7 (split; [done|]). split; [|split].
  - unfold all_targets. rewrite Ht2, Hd2, Had, tl_push_list. change (ms_targets m1) with (ms_targets m).
    by rewrite Hat.
  - unfold mshr_inv. rewrite Ht2, Hd2, Had. split; [done|]. split.
    + apply tl_push_ok. intros tg Hin. change (ms_targets m1) with (ms_targets m) in Hin. rewrite Hat in Hin.
      by apply elem_of_nil in Hin.
    + intros tg Hin. rewrite Had in Hin. by apply elem_of_nil in Hin.
  - intros i Hi. rewrite Hother by done. by rewrite list_lookup_insert_ne.
Qed.

(** ** Every queue operation keeps the invariant *)

(** The registers of the queue other than [id] are as they were. *)
Definition others_same (h h' : heap) (id : nat) : Prop :=
  length h' = length h ∧ ∀ i, i ≠ id → unmark <$> h' !! i = unmark <$> h !! i.

Lemma others_free h h' q (free : list nat) id :
  queue_wf h q → others_same h h' id →
  (∀ i, i ∈ free → i ≠ id ∧ i ∈ mq_freeList q) →
  ∀ i m, i ∈ free → h' !! i = Some m → idle m.
Proof.
  intros W [_ Ho] Hf i m Hi Hm. destruct (Hf i Hi) as [Hne Hi'].
  destruct (unmark_lookup_at h h' i m (Ho i Hne) Hm) as (m0 & H0 & Hu).
  eapply unmark_idle; [done|]. by apply (qw_free _ _ W i).
Qed.

Lemma others_ready h h' (l : list nat) id :
  others_same h h' id → id ∉ l → filter (waiting h') l = filter (waiting h) l.
Proof.
  intros [_ Ho] Hn. apply waiting_filter_ext. intros i Hi. apply unmark_waiting, Ho. by intros ->.
Qed.

Lemma isFull_free h q : queue_wf h q → isFull q = false → ∃ id free, mq_freeList q = id :: free.
Proof.
  intros W Hf. unfold isFull in Hf. apply Z.ltb_ge in Hf.
  pose proof (Permutation_length (qw_lists _ _ W)) as Hl. rewrite length_app, length_seq in Hl.
  pose proof (qw_allocated _ _ W). pose proof (qw_reserve _ _ W). pose proof (qw_entries _ _ W).
  destruct (mq_freeList q); [simpl in *; lia | eauto].
Qed.

Lemma others_same_length h h' id m m' :
  h !! id = Some m → h' !! id = Some m' → (∀ i, i ≠ id → unmark <$> h' !! i = unmark <$> h !! i) →
  others_same h h' id.
Proof.
  intros Hm Hm' Ho. split; [|done].
  assert (∀ i, is_Some (h' !! i) ↔ is_Some (h !! i)) as Hi.
  { intros i. destruct (decide (i = id)) as [->|Hne]; [rewrite Hm, Hm'; split; eauto|].
    rewrite <-(fmap_is_Some unmark (h' !! i)), <-(fmap_is_Some unmark (h !! i)). by rewrite Ho. }
  setoid_rewrite lookup_lt_is_Some in Hi.
  pose proof (proj1 (Hi (length h))). pose proof (proj2 (Hi (length h'))).
  pose proof (proj1 (Hi (pred (length h')))). pose proof (proj2 (Hi (pred (length h)))). lia.
Qed.

Lemma mq_allocate_spec h q guest addr size p tick when order :
  queue_wf h q → isFull q = false → pkt_wf p → upstream_unmarked h p →
  ∃ h' q' id m', mq_allocate h q guest addr size p tick when order = Ok (h', q', id) ∧
    queue_wf h' q' ∧ id ∈ mq_freeList q ∧ mq_allocatedList q' = mq_allocatedList q ++ [id] ∧
    mq_allocated q' = mq_allocated q + 1 ∧ others_same h h' id ∧
    h' !! id = Some m' ∧ mshr_matches m' guest addr (pkt_isSecure p) = true ∧
    tg_pkt <$> all_targets m' = [p] ∧ mshr_inv m'.
Proof.
  intros W Hf Hp Hup. destruct (isFull_free h q W Hf) as (id & free & Hfree).
  pose proof (qw_NoDup _ _ W) as Hnd. rewrite Hfree in Hnd. simpl in Hnd. apply NoDup_cons in Hnd as [Hid Hnd].
  destruct (qw_lookup h q id W) as [m Hm]; [rewrite Hfree; set_solver|].
  assert (idle m) as Hidle by (apply (qw_free _ _ W id); [rewrite Hfree; left | done]).
  unfold mq_allocate. rewrite Hfree, (proj2 (get_mshr_Ok h id m) Hm). cbn [mbind result_bind].
  assert (getNumTargets m = 0) as ->.
  { destruct Hidle as [[H1 H2]%app_eq_nil _]. unfold getNumTargets. by rewrite H1, H2. }
  cbn [assertb mbind result_bind Z.eqb]. cbn zeta.
  destruct (mshr_allocate_spec h id guest addr size p tick when order m)
    as (h' & m' & -> & Hm' & Hs & Hg & Ha & Hsec & _ & Ht & Hinv & Ho); [done..|].
  cbn [mbind result_bind]. pose proof (others_same_length h h' id m m' Hm Hm' Ho) as Hsame.
  set (q1 := setf mq_allocatedList _ _).
  destruct (addToReadyList_spec h' q1 id m') as (l & -> & Hl); [|done|].
  { intros x Hx. change (mq_readyList q1) with (mq_readyList q) in Hx.
    destruct (qw_ready_alloc h q x W Hx) as [Hxa _]. destruct (qw_lookup h q x W) as [mx Hmx]; [set_solver|].
    apply lookup_lt_is_Some_2. destruct Hsame as [-> _]. by apply lookup_lt_Some in Hmx. }
  cbn [mbind result_bind]. eexists h', _, id, m'. split; [done|].
  split; [|split; [left|split; [done|split; [done|split; [done|split; [done|]]]]]].
  2:{ split; [|done]. unfold mshr_matches. rewrite Hg, Ha, Hsec, !Z.eqb_refl. apply eqb_reflx. }
  split; simpl; try apply W.
  - destruct Hsame as [-> _]. apply W.
  - rewrite <-(qw_lists _ _ W), Hfree. rewrite Permutation_app_comm, <-app_assoc. simpl.
    rewrite <-Permutation_middle. by rewrite (Permutation_app_comm (mq_allocatedList q)).
  - apply (others_free h h' q free id W Hsame). intros i Hi. rewrite Hfree. split; [|by right].
    intros ->. set_solver.
  - rewrite Hl. change (mq_readyList q1) with (mq_readyList q). rewrite (qw_ready _ _ W), filter_app.
    rewrite (others_ready h h' (mq_allocatedList q) id) by (done || set_solver). rewrite filter_cons_True by (by exists m').
    change (filter (waiting h') []) with (@nil nat). by rewrite Permutation_app_comm.
  - rewrite length_app, (qw_allocated _ _ W). simpl. lia.
  - rewrite length_app, (qw_service _ _ W), (Permutation_length Hl). simpl. lia.
Qed.

Lemma ready_after_erase h q id alloc ready :
  queue_wf h q → mq_allocatedList q ≡ₚ id :: alloc → waiting h id →
  mq_readyList q ≡ₚ id :: ready → ready ≡ₚ filter (waiting h) alloc.
Proof.
  intros W Ha Hw Hr. apply (Permutation_cons_inv (a := id)). rewrite <-Hr, (qw_ready _ _ W), Ha.
  by rewrite filter_cons_True.
Qed.

(** What [leave_service] does to the ready list and the count. *)
Lemma leave_service_spec h q q1 id m alloc :
  queue_wf h q → h !! id = Some m → id ∈ mq_allocatedList q → mq_allocatedList q ≡ₚ id :: alloc →
  mq_readyList q1 = mq_readyList q → mq_inServiceEntries q1 = mq_inServiceEntries q →
  ∃ ready svc, leave_service q1 m id = Ok (q1 <| mq_readyList := ready |> <| mq_inServiceEntries := svc |>) ∧
    ready ≡ₚ filter (waiting h) alloc ∧ svc = Z.of_nat (length alloc) - Z.of_nat (length ready).
Proof.
  intros W Hm Hin Hp Er Es. pose proof (qw_service _ _ W) as Hs. rewrite (Permutation_length Hp) in Hs.
  simpl in Hs. unfold leave_service. rewrite Er, Es. destruct (ms_inService m) eqn:Ei.
  - exists (mq_readyList q1), (mq_inServiceEntries q - 1). split; [by destruct q1|].
    rewrite Er, (qw_ready _ _ W), Hp, filter_cons_False by (intros (m0 & ? & ?); congruence).
    split; [done|]. rewrite (Permutation_length (qw_ready _ _ W)), Hp in Hs.
    rewrite filter_cons_False in Hs by (intros (m0 & ? & ?); congruence). lia.
  - assert (waiting h id) as Hw by (by exists m).
    destruct (list_erase_spec (mq_readyList q) id) as (ready & -> & Hrp).
    { rewrite (qw_ready _ _ W), list_elem_of_filter. done. }
    exists ready, (mq_inServiceEntries q). split; [destruct q1; simpl in *; by subst|].
    split; [by eapply ready_after_erase|]. rewrite (Permutation_length Hrp) in Hs. simpl in Hs. lia.
Qed.

Lemma mshr_deallocate_spec h id m :
  h !! id = Some m → all_targets m = [] → tl_isReset (ms_deferredTargets m) = true →
  ∃ m', mshr_deallocate h id = Ok (<[id := m']> h) ∧ idle m'.
Proof.
  intros Hm [Ht Hd]%app_eq_nil Hres. unfold mshr_deallocate.
  rewrite (proj2 (get_mshr_Ok h id m) Hm). cbn [mbind result_bind]. rewrite Ht.
  exists (m <| ms_targets := resetFlags (ms_targets m) |> <| ms_inService := false |>).
  simpl. rewrite Hres. simpl. split.
  - apply put_mshr_Ok. split; [by eapply lookup_lt_Some | done].
  - split; [unfold all_targets; simpl; by rewrite Ht, Hd|]. by split.
Qed.

Lemma check_drained_wf h q : queue_wf h q → queue_wf h (check_drained q).
Proof. intros []. unfold check_drained. destruct (_ && _); split; done. Qed.

Lemma insert_others (h : heap) id m : others_same h (<[id := m]> h) id.
Proof. split; [apply length_insert|]. intros i Hi. by rewrite list_lookup_insert_ne. Qed.

Lemma deallocateOne_spec h q id m :
  queue_wf h q → id ∈ mq_allocatedList q → h !! id = Some m →
  all_targets m = [] → tl_isReset (ms_deferredTargets m) = true →
  ∃ h' q', deallocateOne h q id = Ok (h', q') ∧ queue_wf h' q' ∧ others_same h h' id ∧
    mq_freeList q' = id :: mq_freeList q ∧ mq_allocatedList q ≡ₚ id :: mq_allocatedList q'.
Proof.
  intros W Hin Hm Hall Hres. pose proof (qw_NoDup _ _ W) as Hnd.
  destruct (list_erase_spec _ _ Hin) as (alloc & Ea & Hp).
  assert (id ∉ mq_freeList q ∧ id ∉ alloc) as [Hnf Hna].
  { rewrite Hp in Hnd. apply NoDup_app in Hnd as (_ & Hdis & [Hx _]%NoDup_cons). split; [|done].
    intros Hf. apply (Hdis id Hf). left. }
  unfold deallocateOne. rewrite Ea. cbn [mbind result_bind]. rewrite (proj2 (get_mshr_Ok h id m) Hm).
  cbn [mbind result_bind]. cbn zeta. set (q1 := setf mq_allocated _ _).
  destruct (leave_service_spec h q q1 id m alloc) as (ready & svc & -> & Hr & Hsv); [done..|].
  cbn [mbind result_bind]. destruct (mshr_deallocate_spec h id m) as (m' & -> & Hidle); [done..|].
  cbn [mbind result_bind]. pose proof (insert_others h id m') as Hsame.
  eexists _, _. split; [done|]. split; [|split; [done|]].
  2:{ unfold check_drained. destruct (_ && _); done. }
  apply check_drained_wf. split; simpl; try apply W.
  - destruct Hsame as [-> _]. apply W.
  - rewrite <-(qw_lists _ _ W), Hp. by rewrite <-Permutation_middle.
  - intros i mi [->|Hi]%elem_of_cons Hmi.
    + rewrite list_lookup_insert_eq in Hmi by (by eapply lookup_lt_Some). by injection Hmi as <-.
    + eapply (others_free h _ q (mq_freeList q) id W Hsame); [|done..]. intros j Hj. split; [|done]. by intros ->.
  - by rewrite Hr, (others_ready h _ alloc id Hsame Hna).
  - rewrite (qw_allocated _ _ W), (Permutation_length Hp). simpl. lia.
  - done.
Qed.

(** A register without deferred targets, as it is while it waits. *)
Definition no_deferred (m : MSHR) : Prop :=
  tl_list (ms_deferredTargets m) = [] ∧ tl_isReset (ms_deferredTargets m) = true.

Lemma mshr_markInService_inv h id p h1 gone m :
  h !! id = Some m → no_deferred m → mshr_markInService h id p = Ok (h1, gone) →
  ms_inService m = false ∧ others_same h h1 id ∧ ∃ m1, h1 !! id = Some m1 ∧
    if gone then ms_inService m1 = false ∧ all_targets m1 = [] ∧ tl_isReset (ms_deferredTargets m1) = true
    else ms_inService m1 = true ∧ all_targets m1 = all_targets m.
Proof.
  intros Hm [Hd Hres] H. unfold mshr_markInService in H.
  rewrite (proj2 (get_mshr_Ok h id m) Hm) in H. cbn [mbind result_bind] in H. inv_ok.
  apply negb_true_iff in E. split; [done|]. pose proof (lookup_lt_Some _ _ _ Hm) as Hlt. destruct a0.
  - inv_ok. unfold popTarget in E2. destruct (tl_list (ms_targets m)) as [|t ts] eqn:Et; [done|].
    injection E2 as <-. apply put_mshr_Ok in E3 as [_ ->]. split; [apply insert_others|].
    eexists. rewrite list_lookup_insert_eq by done. split; [done|]. simpl. split; [done|]. split; [|done].
    unfold getNumTargets in E1. rewrite Et, Hd in E1. apply Z.eqb_eq in E1. destruct ts; [|simpl in E1; lia].
    unfold all_targets. simpl. by rewrite Hd.
  - cbn zeta in H. set (m1 := setf ms_postDowngrade _ _) in H. inv_ok. apply put_mshr_Ok in E1 as [_ ->].
    assert (unmark <$> h1 = unmark <$> <[id := m1]> h) as Hu.
    { destruct (negb (ms_downstreamPending m1)); [|by injection E2 as <-]. by apply tl_clear_spec in E2 as [? _]. }
    destruct (unmark_lookup (<[id := m1]> h) h1 id m1 Hu) as (m2 & Hm2 & Hum); [by apply list_lookup_insert_eq|].
    destruct (unmark_fields m1 m2 Hum) as (Ht & Hd2 & Hs & _). split.
    + split.
      * apply (f_equal length) in Hu. by rewrite !length_fmap, length_insert in Hu.
      * intros i Hi. rewrite <-!list_lookup_fmap, Hu, !list_lookup_fmap. by rewrite list_lookup_insert_ne.
    + exists m2. split; [done|]. split; [by rewrite Hs|]. unfold all_targets. by rewrite Ht, Hd2.
Qed.

Lemma mq_markInService_wf h q id p h' q' m :
  queue_wf h q → id ∈ mq_allocatedList q → h !! id = Some m → no_deferred m →
  mq_markInService h q id p = Ok (h', q') →
  queue_wf h' q' ∧ others_same h h' id ∧
  (id ∈ mq_freeList q' ∨ id ∈ mq_allocatedList q' ∧ ¬ waiting h' id).
Proof.
  intros W Hin Hm Hd H. unfold mq_markInService in H. apply bind_Ok_inv in H as ([h1 gone] & E & H).
  destruct (mshr_markInService_inv h id p h1 gone m Hm Hd E) as (Hs & Hsame & m1 & Hm1 & Hg).
  pose proof (qw_NoDup _ _ W) as Hnd. apply NoDup_app in Hnd as (_ & Hdis & Hnda).
  assert (id ∉ mq_freeList q) as Hnf by (intros Hf; by apply (Hdis id Hf)).
  assert (∀ i m0, i ∈ mq_freeList q → h1 !! i = Some m0 → idle m0) as Hfree.
  { apply (others_free h h1 q _ id W Hsame). intros i Hi. split; [by intros ->|done]. }
  destruct gone.
  - destruct Hg as (Hs1 & Ha1 & Hr1).
    assert (queue_wf h1 q) as W1.
    { split; try apply W; [destruct Hsame as [-> _]; apply W|done|].
      rewrite (qw_ready _ _ W). rewrite (waiting_filter_ext h h1); [done|]. intros i _.
      destruct (decide (i = id)) as [->|Hne]; [|by apply unmark_waiting, Hsame].
      split; intros _; [by exists m | by exists m1]. }
    destruct (deallocateOne_spec h1 q id m1) as (h2 & q2 & Hde & W2 & [Hl2 Ho2] & Hf2 & _); [done..|].
    unfold mq_deallocate in H. rewrite H in Hde. injection Hde as <- <-. split; [done|]. split.
    + split; [destruct Hsame; lia|]. intros i Hi. rewrite (Ho2 i Hi). by apply Hsame.
    + left. rewrite Hf2. left.
  - destruct Hg as (Hs1 & _).
    assert (waiting h id) as Hw by (by exists m).
    destruct (list_erase_spec (mq_readyList q) id) as (ready & Er & Hrp).
    { rewrite (qw_ready _ _ W), list_elem_of_filter. done. }
    rewrite Er in H. simpl in H. injection H as <- <-.
    assert (¬ waiting h1 id) as Hnw by (intros (m0 & ? & ?); congruence).
    split; [|split; [done|by right]].
    destruct (list_elem_of_split _ _ Hin) as (l1 & l2 & Hl). rewrite Hl in Hnda.
    apply NoDup_app in Hnda as (_ & Hd12 & [Hn2 _]%NoDup_cons).
    assert (id ∉ l1) as Hn1 by (intros Hx; apply (Hd12 id Hx); left).
    split; simpl; try apply W; [destruct Hsame as [-> _]; apply W|done|..].
    + rewrite (ready_after_erase h q id (l1 ++ l2) ready W); [|by rewrite Hl, <-Permutation_middle|done|done].
      rewrite Hl, !filter_app, filter_cons_False by done.
      by rewrite !(others_ready h h1 _ id Hsame) by done.
    + rewrite (qw_service _ _ W), (Permutation_length Hrp). simpl. lia.
Qed.

Lemma markPending_spec h q id m :
  queue_wf h q → id ∈ mq_allocatedList q → h !! id = Some m → ms_inService m = true →
  ∃ h' q', markPending h q id = Ok (h', q') ∧ queue_wf h' q' ∧ others_same h h' id ∧
    mq_allocatedList q' = mq_allocatedList q ∧ waiting h' id.
Proof.
  intros W Hin Hm Hs. pose proof (qw_NoDup _ _ W) as Hnd. apply NoDup_app in Hnd as (_ & Hdis & Hnda).
  pose proof (lookup_lt_Some _ _ _ Hm) as Hlt. unfold markPending.
  rewrite (proj2 (get_mshr_Ok h id m) Hm). cbn [mbind result_bind]. rewrite Hs. cbn [assertb mbind result_bind].
  set (m1 := setf ms_inService _ m). rewrite (proj2 (put_mshr_Ok h id m1 (<[id := m1]> h))) by done.
  cbn [mbind result_bind]. pose proof (insert_others h id m1) as Hsame. set (h1 := <[id := m1]> h) in *.
  assert (h1 !! id = Some m1) as Hm1 by (by apply list_lookup_insert_eq).
  cbn zeta. set (q1 := setf mq_inServiceEntries _ q).
  destruct (addToReadyList_spec h1 q1 id m1) as (l & -> & Hl); [|done|].
  { intros x Hx. destruct (qw_ready_alloc h q x W Hx) as [_ (mx & Hmx & _)].
    apply lookup_lt_is_Some_2. destruct Hsame as [-> _]. by eapply lookup_lt_Some. }
  cbn [mbind result_bind]. eexists h1, _. split; [done|].
  assert (waiting h1 id) as Hw by (by exists m1). split; [|done].
  destruct (list_elem_of_split _ _ Hin) as (l1 & l2 & Hal). rewrite Hal in Hnda.
  apply NoDup_app in Hnda as (_ & Hd12 & [Hn2 _]%NoDup_cons).
  assert (id ∉ l1) as Hn1 by (intros Hx; apply (Hd12 id Hx); left).
  split; simpl; try apply W.
  - destruct Hsame as [-> _]. apply W.
  - apply (others_free h h1 q _ id W Hsame). intros i Hi. split; [|done]. intros ->. by apply (Hdis id Hi).
  - rewrite Hl. change (mq_readyList q1) with (mq_readyList q). rewrite (qw_ready _ _ W), Hal, !filter_app.
    rewrite (filter_cons_False _ id l2), (filter_cons_True _ id l2) by (done || intros (m0 & ? & ?); congruence).
    rewrite !(others_ready h h1 _ id Hsame) by done. apply Permutation_middle.
  - rewrite (qw_service _ _ W), (Permutation_length Hl). simpl. lia.
Qed.

Lemma moveToFront_spec h q id m :
  queue_wf h q → id ∈ mq_allocatedList q → h !! id = Some m →
  ∃ q', moveToFront h q id = Ok q' ∧ queue_wf h q' ∧
    (ms_inService m = false → head (mq_readyList q') = Some id).
Proof.
  intros W Hin Hm. unfold moveToFront. rewrite (proj2 (get_mshr_Ok h id m) Hm). simpl.
  destruct (ms_inService m) eqn:Es; simpl; [by exists q|].
  destruct (list_erase_spec (mq_readyList q) id) as (ready & -> & Hr).
  { rewrite (qw_ready _ _ W), list_elem_of_filter. split; [by exists m | done]. }
  simpl. eexists. split; [done|]. split; [|done]. split; simpl; try apply W.
  - by rewrite <-Hr, (qw_ready _ _ W).
  - rewrite (qw_service _ _ W), (Permutation_length Hr). done.
Qed.

Lemma MSHRQueue_make_wf num reserve index base (h : heap) :
  1 ≤ reserve → 0 ≤ num → (base + Z.to_nat (num + reserve - 1) ≤ length h)%nat →
  (∀ id m, (base ≤ id < base + Z.to_nat (num + reserve - 1))%nat → h !! id = Some m → idle m) →
  queue_wf h (MSHRQueue_make num reserve index base).
Proof.
  intros Hr Hn Hl Hi. split; simpl; try done; try lia.
  - by rewrite app_nil_r.
  - intros id m Hin. rewrite elem_of_seq in Hin. by apply Hi.
Qed.

(** A register that can be sent: the queue operation succeeds whenever the
    operation of the register does, *)
Lemma mq_markInService_ok h q id p m h1 gone :
  queue_wf h q → id ∈ mq_allocatedList q → h !! id = Some m → no_deferred m → mshr_markInService h id p = Ok (h1, gone) →
  ∃ h' q', mq_markInService h q id p = Ok (h', q').
Proof.
  intros W Hin Hm Hd E. destruct (mshr_markInService_inv h id p h1 gone m Hm Hd E) as (Hs & Hsame & m1 & Hm1 & Hg).
  unfold mq_markInService. rewrite E. cbn [mbind result_bind]. assert (waiting h id) as Hw by (by exists m). destruct gone.
  - destruct Hg as (Hs1 & Ha1 & Hr1). pose proof (qw_NoDup _ _ W) as (_ & Hdis & _)%NoDup_app.
    destruct (deallocateOne_spec h1 q id m1) as (h2 & q2 & H2 & _); [|done..|by exists h2, q2].
    split; try apply W; [destruct Hsame as [-> _]; apply W| |].
    + apply (others_free h h1 q _ id W Hsame). intros i Hi. split; [|done]. intros ->. by apply (Hdis id Hi).
    + rewrite (qw_ready _ _ W), (waiting_filter_ext h h1); [done|]. intros i _.
      destruct (decide (i = id)) as [->|Hne]; [|by apply unmark_waiting, Hsame]. split; intros _; [done|by exists m1].
  - destruct (list_erase_spec (mq_readyList q) id) as (ready & -> & _); [rewrite (qw_ready _ _ W), list_elem_of_filter; done|].
    cbn [mbind result_bind]. by do 2 eexists.
Qed.

(** and that one does for a register that waits with a request none of whose
    targets marked a register above. *)
Definition marks_above (tg : Target) : bool := tg_markedPending tg && bool_decide (is_Some (findNextMshr (pkt_senderState (tg_pkt tg)))).
Lemma tl_clear_none h ts : Forall (λ tg, marks_above tg = false) ts → tl_clearDownstreamPending h ts = Ok h.
Proof.
  unfold tl_clearDownstreamPending, marks_above. induction 1 as [|tg ts Hx _ IH]; [done|]. cbn [foldM].
  destruct (tg_markedPending tg); [|exact IH]. destruct (findNextMshr _); [|exact IH]. by rewrite bool_decide_eq_true_2 in Hx.
Qed.
Lemma mshr_markInService_ok h id p m :
  h !! id = Some m → ms_inService m = false → hasTargets m = true → Forall (λ tg, marks_above tg = false) (tl_list (ms_targets m)) →
  ∃ r, mshr_markInService h id p = Ok r.
Proof.
  intros Hm Hs Ht Hn. unfold mshr_markInService. rewrite (proj2 (get_mshr_Ok h id m) Hm). cbn [mbind result_bind]. rewrite Hs.
  cbn [negb assertb mbind result_bind]. pose proof (lookup_lt_Some _ _ _ Hm) as Hlt.
  assert (∃ b, isForwardNoResponse m = Ok b ∧ (b = true → getNumTargets m = 1)) as (b & -> & Hb).
  { unfold isForwardNoResponse, hasTargets in *. destruct (getNumTargets m =? 1) eqn:E; cbn [negb]; [|by exists false].
    apply Z.eqb_eq in E. destruct (tl_list (ms_targets m)); [done|]. eexists. by split. }
  cbn [mbind result_bind]. destruct b.
  - rewrite (Hb eq_refl). unfold popTarget, hasTargets in *. destruct (tl_list (ms_targets m)); [done|]. cbn [Z.eqb Pos.eqb assertb mbind result_bind].
    erewrite (proj2 (put_mshr_Ok h id _ _)) by done. by eexists.
  - cbv zeta. erewrite (proj2 (put_mshr_Ok h id _ _)) by done. cbn [mbind result_bind]. destruct (negb _); [|by eexists].
    cbn [ms_targets setf]. rewrite tl_clear_none by done. by eexists.
Qed.

(** ** Squashing and draining *)

(** A register [squash] has been through: of another thread, or in service and
    without targets. *)
Definition squashed (h : heap) (threadNum : Z) (id : nat) : Prop :=
  ∀ m, h !! id = Some m → ms_threadNum m = threadNum → ms_inService m = true ∧ all_targets m = [].
Definition squashable (threadNum : Z) (m : MSHR) : Prop :=
  ms_threadNum m = threadNum → no_deferred m ∧ (threadNum = 0 ∨ hasTargets m = false).

Lemma others_same_trans h1 h2 h3 id : others_same h1 h2 id → others_same h2 h3 id → others_same h1 h3 id.
Proof. intros [L1 O1] [L2 O2]. split; [congruence|]. intros i Hi. by rewrite O2, O1. Qed.
Lemma unmark_thread m m' : unmark m' = unmark m → ms_threadNum m' = ms_threadNum m ∧ ms_inService m' = ms_inService m ∧
  ms_targets m' = ms_targets m ∧ ms_deferredTargets m' = ms_deferredTargets m.
Proof. destruct m, m'. unfold unmark. simpl. intros H. by injection H as -> -> -> -> -> -> -> -> -> -> -> -> -> -> ->. Qed.

(** Emptying the targets of a register does not concern the queue. *)
Lemma put_targets_wf h q id m m1 :
  queue_wf h q → id ∈ mq_allocatedList q → h !! id = Some m → ms_inService m1 = ms_inService m → queue_wf (<[id := m1]> h) q.
Proof.
  intros W Hin Hm Hs. pose proof (insert_others h id m1) as Hsame. pose proof (lookup_lt_Some _ _ _ Hm) as Hlt.
  pose proof (qw_NoDup _ _ W) as (_ & Hdis & _)%NoDup_app. split; try apply W.
  - destruct Hsame as [-> _]. apply W.
  - apply (others_free h _ q _ id W Hsame). intros i Hi. split; [|done]. intros ->. by apply (Hdis id Hi).
  - rewrite (qw_ready _ _ W), (waiting_filter_ext h (<[id := m1]> h)); [done|]. intros i _.
    destruct (decide (i = id)) as [->|Hne]; [|by apply unmark_waiting, Hsame].
    unfold waiting. rewrite list_lookup_insert_eq, Hm by done. split; intros (x & [= <-] & Hx); eexists; (split; [done|congruence]).
Qed.

Lemma squash_one_spec t h q id m :
  queue_wf h q → id ∈ mq_allocatedList q → h !! id = Some m → squashable t m →
  ∃ h' q', squash_one t (h, q) id = Ok (h', q') ∧ queue_wf h' q' ∧ others_same h h' id ∧
    (∀ x, x ∈ mq_allocatedList q' → x ∈ mq_allocatedList q) ∧ (∀ x, x ≠ id → x ∈ mq_allocatedList q → x ∈ mq_allocatedList q') ∧
    (id ∈ mq_allocatedList q' → squashed h' t id).
Proof.
  intros W Hin Hm Hsq. unfold squash_one. rewrite (proj2 (get_mshr_Ok h id m) Hm). cbn [mbind result_bind].
  destruct (Z.eqb_spec (ms_threadNum m) t) as [Ht|Ht].
  2:{ exists h, q. split; [done|]. split; [done|]. split; [done|]. split; [done|]. split; [done|]. intros _ m' Hm'. congruence. }
  destruct (Hsq Ht) as [[Hd Hr] Hz]. assert (negb (hasTargets m) || (0 =? t) = true) as ->.
  { destruct Hz as [->| ->]; [apply orb_true_r|done]. }
  cbn [assertb mbind result_bind]. cbv zeta. set (m1 := m <| ms_targets := _ |>). pose proof (lookup_lt_Some _ _ _ Hm) as Hlt.
  rewrite (proj2 (put_mshr_Ok h id m1 (<[id := m1]> h))) by done. cbn [mbind result_bind].
  assert (getNumTargets m1 = 0) as -> by (unfold getNumTargets; cbn; by rewrite Hd). cbn [Z.eqb assertb mbind result_bind].
  assert (queue_wf (<[id := m1]> h) q) as W1 by (by eapply put_targets_wf).
  assert (<[id := m1]> h !! id = Some m1) as Hm1 by (by apply list_lookup_insert_eq).
  assert (all_targets m1 = []) as Ha by (unfold all_targets; cbn; exact Hd). pose proof (insert_others h id m1) as Hsame.
  change (ms_inService m1) with (ms_inService m). destruct (ms_inService m) eqn:Es; cbn [negb].
  - exists (<[id := m1]> h), q. do 5 (split; [done|]). intros _ m' Hm' _. rewrite Hm1 in Hm'. by injection Hm' as <-.
  - destruct (deallocateOne_spec _ q id m1 W1 Hin Hm1 Ha Hr) as (h2 & q2 & -> & W2 & Hs2 & _ & Hp). exists h2, q2. split; [done|]. split; [done|].
    split; [by eapply others_same_trans|]. split; [intros x Hx; rewrite Hp; by right|]. split.
    + intros x Hx Hx2. rewrite Hp in Hx2. by apply elem_of_cons in Hx2 as [->|Hx2].
    + intros Hx. exfalso. pose proof (qw_NoDup _ _ W) as (_ & _ & Hnd)%NoDup_app. rewrite Hp in Hnd. by apply NoDup_cons in Hnd as [Hnd _].
Qed.

Lemma squash_loop t l h q :
  queue_wf h q → NoDup l → (∀ x, x ∈ l → x ∈ mq_allocatedList q) →
  (∀ x m, x ∈ l → h !! x = Some m → squashable t m) → (∀ x, x ∈ mq_allocatedList q → x ∉ l → squashed h t x) →
  ∃ h' q', foldM (squash_one t) (h, q) l = Ok (h', q') ∧ queue_wf h' q' ∧ ∀ x, x ∈ mq_allocatedList q' → squashed h' t x.
Proof.
  revert h q. induction l as [|id l IH]; intros h q W Hnd Hsub Hsq Hdone.
  { exists h, q. split; [done|]. split; [done|]. intros x Hx. apply Hdone; [done|apply not_elem_of_nil]. }
  apply NoDup_cons in Hnd as [Hid Hnd]. pose proof (Hsub id ltac:(left)) as Hin.
  destruct (qw_lookup h q id W) as [m Hm]; [set_solver|].
  destruct (squash_one_spec t h q id m W Hin Hm) as (h1 & q1 & E & W1 & [L1 O1] & Hsub1 & Hkeep & Hsq1); [by eapply Hsq; [left|]|].
  cbn [foldM]. rewrite E. cbn [mbind result_bind].
  apply IH; [done|done|intros x Hx; apply Hkeep; [by intros ->|apply Hsub; by right]| |].
  - intros x mx Hx Hmx. destruct (unmark_lookup_at h h1 x mx (O1 x ltac:(by intros ->)) Hmx) as (m0 & H0 & Hu).
    apply unmark_thread in Hu as (U1 & U2 & U3 & U4). unfold squashable, no_deferred, hasTargets. rewrite U1, U3, U4.
    apply (Hsq x m0); [by right|done].
  - intros x Hx Hnl. destruct (decide (x = id)) as [->|Hne]; [by apply Hsq1|]. intros mx Hmx Htx.
    destruct (unmark_lookup_at h h1 x mx (O1 x Hne) Hmx) as (m0 & H0 & Hu). apply unmark_thread in Hu as (U1 & U2 & U3 & U4).
    unfold all_targets. rewrite U2, U3, U4. apply (Hdone x); [by apply Hsub1|by intros [->|?]%elem_of_cons|done|congruence].
Qed.

Lemma squash_spec t h q :
  queue_wf h q → (∀ id m, id ∈ mq_allocatedList q → h !! id = Some m → squashable t m) →
  ∃ h' q', squash h q t = Ok (h', q') ∧ queue_wf h' q' ∧ ∀ id, id ∈ mq_allocatedList q' → squashed h' t id.
Proof.
  intros W Hsq. apply squash_loop; [done| |done|done|done]. by pose proof (qw_NoDup _ _ W) as (_ & _ & ?)%NoDup_app.
Qed.

Lemma mq_drain_spec h q : queue_wf h q → queue_wf h (mq_drain q).1 ∧ ((mq_drain q).2 = 0 ↔ mq_allocatedList q = []).
Proof.
  intros W. pose proof (qw_allocated _ _ W) as Ha. unfold mq_drain. destruct (Z.eqb_spec (mq_allocated q) 0) as [H0|H0]; cbn [fst snd].
  - split; [destruct W; by split|]. split; [|done]. intros _. destruct (mq_allocatedList q); [done|cbn in Ha; lia].
  - split; [destruct W; by split|]. split; [done|]. intros E. rewrite E in Ha. by rewrite Ha in H0.
Qed.

(** ** Order of the ready list *)

Definition ready_before (h : heap) (x y : nat) : Prop :=
  ∃ mx my, h !! x = Some mx ∧ h !! y = Some my ∧ ms_readyTime mx ≤ ms_readyTime my.

Lemma insert_before_sorted h l rt id m l' :
  h !! id = Some m → ms_readyTime m = rt →
  StronglySorted (ready_before h) l → insert_before h l rt id = Ok l' →
  StronglySorted (ready_before h) l' ∧ ∀ x, x ∈ l' → x = id ∨ x ∈ l.
Proof.
  intros Hm Hrt. revert l'. induction l as [|x l IH]; intros l' Hs H; simpl in H; [done|].
  apply StronglySorted_inv in Hs as [Hs Hx]. inv_ok. apply get_mshr_Ok in E.
  destruct (Z.ltb_spec rt (ms_readyTime a)).
  - injection H as <-. split; [|set_solver]. constructor; [by constructor|]. apply Forall_cons. split.
    + exists m, a. repeat split; done || lia.
    + eapply Forall_impl; [done|]. intros y (mx & my & Hmx & Hmy & Hle). exists m, my.
      rewrite E in Hmx. injection Hmx as <-. repeat split; done || lia.
  - inv_ok. destruct (IH _ Hs E0) as [Hs' Hel]. split; [|set_solver]. constructor; [done|].
    apply Forall_forall. intros y Hy. destruct (Hel y Hy) as [->|Hy'].
    + exists a, m. repeat split; done || lia.
    + by apply (Forall_forall (ready_before h x) l).
Qed.

Lemma addToReadyList_sorted h q id m q' :
  h !! id = Some m → StronglySorted (ready_before h) (mq_readyList q) →
  (∀ x, x ∈ mq_readyList q → ∃ mx, h !! x = Some mx) →
  addToReadyList h q id = Ok q' → StronglySorted (ready_before h) (mq_readyList q').
Proof.
  intros Hm Hs Hall H. unfold addToReadyList in H. rewrite (proj2 (get_mshr_Ok h id m) Hm) in H. simpl in H.
  destruct (last (mq_readyList q)) as [b|] eqn:El.
  2:{ injection H as <-. repeat constructor. }
  inv_ok. apply get_mshr_Ok in E. destruct (Z.leb_spec (ms_readyTime a) (ms_readyTime m)).
  - injection H as <-. simpl. apply last_Some in El as [l0 El]. rewrite El in *.
    assert (∀ x, x ∈ l0 ++ [b] → ready_before h x id) as Hb.
    { intros x [Hx|Hx]%elem_of_app.
      - apply StronglySorted_app in Hs as (Hxb & _ & _). destruct (Hxb x b Hx) as (mx & mb & ? & Hmb & ?); [set_solver|].
        rewrite E in Hmb. injection Hmb as <-. exists mx, m. repeat split; done || lia.
      - apply list_elem_of_singleton in Hx as ->. by exists a, m. }
    apply StronglySorted_app_2; [|done|repeat constructor].
    intros x y Hx Hy. apply list_elem_of_singleton in Hy as ->. by apply Hb.
  - inv_ok. by destruct (insert_before_sorted h _ _ id m _ Hm eq_refl Hs E0).
Qed.

(** ** Matching *)

Lemma find_match_app h l1 l2 g a s :
  find_match h (l1 ++ l2) g a s =
    (o ← find_match h l1 g a s; match o with Some id => Ok (Some id) | None => find_match h l2 g a s end).
Proof.
  induction l1 as [|x l1 IH]; simpl; [by destruct (find_match h l2 g a s)|].
  destruct (get_mshr h x) as [m|]; simpl; [|done]. by destruct (mshr_matches m g a s).
Qed.

(** The match only reads the identity of the registers in the list. *)
Lemma find_match_others h h' id (l : list nat) g a s :
  others_same h h' id → id ∉ l → find_match h' l g a s = find_match h l g a s.
Proof.
  intros [Hl Ho] Hn. induction l as [|x l IH]; [done|]. apply not_elem_of_cons in Hn as [Hx Hn]. simpl.
  specialize (Ho x (not_eq_sym Hx)). rewrite IH by done. unfold get_mshr, at_. rewrite !decide_True by lia.
  rewrite Nat2Z.id. destruct (h !! x) as [m|], (h' !! x) as [m'|]; try done. simpl.
  apply (inj Some) in Ho. replace (mshr_matches m' g a s) with (mshr_matches m g a s); [done|].
  destruct m, m'. unfold unmark in Ho. simpl in Ho. by injection Ho as -> -> -> -> -> -> -> -> -> -> -> -> -> -> ->.
Qed.

(** ** Properties *)

(** C29: the lists of the queue.  The constructor establishes, and every
    operation keeps, that the free and the allocated list partition the
    registers, that exactly the allocated registers that are not in service are
    on the ready list, and that the two counters are the sizes they stand for.
    A queue that is not full can allocate; a register without targets can be
    freed; [markInService] succeeds whenever the operation of the register does,
    and that does for a register that waits with targets none of which marked a
    register above; a register in service can be made pending, any register
    moved to the front; [squash] of a thread whose registers have no deferred
    targets leaves it only registers in service without targets; and [drain]
    reports that nothing is left exactly when no register is allocated. *)
Theorem mshr_queue_invariant (h : heap) (q : MSHRQueue) :
  (∀ num reserve index base, 1 ≤ reserve → 0 ≤ num → (base + Z.to_nat (num + reserve - 1) ≤ length h)%nat →
     (∀ id m, (base ≤ id < base + Z.to_nat (num + reserve - 1))%nat → h !! id = Some m → idle m) →
     queue_wf h (MSHRQueue_make num reserve index base)) ∧
  (queue_wf h q →
   (∀ guest addr size p tick when order, isFull q = false → pkt_wf p → upstream_unmarked h p →
      ∃ h' q' id, mq_allocate h q guest addr size p tick when order = Ok (h', q', id) ∧
        queue_wf h' q' ∧ id ∈ mq_freeList q ∧ id ∈ mq_allocatedList q') ∧
   (∀ id m, id ∈ mq_allocatedList q → h !! id = Some m →
      (all_targets m = [] → tl_isReset (ms_deferredTargets m) = true →
         ∃ h' q', mq_deallocate h q id = Ok (h', q') ∧ queue_wf h' q' ∧ id ∈ mq_freeList q') ∧
      (∀ p, no_deferred m →
         match mshr_markInService h id p with
         | Ok _ => ∃ h' q', mq_markInService h q id p = Ok (h', q') ∧ queue_wf h' q'
         | Err f => mq_markInService h q id p = Err f
         end) ∧
      (∀ p, ms_inService m = false → hasTargets m = true → Forall (λ tg, marks_above tg = false) (tl_list (ms_targets m)) →
         ∃ r, mshr_markInService h id p = Ok r) ∧
      (ms_inService m = true → ∃ h' q', markPending h q id = Ok (h', q') ∧ queue_wf h' q') ∧
      (∃ q', moveToFront h q id = Ok q' ∧ queue_wf h q' ∧ (ms_inService m = false → head (mq_readyList q') = Some id))) ∧
   (∀ threadNum, (∀ id m, id ∈ mq_allocatedList q → h !! id = Some m → squashable threadNum m) →
      ∃ h' q', squash h q threadNum = Ok (h', q') ∧ queue_wf h' q' ∧ ∀ id, id ∈ mq_allocatedList q' → squashed h' threadNum id) ∧
   (queue_wf h (mq_drain q).1 ∧ ((mq_drain q).2 = 0 ↔ mq_allocatedList q = [])) ∧
   0 ≤ mq_inServiceEntries q ≤ mq_allocated q ∧ mq_allocated q ≤ mq_numEntries q).
Proof.
  split; [intros *; apply MSHRQueue_make_wf|]. intros W. split; [|split; [|split; [|split]]].
  - intros * Hf Hp Hu. destruct (mq_allocate_spec h q guest addr size p tick when order W Hf Hp Hu)
      as (h' & q' & id & m' & ? & ? & ? & Ha & _). exists h', q', id. rewrite Ha. set_solver.
  - intros id m Hin Hm. split; [|split; [|split; [|split]]].
    + intros Ht Hr. destruct (deallocateOne_spec h q id m W Hin Hm Ht Hr) as (h' & q' & ? & ? & _ & Hf & _).
      exists h', q'. rewrite Hf. set_solver.
    + intros p Hd. destruct (mshr_markInService h id p) as [[h1 gone]|f] eqn:E; [|unfold mq_markInService; by rewrite E].
      destruct (mq_markInService_ok h q id p m h1 gone W Hin Hm Hd E) as (h' & q' & H). exists h', q'. split; [done|].
      by apply (mq_markInService_wf h q id p h' q' m W Hin Hm Hd) in H as [? _].
    + intros p Hs Ht Hn. by eapply mshr_markInService_ok.
    + intros Hs. destruct (markPending_spec h q id m W Hin Hm Hs) as (h' & q' & ? & ? & _). eauto.
    + by apply moveToFront_spec.
  - intros t Ht. by apply squash_spec.
  - by apply mq_drain_spec.
  - pose proof (Permutation_length (qw_lists _ _ W)) as Hl. rewrite length_app, length_seq in Hl.
    pose proof (length_filter (waiting h) (mq_allocatedList q)).
    pose proof (Permutation_length (qw_ready _ _ W)). pose proof (qw_entries _ _ W).
    rewrite (qw_service _ _ W), (qw_allocated _ _ W). lia.
Qed.

(** A miss is found again.  After [allocate] for a line that no register
    was handling, [findMatch] returns the new register for that domain, address
    and security space, and what it returned before for every other line; in
    particular the same address of another domain does not match. *)
Theorem allocate_findMatch (h : heap) (q : MSHRQueue) (guest addr size : Z) (p : Packet) (tick when order : Z) :
  queue_wf h q → isFull q = false → pkt_wf p → upstream_unmarked h p →
  findMatch h q guest addr (pkt_isSecure p) = Ok None →
  ∃ h' q' id, mq_allocate h q guest addr size p tick when order = Ok (h', q', id) ∧
    ∀ g a s, findMatch h' q' g a s =
      if decide (g = guest ∧ a = addr ∧ s = pkt_isSecure p) then Ok (Some id) else findMatch h q g a s.
Proof.
  intros W Hf Hp Hu Hn.
  destruct (mq_allocate_spec h q guest addr size p tick when order W Hf Hp Hu)
    as (h' & q' & id & m' & Hal & _ & Hid & Ha & _ & Ho & Hm' & Hmt & _).
  exists h', q', id. split; [done|]. intros g a s. unfold findMatch in *. rewrite Ha, find_match_app.
  assert (id ∉ mq_allocatedList q) as Hna.
  { pose proof (qw_NoDup _ _ W) as Hnd. apply NoDup_app in Hnd as (_ & Hdis & _). by apply Hdis. }
  rewrite (find_match_others h h' id (mq_allocatedList q)) by done. simpl. rewrite (proj2 (get_mshr_Ok h' id m') Hm'). simpl.
  assert (mshr_matches m' g a s = bool_decide (g = guest ∧ a = addr ∧ s = pkt_isSecure p)) as ->.
  { unfold mshr_matches in *. rewrite !andb_true_iff, !Z.eqb_eq, eqb_true_iff in Hmt. destruct Hmt as ((-> & ->) & ->).
    apply eq_true_iff_eq. rewrite !andb_true_iff, !Z.eqb_eq, eqb_true_iff, bool_decide_eq_true. naive_solver. }
  case_bool_decide as Hk; case_decide as Hk'; try done.
  - destruct Hk as (-> & -> & ->). by rewrite Hn.
  - destruct (find_match h (mq_allocatedList q) g a s) as [[?|]|]; done.
Qed.

(** The ready list is a priority queue.  [addToReadyList] never reaches its
    [assert(false)], adds the register once, and keeps a list sorted by ready
    time sorted, so [getNextMSHR] then returns a register with the earliest
    ready time, and only when that time has come. *)
Theorem ready_list_sorted (h : heap) (q : MSHRQueue) (id : nat) (m : MSHR) (tick : Z) :
  h !! id = Some m → (∀ x, x ∈ mq_readyList q → ∃ mx, h !! x = Some mx) →
  StronglySorted (ready_before h) (mq_readyList q) →
  ∃ q', addToReadyList h q id = Ok q' ∧ mq_readyList q' ≡ₚ id :: mq_readyList q ∧
    StronglySorted (ready_before h) (mq_readyList q') ∧
    ∃ o, getNextMSHR h q' tick = Ok o ∧
      match o with
      | Some n => ∃ mn, h !! n = Some mn ∧ ms_readyTime mn ≤ tick ∧
          ∀ x, x ∈ mq_readyList q' → x ≠ n → ready_before h n x
      | None => ∀ x mx, x ∈ mq_readyList q' → h !! x = Some mx → tick < ms_readyTime mx
      end.
Proof.
  intros Hm Hall Hs. destruct (addToReadyList_spec h q id m Hall Hm) as (l & Ha & Hp).
  pose proof (addToReadyList_sorted h q id m _ Hm Hs Hall Ha) as Hs'. simpl in Hs'.
  exists (q <| mq_readyList := l |>). split; [done|]. split; [done|]. split; [done|].
  unfold getNextMSHR. simpl. destruct l as [|n l]; [by apply Permutation_nil in Hp|].
  assert (∃ mn, h !! n = Some mn) as [mn Hmn].
  { assert (n ∈ id :: mq_readyList q) as [->|Hin]%elem_of_cons by (rewrite <-Hp; left); eauto. }
  rewrite (proj2 (get_mshr_Ok h n mn) Hmn). simpl. eexists. split; [done|].
  apply StronglySorted_inv in Hs' as [_ Hx]. rewrite Forall_forall in Hx.
  destruct (Z.ltb_spec tick (ms_readyTime mn)).
  - intros x mx [->|Hin]%elem_of_cons Hmx; [congruence|].
    destruct (Hx x Hin) as (mn' & mx' & H1 & H2 & ?). rewrite Hmn in H1. rewrite Hmx in H2.
    injection H1 as <-. injection H2 as <-. lia.
  - exists mn. split; [done|]. split; [done|]. intros x [->|Hin]%elem_of_cons Hne; [done | by apply Hx].
Qed.

(** ** Instances: a queue of three registers *)

Definition demo_store3 : heap := [MSHR_make 0; MSHR_make 0; MSHR_make 0].
Definition demo_queue : MSHRQueue := MSHRQueue_make 3 1 0 0.
Lemma demo_queue_wf : queue_wf demo_store3 demo_queue.
Proof.
  apply MSHRQueue_make_wf; try done. intros id m _ Hm. apply list_elem_of_lookup_2 in Hm.
  by repeat (apply elem_of_cons in Hm as [->|Hm]; [done|]); apply elem_of_nil in Hm.
Qed.
Lemma demo_req_unmarked cmd : upstream_unmarked demo_store3 (demo_req cmd []).
Proof. by intros u Hu. Qed.
Lemma demo_req_wf cmd st : pkt_wf (demo_req cmd st).
Proof. repeat split. Qed.

Lemma mshr_queue_invariant_witness :
  ∃ h' q' id, mq_allocate demo_store3 demo_queue 1 0x40 64 (demo_req ReadReq []) 5 6 7 = Ok (h', q', id) ∧
    queue_wf h' q' ∧ id ∈ mq_freeList demo_queue ∧ id ∈ mq_allocatedList q'.
Proof.
  destruct (mshr_queue_invariant demo_store3 demo_queue) as [_ H]. destruct (H demo_queue_wf) as [Ha _].
  apply Ha; [reflexivity | apply demo_req_wf | apply demo_req_unmarked].
Defined.

Lemma allocate_findMatch_witness :
  ∃ h' q' id, mq_allocate demo_store3 demo_queue 1 0x40 64 (demo_req ReadReq []) 5 6 7 = Ok (h', q', id) ∧
    findMatch h' q' 1 0x40 false = Ok (Some id) ∧ findMatch h' q' 2 0x40 false = Ok None.
Proof.
  destruct (allocate_findMatch demo_store3 demo_queue 1 0x40 64 (demo_req ReadReq []) 5 6 7) as (h' & q' & id & Ha & Hf);
    [apply demo_queue_wf | reflexivity | apply demo_req_wf | apply demo_req_unmarked | reflexivity |].
  exists h', q', id. split; [done|]. by rewrite !Hf.
Defined.

Definition demo_ready : heap :=
  [(MSHR_make 0) <| ms_readyTime := 4 |>; (MSHR_make 0) <| ms_readyTime := 9 |>;
   (MSHR_make 0) <| ms_readyTime := 6 |>].
Lemma ready_list_sorted_witness :
  ∃ q', addToReadyList demo_ready (demo_queue <| mq_readyList := [0%nat; 1%nat] |>) 2 = Ok q' ∧
    StronglySorted (ready_before demo_ready) (mq_readyList q').
Proof.
  destruct (ready_list_sorted demo_ready (demo_queue <| mq_readyList := [0%nat; 1%nat] |>) 2
    ((MSHR_make 0) <| ms_readyTime := 6 |>) 5) as (q' & Ha & _ & Hs & _); [done|..].
  - intros x Hx. repeat (apply elem_of_cons in Hx as [->|Hx]; [by eexists|]). by apply elem_of_nil in Hx.
  - constructor; [by repeat constructor|]. apply Forall_singleton. eexists _, _. split; [done|]. split; [done|]. done.
  - by exists q'.
Defined.
