(* ===== verification/Bridge.v ===== *)
(** * The bridge between two buses

    [src/pardg5-v/hyper/mem/bridge.cc] and [.hh]: bounded request and response
    queues, space for a response reserved when its request is accepted, and the
    source port of a request restored in its response.  Whether a peer accepts a
    packet is an argument of the sending operations; a retry sent to the
    requester is part of their result. *)

From S2P Require Import Prelude BaseLib Packet Functional AddrMapper.
Local Open Scope Z_scope.

(** The state of both ports.  [br_reqEvent] and [br_respEvent] are the ticks of
    the send events, when scheduled. *)
Record Bridge : Type := mkBridge {
  br_reqQueue : list (Packet * Z);
  br_reqLimit : Z;
  br_reqEvent : option Z;
  br_respQueue : list (Packet * Z);
  br_respLimit : Z;
  br_respEvent : option Z;
  br_outstanding : Z;
  br_retryReq : bool
}.
#[export] Instance eta_Bridge : Eta Bridge := λ b,
  mkBridge (br_reqQueue b) (br_reqLimit b) (br_reqEvent b) (br_respQueue b) (br_respLimit b)
    (br_respEvent b) (br_outstanding b) (br_retryReq b).

Definition Bridge_make (req_size resp_size : Z) : Bridge :=
  mkBridge [] req_size None [] resp_size None 0 false.

Definition respQueueFull (b : Bridge) : bool := br_outstanding b =? br_respLimit b.
Definition reqQueueFull (b : Bridge) : bool := Z.of_nat (length (br_reqQueue b)) =? br_reqLimit b.

(** A request that reserves space for its response. *)
Definition expects_response (p : Packet) : bool := pkt_needsResponse p && negb (memInhibitAsserted p).

(** [EventManager::schedule] asserts that the event is not scheduled. *)
Definition schedule (ev : option Z) (when : Z) : result (option Z) :=
  assertb (bool_decide (ev = None)) ;; Ok (Some when).

Definition schedTimingReq (b : Bridge) (p : Packet) (when : Z) : result Bridge :=
  p ← (if negb (memInhibitAsserted p) && pkt_needsResponse p
       then src ← getSrc p; Ok (pushSenderState p (SSBridge src)) else Ok p);
  ev ← (match br_reqQueue b with [] => schedule (br_reqEvent b) when | _ => Ok (br_reqEvent b) end);
  assertb (negb (reqQueueFull b)) ;;
  Ok (b <| br_reqEvent := ev |> <| br_reqQueue := br_reqQueue b ++ [(p, when)] |>).

Definition schedTimingResp (b : Bridge) (p : Packet) (when : Z) : result Bridge :=
  '(st, p) ← popSenderState p;
  match st with
  | SSBridge origSrc =>
      let p := setDest p origSrc in
      assertb (isDestValid p) ;;
      ev ← (match br_respQueue b with [] => schedule (br_respEvent b) when | _ => Ok (br_respEvent b) end);
      Ok (b <| br_respEvent := ev |> <| br_respQueue := br_respQueue b ++ [(p, when)] |>)
  | _ => Err AssertFail
  end.

(** [BridgeSlavePort::recvTimingReq]: the packet is queued or refused. *)
Definition br_recvTimingReq (b : Bridge) (p : Packet) (when : Z) : result (Bridge * bool) :=
  assertb (negb (br_retryReq b)) ;;
  if reqQueueFull b then Ok (b <| br_retryReq := true |>, false) else
  b ← (if expects_response p then
         if respQueueFull b then Ok (b <| br_retryReq := true |>)
         else assertb (negb (br_outstanding b =? br_respLimit b)) ;;
              Ok (b <| br_outstanding := wrap 32 (br_outstanding b + 1) |>)
       else Ok b);
  if negb (br_retryReq b) then
    b ← schedTimingReq b (zero_delays p) when;
    Ok (b, true)
  else Ok (b, false).

(** [BridgeMasterPort::recvTimingResp]. *)
Definition br_recvTimingResp (b : Bridge) (p : Packet) (when : Z) : result Bridge :=
  schedTimingResp b (zero_delays p) when.

(** [retryStalledReq]: whether a retry is sent. *)
Definition retryStalledReq (b : Bridge) : Bridge * bool :=
  if br_retryReq b then (b <| br_retryReq := false |>, true) else (b, false).

(** The event rescheduled for the packet now at the head. *)
Definition reschedule (ev : option Z) (q : list (Packet * Z)) (edge : Z) : result (option Z) :=
  match q with [] => Ok ev | (_, tick) :: _ => schedule ev (Z.max tick edge) end.

(** [BridgeMasterPort::trySendTiming]: the packet that left, if the peer accepted
    it, and whether a retry went to the requester. *)
Definition master_trySendTiming (b : Bridge) (curTick edge : Z) (accepted : bool)
  : result (Bridge * option Packet * bool) :=
  match br_reqQueue b with
  | [] => Err AssertFail
  | (p, tick) :: q =>
      assertb (tick <=? curTick) ;;
      if accepted then
        ev ← reschedule (br_reqEvent b) q edge;
        let '(b, retry) := retryStalledReq (b <| br_reqQueue := q |> <| br_reqEvent := ev |>) in
        Ok (b, Some p, retry)
      else Ok (b, None, false)
  end.

(** [BridgeSlavePort::trySendTiming]. *)
Definition slave_trySendTiming (b : Bridge) (curTick edge : Z) (accepted : bool)
  : result (Bridge * option Packet * bool) :=
  match br_respQueue b with
  | [] => Err AssertFail
  | (p, tick) :: q =>
      assertb (tick <=? curTick) ;;
      if accepted then
        assertb (negb (br_outstanding b =? 0)) ;;
        let b := b <| br_respQueue := q |> <| br_outstanding := br_outstanding b - 1 |> in
        ev ← reschedule (br_respEvent b) q edge;
        let b := b <| br_respEvent := ev |> in
        if negb (reqQueueFull b) && br_retryReq b
        then Ok (b <| br_retryReq := false |>, Some p, true)
        else Ok (b, Some p, false)
      else Ok (b, None, false)
  end.

(** [recvAtomic]: the delay of the bridge on top of the peer's latency. *)
Definition br_recvAtomic {M : Type} (delay clockPeriod : Z) (peer : AtomicPeer M) (st : M) (p : Packet)
  : result (M * Z * Packet) :=
  '(st, lat, p) ← peer st p; Ok (st, wrap 64 (delay * clockPeriod + lat), p).

(** [recvFunctional] and [BridgeMasterPort::checkFunctional]: the queued responses
    and then the queued requests are looked at before the peer. *)
Definition check_queue (p : Packet) (q : list (Packet * Z)) : result (Packet * list (Packet * Z) * bool) :=
  '(p, l, found) ← checkFunctional_list p (q.*1);
  p ← (if found : bool then makeResponse p else Ok p);
  Ok (p, zip l (q.*2), found).
Definition br_recvFunctional {M : Type} (peer : FunctionalPeer M) (b : Bridge) (st : M) (p : Packet) : result (Bridge * M * Packet) :=
  '(p, q, found) ← check_queue p (br_respQueue b);
  let b := b <| br_respQueue := q |> in
  if found : bool then Ok (b, st, p) else
  '(p, q, found) ← check_queue p (br_reqQueue b);
  let b := b <| br_reqQueue := q |> in
  if found : bool then Ok (b, st, p) else
  '(st, p) ← peer st p; Ok (b, st, p).

(** A functional write is made to every packet in the queues and to what is
    behind the bridge; the queues keep their order and ticks. *)
Lemma br_functional_write {M : Type} (peer : FunctionalPeer M) b st p mine st' p' :
  functional_req p mine → pkt_isRead p = false → pkt_isWrite p = true →
  Forall in_flight (br_respQueue b).*1 → Forall in_flight (br_reqQueue b).*1 → peer st p = Ok (st', p') →
  ∃ resps reqs, br_recvFunctional peer b st p =
      Ok (b <| br_respQueue := zip resps (br_respQueue b).*2 |> <| br_reqQueue := zip reqs (br_reqQueue b).*2 |>, st', p') ∧
    Forall2 (rewritten p mine) (br_respQueue b).*1 resps ∧ Forall2 (rewritten p mine) (br_reqQueue b).*1 reqs.
Proof.
  intros R Hr Hw F1 F2 Hp. unfold br_recvFunctional, check_queue.
  destruct (checkFunctional_list_write p mine _ R Hr Hw F1) as (l1 & -> & G1). cbn [mbind result_bind].
  destruct (checkFunctional_list_write p mine _ R Hr Hw F2) as (l2 & E2 & G2). cbn [br_reqQueue setf]. 
  change (br_reqQueue (b <| br_respQueue := _ |>)) with (br_reqQueue b). rewrite E2. cbn [mbind result_bind]. rewrite Hp. cbn [mbind result_bind].
  by exists l1, l2.
Qed.

(** ** The bridge in its environment

    [e_inflight] are the requests that left and owe a response, in the order
    they left; [e_reqRefused] and [e_respRefused] say that the peer refused the
    head of a queue and owes a retry. *)
Record System : Type := mkSystem {
  e_bridge : Bridge;
  e_inflight : list Packet;
  e_reqRefused : bool;
  e_respRefused : bool
}.

(** The steps: requests arrive (never while the requester waits for a retry),
    events fire and retries arrive, packets are sent, and a response comes back
    for a request in flight with the sender states the request carried. *)
Inductive bridge_step : System → System → Prop :=
| step_request s p when b' acc :
    br_retryReq (e_bridge s) = false → pkt_src p ≠ InvalidPortID →
    br_recvTimingReq (e_bridge s) p when = Ok (b', acc) →
    bridge_step s (mkSystem b' (e_inflight s) (e_reqRefused s) (e_respRefused s))
| step_sendReq s curTick edge acc b' out retry :
    (br_reqEvent (e_bridge s) ≠ None ∨ e_reqRefused s = true) →
    master_trySendTiming ((e_bridge s) <| br_reqEvent := None |>) curTick edge acc = Ok (b', out, retry) →
    bridge_step s (mkSystem b'
      (e_inflight s ++ match out with Some p => if expects_response p then [p] else [] | None => [] end)
      (negb acc) (e_respRefused s))
| step_response s l1 p l2 r when b' :
    e_inflight s = l1 ++ p :: l2 → pkt_senderState r = pkt_senderState p →
    br_recvTimingResp (e_bridge s) r when = Ok b' →
    bridge_step s (mkSystem b' (l1 ++ l2) (e_reqRefused s) (e_respRefused s))
| step_sendResp s curTick edge acc b' out retry :
    (br_respEvent (e_bridge s) ≠ None ∨ e_respRefused s = true) →
    slave_trySendTiming ((e_bridge s) <| br_respEvent := None |>) curTick edge acc = Ok (b', out, retry) →
    bridge_step s (mkSystem b' (e_inflight s) (e_reqRefused s) (negb acc)).

(** ** Invariant *)

(** A request that owes a response carries the source port on its stack. *)
Definition stamped (p : Packet) : Prop :=
  ∃ src st, pkt_senderState p = SSBridge src :: st ∧ src ≠ InvalidPortID.

Definition owing (q : list (Packet * Z)) : list Packet := filter (λ p, expects_response p = true) q.*1.

(** A queue is empty, has its send event scheduled, or waits for a retry. *)
Definition queue_driven (q : list (Packet * Z)) (ev : option Z) (refused : bool) : Prop :=
  (q ≠ [] ↔ ev ≠ None ∨ refused = true) ∧ (refused = true → ev = None).

Record bridge_inv (s : System) : Prop := {
  bi_reqLimit : 0 < br_reqLimit (e_bridge s);
  bi_respLimit : 0 < br_respLimit (e_bridge s) < 2 ^ 32;
  bi_reqBound : Z.of_nat (length (br_reqQueue (e_bridge s))) ≤ br_reqLimit (e_bridge s);
  bi_reserved : br_outstanding (e_bridge s) =
    Z.of_nat (length (owing (br_reqQueue (e_bridge s)))) + Z.of_nat (length (e_inflight s)) +
    Z.of_nat (length (br_respQueue (e_bridge s)));
  bi_respBound : br_outstanding (e_bridge s) ≤ br_respLimit (e_bridge s);
  bi_stamped : ∀ p, p ∈ owing (br_reqQueue (e_bridge s)) ∨ p ∈ e_inflight s → stamped p;
  bi_reqEvent : queue_driven (br_reqQueue (e_bridge s)) (br_reqEvent (e_bridge s)) (e_reqRefused s);
  bi_respEvent : queue_driven (br_respQueue (e_bridge s)) (br_respEvent (e_bridge s)) (e_respRefused s);
  bi_retry : br_retryReq (e_bridge s) = true →
    br_reqQueue (e_bridge s) ≠ [] ∨ 0 < br_outstanding (e_bridge s)
}.

Lemma owing_app q1 q2 : owing (q1 ++ q2) = owing q1 ++ owing q2.
Proof. unfold owing. by rewrite fmap_app, filter_app. Qed.

Lemma owing_one p t : owing [(p, t)] = if expects_response p then [p] else [].
Proof. unfold owing. simpl. rewrite filter_cons. by destruct (expects_response p). Qed.

Lemma owing_cons p t q : owing ((p, t) :: q) = (if expects_response p then [p] else []) ++ owing q.
Proof. rewrite <-(owing_one p t). apply (owing_app [(p, t)]). Qed.

Lemma Bridge_make_inv req_size resp_size :
  0 < req_size → 0 < resp_size < 2 ^ 32 →
  bridge_inv (mkSystem (Bridge_make req_size resp_size) [] false false).
Proof.
  intros H1 H2. split; simpl; try done; try lia; unfold queue_driven.
  - intros p [Hp|Hp]; by apply elem_of_nil in Hp.
  - naive_solver.
  - naive_solver.
Qed.

(** Queueing a request: the packet as it waits in the queue. *)
Definition stamp (p : Packet) : Packet :=
  if expects_response p then pushSenderState p (SSBridge (pkt_src p)) else p.

Lemma stamp_expects p : expects_response (stamp p) = expects_response p.
Proof. unfold stamp. by destruct (expects_response p) eqn:E. Qed.

Lemma schedTimingReq_spec b p when refused :
  queue_driven (br_reqQueue b) (br_reqEvent b) refused → reqQueueFull b = false → pkt_src p ≠ InvalidPortID →
  ∃ ev, schedTimingReq b p when =
      Ok (b <| br_reqEvent := ev |> <| br_reqQueue := br_reqQueue b ++ [(stamp p, when)] |>) ∧
    queue_driven (br_reqQueue b ++ [(stamp p, when)]) ev refused.
Proof.
  intros [Hq Hr] Hfull Hsrc. unfold schedTimingReq.
  assert ((if negb (memInhibitAsserted p) && pkt_needsResponse p
           then src ← getSrc p; Ok (pushSenderState p (SSBridge src)) else Ok p) = Ok (stamp p)) as ->.
  { unfold stamp, expects_response. rewrite andb_comm. destruct (_ && _); [|done]. unfold getSrc.
    apply Z.eqb_neq in Hsrc. by rewrite Hsrc. }
  cbn [mbind result_bind]. rewrite Hfull. destruct (br_reqQueue b) as [|x q] eqn:E.
  - destruct (br_reqEvent b) as [t|] eqn:Ev; [exfalso; apply (proj2 Hq); [by left|done]|]. simpl.
    exists (Some when). split; [done|]. destruct refused; [exfalso; apply (proj2 Hq); [by right|done]|].
    split; [naive_solver|done].
  - simpl. exists (br_reqEvent b). split; [done|]. split; [|done]. rewrite <-Hq. naive_solver.
Qed.

(** A request that has its space: queued, reserved and stamped. *)
Lemma accept_spec s p when out :
  bridge_inv s → br_retryReq (e_bridge s) = false → reqQueueFull (e_bridge s) = false →
  pkt_src p ≠ InvalidPortID →
  out = br_outstanding (e_bridge s) + (if expects_response p then 1 else 0) →
  out ≤ br_respLimit (e_bridge s) →
  ∃ b', schedTimingReq ((e_bridge s) <| br_outstanding := out |>) p when = Ok b' ∧
    bridge_inv (mkSystem b' (e_inflight s) (e_reqRefused s) (e_respRefused s)) ∧
    br_retryReq b' = false ∧ br_reqQueue b' = br_reqQueue (e_bridge s) ++ [(stamp p, when)].
Proof.
  intros I Hr Hfull Hsrc Hout Hle.
  destruct (schedTimingReq_spec ((e_bridge s) <| br_outstanding := out |>) p when (e_reqRefused s))
    as (ev & -> & Hq); [apply I|done|done|].
  eexists. split; [done|]. split; [|done]. destruct I as [I1 I2 I3 I4 I5 I6 I7 I8 I9].
  apply Z.eqb_neq in Hfull. split; simpl; try done.
  - rewrite length_app. simpl. lia.
  - rewrite owing_app, owing_one, stamp_expects, Hout, I4, length_app.
    destruct (expects_response p); simpl; lia.
  - intros x [Hx|Hx]; [|by apply I6; right]. rewrite owing_app, owing_one, stamp_expects in Hx.
    apply elem_of_app in Hx as [Hx|Hx]; [by apply I6; left|]. unfold stamp in Hx.
    destruct (expects_response p); [|by apply elem_of_nil in Hx]. apply list_elem_of_singleton in Hx as ->.
    by exists (pkt_src p), (pkt_senderState p).
  - rewrite Hr. done.
Qed.

Lemma br_recvTimingReq_spec s p when :
  bridge_inv s → br_retryReq (e_bridge s) = false → pkt_src p ≠ InvalidPortID →
  ∃ b' acc, br_recvTimingReq (e_bridge s) p when = Ok (b', acc) ∧
    bridge_inv (mkSystem b' (e_inflight s) (e_reqRefused s) (e_respRefused s)) ∧
    br_retryReq b' = negb acc ∧
    br_reqQueue b' = br_reqQueue (e_bridge s) ++ (if acc then [(stamp (zero_delays p), when)] else []) ∧
    (acc = false → br_outstanding b' = br_outstanding (e_bridge s)).
Proof.
  intros I Hr Hsrc. unfold br_recvTimingReq. rewrite Hr. cbn [negb assertb mbind result_bind].
  destruct (reqQueueFull (e_bridge s)) eqn:Ef.
  { eexists _, false. split; [done|]. split; [|by rewrite app_nil_r]. destruct I. split; simpl; try done.
    intros _. left. apply Z.eqb_eq in Ef. destruct (br_reqQueue _); [simpl in *; lia | done]. }
  destruct (expects_response p) eqn:Ex.
  - destruct (respQueueFull (e_bridge s)) eqn:Er.
    { cbn [mbind result_bind]. eexists _, false. split; [done|]. split; [|by rewrite app_nil_r].
      destruct I. split; simpl; try done. intros _. right. apply Z.eqb_eq in Er. lia. }
    unfold respQueueFull in Er. rewrite Er. cbn [negb assertb mbind result_bind]. apply Z.eqb_neq in Er.
    pose proof I as []. rewrite wrap_small by (unfold in_width; lia).
    destruct (accept_spec s (zero_delays p) when (br_outstanding (e_bridge s) + 1)) as (b' & Hb & I' & Hr' & Hq);
      [done..|by change (expects_response (zero_delays p)) with (expects_response p); rewrite Ex|lia|].
    change (br_retryReq (setf br_outstanding _ _)) with (br_retryReq (e_bridge s)). rewrite Hr. cbn [negb].
    rewrite Hb. simpl. by exists b', true.
  - cbn [mbind result_bind]. rewrite Hr. cbn [negb].
    destruct (accept_spec s (zero_delays p) when (br_outstanding (e_bridge s))) as (b' & Hb & I' & Hr' & Hq);
      [done..|change (expects_response (zero_delays p)) with (expects_response p); rewrite Ex; lia|apply I|].
    replace ((e_bridge s) <| br_outstanding := br_outstanding (e_bridge s) |>) with (e_bridge s) in Hb
      by (by destruct (e_bridge s)).
    rewrite Hb. simpl. by exists b', true.
Qed.

(** Responses: the destination is the port the request came from. *)
Lemma br_recvTimingResp_spec s l1 p l2 r when :
  bridge_inv s → e_inflight s = l1 ++ p :: l2 → pkt_senderState r = pkt_senderState p →
  ∃ b' src st, br_recvTimingResp (e_bridge s) r when = Ok b' ∧
    bridge_inv (mkSystem b' (l1 ++ l2) (e_reqRefused s) (e_respRefused s)) ∧
    pkt_senderState p = SSBridge src :: st ∧
    br_respQueue b' = br_respQueue (e_bridge s) ++
      [((zero_delays r) <| pkt_senderState := st |> <| pkt_dest := src |>, when)].
Proof.
  intros I Hfl Hst. destruct (bi_stamped _ I p) as (src & st & Hp & Hsrc); [right; rewrite Hfl; set_solver|].
  unfold br_recvTimingResp, schedTimingResp, popSenderState.
  change (pkt_senderState (zero_delays r)) with (pkt_senderState r). rewrite Hst, Hp. cbn [mbind result_bind].
  unfold isDestValid. cbn [setDest]. simpl. apply Z.eqb_neq in Hsrc. rewrite Hsrc. simpl.
  destruct I as [I1 I2 I3 I4 I5 I6 I7 [Hq Hrf] I9].
  assert (∃ ev, match br_respQueue (e_bridge s) with [] => schedule (br_respEvent (e_bridge s)) when
     | _ => Ok (br_respEvent (e_bridge s)) end = Ok ev ∧
     ∀ x, queue_driven (br_respQueue (e_bridge s) ++ [x]) ev (e_respRefused s)) as (ev & -> & Hev).
  { destruct (br_respQueue (e_bridge s)) as [|y q].
    - destruct (br_respEvent (e_bridge s)); [exfalso; apply (proj2 Hq); [by left|done]|]. exists (Some when).
      split; [done|]. destruct (e_respRefused s); [exfalso; apply (proj2 Hq); [by right|done]|].
      split; [naive_solver|done].
    - eexists. split; [done|]. split; [|done]. rewrite <-Hq. naive_solver. }
  simpl. eexists _, src, st. split; [done|]. split; [|done].
  rewrite Hfl, length_app in I4. simpl in I4. split; simpl; try done.
  - rewrite !length_app. simpl. lia.
  - intros x [Hx|Hx]; apply I6; [by left|]. right. rewrite Hfl. set_solver.
Qed.

(** Firing the event of a queue or taking a retry leaves the queue without
    event; sending its head and rescheduling drives it again. *)
Lemma reschedule_spec q edge :
  ∃ ev, reschedule None q edge = Ok ev ∧ queue_driven q ev false.
Proof.
  destruct q as [|[p t] q]; simpl; eexists; (split; [done|]); split; naive_solver.
Qed.

Lemma master_trySendTiming_spec s curTick edge acc p t q :
  bridge_inv s → br_reqQueue (e_bridge s) = (p, t) :: q → t ≤ curTick →
  ∃ b' retry,
    master_trySendTiming ((e_bridge s) <| br_reqEvent := None |>) curTick edge acc =
      Ok (b', if acc then Some p else None, retry) ∧
    bridge_inv (mkSystem b'
      (e_inflight s ++ (if acc then if expects_response p then [p] else [] else []))
      (negb acc) (e_respRefused s)) ∧
    br_reqQueue b' = (if acc then q else (p, t) :: q) ∧
    retry = (acc && br_retryReq (e_bridge s)) ∧ (acc = true → br_retryReq b' = false).
Proof.
  intros I Hq Ht. unfold master_trySendTiming. simpl. rewrite Hq. apply Z.leb_le in Ht. rewrite Ht.
  cbn [assertb mbind result_bind]. destruct I as [I1 I2 I3 I4 I5 I6 I7 I8 I9].
  rewrite Hq in I3, I4, I6. rewrite owing_cons in I4, I6. rewrite length_app in I4. simpl in I3. destruct acc.
  - destruct (reschedule_spec q edge) as (ev & -> & Hev). cbn [mbind result_bind]. unfold retryStalledReq. simpl.
    assert (bridge_inv (mkSystem ((e_bridge s) <| br_reqEvent := ev |> <| br_reqQueue := q |> <| br_retryReq := false |>)
      (e_inflight s ++ (if expects_response p then [p] else [])) false (e_respRefused s))) as Hinv.
    { split; simpl; try done; try lia.
      - rewrite length_app. lia.
      - intros x [Hx|Hx]; apply I6; set_solver. }
    by destruct (br_retryReq (e_bridge s)) eqn:Er; eexists _, _.
  - eexists _, false. split; [done|]. split; [|done]. split; simpl; rewrite ?Hq, ?app_nil_r, ?owing_cons; try done; try lia.
    + rewrite length_app. lia.
    + split; [naive_solver|done].
    + by rewrite Hq in I9.
Qed.

Lemma slave_trySendTiming_spec s curTick edge acc p t q :
  bridge_inv s → br_respQueue (e_bridge s) = (p, t) :: q → t ≤ curTick →
  ∃ b' retry,
    slave_trySendTiming ((e_bridge s) <| br_respEvent := None |>) curTick edge acc =
      Ok (b', if acc then Some p else None, retry) ∧
    bridge_inv (mkSystem b' (e_inflight s) (e_reqRefused s) (negb acc)) ∧
    br_respQueue b' = (if acc then q else (p, t) :: q).
Proof.
  intros I Hq Ht. unfold slave_trySendTiming. simpl. rewrite Hq. apply Z.leb_le in Ht. rewrite Ht.
  cbn [assertb mbind result_bind]. destruct I as [I1 I2 I3 I4 I5 I6 I7 I8 I9].
  rewrite Hq in I4. simpl in I4. destruct acc.
  - destruct (Z.eqb_spec (br_outstanding (e_bridge s)) 0); [lia|]. cbn [negb assertb mbind result_bind]. simpl.
    destruct (reschedule_spec q edge) as (ev & -> & Hev). cbn [mbind result_bind].
    assert (∀ rt, (rt = true → br_reqQueue (e_bridge s) ≠ []) →
      bridge_inv (mkSystem ((e_bridge s) <| br_respQueue := q |> <| br_outstanding := br_outstanding (e_bridge s) - 1 |>
        <| br_respEvent := ev |> <| br_retryReq := rt |>) (e_inflight s) (e_reqRefused s) false)) as Hinv.
    { intros rt Hrt. split; simpl; try done; try lia. intros Hr. left. auto. }
    destruct (negb (reqQueueFull _) && _) eqn:Er; eexists _, _; (split; [done|]); (split; [|done]).
    + by apply Hinv.
    + apply Hinv. intros Hr. simpl in Hr. unfold reqQueueFull in Er. simpl in Er. rewrite Hr, andb_true_r in Er.
      apply negb_false_iff, Z.eqb_eq in Er. intros Hn. rewrite Hn in Er. simpl in Er. lia.
  - eexists _, false. split; [done|]. split; [|done]. split; simpl; rewrite ?Hq; try done; simpl; try lia.
    split; [naive_solver|done].
Qed.

Lemma bridge_step_inv s s' : bridge_step s s' → bridge_inv s → bridge_inv s'.
Proof.
  intros Hst I. destruct Hst as [s p when b' acc Hr Hsrc H|s ct edge acc b' out retry Hdue H
    |s l1 p l2 r when b' Hfl Hss H|s ct edge acc b' out retry Hdue H].
  - destruct (br_recvTimingReq_spec s p when I Hr Hsrc) as (b1 & acc1 & H1 & I1 & _).
    rewrite H in H1. by injection H1 as -> ->.
  - destruct (br_reqQueue (e_bridge s)) as [|[p t] q] eqn:Eq.
    { unfold master_trySendTiming in H. simpl in H. by rewrite Eq in H. }
    assert (t ≤ ct) as Ht.
    { unfold master_trySendTiming in H. simpl in H. rewrite Eq in H. inv_ok. by apply Z.leb_le. }
    destruct (master_trySendTiming_spec s ct edge acc p t q I Eq Ht) as (b1 & rt & H1 & I1 & _).
    rewrite H in H1. injection H1 as -> -> ->. by destruct acc.
  - destruct (br_recvTimingResp_spec s l1 p l2 r when I Hfl Hss) as (b1 & src & st & H1 & I1 & _).
    rewrite H in H1. by injection H1 as ->.
  - destruct (br_respQueue (e_bridge s)) as [|[p t] q] eqn:Eq.
    { unfold slave_trySendTiming in H. simpl in H. by rewrite Eq in H. }
    assert (t ≤ ct) as Ht.
    { unfold slave_trySendTiming in H. simpl in H. rewrite Eq in H. inv_ok. by apply Z.leb_le. }
    destruct (slave_trySendTiming_spec s ct edge acc p t q I Eq Ht) as (b1 & rt & H1 & I1 & _).
    rewrite H in H1. by injection H1 as -> -> ->.
Qed.

(** A due send: the queue's event or a retry, not before the head's tick. *)
Definition due (q : list (Packet * Z)) (ev : option Z) (refused : bool) (curTick : Z) : Prop :=
  (ev ≠ None ∨ refused = true) ∧ ∀ p t, head q = Some (p, t) → t ≤ curTick.

(** ** Properties *)

(** C13: flow control of the bridge.  In every state reachable from a new bridge,
    by any interleaving of requests, sends, retries and responses: the request
    queue and the reserved responses respect their limits, the number of
    outstanding responses is exactly the number of requests queued or in flight
    that owe one plus the responses queued, a queue with packets has its send
    event scheduled or waits for a retry, a stalled requester has something to
    wait for, and no assertion of the bridge fails on any of the four kinds of
    step, in particular a response always finds its space. *)
Theorem bridge_flow_control (req_size resp_size : Z) (s : System) :
  0 < req_size → 0 < resp_size < 2 ^ 32 →
  rtc bridge_step (mkSystem (Bridge_make req_size resp_size) [] false false) s →
  bridge_inv s ∧
  (∀ p when, br_retryReq (e_bridge s) = false → pkt_src p ≠ InvalidPortID →
     is_ok (br_recvTimingReq (e_bridge s) p when)) ∧
  (∀ curTick edge acc, due (br_reqQueue (e_bridge s)) (br_reqEvent (e_bridge s)) (e_reqRefused s) curTick →
     is_ok (master_trySendTiming ((e_bridge s) <| br_reqEvent := None |>) curTick edge acc)) ∧
  (∀ p r when, p ∈ e_inflight s → pkt_senderState r = pkt_senderState p →
     is_ok (br_recvTimingResp (e_bridge s) r when)) ∧
  (∀ curTick edge acc, due (br_respQueue (e_bridge s)) (br_respEvent (e_bridge s)) (e_respRefused s) curTick →
     is_ok (slave_trySendTiming ((e_bridge s) <| br_respEvent := None |>) curTick edge acc)).
Proof.
  intros Hrq Hrs Hr.
  assert (bridge_inv s) as I.
  { pose proof (Bridge_make_inv req_size resp_size Hrq Hrs) as I0. revert I0.
    induction Hr as [|x y z Hxy _ IH]; [done|]. intros I0. apply IH. by eapply bridge_step_inv. }
  split; [done|]. split; [|split; [|split]].
  - intros p when H1 H2. destruct (br_recvTimingReq_spec s p when I H1 H2) as (b' & acc & -> & _). by eexists.
  - intros ct edge acc [Hd Ht]. destruct (bi_reqEvent _ I) as [Hq _]. apply Hq in Hd.
    destruct (br_reqQueue (e_bridge s)) as [|[p t] q] eqn:Eq; [done|].
    destruct (master_trySendTiming_spec s ct edge acc p t q I Eq) as (b' & rt & -> & _); [by apply (Ht p)|]. by eexists.
  - intros p r when Hp Hst. destruct (list_elem_of_split _ _ Hp) as (l1 & l2 & Hl).
    destruct (br_recvTimingResp_spec s l1 p l2 r when I Hl Hst) as (b' & src & st & -> & _). by eexists.
  - intros ct edge acc [Hd Ht]. destruct (bi_respEvent _ I) as [Hq _]. apply Hq in Hd.
    destruct (br_respQueue (e_bridge s)) as [|[p t] q] eqn:Eq; [done|].
    destruct (slave_trySendTiming_spec s ct edge acc p t q I Eq) as (b' & rt & -> & _); [by apply (Ht p)|]. by eexists.
Qed.

(** A request as a bus delivers it, from port 3. *)
Definition demo_busreq : Packet :=
  mkPacket 0xB00 ReadReq (mkRequest 0x40 4 0 0 0 0 0 0) None 0 0x40 false 4 3 InvalidPortID
    InvalidCmd 0 0 0 0 [SSOther 1].

Lemma bridge_flow_control_witness :
  ∃ s, rtc bridge_step (mkSystem (Bridge_make 2 1) [] false false) s ∧
    br_outstanding (e_bridge s) = 1 ∧ bridge_inv s.
Proof.
  destruct (br_recvTimingReq (Bridge_make 2 1) demo_busreq 10) as [[b' acc]|] eqn:E; [|done].
  exists (mkSystem b' [] false false).
  assert (rtc bridge_step (mkSystem (Bridge_make 2 1) [] false false) (mkSystem b' [] false false)) as Hr.
  { apply rtc_once. by apply (step_request (mkSystem (Bridge_make 2 1) [] false false) demo_busreq 10 b' acc). }
  split; [done|]. split; [revert E; vm_compute; by intros [= <- _]|].
  by apply (bridge_flow_control 2 1); [..|done].
Defined.

(** The packet at the end of the queue of an accepted request. *)
Lemma br_recvTimingReq_queued b p when b1 :
  br_recvTimingReq b p when = Ok (b1, true) →
  last (br_reqQueue b1) = Some (stamp (zero_delays p), when) ∧
  (expects_response p = true → pkt_src p ≠ InvalidPortID).
Proof.
  intros H. unfold br_recvTimingReq in H. inv_ok.
  destruct (reqQueueFull b); [by inv_ok|]. apply bind_Ok_inv in H as (b0 & _ & H).
  destruct (negb (br_retryReq b0)); [|by inv_ok].
  apply bind_Ok_inv in H as (b1' & H & [= ->]). unfold schedTimingReq in H.
  apply bind_Ok_inv in H as (p' & Hp & H). apply bind_Ok_inv in H as (ev & _ & H). inv_ok. simpl. rewrite last_snoc.
  unfold stamp, expects_response in *. change (pkt_src (zero_delays p)) with (pkt_src p).
  change (pkt_needsResponse (zero_delays p)) with (pkt_needsResponse p) in *.
  change (memInhibitAsserted (zero_delays p)) with (memInhibitAsserted p) in *.
  rewrite (andb_comm (negb _)) in Hp. destruct (_ && _).
  - unfold getSrc in Hp. change (pkt_src (zero_delays p)) with (pkt_src p) in Hp.
    destruct (Z.eqb_spec (pkt_src p) InvalidPortID); [done|]. by injection Hp as <-.
  - by injection Hp as <-.
Qed.

(** A response finds its way back.  When the bridge accepts a request [p]
    that expects a response, the packet [fwd] it queues has [p]'s source port on
    its stack of sender states; a response [r] to [fwd], whatever happened to
    the bridge in between, is queued for that port with exactly the sender
    states [p] arrived with. *)
Theorem bridge_response_routed (b b1 b2 b3 : Bridge) (p fwd r : Packet) (when when' : Z) :
  br_recvTimingReq b p when = Ok (b1, true) → expects_response p = true →
  last (br_reqQueue b1) = Some (fwd, when) →
  pkt_senderState r = pkt_senderState fwd →
  br_recvTimingResp b2 r when' = Ok b3 →
  br_respQueue b3 = br_respQueue b2 ++
    [((zero_delays r) <| pkt_senderState := pkt_senderState p |> <| pkt_dest := pkt_src p |>, when')].
Proof.
  intros H1 Hx Hl Hr H2. apply br_recvTimingReq_queued in H1 as [H1 Hsrc]. rewrite H1 in Hl.
  injection Hl as <-. unfold stamp in Hr. change (expects_response (zero_delays p)) with (expects_response p) in Hr.
  rewrite Hx in Hr. unfold br_recvTimingResp, schedTimingResp, popSenderState in H2.
  change (pkt_senderState (zero_delays r)) with (pkt_senderState r) in H2. rewrite Hr in H2. simpl in H2.
  apply bind_Ok_inv in H2 as (? & _ & H2). apply bind_Ok_inv in H2 as (ev & _ & [= <-]). done.
Qed.

Lemma bridge_response_routed_witness :
  ∃ b1 fwd b3, br_recvTimingReq (Bridge_make 2 1) demo_busreq 10 = Ok (b1, true) ∧
    last (br_reqQueue b1) = Some (fwd, 10) ∧
    br_recvTimingResp b1 (fwd <| pkt_cmd := ReadResp |>) 20 = Ok b3 ∧
    (pkt_dest ∘ fst) <$> br_respQueue b3 = [3].
Proof.
  destruct (br_recvTimingReq (Bridge_make 2 1) demo_busreq 10) as [[b1 acc]|] eqn:E1; [|done].
  destruct (last (br_reqQueue b1)) as [[fwd w]|] eqn:E2; [|by revert E1 E2; vm_compute; intros [= <- <-]].
  destruct (br_recvTimingResp b1 (fwd <| pkt_cmd := ReadResp |>) 20) as [b3|] eqn:E3;
    [|by revert E1 E2 E3; vm_compute; intros [= <- <-] [= <- <-]].
  assert (acc = true ∧ w = 10 ∧ br_respQueue b1 = []) as (-> & -> & Hq).
  { revert E1 E2; vm_compute; by intros [= <- <-] [= <- <-]. }
  exists b1, fwd, b3. split; [done|]. split; [done|]. split; [done|].
  assert (pkt_senderState (fwd <| pkt_cmd := ReadResp |>) = pkt_senderState fwd) as Hs by done.
  rewrite (bridge_response_routed _ _ _ _ _ _ _ _ _ E1 eq_refl E2 Hs E3). by rewrite Hq.
Defined.
