(* ===== verification/CacheCtrl.v ===== *)
(** * The cache controller: data path, atomic mode, snoops, issue order

    [src/pardg5-v/hyper/mem/cache/cache_impl.hh] with the fields of
    [mem/cache/cache.hh] and [mem/cache/base.hh] it uses: satisfying a request
    from a block, fills and write-backs, atomic accesses over a memory side,
    atomic snoops, uncacheable flushes, and the choice of the next request to
    issue.  The memory side and the caches above are arguments.  Timing mode is
    [CacheTiming] and functional accesses are [CacheFunctional]; statistics are not
    modelled, and prefetchers are refused by the constructor. *)

From S2P Require Import Prelude BaseLib Packet CacheBlk CacheSet LruTags Mshr MshrQueue.
Local Open Scope Z_scope.

(** A block pointer: a block of the tag store, or [tempBlock]. *)
Inductive BlkRef : Type := TagBlk (k : nat) | TempBlk.
#[export] Instance BlkRef_eq_dec : EqDecision BlkRef.
Proof. solve_decision. Defined.

(** [ca_data] are the bytes of all blocks of the tag store, indexed by the data
    pointer of the block; [tempBlock] has bytes of its own. *)
Record Cache : Type := mkCache {
  ca_isPrivate : bool;
  ca_guestID : Z;
  ca_isTopLevel : bool;
  ca_forwardSnoops : bool;
  ca_blkSize : Z;
  ca_hitLatency : Z;
  ca_responseLatency : Z;
  ca_tags : LRU;
  ca_data : list Z;
  ca_tempBlock : CacheBlk;
  ca_tempData : list Z;
  ca_mshrs : heap;
  ca_mshrQueue : MSHRQueue;
  ca_writeBuffer : MSHRQueue
}.
#[export] Instance eta_Cache : Eta Cache := λ c,
  mkCache (ca_isPrivate c) (ca_guestID c) (ca_isTopLevel c) (ca_forwardSnoops c) (ca_blkSize c)
    (ca_hitLatency c) (ca_responseLatency c) (ca_tags c) (ca_data c) (ca_tempBlock c) (ca_tempData c)
    (ca_mshrs c) (ca_mshrQueue c) (ca_writeBuffer c).

(** What the cache asks the simulator: the current tick, the next clock edge,
    the clock period, the number of masters and the bypass mode. *)
Record Env : Type := mkEnv {
  ev_curTick : Z;
  ev_clockEdge : Z;
  ev_clockPeriod : Z;
  ev_maxMasters : Z;
  ev_bypassCaches : bool
}.

(** The constructors [Cache(p)] and [BaseCache(p)] over a tag store; the data
    array of the tag store and the bytes of [tempBlock] start as zeros, the
    registers of both queues stand one after the other in the store. *)
Definition Cache_make (is_private : bool) (guest_id : Z) (is_top_level forward_snoops : bool)
    (line_size hit_latency response_latency mshrs write_buffers : Z) (prefetcher : bool) (tags : LRU)
  : result Cache :=
  panic_if prefetcher ;;
  let queue := MSHRQueue_make mshrs 4 0 0 in
  let n := Z.to_nat (mq_numEntries queue) in
  let buffer := MSHRQueue_make write_buffers (mshrs + 1000) 1 n in
  Ok (mkCache is_private guest_id is_top_level forward_snoops line_size hit_latency response_latency tags
        (replicate (Z.to_nat (lt_numBlocks tags * lt_blkSize tags)) 0)
        ((CacheBlk_make 0) <| cb_data := Some 0 |>) (replicate (Z.to_nat line_size) 0)
        (replicate (n + Z.to_nat (mq_numEntries buffer)) (MSHR_make 0)) queue buffer).

(** ** Blocks and their bytes *)

Definition get_ref (c : Cache) (r : BlkRef) : result CacheBlk :=
  match r with TagBlk k => get_blk (ca_tags c) k | TempBlk => Ok (ca_tempBlock c) end.
Definition set_ref (c : Cache) (r : BlkRef) (b : CacheBlk) : result Cache :=
  match r with
  | TagBlk k => t ← put_blk (ca_tags c) k b; Ok (c <| ca_tags := t |>)
  | TempBlk => Ok (c <| ca_tempBlock := b |>)
  end.

(** The bytes [blk->data[0 .. blkSize)]. *)
Definition get_line (c : Cache) (r : BlkRef) : result (list Z) :=
  match r with
  | TempBlk => Ok (ca_tempData c)
  | TagBlk k =>
      b ← get_blk (ca_tags c) k;
      match cb_data b with
      | None => Err NullDeref
      | Some off =>
          if decide (0 ≤ off ∧ off + ca_blkSize c ≤ Z.of_nat (length (ca_data c)))
          then Ok (slice (ca_data c) (Z.to_nat off) (Z.to_nat (ca_blkSize c))) else Err OutOfBounds
      end
  end.
Definition set_line (c : Cache) (r : BlkRef) (line : list Z) : result Cache :=
  match r with
  | TempBlk => Ok (c <| ca_tempData := line |>)
  | TagBlk k =>
      b ← get_blk (ca_tags c) k;
      match cb_data b with
      | None => Err NullDeref
      | Some off =>
          if decide (0 ≤ off ∧ off + ca_blkSize c ≤ Z.of_nat (length (ca_data c)))
          then Ok (c <| ca_data := splice (ca_data c) (Z.to_nat off) line |>) else Err OutOfBounds
      end
  end.

Definition set_bits (b : CacheBlk) (m : Z) : CacheBlk := b <| cb_status := Z.lor (cb_status b) m |>.
Definition clear_bits (b : CacheBlk) (m : Z) : CacheBlk :=
  b <| cb_status := Z.land (cb_status b) (Z.lnot m) |>.

(** [if (blk != tempBlock) tags->invalidate(blk); blk->invalidate();] *)
Definition drop_block (ev : Env) (c : Cache) (r : BlkRef) : result Cache :=
  c ← (match r with
       | TagBlk k => t ← lru_invalidate (ca_tags c) (ev_curTick ev) (ev_maxMasters ev) (Some k);
                     Ok (c <| ca_tags := t |>)
       | TempBlk => Ok c
       end);
  b ← get_ref c r;
  set_ref c r (blk_invalidate b).

(** ** Requests satisfied from a block *)

(** [cmpAndSwap]: the block, its bytes and the packet. *)
Definition cmpAndSwap (c : Cache) (b : CacheBlk) (line : list Z) (p : Packet)
  : result (CacheBlk * list Z * Packet) :=
  addr ← getAddr p;
  let offset := swrap 32 (extractBlkOffset (ca_tags c) addr) in
  size ← getSize p;
  assertb (size <=? 8) ;;
  overwrite_val ← writeData p (replicate 8 0) 0;
  p ← setData p line offset;
  let n := Z.to_nat size in
  overwrite_mem ←
    (if req_isCondSwap (pkt_req p) then
       if size =? 8 then
         Ok (bool_decide (le_split 8 (req_extraData (pkt_req p)) = slice line (Z.to_nat offset) 8))
       else if size =? 4 then
         Ok (bool_decide (le_split 4 (req_extraData (pkt_req p)) = slice line (Z.to_nat offset) 4))
       else Err PanicCalled
     else Ok true);
  if overwrite_mem : bool
  then Ok (set_bits b BlkDirty, splice line (Z.to_nat offset) (take n overwrite_val), p)
  else Ok (b, line, p).

(** The body of [satisfyCpuSideRequest] on the block, its bytes and the packet;
    the last result says that the block is given up. *)
Definition satisfy_line (c : Cache) (is_temp : bool) (b : CacheBlk) (line : list Z) (p : Packet)
    (deferred_response pending_downgrade : bool) : result (CacheBlk * list Z * Packet * bool) :=
  assertb (blk_isValid b) ;;
  off ← getOffset p (ca_blkSize c);
  size ← getSize p;
  assertb (off + size <=? ca_blkSize c) ;;
  if decide (pkt_cmd p = SwapReq) then
    '(b, line, p) ← cmpAndSwap c b line p; Ok (b, line, p, false)
  else if pkt_isWrite p then
    let '(b, p, ok) := checkWrite b p in
    if ok : bool then
      line ← writeDataToBlock p line (ca_blkSize c);
      Ok (set_bits b BlkDirty, line, p, false)
    else Ok (b, line, p, false)
  else if pkt_isRead p then
    b ← (if pkt_isLLSC p then trackLoadLocked b p else Ok b);
    p ← setDataFromBlock p line (ca_blkSize c);
    if size =? ca_blkSize c then
      if pkt_needsExclusive p then
        Ok (b, line, if blk_isDirty b then assertMemInhibit p else p, true)
      else if blk_isWritable b && negb pending_downgrade && negb (sharedAsserted p)
              && negb (req_isInstFetch (pkt_req p)) then
        if blk_isDirty b then
          if negb deferred_response && negb (ca_isTopLevel c)
          then Ok (clear_bits b BlkDirty, line, assertMemInhibit p, false)
          else Ok (b, line, assertShared p, false)
        else Ok (b, line, p, false)
      else Ok (b, line, assertShared p, false)
    else Ok (b, line, p, false)
  else
    assertb (pkt_isUpgrade p) ;;
    assertb (negb is_temp) ;;
    Ok (b, line, p, true).

Definition satisfyCpuSideRequest (ev : Env) (c : Cache) (p : Packet) (r : BlkRef)
    (deferred_response pending_downgrade : bool) : result (Cache * Packet) :=
  b ← get_ref c r;
  line ← get_line c r;
  '(b, line, p, drop) ←
    satisfy_line c (bool_decide (r = TempBlk)) b line p deferred_response pending_downgrade;
  c ← set_ref c r b;
  c ← set_line c r line;
  c ← (if drop : bool then drop_block ev c r else Ok c);
  Ok (c, p).

(** ** Write-backs *)

(** [writebackBlk]: the packet carries the tag and the security of the block. *)
Definition writebackBlk (ev : Env) (c : Cache) (r : BlkRef) : result (Cache * Packet) :=
  b ← get_ref c r;
  assertb (blk_isValid b && blk_isDirty b) ;;
  let req := Request_phys (regenerateBlkAddr (ca_tags c) (cb_tag b) (cb_set b)) (ca_blkSize c)
               (if blk_isSecure b then SECURE else 0) wbMasterId in
  let req := req <| req_qosTag := wrap 64 (cb_qosTag b) |> <| req_taskId := cb_task_id b |> in
  let writeback := Packet_make req Writeback in
  let writeback := if blk_isWritable b then setSupplyExclusive writeback else writeback in
  writeback ← Packet_allocate writeback;
  line ← get_line c r;
  writeback ← setData writeback line 0;
  let b := b <| cb_task_id := Unknown |> <| cb_tickInserted := ev_curTick ev |> in
  c ← set_ref c r (clear_bits b BlkDirty);
  Ok (c, writeback).

(** [allocateBlock]: the frame to use, unless it waits for an upgrade, and the
    write-back of the line it held. *)
Definition allocateBlock (ev : Env) (c : Cache) (guest addr : Z) : result (Cache * option nat * list Packet) :=
  k ← findVictim (ca_tags c) guest addr;
  b ← get_blk (ca_tags c) k;
  if blk_isValid b then
    let repl_addr := regenerateBlkAddr (ca_tags c) (cb_tag b) (cb_set b) in
    repl_mshr ← findMatch (ca_mshrs c) (ca_mshrQueue c) (getGuestID b) repl_addr (blk_isSecure b);
    match repl_mshr with
    | Some id =>
        assertb (negb (blk_isWritable b)) ;;
        m ← get_mshr (ca_mshrs c) id;
        assertb (ms_needsExclusive m) ;;
        Ok (c, None, [])
    | None =>
        if blk_isDirty b
        then '(c, wb) ← writebackBlk ev c (TagBlk k); Ok (c, Some k, [wb])
        else Ok (c, Some k, [])
    end
  else Ok (c, Some k, []).

(** [handleFill]: the block that holds the line now and the write-backs. *)
Definition handleFill_blk (ev : Env) (c : Cache) (p : Packet) (blk : option BlkRef)
  : result (Cache * BlkRef * list Packet) :=
  addr ← getAddr p;
  guest ← PKT_TO_GUESTID p;
  match blk with
  | None =>
      assertb (pkt_hasData p) ;;
      '(c, frame, writebacks) ← allocateBlock ev c guest addr;
      '(c, r) ←
        (match frame with
         | None =>
             assertb (negb (blk_isValid (ca_tempBlock c))) ;;
             tag ← getQosTag p;
             Ok (c <| ca_tempBlock := (ca_tempBlock c) <| cb_set := extractSet (ca_tags c) addr |>
                        <| cb_tag := extractTag (ca_tags c) addr |> <| cb_qosTag := swrap 32 tag |> |>, TempBlk)
         | Some k =>
             t ← insertBlock (ca_tags c) (ev_curTick ev) (ev_maxMasters ev) guest p k;
             Ok (c <| ca_tags := t |>, TagBlk k)
         end);
      b ← get_ref c r;
      assertb (negb (blk_isValid b)) ;;
      Ok (c, r, writebacks)
  | Some r =>
      b ← get_ref c r;
      assertb (cb_tag b =? extractTag (ca_tags c) addr) ;;
      assertb (pkt_hasData p || blk_isValid b) ;;
      Ok (c, r, [])
  end.

(** The status of the filled block. *)
Definition fill_status (p : Packet) (is_secure : bool) (b : CacheBlk) : CacheBlk :=
  let b := if is_secure then set_bits b BlkSecure else b in
  let b := set_bits b (Z.lor BlkValid BlkReadable) in
  if negb (sharedAsserted p) then
    let b := set_bits b BlkWritable in
    if memInhibitAsserted p then set_bits b BlkDirty else b
  else b.

Definition handleFill_cache (ev : Env) (c : Cache) (p : Packet) (blk : option BlkRef)
  : result (Cache * BlkRef * list Packet) :=
  is_secure ← isSecure p;
  '(c, r, writebacks) ← handleFill_blk ev c p blk;
  tag ← getQosTag p;
  b ← get_ref c r;
  let b := (fill_status p is_secure b) <| cb_qosTag := swrap 32 tag |>
             <| cb_whenReady := wrap 64 (ev_clockEdge ev + ca_responseLatency c * ev_clockPeriod ev
                                         + pkt_busLastWordDelay p) |> in
  c ← set_ref c r b;
  c ← (if pkt_isRead p then
         bytes ← getPtr p;
         if decide (ca_blkSize c ≤ Z.of_nat (length bytes))
         then set_line c r (take (Z.to_nat (ca_blkSize c)) bytes) else Err OutOfBounds
       else Ok c);
  Ok (c, r, writebacks).

(** [getBusPacket]: the request for the line, or [None] to forward the packet. *)
Definition getBusPacket (c : Cache) (cpu_pkt : Packet) (blk : option BlkRef) (needsExclusive : bool)
  : result (option Packet) :=
  ob ← (match blk with None => Ok None | Some r => b ← get_ref c r; Ok (Some b) end);
  let blkValid := match ob with Some b => blk_isValid b | None => false end in
  if req_isUncacheable (pkt_req cpu_pkt) then Ok None
  else if negb blkValid && (bool_decide (pkt_cmd cpu_pkt = Writeback) || pkt_isUpgrade cpu_pkt) then Ok None
  else
    assertb (pkt_needsResponse cpu_pkt) ;;
    cmd ← (if blkValid then
             assertb (needsExclusive && negb (match ob with Some b => blk_isWritable b | None => false end)) ;;
             Ok (if pkt_isLLSC cpu_pkt then SCUpgradeReq else UpgradeReq)
           else Ok (if needsExclusive then ReadExReq else ReadReq));
    p ← Packet_allocate (Packet_make_blk (pkt_req cpu_pkt) cmd (ca_blkSize c));
    Ok (Some p).

(** [incHitCount] and [incMissCount] assert that the master is known. *)
Definition count_access (ev : Env) (p : Packet) : result unit :=
  assertb (req_masterId (pkt_req p) <? ev_maxMasters ev).

Section MemSide.

(** The memory side: its state, the atomic access with its latency, and the
    functional access. *)
Context {M : Type} (sendAtomic : M → Packet → result (M * Packet * Z))
  (sendFunctional : M → Packet → result M).

(** [writebackVisitor]: a dirty block is written with a functional request. *)
Definition writebackVisitor (c : Cache) (m : M) (k : nat) : result (Cache * M) :=
  b ← get_blk (ca_tags c) k;
  if blk_isDirty b then
    assertb (blk_isValid b) ;;
    let req := (Request_phys (regenerateBlkAddr (ca_tags c) (cb_tag b) (cb_set b)) (ca_blkSize c) 0 funcMasterId)
                 <| req_taskId := cb_task_id b |> in
    line ← get_line c (TagBlk k);
    m ← sendFunctional m ((flag_set (Packet_make req WriteReq) STATIC_DATA) <| pkt_data := Some line |>);
    c ← set_ref c (TagBlk k) (clear_bits b BlkDirty);
    Ok (c, m)
  else Ok (c, m).

Definition invalidateVisitor (ev : Env) (c : Cache) (k : nat) : result Cache :=
  b ← get_blk (ca_tags c) k;
  if blk_isValid b then
    assertb (negb (blk_isDirty b)) ;;
    drop_block ev c (TagBlk k)
  else Ok c.

(** [memWriteback], [memInvalidate] and [isDirty] visit all blocks. *)
Definition memWriteback (c : Cache) (m : M) : result (Cache * M) :=
  foldM (λ '(c, m) k, writebackVisitor c m k) (c, m) (seq 0 (length (lt_blks (ca_tags c)))).
Definition memInvalidate (ev : Env) (c : Cache) : result Cache :=
  foldM (invalidateVisitor ev) c (seq 0 (length (lt_blks (ca_tags c)))).
Definition ca_isDirty (c : Cache) : bool := visit_isDirty (lt_blks (ca_tags c)).

Definition uncacheableFlush (ev : Env) (c : Cache) (m : M) (p : Packet) : result (Cache * M) :=
  let c := if req_isClearLL (pkt_req p) then c <| ca_tags := lru_clearLocks (ca_tags c) |> else c in
  guest ← PKT_TO_GUESTID p;
  addr ← getAddr p;
  is_secure ← isSecure p;
  blk ← findBlock (ca_tags c) guest addr is_secure;
  match blk with
  | None => Ok (c, m)
  | Some k =>
      '(c, m) ← writebackVisitor c m k;
      c ← invalidateVisitor ev c k;
      Ok (c, m)
  end.

(** The result of [access]. *)
Record Access : Type := mkAccess {
  ac_cache : Cache;
  ac_mem : M;
  ac_pkt : Packet;
  ac_blk : option BlkRef;
  ac_lat : Z;
  ac_writebacks : list Packet;
  ac_satisfied : bool
}.

(** The write-back branch of [access]. *)
Definition access_writeback (ev : Env) (c : Cache) (m : M) (p : Packet) (blk : option nat) (lat : Z)
  : result Access :=
  size ← getSize p;
  assertb (ca_blkSize c =? size) ;;
  guest ← PKT_TO_GUESTID p;
  addr ← getAddr p;
  '(c, blk, writebacks) ←
    (match blk with
     | Some k => Ok (c, Some k, [])
     | None =>
         '(c, frame, wbs) ← allocateBlock ev c guest addr;
         match frame with
         | None => Ok (c, None, wbs)
         | Some k =>
             t ← insertBlock (ca_tags c) (ev_curTick ev) (ev_maxMasters ev) guest p k;
             b ← get_blk t k;
             t ← put_blk t k (b <| cb_status := Z.lor BlkValid BlkReadable |>);
             Ok (c <| ca_tags := t |>, Some k, wbs)
         end
     end);
  match blk with
  | None => count_access ev p ;; Ok (mkAccess c m p None lat writebacks false)
  | Some k =>
      bytes ← getPtr p;
      (if decide (ca_blkSize c ≤ Z.of_nat (length bytes)) then Ok tt else Err OutOfBounds) ;;
      c ← set_line c (TagBlk k) (take (Z.to_nat (ca_blkSize c)) bytes);
      tag ← getQosTag p;
      b ← get_blk (ca_tags c) k;
      let b := (set_bits b BlkDirty) <| cb_qosTag := swrap 32 tag |> in
      let b := if isSupplyExclusive p then set_bits b BlkWritable else b in
      c ← set_ref c (TagBlk k) b;
      assertb (negb (pkt_needsResponse p)) ;;
      count_access ev p ;;
      Ok (mkAccess c m p (Some (TagBlk k)) lat writebacks true)
  end.

(** [access]. *)
Definition access (ev : Env) (c : Cache) (m : M) (p : Packet) : result Access :=
  if req_isUncacheable (pkt_req p) then
    '(c, m) ← uncacheableFlush ev c m p;
    Ok (mkAccess c m p None (ca_hitLatency c) [] false)
  else
    guest ← PKT_TO_GUESTID p;
    addr ← getAddr p;
    is_secure ← isSecure p;
    '(t, blk, lat) ← accessBlock (ca_tags c) (ev_curTick ev) (ev_clockPeriod ev) guest addr is_secure;
    let c := c <| ca_tags := t |> in
    hit ← (match blk with
           | None => Ok false
           | Some k => b ← get_blk t k; Ok (if pkt_needsExclusive p then blk_isWritable b else blk_isReadable b)
           end);
    match blk, hit : bool with
    | Some k, true =>
        count_access ev p ;;
        '(c, p) ← satisfyCpuSideRequest ev c p (TagBlk k) false false;
        Ok (mkAccess c m p (Some (TagBlk k)) lat [] true)
    | _, _ =>
        if decide (pkt_cmd p = Writeback) then access_writeback ev c m p blk lat
        else
          count_access ev p ;;
          if bool_decide (blk = None) && pkt_isLLSC p && pkt_isWrite p
          then Ok (mkAccess c m (p <| pkt_req := (pkt_req p) <| req_extraData := 0 |> |>)
                     (TagBlk <$> blk) lat [] true)
          else Ok (mkAccess c m p (TagBlk <$> blk) lat [] false)
    end.

(** [ticksToCycles]. *)
Definition ticksToCycles (ev : Env) (t : Z) : result Z := divCeil t (ev_clockPeriod ev).

(** The miss of an atomic access: what [recvAtomic] does when [access] did not
    satisfy the request. *)
Definition atomic_miss (ev : Env) (a : Access) : result Access :=
  let c := ac_cache a in
  let p := ac_pkt a in
  bus_pkt ← getBusPacket c p (ac_blk a) (pkt_needsExclusive p);
  match bus_pkt with
  | None =>
      '(m, p, t) ← sendAtomic (ac_mem a) p;
      cyc ← ticksToCycles ev t;
      Ok (mkAccess c m p (ac_blk a) (ac_lat a + cyc) (ac_writebacks a) false)
  | Some bus_pkt =>
      '(m, bus_pkt, t) ← sendAtomic (ac_mem a) bus_pkt;
      cyc ← ticksToCycles ev t;
      let lat := ac_lat a + cyc in
      if pkt_needsResponse p then
        assertb (pkt_isResponse bus_pkt) ;;
        if pkt_isError bus_pkt then
          p ← makeResponse p; p ← copyError p bus_pkt;
          Ok (mkAccess c m p (ac_blk a) lat (ac_writebacks a) false)
        else if pkt_isRead bus_pkt || bool_decide (pkt_cmd bus_pkt = UpgradeResp) then
          '(c, r, wbs) ← handleFill_cache ev c bus_pkt (ac_blk a);
          '(c, p) ← satisfyCpuSideRequest ev c p r false false;
          Ok (mkAccess c m p (Some r) lat (ac_writebacks a ++ wbs) false)
        else
          p ← makeResponse p;
          Ok (mkAccess c m p (ac_blk a) lat (ac_writebacks a) false)
      else Ok (mkAccess c m p (ac_blk a) lat (ac_writebacks a) false)
  end.

(** The write-backs at the end of [recvAtomic], in order. *)
Definition send_writebacks (m : M) (wbs : list Packet) : result M :=
  foldM (λ m wb, '(m, _, _) ← sendAtomic m wb; Ok m) m wbs.

(** A request that a cache above answers ([memInhibitAsserted]). *)
Definition atomic_inhibited (ev : Env) (c : Cache) (m : M) (p : Packet) : result (Cache * M * Packet * Z) :=
  assertb (negb (req_isUncacheable (pkt_req p))) ;;
  if pkt_isInvalidate p then
    guest ← PKT_TO_GUESTID p;
    addr ← getAddr p;
    is_secure ← isSecure p;
    blk ← findBlock (ca_tags c) guest addr is_secure;
    c ← (match blk with
         | None => Ok c
         | Some k => b ← get_blk (ca_tags c) k;
                     if blk_isValid b then drop_block ev c (TagBlk k) else Ok c
         end);
    '(m, p, t) ← sendAtomic m p;
    cyc ← ticksToCycles ev t;
    Ok (c, m, p, (ca_hitLatency c + cyc) * ev_clockPeriod ev)
  else Ok (c, m, p, ca_hitLatency c * ev_clockPeriod ev).

(** [recvAtomic]: the packet handed back and the latency in ticks. *)
Definition ca_recvAtomic (ev : Env) (c : Cache) (m : M) (p : Packet) : result (Cache * M * Packet * Z) :=
  if ev_bypassCaches ev then
    '(m, p, t) ← sendAtomic m p; cyc ← ticksToCycles ev t; Ok (c, m, p, cyc)
  else if memInhibitAsserted p then atomic_inhibited ev c m p
  else
    a ← access ev c m p;
    a ← (if ac_satisfied a then Ok a else atomic_miss ev a);
    m ← send_writebacks (ac_mem a) (ac_writebacks a);
    p ← (if pkt_needsResponse (ac_pkt a) then makeResponse (ac_pkt a) else Ok (ac_pkt a));
    Ok (ac_cache a, m, p, ac_lat a * ev_clockPeriod ev).

End MemSide.

(** ** Snoops *)

(** [handleSnoop] in atomic mode; [upper] is the snoop of the caches above. *)
Definition handleSnoop_atomic (ev : Env) (upper : Packet → Packet) (c : Cache) (p : Packet) (blk : option BlkRef)
  : result (Cache * Packet) :=
  assertb (pkt_isRequest p) ;;
  let invalidate := pkt_isInvalidate p in
  let needs_exclusive := pkt_needsExclusive p in
  p ← (if ca_forwardSnoops c then
         let alreadyResponded := memInhibitAsserted p in
         let p' := upper p in
         assertb (implb (negb alreadyResponded && memInhibitAsserted p') (pkt_isResponse p')) ;;
         Ok p'
       else Ok p);
  match blk with
  | None => Ok (c, p)
  | Some r =>
      b ← get_ref c r;
      if negb (blk_isValid b) then Ok (c, p) else
      let respond := blk_isDirty b && pkt_needsResponse p in
      let have_exclusive := blk_isWritable b in
      '(b, p) ← (if pkt_isRead p && negb invalidate then
                   assertb (negb needs_exclusive) ;; Ok (clear_bits b BlkWritable, assertShared p)
                 else Ok (b, p));
      c ← set_ref c r b;
      p ← (if respond then
             assertb (negb (memInhibitAsserted p)) ;;
             let p := assertMemInhibit p in
             let p := if have_exclusive then setSupplyExclusive p else p in
             p ← makeResponse p;
             line ← get_line c r;
             setDataFromBlock p line (ca_blkSize c)
           else Ok p);
      c ← (if invalidate then drop_block ev c r else Ok c);
      Ok (c, p)
  end.

(** [recvAtomicSnoop]: the latency is 0 when the snoop is not for this cache. *)
Definition ca_recvAtomicSnoop (ev : Env) (upper : Packet → Packet) (c : Cache) (p : Packet)
  : result (Cache * Packet * Z) :=
  assertb (negb (ev_bypassCaches ev)) ;;
  guest ← PKT_TO_GUESTID p;
  if ca_isPrivate c && negb (guest =? ca_guestID c) then Ok (c, p, 0)
  else if req_isUncacheable (pkt_req p) || bool_decide (pkt_cmd p = Writeback) then Ok (c, p, 0)
  else
    addr ← getAddr p;
    is_secure ← isSecure p;
    blk ← findBlock (ca_tags c) guest addr is_secure;
    '(c, p) ← handleSnoop_atomic ev upper c p (TagBlk <$> blk);
    Ok (c, p, ca_hitLatency c * ev_clockPeriod ev).

(** ** The next request to issue *)

(** [getNextMSHR]: between a miss and a write that are both ready. *)
Definition ca_getNextMSHR (ev : Env) (c : Cache) : result (option nat) :=
  miss_mshr ← getNextMSHR (ca_mshrs c) (ca_mshrQueue c) (ev_curTick ev);
  write_mshr ← getNextMSHR (ca_mshrs c) (ca_writeBuffer c) (ev_curTick ev);
  match miss_mshr, write_mshr with
  | Some id, None => Ok (Some id)
  | None, Some id => Ok (Some id)
  | None, None => Ok None
  | Some miss, Some write =>
      mm ← get_mshr (ca_mshrs c) miss;
      mw ← get_mshr (ca_mshrs c) write;
      if isFull (ca_writeBuffer c) && (mq_inServiceEntries (ca_writeBuffer c) =? 0) then
        conflict ← findPending (ca_mshrs c) (ca_mshrQueue c) (ms_guest mw) (ms_addr mw) (ms_size mw) (ms_isSecure mw);
        match conflict with
        | Some id => mc ← get_mshr (ca_mshrs c) id;
                     Ok (if ms_order mc <? ms_order mw then Some id else Some write)
        | None => Ok (Some write)
        end
      else
        conflict ← findPending (ca_mshrs c) (ca_writeBuffer c) (ms_guest mm) (ms_addr mm) (ms_size mm) (ms_isSecure mm);
        Ok (Some (match conflict with Some id => id | None => miss end))
  end.
Definition ca_nextMSHRReadyTime (c : Cache) : result Z :=
  a ← nextMSHRReadyTime (ca_mshrs c) (ca_mshrQueue c);
  b ← nextMSHRReadyTime (ca_mshrs c) (ca_writeBuffer c);
  Ok (Z.min a b).
