(* ===== verification/CacheFrame.v ===== *)
(** * What the data path of the cache does not touch

    The functions of [CacheCtrl] that work on blocks, bytes and tags neither
    read nor write the miss queues and their registers, except for the search
    of [allocateBlock] for a register of the line to evict.  Replacing the
    queues commutes with them. *)

From S2P Require Import Prelude BaseLib Packet CacheBlk CacheSet LruTags Mshr MshrQueue CacheCtrl.
Local Open Scope Z_scope.

(** A cache with other registers and queues. *)
Definition with_queues (h : heap) (q w : MSHRQueue) (c : Cache) : Cache :=
  c <| ca_mshrs := h |> <| ca_mshrQueue := q |> <| ca_writeBuffer := w |>.

(** A function over a successful result. *)
Definition rmap {A B} (f : A → B) (m : result A) : result B := x ← m; Ok (f x).

Lemma rmap_bind {A B C} (f : A → B) (m : result A) (k : B → result C) : rmap f m ≫= k = m ≫= λ x, k (f x).
Proof. by destruct m. Qed.
Lemma rmap_Ok {A B} (f : A → B) (m : result A) y : rmap f m = Ok y → ∃ x, m = Ok x ∧ y = f x.
Proof. destruct m; intros [= <-]. by eexists. Qed.

Section Frame.

Context (h : heap) (q w : MSHRQueue).
Local Abbreviation wq := (with_queues h q w).

(** Opens the first result of a bind. *)
Ltac open_bind :=
  cbn [mbind result_bind];
  match goal with
  | |- ((?x ≫= _) ≫= _) = _ => destruct x; [cbn [mbind result_bind]|done]
  | |- (?x ≫= _) = _ => destruct x; [cbn [mbind result_bind]|done]
  end.

Lemma frame_get_ref c r : get_ref (wq c) r = get_ref c r.
Proof. by destruct r. Qed.
Lemma frame_set_ref c r b : set_ref (wq c) r b = rmap wq (set_ref c r b).
Proof. destruct r; [|done]. unfold set_ref, rmap. cbn. by destruct (put_blk (ca_tags c) k b). Qed.
Lemma frame_get_line c r : get_line (wq c) r = get_line c r.
Proof. by destruct r. Qed.
Lemma frame_set_line c r line : set_line (wq c) r line = rmap wq (set_line c r line).
Proof.
  destruct r; [|done]. unfold set_line, rmap. cbn. destruct (get_blk (ca_tags c) k) as [b|]; [|done]. cbn.
  destruct (cb_data b); [|done]. by case_decide.
Qed.
Lemma frame_drop_block ev c r : drop_block ev (wq c) r = rmap wq (drop_block ev c r).
Proof.
  unfold drop_block, rmap. destruct r; cbn [mbind result_bind].
  - change (ca_tags (wq c)) with (ca_tags c). destruct (lru_invalidate _ _ _ _) as [t|]; [|done]. cbn [mbind result_bind].
    change ((wq c) <| ca_tags := t |>) with (wq (c <| ca_tags := t |>)). rewrite frame_get_ref.
    destruct (get_ref _ _); [|done]. cbn [mbind result_bind]. apply frame_set_ref.
  - done.
Qed.

Lemma frame_satisfy ev c p r dr pd :
  satisfyCpuSideRequest ev (wq c) p r dr pd = rmap (λ x, (wq x.1, x.2)) (satisfyCpuSideRequest ev c p r dr pd).
Proof.
  unfold satisfyCpuSideRequest, rmap. rewrite frame_get_ref, frame_get_line.
  destruct (get_ref c r) as [b|]; [|done]. cbn [mbind result_bind]. destruct (get_line c r) as [line|]; [|done]. cbn [mbind result_bind].
  change (satisfy_line (wq c)) with (satisfy_line c). destruct (satisfy_line c _ b line p dr pd) as [[[[b' line'] p'] drop]|]; [|done].
  cbn [mbind result_bind]. rewrite frame_set_ref, rmap_bind. destruct (set_ref c r b') as [c1|]; [|done]. cbn [mbind result_bind].
  rewrite frame_set_line, rmap_bind. destruct (set_line c1 r line') as [c2|]; [|done]. cbn [mbind result_bind].
  destruct drop; [|done]. rewrite frame_drop_block, rmap_bind. by destruct (drop_block ev c2 r).
Qed.

Lemma frame_writebackBlk ev c r : writebackBlk ev (wq c) r = rmap (λ x, (wq x.1, x.2)) (writebackBlk ev c r).
Proof.
  unfold writebackBlk, rmap. rewrite frame_get_ref. destruct (get_ref c r) as [b|]; [|done]. cbn [mbind result_bind].
  open_bind. change (ca_tags (wq c)) with (ca_tags c). change (ca_blkSize (wq c)) with (ca_blkSize c).
  destruct (Packet_allocate _) as [p|]; [|done]. cbn [mbind result_bind]. rewrite frame_get_line.
  destruct (get_line c r) as [line|]; [|done]. cbn [mbind result_bind]. destruct (setData p line 0) as [p'|]; [|done]. cbn [mbind result_bind].
  rewrite frame_set_ref, rmap_bind. by destruct (set_ref c r _).
Qed.

(** The registers found for the lines of valid blocks. *)
Definition same_matches (c : Cache) : Prop :=
  ∀ k b, lt_blks (ca_tags c) !! k = Some b → blk_isValid b = true →
    findMatch h q (getGuestID b) (regenerateBlkAddr (ca_tags c) (cb_tag b) (cb_set b)) (blk_isSecure b) =
    findMatch (ca_mshrs c) (ca_mshrQueue c) (getGuestID b) (regenerateBlkAddr (ca_tags c) (cb_tag b) (cb_set b)) (blk_isSecure b) ∧
    (∀ id, findMatch (ca_mshrs c) (ca_mshrQueue c) (getGuestID b) (regenerateBlkAddr (ca_tags c) (cb_tag b) (cb_set b)) (blk_isSecure b)
           = Ok (Some id) → get_mshr h id = get_mshr (ca_mshrs c) id).

Lemma frame_allocateBlock ev c guest addr :
  same_matches c → allocateBlock ev (wq c) guest addr = rmap (λ x, (wq x.1.1, x.1.2, x.2)) (allocateBlock ev c guest addr).
Proof.
  intros Hm. unfold allocateBlock, rmap. change (ca_tags (wq c)) with (ca_tags c).
  destruct (findVictim (ca_tags c) guest addr) as [k|]; [|done]. cbn [mbind result_bind].
  destruct (get_blk (ca_tags c) k) as [b|] eqn:Hb; [|done]. cbn [mbind result_bind]. destruct (blk_isValid b) eqn:Hv; [|done].
  apply get_blk_Ok in Hb. destruct (Hm k b Hb Hv) as [H1 H2].
  change (ca_mshrs (wq c)) with h. change (ca_mshrQueue (wq c)) with q. rewrite H1.
  destruct (findMatch (ca_mshrs c) _ _ _ _) as [[id|]|] eqn:Hf; cbn [mbind result_bind]; [|..|done].
  - rewrite (H2 id) by done. open_bind.
    destruct (get_mshr (ca_mshrs c) id); [|done]. by open_bind.
  - destruct (blk_isDirty b); [|done]. rewrite frame_writebackBlk, rmap_bind. by destruct (writebackBlk ev c (TagBlk k)) as [[c' wb]|].
Qed.
Lemma frame_handleFill_blk ev c p blk :
  same_matches c → handleFill_blk ev (wq c) p blk = rmap (λ x, (wq x.1.1, x.1.2, x.2)) (handleFill_blk ev c p blk).
Proof.
  intros Hm. unfold handleFill_blk, rmap. destruct (getAddr p) as [addr|]; [|done]. cbn [mbind result_bind].
  destruct (PKT_TO_GUESTID p) as [guest|]; [|done]. cbn [mbind result_bind]. destruct blk as [r|].
  - rewrite frame_get_ref. destruct (get_ref c r); [|done]. cbn [mbind result_bind]. change (ca_tags (wq c)) with (ca_tags c).
    open_bind. by open_bind.
  - open_bind. rewrite frame_allocateBlock, rmap_bind by done.
    destruct (allocateBlock ev c guest addr) as [[[c1 frame] wbs]|]; [|done]. cbn [mbind result_bind fst snd]. destruct frame as [k|].
    + change (ca_tags (wq c1)) with (ca_tags c1). destruct (insertBlock _ _ _ _ _ _) as [t|]; [|done]. cbn [mbind result_bind].
      change ((wq c1) <| ca_tags := t |>) with (wq (c1 <| ca_tags := t |>)). rewrite frame_get_ref.
      destruct (get_ref _ _); [|done]. by open_bind.
    + change (ca_tempBlock (wq c1)) with (ca_tempBlock c1). change (ca_tags (wq c1)) with (ca_tags c1).
      open_bind. destruct (getQosTag p) as [tag|]; [|done]. cbn [mbind result_bind].
      match goal with |- context [setf ca_tempBlock ?f (wq c1)] => change (setf ca_tempBlock f (wq c1)) with (wq (setf ca_tempBlock f c1)) end.
      rewrite frame_get_ref. destruct (get_ref _ _); [|done]. by open_bind.
Qed.

Lemma frame_handleFill_cache ev c p blk :
  same_matches c → handleFill_cache ev (wq c) p blk = rmap (λ x, (wq x.1.1, x.1.2, x.2)) (handleFill_cache ev c p blk).
Proof.
  intros Hm. unfold handleFill_cache, rmap. destruct (isSecure p) as [sec|]; [|done]. cbn [mbind result_bind].
  rewrite frame_handleFill_blk, rmap_bind by done. destruct (handleFill_blk ev c p blk) as [[[c1 r] wbs]|]; [|done]. cbn [mbind result_bind fst snd].
  destruct (getQosTag p) as [tag|]; [|done]. cbn [mbind result_bind]. rewrite frame_get_ref. destruct (get_ref c1 r) as [b|]; [|done].
  cbn [mbind result_bind]. change (ca_responseLatency (wq c1)) with (ca_responseLatency c1). rewrite frame_set_ref, rmap_bind.
  destruct (set_ref c1 r _) as [c2|]; [|done]. cbn [mbind result_bind]. change (ca_blkSize (wq c2)) with (ca_blkSize c2).
  destruct (pkt_isRead p); [|done]. destruct (getPtr p) as [bytes|]; [|done]. cbn [mbind result_bind]. case_decide; [|done].
  rewrite frame_set_line, rmap_bind. by destruct (set_line c2 r _).
Qed.

Lemma frame_getBusPacket c p blk ne : getBusPacket (wq c) p blk ne = getBusPacket c p blk ne.
Proof. unfold getBusPacket. destruct blk as [r|]; [by rewrite frame_get_ref|done]. Qed.

Section Memory.

Context {M : Type} (sendFunctional : M → Packet → result M).

Lemma frame_writebackVisitor c m k :
  writebackVisitor sendFunctional (wq c) m k = rmap (λ x, (wq x.1, x.2)) (writebackVisitor sendFunctional c m k).
Proof.
  unfold writebackVisitor, rmap. change (ca_tags (wq c)) with (ca_tags c). destruct (get_blk (ca_tags c) k) as [b|]; [|done]. cbn [mbind result_bind].
  destruct (blk_isDirty b); [|done]. open_bind. rewrite frame_get_line.
  destruct (get_line c (TagBlk k)) as [line|]; [|done]. cbn [mbind result_bind]. change (ca_blkSize (wq c)) with (ca_blkSize c).
  destruct (sendFunctional m _) as [m'|]; [|done]. cbn [mbind result_bind]. rewrite frame_set_ref, rmap_bind. by destruct (set_ref c _ _).
Qed.

Lemma frame_invalidateVisitor ev c k : invalidateVisitor ev (wq c) k = rmap wq (invalidateVisitor ev c k).
Proof.
  unfold invalidateVisitor, rmap. change (ca_tags (wq c)) with (ca_tags c). destruct (get_blk (ca_tags c) k) as [b|]; [|done]. cbn [mbind result_bind].
  destruct (blk_isValid b); [|done]. open_bind. apply frame_drop_block.
Qed.

Lemma frame_uncacheableFlush ev c m p :
  uncacheableFlush sendFunctional ev (wq c) m p = rmap (λ x, (wq x.1, x.2)) (uncacheableFlush sendFunctional ev c m p).
Proof.
  unfold uncacheableFlush, rmap. destruct (PKT_TO_GUESTID p) as [g|]; [|done]. cbn [mbind result_bind].
  destruct (getAddr p) as [a|]; [|done]. cbn [mbind result_bind]. destruct (isSecure p) as [sec|]; [|done]. cbn [mbind result_bind].
  set (c1 := if req_isClearLL (pkt_req p) then c <| ca_tags := lru_clearLocks (ca_tags c) |> else c).
  assert ((if req_isClearLL (pkt_req p) then (wq c) <| ca_tags := lru_clearLocks (ca_tags (wq c)) |> else wq c) = wq c1) as ->
    by (subst c1; by destruct (req_isClearLL _)).
  change (ca_tags (wq c1)) with (ca_tags c1). destruct (findBlock (ca_tags c1) g a sec) as [[k|]|]; cbn [mbind result_bind]; [|done..].
  rewrite frame_writebackVisitor, rmap_bind. destruct (writebackVisitor sendFunctional c1 m k) as [[c2 m2]|]; [|done]. cbn [mbind result_bind fst snd].
  rewrite frame_invalidateVisitor, rmap_bind. by destruct (invalidateVisitor ev c2 k).
Qed.

Definition wq_access (a : Access (M := M)) : Access :=
  mkAccess (wq (ac_cache a)) (ac_mem a) (ac_pkt a) (ac_blk a) (ac_lat a) (ac_writebacks a) (ac_satisfied a).

Lemma frame_access_writeback ev c m p blk lat :
  same_matches c → access_writeback ev (wq c) m p blk lat = rmap wq_access (access_writeback ev c m p blk lat).
Proof.
  intros Hm. unfold access_writeback, rmap. destruct (getSize p) as [size|]; [|done]. cbn [mbind result_bind].
  change (ca_blkSize (wq c)) with (ca_blkSize c). open_bind.
  destruct (PKT_TO_GUESTID p) as [g|]; [|done]. cbn [mbind result_bind]. destruct (getAddr p) as [addr|]; [|done]. cbn [mbind result_bind].
  match goal with |- (?x ≫= ?f) = (?y ≫= ?g) ≫= _ => assert (x = rmap (λ z, (wq z.1.1, z.1.2, z.2)) y) as -> end.
  { destruct blk as [k|]; [done|]. rewrite frame_allocateBlock by done. rewrite rmap_bind. unfold rmap.
    destruct (allocateBlock ev c g addr) as [[[c1 frame] wbs]|]; [|done]. cbn [mbind result_bind fst snd]. destruct frame as [k|]; [|done].
    change (ca_tags (wq c1)) with (ca_tags c1). destruct (insertBlock _ _ _ _ _ _) as [t|]; [|done]. cbn [mbind result_bind].
    destruct (get_blk t k) as [b|]; [|done]. cbn [mbind result_bind]. by destruct (put_blk t k _). }
  rewrite rmap_bind. match goal with |- (?y ≫= _) = _ => destruct y as [[[c1 frame] wbs]|]; [|done] end.
  cbn [mbind result_bind fst snd]. destruct frame as [k|]; [|by destruct (count_access ev p)].
  destruct (getPtr p) as [bytes|]; [|done]. cbn [mbind result_bind]. change (ca_blkSize (wq c1)) with (ca_blkSize c1).
  case_decide; [|done]. cbn [mbind result_bind]. rewrite frame_set_line, rmap_bind. destruct (set_line c1 _ _) as [c2|]; [|done]. cbn [mbind result_bind].
  destruct (getQosTag p) as [tag|]; [|done]. cbn [mbind result_bind]. change (ca_tags (wq c2)) with (ca_tags c2).
  destruct (get_blk (ca_tags c2) k) as [b|]; [|done]. cbn [mbind result_bind]. rewrite frame_set_ref, rmap_bind.
  destruct (set_ref c2 _ _) as [c3|]; [|done]. cbn [mbind result_bind]. open_bind.
  by destruct (count_access ev p).
Qed.

Lemma frame_access ev c m p :
  (∀ t blk lat guest addr sec, accessBlock (ca_tags c) (ev_curTick ev) (ev_clockPeriod ev) guest addr sec = Ok (t, blk, lat) →
     same_matches (c <| ca_tags := t |>)) →
  access sendFunctional ev (wq c) m p = rmap wq_access (access sendFunctional ev c m p).
Proof.
  intros Hm. unfold access, rmap. destruct (req_isUncacheable (pkt_req p)).
  { rewrite frame_uncacheableFlush, rmap_bind. by destruct (uncacheableFlush _ _ _ _ _) as [[c1 m1]|]. }
  destruct (PKT_TO_GUESTID p) as [g|]; [|done]. cbn [mbind result_bind]. destruct (getAddr p) as [addr|]; [|done]. cbn [mbind result_bind].
  destruct (isSecure p) as [sec|]; [|done]. cbn [mbind result_bind]. change (ca_tags (wq c)) with (ca_tags c).
  destruct (accessBlock _ _ _ _ _ _) as [[[t blk] lat]|] eqn:Ha; [|done]. cbn [mbind result_bind].
  change ((wq c) <| ca_tags := t |>) with (wq (c <| ca_tags := t |>)). set (c1 := c <| ca_tags := t |>).
  specialize (Hm _ _ _ _ _ _ Ha). fold c1 in Hm.
  match goal with |- (?y ≫= _) = _ => destruct y as [hit|]; [|done] end. cbn [mbind result_bind].
  destruct blk as [k|]; [destruct hit|].
  - open_bind. rewrite frame_satisfy, rmap_bind. by destruct (satisfyCpuSideRequest _ _ _ _ _ _) as [[c2 p2]|].
  - case_decide; [by apply frame_access_writeback|]. open_bind. by destruct (bool_decide _ && _ && _).
  - case_decide; [by apply frame_access_writeback|]. open_bind. by destruct (bool_decide _ && _ && _).
Qed.

End Memory.

End Frame.

(** ** The queues stay *)

(** Two caches have the same registers and queues. *)
Definition same_queues (c c' : Cache) : Prop :=
  ca_mshrs c' = ca_mshrs c ∧ ca_mshrQueue c' = ca_mshrQueue c ∧ ca_writeBuffer c' = ca_writeBuffer c.
#[export] Instance same_queues_preorder : PreOrder same_queues.
Proof.
  split; [by intros c|]. intros c1 c2 c3 (A1 & A2 & A3) (B1 & B2 & B3). split; [|split]; congruence.
Qed.

Abbreviation own_queues c := (with_queues (ca_mshrs c) (ca_mshrQueue c) (ca_writeBuffer c)).

Lemma own_queues_id c : own_queues c c = c.
Proof. by destruct c. Qed.
Lemma own_queues_same c c' : same_queues c (own_queues c c').
Proof. by destruct c'. Qed.
Lemma own_matches c c' : same_queues c c' → same_matches (ca_mshrs c) (ca_mshrQueue c) c'.
Proof. intros (E1 & E2 & _) k b _ _. by rewrite E1, E2. Qed.

Lemma set_ref_queues c r b c' : set_ref c r b = Ok c' → same_queues c c'.
Proof.
  intros H. pose proof (frame_set_ref (ca_mshrs c) (ca_mshrQueue c) (ca_writeBuffer c) c r b) as F. rewrite own_queues_id, H in F.
  symmetry in F. apply rmap_Ok in F as (x & [= ->] & ->). apply own_queues_same.
Qed.
Lemma drop_block_queues ev c r c' : drop_block ev c r = Ok c' → same_queues c c'.
Proof.
  intros H. pose proof (frame_drop_block (ca_mshrs c) (ca_mshrQueue c) (ca_writeBuffer c) ev c r) as F. rewrite own_queues_id, H in F.
  symmetry in F. apply rmap_Ok in F as (x & [= ->] & ->). apply own_queues_same.
Qed.
Lemma satisfy_queues ev c p r dr pd c' p' : satisfyCpuSideRequest ev c p r dr pd = Ok (c', p') → same_queues c c'.
Proof.
  intros H. pose proof (frame_satisfy (ca_mshrs c) (ca_mshrQueue c) (ca_writeBuffer c) ev c p r dr pd) as F. rewrite own_queues_id, H in F.
  symmetry in F. apply rmap_Ok in F as (x & [= <-] & [= ->]). apply own_queues_same.
Qed.
Lemma writebackBlk_queues ev c r c' p : writebackBlk ev c r = Ok (c', p) → same_queues c c'.
Proof.
  intros H. pose proof (frame_writebackBlk (ca_mshrs c) (ca_mshrQueue c) (ca_writeBuffer c) ev c r) as F. rewrite own_queues_id, H in F.
  symmetry in F. apply rmap_Ok in F as (x & [= <-] & [= ->]). apply own_queues_same.
Qed.
Lemma handleFill_queues ev c p blk c' r wbs : handleFill_cache ev c p blk = Ok (c', r, wbs) → same_queues c c'.
Proof.
  intros H. pose proof (frame_handleFill_cache (ca_mshrs c) (ca_mshrQueue c) (ca_writeBuffer c) ev c p blk (own_matches c c ltac:(reflexivity))) as F.
  rewrite own_queues_id, H in F. symmetry in F. apply rmap_Ok in F as (x & [= <-] & [= ->]). apply own_queues_same.
Qed.
Lemma flush_queues {M} (sf : M → Packet → result M) ev c m p c' m' : uncacheableFlush sf ev c m p = Ok (c', m') → same_queues c c'.
Proof.
  intros H. pose proof (frame_uncacheableFlush (ca_mshrs c) (ca_mshrQueue c) (ca_writeBuffer c) sf ev c m p) as F.
  rewrite own_queues_id, H in F. symmetry in F. apply rmap_Ok in F as (x & [= <-] & [= ->]). apply own_queues_same.
Qed.
Lemma access_queues {M} (sf : M → Packet → result M) ev c m p a : access sf ev c m p = Ok a → same_queues c (ac_cache a).
Proof.
  intros H. pose proof (frame_access (ca_mshrs c) (ca_mshrQueue c) (ca_writeBuffer c) sf ev c m p) as F.
  rewrite own_queues_id, H in F. specialize (F ltac:(intros; by apply own_matches)).
  symmetry in F. apply rmap_Ok in F as (x & [= <-] & Hx). destruct a. cbn in *. injection Hx as Hx. rewrite Hx. apply own_queues_same.
Qed.
