(* ===== verification/CacheAtomic.v ===== *)
(** * The cache is transparent

    A top-level cache of [CacheCtrl] in atomic mode over a memory that keeps its
    interface: to the processors of every domain, cache and memory together
    behave as one memory per domain and security space. *)

From S2P Require Import Prelude BaseLib Packet CacheBlk CacheSet LruTags Mshr MshrQueue CacheCtrl.
Local Open Scope Z_scope.

(** ** The memory below *)

(** A memory that reads lines, exclusively or not, without sharing them, and
    stores write-backs; [byte_at] is its content per domain and security space. *)
Class MainMemory {M : Type} (sendAtomic : M → Packet → result (M * Packet * Z))
    (byte_at : M → Z → bool → Z → Z) : Prop := {
  mm_read m p :
    pkt_wf p → pkt_cmd p = ReadReq ∨ pkt_cmd p = ReadExReq → pkt_senderState p = [] →
    pkt_flags p = 0x6B00 →
    ∃ p' t, sendAtomic m p = Ok (m, p', t) ∧ 
      pkt_cmd p' = responseCommand (pkt_cmd p) ∧ pkt_flags p' = pkt_flags p ∧
      pkt_req p' = pkt_req p ∧ pkt_addr p' = pkt_addr p ∧ pkt_size p' = pkt_size p ∧
      pkt_isSecure p' = pkt_isSecure p ∧ pkt_qosTag p' = pkt_qosTag p ∧
      pkt_data p' = Some (byte_at m (guest_of p) (pkt_isSecure p) <$>
                            addr_range (pkt_addr p) (Z.to_nat (pkt_size p)));
  mm_writeback m p data :
    pkt_wf p → pkt_cmd p = Writeback → flag_isSet (pkt_flags p) (Z.lor STATIC_DATA DYNAMIC_DATA) = true →
    pkt_data p = Some data → Z.of_nat (length data) = pkt_size p →
    ∃ m' p' t, sendAtomic m p = Ok (m', p', t) ∧
      ∀ g s a, byte_at m' g s a =
        if decide (g = guest_of p ∧ s = pkt_isSecure p ∧ pkt_addr p ≤ a < pkt_addr p + pkt_size p)
        then data !!! Z.to_nat (a - pkt_addr p) else byte_at m g s a
}.

(** ** Content and invariant *)

Definition block_line (c : Cache) (k : nat) : list Z :=
  slice (ca_data c) (Z.to_nat (ca_blkSize c * Z.of_nat k)) (Z.to_nat (ca_blkSize c)).

Section Content.

Context {M : Type} (byte_at : M → Z → bool → Z → Z) (ev : Env).

(** The byte a domain sees at an address: from the block that holds its line,
    or from memory. *)
Definition view (c : Cache) (m : M) (g : Z) (s : bool) (a : Z) : Z :=
  match findBlock (ca_tags c) g a s with
  | Ok (Some k) => block_line c k !!! Z.to_nat (a mod ca_blkSize c)
  | _ => byte_at m g s a
  end.

(** What is known of a block: its bytes have their place, an invalid block has
    no status, a valid one is readable, writable and has a 64-bit address. *)
Definition block_ok (t : LRU) (k : nat) (b : CacheBlk) : Prop :=
  cb_data b = Some (lt_blkSize t * Z.of_nat k) ∧
  (blk_isValid b = false → cb_status b = 0) ∧
  (blk_isValid b = true → blk_isWritable b = true ∧ blk_isReadable b = true ∧
     ∃ a, in_width 64 a ∧ cb_tag b = extractTag t a ∧ (k / Z.to_nat (lt_assoc t))%nat = Z.to_nat (extractSet t a)).

Record cache_inv (c : Cache) (m : M) : Prop := {
  ci_wf : lru_wf (ca_tags c);
  ci_unique : lru_unique (ca_tags c);
  ci_masters : masters_ok (ev_maxMasters ev) (ca_tags c);
  ci_assoc : lt_assoc (ca_tags c) ≤ 31;
  ci_blkSize : ca_blkSize c = lt_blkSize (ca_tags c);
  ci_top : ca_isTopLevel c = true;
  ci_idle : mq_allocatedList (ca_mshrQueue c) = [];
  ci_data : Z.of_nat (length (ca_data c)) = ca_blkSize c * Z.of_nat (length (lt_blks (ca_tags c)));
  ci_blk : ∀ k b, lt_blks (ca_tags c) !! k = Some b → block_ok (ca_tags c) k b;
  ci_clean : ∀ k b g s a, lt_blks (ca_tags c) !! k = Some b → blk_isDirty b = false →
    in_width 64 a → holds (ca_tags c) g a s k →
    block_line c k !!! Z.to_nat (a mod ca_blkSize c) = byte_at m g s a
}.

Lemma view_held c m g s a k :
  cache_inv c m → holds (ca_tags c) g a s k →
  view c m g s a = block_line c k !!! Z.to_nat (a mod ca_blkSize c).
Proof.
  intros I Hk. unfold view. destruct (findBlock_holds (ca_tags c) g a s (ci_wf _ _ I) (ci_unique _ _ I)) as (o & -> & Ho).
  by rewrite (proj2 (Ho k) Hk).
Qed.

Lemma view_absent c m g s a :
  lru_wf (ca_tags c) → (∀ k, ¬ holds (ca_tags c) g a s k) → view c m g s a = byte_at m g s a.
Proof.
  intros W Hn. unfold view. destruct (findBlock_total (ca_tags c) g a s W) as [[k|] Hf]; rewrite Hf; [|done].
  apply findBlock_Some in Hf; [|done]. by destruct (Hn k).
Qed.

(** Two lines in one block are one line. *)
Lemma holds_same t g a s g' a' s' k :
  lru_wf t → holds t g a s k → holds t g' a' s' k →
  g' = g ∧ s' = s ∧ blkAlign t a' = blkAlign t a.
Proof.
  intros W (H1 & b & Hb & Hm) (H2 & b' & Hb' & Hm'). rewrite Hb in Hb'. injection Hb' as <-.
  apply blk_matches_iff in Hm as (E1 & _ & E2 & E3). apply blk_matches_iff in Hm' as (E1' & _ & E2' & E3').
  split; [congruence|]. split; [congruence|]. apply same_block; [done|].
  pose proof (extractSet_range t a W). pose proof (extractSet_range t a' W).
  split; [rewrite H1 in H2; lia|congruence].
Qed.

Lemma block_line_splice c c' k j line :
  ca_blkSize c' = ca_blkSize c → 0 < ca_blkSize c →
  ca_data c' = splice (ca_data c) (Z.to_nat (ca_blkSize c * Z.of_nat k)) line →
  Z.of_nat (length line) = ca_blkSize c → (k < length (lt_blks (ca_tags c)))%nat →
  Z.of_nat (length (ca_data c)) = ca_blkSize c * Z.of_nat (length (lt_blks (ca_tags c))) →
  block_line c' j = if decide (j = k) then line else block_line c j.
Proof.
  intros Hbs Hpos Hd Hl Hk Hlen. unfold block_line. rewrite Hbs, Hd. case_decide as Hj.
  - subst j. replace (Z.to_nat (ca_blkSize c)) with (length line) by lia. apply slice_splice_eq. nia.
  - rewrite slice_splice_ne; [done|nia|]. destruct (decide (j < k)%nat); [left|right]; nia.
Qed.

(** One block of the cache takes a new line, or a new content of its line.  The
    line it held before, if it was another one, is in memory afterwards, and
    memory changed nowhere else. *)
Record replaced (c : Cache) (m : M) (c' : Cache) (m' : M) (k : nat) (b b' : CacheBlk) (line' : list Z)
    (g a : Z) (s : bool) : Prop := {
  rp_old : lt_blks (ca_tags c) !! k = Some b;
  rp_shape : same_shape (ca_tags c) (ca_tags c');
  rp_wf : lru_wf (ca_tags c');
  rp_blks : lt_blks (ca_tags c') = <[k := b']> (lt_blks (ca_tags c));
  rp_blkSize : ca_blkSize c' = ca_blkSize c;
  rp_data : ca_data c' = splice (ca_data c) (Z.to_nat (ca_blkSize c * Z.of_nat k)) line';
  rp_len : Z.of_nat (length line') = ca_blkSize c;
  rp_set : (k / Z.to_nat (lt_assoc (ca_tags c)))%nat = Z.to_nat (extractSet (ca_tags c) a);
  rp_line : blk_matches b' g (extractTag (ca_tags c) a) s = true;
  rp_target : holds (ca_tags c) g a s k ∨ ∀ j, ¬ holds (ca_tags c) g a s j;
  rp_evicted : ∀ g0 a0 s0, in_width 64 a0 → holds (ca_tags c) g0 a0 s0 k → ¬ holds (ca_tags c) g a s k →
    byte_at m' g0 s0 a0 = block_line c k !!! Z.to_nat (a0 mod ca_blkSize c);
  rp_others : ∀ g0 a0 s0, in_width 64 a0 →
    ¬ holds (ca_tags c) g0 a0 s0 k ∨ holds (ca_tags c) g a s k → byte_at m' g0 s0 a0 = byte_at m g0 s0 a0
}.

(** The lines the cache holds afterwards. *)
Lemma replaced_holds c m c' m' k b b' line' g a s g0 a0 s0 j :
  cache_inv c m → replaced c m c' m' k b b' line' g a s →
  holds (ca_tags c') g0 a0 s0 j ↔
    if decide (j = k) then g0 = g ∧ s0 = s ∧ blkAlign (ca_tags c) a0 = blkAlign (ca_tags c) a
    else holds (ca_tags c) g0 a0 s0 j.
Proof.
  intros I R. pose proof (ci_wf _ _ I) as W. destruct R as [Ho Hsh _ Hb _ _ _ Hset Hm _ _ _].
  apply blk_matches_iff in Hm as (E1 & E2 & E3 & E4).
  rewrite (holds_replaced _ _ k b') by (done || by eapply lookup_lt_Some). case_decide; [|done].
  rewrite blk_matches_iff, same_block, E1, E2, E3, E4, Hset by done.
  pose proof (extractSet_range (ca_tags c) a0 W). pose proof (extractSet_range (ca_tags c) a W).
  split; [intros (?&?&_&?&?)|intros (->&->&->&->)]; naive_solver lia.
Qed.

(** A line other than the target that some block holds is not the target. *)
Lemma target_absent c m c' m' k b b' line' g a s g0 a0 s0 j :
  cache_inv c m → replaced c m c' m' k b b' line' g a s → j ≠ k →
  g0 = g ∧ s0 = s ∧ blkAlign (ca_tags c) a0 = blkAlign (ca_tags c) a → ¬ holds (ca_tags c) g0 a0 s0 j.
Proof.
  intros I R Hj (-> & -> & Ha) Hh. apply (holds_block _ _ _ a) in Hh; [|apply I|done].
  destruct (rp_target _ _ _ _ _ _ _ _ _ _ _ R) as [Hk|Hn]; [|by eapply Hn].
  apply Hj. by eapply (ci_unique _ _ I).
Qed.

Lemma replaced_unique c m c' m' k b b' line' g a s :
  cache_inv c m → replaced c m c' m' k b b' line' g a s → lru_unique (ca_tags c').
Proof.
  intros I R g0 a0 s0 j j'. rewrite !(replaced_holds c m c' m' k b b' line' g a s) by done.
  repeat case_decide; subst; [done|..|apply (ci_unique _ _ I)]; intros H1 H2; exfalso.
  - by eapply (target_absent c m c' m' k b b' line' g a s g0 a0 s0 j').
  - by eapply (target_absent c m c' m' k b b' line' g a s g0 a0 s0 j).
Qed.

(** The view after the replacement: the new line, and everything else as before. *)
Lemma replaced_view c m c' m' k b b' line' g a s g0 a0 s0 :
  cache_inv c m → replaced c m c' m' k b b' line' g a s → in_width 64 a0 →
  view c' m' g0 s0 a0 =
    if decide (g0 = g ∧ s0 = s ∧ blkAlign (ca_tags c) a0 = blkAlign (ca_tags c) a)
    then line' !!! Z.to_nat (a0 mod ca_blkSize c) else view c m g0 s0 a0.
Proof.
  intros I R Ha0. pose proof R as [Hold Hsh Hwf Hblks Hbs Hd Hlen Hset Hm Htg Hev Hoth].
  pose proof (replaced_unique _ _ _ _ _ _ _ _ _ _ _ I R) as Hu.
  pose proof (ci_wf _ _ I) as [(bb & ss & G) _].
  assert (0 < ca_blkSize c) by (rewrite (ci_blkSize _ _ I), (geo_blkSize _ _ _ G); destruct G; lia).
  assert (∀ j, block_line c' j = if decide (j = k) then line' else block_line c j) as Hl.
  { intros j. apply block_line_splice; try done; [by eapply lookup_lt_Some|apply (ci_data _ _ I)]. }
  destruct (findBlock_holds (ca_tags c') g0 a0 s0 Hwf Hu) as (o & Hf & Ho).
  setoid_rewrite (replaced_holds c m c' m' k b b' line' g a s g0 a0 s0) in Ho; [|done..].
  unfold view at 1. rewrite Hf, Hbs. case_decide as Ht.
  - rewrite (proj2 (Ho k)) by (by rewrite decide_True). by rewrite Hl, decide_True.
  - destruct o as [j|].
    + specialize (proj1 (Ho j) eq_refl). case_decide; [done|]. intros Hj.
      rewrite Hl, decide_False by done. symmetry. by apply view_held.
    + assert (∀ j, j ≠ k → ¬ holds (ca_tags c) g0 a0 s0 j) as Hn.
      { intros j Hj Hh. pose proof (proj2 (Ho j)) as Hx. rewrite decide_False in Hx by done. by specialize (Hx Hh). }
      destruct (decide (findBlock (ca_tags c) g0 a0 s0 = Ok (Some k))) as [Hk|Hk].
      * apply findBlock_Some in Hk; [|apply I]. rewrite (view_held c m g0 s0 a0 k) by done.
        apply Hev; [done|done|]. intros Hgk. apply Ht.
        by apply (holds_same (ca_tags c) g a s g0 a0 s0 k (ci_wf _ _ I)).
      * assert (¬ holds (ca_tags c) g0 a0 s0 k) as Hnk.
        { intros Hh. apply Hk. destruct (findBlock_holds (ca_tags c) g0 a0 s0 (ci_wf _ _ I) (ci_unique _ _ I)) as (o & -> & Ho').
          by rewrite (proj2 (Ho' k) Hh). }
        rewrite view_absent; [by apply Hoth; [|left]|apply I|].
        intros j. destruct (decide (j = k)) as [->|]; [done|by apply Hn].
Qed.

Lemma block_ok_shape t t' k b : same_shape t t' → block_ok t k b → block_ok t' k b.
Proof.
  intros (H1 & H2 & H3 & H4 & H5 & H6 & H7) (Ha & Hb & Hc). unfold block_ok, extractTag, extractSet in *.
  by rewrite H1, H3, H4, H5, H7.
Qed.

(** The invariant after the replacement. *)
Lemma replaced_inv c m c' m' k b b' line' g a s :
  cache_inv c m → replaced c m c' m' k b b' line' g a s →
  masters_ok (ev_maxMasters ev) (ca_tags c') → ca_isTopLevel c' = ca_isTopLevel c →
  ca_mshrQueue c' = ca_mshrQueue c → block_ok (ca_tags c) k b' →
  (blk_isDirty b' = false → ∀ a0, in_width 64 a0 → blkAlign (ca_tags c) a0 = blkAlign (ca_tags c) a →
     line' !!! Z.to_nat (a0 mod ca_blkSize c) = byte_at m' g s a0) →
  cache_inv c' m'.
Proof.
  intros I R Hmm Htop Hq Hok Hcl. pose proof R as [Hold Hsh Hwf Hblks Hbs Hd Hlen Hset Hm Htg Hev Hoth].
  pose proof (replaced_unique _ _ _ _ _ _ _ _ _ _ _ I R) as Hu.
  pose proof (ci_wf _ _ I) as [(bb & ss & G) _]. apply lookup_lt_Some in Hold as Hk.
  assert (0 < ca_blkSize c) by (rewrite (ci_blkSize _ _ I), (geo_blkSize _ _ _ G); destruct G; lia).
  assert (∀ j, block_line c' j = if decide (j = k) then line' else block_line c j) as Hl.
  { intros j. apply block_line_splice; try done. apply (ci_data _ _ I). }
  split; try done.
  - destruct Hsh as (_ & _ & _ & _ & _ & _ & ->). apply I.
  - rewrite Hbs, (ci_blkSize _ _ I). by destruct Hsh as (-> & _).
  - rewrite Htop. apply I.
  - rewrite Hq. apply I.
  - rewrite Hbs, Hblks, length_insert, Hd, length_splice, (ci_data _ _ I); [done|].
    pose proof (ci_data _ _ I). nia.
  - intros j bj Hj. rewrite Hblks in Hj. apply (block_ok_shape (ca_tags c)); [done|].
    destruct (decide (j = k)) as [->|Hne].
    + rewrite list_lookup_insert_eq in Hj by done. by injection Hj as <-.
    + rewrite list_lookup_insert_ne in Hj by done. by apply (ci_blk _ _ I).
  - intros j bj g0 s0 a0 Hj Hdirty Ha0 Hh. rewrite Hbs, Hl.
    apply (replaced_holds c m c' m' k b b' line' g a s) in Hh; [|done..]. rewrite Hblks in Hj.
    destruct (decide (j = k)) as [->|Hne].
    + rewrite list_lookup_insert_eq in Hj by done. injection Hj as <-. destruct Hh as (-> & -> & Ha). by apply Hcl.
    + rewrite list_lookup_insert_ne in Hj by done.
      rewrite Hoth; [by apply (ci_clean _ _ I j bj)|done|]. left. intros Hk'. apply Hne. by eapply (ci_unique _ _ I).
Qed.
End Content.

(** ** Processor requests *)

(** A load or store of a processor, with its bytes, inside one line of the
    cache, whose request object agrees with the packet. *)
Record cpu_request (ev : Env) (c : Cache) (p : Packet) (data : list Z) : Prop := {
  cr_wf : pkt_wf p;
  cr_cmd : pkt_cmd p = ReadReq ∨ pkt_cmd p = WriteReq;
  cr_ptr : flag_isSet (pkt_flags p) (Z.lor STATIC_DATA DYNAMIC_DATA) = true;
  cr_inhibit : memInhibitAsserted p = false;
  cr_cacheable : req_isUncacheable (pkt_req p) = false;
  cr_addr : in_width 64 (pkt_addr p);
  cr_paddr : req_paddr (pkt_req p) = pkt_addr p;
  cr_tag : req_qosTag (pkt_req p) = pkt_qosTag p;
  cr_secure : req_isSecure (pkt_req p) = pkt_isSecure p;
  cr_master : 0 ≤ req_masterId (pkt_req p) < ev_maxMasters ev;
  cr_data : pkt_data p = Some data;
  cr_len : Z.of_nat (length data) = pkt_size p;
  cr_fits : pkt_addr p mod ca_blkSize c + pkt_size p ≤ ca_blkSize c
}.

(** The bytes of the request within its line. *)
Definition line_offset (c : Cache) (p : Packet) : nat := Z.to_nat (pkt_addr p mod ca_blkSize c).

Lemma getOffset_mod c p t : lru_wf t → ca_blkSize c = lt_blkSize t → pkt_wf p →
  getOffset p (ca_blkSize c) = Ok (pkt_addr p mod ca_blkSize c) ∧ 0 < ca_blkSize c.
Proof.
  intros [(b & s & G) _] Hbs Hp. unfold getOffset. rewrite getAddr_wf by done. cbn [mbind result_bind].
  rewrite Hbs, (geo_blkSize _ _ _ G). destruct G.
  replace (2 ^ b - 1) with (Z.ones b) by (rewrite Z.ones_equiv; lia). rewrite Z.land_ones by lia. split; [done|lia].
Qed.

Section Satisfy.

Context (ev : Env) (c : Cache) (p : Packet) (data line : list Z) (b : CacheBlk).
Hypothesis Hwf : lru_wf (ca_tags c).
Hypothesis Hbs : ca_blkSize c = lt_blkSize (ca_tags c).
Hypothesis Hp : cpu_request ev c p data.
Hypothesis Hlen : Z.of_nat (length line) = ca_blkSize c.
Hypothesis Hvalid : blk_isValid b = true.

Lemma satisfy_prefix {A} (k : Z → Z → result A) :
  (assertb (blk_isValid b) ;;
   off ← getOffset p (ca_blkSize c);
   size ← getSize p;
   assertb (off + size <=? ca_blkSize c) ;; k off size) = k (pkt_addr p mod ca_blkSize c) (pkt_size p).
Proof.
  destruct Hp. destruct (getOffset_mod c p (ca_tags c)) as [Ho _]; [done..|].
  rewrite Hvalid, Ho, getSize_wf by done. cbn [assertb mbind result_bind].
  by rewrite (proj2 (Z.leb_le _ _) cr_fits0).
Qed.

Lemma offset_bounds : (line_offset c p + length data ≤ length line)%nat ∧
  getOffset p (ca_blkSize c) = Ok (Z.of_nat (line_offset c p)).
Proof.
  destruct Hp. destruct (getOffset_mod c p (ca_tags c)) as [Ho Hpos]; [done..|].
  pose proof (Z.mod_pos_bound (pkt_addr p) _ Hpos). unfold line_offset. rewrite Ho, Z2Nat.id by lia. split; [lia|done].
Qed.

(** A load takes the bytes of the line; the block stays as it is. *)
Lemma satisfy_load :
  pkt_cmd p = ReadReq → ca_isTopLevel c = true →
  ∃ fl, satisfy_line c false b line p false false =
    Ok (b, line, p <| pkt_flags := fl |> <| pkt_data := Some (slice line (line_offset c p) (length data)) |>, false).
Proof.
  intros Hc Htop. unfold satisfy_line. rewrite satisfy_prefix. rewrite decide_False by (rewrite Hc; done).
  assert (pkt_isWrite p = false) as -> by (unfold pkt_isWrite; by rewrite Hc).
  assert (pkt_isRead p = true) as -> by (unfold pkt_isRead; by rewrite Hc).
  assert (pkt_isLLSC p = false) as -> by (unfold pkt_isLLSC; by rewrite Hc). cbn [mbind result_bind].
  destruct offset_bounds as [Hb Ho]. destruct Hp. unfold setDataFromBlock. rewrite Ho. cbn [mbind result_bind].
  unfold setData, getPtr. rewrite cr_ptr0, cr_data0. cbn [assertb mbind result_bind].
  rewrite getSize_wf by done. cbn [mbind result_bind]. rewrite Nat2Z.id.
  replace (Z.to_nat (pkt_size p)) with (length data) by lia. rewrite decide_True by lia. cbn [mbind result_bind].
  rewrite splice_all by (by rewrite length_slice).
  set (p' := setf pkt_data _ p).
  assert (pkt_needsExclusive p' = false) as -> by (unfold pkt_needsExclusive; subst p'; simpl; by rewrite Hc).
  assert (∀ q, p' = q → ∃ fl, q = p <| pkt_flags := fl |> <| pkt_data := pkt_data p' |>) as Hq.
  { intros q <-. exists (pkt_flags p). by destruct p. }
  rewrite Htop. cbn [negb andb].
  assert (∃ fl, assertShared p' = p <| pkt_flags := fl |> <| pkt_data := pkt_data p' |>) as [fl Hsh].
  { eexists. unfold assertShared, flag_set. destruct p. reflexivity. }
  destruct (Hq p' eq_refl) as [fl' Hq'].
  destruct (pkt_size p =? ca_blkSize c); [destruct (_ && _); [destruct (blk_isDirty b)|]|];
    first [exists fl; rewrite Hsh; reflexivity | exists fl'; rewrite Hq'; reflexivity].
Qed.

(** A store puts its bytes into the line and makes the block dirty. *)
Lemma satisfy_store :
  pkt_cmd p = WriteReq →
  satisfy_line c false b line p false false =
    Ok (set_bits (clearLoadLocks b (Some (pkt_req p))) BlkDirty,
        splice line (line_offset c p) data, p, false).
Proof.
  intros Hc. unfold satisfy_line. rewrite satisfy_prefix. rewrite decide_False by (rewrite Hc; done).
  assert (pkt_isWrite p = true) as -> by (unfold pkt_isWrite; by rewrite Hc). unfold checkWrite.
  assert (pkt_isLLSC p = false) as -> by (unfold pkt_isLLSC; by rewrite Hc).
  destruct offset_bounds as [Hb Ho]. destruct Hp. unfold writeDataToBlock. rewrite Ho. cbn [mbind result_bind].
  unfold writeData, getPtr. rewrite cr_ptr0, cr_data0. cbn [assertb mbind result_bind].
  rewrite getSize_wf by done. cbn [mbind result_bind]. rewrite Nat2Z.id.
  replace (Z.to_nat (pkt_size p)) with (length data) by lia. rewrite decide_True by lia. cbn [mbind result_bind].
  by rewrite take_ge by lia.
Qed.

End Satisfy.

(** The block, the line and the packet after a request is served. *)
Definition served_blk (p : Packet) (b : CacheBlk) : CacheBlk :=
  if decide (pkt_cmd p = WriteReq) then set_bits (clearLoadLocks b (Some (pkt_req p))) BlkDirty else b.
Definition served_line (c : Cache) (p : Packet) (data line : list Z) : list Z :=
  if decide (pkt_cmd p = WriteReq) then splice line (line_offset c p) data else line.
Definition served_pkt (c : Cache) (p : Packet) (data line : list Z) (p' : Packet) : Prop :=
  pkt_cmd p' = pkt_cmd p ∧
  (pkt_cmd p = ReadReq → pkt_data p' = Some (slice line (line_offset c p) (length data))).

Lemma satisfy_served ev c p data line b :
  lru_wf (ca_tags c) → ca_blkSize c = lt_blkSize (ca_tags c) → cpu_request ev c p data →
  Z.of_nat (length line) = ca_blkSize c → blk_isValid b = true → ca_isTopLevel c = true →
  ∃ p', satisfy_line c false b line p false false =
      Ok (served_blk p b, served_line c p data line, p', false) ∧ served_pkt c p data line p'.
Proof.
  intros Hwf Hbs Hp Hlen Hv Htop. unfold served_blk, served_line, served_pkt.
  destruct (cr_cmd _ _ _ _ Hp) as [Hc|Hc].
  - rewrite !decide_False by (by rewrite Hc).
    destruct (satisfy_load ev c p data line b Hwf Hbs Hp Hlen Hv Hc Htop) as [fl ->]. by eexists.
  - rewrite !decide_True by done. rewrite (satisfy_store ev c p data line b) by done.
    exists p. split; [done|]. split; [done|]. by rewrite Hc.
Qed.

Lemma served_fields p b :
  cb_data (served_blk p b) = cb_data b ∧ cb_set (served_blk p b) = cb_set b ∧
  cb_way (served_blk p b) = cb_way b ∧ cb_tag (served_blk p b) = cb_tag b ∧
  cb_srcMasterId (served_blk p b) = cb_srcMasterId b ∧ getGuestID (served_blk p b) = getGuestID b.
Proof. unfold served_blk. by case_decide. Qed.

Lemma length_served ev c p data line :
  lru_wf (ca_tags c) → ca_blkSize c = lt_blkSize (ca_tags c) → cpu_request ev c p data →
  Z.of_nat (length line) = ca_blkSize c → Z.of_nat (length (served_line c p data line)) = ca_blkSize c.
Proof.
  intros. unfold served_line. case_decide; [|done]. rewrite length_splice; [done|].
  by eapply offset_bounds.
Qed.

(** Where the bytes of a block are. *)
Lemma length_block_line c k :
  0 < ca_blkSize c → (k < length (lt_blks (ca_tags c)))%nat →
  Z.of_nat (length (ca_data c)) = ca_blkSize c * Z.of_nat (length (lt_blks (ca_tags c))) →
  Z.of_nat (length (block_line c k)) = ca_blkSize c.
Proof. intros. unfold block_line. rewrite length_slice; nia. Qed.

Lemma get_line_tag c k b :
  lt_blks (ca_tags c) !! k = Some b → cb_data b = Some (ca_blkSize c * Z.of_nat k) → 0 < ca_blkSize c →
  Z.of_nat (length (ca_data c)) = ca_blkSize c * Z.of_nat (length (lt_blks (ca_tags c))) →
  get_line c (TagBlk k) = Ok (block_line c k) ∧
  ∀ line, set_line c (TagBlk k) line =
    Ok (c <| ca_data := splice (ca_data c) (Z.to_nat (ca_blkSize c * Z.of_nat k)) line |>).
Proof.
  intros Hb Hd Hpos Hlen. unfold get_line, set_line. rewrite (proj2 (get_blk_Ok _ _ _) Hb).
  cbn [mbind result_bind]. rewrite Hd. apply lookup_lt_Some in Hb.
  split; [|intros line]; by rewrite decide_True by nia.
Qed.

(** [satisfyCpuSideRequest] on a valid block of the tag store. *)
Lemma satisfy_request ev c p data k b :
  lru_wf (ca_tags c) → ca_blkSize c = lt_blkSize (ca_tags c) → ca_isTopLevel c = true →
  cpu_request ev c p data →
  Z.of_nat (length (ca_data c)) = ca_blkSize c * Z.of_nat (length (lt_blks (ca_tags c))) →
  lt_blks (ca_tags c) !! k = Some b → cb_data b = Some (ca_blkSize c * Z.of_nat k) → blk_isValid b = true →
  ∃ p', satisfyCpuSideRequest ev c p (TagBlk k) false false =
      Ok (c <| ca_tags := (ca_tags c) <| lt_blks := <[k := served_blk p b]> (lt_blks (ca_tags c)) |> |>
            <| ca_data := splice (ca_data c) (Z.to_nat (ca_blkSize c * Z.of_nat k))
                            (served_line c p data (block_line c k)) |>, p') ∧
    served_pkt c p data (block_line c k) p' ∧
    lru_wf ((ca_tags c) <| lt_blks := <[k := served_blk p b]> (lt_blks (ca_tags c)) |>).
Proof.
  intros Hwf Hbs Htop Hp Hlen Hb Hd Hv.
  assert (0 < ca_blkSize c) as Hpos by (by destruct (getOffset_mod c p (ca_tags c) Hwf Hbs (cr_wf _ _ _ _ Hp))).
  apply lookup_lt_Some in Hb as Hk. unfold satisfyCpuSideRequest. cbn [get_ref].
  rewrite (proj2 (get_blk_Ok _ _ _) Hb). cbn [mbind result_bind].
  destruct (get_line_tag c k b Hb Hd Hpos Hlen) as [-> _]. cbn [mbind result_bind].
  rewrite bool_decide_eq_false_2 by done.
  destruct (satisfy_served ev c p data (block_line c k) b Hwf Hbs Hp) as (p' & -> & Hs);
    [by apply length_block_line|done|done|].
  cbn [mbind result_bind]. unfold set_ref. destruct (served_fields p b) as (F1 & F2 & F3 & _).
  destruct (put_blk_wf (ca_tags c) k b (served_blk p b)) as [-> Hwf']; [done..|]. cbn [mbind result_bind].
  set (c1 := setf ca_tags _ c).
  destruct (get_line_tag c1 k (served_blk p b)) as [_ Hset];
    [subst c1; simpl; by apply list_lookup_insert_eq|by rewrite F1|done|subst c1; simpl; by rewrite length_insert|].
  rewrite Hset. cbn [mbind result_bind]. by exists p'.
Qed.

(** ** Bytes of a line *)

(** The block of an address: quotient and remainder by the line size. *)
Lemma block_mod t a a' :
  lru_wf t → blkAlign t a = blkAlign t a' ↔ a / lt_blkSize t = a' / lt_blkSize t.
Proof.
  intros [(b & s & G) _]. rewrite !(blkAlign_div t b s), (geo_blkSize _ _ _ G) by done. destruct G.
  assert (2 ^ b ≠ 0) by lia. split; [by intros ?%Z.mul_cancel_r|by intros ->].
Qed.

Lemma block_width t a a' :
  lru_wf t → in_width 64 a → 0 ≤ a' → a' / lt_blkSize t = a / lt_blkSize t → in_width 64 a'.
Proof.
  intros [(b & s & G) _] Ha Ha' Hd. rewrite (geo_blkSize _ _ _ G) in Hd. destruct G. split; [done|].
  assert (2 ^ 64 = 2 ^ (64 - b) * 2 ^ b) as -> by (rewrite <-Z.pow_add_r by lia; f_equal; lia).
  assert (0 < 2 ^ b) by lia.
  assert (a / 2 ^ b < 2 ^ (64 - b)).
  { apply Z.div_lt_upper_bound; [lia|]. rewrite <-Z.pow_add_r by lia. replace (b + (64 - b)) with 64 by lia. apply Ha. }
  pose proof (Z.div_mod a' (2 ^ b)). pose proof (Z.mod_pos_bound a' (2 ^ b)). nia.
Qed.

Lemma lt_blkSize_pos t : lru_wf t → 0 < lt_blkSize t.
Proof. intros [(b & s & G) _]. rewrite (geo_blkSize _ _ _ G). destruct G. lia. Qed.

Section Served.

Context (ev : Env) (c : Cache) (p : Packet) (data line : list Z) (content : Z → Z).
Hypothesis Hwf : lru_wf (ca_tags c).
Hypothesis Hbs : ca_blkSize c = lt_blkSize (ca_tags c).
Hypothesis Hp : cpu_request ev c p data.
Hypothesis Hlen : Z.of_nat (length line) = ca_blkSize c.
(** [line] is the content of the line of the request. *)
Hypothesis Hline : ∀ a0, in_width 64 a0 → blkAlign (ca_tags c) a0 = blkAlign (ca_tags c) (pkt_addr p) →
  line !!! Z.to_nat (a0 mod ca_blkSize c) = content a0.

(** The line after the request has the bytes of a store and the old ones. *)
Lemma served_line_content a0 :
  in_width 64 a0 → blkAlign (ca_tags c) a0 = blkAlign (ca_tags c) (pkt_addr p) →
  served_line c p data line !!! Z.to_nat (a0 mod ca_blkSize c) =
    if decide (pkt_cmd p = WriteReq ∧ pkt_addr p ≤ a0 < pkt_addr p + pkt_size p)
    then data !!! Z.to_nat (a0 - pkt_addr p) else content a0.
Proof.
  intros Ha0 Hal. rewrite <-(Hline a0) by done. unfold served_line.
  destruct (decide (pkt_cmd p = WriteReq)) as [Hc|Hc]; [|by rewrite decide_False by naive_solver].
  apply (block_mod _ _ _ Hwf) in Hal. rewrite <-Hbs in Hal.
  pose proof (lt_blkSize_pos _ Hwf) as Hpos. rewrite <-Hbs in Hpos. destruct Hp.
  pose proof (Z.div_mod a0 (ca_blkSize c)). pose proof (Z.div_mod (pkt_addr p) (ca_blkSize c)).
  pose proof (Z.mod_pos_bound a0 _ Hpos). pose proof (Z.mod_pos_bound (pkt_addr p) _ Hpos).
  rewrite splice_lookup_total by (unfold line_offset; lia). unfold line_offset.
  assert (a0 - pkt_addr p = a0 mod ca_blkSize c - pkt_addr p mod ca_blkSize c) by (rewrite Hal in *; lia).
  destruct (decide (_ ≤ _ < _)%nat) as [Hi|Hi].
  - rewrite decide_True by (split; [done|lia]). f_equal. lia.
  - rewrite decide_False; [done|]. intros [_ ?]. lia.
Qed.

(** The addresses of the request lie in one block. *)
Lemma request_block a0 :
  pkt_addr p ≤ a0 < pkt_addr p + pkt_size p →
  in_width 64 a0 ∧ blkAlign (ca_tags c) a0 = blkAlign (ca_tags c) (pkt_addr p).
Proof using Hwf Hbs Hp.
  clear Hline Hlen. intros Ha. pose proof (lt_blkSize_pos _ Hwf) as Hpos. destruct Hp. rewrite Hbs in *.
  pose proof (Z.div_mod (pkt_addr p) (lt_blkSize (ca_tags c))). pose proof (Z.mod_pos_bound (pkt_addr p) _ Hpos).
  assert (a0 / lt_blkSize (ca_tags c) = pkt_addr p / lt_blkSize (ca_tags c)) as Hd.
  { symmetry. apply (Z.div_unique _ _ _ (a0 - lt_blkSize (ca_tags c) * (pkt_addr p / lt_blkSize (ca_tags c)))); lia. }
  split; [|by apply block_mod]. apply (block_width (ca_tags c) (pkt_addr p)); try done.
  destruct cr_addr0. lia.
Qed.

(** A load gets the content of its addresses. *)
Lemma load_content :
  slice line (line_offset c p) (length data) = content <$> addr_range (pkt_addr p) (length data).
Proof.
  pose proof (lt_blkSize_pos _ Hwf) as Hpos. rewrite <-Hbs in Hpos. pose proof Hp as [].
  pose proof (Z.mod_pos_bound (pkt_addr p) _ Hpos).
  assert (line_offset c p + length data ≤ length line)%nat as Hfit by (unfold line_offset; lia).
  apply list_eq_same_length with (n := length data);
    [by unfold addr_range; rewrite !length_fmap, length_seq|by apply length_slice|].
  intros i x y Hi Hx Hy. unfold slice in Hx. rewrite lookup_take_lt, lookup_drop in Hx by lia.
  unfold addr_range in Hy. rewrite !list_lookup_fmap, lookup_seq_lt in Hy by lia. simpl in Hy. injection Hy as <-.
  destruct (request_block (pkt_addr p + Z.of_nat i)) as [Hw Hal]; [lia|].
  rewrite <-(Hline _ Hw Hal). apply list_lookup_total_correct in Hx as <-. f_equal. unfold line_offset.
  apply (block_mod _ _ _ Hwf) in Hal. rewrite <-Hbs in Hal.
  pose proof (Z.div_mod (pkt_addr p + Z.of_nat i) (ca_blkSize c)). pose proof (Z.div_mod (pkt_addr p) (ca_blkSize c)).
  pose proof (Z.mod_pos_bound (pkt_addr p + Z.of_nat i) _ Hpos). rewrite Hal in *. lia.
Qed.

End Served.

(** ** One access *)

Section Access.

Context {M : Type} (sendAtomic : M → Packet → result (M * Packet * Z)) (sendFunctional : M → Packet → result M)
  (byte_at : M → Z → bool → Z → Z) `{!MainMemory sendAtomic byte_at} (ev : Env).

(** What a request does to the view of the domains. *)
Definition view_after (c : Cache) (m : M) (p : Packet) (data : list Z) (g : Z) (s : bool) (a : Z) : Z :=
  if decide (pkt_cmd p = WriteReq ∧ g = guest_of p ∧ s = pkt_isSecure p ∧
             pkt_addr p ≤ a < pkt_addr p + pkt_size p)
  then data !!! Z.to_nat (a - pkt_addr p) else view byte_at c m g s a.

(** The outcome of a request: the invariant, the new view, the bytes loaded. *)
Definition outcome (c : Cache) (m : M) (p : Packet) (data : list Z) (c' : Cache) (m' : M) (p' : Packet) : Prop :=
  cache_inv byte_at ev c' m' ∧ lt_waymasks (ca_tags c') = lt_waymasks (ca_tags c) ∧
  same_shape (ca_tags c) (ca_tags c') ∧ ca_blkSize c' = ca_blkSize c ∧
  pkt_cmd p' = pkt_cmd p ∧
  (pkt_cmd p = ReadReq → pkt_data p' = Some (view byte_at c m (guest_of p) (pkt_isSecure p) <$>
                                               addr_range (pkt_addr p) (length data))) ∧
  ∀ g s a, in_width 64 a → view byte_at c' m' g s a = view_after c m p data g s a.

Lemma served_replaced_view c m c' m' p data line k b b' g s a :
  cache_inv byte_at ev c m → cpu_request ev c p data → Z.of_nat (length line) = ca_blkSize c →
  (∀ a0, in_width 64 a0 → blkAlign (ca_tags c) a0 = blkAlign (ca_tags c) (pkt_addr p) →
     line !!! Z.to_nat (a0 mod ca_blkSize c) = view byte_at c m (guest_of p) (pkt_isSecure p) a0) →
  replaced byte_at c m c' m' k b b' (served_line c p data line) (guest_of p) (pkt_addr p) (pkt_isSecure p) →
  in_width 64 a → view byte_at c' m' g s a = view_after c m p data g s a.
Proof.
  intros I Hp Hlen Hline R Ha. rewrite (replaced_view _ ev c m c' m' k b b' _ _ _ _ g a s I R Ha).
  unfold view_after. pose proof (ci_wf _ _ _ _ I) as W. pose proof (ci_blkSize _ _ _ _ I) as Hbs.
  destruct (decide (g = _ ∧ s = _ ∧ _)) as [(-> & -> & Hal)|Hn].
  - rewrite (served_line_content ev c p data line (view byte_at c m (guest_of p) (pkt_isSecure p))) by done.
    destruct (decide (pkt_cmd p = WriteReq ∧ _)) as [Hw|Hw]; [rewrite decide_True by naive_solver|rewrite decide_False by naive_solver]; done.
  - rewrite decide_False; [done|]. intros (_ & -> & -> & Hr). apply Hn. split; [done|]. split; [done|].
    by apply (request_block ev c p data W Hbs Hp a).
Qed.

(** A served block keeps its identity and stays readable and writable. *)
Lemma served_status p b :
  blk_isValid b = true →
  blk_isValid (served_blk p b) = true ∧ blk_isSecure (served_blk p b) = blk_isSecure b ∧
  (blk_isWritable b = true → blk_isWritable (served_blk p b) = true) ∧
  (blk_isReadable b = true → blk_isReadable (served_blk p b) = true) ∧
  (blk_isDirty (served_blk p b) = false → pkt_cmd p ≠ WriteReq ∧ blk_isDirty b = false).
Proof.
  rewrite !isValid_bit, !isSecure_bit, !isWritable_bit, !isReadable_bit, !isDirty_bit. intros Hv.
  unfold served_blk. case_decide as Hc; [|naive_solver]. 
  change (cb_status (set_bits _ BlkDirty)) with (Z.lor (cb_status b) BlkDirty).
  rewrite !Z.lor_spec, Hv. change (Z.testbit BlkDirty 3) with true. change (Z.testbit BlkDirty 6) with false.
  change (Z.testbit BlkDirty 0) with false. change (Z.testbit BlkDirty 1) with false.
  change (Z.testbit BlkDirty 2) with false. rewrite !orb_false_r, orb_true_r. naive_solver.
Qed.

Lemma cpu_request_size c c' p data :
  ca_blkSize c' = ca_blkSize c → cpu_request ev c p data → cpu_request ev c' p data.
Proof. intros Hs []. by split; rewrite ?Hs. Qed.

(** Replacing one block keeps the masters in range. *)
Lemma masters_insert t t' k b' :
  masters_ok (ev_maxMasters ev) t → lt_blks t' = <[k := b']> (lt_blks t) →
  Z.of_nat (length (ts_occupancies (lt_stats t'))) = ev_maxMasters ev →
  0 ≤ cb_srcMasterId b' < ev_maxMasters ev → masters_ok (ev_maxMasters ev) t'.
Proof.
  intros [_ Hm] Hb Ho Hs. split; [done|]. intros j bj Hj Hv. rewrite Hb in Hj.
  apply list_lookup_insert_Some in Hj as [(_ & <- & _)|[_ Hj]]; [done|by apply (Hm j bj)].
Qed.

(** From the replaced block to the outcome of a request. *)
Lemma replaced_outcome c m c' m' p data line k b b' p' :
  cache_inv byte_at ev c m → cpu_request ev c p data → Z.of_nat (length line) = ca_blkSize c →
  (∀ a0, in_width 64 a0 → blkAlign (ca_tags c) a0 = blkAlign (ca_tags c) (pkt_addr p) →
     line !!! Z.to_nat (a0 mod ca_blkSize c) = view byte_at c m (guest_of p) (pkt_isSecure p) a0) →
  (pkt_cmd p ≠ WriteReq → blk_isDirty b' = false → ∀ a0, in_width 64 a0 →
     blkAlign (ca_tags c) a0 = blkAlign (ca_tags c) (pkt_addr p) →
     line !!! Z.to_nat (a0 mod ca_blkSize c) = byte_at m' (guest_of p) (pkt_isSecure p) a0) →
  replaced byte_at c m c' m' k b (served_blk p b') (served_line c p data line)
    (guest_of p) (pkt_addr p) (pkt_isSecure p) →
  served_pkt c p data line p' → blk_isValid b' = true → block_ok (ca_tags c) k (served_blk p b') →
  masters_ok (ev_maxMasters ev) (ca_tags c') → lt_waymasks (ca_tags c') = lt_waymasks (ca_tags c) →
  ca_isTopLevel c' = ca_isTopLevel c → ca_mshrQueue c' = ca_mshrQueue c →
  outcome c m p data c' m' p'.
Proof.
  intros I Hp Hlen Hline Hclean R [Hc Hd] Hv Hok Hmm Hwm Htop Hq.
  destruct (served_status p b' Hv) as (_ & _ & _ & _ & Hdirty).
  split; [|split; [done|split; [apply R|split; [apply R|split; [done|split]]]]].
  - eapply (replaced_inv byte_at ev c m c' m'); [done..|].
    intros Hnd a0 Ha0 Hal. destruct (Hdirty Hnd) as [Hnw Hnd']. unfold served_line. rewrite decide_False by done. by apply Hclean.
  - intros Hr. rewrite (Hd Hr). f_equal. eapply (load_content ev c p data line); try done; apply I.
  - intros g s a Ha. by eapply served_replaced_view.
Qed.

(** A request whose line is in the cache. *)
Lemma access_hit c m p data k :
  cache_inv byte_at ev c m → cpu_request ev c p data → ev_clockPeriod ev ≠ 0 →
  findBlock (ca_tags c) (guest_of p) (pkt_addr p) (pkt_isSecure p) = Ok (Some k) →
  ∃ a, access sendFunctional ev c m p = Ok a ∧ ac_satisfied a = true ∧ ac_writebacks a = [] ∧ ac_mem a = m ∧
    outcome c m p data (ac_cache a) m (ac_pkt a).
Proof.
  intros I Hp Hclk Hf. pose proof (ci_wf _ _ _ _ I) as W. pose proof (ci_blkSize _ _ _ _ I) as Hbs.
  pose proof (findBlock_Some _ _ _ _ _ W Hf) as Hh. pose proof Hh as (Hset & b & Hb & Hm).
  pose proof (lt_blkSize_pos _ W) as Hpos. rewrite <-Hbs in Hpos. apply lookup_lt_Some in Hb as Hk.
  destruct (ci_blk _ _ _ _ I k b Hb) as (Hd & _ & Hval). pose proof Hm as (Ht & Hv & Hg & Hs)%blk_matches_iff.
  destruct (Hval Hv) as (Hw & Hr & Ha). unfold access. rewrite (cr_cacheable _ _ _ _ Hp).
  rewrite PKT_TO_GUESTID_wf, getAddr_wf, isSecure_wf by apply Hp. cbn [mbind result_bind].
  destruct (accessBlock_spec (ca_tags c) (ev_curTick ev) (ev_clockPeriod ev) (guest_of p) (pkt_addr p) (pkt_isSecure p) W Hclk)
    as (t1 & o & lat & -> & Hf' & W1 & Hsh & Hwm & Hocc & Ho). rewrite Hf in Hf'. injection Hf' as <-.
  destruct Ho as (b0 & sset & Hb0 & Hblks & _). rewrite Hb in Hb0. injection Hb0 as <-.
  cbn [mbind result_bind]. set (b1 := setf cb_refCount _ b) in *.
  assert (lt_blks t1 !! k = Some b1) as Hb1 by (rewrite Hblks; by apply list_lookup_insert_eq).
  rewrite (proj2 (get_blk_Ok t1 k b1) Hb1). cbn [mbind result_bind].
  change (blk_isWritable b1) with (blk_isWritable b). change (blk_isReadable b1) with (blk_isReadable b).
  rewrite Hw, Hr. replace (if pkt_needsExclusive p then true else true) with true by (by destruct (pkt_needsExclusive p)).
  cbn [mbind result_bind]. unfold count_access.
  destruct (cr_master _ _ _ _ Hp) as [_ Hmas]. rewrite (proj2 (Z.ltb_lt _ _) Hmas). cbn [assertb mbind result_bind].
  set (c1 := setf ca_tags _ c).
  destruct (satisfy_request ev c1 p data k b1) as (p' & -> & Hsp & W2);
    [done|subst c1; simpl; rewrite Hbs; by destruct Hsh as (-> & _)|apply I|by apply (cpu_request_size c)
    |subst c1; simpl; rewrite Hblks, length_insert; apply (ci_data _ _ _ _ I)|done
    |change (cb_data b = Some (ca_blkSize c * Z.of_nat k)); by rewrite Hbs|done|].
  cbn [mbind result_bind]. eexists. do 4 (split; [done|]). cbn [ac_cache ac_pkt].
  assert (∀ a0, in_width 64 a0 → blkAlign (ca_tags c) a0 = blkAlign (ca_tags c) (pkt_addr p) →
    holds (ca_tags c) (guest_of p) a0 (pkt_isSecure p) k) as Hh0.
  { intros a0 _ Hal. by apply (holds_block _ _ (pkt_addr p)). }
  destruct (served_status p b1 Hv) as (Sv & Ss & Sw & Sr & _). destruct (served_fields p b1) as (F1 & F2 & F3 & F4 & F5 & F6).
  eapply (replaced_outcome c m _ m p data (block_line c k) k b b1); try done.
  - by apply length_block_line; [..|apply (ci_data _ _ _ _ I)].
  - intros a0 Ha0 Hal. symmetry. eapply view_held; [done|]. by apply Hh0.
  - intros _ Hnd a0 Ha0 Hal. by apply (ci_clean _ _ _ _ I k b); [| |done|apply Hh0].
  - split; try done.
    + simpl. rewrite Hblks. by rewrite list_insert_insert_eq.
    + eapply (length_served ev c p data); try done. by apply length_block_line; [..|apply (ci_data _ _ _ _ I)].
    + apply blk_matches_iff. rewrite F4, F6, Ss. by rewrite Sv.
    + by left.
  - split; [by rewrite F1|]. rewrite Sv. split; [done|]. intros _. rewrite F4. split; [by apply Sw|]. split; [by apply Sr|done].
  - eapply (masters_insert (ca_tags c) _ k (served_blk p b1)); [apply I| | |].
    + simpl. rewrite Hblks. by rewrite list_insert_insert_eq.
    + simpl. rewrite Hocc. apply (ci_masters _ _ _ _ I).
    + rewrite F5. apply (proj2 (ci_masters _ _ _ _ I) k b Hb Hv).
Qed.

(** ** Misses *)

(** A change of the tag store that leaves the blocks alone. *)
Lemma same_blocks c m t :
  cache_inv byte_at ev c m → lru_wf t → same_shape (ca_tags c) t → lt_blks t = lt_blks (ca_tags c) →
  ts_occupancies (lt_stats t) = ts_occupancies (lt_stats (ca_tags c)) →
  cache_inv byte_at ev (c <| ca_tags := t |>) m ∧
  ∀ g s a, view byte_at (c <| ca_tags := t |>) m g s a = view byte_at c m g s a.
Proof.
  intros I W Hsh Hb Hocc.
  assert (∀ g s a k, holds t g a s k ↔ holds (ca_tags c) g a s k) as Hh.
  { intros. destruct Hsh as (_&_&Hss&Hts&Hsm&_&Has). unfold holds, extractSet, extractTag. by rewrite Hss, Hts, Hsm, Has, Hb. }
  assert (lru_unique t) as Hu.
  { intros g a s k k'. rewrite !Hh. apply (ci_unique _ _ _ _ I). }
  split.
  - pose proof I as [I1 I2 I3 I4 I5 I6 I7 I8 I9 I10]. split; simpl; try done.
    + destruct I3 as [I31 I32]. split; [by rewrite Hocc|]. by rewrite Hb.
    + by destruct Hsh as (_&_&_&_&_&_&->).
    + rewrite I5. by destruct Hsh as (-> & _).
    + by rewrite Hb.
    + rewrite Hb. intros k b Hk. apply (block_ok_shape (ca_tags c)); [done|by apply I9].
    + rewrite Hb. intros k b g s a Hk Hd Ha. rewrite Hh. by apply (I10 k b).
  - intros g s a. unfold view. simpl.
    destruct (findBlock_holds t g a s W Hu) as (o & -> & Ho).
    destruct (findBlock_holds (ca_tags c) g a s (ci_wf _ _ _ _ I) (ci_unique _ _ _ _ I)) as (o' & -> & Ho').
    assert (o = o') as ->; [|done]. apply option_eq. intros k. by rewrite Ho, Ho', Hh.
Qed.

(** The address of the line in a valid block. *)
Lemma block_address c m k b :
  cache_inv byte_at ev c m → lt_blks (ca_tags c) !! k = Some b → blk_isValid b = true →
  ∃ a, in_width 64 a ∧ regenerateBlkAddr (ca_tags c) (cb_tag b) (cb_set b) = blkAlign (ca_tags c) a ∧
    ∀ g s a0, holds (ca_tags c) g a0 s k ↔
      g = getGuestID b ∧ s = blk_isSecure b ∧ blkAlign (ca_tags c) a0 = blkAlign (ca_tags c) a.
Proof.
  intros I Hb Hv. pose proof (ci_wf _ _ _ _ I) as W. destruct (ci_blk _ _ _ _ I k b Hb) as (_ & _ & Hx).
  destruct (Hx Hv) as (_ & _ & a & Ha & Ht & Hs). exists a. split; [done|]. split.
  - destruct (lay_place _ (proj2 W) k b Hb) as [-> _]. rewrite Ht, Hs.
    rewrite Z2Nat.id by apply (extractSet_range _ _ W). by apply regenerate_align.
  - intros g s a0. unfold holds. rewrite same_block by done. rewrite Hb, Hs.
    pose proof (extractSet_range (ca_tags c) a W). pose proof (extractSet_range (ca_tags c) a0 W). split.
    + intros (H1 & b0 & [= <-] & (E1 & _ & E2 & E3)%blk_matches_iff). repeat split; try congruence; lia.
    + intros (-> & -> & E1 & E2). split; [lia|]. exists b. split; [done|]. apply blk_matches_iff. by rewrite Ht, E2.
Qed.

(** The addresses of a block are an interval. *)
Lemma block_interval t a a0 :
  lru_wf t → blkAlign t a0 = blkAlign t a ↔ blkAlign t a ≤ a0 < blkAlign t a + lt_blkSize t.
Proof.
  intros W. rewrite block_mod by done. destruct W as [(b & s & G) _].
  rewrite (blkAlign_div t b s), (geo_blkSize _ _ _ G) by done. destruct G. assert (0 < 2 ^ b) by lia.
  pose proof (Z.div_mod a0 (2 ^ b)). pose proof (Z.mod_pos_bound a0 (2 ^ b)). split.
  - intros <-. lia.
  - intros ?. symmetry. apply (Z.div_unique _ _ _ (a0 - 2 ^ b * (a / 2 ^ b))); lia.
Qed.

(** ** Write-backs of victims *)

Lemma guest_of_tag x : wrap 16 (Z.land (wrap 64 x) 0xFF) = QOSTAG_TO_GUESTID x.
Proof.
  unfold QOSTAG_TO_GUESTID. f_equal. rewrite !land_0xFF. unfold wrap. apply Z.mod_mod_divide. by exists (2 ^ 56).
Qed.

Lemma guest_of_int x : QOSTAG_TO_GUESTID (swrap 32 x) = wrap 16 (Z.land x 0xFF).
Proof.
  unfold QOSTAG_TO_GUESTID. f_equal. rewrite !land_0xFF. unfold swrap, wrap.
  rewrite Zminus_mod, Z.mod_mod_divide by (by exists (2 ^ 24)). change (2 ^ (32 - 1) mod 256) with 0.
  rewrite Z.sub_0_r, Z.mod_mod by lia. rewrite Zplus_mod. change (2 ^ (32 - 1) mod 256) with 0.
  by rewrite Z.add_0_r, Z.mod_mod by lia.
Qed.

(** What a write-back packet carries. *)
Record carries (c : Cache) (k : nat) (b : CacheBlk) (wb : Packet) : Prop := {
  wb_wf : pkt_wf wb;
  wb_cmd : pkt_cmd wb = Writeback;
  wb_ptr : flag_isSet (pkt_flags wb) (Z.lor STATIC_DATA DYNAMIC_DATA) = true;
  wb_data : pkt_data wb = Some (block_line c k);
  wb_addr : pkt_addr wb = regenerateBlkAddr (ca_tags c) (cb_tag b) (cb_set b);
  wb_size : pkt_size wb = ca_blkSize c;
  wb_guest : guest_of wb = getGuestID b;
  wb_secure : pkt_isSecure wb = blk_isSecure b
}.

(** The victim after its write-back. *)
Definition cleaned (b : CacheBlk) : CacheBlk :=
  clear_bits (b <| cb_task_id := Unknown |> <| cb_tickInserted := ev_curTick ev |>) BlkDirty.

Lemma writebackBlk_spec c m k b :
  cache_inv byte_at ev c m → lt_blks (ca_tags c) !! k = Some b → blk_isValid b = true → blk_isDirty b = true →
  ∃ wb, writebackBlk ev c (TagBlk k) =
      Ok (c <| ca_tags := (ca_tags c) <| lt_blks := <[k := cleaned b]> (lt_blks (ca_tags c)) |> |>, wb) ∧
    carries c k b wb.
Proof.
  intros I Hb Hv Hd. pose proof (ci_wf _ _ _ _ I) as W. pose proof (ci_blkSize _ _ _ _ I) as Hbs.
  pose proof (lt_blkSize_pos _ W) as Hpos. rewrite <-Hbs in Hpos. apply lookup_lt_Some in Hb as Hk.
  destruct (ci_blk _ _ _ _ I k b Hb) as (Hdat & _ & _). rewrite <-Hbs in Hdat.
  unfold writebackBlk. cbn [get_ref]. rewrite (proj2 (get_blk_Ok _ _ _) Hb). cbn [mbind result_bind].
  rewrite Hv, Hd. cbn [andb assertb mbind result_bind].
  destruct (get_line_tag c k b Hb Hdat Hpos (ci_data _ _ _ _ I)) as [Hgl _].
  pose proof (length_block_line c k Hpos Hk (ci_data _ _ _ _ I)) as Hll.
  set (req := setf req_taskId _ _).
  set (wb0 := if blk_isWritable b then _ else _).
  assert (∃ fl, wb0 = (Packet_make req Writeback) <| pkt_flags := fl |> ∧ (fl = 0xB00 ∨ fl = 0xB04)) as (fl & -> & Hfl).
  { subst wb0. destruct (blk_isWritable b); [exists 0xB04|exists 0xB00]; (split; [reflexivity|]); [by right|by left]. }
  assert (Packet_allocate ((Packet_make req Writeback) <| pkt_flags := fl |>) =
    Ok ((Packet_make req Writeback) <| pkt_flags := Z.lor fl 0x6000 |>
          <| pkt_data := Some (replicate (Z.to_nat (ca_blkSize c)) 0) |>)) as ->.
  { destruct Hfl as [-> | ->]; reflexivity. }
  cbn [mbind result_bind]. rewrite Hgl. cbn [mbind result_bind].
  assert (∀ x, setData ((Packet_make req Writeback) <| pkt_flags := Z.lor fl 0x6000 |>
          <| pkt_data := Some (replicate (Z.to_nat (ca_blkSize c)) 0) |>) (block_line c k) 0 = x →
    x = Ok ((Packet_make req Writeback) <| pkt_flags := Z.lor fl 0x6000 |> <| pkt_data := Some (block_line c k) |>)) as Hsd.
  { intros x <-. unfold setData.
    assert (getPtr ((Packet_make req Writeback) <| pkt_flags := Z.lor fl 0x6000 |>
      <| pkt_data := Some (replicate (Z.to_nat (ca_blkSize c)) 0) |>) =
      Ok (replicate (Z.to_nat (ca_blkSize c)) 0)) as -> by (destruct Hfl as [-> | ->]; reflexivity).
    assert (∀ d, getSize ((Packet_make req Writeback) <| pkt_flags := Z.lor fl 0x6000 |> <| pkt_data := d |>) =
      Ok (ca_blkSize c)) as -> by (intros; destruct Hfl as [-> | ->]; reflexivity).
    cbn [mbind result_bind]. rewrite decide_True by (rewrite length_replicate; simpl; lia).
    rewrite slice_all, splice_all by (rewrite ?length_replicate; simpl; lia). reflexivity. }
  rewrite (Hsd _ eq_refl). cbn [mbind result_bind]. unfold set_ref.
  destruct (put_blk_wf (ca_tags c) k b (cleaned b)) as [Hput _]; [done..|]. fold (cleaned b). rewrite Hput.
  cbn [mbind result_bind]. eexists. split; [done|]. split; try done.
  - destruct Hfl as [-> | ->]; repeat split.
  - by destruct Hfl as [-> | ->].
  - unfold guest_of, getGuestID. simpl. apply guest_of_tag.
  - simpl. unfold req_isSecure. subst req. simpl. by destruct (blk_isSecure b).
Qed.

(** Memory after the write-back of block [k]: the line of [k] is there, and
    nothing else changed. *)
Definition written_back (c : Cache) (m m' : M) (k : nat) : Prop :=
  (∀ g a s, in_width 64 a → holds (ca_tags c) g a s k →
     byte_at m' g s a = block_line c k !!! Z.to_nat (a mod ca_blkSize c)) ∧
  (∀ g a s, in_width 64 a → ¬ holds (ca_tags c) g a s k → byte_at m' g s a = byte_at m g s a).

Lemma send_writeback c m k b wb :
  cache_inv byte_at ev c m → lt_blks (ca_tags c) !! k = Some b → blk_isValid b = true → carries c k b wb →
  ∃ m', send_writebacks sendAtomic m [wb] = Ok m' ∧ written_back c m m' k.
Proof.
  intros I Hb Hv []. pose proof (ci_wf _ _ _ _ I) as W. pose proof (ci_blkSize _ _ _ _ I) as Hbs.
  pose proof (lt_blkSize_pos _ W) as Hpos. rewrite <-Hbs in Hpos. apply lookup_lt_Some in Hb as Hk.
  pose proof (length_block_line c k Hpos Hk (ci_data _ _ _ _ I)) as Hll.
  destruct (mm_writeback m wb (block_line c k)) as (m' & p' & t & Hs & Hm'); [done..|by rewrite Hll|].
  exists m'. split; [unfold send_writebacks; simpl; by rewrite Hs|].
  destruct (block_address c m k b I Hb Hv) as (a & Ha & Hr & Hh).
  assert (∀ g a0 s, holds (ca_tags c) g a0 s k ↔
    g = guest_of wb ∧ s = pkt_isSecure wb ∧ pkt_addr wb ≤ a0 < pkt_addr wb + pkt_size wb) as Hiff.
  { intros. rewrite Hh, block_interval by done. by rewrite wb_guest0, wb_secure0, wb_addr0, wb_size0, Hr, Hbs. }
  split.
  - intros g a0 s Ha0 Hk0. rewrite Hm', decide_True by (by apply Hiff). f_equal.
    apply Hh in Hk0 as (_ & _ & Hal). rewrite wb_addr0, Hr, <-Hal. destruct W as [(bb & ss & G) _].
    rewrite (blkAlign_div _ bb ss) by done. rewrite Hbs, (geo_blkSize _ _ _ G). destruct G.
    pose proof (Z.div_mod a0 (2 ^ bb)). f_equal. lia.
  - intros g a0 s Ha0 Hk0. rewrite Hm', decide_False; [done|]. intros Hx. apply Hk0. by apply Hiff.
Qed.

(** The same block, up to the fields of a write-back. *)
Definition same_frame (b bx : CacheBlk) : Prop :=
  cb_data bx = cb_data b ∧ cb_set bx = cb_set b ∧ cb_way bx = cb_way b ∧ cb_srcMasterId bx = cb_srcMasterId b ∧
  blk_isValid bx = blk_isValid b ∧ (blk_isValid b = false → cb_status bx = 0).

Lemma allocateBlock_spec c m g a mask :
  cache_inv byte_at ev c m → mask_usable (ca_tags c) g mask →
  ∃ k b bx wbs m',
    allocateBlock ev c g a =
      Ok (c <| ca_tags := (ca_tags c) <| lt_blks := <[k := bx]> (lt_blks (ca_tags c)) |> |>, Some k, wbs) ∧
    lt_blks (ca_tags c) !! k = Some b ∧ same_frame b bx ∧
    (k / Z.to_nat (lt_assoc (ca_tags c)))%nat = Z.to_nat (extractSet (ca_tags c) a) ∧
    send_writebacks sendAtomic m wbs = Ok m' ∧ written_back c m m' k.
Proof.
  intros I Hmask. pose proof (ci_wf _ _ _ _ I) as W.
  destruct (findVictim_selected (ca_tags c) g a mask W (ci_assoc _ _ _ _ I) Hmask) as (k & Hv & (b & Hb & _) & Hset).
  destruct (ci_blk _ _ _ _ I k b Hb) as (_ & Hinv & _).
  unfold allocateBlock. rewrite Hv. cbn [mbind result_bind]. rewrite (proj2 (get_blk_Ok _ _ _) Hb). cbn [mbind result_bind].
  assert (c = c <| ca_tags := (ca_tags c) <| lt_blks := <[k := b]> (lt_blks (ca_tags c)) |> |>) as Hid.
  { rewrite list_insert_id by done. by destruct c as [? ? ? ? ? ? ? [] ? ? ? ? ? ?]. }
  assert (same_frame b b) as Hsame by done.
  destruct (blk_isValid b) eqn:Ev; cycle 1.
  { exists k, b, b, [], m. rewrite <-Hid. do 5 (split; [done|]). split; [|done]. intros g0 a0 s0 _ (_ & b0 & Hb0 & Hm).
    rewrite Hb in Hb0. injection Hb0 as <-. apply blk_matches_iff in Hm as (_ & Hx & _). congruence. }
  unfold findMatch. rewrite (ci_idle _ _ _ _ I). cbn [find_match mbind result_bind].
  destruct (blk_isDirty b) eqn:Ed; cycle 1.
  { exists k, b, b, [], m. rewrite <-Hid. do 5 (split; [done|]). split; [|done]. intros g0 a0 s0 Ha0 Hh.
    symmetry. by apply (ci_clean _ _ _ _ I k b). }
  destruct (writebackBlk_spec c m k b I Hb Ev Ed) as (wb & -> & Hc). cbn [mbind result_bind].
  destruct (send_writeback c m k b wb I Hb Ev Hc) as (m' & Hs & Hw).
  exists k, b, (cleaned b), [wb], m'. split; [done|]. split; [done|]. split; [|done].
  do 4 (split; [done|]). split; [|by rewrite Ev].
  rewrite !isValid_bit. unfold cleaned, clear_bits.
  change (cb_status (setf cb_status _ _)) with (Z.land (cb_status b) (Z.lnot BlkDirty)).
  rewrite Z.land_spec. change (Z.testbit (Z.lnot BlkDirty) 0) with true. by rewrite andb_true_r.
Qed.

(** The response of memory to the request for a line. *)
Record line_response (c : Cache) (m : M) (p r : Packet) : Prop := {
  lr_wf : pkt_wf r;
  lr_cmd : pkt_cmd r = ReadResp ∨ pkt_cmd r = ReadExResp;
  lr_flags : pkt_flags r = 0x6B00;
  lr_req : pkt_req r = pkt_req p;
  lr_addr : pkt_addr r = blkAlign (ca_tags c) (pkt_addr p);
  lr_guest : guest_of r = guest_of p;
  lr_tag : pkt_qosTag r = pkt_qosTag p;
  lr_secure : pkt_isSecure r = pkt_isSecure p;
  lr_data : pkt_data r = Some (byte_at m (guest_of p) (pkt_isSecure p) <$>
    addr_range (blkAlign (ca_tags c) (pkt_addr p)) (Z.to_nat (ca_blkSize c)))
}.

Lemma bus_request c m p data :
  cache_inv byte_at ev c m → cpu_request ev c p data →
  ∃ bus r t, getBusPacket c p None (pkt_needsExclusive p) = Ok (Some bus) ∧
    sendAtomic m bus = Ok (m, r, t) ∧ line_response c m p r.
Proof.
  intros I Hp. pose proof Hp as []. pose proof (ci_wf _ _ _ _ I) as [(bb & ss & G) L]. pose proof (mask_geometry _ _ _ G) as [_ Hmask].
  unfold getBusPacket. cbn [mbind result_bind]. rewrite cr_cacheable0. cbn [negb andb].
  assert (bool_decide (pkt_cmd p = Writeback) || pkt_isUpgrade p = false) as ->
    by (unfold pkt_isUpgrade; by destruct cr_cmd0 as [-> | ->]).
  assert (pkt_needsResponse p = true) as -> by (unfold pkt_needsResponse; by destruct cr_cmd0 as [-> | ->]).
  cbn [assertb mbind result_bind]. set (cmd := if pkt_needsExclusive p then ReadExReq else ReadReq).
  assert (cmd = ReadReq ∨ cmd = ReadExReq) as Hcmd by (subst cmd; destruct (pkt_needsExclusive p); tauto).
  set (p0 := Packet_make_blk (pkt_req p) cmd (ca_blkSize c)).
  assert (Packet_allocate p0 =
    Ok (p0 <| pkt_flags := 0x6B00 |> <| pkt_data := Some (replicate (Z.to_nat (ca_blkSize c)) 0) |>)) as -> by reflexivity.
  cbn [mbind result_bind]. set (bus := setf pkt_data _ _).
  assert (pkt_addr bus = blkAlign (ca_tags c) (pkt_addr p)) as Hba.
  { subst bus p0. simpl. rewrite cr_paddr0. unfold blkAlign. rewrite (ci_blkSize _ _ _ _ I), (geo_blkMask _ _ _ G), (geo_blkSize _ _ _ G).
    apply wrap_small. replace (2 ^ bb - 1) with (lt_blkMask (ca_tags c)) by apply G. fold (blkAlign (ca_tags c) (pkt_addr p)).
    rewrite (blkAlign_div _ bb ss) by done. destruct G. pose proof (Z.mul_div_le (pkt_addr p) (2 ^ bb)).
    pose proof (Z.div_pos (pkt_addr p) (2 ^ bb)). destruct cr_addr0. unfold in_width. nia. }
  assert (guest_of bus = guest_of p) as Hg by (unfold guest_of; subst bus p0; simpl; by rewrite cr_tag0).
  destruct (mm_read m bus) as (r & t & Hs & R1 & R2 & R3 & R4 & R5 & R6 & R7 & R8); [by repeat split|done|done|done|].
  exists bus, r, t. split; [done|]. split; [done|]. split.
  - by apply (pkt_wf_flags bus).
  - rewrite R1. subst bus p0. simpl. destruct Hcmd as [-> | ->]; [by left|by right].
  - by rewrite R2.
  - by rewrite R3.
  - by rewrite R4.
  - unfold guest_of in *. by rewrite R7.
  - rewrite R7. subst bus p0. simpl. done.
  - rewrite R6. subst bus p0. simpl. done.
  - rewrite R8, Hg, Hba. subst bus p0. simpl. by rewrite cr_secure0.
Qed.

(** The line of a request as memory has it. *)
Definition memory_line (c : Cache) (m : M) (p : Packet) : list Z :=
  byte_at m (guest_of p) (pkt_isSecure p) <$>
    addr_range (blkAlign (ca_tags c) (pkt_addr p)) (Z.to_nat (ca_blkSize c)).

Lemma length_memory_line c m p : length (memory_line c m p) = Z.to_nat (ca_blkSize c).
Proof. unfold memory_line, addr_range. by rewrite !length_fmap, length_seq. Qed.

Lemma blkAlign_idem t a : lru_wf t → blkAlign t (blkAlign t a) = blkAlign t a.
Proof. intros W. apply block_interval; [done|]. pose proof (lt_blkSize_pos _ W). lia. Qed.

(** The block a fill leaves. *)
Record filled (c : Cache) (p : Packet) (k : nat) (b : CacheBlk) : Prop := {
  fl_data : cb_data b = Some (ca_blkSize c * Z.of_nat k);
  fl_tag : cb_tag b = extractTag (ca_tags c) (pkt_addr p);
  fl_guest : getGuestID b = guest_of p;
  fl_valid : blk_isValid b = true;
  fl_writable : blk_isWritable b = true;
  fl_readable : blk_isReadable b = true;
  fl_clean : blk_isDirty b = false;
  fl_secure : blk_isSecure b = pkt_isSecure p;
  fl_master : cb_srcMasterId b = req_masterId (pkt_req p)
}.

Lemma fill_status_filled (r : Packet) (sec : bool) (b : CacheBlk) :
  pkt_flags r = 0x6B00 → cb_status b = (if sec then BlkSecure else 0) →
  blk_isValid (fill_status r sec b) = true ∧ blk_isWritable (fill_status r sec b) = true ∧
  blk_isReadable (fill_status r sec b) = true ∧ blk_isDirty (fill_status r sec b) = false ∧
  blk_isSecure (fill_status r sec b) = sec.
Proof.
  intros Hf Hb. unfold fill_status. unfold sharedAsserted, memInhibitAsserted. rewrite Hf.
  change (flag_isSet 0x6B00 SHARED) with false. change (flag_isSet 0x6B00 MEM_INHIBIT) with false. cbn [negb].
  unfold blk_isValid, blk_isWritable, blk_isReadable, blk_isDirty, blk_isSecure, set_bits.
  destruct sec; simpl; rewrite Hb; vm_compute; done.
Qed.

Lemma handleFill_miss c m p data mask r :
  cache_inv byte_at ev c m → cpu_request ev c p data → mask_usable (ca_tags c) (guest_of p) mask →
  line_response c m p r →
  ∃ t' k b b' wbs m',
    handleFill_cache ev c r None =
      Ok (c <| ca_tags := t' |> <| ca_data := splice (ca_data c) (Z.to_nat (ca_blkSize c * Z.of_nat k)) (memory_line c m p) |>,
          TagBlk k, wbs) ∧
    send_writebacks sendAtomic m wbs = Ok m' ∧ written_back c m m' k ∧
    lt_blks (ca_tags c) !! k = Some b ∧
    (k / Z.to_nat (lt_assoc (ca_tags c)))%nat = Z.to_nat (extractSet (ca_tags c) (pkt_addr p)) ∧
    lru_wf t' ∧ same_shape (ca_tags c) t' ∧ lt_waymasks t' = lt_waymasks (ca_tags c) ∧
    lt_blks t' = <[k := b']> (lt_blks (ca_tags c)) ∧
    Z.of_nat (length (ts_occupancies (lt_stats t'))) = ev_maxMasters ev ∧ filled c p k b'.
Proof.
  intros I Hp Hmask [R1 R2 R3 R4 R5 R6 R7 R8 R9]. pose proof (ci_wf _ _ _ _ I) as W. pose proof (ci_blkSize _ _ _ _ I) as Hbs.
  pose proof (lt_blkSize_pos _ W) as Hpos. rewrite <-Hbs in Hpos.
  destruct (same_block (ca_tags c) (blkAlign (ca_tags c) (pkt_addr p)) (pkt_addr p) W) as [Hsb _].
  destruct (Hsb (blkAlign_idem _ _ W)) as [Es Et]. clear Hsb.
  destruct (allocateBlock_spec c m (guest_of p) (blkAlign (ca_tags c) (pkt_addr p)) mask I Hmask)
    as (k & b & bx & wbs & m' & Ha & Hb & (B1 & B2 & B3 & B4 & B5 & B6) & Hset & Hsw & Hwb).
  rewrite Es in Hset. apply lookup_lt_Some in Hb as Hk.
  destruct (put_blk_wf (ca_tags c) k b bx W Hb B2 B3) as [_ W2]. set (t2 := setf lt_blks _ _) in *.
  assert (lt_blks t2 !! k = Some bx) as Hbx by (by apply list_lookup_insert_eq).
  assert (masters_ok (ev_maxMasters ev) t2) as Hmm.
  { destruct (ci_masters _ _ _ _ I) as [Hm1 Hm2]. split; [done|]. intros j bj Hj Hv.
    apply list_lookup_insert_Some in Hj as [(_ & <- & _)|[_ Hj]]; [|by apply (Hm2 j)].
    rewrite B4. apply (Hm2 k b Hb). by rewrite <-B5. }
  destruct (insertBlock_spec t2 (ev_curTick ev) (ev_maxMasters ev) (guest_of p) r k bx)
    as (t3 & s3 & b3 & Hins & W3 & Hsh & Hwm & Hblks & _ & _ & Hocc & T1 & T2 & T3 & T4 & T5 & T6 & T7);
    [done..|by rewrite R4; apply Hp|done|rewrite R5; change (extractSet t2) with (extractSet (ca_tags c)); by rewrite Es|].
  assert (lt_blks t3 = <[k := b3]> (lt_blks (ca_tags c))) as Hblks3.
  { rewrite Hblks. subst t2. simpl. by rewrite list_insert_insert_eq. }
  assert (lt_blks t3 !! k = Some b3) as Hb3 by (rewrite Hblks3; by apply list_lookup_insert_eq).
  assert (cb_status b3 = if pkt_isSecure p then BlkSecure else 0) as Hst.
  { rewrite T7, R8, B5. destruct (blk_isValid b); [done|]. by rewrite B6. }
  unfold handleFill_cache. rewrite isSecure_wf by done. cbn [mbind result_bind]. unfold handleFill_blk.
  rewrite getAddr_wf, PKT_TO_GUESTID_wf, R5, R6 by done. cbn [mbind result_bind].
  assert (pkt_hasData r = true) as -> by (unfold pkt_hasData; by destruct R2 as [-> | ->]).
  cbn [assertb mbind result_bind]. rewrite Ha. cbn [mbind result_bind].
  change (ca_tags (c <| ca_tags := t2 |>)) with t2. rewrite Hins. cbn [mbind result_bind].
  set (c3 := setf ca_tags _ (setf ca_tags _ c)). unfold get_ref. change (ca_tags c3) with t3. rewrite (proj2 (get_blk_Ok t3 k b3) Hb3). cbn [mbind result_bind].
  assert (blk_isValid b3 = false) as -> by (unfold blk_isValid; rewrite Hst; by destruct (pkt_isSecure p)).
  cbn [negb assertb mbind result_bind]. rewrite getQosTag_wf, R7, R8 by done. cbn [mbind result_bind].
  change (ca_tags c3) with t3. rewrite (proj2 (get_blk_Ok t3 k b3) Hb3). cbn [mbind result_bind].
  set (b4 := setf cb_whenReady _ _). unfold set_ref. change (ca_tags c3) with t3.
  destruct (put_blk_wf t3 k b3 b4) as [-> W4]; [done|done|by unfold b4, fill_status; destruct (pkt_isSecure p), (sharedAsserted r), (memInhibitAsserted r)..|].
  cbn [mbind result_bind].
  assert (pkt_isRead r = true) as -> by (unfold pkt_isRead; by destruct R2 as [-> | ->]).
  unfold getPtr. rewrite R3, R9. change (flag_isSet 0x6B00 (Z.lor STATIC_DATA DYNAMIC_DATA)) with true.
  cbn [assertb mbind result_bind]. fold (memory_line c m p).
  set (t4 := setf lt_blks _ t3) in *. set (c4 := setf ca_tags _ c3).
  change (ca_blkSize c4) with (ca_blkSize c). rewrite decide_True by (rewrite length_memory_line; lia).
  rewrite take_ge by (rewrite length_memory_line; lia).
  assert (lt_blks t4 = <[k := b4]> (lt_blks (ca_tags c))) as Hblks4.
  { subst t4. simpl. rewrite Hblks3. by rewrite list_insert_insert_eq. }
  assert (cb_data b4 = Some (ca_blkSize c * Z.of_nat k)) as Hd4.
  { assert (cb_data b4 = cb_data b3) as ->
      by (unfold b4, fill_status; destruct (pkt_isSecure p), (sharedAsserted r), (memInhibitAsserted r); done).
    rewrite T4, B1, Hbs. apply (ci_blk _ _ _ _ I k b Hb). }
  destruct (get_line_tag c4 k b4) as [_ ->];
    [change (lt_blks t4 !! k = Some b4); rewrite Hblks4; by apply list_lookup_insert_eq|done|done
    |change (Z.of_nat (length (ca_data c)) = ca_blkSize c * Z.of_nat (length (lt_blks t4))); rewrite Hblks4, length_insert; apply (ci_data _ _ _ _ I)|].
  cbn [mbind result_bind]. exists t4, k, b, b4, wbs, m'. split; [done|]. do 4 (split; [done|]). split; [done|].
  split; [done|]. split; [done|]. split; [done|]. split; [done|].
  destruct (fill_status_filled r (pkt_isSecure p) b3 R3 Hst) as (S1 & S2 & S3 & S4 & S5).
  assert (cb_tag b4 = cb_tag b3 ∧ cb_srcMasterId b4 = cb_srcMasterId b3) as [E1 E2]
    by (unfold b4, fill_status; destruct (pkt_isSecure p), (sharedAsserted r), (memInhibitAsserted r); done).
  split; try done.
  - rewrite E1, T1, R5. apply Et.
  - unfold getGuestID. change (cb_qosTag b4) with (swrap 32 (pkt_qosTag p)). apply guest_of_int.
  - rewrite E2, T3. by rewrite R4.
Qed.

(** Bytes of the line in memory. *)
Lemma memory_line_content c m p a0 :
  lru_wf (ca_tags c) → ca_blkSize c = lt_blkSize (ca_tags c) →
  blkAlign (ca_tags c) a0 = blkAlign (ca_tags c) (pkt_addr p) →
  memory_line c m p !!! Z.to_nat (a0 mod ca_blkSize c) = byte_at m (guest_of p) (pkt_isSecure p) a0.
Proof.
  intros W Hbs Hal. pose proof (lt_blkSize_pos _ W) as Hpos. rewrite <-Hbs in Hpos.
  pose proof (Z.mod_pos_bound a0 _ Hpos). unfold memory_line, addr_range. rewrite list_lookup_total_alt.
  rewrite !list_lookup_fmap, lookup_seq_lt by lia. simpl. f_equal. rewrite <-Hal. destruct W as [(b & s & G) _].
  rewrite (blkAlign_div _ b s) by done. rewrite Z2Nat.id, Hbs, (geo_blkSize _ _ _ G) by lia.
  destruct G. pose proof (Z.div_mod a0 (2 ^ b)). lia.
Qed.

(** A request whose line is not in the cache. *)
Lemma atomic_miss_spec c m p data mask lat :
  cache_inv byte_at ev c m → cpu_request ev c p data → ev_clockPeriod ev ≠ 0 →
  mask_usable (ca_tags c) (guest_of p) mask →
  findBlock (ca_tags c) (guest_of p) (pkt_addr p) (pkt_isSecure p) = Ok None →
  ∃ a m', atomic_miss sendAtomic ev (mkAccess c m p None lat [] false) = Ok a ∧
    send_writebacks sendAtomic (ac_mem a) (ac_writebacks a) = Ok m' ∧ outcome c m p data (ac_cache a) m' (ac_pkt a).
Proof.
  intros I Hp Hclk Hmask Hmiss. pose proof (ci_wf _ _ _ _ I) as W. pose proof (ci_blkSize _ _ _ _ I) as Hbs.
  pose proof (lt_blkSize_pos _ W) as Hpos. rewrite <-Hbs in Hpos.
  destruct (bus_request c m p data I Hp) as (bus & r & t & Hbus & Hsend & Hr).
  destruct (handleFill_miss c m p data mask r I Hp Hmask Hr)
    as (t' & k & b & b' & wbs & m' & Hfill & Hsw & [We Wo] & Hb & Hset & W' & Hsh & Hwm & Hblks & Hocc & F).
  apply lookup_lt_Some in Hb as Hk. pose proof F as [F1 F2 F3 F4 F5 F6 F7 F8 F9].
  unfold atomic_miss. cbn [ac_cache ac_pkt ac_blk ac_mem ac_lat ac_writebacks]. rewrite Hbus. cbn [mbind result_bind].
  rewrite Hsend. cbn [mbind result_bind]. unfold ticksToCycles, divCeil. rewrite (proj2 (Z.eqb_neq _ _) Hclk).
  cbn [mbind result_bind].
  assert (pkt_needsResponse p = true) as -> by (unfold pkt_needsResponse; by destruct (cr_cmd _ _ _ _ Hp) as [-> | ->]).
  assert (pkt_isResponse r = true ∧ pkt_isError r = false ∧ pkt_isRead r = true) as (-> & -> & ->)
    by (unfold pkt_isResponse, pkt_isError, pkt_isRead; by destruct (lr_cmd _ _ _ _ Hr) as [-> | ->]).
  cbn [assertb orb mbind result_bind]. rewrite Hfill. cbn [mbind result_bind].
  set (c4 := setf ca_data _ _).
  pose proof (ci_data _ _ _ _ I) as Hdata.
  assert (ca_data c4 = splice (ca_data c) (Z.to_nat (ca_blkSize c * Z.of_nat k)) (memory_line c m p)) as Hd4 by done.
  assert (Z.of_nat (length (ca_data c4)) = ca_blkSize c * Z.of_nat (length (lt_blks t'))) as Hlen4.
  { rewrite Hd4, length_splice, Hblks, length_insert; [done|]. rewrite length_memory_line. nia. }
  assert (block_line c4 k = memory_line c m p) as Hbl.
  { rewrite (block_line_splice c c4 k k (memory_line c m p)); try done; [by rewrite decide_True|].
    rewrite length_memory_line. lia. }
  destruct (satisfy_request ev c4 p data k b') as (p' & -> & Hsp & W5);
    [done|change (ca_blkSize c = lt_blkSize t'); rewrite Hbs; by destruct Hsh as (-> & _)|apply I|by apply (cpu_request_size c)
    |done|change (lt_blks t' !! k = Some b'); rewrite Hblks; by apply list_lookup_insert_eq|done|done|].
  cbn [mbind result_bind]. eexists _, m'. split; [done|]. cbn [ac_cache ac_pkt ac_mem ac_writebacks app]. split; [done|].
  rewrite Hbl in *.
  destruct (served_status p b' F4) as (Sv & Ss & Sw & Sr & _). destruct (served_fields p b') as (G1 & G2 & G3 & G4 & G5 & G6).
  assert (∀ a0, blkAlign (ca_tags c) a0 = blkAlign (ca_tags c) (pkt_addr p) →
    ∀ j, ¬ holds (ca_tags c) (guest_of p) a0 (pkt_isSecure p) j) as Hno.
  { intros a0 Hal j Hj. apply (findBlock_None _ _ _ _ j W Hmiss). by apply (holds_block _ _ a0). }
  assert (∀ a0, in_width 64 a0 → blkAlign (ca_tags c) a0 = blkAlign (ca_tags c) (pkt_addr p) →
    memory_line c m p !!! Z.to_nat (a0 mod ca_blkSize c) = view byte_at c m (guest_of p) (pkt_isSecure p) a0) as Hline.
  { intros a0 Ha0 Hal. rewrite memory_line_content by done. symmetry. apply view_absent; [done|by apply Hno]. }
  eapply (replaced_outcome c m _ m' p data (memory_line c m p) k b b'); try done.
  - rewrite length_memory_line. lia.
  - intros _ _ a0 Ha0 Hal. rewrite memory_line_content by done. symmetry. apply Wo; [done|by apply Hno].
  - split; try done.
    + simpl. rewrite Hblks. by rewrite list_insert_insert_eq.
    + change (splice (ca_data c4) (Z.to_nat (ca_blkSize c * Z.of_nat k)) (served_line c p data (memory_line c m p)) =
        splice (ca_data c) (Z.to_nat (ca_blkSize c * Z.of_nat k)) (served_line c p data (memory_line c m p))).
      rewrite Hd4. apply splice_splice_eq; [rewrite length_memory_line; nia|].
      pose proof (length_served ev c p data (memory_line c m p) W Hbs Hp). rewrite length_memory_line in *. lia.
    + apply (length_served ev c p data); try done. rewrite length_memory_line. lia.
    + apply blk_matches_iff. by rewrite G4, G6, Ss, Sv.
    + right. by apply Hno.
    + intros g0 a0 s0 Ha0 Hh _. by apply We.
    + intros g0 a0 s0 Ha0 [Hh|Hh]; [by apply Wo|]. by destruct (Hno (pkt_addr p) eq_refl k).
  - split; [by rewrite G1, <-Hbs|]. rewrite Sv. split; [done|]. intros _. rewrite G4. split; [by apply Sw|]. split; [by apply Sr|].
    exists (pkt_addr p). split; [apply Hp|done].
  - eapply (masters_insert (ca_tags c) _ k (served_blk p b')); [apply I| |done|].
    + simpl. rewrite Hblks. by rewrite list_insert_insert_eq.
    + rewrite G5, F9. apply Hp.
Qed.

End Access.

(** ** The specification *)

(** One byte per domain, security space and address; a store
    changes the bytes of its domain, a load returns them. *)
Definition Spec : Type := Z → bool → Z → Z.
Definition spec_store (S : Spec) (p : Packet) (data : list Z) : Spec := λ g s a,
  if decide (g = guest_of p ∧ s = pkt_isSecure p ∧ pkt_addr p ≤ a < pkt_addr p + pkt_size p)
  then data !!! Z.to_nat (a - pkt_addr p) else S g s a.
Definition spec_load (S : Spec) (p : Packet) : list Z :=
  S (guest_of p) (pkt_isSecure p) <$> addr_range (pkt_addr p) (Z.to_nat (pkt_size p)).
Fixpoint spec_run (S : Spec) (reqs : list Packet) : Spec * list (option (list Z)) :=
  match reqs with
  | [] => (S, [])
  | p :: reqs =>
      if decide (pkt_cmd p = WriteReq)
      then let '(S', ls) := spec_run (spec_store S p (default [] (pkt_data p))) reqs in (S', None :: ls)
      else let '(S', ls) := spec_run S reqs in (S', Some (spec_load S p) :: ls)
  end.

(** What the responses say: the bytes of the loads. *)
Definition loads (reqs resps : list Packet) : list (option (list Z)) :=
  zip_with (λ p p', if decide (pkt_cmd p = WriteReq) then None else pkt_data p') reqs resps.

(** The requests of one domain, and what it gets for them. *)
Definition own (g : Z) (reqs : list Packet) : list Packet := filter (λ p, guest_of p = g) reqs.
Fixpoint own_results {A : Type} (g : Z) (reqs : list Packet) (rs : list A) : list A :=
  match reqs, rs with
  | p :: reqs, r :: rs => if decide (guest_of p = g) then r :: own_results g reqs rs else own_results g reqs rs
  | _, _ => []
  end.

(** In the specification the requests of the other domains make no difference. *)
Lemma spec_run_own g reqs (S S' : Spec) :
  (∀ s a, S g s a = S' g s a) →
  own_results g reqs (spec_run S reqs).2 = (spec_run S' (own g reqs)).2 ∧
  ∀ s a, (spec_run S reqs).1 g s a = (spec_run S' (own g reqs)).1 g s a.
Proof.
  revert S S'. induction reqs as [|p reqs IH]; intros S S' HS; [done|].
  unfold own. rewrite filter_cons. cbn [spec_run]. destruct (decide (guest_of p = g)) as [Hg|Hg].
  - cbn [spec_run]. destruct (decide (pkt_cmd p = WriteReq)) as [Hc|Hc].
    + destruct (IH (spec_store S p (default [] (pkt_data p))) (spec_store S' p (default [] (pkt_data p)))) as [H1 H2].
      { intros s a. unfold spec_store. by case_decide. }
      unfold own in *. destruct (spec_run (spec_store S p _) reqs), (spec_run (spec_store S' p _) _).
      cbn [own_results fst snd] in *. rewrite decide_True by done. by rewrite H1.
    + destruct (IH S S' HS) as [H1 H2]. unfold own in *. assert (spec_load S p = spec_load S' p) as ->.
      { unfold spec_load. rewrite Hg. apply list_fmap_ext. auto. }
      destruct (spec_run S reqs), (spec_run S' _). cbn [own_results fst snd] in *. rewrite decide_True by done. by rewrite H1.
  - destruct (decide (pkt_cmd p = WriteReq)) as [Hc|Hc].
    + destruct (IH (spec_store S p (default [] (pkt_data p))) S') as [H1 H2].
      { intros s a. unfold spec_store. rewrite decide_False by naive_solver. apply HS. }
      unfold own in *. destruct (spec_run (spec_store S p _) reqs). cbn [own_results fst snd] in *.
      by rewrite decide_False by done.
    + destruct (IH S S' HS) as [H1 H2]. unfold own in *. destruct (spec_run S reqs). cbn [own_results fst snd] in *.
      by rewrite decide_False by done.
Qed.

(** ** Sequences of accesses *)

Section Run.

Context {M : Type} (sendAtomic : M → Packet → result (M * Packet * Z)) (sendFunctional : M → Packet → result M)
  (byte_at : M → Z → bool → Z → Z) `{!MainMemory sendAtomic byte_at} (ev : Env).

Lemma recvAtomic_transparent_step c m p data mask :
  cache_inv byte_at ev c m → cpu_request ev c p data → mask_usable (ca_tags c) (guest_of p) mask →
  ev_bypassCaches ev = false → ev_clockPeriod ev ≠ 0 →
  ∃ c' m' p1 p' lat, ca_recvAtomic sendAtomic sendFunctional ev c m p = Ok (c', m', p', lat) ∧
    outcome byte_at ev c m p data c' m' p1 ∧ pkt_cmd p' = responseCommand (pkt_cmd p) ∧ pkt_data p' = pkt_data p1.
Proof.
  intros I Hp Hmask Hby Hclk. unfold ca_recvAtomic. rewrite Hby, (cr_inhibit _ _ _ _ Hp).
  assert (∀ q, pkt_cmd q = pkt_cmd p → ∃ q', (if pkt_needsResponse q then makeResponse q else Ok q) = Ok q' ∧
    pkt_cmd q' = responseCommand (pkt_cmd p) ∧ pkt_data q' = pkt_data q) as Hresp.
  { intros q Hq. unfold pkt_needsResponse, makeResponse, pkt_isRequest, pkt_needsResponse. rewrite Hq.
    destruct (cr_cmd _ _ _ _ Hp) as [-> | ->]; eexists; (split; [reflexivity|done]). }
  destruct (findBlock_total (ca_tags c) (guest_of p) (pkt_addr p) (pkt_isSecure p) (ci_wf _ _ _ _ I)) as [[k|] Hf].
  - destruct (access_hit sendFunctional byte_at ev c m p data k I Hp Hclk Hf) as (a & -> & Hs & Hw & Hm & Ho).
    cbn [mbind result_bind]. rewrite Hs. cbn [mbind result_bind]. rewrite Hw, Hm. cbn [send_writebacks foldM mbind result_bind].
    destruct (Hresp (ac_pkt a)) as (q' & -> & Hc & Hd); [apply Ho|]. cbn [mbind result_bind].
    eexists _, _, (ac_pkt a), q', _. split; [done|]. by split.
  - unfold access. rewrite (cr_cacheable _ _ _ _ Hp), PKT_TO_GUESTID_wf, getAddr_wf, isSecure_wf by apply Hp.
    cbn [mbind result_bind].
    destruct (accessBlock_spec (ca_tags c) (ev_curTick ev) (ev_clockPeriod ev) (guest_of p) (pkt_addr p) (pkt_isSecure p)
      (ci_wf _ _ _ _ I) Hclk) as (t1 & o & lat & -> & Hf' & W1 & Hsh & Hwm & Hocc & Ho).
    rewrite Hf in Hf'. injection Hf' as <-. destruct Ho as [Hblks Hsets]. cbn [mbind result_bind].
    rewrite decide_False by (by destruct (cr_cmd _ _ _ _ Hp) as [-> | ->]). unfold count_access.
    destruct (cr_master _ _ _ _ Hp) as [_ Hmas]. rewrite (proj2 (Z.ltb_lt _ _) Hmas). cbn [assertb mbind result_bind].
    assert (pkt_isLLSC p = false) as -> by (unfold pkt_isLLSC; by destruct (cr_cmd _ _ _ _ Hp) as [-> | ->]).
    rewrite andb_false_r. cbn [andb mbind result_bind ac_satisfied fmap option_fmap option_map].
    destruct (same_blocks byte_at ev c m t1 I W1 Hsh Hblks Hocc) as [I1 Hview]. set (c1 := setf ca_tags _ c) in *.
    destruct (atomic_miss_spec sendAtomic sendFunctional byte_at ev c1 m p data mask lat I1) as (a & m' & -> & Hsw & Ho);
      [by apply (cpu_request_size ev c)|done|..].
    { destruct Hmask as (H1 & H2 & w & Hw & H3). unfold mask_usable. change (ca_tags c1) with t1. rewrite Hwm.
      destruct Hsh as (_&_&_&_&_&_&->). eauto. }
    { change (ca_tags c1) with t1. unfold findBlock in *. destruct Hsh as (_&_&Hss&Hts&Hsm&_&_).
      unfold extractSet, extractTag in *. by rewrite Hss, Hts, Hsm, Hsets, Hblks. }
    cbn [mbind result_bind]. rewrite Hsw. cbn [mbind result_bind].
    destruct (Hresp (ac_pkt a)) as (q' & -> & Hc & Hd); [apply Ho|]. cbn [mbind result_bind].
    eexists _, _, (ac_pkt a), q', _. split; [done|]. split; [|done].
    destruct Ho as (O1 & O2 & O3 & O4 & O5 & O6 & O7). split; [done|]. split; [by rewrite O2|].
    split; [|split; [done|split; [done|split]]].
    + change (ca_tags c1) with t1 in O3. destruct Hsh as (?&?&?&?&?&?&?), O3 as (?&?&?&?&?&?&?). repeat split; congruence.
    + intros Hr. rewrite (O6 Hr). f_equal. apply list_fmap_ext. intros. apply Hview.
    + intros g s a0 Ha0. rewrite O7 by done. unfold view_after. by rewrite Hview.
Qed.

(** Requests one after the other; the responses in order. *)
Fixpoint run_atomic (c : Cache) (m : M) (reqs : list Packet) : result (Cache * M * list Packet) :=
  match reqs with
  | [] => Ok (c, m, [])
  | p :: reqs =>
      '(c, m, p', _) ← ca_recvAtomic sendAtomic sendFunctional ev c m p;
      '(c, m, ps) ← run_atomic c m reqs;
      Ok (c, m, p' :: ps)
  end.

(** A request the cache can serve: its domain has a way to fill. *)
Definition servable (c : Cache) (p : Packet) : Prop :=
  (∃ data, cpu_request ev c p data) ∧ ∃ mask, mask_usable (ca_tags c) (guest_of p) mask.

(** One request against the specification. *)
Lemma outcome_spec c m p data c' m' p1 (S : Spec) :
  cache_inv byte_at ev c m → cpu_request ev c p data → outcome byte_at ev c m p data c' m' p1 →
  (∀ g s a, in_width 64 a → view byte_at c m g s a = S g s a) →
  (pkt_cmd p = ReadReq → pkt_data p1 = Some (spec_load S p)) ∧
  (∀ g s a, in_width 64 a → view byte_at c' m' g s a =
     if decide (pkt_cmd p = WriteReq) then spec_store S p data g s a else S g s a).
Proof.
  intros I Hp (_ & _ & _ & _ & _ & Hl & Hv) HS. pose proof (cr_len _ _ _ _ Hp) as Hlen. split.
  - intros Hr. rewrite (Hl Hr). f_equal. unfold spec_load. replace (Z.to_nat (pkt_size p)) with (length data) by lia.
    apply list_fmap_ext. intros i a Ha. apply HS. unfold addr_range in Ha.
    rewrite list_lookup_fmap in Ha. destruct (seq 0 (length data) !! i) as [n|] eqn:Hn; [|done].
    apply lookup_seq in Hn as [-> ?]. injection Ha as <-.
    eapply (request_block ev c p data); [apply I|apply I|done|lia].
  - intros g s a Ha. rewrite Hv by done. unfold view_after, spec_store.
    destruct (decide (pkt_cmd p = WriteReq)) as [Hc|Hc]; [|by rewrite decide_False by naive_solver; apply HS].
    destruct (decide (g = _ ∧ s = _ ∧ _)) as [Hx|Hx]; [by rewrite decide_True|].
    rewrite decide_False by naive_solver. by apply HS.
Qed.

(** A sequence of requests against the specification. *)
Lemma run_refines reqs c m (S : Spec) :
  cache_inv byte_at ev c m → ev_bypassCaches ev = false → ev_clockPeriod ev ≠ 0 →
  Forall (servable c) reqs → (∀ g s a, in_width 64 a → view byte_at c m g s a = S g s a) →
  ∃ c' m' ps, run_atomic c m reqs = Ok (c', m', ps) ∧ cache_inv byte_at ev c' m' ∧
    Forall2 (λ p p', pkt_cmd p' = responseCommand (pkt_cmd p)) reqs ps ∧
    loads reqs ps = (spec_run S reqs).2 ∧
    ∀ g s a, in_width 64 a → view byte_at c' m' g s a = (spec_run S reqs).1 g s a.
Proof.
  intros I Hby Hclk. revert c m S I. induction reqs as [|p reqs IH]; intros c m S I Hreqs HS.
  { exists c, m, []. split; [done|]. split; [done|]. split; [constructor|]. by split. }
  apply Forall_cons in Hreqs as [[(data & Hp) (mask & Hmask)] Hreqs].
  destruct (recvAtomic_transparent_step c m p data mask) as (c1 & m1 & p1 & p' & lat & Hrun & Ho & Hc & Hd); [done..|].
  destruct (outcome_spec c m p data c1 m1 p1 S I Hp Ho HS) as [Hl Hv]. pose proof Ho as (I1 & Hwm & Hsh & Hbs & _).
  destruct (IH c1 m1 (if decide (pkt_cmd p = WriteReq) then spec_store S p data else S))
    as (c' & m' & ps & Hrest & I' & Hf & Hls & Hv'); [done| |by intros g s a Ha; rewrite Hv by done; case_decide|].
  { eapply Forall_impl; [exact Hreqs|]. intros q [(dq & Hq) (mq & Hmq)]. split; [exists dq; by apply (cpu_request_size ev c)|].
    exists mq. destruct Hmq as (H1 & H2 & w & H3 & H4). unfold mask_usable. rewrite Hwm.
    destruct Hsh as (_&_&_&_&_&_&->). eauto. }
  exists c', m', (p' :: ps). cbn [run_atomic]. rewrite Hrun. cbn [mbind result_bind]. rewrite Hrest.
  split; [done|]. split; [done|]. split; [by constructor|]. cbn [spec_run]. unfold loads in *. cbn [zip_with].
  rewrite Hls. case_decide as Hcmd.
  - rewrite (cr_data _ _ _ _ Hp). change (default [] (Some data)) with data. by destruct (spec_run (spec_store S p data) reqs) as [S' ls].
  - rewrite Hd, Hl by (by destruct (cr_cmd _ _ _ _ Hp)). by destruct (spec_run S reqs) as [S' ls].
Qed.

(** A new cache over any memory. *)
Lemma Cache_make_inv size assoc lat seqa wm priv guest fwd bs hit resp nm nw t c m :
  LRU_make size bs assoc lat seqa wm (ev_maxMasters ev) = Ok t → 0 ≤ size < 2 ^ 32 → in_width 31 bs →
  bs * assoc < 2 ^ 32 → assoc ≤ 31 → 0 ≤ ev_maxMasters ev →
  Cache_make priv guest true fwd bs hit resp nm nw false t = Ok c →
  cache_inv byte_at ev c m ∧ ca_tags c = t ∧ lt_waymasks t = wm ∧
  ∀ g s a, view byte_at c m g s a = byte_at m g s a.
Proof.
  intros Ht Hsize Hbs Hba Has Hmm Hc. pose proof (LRU_make_wf _ _ _ _ _ _ _ _ Hbs Ht) as W.
  destruct (LRU_make_empty _ _ _ _ _ _ _ _ Ht Hmm) as [Hemp Hmas].
  assert (0 < bs) as Hpos.
  { unfold LRU_make in Ht. destruct (_ =? 0); [done|]. inv_ok. apply orb_false_iff in E as [E%Z.ltb_ge _]. lia. }
  destruct (LRU_make_blocks _ _ _ _ _ _ _ _ Ht Hsize Hpos Hba) as (H1 & H2 & H3 & H4 & H5).
  unfold Cache_make in Hc. cbn in Hc. injection Hc as <-.
  assert (∀ g s a k, ¬ holds t g a s k) as Hno.
  { intros g s a k (_ & b & Hb & Hm). apply blk_matches_iff in Hm as (_ & Hv & _). by rewrite (Hemp k b Hb) in Hv. }
  split; [|split; [done|split; [done|]]].
  - split; cbn [ca_tags ca_blkSize ca_isTopLevel ca_mshrQueue ca_data]; try done.
    + by apply empty_unique.
    + by rewrite H2.
    + by rewrite H1, H4, length_replicate, Z2Nat.id, Z.mul_comm by lia.
    + intros k b Hb. destruct (H5 k b Hb) as [Hd Hs]. split; [by rewrite Hd, H1|]. rewrite (Hemp k b Hb). done.
    + intros k b g s a _ _ _ Hk. by destruct (Hno g s a k).
  - intros g s a. apply view_absent; [done|apply Hno].
Qed.

End Run.

(** ** A memory *)

(** A memory that keeps a byte per domain, security space and address. *)
Definition Flat : Type := Z → bool → Z → Z.
Definition flat_byte (m : Flat) : Z → bool → Z → Z := m.
Definition flat_send (m : Flat) (p : Packet) : result (Flat * Packet * Z) :=
  if pkt_isRead p then
    p ← makeResponse p;
    Ok (m, p <| pkt_data := Some (m (guest_of p) (pkt_isSecure p) <$> addr_range (pkt_addr p) (Z.to_nat (pkt_size p))) |>, 30)
  else
    data ← getPtr p;
    Ok ((λ g s a, if decide (g = guest_of p ∧ s = pkt_isSecure p ∧ pkt_addr p ≤ a < pkt_addr p + pkt_size p)
                  then data !!! Z.to_nat (a - pkt_addr p) else m g s a), p, 30).

#[export] Instance flat_memory : MainMemory flat_send flat_byte.
Proof.
  split.
  - intros m p (_ & _ & _) Hc _ Hf. unfold flat_send, makeResponse, pkt_isRead, pkt_needsResponse, pkt_isRequest.
    exists ((flag_clear (p <| pkt_origCmd := pkt_cmd p |> <| pkt_cmd := responseCommand (pkt_cmd p) |>) EXPRESS_SNOOP)
      <| pkt_dest := pkt_src p |> <| pkt_src := InvalidPortID |>
      <| pkt_data := Some (m (guest_of p) (pkt_isSecure p) <$> addr_range (pkt_addr p) (Z.to_nat (pkt_size p))) |>), 30.
    split; [by destruct Hc as [-> | ->]|]. split; [done|]. split; [|done].
    unfold flag_clear. simpl. by rewrite Hf.
  - intros m p data _ Hc Hf Hd _. unfold flat_send, pkt_isRead, getPtr. rewrite Hc, Hf, Hd. by eexists _, _, _.
Qed.

(** ** Properties *)

(** C5: the cache is transparent.  A newly built top-level cache in atomic mode
    serves every sequence of loads and stores of the domains over a memory that
    keeps its interface: it never fails, every load returns the bytes its own
    domain and security space stored last, whatever was evicted, written back
    and refilled in between, and the final content seen through the cache is
    the one of the specification. *)
Theorem cache_refines_memory {M : Type} (sendAtomic : M → Packet → result (M * Packet * Z))
    (sendFunctional : M → Packet → result M) (byte_at : M → Z → bool → Z → Z) `{!MainMemory sendAtomic byte_at}
    (ev : Env) size assoc lat seqa wm priv guest fwd bs hit resp nm nw t c m reqs :
  LRU_make size bs assoc lat seqa wm (ev_maxMasters ev) = Ok t → 0 ≤ size < 2 ^ 32 → in_width 31 bs →
  bs * assoc < 2 ^ 32 → assoc ≤ 31 → 0 ≤ ev_maxMasters ev →
  Cache_make priv guest true fwd bs hit resp nm nw false t = Ok c →
  ev_bypassCaches ev = false → ev_clockPeriod ev ≠ 0 → Forall (servable ev c) reqs →
  ∃ c' m' ps, run_atomic sendAtomic sendFunctional ev c m reqs = Ok (c', m', ps) ∧
    Forall2 (λ p p', pkt_cmd p' = responseCommand (pkt_cmd p)) reqs ps ∧
    loads reqs ps = (spec_run (byte_at m) reqs).2 ∧
    ∀ g s a, in_width 64 a → view byte_at c' m' g s a = (spec_run (byte_at m) reqs).1 g s a.
Proof.
  intros Ht H1 H2 H3 H4 H5 Hc Hby Hclk Hr.
  destruct (Cache_make_inv byte_at ev size assoc lat seqa wm priv guest fwd bs hit resp nm nw t c m)
    as (I & _ & _ & Hv); [done..|].
  destruct (run_refines sendAtomic sendFunctional byte_at ev reqs c m (byte_at m))
    as (c' & m' & ps & ? & _ & ? & ? & ?); [done..|]. by exists c', m', ps.
Qed.

(** A cache of 8 sets of 2 ways, a way for each of two domains. *)
Definition demo_env : Env := mkEnv 1000 1000 500 4 false.
Definition demo_cache : Cache :=
  match Cache_make false 0 true true 64 2 2 4 8 false demo_lru with
  | Ok c => c
  | Err _ => mkCache false 0 true true 0 0 0 demo_lru [] (CacheBlk_make 0) [] [] (MSHRQueue_make 0 0 0 0) (MSHRQueue_make 0 0 0 0)
  end.
(** A request of domain [g] for four bytes. *)
Definition demo_access (cmd : MemCmd) (g a : Z) (data : list Z) : Packet :=
  (flag_set (Packet_make ((Request_phys a 4 0 1) <| req_qosTag := g |>) cmd) STATIC_DATA) <| pkt_data := Some data |>.
(** Domain 0 stores to a line and evicts it with a store to another line of the
    set; then both domains load from the first line. *)
Definition demo_reqs : list Packet :=
  [demo_access WriteReq 0 0x1244 [7; 8; 9; 10]; demo_access WriteReq 0 0x2248 [1; 2; 3; 4];
   demo_access ReadReq 0 0x1244 [0; 0; 0; 0]; demo_access ReadReq 1 0x1244 [0; 0; 0; 0]].

Lemma demo_servable : Forall (servable demo_env demo_cache) demo_reqs.
Proof.
  assert (∀ cmd g a data, cmd = ReadReq ∨ cmd = WriteReq → 0 ≤ g < 2 → length data = 4%nat →
    in_width 64 a → a mod 64 + 4 ≤ 64 → servable demo_env demo_cache (demo_access cmd g a data)) as H.
  { intros cmd g a data Hc Hg Hd Ha Hf. split.
    - exists data. split; try done; cbn -[Z.modulo]; lia.
    - exists (g + 1). assert (g = 0 ∨ g = 1) as [-> | ->] by lia; (split; [reflexivity|split; [done|]]);
        [exists 0|exists 1]; (split; [split; [lia|reflexivity]|done]). }
  repeat (apply Forall_cons; split; [apply H; (done || lia || auto)|]). constructor.
Qed.

Lemma cache_refines_memory_witness :
  ∃ c' m' ps, run_atomic flat_send (λ m _, Ok m) demo_env demo_cache (λ _ _ _, 0) demo_reqs = Ok (c', m', ps) ∧
    loads demo_reqs ps = [None; None; Some [7; 8; 9; 10]; Some [0; 0; 0; 0]].
Proof.
  destruct (cache_refines_memory flat_send (λ m _, Ok m) flat_byte demo_env 1024 2 1 false [1; 2] false 0 true
    64 2 2 4 8 demo_lru demo_cache (λ _ _ _, 0) demo_reqs) as (c' & m' & ps & H1 & _ & H2 & _);
    [apply demo_lru_made|lia|done|done|done|done|reflexivity|done|done|apply demo_servable|].
  exists c', m', ps. split; [done|]. rewrite H2. vm_compute. reflexivity.
Defined.

(** C6: domains do not interfere through the cache.  Two runs of the same cache
    in which domain [g] issues the same requests, interleaved with any requests
    of the other domains, give [g] the same bytes for its loads and leave it
    the same content, also when the memories differ outside of [g]. *)
Theorem cache_domain_isolation {M : Type} (sendAtomic : M → Packet → result (M * Packet * Z))
    (sendFunctional : M → Packet → result M) (byte_at : M → Z → bool → Z → Z) `{!MainMemory sendAtomic byte_at}
    (ev : Env) (g : Z) (c c2 : Cache) (m m2 : M) (reqs reqs2 : list Packet) :
  cache_inv byte_at ev c m → cache_inv byte_at ev c2 m2 →
  (∀ s a, in_width 64 a → view byte_at c m g s a = view byte_at c2 m2 g s a) →
  ev_bypassCaches ev = false → ev_clockPeriod ev ≠ 0 →
  Forall (servable ev c) reqs → Forall (servable ev c2) reqs2 → own g reqs = own g reqs2 →
  ∃ c' m' ps c2' m2' ps2,
    run_atomic sendAtomic sendFunctional ev c m reqs = Ok (c', m', ps) ∧
    run_atomic sendAtomic sendFunctional ev c2 m2 reqs2 = Ok (c2', m2', ps2) ∧
    own_results g reqs (loads reqs ps) = own_results g reqs2 (loads reqs2 ps2) ∧
    ∀ s a, in_width 64 a → view byte_at c' m' g s a = view byte_at c2' m2' g s a.
Proof.
  intros I I2 HS Hby Hclk Hr Hr2 Ho.
  set (S := λ (c0 : Cache) (m0 : M) g0 s a, if decide (in_width 64 a) then view byte_at c0 m0 g0 s a else 0).
  destruct (run_refines sendAtomic sendFunctional byte_at ev reqs c m (S c m))
    as (c' & m' & ps & E & _ & _ & H1 & H2); [done..|by intros; unfold S; rewrite decide_True|].
  destruct (run_refines sendAtomic sendFunctional byte_at ev reqs2 c2 m2 (S c2 m2))
    as (c2' & m2' & ps2 & E2 & _ & _ & H3 & H4); [done..|by intros; unfold S; rewrite decide_True|].
  exists c', m', ps, c2', m2', ps2. split; [done|]. split; [done|]. rewrite H1, H3.
  destruct (spec_run_own g reqs (S c m) (S c2 m2)) as [F1 F2]; [intros; unfold S; case_decide; auto|].
  destruct (spec_run_own g reqs2 (S c2 m2) (S c2 m2)) as [F3 F4]; [done|].
  split; [by rewrite F1, F3, Ho|]. intros s a Ha. by rewrite H2, H4, F2, F4, Ho by done.
Qed.

Lemma cache_domain_isolation_witness :
  ∃ c' m' ps c2' m2' ps2,
    run_atomic flat_send (λ m _, Ok m) demo_env demo_cache (λ _ _ _, 0) demo_reqs = Ok (c', m', ps) ∧
    run_atomic flat_send (λ m _, Ok m) demo_env demo_cache (λ g _ _, if g =? 1 then 0 else 5)
      [demo_access ReadReq 1 0x1244 [0; 0; 0; 0]] = Ok (c2', m2', ps2) ∧
    own_results 1 demo_reqs (loads demo_reqs ps) =
      own_results 1 [demo_access ReadReq 1 0x1244 [0; 0; 0; 0]] (loads [demo_access ReadReq 1 0x1244 [0; 0; 0; 0]] ps2).
Proof.
  assert (∀ m, cache_inv flat_byte demo_env demo_cache m ∧
    ∀ g s a, view flat_byte demo_cache m g s a = flat_byte m g s a) as Hi.
  { intros m. destruct (Cache_make_inv flat_byte demo_env 1024 2 1 false [1; 2] false 0 true 64 2 2 4 8 demo_lru demo_cache m)
      as (I & _ & _ & Hv); [apply demo_lru_made|lia|done|done|done|done|reflexivity|done]. }
  destruct (cache_domain_isolation flat_send (λ m _, Ok m) flat_byte demo_env 1 demo_cache demo_cache
    (λ _ _ _, 0) (λ g _ _, if g =? 1 then 0 else 5) demo_reqs [demo_access ReadReq 1 0x1244 [0; 0; 0; 0]])
    as (c' & m' & ps & c2' & m2' & ps2 & H1 & H2 & H3 & _);
    [apply Hi|apply Hi| |reflexivity|discriminate|apply demo_servable| |vm_compute; reflexivity|].
  - intros s a _. rewrite !(proj2 (Hi _)). reflexivity.
  - pose proof demo_servable as H. unfold demo_reqs in H. rewrite !Forall_cons in H. 
    constructor; [apply H|constructor].
  - exists c', m', ps, c2', m2', ps2. split; [exact H1|]. split; [exact H2|exact H3].
Defined.
