(* ===== verification/CacheSnoop.v ===== *)
(** * Snoops and the issue order of the cache controller

    What a cache of [CacheCtrl] does to a line when another cache asks for it
    (atomic mode), which request it sends next, and which tag and security its
    write-backs have. *)

From S2P Require Import Prelude BaseLib Packet CacheBlk CacheSet LruTags Mshr MshrQueue CacheCtrl CacheAtomic.
Local Open Scope Z_scope.

(** ** Dropping a block *)

(** The tag store and the bytes of its blocks are in order. *)
Record store_ok (ev : Env) (c : Cache) : Prop := {
  so_wf : lru_wf (ca_tags c);
  so_unique : lru_unique (ca_tags c);
  so_masters : masters_ok (ev_maxMasters ev) (ca_tags c);
  so_blkSize : ca_blkSize c = lt_blkSize (ca_tags c);
  so_data : Z.of_nat (length (ca_data c)) = ca_blkSize c * Z.of_nat (length (lt_blks (ca_tags c)));
  so_ptr : ∀ k b, lt_blks (ca_tags c) !! k = Some b → cb_data b = Some (ca_blkSize c * Z.of_nat k)
}.

Lemma cache_inv_store {M} (byte_at : M → Z → bool → Z → Z) ev c m : cache_inv byte_at ev c m → store_ok ev c.
Proof.
  intros []. split; try done. intros k b Hb. destruct (ci_blk k b Hb) as (-> & _). by rewrite ci_blkSize.
Qed.

(** [drop_block] leaves no valid block there, all others are as they were. *)
Lemma drop_block_spec ev c k b :
  lru_wf (ca_tags c) → masters_ok (ev_maxMasters ev) (ca_tags c) →
  lt_blks (ca_tags c) !! k = Some b → blk_isValid b = true →
  ∃ t' b', drop_block ev c (TagBlk k) = Ok (c <| ca_tags := t' |>) ∧ same_shape (ca_tags c) t' ∧ lru_wf t' ∧
    lt_blks t' = <[k := b']> (lt_blks (ca_tags c)) ∧ blk_isValid b' = false.
Proof.
  intros W Hm Hb Hv. unfold drop_block. apply lookup_lt_Some in Hb as Hk.
  destruct (lru_invalidate_spec (ca_tags c) (ev_curTick ev) (ev_maxMasters ev) k b W Hm Hb Hv)
    as (t1 & s & b1 & -> & W1 & Hsh & _ & Hblks & _ & _ & _ & _ & _).
  assert (lt_blks t1 !! k = Some b1) as Hb1 by (rewrite Hblks; by apply list_lookup_insert_eq).
  cbn [mbind result_bind get_ref]. change (ca_tags (c <| ca_tags := t1 |>)) with t1.
  rewrite (proj2 (get_blk_Ok t1 k b1) Hb1). cbn [mbind result_bind set_ref]. change (ca_tags (c <| ca_tags := t1 |>)) with t1.
  destruct (put_blk_wf t1 k b1 (blk_invalidate b1)) as [-> W2]; [done..|]. cbn [mbind result_bind].
  eexists _, (blk_invalidate b1). split; [reflexivity|]. split; [done|]. split; [done|]. split; [|done].
  simpl. rewrite Hblks. by rewrite list_insert_insert_eq.
Qed.

Lemma dropped_absent t t' k b' g a s :
  lru_unique t → same_shape t t' → holds t g a s k → lt_blks t' = <[k := b']> (lt_blks t) → blk_isValid b' = false →
  ∀ j, ¬ holds t' g a s j.
Proof.
  intros Hu Hsh Hk Hb Hv j. pose proof Hk as (_ & b & Hkb & _). apply lookup_lt_Some in Hkb.
  rewrite (holds_replaced t t' k b') by done. case_decide as Hj.
  - intros [_ (_ & Hx & _)%blk_matches_iff]. congruence.
  - intros Hh. apply Hj. by eapply Hu.
Qed.

Lemma put_blk_get t k b t' : put_blk t k b = Ok t' → get_blk t' k = Ok b.
Proof.
  unfold put_blk, get_blk. intros H. inv_ok. apply upd_at_Ok in E as [Hk ->]. apply at_Ok. split; [lia|].
  apply list_lookup_insert_eq. lia.
Qed.

Lemma set_line_tags c r line c' : set_line c r line = Ok c' → ca_tags c' = ca_tags c.
Proof. destruct r; cbn [set_line]; intros H; inv_ok; [|done]. destruct (cb_data _); [|done]. case_decide; by inv_ok. Qed.

(** ** Snoops *)

(** The caches above either leave the request alone, apart from announcing a
    shared copy, or answer it. *)
Definition upper_ok (p p1 : Packet) : Prop :=
  (p1 = p ∨ p1 = assertShared p) ∨
  (memInhibitAsserted p1 = true ∧ pkt_isResponse p1 = true ∧ pkt_needsResponse p1 = false ∧ pkt_isRead p1 = pkt_isRead p).

(** A snooped request with its bytes. *)
Record snoop_request (c : Cache) (p : Packet) (data : list Z) : Prop := {
  sr_wf : pkt_wf p;
  sr_request : pkt_isRequest p = true;
  sr_shared : pkt_isRead p = true → pkt_isInvalidate p = false → pkt_needsExclusive p = false;
  sr_inhibit : memInhibitAsserted p = false;
  sr_ptr : flag_isSet (pkt_flags p) (Z.lor STATIC_DATA DYNAMIC_DATA) = true;
  sr_data : pkt_data p = Some data;
  sr_len : Z.of_nat (length data) = pkt_size p;
  sr_fits : pkt_addr p mod ca_blkSize c + pkt_size p ≤ ca_blkSize c;
  sr_cacheable : req_isUncacheable (pkt_req p) = false;
  sr_cmd : pkt_cmd p ≠ Writeback
}.

(** The snooped block before a possible invalidation. *)
Definition snooped_blk (p : Packet) (b : CacheBlk) : CacheBlk :=
  if pkt_isRead p && negb (pkt_isInvalidate p) then clear_bits b BlkWritable else b.

(** The answer of a dirty block: a response with the bytes of the line. *)
Definition answer (c : Cache) (k : nat) (p p' : Packet) : Prop :=
  memInhibitAsserted p' = true ∧ pkt_isResponse p' = true ∧
  pkt_data p' = Some (slice (block_line c k) (line_offset c p) (Z.to_nat (pkt_size p))).

(** The answer is built from the request. *)
Lemma respond_spec c p data q k b (w : bool) :
  lru_wf (ca_tags c) → ca_blkSize c = lt_blkSize (ca_tags c) →
  Z.of_nat (length (ca_data c)) = ca_blkSize c * Z.of_nat (length (lt_blks (ca_tags c))) →
  lt_blks (ca_tags c) !! k = Some b → cb_data b = Some (ca_blkSize c * Z.of_nat k) → snoop_request c p data →
  (∃ fl, q = p <| pkt_flags := Z.lor (pkt_flags p) fl |> ∧ flag_isSet fl MEM_INHIBIT = false) →
  pkt_needsResponse p = true →
  ∃ p', (assertb (negb (memInhibitAsserted q)) ;;
         let p := assertMemInhibit q in
         let p := if w then setSupplyExclusive p else p in
         p ← makeResponse p;
         line ← get_line c (TagBlk k);
         setDataFromBlock p line (ca_blkSize c)) = Ok p' ∧ answer c k p p' ∧
        sharedAsserted p' = sharedAsserted q.
Proof.
  intros W Hbs Hdata Hb Hptr R (fl & -> & Hfl) Hnr. destruct R.
  destruct (getOffset_mod c p (ca_tags c)) as [Ho Hpos]; [done..|]. apply lookup_lt_Some in Hb as Hk.
  pose proof (length_block_line c k Hpos Hk Hdata) as Hll.
  pose proof (Z.mod_pos_bound (pkt_addr p) _ Hpos) as Hmod.
  assert (memInhibitAsserted (p <| pkt_flags := Z.lor (pkt_flags p) fl |>) = false) as ->.
  { unfold memInhibitAsserted in *. cbn [pkt_flags setf]. rewrite flag_isSet_lor, Hfl. by rewrite sr_inhibit0. }
  cbn [negb assertb mbind result_bind]. cbn zeta. set (q := if w then _ else _).
  assert (∃ fl', q = p <| pkt_flags := Z.lor (pkt_flags p) fl' |> ∧ flag_isSet fl' MEM_INHIBIT = true ∧
    flag_isSet fl' SHARED = flag_isSet fl SHARED) as (fl' & Hq & Hinh & Hsh).
  { exists (if w then Z.lor (Z.lor fl MEM_INHIBIT) SUPPLY_EXCLUSIVE else Z.lor fl MEM_INHIBIT).
    subst q. unfold setSupplyExclusive, assertMemInhibit, flag_set.
    destruct w; rewrite !flag_isSet_lor; cbn [pkt_flags setf];
      (split; [destruct p; cbn; by rewrite ?Z.lor_assoc|]); split; vm_compute (flag_isSet _ _); by rewrite ?orb_true_r, ?orb_false_r. }
  clearbody q. subst q. unfold makeResponse.
  assert (∀ q, pkt_cmd q = pkt_cmd p → pkt_needsResponse q = true ∧ pkt_isRequest q = true) as Hcmd.
  { intros q Hc. unfold pkt_needsResponse, pkt_isRequest in *. by rewrite Hc. }
  match goal with |- context [pkt_needsResponse ?x] => destruct (Hcmd x eq_refl) as [-> ->] end. cbn [assertb mbind result_bind].
  cbn zeta. set (q := setf pkt_src _ _).
  assert (pkt_flags q = Z.ldiff (Z.lor (pkt_flags p) fl') EXPRESS_SNOOP) as Hqf by done.
  assert (∀ f, Z.ldiff f EXPRESS_SNOOP = f → flag_isSet (pkt_flags q) f = flag_isSet (pkt_flags p) f || flag_isSet fl' f) as Hflag.
  { intros f Hf. by rewrite Hqf, flag_isSet_ldiff, flag_isSet_lor. }
  assert (pkt_wf q) as Hqwf.
  { destruct sr_wf0 as (F1 & F2 & F3). unfold pkt_wf. by rewrite !Hflag, F1, F2, F3. }
  destruct (get_line_tag c k b) as [-> _]; [done..|]. cbn [mbind result_bind].
  unfold setDataFromBlock.
  destruct (getOffset_mod c q (ca_tags c)) as [-> _]; [done..|]. cbn [mbind result_bind].
  unfold setData, getPtr. rewrite Hflag, sr_ptr0 by done. change (pkt_data q) with (pkt_data p).
  rewrite sr_data0. cbn [orb assertb mbind result_bind]. rewrite getSize_wf by done.
  change (pkt_size q) with (pkt_size p). change (pkt_addr q) with (pkt_addr p). cbn [mbind result_bind].
  rewrite decide_True by lia. eexists. split; [done|]. split; [split; [|split]|].
  - unfold memInhibitAsserted. cbn [pkt_flags setf]. rewrite Hflag by done. by rewrite Hinh, orb_true_r.
  - unfold pkt_isResponse. change (pkt_cmd (q <| pkt_data := _ |>)) with (responseCommand (pkt_cmd p)).
    clear -sr_request0 Hnr. unfold pkt_isRequest, pkt_needsResponse in *. by destruct (pkt_cmd p).
  - cbn [pkt_data setf]. rewrite splice_all; [done|]. rewrite length_slice; lia.
  - unfold sharedAsserted. cbn [pkt_flags setf]. rewrite Hflag by done. by rewrite flag_isSet_lor, Hsh.
Qed.

(** What the packet becomes on its way through the caches above. *)
Lemma upper_forward p p1 :
  memInhibitAsserted p = false → upper_ok p p1 →
  implb (negb (memInhibitAsserted p) && memInhibitAsserted p1) (pkt_isResponse p1) = true ∧
  pkt_isRead p1 = pkt_isRead p.
Proof.
  intros Hi [[-> | ->]|(H1 & H2 & H3 & H4)]; rewrite Hi.
  - done.
  - unfold memInhibitAsserted in *. unfold assertShared, flag_set. cbn [pkt_flags setf].
    rewrite flag_isSet_lor, Hi. done.
  - by rewrite H1, H2.
Qed.

Lemma clear_writable b :
  let b' := clear_bits b BlkWritable in
  blk_isWritable b' = false ∧ blk_isValid b' = blk_isValid b ∧ blk_isDirty b' = blk_isDirty b ∧
  blk_isSecure b' = blk_isSecure b ∧ blk_isReadable b' = blk_isReadable b.
Proof.
  cbn zeta. rewrite isWritable_bit, !isValid_bit, !isDirty_bit, !isSecure_bit, !isReadable_bit.
  change (cb_status (clear_bits b BlkWritable)) with (Z.land (cb_status b) (Z.lnot BlkWritable)).
  rewrite !Z.land_spec. change (Z.testbit (Z.lnot BlkWritable) 1) with false.
  change (Z.testbit (Z.lnot BlkWritable) 0) with true. change (Z.testbit (Z.lnot BlkWritable) 3) with true.
  change (Z.testbit (Z.lnot BlkWritable) 6) with true. change (Z.testbit (Z.lnot BlkWritable) 2) with true.
  by rewrite !andb_true_r, andb_false_r.
Qed.

Lemma snooped_fields p b :
  cb_set (snooped_blk p b) = cb_set b ∧ cb_way (snooped_blk p b) = cb_way b ∧ cb_data (snooped_blk p b) = cb_data b ∧
  cb_srcMasterId (snooped_blk p b) = cb_srcMasterId b ∧ cb_tag (snooped_blk p b) = cb_tag b ∧
  cb_qosTag (snooped_blk p b) = cb_qosTag b ∧ blk_isValid (snooped_blk p b) = blk_isValid b ∧
  blk_isSecure (snooped_blk p b) = blk_isSecure b ∧ blk_isDirty (snooped_blk p b) = blk_isDirty b ∧
  (pkt_isRead p = true → pkt_isInvalidate p = false → blk_isWritable (snooped_blk p b) = false).
Proof.
  pose proof (clear_writable b) as (H1 & H2 & H3 & H4 & H5). unfold snooped_blk.
  destruct (pkt_isRead p), (pkt_isInvalidate p); cbn [andb negb]; repeat split; done.
Qed.

(** A request the caches above did not answer, with the sharing announced so far. *)
Lemma shared_flags p p1 (d : bool) :
  p1 = p ∨ p1 = assertShared p →
  ∃ fl, (if d then assertShared p1 else p1) = p <| pkt_flags := Z.lor (pkt_flags p) fl |> ∧ flag_isSet fl MEM_INHIBIT = false.
Proof.
  intros [-> | ->]; destruct d.
  - exists SHARED. by destruct p.
  - exists 0. split; [|done]. destruct p. cbn. by rewrite Z.lor_0_r.
  - exists (Z.lor SHARED SHARED). split; [|done]. destruct p. cbn. by rewrite Z.lor_assoc.
  - exists SHARED. by destruct p.
Qed.

(** The cache between the downgrade and the invalidation. *)
Section Answer.

Context (ev : Env) (c : Cache) (p p1 : Packet) (data : list Z) (k : nat) (b : CacheBlk).
Hypothesis S : store_ok ev c.
Hypothesis R : snoop_request c p data.
Hypothesis U : upper_ok p p1.
Hypothesis Hb : lt_blks (ca_tags c) !! k = Some b.

Let t1 := (ca_tags c) <| lt_blks := <[k := snooped_blk p b]> (lt_blks (ca_tags c)) |>.
Let c1 := c <| ca_tags := t1 |>.
Let p2 := if pkt_isRead p && negb (pkt_isInvalidate p) then assertShared p1 else p1.

Lemma snooped_wf : put_blk (ca_tags c) k (snooped_blk p b) = Ok t1 ∧ lru_wf t1 ∧ masters_ok (ev_maxMasters ev) t1 ∧
  lt_blks t1 !! k = Some (snooped_blk p b).
Proof using S Hb.
  pose proof (snooped_fields p b) as (F1 & F2 & F3 & F4 & _ & _ & F5 & _). apply lookup_lt_Some in Hb as Hk.
  destruct (put_blk_wf (ca_tags c) k b (snooped_blk p b)) as [Hp W]; [apply S|done..|].
  split; [done|]. split; [done|]. destruct (so_masters _ _ S) as [Ho Hm]. split; [split; [done|]|by apply list_lookup_insert_eq].
  intros j bj Hj Hv. apply list_lookup_insert_Some in Hj as [(_ & <- & _)|[_ Hj]]; [|by apply (Hm j bj)].
  rewrite F4. apply (Hm k b Hb). congruence.
Qed.

Lemma snoop_shared : pkt_isRead p = true → pkt_isInvalidate p = false → sharedAsserted p2 = true.
Proof using.
  clear. intros Hr Hi. subst p2. rewrite Hr, Hi. cbn [andb negb]. unfold sharedAsserted, assertShared, flag_set.
  cbn [pkt_flags setf]. rewrite flag_isSet_lor. apply orb_true_r.
Qed.

Lemma snoop_answer :
  ∃ p3, (if blk_isDirty b && pkt_needsResponse p1
    then assertb (negb (memInhibitAsserted p2)) ;;
         p ← makeResponse (if blk_isWritable b then setSupplyExclusive (assertMemInhibit p2) else assertMemInhibit p2);
         line ← get_line c1 (TagBlk k); setDataFromBlock p line (ca_blkSize c1) else Ok p2) = Ok p3 ∧
    (blk_isDirty b = true → pkt_needsResponse p1 = true → answer c k p p3) ∧ sharedAsserted p3 = sharedAsserted p2.
Proof using S R U Hb.
  destruct (blk_isDirty b && pkt_needsResponse p1) eqn:E;
    [|exists p2; split; [done|]; split; [|done]; intros H1 H2; by rewrite H1, H2 in E].
  apply andb_true_iff in E as [_ Hn]. destruct U as [U1|(_ & _ & U1 & _)]; [|by rewrite U1 in Hn].
  destruct snooped_wf as (_ & W & _ & Hb1).
  destruct (respond_spec c1 p data p2 k (snooped_blk p b) (blk_isWritable b)) as (p3 & Hp3 & Ha & Hs3).
  - done.
  - apply S.
  - subst c1 t1. cbn [ca_tags ca_data ca_blkSize lt_blks setf]. rewrite length_insert. apply S.
  - done.
  - pose proof (snooped_fields p b) as (_ & _ & -> & _). by apply (so_ptr _ _ S).
  - by destruct R.
  - by apply shared_flags.
  - by destruct U1 as [-> | ->].
  - exists p3. split; [exact Hp3|]. by split.
Qed.

End Answer.

(** [handleSnoop] on a valid block. *)
Lemma handleSnoop_spec ev upper c p data k b :
  store_ok ev c → snoop_request c p data → upper_ok p (upper p) →
  holds (ca_tags c) (guest_of p) (pkt_addr p) (pkt_isSecure p) k → lt_blks (ca_tags c) !! k = Some b →
  ∃ t' p', handleSnoop_atomic ev upper c p (Some (TagBlk k)) = Ok (c <| ca_tags := t' |>, p') ∧
    (∀ j, j ≠ k → lt_blks t' !! j = lt_blks (ca_tags c) !! j) ∧
    (if pkt_isInvalidate p then ∀ j, ¬ holds t' (guest_of p) (pkt_addr p) (pkt_isSecure p) j
     else lt_blks t' !! k = Some (snooped_blk p b)) ∧
    (pkt_isRead p = true → pkt_isInvalidate p = false → sharedAsserted p' = true) ∧
    (blk_isDirty b = true → pkt_needsResponse (if ca_forwardSnoops c then upper p else p) = true → answer c k p p').
Proof.
  intros S R U Hh Hb. pose proof Hh as (_ & b0 & Hb0 & (_ & Hv & _)%blk_matches_iff).
  rewrite Hb in Hb0. injection Hb0 as <-. apply lookup_lt_Some in Hb as Hk. unfold handleSnoop_atomic.
  rewrite (sr_request _ _ _ R). cbn [assertb mbind result_bind]. cbn zeta.
  set (p1 := if ca_forwardSnoops c then upper p else p).
  assert (upper_ok p p1) as U1 by (subst p1; destruct (ca_forwardSnoops c); [done|by left; left]).
  destruct (upper_forward p p1 (sr_inhibit _ _ _ R) U1) as [Hfw Hrd].
  assert ((if ca_forwardSnoops c then
    assertb (implb (negb (memInhibitAsserted p) && memInhibitAsserted (upper p)) (pkt_isResponse (upper p))) ;; Ok (upper p)
    else Ok p) = Ok p1) as ->.
  { subst p1. destruct (ca_forwardSnoops c); [by rewrite Hfw|done]. }
  cbn [mbind result_bind get_ref]. rewrite (proj2 (get_blk_Ok _ _ _) Hb). cbn [mbind result_bind]. rewrite Hv. cbn [negb].
  assert ((if pkt_isRead p1 && negb (pkt_isInvalidate p)
    then assertb (negb (pkt_needsExclusive p)) ;; Ok (clear_bits b BlkWritable, assertShared p1) else Ok (b, p1))
    = Ok (snooped_blk p b, if pkt_isRead p && negb (pkt_isInvalidate p) then assertShared p1 else p1)) as ->.
  { rewrite Hrd. unfold snooped_blk. pose proof (sr_shared _ _ _ R) as Hs.
    destruct (pkt_isRead p), (pkt_isInvalidate p); cbn [andb negb]; try done. by rewrite Hs. }
  cbn [mbind result_bind set_ref].
  destruct (snooped_wf ev c p k b S Hb) as (-> & W1 & M1 & Hb1). cbn [mbind result_bind].
  destruct (snoop_answer ev c p p1 data k b S R U1 Hb) as (p3 & -> & Hans & Hsh3). cbn [mbind result_bind].
  pose proof (snoop_shared p p1) as Hsh. rewrite <-Hsh3 in Hsh. destruct (pkt_isInvalidate p) eqn:Hinv.
  - set (c1 := setf ca_tags _ c).
    destruct (drop_block_spec ev c1 k (snooped_blk p b)) as (t' & b' & -> & Hs' & W' & Hbl & Hvb); [done..|by rewrite (proj1 (proj2 (proj2 (proj2 (proj2 (proj2 (proj2 (snooped_fields p b))))))))|].
    cbn [mbind result_bind]. exists t', p3. split; [done|]. split.
    { intros j Hj. rewrite Hbl, list_lookup_insert_ne by done. by apply list_lookup_insert_ne. }
    split; [|by split]. apply (dropped_absent (ca_tags c) t' k b' _ _ _ (so_unique _ _ S)); try done.
    rewrite Hbl. by apply list_insert_insert_eq.
  - cbn [mbind result_bind]. eexists _, p3. split; [done|]. split; [intros j Hj; by apply list_lookup_insert_ne|].
    split; [done|]. by split.
Qed.

(** ** The next request to send *)

(** The requests of two registers conflict: same domain and security, and
    overlapping addresses. *)
Definition conflicts (m w : MSHR) : bool :=
  (ms_guest m =? ms_guest w) && eqb (ms_isSecure m) (ms_isSecure w) && pending_overlaps m (ms_addr w) (ms_size w).

Lemma find_pending_spec h l w :
  (∀ id, id ∈ l → ∃ m, h !! id = Some m) →
  ∃ o, find_pending h l (ms_guest w) (ms_addr w) (ms_size w) (ms_isSecure w) = Ok o ∧
    match o with
    | Some id => ∃ m, id ∈ l ∧ h !! id = Some m ∧ conflicts m w = true
    | None => ∀ id m, id ∈ l → h !! id = Some m → conflicts m w = false
    end.
Proof.
  intros Hl. induction l as [|x l IH]; [exists None; split; [done|]; by intros id m ?%elem_of_nil|].
  cbn [find_pending]. destruct (Hl x) as [m Hm]; [left|]. unfold get_mshr.
  rewrite (proj2 (at_Ok h (Z.of_nat x) m)) by (split; [lia|by rewrite Nat2Z.id]). cbn [mbind result_bind].
  fold (conflicts m w). destruct (conflicts m w) eqn:Hc.
  - exists (Some x). split; [done|]. exists m. split; [left|done].
  - destruct IH as (o & -> & Ho); [intros id Hid; apply Hl; by right|]. exists o. split; [done|]. destruct o as [id|].
    + destruct Ho as (m' & Hin & ?). exists m'. split; [by right|done].
    + intros id m' [->|Hin]%elem_of_cons Hm'; [congruence|by eapply Ho].
Qed.

(** The first register of a ready list, when its time has come. *)
Lemma getNextMSHR_spec h q tick :
  queue_wf h q →
  ∃ o, getNextMSHR h q tick = Ok o ∧
    match o with
    | Some id => ∃ m l, mq_readyList q = id :: l ∧ h !! id = Some m ∧ ms_readyTime m ≤ tick
    | None => ∀ id m l, mq_readyList q = id :: l → h !! id = Some m → tick < ms_readyTime m
    end.
Proof.
  intros W. unfold getNextMSHR. destruct (mq_readyList q) as [|id l] eqn:Hl; [by exists None|].
  destruct (qw_ready_alloc h q id W) as [_ (m & Hm & _)]; [rewrite Hl; left|]. unfold get_mshr.
  rewrite (proj2 (at_Ok h (Z.of_nat id) m)) by (split; [lia|by rewrite Nat2Z.id]). cbn [mbind result_bind].
  destruct (Z.ltb_spec tick (ms_readyTime m)).
  - exists None. split; [done|]. intros ? ? ? [= <- <-] Hm'. congruence.
  - exists (Some id). split; [done|]. by exists m, l.
Qed.

Lemma ready_lookup h q id : queue_wf h q → id ∈ mq_readyList q → ∃ m, h !! id = Some m.
Proof. intros W Hin. destruct (qw_ready_alloc h q id W Hin) as [_ (m & Hm & _)]. by exists m. Qed.

Lemma get_mshr_lookup h id m : h !! id = Some m → get_mshr h id = Ok m.
Proof. intros Hm. apply at_Ok. split; [lia|by rewrite Nat2Z.id]. Qed.

(** ** Properties *)

(** C14: snoops keep the caches coherent.  A private cache ignores the requests
    of other domains.  Otherwise, when the cache holds the line in block [k], a
    snoop always completes, changes no other block and no byte, and: an
    invalidating request leaves no block with the line; a read leaves the block
    without write permission and tells the requester that the line is shared;
    and a dirty block answers, unless a cache above already did, with the bytes
    of the line as a response that memory must not answer. *)
Theorem atomic_snoop_coherent ev upper c p data k b :
  store_ok ev c → snoop_request c p data → upper_ok p (upper p) → ev_bypassCaches ev = false →
  findBlock (ca_tags c) (guest_of p) (pkt_addr p) (pkt_isSecure p) = Ok (Some k) →
  lt_blks (ca_tags c) !! k = Some b →
  (ca_isPrivate c = true → guest_of p ≠ ca_guestID c → ca_recvAtomicSnoop ev upper c p = Ok (c, p, 0)) ∧
  ((ca_isPrivate c = true → guest_of p = ca_guestID c) →
   ∃ c' p', ca_recvAtomicSnoop ev upper c p = Ok (c', p', ca_hitLatency c * ev_clockPeriod ev) ∧
    ca_data c' = ca_data c ∧ (∀ j, j ≠ k → lt_blks (ca_tags c') !! j = lt_blks (ca_tags c) !! j) ∧
    (pkt_isInvalidate p = true → ∀ j, ¬ holds (ca_tags c') (guest_of p) (pkt_addr p) (pkt_isSecure p) j) ∧
    (pkt_isInvalidate p = false → pkt_isRead p = true → sharedAsserted p' = true ∧
       ∃ b', lt_blks (ca_tags c') !! k = Some b' ∧ blk_isWritable b' = false ∧ blk_isDirty b' = blk_isDirty b) ∧
    (blk_isDirty b = true → pkt_needsResponse (if ca_forwardSnoops c then upper p else p) = true → answer c k p p')).
Proof.
  intros S R U Hby Hf Hb. unfold ca_recvAtomicSnoop. rewrite Hby. cbn [negb assertb mbind result_bind].
  rewrite PKT_TO_GUESTID_wf by apply R. cbn [mbind result_bind]. split.
  { intros -> Hg%Z.eqb_neq. by rewrite Hg. }
  intros Hpriv. assert (ca_isPrivate c && negb (guest_of p =? ca_guestID c) = false) as ->.
  { destruct (ca_isPrivate c); [|done]. by rewrite (proj2 (Z.eqb_eq _ _) (Hpriv eq_refl)). }
  rewrite (sr_cacheable _ _ _ R), bool_decide_eq_false_2 by apply R. cbn [orb].
  rewrite getAddr_wf, isSecure_wf by apply R. cbn [mbind result_bind]. rewrite Hf. cbn [mbind result_bind fmap option_fmap option_map].
  apply findBlock_Some in Hf; [|apply S].
  destruct (handleSnoop_spec ev upper c p data k b S R U Hf Hb) as (t' & p' & -> & H1 & H2 & H3 & H4).
  cbn [mbind result_bind]. exists (c <| ca_tags := t' |>), p'. split; [done|]. split; [done|]. split; [done|].
  split; [intros Hi; by rewrite Hi in H2|]. split; [|done]. intros Hi Hr. rewrite Hi in H2. split; [by apply H3|].
  pose proof (snooped_fields p b) as (_&_&_&_&_&_&_&_&Hd&Hw). exists (snooped_blk p b). split; [done|]. split; [by apply Hw|done].
Qed.

(** Misses and write-backs to the same line keep their order.  The choice of
    the next request never fails; something is sent exactly when a queue has a
    register whose time has come; with one of each, a miss is sent only when no
    waiting write-back overlaps it, an overlapping write-back goes first, and a
    full write buffer goes first except for an earlier overlapping miss. *)
Theorem issue_order ev c :
  queue_wf (ca_mshrs c) (ca_mshrQueue c) → queue_wf (ca_mshrs c) (ca_writeBuffer c) →
  let due q id := ∃ m l, mq_readyList q = id :: l ∧ ca_mshrs c !! id = Some m ∧ ms_readyTime m ≤ ev_curTick ev in
  ∃ o, ca_getNextMSHR ev c = Ok o ∧
    (o = None ↔ ¬ (∃ id, due (ca_mshrQueue c) id) ∧ ¬ (∃ id, due (ca_writeBuffer c) id)) ∧
    ∀ miss write mm mw, due (ca_mshrQueue c) miss → due (ca_writeBuffer c) write →
      ca_mshrs c !! miss = Some mm → ca_mshrs c !! write = Some mw →
      if isFull (ca_writeBuffer c) && (mq_inServiceEntries (ca_writeBuffer c) =? 0)
      then o = Some write ∨
        ∃ id m, o = Some id ∧ id ∈ mq_readyList (ca_mshrQueue c) ∧ ca_mshrs c !! id = Some m ∧
          conflicts m mw = true ∧ ms_order m < ms_order mw
      else (o = Some miss ∧ ∀ id m, id ∈ mq_readyList (ca_writeBuffer c) → ca_mshrs c !! id = Some m → conflicts m mm = false) ∨
        ∃ id m, o = Some id ∧ id ∈ mq_readyList (ca_writeBuffer c) ∧ ca_mshrs c !! id = Some m ∧ conflicts m mm = true.
Proof.
  intros W1 W2 due. unfold ca_getNextMSHR.
  destruct (getNextMSHR_spec (ca_mshrs c) (ca_mshrQueue c) (ev_curTick ev) W1) as (o1 & -> & H1).
  destruct (getNextMSHR_spec (ca_mshrs c) (ca_writeBuffer c) (ev_curTick ev) W2) as (o2 & -> & H2).
  cbn [mbind result_bind].
  assert (∀ q, (∀ id m l, mq_readyList q = id :: l → ca_mshrs c !! id = Some m → ev_curTick ev < ms_readyTime m) →
    ¬ ∃ id, due q id) as Hno.
  { intros q Hq (id & m & l & Hl & Hm & Ht). specialize (Hq id m l Hl Hm). lia. }
  assert (∀ q id id', due q id → due q id' → id = id') as Huniq by (intros q i i' (?&?&E1&_) (?&?&E2&_); congruence).
  destruct o1 as [miss|], o2 as [write|].
  - destruct H1 as (mm & l1 & Hl1 & Hm1 & Ht1), H2 as (mw & l2 & Hl2 & Hm2 & Ht2).
    rewrite (get_mshr_lookup _ _ _ Hm1), (get_mshr_lookup _ _ _ Hm2). cbn [mbind result_bind].
    assert (due (ca_mshrQueue c) miss) as D1 by (by exists mm, l1). assert (due (ca_writeBuffer c) write) as D2 by (by exists mw, l2).
    destruct (isFull (ca_writeBuffer c) && (mq_inServiceEntries (ca_writeBuffer c) =? 0)).
    + destruct (find_pending_spec (ca_mshrs c) (mq_readyList (ca_mshrQueue c)) mw) as (o & Ho & Hs);
        [intros id; by apply ready_lookup|]. unfold findPending. rewrite Ho. cbn [mbind result_bind].
      destruct o as [id|]; [destruct Hs as (m & Hin & Hm & Hc); rewrite (get_mshr_lookup _ _ _ Hm); cbn [mbind result_bind]|];
        eexists; (split; [done|]).
      * destruct (Z.ltb_spec (ms_order m) (ms_order mw)); (split; [naive_solver|]);
          intros miss' write' mm' mw' D1' D2' Hm1' Hm2'; rewrite (Huniq _ _ _ D2' D2) in *; [right; exists id, m; naive_solver|by left].
      * split; [naive_solver|]. intros miss' write' mm' mw' D1' D2' Hm1' Hm2'. left. by rewrite (Huniq _ _ _ D2' D2).
    + destruct (find_pending_spec (ca_mshrs c) (mq_readyList (ca_writeBuffer c)) mm) as (o & Ho & Hs);
        [intros id; by apply ready_lookup|]. unfold findPending. rewrite Ho. cbn [mbind result_bind].
      eexists. split; [done|]. split; [destruct o; naive_solver|].
      intros miss' write' mm' mw' D1' D2' Hm1' Hm2'. rewrite (Huniq _ _ _ D1' D1) in *. rewrite Hm1 in Hm1'. injection Hm1' as <-.
      destruct o as [id|]; [right|by left]. destruct Hs as (m & ? & ? & ?). by exists id, m.
  - eexists. split; [done|]. split; [destruct H1 as (m & l & ?); split; [done|]; intros [Hx _]; destruct Hx; by exists miss, m, l|].
    intros miss' write' mm' mw' D1' D2'. exfalso. eapply Hno; [exact H2|by eexists].
  - eexists. split; [done|]. split; [destruct H2 as (m & l & ?); split; [done|]; intros [_ Hx]; destruct Hx; by exists write, m, l|].
    intros miss' write' mm' mw' D1' D2'. exfalso. eapply Hno; [exact H1|by eexists].
  - eexists. split; [done|]. split; [split; [|done]; intros _; split; by apply Hno|].
    intros miss' write' mm' mw' D1' D2'. exfalso. eapply Hno; [exact H1|by eexists].
Qed.

(** Flushes lose the domain of the line.  [memWriteback] and
    [uncacheableFlush] write a dirty block with a functional request that
    always belongs to domain 0xFF and to the non-secure space, whatever the
    domain and the security of the block; the block is clean afterwards. *)
Theorem flush_loses_domain ev c (log : list Packet) k b :
  store_ok ev c → lt_blks (ca_tags c) !! k = Some b → blk_isValid b = true → blk_isDirty b = true →
  ∃ c' p, writebackVisitor (λ l p, Ok (l ++ [p])) c log k = Ok (c', log ++ [p]) ∧
    guest_of p = 0xFF ∧ pkt_isSecure p = false ∧
    pkt_addr p = regenerateBlkAddr (ca_tags c) (cb_tag b) (cb_set b) ∧ pkt_data p = Some (block_line c k) ∧
    ∃ b', lt_blks (ca_tags c') !! k = Some b' ∧ blk_isDirty b' = false ∧ blk_isValid b' = true ∧
      getGuestID b' = getGuestID b ∧ blk_isSecure b' = blk_isSecure b.
Proof.
  intros S Hb Hv Hd. unfold writebackVisitor. rewrite (proj2 (get_blk_Ok _ _ _) Hb). cbn [mbind result_bind].
  rewrite Hd, Hv. cbn [assertb mbind result_bind]. apply lookup_lt_Some in Hb as Hk.
  destruct (get_line_tag c k b) as [-> _]; [done|by apply (so_ptr _ _ S)|..|apply S|].
  { rewrite (so_blkSize _ _ S). apply lt_blkSize_pos, S. }
  cbn [mbind result_bind set_ref].
  destruct (put_blk_wf (ca_tags c) k b (clear_bits b BlkDirty)) as [-> _]; [apply S|done..|]. cbn [mbind result_bind].
  eexists _, _. split; [done|]. do 4 (split; [done|]). exists (clear_bits b BlkDirty).
  split; [by apply list_lookup_insert_eq|]. rewrite isDirty_bit, !isSecure_bit, !isValid_bit in *.
  change (cb_status (clear_bits b BlkDirty)) with (Z.land (cb_status b) (Z.lnot BlkDirty)).
  rewrite !Z.land_spec, Hv. change (Z.testbit (Z.lnot BlkDirty) 3) with false.
  change (Z.testbit (Z.lnot BlkDirty) 0) with true. change (Z.testbit (Z.lnot BlkDirty) 6) with true.
  by rewrite andb_false_r, ?andb_true_r.
Qed.

(** A write-back that allocates a block makes its line non-secure.  When a
    write-back arrives for a line the cache does not hold and the cache takes
    it, the block belongs to the domain of the write-back but is never marked
    secure, also for a secure write-back. *)
Theorem secure_writeback_downgraded {M : Type} (sendFunctional : M → Packet → result M) ev c (m : M) p a k :
  lru_wf (ca_tags c) → ev_clockPeriod ev ≠ 0 → pkt_wf p → pkt_cmd p = Writeback →
  req_isUncacheable (pkt_req p) = false →
  findBlock (ca_tags c) (guest_of p) (pkt_addr p) (pkt_isSecure p) = Ok None →
  access sendFunctional ev c m p = Ok a → ac_blk a = Some (TagBlk k) →
  ∃ b, get_blk (ca_tags (ac_cache a)) k = Ok b ∧ blk_isValid b = true ∧ blk_isDirty b = true ∧
    getGuestID b = guest_of p ∧ blk_isSecure b = false.
Proof.
  intros W Hclk Hp Hc Hu Hf Ha Hk. unfold access in Ha. rewrite Hu, PKT_TO_GUESTID_wf, getAddr_wf, isSecure_wf in Ha by done.
  cbn [mbind result_bind] in Ha.
  destruct (accessBlock_spec (ca_tags c) (ev_curTick ev) (ev_clockPeriod ev) (guest_of p) (pkt_addr p) (pkt_isSecure p) W Hclk)
    as (t1 & o & lat & E & Hf' & _). rewrite E in Ha. rewrite Hf in Hf'. injection Hf' as <-. cbn [mbind result_bind] in Ha.
  rewrite decide_True in Ha by done. unfold access_writeback in Ha.
  rewrite getSize_wf, PKT_TO_GUESTID_wf, getAddr_wf in Ha by done. cbn [mbind result_bind] in Ha.
  apply bind_Ok_inv in Ha as (? & _ & Ha). apply bind_Ok_inv in Ha as ([[c1 blk] wbs] & Hfr & Ha).
  apply bind_Ok_inv in Hfr as ([[c2 frame] wbs'] & _ & Hfr). destruct frame as [k'|]; [|by injection Hfr as <- <- <-; inv_ok].
  inv_ok. injection Hk as ->. rewrite getQosTag_wf in E6 by done. injection E6 as <-.
  apply set_line_tags in E5. cbn in E5. apply put_blk_get in E2 as Hg. rewrite E5, Hg in E7. injection E7 as <-.
  unfold set_ref in E8. inv_ok. apply put_blk_get in E6 as Hg'. cbn [ac_cache ca_tags setf].
  eexists. split; [exact Hg'|]. rewrite isValid_bit, isDirty_bit, isSecure_bit.
  destruct (isSupplyExclusive p); (do 2 (split; [done|])); (split; [apply guest_of_int|done]).
Qed.

(** ** A dirty line of domain 0 in block 2 *)

Definition demo_dirty : Cache :=
  match ca_recvAtomic flat_send (λ m _, Ok m) demo_env demo_cache (λ _ _ _, 0) (demo_access WriteReq 0 0x1244 [7; 8; 9; 10]) with
  | Ok (c, _, _, _) => c
  | Err _ => demo_cache
  end.
Definition demo_dirty_blk : CacheBlk := default (CacheBlk_make 0) (lt_blks (ca_tags demo_dirty) !! 2%nat).

Lemma demo_dirty_ok : store_ok demo_env demo_dirty.
Proof.
  pose proof demo_servable as H. unfold demo_reqs in H. apply Forall_cons in H as [[(data & Hp) (mask & Hm)] _].
  destruct (Cache_make_inv flat_byte demo_env 1024 2 1 false [1; 2] false 0 true 64 2 2 4 8 demo_lru demo_cache (λ _ _ _, 0))
    as (I & _); [apply demo_lru_made|lia|done|done|done|done|reflexivity|].
  destruct (recvAtomic_transparent_step flat_send (λ m _, Ok m) flat_byte demo_env demo_cache (λ _ _ _, 0) _ data mask I Hp Hm)
    as (c' & m' & p1 & p' & lat & E & (I' & _) & _); [reflexivity|discriminate|].
  unfold demo_dirty. rewrite E. by apply (cache_inv_store flat_byte demo_env c' m').
Qed.
Lemma demo_dirty_lookup : lt_blks (ca_tags demo_dirty) !! 2%nat = Some demo_dirty_blk.
Proof. vm_compute. reflexivity. Qed.

Lemma demo_snoop_request : snoop_request demo_dirty (demo_access ReadReq 0 0x1244 [0; 0; 0; 0]) [0; 0; 0; 0].
Proof. split; vm_compute; repeat split; discriminate. Qed.

Lemma atomic_snoop_coherent_witness :
  ∃ c' p', ca_recvAtomicSnoop demo_env id demo_dirty (demo_access ReadReq 0 0x1244 [0; 0; 0; 0]) = Ok (c', p', 1000) ∧
    sharedAsserted p' = true ∧ memInhibitAsserted p' = true ∧ pkt_data p' = Some [7; 8; 9; 10].
Proof.
  destruct (atomic_snoop_coherent demo_env id demo_dirty (demo_access ReadReq 0 0x1244 [0; 0; 0; 0]) [0; 0; 0; 0] 2 demo_dirty_blk)
    as [_ H]; [apply demo_dirty_ok|apply demo_snoop_request|by left; left|reflexivity|vm_compute; reflexivity|apply demo_dirty_lookup|].
  destruct H as (c' & p' & H1 & _ & _ & _ & H2 & H3); [intros Hx; vm_compute in Hx; discriminate|].
  assert (ca_hitLatency demo_dirty = 2) as Hl by (vm_compute; reflexivity). rewrite Hl in H1.
  exists c', p'. split; [exact H1|]. split; [apply H2; reflexivity|].
  destruct H3 as (H3 & _ & H4); [vm_compute; reflexivity|reflexivity|]. split; [exact H3|]. rewrite H4. vm_compute. reflexivity.
Defined.

Lemma flush_loses_domain_witness :
  getGuestID demo_dirty_blk = 0 ∧
  ∃ c' p, writebackVisitor (λ l p, Ok (l ++ [p])) demo_dirty [] 2 = Ok (c', [p]) ∧ guest_of p = 0xFF.
Proof.
  split; [vm_compute; reflexivity|].
  destruct (flush_loses_domain demo_env demo_dirty [] 2 demo_dirty_blk) as (c' & p & H1 & H2 & _);
    [apply demo_dirty_ok|apply demo_dirty_lookup|vm_compute; reflexivity|vm_compute; reflexivity|]. exists c', p. split; [exact H1|exact H2].
Defined.

(** A miss and a write-back of domain 1 for the same line, both due. *)
Definition demo_register : MSHR := (MSHR_make 0) <| ms_guest := 1 |> <| ms_addr := 0x40 |> <| ms_size := 64 |> <| ms_readyTime := 5 |>.
Definition demo_queues : Cache :=
  demo_cache <| ca_mshrs := [demo_register; demo_register] |>
    <| ca_mshrQueue := mkQueue 1 1 0 [0%nat] [0%nat] [] false 0 Running 1 0 0 |>
    <| ca_writeBuffer := mkQueue 2 1 0 [1%nat] [1%nat] [0%nat] false 0 Running 1 0 1 |>.

Lemma issue_order_witness : ca_getNextMSHR demo_env demo_queues = Ok (Some 1%nat).
Proof.
  destruct (issue_order demo_env demo_queues) as (o & Ho & _ & H).
  - split; [done|simpl; lia|done|reflexivity|by intros id m Hid%elem_of_nil|reflexivity|done|done].
  - split; [done|simpl; lia|done|reflexivity| |reflexivity|done|done].
    intros id m Hid%list_elem_of_singleton Hm. subst id. injection Hm as <-. done.
  - specialize (H 0%nat 1%nat demo_register demo_register). rewrite Ho.
    destruct H as [[_ H]|(id & m & -> & Hid%list_elem_of_singleton & _)];
      [by exists demo_register, []|by exists demo_register, []|done|done| |by subst id].
    by specialize (H 1%nat demo_register ltac:(left) eq_refl).
Defined.

(** A secure write-back of domain 0. *)
Definition demo_secure : Packet :=
  (flag_set (Packet_make ((Request_phys 0x1240 64 SECURE 0) <| req_qosTag := 0 |>) Writeback) STATIC_DATA)
    <| pkt_data := Some (replicate 64 1) |>.
Definition demo_taken : Access :=
  match access (λ m _, Ok m) demo_env demo_cache tt demo_secure with
  | Ok a => a
  | Err _ => mkAccess demo_cache tt demo_secure None 0 [] false
  end.

Lemma secure_writeback_downgraded_witness :
  pkt_isSecure demo_secure = true ∧
  ∃ b, get_blk (ca_tags (ac_cache demo_taken)) 2 = Ok b ∧ getGuestID b = 0 ∧ blk_isDirty b = true ∧ blk_isSecure b = false.
Proof.
  split; [reflexivity|].
  destruct (secure_writeback_downgraded (λ m _, Ok m) demo_env demo_cache tt demo_secure demo_taken 2) as (b & H1 & _ & H2 & H3 & H4);
    [apply demo_lru_wf|discriminate|by split|done|reflexivity|vm_compute; reflexivity|vm_compute; reflexivity|vm_compute; reflexivity|].
  exists b. split; [exact H1|]. split; [exact H3|]. split; [exact H2|exact H4].
Defined.
