(* ===== verification/CacheTiming.v ===== *)
(** * The cache controller in timing mode

    [src/pardg5-v/hyper/mem/cache/cache_impl.hh] and [base.hh], [base.cc]: how
    timing requests are answered, queued and refused, how misses are sent and
    their responses handled, and timing snoops.  The memory side, the caches
    above and the simulator are arguments; what the cache hands to its ports is
    the log [tm_out].  Prefetchers are refused by the constructor of the cache
    and statistics are not modelled. *)

From S2P Require Import Prelude BaseLib Packet CacheBlk CacheSet LruTags Mshr MshrQueue CacheCtrl.
Local Open Scope Z_scope.

(** ** State *)

(** What the cache hands to its ports: a response to the CPU side, a snoop
    response and a request (an express snoop, or any request in bypass mode) to
    the memory side, and a request for the memory-side bus. *)
Inductive TimingOut : Type :=
| OutResp (p : Packet) (time : Z)
| OutSnoopResp (p : Packet) (time : Z)
| OutRequest (p : Packet)
| OutBus (cause time : Z).

(** [tm_portBlocked], [tm_mustSendRetry] and [tm_sendRetryEvent] are the fields
    of the CPU-side port. *)
Record Timing : Type := mkTiming {
  tm_cache : Cache;
  tm_blocked : Z;
  tm_noTargetMSHR : option nat;
  tm_order : Z;
  tm_numTarget : Z;
  tm_addrRanges : list (Z * Z);
  tm_portBlocked : bool;
  tm_mustSendRetry : bool;
  tm_sendRetryEvent : option Z;
  tm_pendingDelete : list Packet;
  tm_out : list TimingOut
}.
#[export] Instance eta_Timing : Eta Timing := λ s,
  mkTiming (tm_cache s) (tm_blocked s) (tm_noTargetMSHR s) (tm_order s) (tm_numTarget s) (tm_addrRanges s)
    (tm_portBlocked s) (tm_mustSendRetry s) (tm_sendRetryEvent s) (tm_pendingDelete s) (tm_out s).

(** The constructor over the cache proper; [order] is not initialised by the
    source, so its value is an argument. *)
Definition Timing_make (c : Cache) (order tgts_per_mshr : Z) (addr_ranges : list (Z * Z)) : Timing :=
  mkTiming c 0 None order tgts_per_mshr addr_ranges false false None [] [].

Definition Blocked_NoTargets : Z := 2.

Definition emit (s : Timing) (o : TimingOut) : Timing := s <| tm_out := tm_out s ++ [o] |>.
Definition requestMemSideBus (s : Timing) (cause time : Z) : Timing := emit s (OutBus cause time).

(** [clockEdge(cycles)]. *)
Definition edge (ev : Env) (cycles : Z) : Z := wrap 64 (ev_clockEdge ev + cycles * ev_clockPeriod ev).

(** ** Blocking *)

(** [CacheSlavePort::setBlocked] and [clearBlocked]. *)
Definition port_setBlocked (s : Timing) : result Timing :=
  assertb (negb (tm_portBlocked s)) ;;
  let s := s <| tm_portBlocked := true |> in
  match tm_sendRetryEvent s with
  | Some _ => Ok (s <| tm_sendRetryEvent := None |> <| tm_mustSendRetry := true |>)
  | None => Ok s
  end.
Definition port_clearBlocked (ev : Env) (s : Timing) : result Timing :=
  assertb (tm_portBlocked s) ;;
  let s := s <| tm_portBlocked := false |> in
  if tm_mustSendRetry s then
    assertb (bool_decide (tm_sendRetryEvent s = None)) ;;
    Ok (s <| tm_mustSendRetry := false |> <| tm_sendRetryEvent := Some (wrap 64 (ev_curTick ev + 1)) |>)
  else Ok s.

Definition setBlocked (s : Timing) (cause : Z) : result Timing :=
  let flag := wrap 8 (Z.shiftl 1 cause) in
  s ← (if tm_blocked s =? 0 then port_setBlocked s else Ok s);
  Ok (s <| tm_blocked := Z.lor (tm_blocked s) flag |>).
Definition clearBlocked (ev : Env) (s : Timing) (cause : Z) : result Timing :=
  let flag := wrap 8 (Z.shiftl 1 cause) in
  let s := s <| tm_blocked := Z.ldiff (tm_blocked s) flag |> in
  if tm_blocked s =? 0 then port_clearBlocked ev s else Ok s.

(** ** Queues *)

(** [mshr->queue]: the registers of the write buffer stand behind those of the
    miss queue. *)
Definition in_write_buffer (c : Cache) (id : nat) : bool := (mq_base (ca_writeBuffer c) <=? id)%nat.
Definition get_mq (c : Cache) (wb : bool) : MSHRQueue := if wb then ca_writeBuffer c else ca_mshrQueue c.
Definition put_mq (s : Timing) (h : heap) (wb : bool) (q : MSHRQueue) : Timing :=
  let c := (tm_cache s) <| ca_mshrs := h |> in
  s <| tm_cache := if wb then c <| ca_writeBuffer := q |> else c <| ca_mshrQueue := q |> |>.
Definition put_heap (s : Timing) (h : heap) : Timing := s <| tm_cache := (tm_cache s) <| ca_mshrs := h |> |>.

Definition allocateBufferInternal (ev : Env) (s : Timing) (wb : bool) (addr size : Z) (p : Packet) (time : Z)
    (requestBus : bool) : result (Timing * nat) :=
  guest ← PKT_TO_GUESTID p;
  '(h, q, id) ← mq_allocate (ca_mshrs (tm_cache s)) (get_mq (tm_cache s) wb) guest addr size p (ev_curTick ev) time (tm_order s);
  let s := (put_mq s h wb q) <| tm_order := wrap 64 (tm_order s + 1) |> in
  s ← (if isFull q then setBlocked s (mq_index q) else Ok s);
  Ok (if requestBus then requestMemSideBus s (mq_index q) time else s, id).

Definition blockAlign (c : Cache) (addr : Z) : Z := Z.land addr (Z.lnot (ca_blkSize c - 1)).
Definition allocateMissBuffer (ev : Env) (s : Timing) (p : Packet) (time : Z) (requestBus : bool) : result (Timing * nat) :=
  assertb (negb (req_isUncacheable (pkt_req p))) ;;
  addr ← getAddr p;
  allocateBufferInternal ev s false (blockAlign (tm_cache s) addr) (ca_blkSize (tm_cache s)) p time requestBus.
Definition allocateWriteBuffer (ev : Env) (s : Timing) (p : Packet) (time : Z) (requestBus : bool) : result (Timing * nat) :=
  assertb (pkt_isWrite p && negb (pkt_isRead p)) ;;
  addr ← getAddr p;
  size ← getSize p;
  allocateBufferInternal ev s true addr size p time requestBus.
Definition allocateUncachedReadBuffer (ev : Env) (s : Timing) (p : Packet) (time : Z) (requestBus : bool)
  : result (Timing * nat) :=
  assertb (req_isUncacheable (pkt_req p)) ;;
  assertb (pkt_isRead p) ;;
  addr ← getAddr p;
  size ← getSize p;
  allocateBufferInternal ev s false addr size p time requestBus.

(** [markInService], which is [markInServiceInternal]. *)
Definition markInService (ev : Env) (s : Timing) (id : nat) (p : Packet) : result Timing :=
  let wb := in_write_buffer (tm_cache s) id in
  let wasFull := isFull (get_mq (tm_cache s) wb) in
  '(h, q) ← mq_markInService (ca_mshrs (tm_cache s)) (get_mq (tm_cache s) wb) id p;
  let s := put_mq s h wb q in
  if wasFull && negb (isFull q) then clearBlocked ev s (mq_index q) else Ok s.

(** The write-backs at the end of a request or a response, in order. *)
Definition queue_writebacks (ev : Env) (s : Timing) (wbs : list Packet) (time : Z) : result Timing :=
  foldM (λ s wb, '(s, _) ← allocateWriteBuffer ev s wb time true; Ok s) s wbs.

Definition zero_bus_delays (p : Packet) : Packet := p <| pkt_busFirstWordDelay := 0 |> <| pkt_busLastWordDelay := 0 |>.

(** ** Requests from the CPU side *)

Section CpuSide.

Context {M : Type} (sendFunctional : M → Packet → result M).

(** The miss branch of [recvTimingReq]. *)
Definition timing_miss (ev : Env) (s : Timing) (p : Packet) (blk : option BlkRef) (time : Z) : result Timing :=
  let c := tm_cache s in
  let p := zero_bus_delays p in
  addr ← getAddr p;
  guest ← PKT_TO_GUESTID p;
  is_secure ← isSecure p;
  mshr ← findMatch (ca_mshrs c) (ca_mshrQueue c) guest (blockAlign c addr) is_secure;
  assertb (req_masterId (pkt_req p) <? ev_maxMasters ev) ;;
  match mshr with
  | Some id =>
      m ← get_mshr (ca_mshrs c) id;
      h ← put_mshr (ca_mshrs c) id (if negb (ms_threadNum m =? 0) then m <| ms_threadNum := -1 |> else m);
      h ← allocateTarget h id p (ev_curTick ev) time (tm_order s);
      let s := (put_heap s h) <| tm_order := wrap 64 (tm_order s + 1) |> in
      m ← get_mshr h id;
      if getNumTargets m =? tm_numTarget s
      then setBlocked (s <| tm_noTargetMSHR := Some id |>) Blocked_NoTargets else Ok s
  | None =>
      if decide (pkt_cmd p = Writeback) then '(s, _) ← allocateWriteBuffer ev s p time true; Ok s
      else
        s ← (match blk with
             | None => Ok s
             | Some r =>
                 b ← get_ref c r;
                 if blk_isValid b then
                   assertb (pkt_needsExclusive p && negb (blk_isWritable b)) ;;
                   c ← set_ref c r (clear_bits b BlkReadable);
                   Ok (s <| tm_cache := c |>)
                 else Ok s
             end);
        '(s, _) ← allocateMissBuffer ev s p time true; Ok s
  end.

(** [Cache::recvTimingReq]. *)
Definition tm_recvTimingReq (ev : Env) (s : Timing) (m : M) (p : Packet) : result (Timing * M) :=
  let s := s <| tm_pendingDelete := [] |> in
  let c := tm_cache s in
  let time := edge ev (ca_hitLatency c) in
  assertb (pkt_isRequest p) ;;
  if ev_bypassCaches ev then Ok (emit s (OutRequest p), m)
  else if memInhibitAsserted p then
    assertb (negb (req_isUncacheable (pkt_req p))) ;;
    let s := if pkt_needsExclusive p && negb (isSupplyExclusive p)
             then emit s (OutRequest (assertMemInhibit (setExpressSnoop (zero_bus_delays (Packet_copy p true))))) else s in
    Ok (s <| tm_pendingDelete := tm_pendingDelete s ++ [p] |>, m)
  else if req_isUncacheable (pkt_req p) then
    '(c, m) ← uncacheableFlush sendFunctional ev c m p;
    let s := s <| tm_cache := c |> in
    let p := zero_bus_delays p in
    '(s, _) ← (if pkt_isWrite p && negb (pkt_isRead p) then allocateWriteBuffer ev s p time true
               else allocateUncachedReadBuffer ev s p time true);
    assertb (pkt_needsResponse p) ;;
    Ok (s, m)
  else
    a ← access sendFunctional ev c m p;
    let s := s <| tm_cache := ac_cache a |> in
    let p := ac_pkt a in
    s ← (if ac_satisfied a then
           if pkt_needsResponse p then
             p ← makeResponse p;
             Ok (emit s (OutResp (zero_bus_delays p) (edge ev (ac_lat a))))
           else Ok (s <| tm_pendingDelete := tm_pendingDelete s ++ [p] |>)
         else timing_miss ev s p (ac_blk a) time);
    s ← queue_writebacks ev s (ac_writebacks a) time;
    Ok (s, ac_mem a).

(** [CpuSidePort::recvTimingReq]: whether the request is accepted. *)
Definition cpu_recvTimingReq (ev : Env) (s : Timing) (m : M) (p : Packet) : result (Timing * M * bool) :=
  if negb (memInhibitAsserted p) && tm_portBlocked s then
    assertb (negb (ev_bypassCaches ev)) ;;
    Ok (s <| tm_mustSendRetry := true |>, m, false)
  else '(s, m) ← tm_recvTimingReq ev s m p; Ok (s, m, true).

End CpuSide.

(** ** Snoops *)

(** [doTimingSupplyResponse] with the bytes of the block or of the write-back. *)
Definition doTimingSupplyResponse (ev : Env) (s : Timing) (req_pkt : Packet) (blk_data : list Z)
    (already_copied pending_inval : bool) : result Timing :=
  let p := if already_copied then req_pkt else Packet_copy req_pkt false in
  assertb (pkt_isInvalidate req_pkt || sharedAsserted p) ;;
  p ← Packet_allocate p;
  p ← makeResponse p;
  let p := zero_bus_delays p in
  p ← (if pkt_isRead p then setDataFromBlock p blk_data (ca_blkSize (tm_cache s)) else Ok p);
  let p := if bool_decide (pkt_cmd p = ReadResp) && pending_inval then p <| pkt_cmd := ReadRespWithInvalidate |> else p in
  Ok (emit s (OutSnoopResp p (edge ev (ca_hitLatency (tm_cache s))))).

Section Snoops.

(** The caches above: what they make of a snoop. *)
Context (upper : Packet → Packet).

(** The snoop forwarded upwards by [handleSnoop] in timing mode. *)
Definition forward_snoop (c : Cache) (p : Packet) : result Packet :=
  if ca_forwardSnoops c then
    src ← getSrc p;
    let snoopPkt := upper (zero_bus_delays (pushSenderState (setExpressSnoop (Packet_copy p true)) (SSForward src))) in
    p ← (if memInhibitAsserted snoopPkt
         then assertb (negb (memInhibitAsserted p)) ;; Ok (assertMemInhibit p) else Ok p);
    Ok (if sharedAsserted snoopPkt then assertShared p else p)
  else Ok p.

(** [handleSnoop] in timing mode: the cache and the snoop packet. *)
Definition handleSnoop_timing (ev : Env) (s : Timing) (p : Packet) (blk : option BlkRef) (is_deferred pending_inval : bool)
  : result (Timing * Packet) :=
  assertb (negb (pending_inval && negb is_deferred)) ;;
  assertb (pkt_isRequest p) ;;
  let invalidate := pkt_isInvalidate p in
  let needs_exclusive := pkt_needsExclusive p in
  p ← forward_snoop (tm_cache s) p;
  match blk with
  | None => Ok (s, p)
  | Some r =>
      b ← get_ref (tm_cache s) r;
      if negb (blk_isValid b) then Ok (s, p) else
      let respond := blk_isDirty b && pkt_needsResponse p in
      let have_exclusive := blk_isWritable b in
      '(b, p) ← (if pkt_isRead p && negb invalidate then
                   assertb (negb needs_exclusive) ;; Ok (clear_bits b BlkWritable, assertShared p)
                 else Ok (b, p));
      c ← set_ref (tm_cache s) r b;
      let s := s <| tm_cache := c |> in
      '(s, p) ← (if respond then
                   assertb (negb (memInhibitAsserted p)) ;;
                   let p := assertMemInhibit p in
                   let p := if have_exclusive then setSupplyExclusive p else p in
                   line ← get_line c r;
                   s ← doTimingSupplyResponse ev s p line is_deferred pending_inval;
                   Ok (s, p)
                 else Ok (s, p));
      s ← (if invalidate then c ← drop_block ev (tm_cache s) r; Ok (s <| tm_cache := c |>) else Ok s);
      Ok (s, p)
  end.

(** The write-back buffer part of [recvTimingSnoopReq]: the snoop is answered
    from a write-back of the line, which an invalidation discards. *)
Definition snoop_writeback (ev : Env) (s : Timing) (p : Packet) (id : nat) : result (Timing * Packet) :=
  m ← get_mshr (ca_mshrs (tm_cache s)) id;
  assertb (negb (ms_isUncacheable m)) ;;
  assertb (getNumTargets m =? 1) ;;
  tg ← getTarget m;
  let wb_pkt := tg_pkt tg in
  assertb (bool_decide (pkt_cmd wb_pkt = Writeback)) ;;
  assertb (negb (memInhibitAsserted p)) ;;
  let p := assertMemInhibit p in
  '(p, wb_pkt) ← (if negb (pkt_needsExclusive p) then Ok (assertShared p, flag_clear wb_pkt SUPPLY_EXCLUSIVE)
                  else assertb (pkt_isInvalidate p) ;; Ok (p, wb_pkt));
  let ts := ms_targets m in
  h ← put_mshr (ca_mshrs (tm_cache s)) id
        (m <| ms_targets := ts <| tl_list := (tg <| tg_pkt := wb_pkt |>) :: drop 1 (tl_list ts) |> |>);
  let s := put_heap s h in
  bytes ← getPtr wb_pkt;
  s ← doTimingSupplyResponse ev s p bytes false false;
  if pkt_isInvalidate p then
    m ← get_mshr h id;
    fwd ← isForwardNoResponse m;
    if fwd : bool then s ← markInService ev s id wb_pkt; Ok (s, p) else Err NullDeref
  else Ok (s, p).

Definition range_contains (r : Z * Z) (a : Z) : bool := (r.1 <=? a) && (a <=? r.2).

(** [recvTimingSnoopReq]; a snoop that a register takes leaves the packet as the
    register made it. *)
Definition tm_recvTimingSnoopReq (ev : Env) (s : Timing) (p : Packet) : result (Timing * Packet) :=
  guest ← PKT_TO_GUESTID p;
  if ca_isPrivate (tm_cache s) && negb (guest =? ca_guestID (tm_cache s)) then Ok (s, p)
  else
    assertb (negb (ev_bypassCaches ev)) ;;
    addr ← getAddr p;
    let in_range := existsb (λ r, range_contains r addr) (tm_addrRanges s) in
    if req_isUncacheable (pkt_req p) || bool_decide (pkt_cmd p = Writeback) || negb in_range then Ok (s, p)
    else
      is_secure ← isSecure p;
      blk ← findBlock (ca_tags (tm_cache s)) guest addr is_secure;
      let c := tm_cache s in
      mshr ← findMatch (ca_mshrs c) (ca_mshrQueue c) guest (blockAlign c addr) is_secure;
      '(s, p, taken) ←
        (match mshr with
         | None => Ok (s, p, false)
         | Some id =>
             '(h, p, taken) ← handleSnoop (ca_mshrs c) id p (ev_curTick ev) (tm_order s);
             Ok ((put_heap s h) <| tm_order := wrap 64 (tm_order s + 1) |>, p, taken)
         end);
      if taken : bool then Ok (s, p)
      else
        '(writebacks, found) ← findMatches (ca_mshrs (tm_cache s)) (ca_writeBuffer (tm_cache s)) guest (blockAlign c addr) is_secure [];
        '(s, p) ←
          (if found : bool then
             match writebacks with
             | [] => Ok (s, p)
             | [id] => snoop_writeback ev s p id
             | _ => Err AssertFail
             end
           else Ok (s, p));
        handleSnoop_timing ev s p (TagBlk <$> blk) false false.

(** ** Responses from the memory side *)

(** [dynamic_cast<MSHR*>(pkt->senderState)]. *)
Definition sender_mshr (p : Packet) : result nat :=
  match pkt_senderState p with SSMshr id :: _ => Ok id | _ => Err AssertFail end.

(** A target from the CPU side, completed by the response [p]: the cache, the
    packet and the tick of its response. *)
Definition complete_cpu_target (ev : Env) (c : Cache) (m : MSHR) (p : Packet) (blk : option BlkRef) (is_fill is_error : bool)
    (initial_offset : Z) (tp : Packet) : result (Cache * Packet * Z) :=
  '(c, tp, completion_time) ←
    (if is_fill then
       match blk with
       | None => Err NullDeref
       | Some r =>
           down ← hasPostDowngrade m;
           '(c, tp) ← satisfyCpuSideRequest ev c tp r true down;
           off ← getOffset tp (ca_blkSize c);
           let transfer_offset := off - initial_offset in
           let transfer_offset := if transfer_offset <? 0 then transfer_offset + ca_blkSize c else transfer_offset in
           assertb (negb (req_isUncacheable (pkt_req tp))) ;;
           assertb (req_masterId (pkt_req tp) <? ev_maxMasters ev) ;;
           Ok (c, tp, wrap 64 (edge ev (ca_responseLatency c) +
                 if transfer_offset =? 0 then pkt_busFirstWordDelay p else pkt_busLastWordDelay p))
       end
     else if decide (pkt_cmd p = UpgradeFailResp) then
       assertb (bool_decide (pkt_cmd tp ∈ [StoreCondReq; StoreCondFailReq; SCUpgradeFailReq])) ;;
       Ok (c, tp <| pkt_req := (pkt_req tp) <| req_extraData := 0 |> |>, wrap 64 (edge ev (ca_responseLatency c) + pkt_busLastWordDelay p))
     else
       tp ← (if pkt_isRead p && negb is_error then bytes ← getPtr p; setData tp bytes 0 else Ok tp);
       Ok (c, tp, wrap 64 (edge ev (ca_responseLatency c) + pkt_busLastWordDelay p)));
  tp ← makeResponse tp;
  tp ← (if is_error then copyError tp p else Ok tp);
  inval ← (if decide (pkt_cmd tp = ReadResp) then
             if pkt_isInvalidate p then Ok true else hasPostInvalidate m
           else Ok false);
  let tp := if inval : bool then tp <| pkt_cmd := ReadRespWithInvalidate |> else tp in
  Ok (c, zero_bus_delays tp, completion_time).

(** One round of the loop over the targets, without [popTarget]. *)
Definition complete_target (ev : Env) (s : Timing) (id : nat) (p : Packet) (blk : option BlkRef) (is_fill is_error : bool)
    (initial_offset : Z) : result Timing :=
  m ← get_mshr (ca_mshrs (tm_cache s)) id;
  target ← getTarget m;
  match tg_source target with
  | FromCPU =>
      '(c, tp, time) ← complete_cpu_target ev (tm_cache s) m p blk is_fill is_error initial_offset (tg_pkt target);
      Ok (emit (s <| tm_cache := c |>) (OutResp tp time))
  | FromPrefetcher =>
      assertb (bool_decide (pkt_cmd (tg_pkt target) = HardPFReq)) ;;
      match blk with
      | None => Ok s
      | Some r => b ← get_ref (tm_cache s) r;
                  c ← set_ref (tm_cache s) r (set_bits b BlkHWPrefetched);
                  Ok (s <| tm_cache := c |>)
      end
  | FromSnoop =>
      assertb (negb is_error) ;;
      inval ← hasPostInvalidate m;
      assertb (negb (pkt_isInvalidate p && negb inval)) ;;
      '(s, _) ← handleSnoop_timing ev s (tg_pkt target) blk true inval;
      Ok s
  end.

(** The loop: [n] is the number of targets. *)
Fixpoint complete_targets (n : nat) (ev : Env) (s : Timing) (id : nat) (p : Packet) (blk : option BlkRef)
    (is_fill is_error : bool) (initial_offset : Z) : result Timing :=
  m ← get_mshr (ca_mshrs (tm_cache s)) id;
  if negb (hasTargets m) then Ok s
  else
    match n with
    | O => Err OutOfFuel
    | S n =>
        s ← complete_target ev s id p blk is_fill is_error initial_offset;
        m ← get_mshr (ca_mshrs (tm_cache s)) id;
        m ← popTarget m;
        h ← put_mshr (ca_mshrs (tm_cache s)) id m;
        complete_targets n ev (put_heap s h) id p blk is_fill is_error initial_offset
    end.

(** What is left of the block after the targets. *)
Definition post_response (ev : Env) (c : Cache) (m : MSHR) (p : Packet) (blk : option BlkRef) : result Cache :=
  match blk with
  | None => Ok c
  | Some r =>
      b ← get_ref c r;
      if blk_isValid b then
        inval ← (if pkt_isInvalidate p then Ok true else hasPostInvalidate m);
        if inval : bool then
          assertb (negb (bool_decide (r = TempBlk))) ;; drop_block ev c r
        else
          down ← hasPostDowngrade m;
          if down : bool then set_ref c r (clear_bits b BlkWritable) else Ok c
      else Ok c
  end.

(** The end of the register: it goes back to the queue when targets waited for
    another request, and is freed otherwise. *)
Definition retire_mshr (ev : Env) (s : Timing) (id : nat) (p : Packet) (blk : option BlkRef) (wasFull : bool) : result Timing :=
  let wb := in_write_buffer (tm_cache s) id in
  '(h, promoted) ← promoteDeferredTargets (ca_mshrs (tm_cache s)) id (ev_curTick ev);
  let s := put_heap s h in
  if promoted : bool then
    c ← (match blk with
         | None => Ok (tm_cache s)
         | Some r => b ← get_ref (tm_cache s) r; set_ref (tm_cache s) r (clear_bits b BlkReadable)
         end);
    let s := s <| tm_cache := c |> in
    '(h, q) ← markPending (ca_mshrs c) (get_mq c wb) id;
    Ok (requestMemSideBus (put_mq s h wb q) (mq_index q) (wrap 64 (edge ev 0 + pkt_busLastWordDelay p)))
  else
    '(h, q) ← mq_deallocate h (get_mq (tm_cache s) wb) id;
    let s := put_mq s h wb q in
    if wasFull && negb (isFull q) then clearBlocked ev s (mq_index q) else Ok s.

(** [Cache::recvTimingResp]. *)
Definition tm_recvTimingResp (ev : Env) (s : Timing) (p : Packet) : result Timing :=
  assertb (pkt_isResponse p) ;;
  let time := edge ev (ca_hitLatency (tm_cache s)) in
  id ← sender_mshr p;
  let is_error := pkt_isError p in
  let wasFull := isFull (get_mq (tm_cache s) (in_write_buffer (tm_cache s) id)) in
  s ← (if bool_decide (tm_noTargetMSHR s = Some id)
       then s ← clearBlocked ev s Blocked_NoTargets; Ok (s <| tm_noTargetMSHR := None |>) else Ok s);
  m ← get_mshr (ca_mshrs (tm_cache s)) id;
  initial_tgt ← getTarget m;
  guest ← PKT_TO_GUESTID p;
  addr ← getAddr p;
  is_secure ← isSecure p;
  blk ← findBlock (ca_tags (tm_cache s)) guest addr is_secure;
  assertb (req_masterId (pkt_req p) <? ev_maxMasters ev) ;;
  let is_fill := negb (ms_isForward m) && (pkt_isRead p || bool_decide (pkt_cmd p = UpgradeResp)) in
  '(s, blk, writebacks) ←
    (if is_fill && negb is_error then
       h ← handleFill (ca_mshrs (tm_cache s)) id p;
       '(c, r, wbs) ← handleFill_cache ev ((tm_cache s) <| ca_mshrs := h |>) p (TagBlk <$> blk);
       Ok (s <| tm_cache := c |>, Some r, wbs)
     else Ok (s, TagBlk <$> blk, []));
  m ← get_mshr (ca_mshrs (tm_cache s)) id;
  initial_offset ← (if hasTargets m then t ← getTarget m; getOffset (tg_pkt t) (ca_blkSize (tm_cache s)) else Ok 0);
  s ← complete_targets (length (tl_list (ms_targets m))) ev s id p blk is_fill is_error initial_offset;
  m ← get_mshr (ca_mshrs (tm_cache s)) id;
  c ← post_response ev (tm_cache s) m p blk;
  s ← retire_mshr ev (s <| tm_cache := c |>) id p blk wasFull;
  s ← queue_writebacks ev s writebacks time;
  if bool_decide (blk = Some TempBlk) then
    s ← (if blk_isDirty (ca_tempBlock (tm_cache s)) then
           '(c, wb) ← writebackBlk ev (tm_cache s) TempBlk;
           '(s, _) ← allocateWriteBuffer ev (s <| tm_cache := c |>) wb time true;
           Ok s
         else Ok s);
    Ok (s <| tm_cache := (tm_cache s) <| ca_tempBlock := blk_invalidate (ca_tempBlock (tm_cache s)) |> |>)
  else Ok s.

(** [recvTimingSnoopResp]: a response from above on its way down. *)
Definition tm_recvTimingSnoopResp (ev : Env) (s : Timing) (p : Packet) : result Timing :=
  assertb (pkt_isResponse p) ;;
  assertb (negb (ev_bypassCaches ev)) ;;
  match pkt_senderState p with
  | SSForward prevSrc :: rest =>
      Ok (emit s (OutSnoopResp (zero_bus_delays (setDest (p <| pkt_senderState := rest |>) prevSrc))
                    (edge ev (ca_hitLatency (tm_cache s)))))
  | _ => assertb (bool_decide (pkt_cmd p = HardPFResp)) ;; tm_recvTimingResp ev s p
  end.

(** ** Requests to the memory side *)

(** The last part of [getTimingPacket]: a request for the line, or a copy of the
    packet to forward. *)
Definition send_miss (s : Timing) (id : nat) (m : MSHR) (tgt_pkt : Packet) (blk : option nat) : result (Timing * option Packet) :=
  bus ← getBusPacket (tm_cache s) tgt_pkt (TagBlk <$> blk) (ms_needsExclusive m);
  h ← put_mshr (ca_mshrs (tm_cache s)) id (m <| ms_isForward := bool_decide (bus = None) |>);
  p ← (match bus with
       | Some p => Ok p
       | None =>
           p ← Packet_allocate (Packet_copy tgt_pkt false);
           if pkt_isWrite p then bytes ← getPtr tgt_pkt; setData p bytes 0 else Ok p
       end);
  Ok (put_heap s h, Some (p <| pkt_senderState := [SSMshr id] |>)).

(** [getTimingPacket]: the packet to send for the next register, if any. *)
Definition getTimingPacket (ev : Env) (s : Timing) : result (Timing * option Packet) :=
  next ← ca_getNextMSHR ev (tm_cache s);
  match next with
  | None => Ok (s, None)
  | Some id =>
      m ← get_mshr (ca_mshrs (tm_cache s)) id;
      tg ← getTarget m;
      let tgt_pkt := tg_pkt tg in
      if bool_decide (pkt_cmd tgt_pkt = SCUpgradeFailReq) || bool_decide (pkt_cmd tgt_pkt = StoreCondFailReq) then
        let p := (Packet_copy tgt_pkt false) <| pkt_cmd := UpgradeFailResp |> <| pkt_senderState := [SSMshr id] |> in
        s ← tm_recvTimingResp ev s (zero_bus_delays p);
        Ok (s, None)
      else
        fwd ← isForwardNoResponse m;
        blk ← findBlock (ca_tags (tm_cache s)) (ms_guest m) (ms_addr m) (ms_isSecure m);
        if fwd : bool then
          assertb (bool_decide (blk = None)) ;;
          let p := tgt_pkt <| pkt_senderState := [SSMshr id] |> in
          let ts := ms_targets m in
          h ← put_mshr (ca_mshrs (tm_cache s)) id
                (m <| ms_targets := ts <| tl_list := (tg <| tg_pkt := p |>) :: drop 1 (tl_list ts) |> |>);
          Ok (put_heap s h, Some p)
        else
          snooped ← (if decide (pkt_cmd tgt_pkt = HardPFReq) then
                       assertb (bool_decide (blk = None)) ;;
                       Ok (Some (upper ((setExpressSnoop (Packet_copy tgt_pkt true)) <| pkt_senderState := [SSMshr id] |>)))
                     else Ok None);
          match snooped with
          | Some q =>
              if memInhibitAsserted q then s ← markInService ev s id q; Ok (s, None)
              else send_miss s id m tgt_pkt blk
          | None => send_miss s id m tgt_pkt blk
          end
  end.

(** The request part of [sendDeferredPacket], for a memory side that answers
    [accept]: the packet that was sent and the new [waitingOnRetry]. *)
Definition send_request (ev : Env) (s : Timing) (accept : bool) : result (Timing * option Packet * bool) :=
  '(s, pkt) ← getTimingPacket ev s;
  match pkt with
  | None => Ok (s, None, false)
  | Some p =>
      id ← sender_mshr p;
      if accept then s ← markInService ev s id p; Ok (s, Some p, false) else Ok (s, None, true)
  end.

End Snoops.

(** ** Histories of a cache *)

(** [sendRetryEvent] fires: the port sends the retry. *)
Definition fire_sendRetry (s : Timing) : result Timing :=
  match tm_sendRetryEvent s with
  | Some _ => Ok (s <| tm_sendRetryEvent := None |>)
  | None => Err AssertFail
  end.

(** What happens to a cache: a request, a snoop, a response, a snoop response,
    its turn on the memory-side bus with the answer it gets, and the retry. *)
Inductive TimingEvent : Type :=
| EvReq (p : Packet)
| EvSnoopReq (p : Packet)
| EvResp (p : Packet)
| EvSnoopResp (p : Packet)
| EvSend (accept : bool)
| EvRetry.

Section Histories.

Context {M : Type} (sendFunctional : M → Packet → result M) (upper : Packet → Packet).

(** The last component says whether a requester was refused and has not been
    told to retry since. *)
Definition tm_event (st : Timing * M * bool) (ee : Env * TimingEvent) : result (Timing * M * bool) :=
  let '(s, m, waiting) := st in
  let '(ev, e) := ee in
  match e with
  | EvReq p => '(s, m, accepted) ← cpu_recvTimingReq sendFunctional ev s m p; Ok (s, m, waiting || negb accepted)
  | EvSnoopReq p => '(s, _) ← tm_recvTimingSnoopReq upper ev s p; Ok (s, m, waiting)
  | EvResp p => s ← tm_recvTimingResp upper ev s p; Ok (s, m, waiting)
  | EvSnoopResp p => s ← tm_recvTimingSnoopResp upper ev s p; Ok (s, m, waiting)
  | EvSend accept => '(s, _, _) ← send_request upper ev s accept; Ok (s, m, waiting)
  | EvRetry => s ← fire_sendRetry s; Ok (s, m, false)
  end.
Definition tm_run (st : Timing * M * bool) (es : list (Env * TimingEvent)) : result (Timing * M * bool) := foldM tm_event st es.

End Histories.
