(* ===== verification/CacheBlocking.v ===== *)
(** * Blocking and retries of the CPU-side port

    The cache refuses requests while a queue is full or a register is recorded
    as out of targets.  The theorems relate the blocking mask of [BaseCache] to the
    state of the queues and the port to the mask, over every handler of
    [CacheTiming], and show that a refused requester is owed a retry. *)

From S2P Require Import Prelude BaseLib Packet CacheBlk CacheSet LruTags Mshr MshrQueue CacheCtrl CacheFrame CacheAtomic CacheTiming.
Local Open Scope Z_scope.

(** ** The port and the mask *)

Definition mask_of (no_mshrs no_buffers no_targets : bool) : Z :=
  (if no_mshrs then 1 else 0) + (if no_buffers then 2 else 0) + (if no_targets then 4 else 0).

(** The mask has the given causes, the port is blocked exactly when there is
    one, a retry is owed only while it is blocked and scheduled only while it
    is open. *)
Record port_ok (s : Timing) (a b c : bool) : Prop := {
  po_mask : tm_blocked s = mask_of a b c;
  po_port : tm_portBlocked s = a || b || c;
  po_must : tm_mustSendRetry s = true → tm_portBlocked s = true;
  po_event : tm_sendRetryEvent s ≠ None → tm_portBlocked s = false
}.

Definition owes_retry (s : Timing) : Prop := tm_mustSendRetry s = true ∨ tm_sendRetryEvent s ≠ None.

(** The part of the state that blocking does not touch. *)
Definition same_rest (s s' : Timing) : Prop :=
  tm_cache s' = tm_cache s ∧ tm_noTargetMSHR s' = tm_noTargetMSHR s ∧ tm_order s' = tm_order s ∧
  tm_numTarget s' = tm_numTarget s ∧ tm_out s' = tm_out s ∧ tm_pendingDelete s' = tm_pendingDelete s.

(** A cause by its number. *)
Definition with_cause (cause : Z) (v a b c : bool) : bool * bool * bool :=
  if cause =? 0 then (v, b, c) else if cause =? 1 then (a, v, c) else (a, b, v).

Lemma setBlocked_ok s a b c cause :
  port_ok s a b c → cause ∈ [0; 1; 2] →
  ∃ s', setBlocked s cause = Ok s' ∧ same_rest s s' ∧ (owes_retry s → owes_retry s') ∧
    let '(a', b', c') := with_cause cause true a b c in port_ok s' a' b' c'.
Proof.
  intros [P1 P2 P3 P4] Hc. rewrite !elem_of_cons in Hc. unfold setBlocked. rewrite P1.
  destruct s as [ca bl nt od nu ar pb mu se pd ou]. cbn in *. subst bl.
  destruct Hc as [->|[->|[->|[]%elem_of_nil]]]; destruct a, b, c; cbn in P2; subst pb; cbn;
    try (eexists; split; [reflexivity|]; split; [done|]; split; [done|]; split; cbn; (done || by intros ->)).
  all: destruct se as [t|]; eexists; (split; [reflexivity|]); (split; [done|]); (split; [unfold owes_retry; cbn; naive_solver|]);
    split; cbn; done.
Qed.

Lemma clearBlocked_ok ev s a b c cause :
  port_ok s a b c → cause ∈ [0; 1; 2] → with_cause cause true a b c = (a, b, c) →
  ∃ s', clearBlocked ev s cause = Ok s' ∧ same_rest s s' ∧ (owes_retry s → owes_retry s') ∧
    let '(a', b', c') := with_cause cause false a b c in port_ok s' a' b' c'.
Proof.
  intros [P1 P2 P3 P4] Hc Hset. rewrite !elem_of_cons in Hc. unfold clearBlocked.
  destruct s as [ca bl nt od nu ar pb mu se pd ou]. cbn in *. subst bl.
  destruct Hc as [->|[->|[->|[]%elem_of_nil]]]; destruct a, b, c; cbn in Hset; try discriminate Hset; cbn in P2; subst pb; cbn;
    try (eexists; split; [reflexivity|]; split; [done|]; split; [done|]; split; cbn; (done || by intros ->)).
  all: destruct se as [t|]; [by specialize (P4 ltac:(done))|]; destruct mu; cbn; eexists; (split; [reflexivity|]); (split; [done|]);
    (split; [unfold owes_retry; cbn; naive_solver|]); split; cbn; done.
Qed.

(** ** The invariant of the cache *)

Definition no_targets (s : Timing) : bool := bool_decide (is_Some (tm_noTargetMSHR s)).

Record blocking_inv (s : Timing) : Prop := {
  bi_index : mq_index (ca_mshrQueue (tm_cache s)) = 0 ∧ mq_index (ca_writeBuffer (tm_cache s)) = 1;
  bi_port : port_ok s (isFull (ca_mshrQueue (tm_cache s))) (isFull (ca_writeBuffer (tm_cache s))) (no_targets s)
}.

(** Steps that leave the queues and the port alone. *)
Record same_control (s s' : Timing) : Prop := {
  sc_mshrs : ca_mshrQueue (tm_cache s') = ca_mshrQueue (tm_cache s);
  sc_buffer : ca_writeBuffer (tm_cache s') = ca_writeBuffer (tm_cache s);
  sc_blocked : tm_blocked s' = tm_blocked s;
  sc_noTarget : tm_noTargetMSHR s' = tm_noTargetMSHR s;
  sc_port : tm_portBlocked s' = tm_portBlocked s;
  sc_must : tm_mustSendRetry s' = tm_mustSendRetry s;
  sc_event : tm_sendRetryEvent s' = tm_sendRetryEvent s;
  sc_out : tm_out s `prefix_of` tm_out s'
}.
#[export] Instance same_control_preorder : PreOrder same_control.
Proof. split; [by intros s; split|]. intros s1 s2 s3 [] []. split; try congruence. by etransitivity. Qed.

Lemma same_control_inv s s' : same_control s s' → blocking_inv s → blocking_inv s'.
Proof.
  intros [C1 C2 C3 C4 C5 C6 C7 _] [I [P1 P2 P3 P4]]. split; [by rewrite C1, C2|].
  unfold no_targets in *. split; rewrite ?C1, ?C2, ?C3, ?C4, ?C5, ?C6, ?C7; done.
Qed.
Lemma same_control_owes s s' : same_control s s' → owes_retry s → owes_retry s'.
Proof. intros [C1 C2 C3 C4 C5 C6 C7 _]. unfold owes_retry. by rewrite C6, C7. Qed.

(** What a step may do: keep the invariant and the retry that is owed, *)
Definition port_keeps (s s' : Timing) : Prop := blocking_inv s → blocking_inv s' ∧ (owes_retry s → owes_retry s').
#[export] Instance port_keeps_preorder : PreOrder port_keeps.
Proof. split; [by intros s|]. intros s1 s2 s3 H1 H2 I. destruct (H1 I) as [I2 O2], (H2 I2) as [I3 O3]. split; [done|auto]. Qed.

(** and ask for the memory-side bus when it makes a request ready. *)
Definition has_ready (c : Cache) : Prop := mq_readyList (ca_mshrQueue c) ≠ [] ∨ mq_readyList (ca_writeBuffer c) ≠ [].
Definition asks_bus (o : list TimingOut) : Prop := ∃ cause time, OutBus cause time ∈ o.
Definition announces (s s' : Timing) : Prop :=
  ∃ o, tm_out s' = tm_out s ++ o ∧ (has_ready (tm_cache s') → has_ready (tm_cache s) ∨ asks_bus o).
#[export] Instance announces_preorder : PreOrder announces.
Proof.
  split; [intros s; exists []; split; [by rewrite app_nil_r|auto]|]. intros s1 s2 s3 (o1 & E1 & H1) (o2 & E2 & H2).
  exists (o1 ++ o2). split; [by rewrite E2, E1, app_assoc|]. intros R. unfold asks_bus in *. setoid_rewrite elem_of_app. destruct (H2 R) as [R2|(ca & ti & ?)]; [|eauto].
  destruct (H1 R2) as [|(ca & ti & ?)]; eauto.
Qed.

Definition keeps (s s' : Timing) : Prop := port_keeps s s' ∧ announces s s'.
#[export] Instance keeps_preorder : PreOrder keeps.
Proof. split; [by intros s; split|]. intros s1 s2 s3 [A1 A2] [B1 B2]. split; by etransitivity. Qed.

Lemma same_control_announces s s' : same_control s s' → announces s s'.
Proof. intros [C1 C2 _ _ _ _ _ [o Ho]]. exists o. split; [done|]. unfold has_ready. rewrite C1, C2. auto. Qed.
Lemma same_control_keeps s s' : same_control s s' → keeps s s'.
Proof. intros H. split; [|by apply same_control_announces]. intros I. split; [by eapply same_control_inv|by apply same_control_owes]. Qed.

(** Solves [same_control] for a state whose other fields changed. *)
Ltac same_control := solve [apply same_control_keeps; split; (reflexivity || apply prefix_app_r; reflexivity)].

Lemma same_queues_control s c' : same_queues (tm_cache s) c' → same_control s (s <| tm_cache := c' |>).
Proof. intros (_ & E2 & E3). by split. Qed.
Lemma cache_control s s' : same_queues (tm_cache s) (tm_cache s') → s' = s <| tm_cache := tm_cache s' |> → same_control s s'.
Proof. intros Hq ->. by apply same_queues_control. Qed.
Lemma emit_control s o : same_control s (emit s o).
Proof. split; try done. by apply prefix_app_r. Qed.
Lemma put_heap_control s h : same_control s (put_heap s h).
Proof. by split. Qed.
Create HintDb timing.
#[export] Hint Resolve same_control_keeps emit_control put_heap_control : timing.
#[export] Hint Extern 1 (same_control _ _) => (eapply cache_control; [|reflexivity]) : timing.

(** ** Queues that grow and shrink *)

(** The causes as numbers of the queues. *)
Lemma queue_cause s wb :
  blocking_inv s → mq_index (get_mq (tm_cache s) wb) = (if wb then 1 else 0) ∧ mq_index (get_mq (tm_cache s) wb) ∈ [0; 1; 2].
Proof. intros [[I1 I2] _]. destruct wb; cbn; rewrite ?I1, ?I2; (split; [done|set_solver]). Qed.

(** The full flags after queue [wb] was replaced by [q]. *)
Lemma put_mq_flags s h wb q :
  (isFull (ca_mshrQueue (tm_cache (put_mq s h wb q))), isFull (ca_writeBuffer (tm_cache (put_mq s h wb q)))) =
  if wb then (isFull (ca_mshrQueue (tm_cache s)), isFull q) else (isFull q, isFull (ca_writeBuffer (tm_cache s))).
Proof. by destruct wb. Qed.

Lemma put_mq_port s h wb q a b c : port_ok s a b c → port_ok (put_mq s h wb q) a b c.
Proof. by intros []; split. Qed.

Lemma put_mq_inv s h wb q :
  blocking_inv s → mq_index q = mq_index (get_mq (tm_cache s) wb) → isFull q = isFull (get_mq (tm_cache s) wb) → port_keeps s (put_mq s h wb q).
Proof.
  intros [[I1 I2] P] Hi Hf _. split; [|done]. destruct wb; cbn in *; (split; [cbn; split; congruence|]); apply put_mq_port; cbn in *;
    by rewrite ?Hf.
Qed.

(** Blocking after a queue has grown, and unblocking after it has shrunk. *)
Lemma grow_port s h wb q s' :
  mq_index q = mq_index (get_mq (tm_cache s) wb) → (isFull (get_mq (tm_cache s) wb) = true → isFull q = true) →
  (if isFull q then setBlocked (put_mq s h wb q) (mq_index q) else Ok (put_mq s h wb q)) = Ok s' → port_keeps s s'.
Proof.
  intros Hi Hm H I. destruct (queue_cause s wb I) as [Hc1 Hc2]. rewrite <-Hi in Hc1, Hc2.
  destruct (isFull q) eqn:Hf.
  - destruct (setBlocked_ok (put_mq s h wb q) _ _ _ (mq_index q) (put_mq_port s h wb q _ _ _ (bi_port _ I)) Hc2)
      as (s1 & E & (R1 & R2 & _) & Ho & P). rewrite E in H. injection H as <-. rewrite Hc1 in P. split; [|exact Ho].
    destruct I as [[I1 I2] _]. unfold no_targets in *. destruct wb; cbn in *; (split; [rewrite R1; cbn; split; congruence|]);
      rewrite R1; unfold no_targets; rewrite R2; cbn; rewrite Hf; exact P.
  - injection H as <-. apply put_mq_inv; [done|done| |done]. destruct (isFull (get_mq _ _)); [by rewrite Hm in Hf|done].
Qed.

Lemma shrink_port ev s h wb q s' :
  mq_index q = mq_index (get_mq (tm_cache s) wb) → (isFull q = true → isFull (get_mq (tm_cache s) wb) = true) →
  (if isFull (get_mq (tm_cache s) wb) && negb (isFull q) then clearBlocked ev (put_mq s h wb q) (mq_index q) else Ok (put_mq s h wb q)) = Ok s' →
  port_keeps s s'.
Proof.
  intros Hi Hm H I. destruct (queue_cause s wb I) as [Hc1 Hc2]. rewrite <-Hi in Hc1, Hc2.
  destruct (isFull (get_mq (tm_cache s) wb) && negb (isFull q)) eqn:Hx.
  - apply andb_true_iff in Hx as [Hw Hf]. apply negb_true_iff in Hf.
    destruct (clearBlocked_ok ev (put_mq s h wb q) _ _ _ (mq_index q) (put_mq_port s h wb q _ _ _ (bi_port _ I)) Hc2)
      as (s1 & E & (R1 & R2 & _) & Ho & P); [rewrite Hc1; destruct wb; cbn in *; by rewrite Hw|].
    rewrite E in H. injection H as <-. rewrite Hc1 in P. split; [|exact Ho].
    destruct I as [[I1 I2] _]. unfold no_targets in *. destruct wb; cbn in *; (split; [rewrite R1; cbn; split; congruence|]);
      rewrite R1; unfold no_targets; rewrite R2; cbn; rewrite Hf; exact P.
  - injection H as <-. apply put_mq_inv; [done|done| |done]. destruct (isFull (get_mq _ _)), (isFull q); try done. by rewrite Hm.
Qed.

(** ** What the queue operations do to the counters *)

Record counted (q q' : MSHRQueue) (d : Z) : Prop := {
  cn_index : mq_index q' = mq_index q;
  cn_entries : mq_numEntries q' = mq_numEntries q;
  cn_reserve : mq_numReserve q' = mq_numReserve q;
  cn_allocated : mq_allocated q' = mq_allocated q + d
}.
Lemma counted_up q q' d : counted q q' d → 0 ≤ d → isFull q = true → isFull q' = true.
Proof. intros [C1 C2 C3 C4] Hd. unfold isFull. rewrite C2, C3, C4, !Z.ltb_lt. lia. Qed.
Lemma counted_down q q' d : counted q q' d → d ≤ 0 → isFull q' = true → isFull q = true.
Proof. intros [C1 C2 C3 C4] Hd. unfold isFull. rewrite C2, C3, C4, !Z.ltb_lt. lia. Qed.

Lemma addToReadyList_counted h q id q' : addToReadyList h q id = Ok q' → counted q q' 0.
Proof.
  unfold addToReadyList. intros H. inv_ok. destruct (last (mq_readyList q)); inv_ok; [|by split; cbn; lia].
  destruct (_ <=? _); inv_ok; split; cbn; lia.
Qed.
Lemma mq_allocate_counted h q g a n p t w o h' q' id : mq_allocate h q g a n p t w o = Ok (h', q', id) → counted q q' 1.
Proof.
  unfold mq_allocate. intros H. destruct (mq_freeList q); [done|]. inv_ok. apply addToReadyList_counted in E2 as [C1 C2 C3 C4].
  cbn in *. split; cbn; (lia || congruence).
Qed.
Lemma deallocateOne_counted h q id h' q' : deallocateOne h q id = Ok (h', q') → counted q q' (-1).
Proof.
  unfold deallocateOne, leave_service. intros H. inv_ok. destruct (ms_inService a0); inv_ok; unfold check_drained; cbn; case_match; by split.
Qed.
Lemma mq_markInService_counted h q id p h' q' :
  mq_markInService h q id p = Ok (h', q') → ∃ d, d ≤ 0 ∧ counted q q' d.
Proof.
  unfold mq_markInService. intros H. inv_ok. destruct a as [h1 gone]. destruct gone.
  - exists (-1). split; [lia|]. by eapply deallocateOne_counted.
  - inv_ok. exists 0. split; [lia|]. split; cbn; lia.
Qed.
Lemma markPending_counted h q id h' q' : markPending h q id = Ok (h', q') → counted q q' 0.
Proof.
  unfold markPending. intros H. inv_ok. apply addToReadyList_counted in E2 as [C1 C2 C3 C4]. cbn in *.
  split; cbn; (lia || congruence).
Qed.

(** [inv_ok] through the pairs of the binds. *)
Ltac inv_pairs := repeat (inv_ok_step || match goal with H : (match ?a with (_, _) => _ end) = Ok _ |- _ => is_var a; destruct a end).

(** ** The handlers keep the invariant *)

(** Blocking does not touch the cache or the output. *)
Lemma setBlocked_frame s cause s' : setBlocked s cause = Ok s' → tm_cache s' = tm_cache s ∧ tm_out s' = tm_out s.
Proof.
  unfold setBlocked, port_setBlocked. intros H. inv_ok. destruct (tm_blocked s =? 0); inv_ok; [|done]. by destruct (tm_sendRetryEvent _); inv_ok.
Qed.
Lemma clearBlocked_frame ev s cause s' : clearBlocked ev s cause = Ok s' → tm_cache s' = tm_cache s ∧ tm_out s' = tm_out s.
Proof.
  unfold clearBlocked, port_clearBlocked. intros H. destruct (_ =? 0); inv_ok; [|done]. by destruct (tm_mustSendRetry _); inv_ok.
Qed.
Lemma same_cache_announces s s' : tm_cache s' = tm_cache s → tm_out s' = tm_out s → announces s s'.
Proof. intros Hc Ho. exists []. split; [by rewrite app_nil_r|]. rewrite Hc. auto. Qed.

(** A queue with fewer registers ready. *)
Lemma shrink_keeps ev s h wb q s' :
  (∃ d, d ≤ 0 ∧ counted (get_mq (tm_cache s) wb) q d) → (mq_readyList q ≠ [] → mq_readyList (get_mq (tm_cache s) wb) ≠ []) →
  (if isFull (get_mq (tm_cache s) wb) && negb (isFull q) then clearBlocked ev (put_mq s h wb q) (mq_index q) else Ok (put_mq s h wb q)) = Ok s' →
  keeps s s'.
Proof.
  intros (d & Hd & C) Hr H. split; [eapply shrink_port; [exact (cn_index _ _ _ C)|by apply (counted_down _ _ d)|exact H]|].
  assert (E : tm_cache s' = tm_cache (put_mq s h wb q) ∧ tm_out s' = tm_out s) by (case_match; [by apply clearBlocked_frame in H|by injection H as <-]).
  destruct E as [E Eo]. exists []. split; [by rewrite app_nil_r|]. unfold has_ready. rewrite E. destruct wb; cbn in *; naive_solver.
Qed.

Lemma allocateBuffer_keeps ev s wb addr size p time s' id :
  allocateBufferInternal ev s wb addr size p time true = Ok (s', id) → keeps s s'.
Proof.
  unfold allocateBufferInternal. intros H. inv_ok. destruct a0 as [[h q] i]. inv_ok.
  apply mq_allocate_counted in E0. change (setf _ _ (put_mq s h wb q)) with (put_mq (s <| tm_order := wrap 64 (tm_order s + 1) |>) h wb q) in E1. split.
  - transitivity a0; [|by apply same_control_keeps, emit_control]. transitivity (s <| tm_order := wrap 64 (tm_order s + 1) |>); [by assert (keeps s (s <| tm_order := wrap 64 (tm_order s + 1) |>)) as [? _] by same_control|].
    eapply grow_port; [exact (cn_index _ _ _ E0)| |exact E1]. by apply (counted_up _ _ 1).
  - assert (Eo : tm_out a0 = tm_out s) by (destruct (isFull q); [by apply setBlocked_frame in E1 as [_ ->]|by injection E1 as <-]).
    exists [OutBus (mq_index q) time]. split; [cbn; by rewrite Eo|]. intros _. right. by exists (mq_index q), time; left.
Qed.
Lemma allocateMiss_keeps ev s p time s' id : allocateMissBuffer ev s p time true = Ok (s', id) → keeps s s'.
Proof. unfold allocateMissBuffer. intros H. inv_ok. by eapply allocateBuffer_keeps. Qed.
Lemma allocateWrite_keeps ev s p time s' id : allocateWriteBuffer ev s p time true = Ok (s', id) → keeps s s'.
Proof. unfold allocateWriteBuffer. intros H. inv_ok. by eapply allocateBuffer_keeps. Qed.
Lemma allocateRead_keeps ev s p time s' id : allocateUncachedReadBuffer ev s p time true = Ok (s', id) → keeps s s'.
Proof. unfold allocateUncachedReadBuffer. intros H. inv_ok. by eapply allocateBuffer_keeps. Qed.
#[export] Hint Resolve allocateMiss_keeps allocateWrite_keeps allocateRead_keeps : timing.

Lemma list_erase_ready l id l' : list_erase l id = Ok l' → l' ≠ [] → l ≠ [].
Proof. by destruct l. Qed.
Lemma deallocateOne_ready h q id h' q' : deallocateOne h q id = Ok (h', q') → mq_readyList q' ≠ [] → mq_readyList q ≠ [].
Proof.
  unfold deallocateOne, leave_service, check_drained. intros H. inv_ok. destruct (ms_inService a0); inv_ok; case_match; cbn; try done;
    by eapply list_erase_ready.
Qed.
Lemma mq_markInService_ready h q id p h' q' : mq_markInService h q id p = Ok (h', q') → mq_readyList q' ≠ [] → mq_readyList q ≠ [].
Proof.
  unfold mq_markInService. intros H. inv_ok. destruct a as [h1 gone]. destruct gone; [by eapply deallocateOne_ready|]. inv_ok. cbn. by eapply list_erase_ready.
Qed.

Lemma markInService_keeps ev s id p s' : markInService ev s id p = Ok s' → keeps s s'.
Proof.
  unfold markInService. intros H. inv_ok. destruct a as [h q].
  eapply shrink_keeps; [by eapply mq_markInService_counted|by eapply mq_markInService_ready|exact H].
Qed.

Lemma queue_writebacks_keeps ev wbs s time s' : queue_writebacks ev s wbs time = Ok s' → keeps s s'.
Proof.
  unfold queue_writebacks. revert s. induction wbs as [|wb wbs IH]; intros s H; cbn in H; inv_ok; [reflexivity|].
  destruct a0 as [s1 i]. inv_ok. transitivity a; [by eapply allocateWrite_keeps|by apply IH].
Qed.
#[export] Hint Resolve markInService_keeps queue_writebacks_keeps : timing.

Lemma noTarget_keeps s id s' : setBlocked (s <| tm_noTargetMSHR := Some id |>) Blocked_NoTargets = Ok s' → keeps s s'.
Proof.
  intros H. split; [|apply setBlocked_frame in H as [Hc Ho]; by apply same_cache_announces]. intros I. pose proof (bi_port _ I) as P.
  destruct (setBlocked_ok (s <| tm_noTargetMSHR := Some id |>) _ _ (no_targets s) Blocked_NoTargets (ltac:(by destruct P; split)) ltac:(set_solver))
    as (s1 & E & (R1 & R2 & _) & Ho & P1). rewrite E in H. injection H as <-. split; [|exact Ho].
  destruct I as [I _]. split; [by rewrite R1|]. rewrite R1. unfold no_targets. rewrite R2. exact P1.
Qed.

Lemma timing_miss_keeps ev s p blk time s' : timing_miss ev s p blk time = Ok s' → keeps s s'.
Proof.
  unfold timing_miss. intros H. inv_ok. destruct a2 as [id|].
  - inv_ok. destruct (_ =? _) in H; [|injection H as <-; same_control].
    etransitivity; [|by eapply noTarget_keeps]. same_control.
  - case_decide as Hw; inv_ok; [destruct a2; inv_ok; eauto with timing|]. destruct a3 as [s1 i]. inv_ok.
    transitivity a2; [|eauto with timing]. destruct blk as [r|]; [|injection E4 as <-; reflexivity]. inv_ok.
    destruct (blk_isValid a3); inv_ok; [|reflexivity]. eauto using set_ref_queues with timing.
Qed.

Lemma recvTimingReq_keeps {M} (sf : M → Packet → result M) ev s m p s' m' :
  tm_recvTimingReq sf ev s m p = Ok (s', m') → keeps s s'.
Proof.
  unfold tm_recvTimingReq. intros H. transitivity (s <| tm_pendingDelete := [] |>); [same_control|].
  set (s0 := s <| tm_pendingDelete := [] |>) in *. clearbody s0. clear s. inv_ok. destruct (ev_bypassCaches ev); inv_ok; [auto with timing|].
  destruct (memInhibitAsserted p); inv_ok; [case_match; same_control|].
  destruct (req_isUncacheable (pkt_req p)); inv_ok.
  - destruct a as [c1 m1]. inv_ok. destruct a as [s1 i]. inv_ok. apply flush_queues in E0.
    transitivity (s0 <| tm_cache := c1 |>); [auto with timing|]. case_match; eauto with timing.
  - apply access_queues in E0. transitivity (s0 <| tm_cache := ac_cache a |>); [auto with timing|].
    transitivity a0; [|eauto with timing]. destruct (ac_satisfied a); [|by eapply timing_miss_keeps].
    destruct (pkt_needsResponse _); inv_ok; auto with timing. same_control.
Qed.

(** A refusal makes the port owe a retry. *)
Lemma cpu_recvTimingReq_keeps {M} (sf : M → Packet → result M) ev s m p s' m' acc :
  cpu_recvTimingReq sf ev s m p = Ok (s', m', acc) → keeps s s' ∧ (acc = false → owes_retry s' ∧ tm_portBlocked s' = true).
Proof.
  unfold cpu_recvTimingReq. intros H. destruct (_ && _) eqn:Hb; inv_ok.
  - apply andb_true_iff in Hb as [_ Hb]. split; [split; [|by apply same_cache_announces]|intros _; split; [by left|done]]. intros [I [P1 P2 P3 P4]]. split; [|by left].
    split; [done|]. split; [exact P1|exact P2|done|exact P4].
  - destruct a. inv_ok. split; [by eapply recvTimingReq_keeps|done].
Qed.

Lemma supply_control ev s p bytes ac pi s' : doTimingSupplyResponse ev s p bytes ac pi = Ok s' → same_control s s'.
Proof. unfold doTimingSupplyResponse. intros H. inv_ok. apply emit_control. Qed.
#[export] Hint Resolve supply_control : timing.

Lemma handleSnoop_control upper ev s p blk d pi s' p' :
  handleSnoop_timing upper ev s p blk d pi = Ok (s', p') → same_control s s'.
Proof.
  unfold handleSnoop_timing. intros H. inv_ok. destruct blk as [r|]; inv_ok; [|reflexivity]. destruct (negb _) in H; inv_ok; [reflexivity|].
  destruct a0 as [b2 p2]. inv_ok. destruct a2 as [s3 p3]. inv_ok. apply set_ref_queues in E4.
  transitivity (s <| tm_cache := a0 |>); [auto with timing|]. transitivity s3.
  - destruct (_ && _) in E5; inv_ok; [eauto with timing|reflexivity].
  - case_match; inv_ok; [|reflexivity]. eauto using drop_block_queues with timing.
Qed.
#[export] Hint Resolve handleSnoop_control : timing.

Lemma snoop_writeback_keeps ev s p id s' p' : snoop_writeback ev s p id = Ok (s', p') → keeps s s'.
Proof.
  unfold snoop_writeback. intros H. inv_pairs.
  match goal with E : doTimingSupplyResponse _ ?s1 _ _ _ _ = Ok ?s2 |- _ => transitivity s1; [|transitivity s2] end; [eauto with timing..|].
  case_match; inv_ok; [|reflexivity]. case_match; inv_ok. eauto with timing.
Qed.

Lemma snoopReq_keeps upper ev s p s' p' : tm_recvTimingSnoopReq upper ev s p = Ok (s', p') → keeps s s'.
Proof.
  unfold tm_recvTimingSnoopReq. intros H. inv_ok. destruct (_ && _) in H; inv_ok; [reflexivity|].
  case_match; inv_ok; [reflexivity|]. destruct a4 as [[s1 p1] taken]. transitivity s1.
  - clear H. destruct a3; inv_pairs; [same_control|reflexivity].
  - destruct taken; inv_ok; [reflexivity|]. destruct a4 as [wbs found]. inv_ok. destruct a4 as [s2 p2].
    transitivity s2; [|eauto with timing]. destruct found; inv_ok; [|reflexivity].
    destruct wbs as [|i [|]]; inv_ok; [reflexivity|by eapply snoop_writeback_keeps].
Qed.

(** ** Responses *)

Lemma complete_cpu_queues ev c m p blk f e o tp c' tp' t :
  complete_cpu_target ev c m p blk f e o tp = Ok (c', tp', t) → same_queues c c'.
Proof.
  unfold complete_cpu_target. intros H. inv_pairs. destruct f; [|destruct (decide (pkt_cmd p = _)) in E; inv_pairs; reflexivity].
  destruct blk as [r|]; inv_pairs. by eapply satisfy_queues.
Qed.

Lemma complete_target_control upper ev s id p blk f e o s' :
  complete_target upper ev s id p blk f e o = Ok s' → same_control s s'.
Proof.
  unfold complete_target. intros H. inv_ok. destruct (tg_source a0); inv_pairs.
  - match goal with E : complete_cpu_target _ _ _ _ _ _ _ _ _ = Ok (?c, _, _) |- _ =>
      apply complete_cpu_queues in E; transitivity (s <| tm_cache := c |>); auto with timing end.
  - eauto with timing.
  - destruct blk as [r|]; inv_ok; [|reflexivity]. eauto using set_ref_queues with timing.
Qed.

Lemma complete_targets_control upper ev n s id p blk f e o s' :
  complete_targets upper n ev s id p blk f e o = Ok s' → same_control s s'.
Proof.
  revert s. induction n as [|n IH]; intros s H; cbn in H; inv_ok; (destruct (negb _) in H; inv_ok; try reflexivity).
  etransitivity; [by eapply complete_target_control|]. etransitivity; [|by eapply IH]. auto with timing.
Qed.

Lemma post_response_queues ev c m p blk c' : post_response ev c m p blk = Ok c' → same_queues c c'.
Proof.
  unfold post_response. intros H. destruct blk as [r|]; inv_ok; [|reflexivity]. destruct (blk_isValid a); inv_ok; [|reflexivity].
  destruct a0; inv_ok; [by eapply drop_block_queues|]. destruct a0; inv_ok; [by eapply set_ref_queues|reflexivity].
Qed.

Lemma retire_keeps ev s id p blk wasFull s' :
  wasFull = isFull (get_mq (tm_cache s) (in_write_buffer (tm_cache s) id)) → retire_mshr ev s id p blk wasFull = Ok s' → keeps s s'.
Proof.
  unfold retire_mshr. intros -> H. inv_ok. destruct a as [h []]; inv_ok.
  - destruct a0 as [h1 q1]. inv_ok. set (wb := in_write_buffer _ _) in *.
    assert (C : same_control s ((put_heap s h) <| tm_cache := a |>)).
    { transitivity (put_heap s h); [auto with timing|]. destruct blk as [r|]; inv_ok; eauto using set_ref_queues with timing. reflexivity. }
    etransitivity; [by apply same_control_keeps, C|]. apply markPending_counted in E1 as [C1 C2 C3 C4].
    split; [|exists [OutBus (mq_index q1) (wrap 64 (edge ev 0 + pkt_busLastWordDelay p))]; split; [done|]; intros _; right; by do 2 eexists; left].
    transitivity (put_mq ((put_heap s h) <| tm_cache := a |>) h1 wb q1); [|by apply same_control_keeps, emit_control].
    intros I. apply put_mq_inv; [done|done| |done]. unfold isFull. cbn [tm_cache]. by rewrite C2, C3, C4, Z.add_0_r.
  - destruct a as [h1 q1]. inv_ok. etransitivity; [apply same_control_keeps, (put_heap_control s h)|].
    eapply shrink_keeps; [exists (-1); split; [lia|by eapply deallocateOne_counted]|by eapply deallocateOne_ready|exact H].
Qed.

Lemma clear_noTarget ev s id s' :
  (if bool_decide (tm_noTargetMSHR s = Some id)
   then s ← clearBlocked ev s Blocked_NoTargets; Ok (s <| tm_noTargetMSHR := None |>) else Ok s) = Ok s' →
  blocking_inv s → tm_cache s' = tm_cache s ∧ blocking_inv s' ∧ (owes_retry s → owes_retry s').
Proof.
  intros H I. case_bool_decide as Hn; inv_ok; [|done]. pose proof (bi_port _ I) as P.
  assert (Hc : no_targets s = true) by (unfold no_targets; rewrite Hn; by apply bool_decide_eq_true_2).
  destruct (clearBlocked_ok ev s _ _ _ Blocked_NoTargets P ltac:(set_solver) ltac:(by rewrite Hc)) as (s1 & E1 & (R1 & _) & Ho & [P1 P2 P3 P4]).
  rewrite E1 in E. injection E as <-. cbn in *. split; [exact R1|]. split; [|exact Ho]. destruct I as [I _].
  split; cbn; rewrite R1; [exact I|]. by split.
Qed.

(** The fill of a response. *)
Lemma fill_control ev s id p blk (is_fill : bool) s' r wbs :
  (if is_fill then
     h ← handleFill (ca_mshrs (tm_cache s)) id p;
     '(c, r, wbs) ← handleFill_cache ev ((tm_cache s) <| ca_mshrs := h |>) p (TagBlk <$> blk);
     Ok (s <| tm_cache := c |>, Some r, wbs)
   else Ok (s, TagBlk <$> blk, [])) = Ok (s', r, wbs) → same_control s s'.
Proof.
  intros H. destruct is_fill; inv_pairs; [|reflexivity].
  match goal with E : handleFill_cache _ _ _ _ = Ok (?c, _, _) |- _ => apply handleFill_queues in E end.
  etransitivity; [|eapply (same_queues_control (put_heap s a)); eassumption]. auto with timing.
Qed.

Lemma control_get s s' id :
  same_control s s' →
  get_mq (tm_cache s') (in_write_buffer (tm_cache s') id) = get_mq (tm_cache s) (in_write_buffer (tm_cache s) id).
Proof. intros [C1 C2 _ _ _ _ _ _]. unfold get_mq, in_write_buffer. by rewrite C1, C2. Qed.

Lemma recvTimingResp_keeps upper ev s p s' : tm_recvTimingResp upper ev s p = Ok s' → keeps s s'.
Proof.
  unfold tm_recvTimingResp. intros H. inv_ok.
  assert (Hc : tm_cache a1 = tm_cache s ∧ tm_out a1 = tm_out s) by (clear H; destruct (bool_decide (tm_noTargetMSHR _ = _)) in E1; inv_ok;
    [match goal with E : clearBlocked _ _ _ = _ |- _ => by apply clearBlocked_frame in E end|done]).
  destruct Hc as [Hc Ho]. cut (keeps a1 s').
  { intros [K A]. split; [|etransitivity; [by apply same_cache_announces|exact A]].
    intros I. destruct (clear_noTarget _ _ _ _ E1 I) as (_ & I1 & O1), (K I1) as [K1 K2]. split; [exact K1|auto]. }
  clear E1 Ho. rewrite <-Hc in H.
  destruct a9 as [[s2 blk] wbs]. inv_ok. pose proof (fill_control _ _ _ _ _ _ _ _ _ E9) as C2.
  apply complete_targets_control in E11. apply post_response_queues in E13.
  match type of E14 with retire_mshr _ ?x _ _ _ _ = _ => assert (C : same_control a1 x) end.
  { etransitivity; [exact C2|]. etransitivity; [exact E11|auto with timing]. }
  etransitivity; [by apply same_control_keeps, C|].
  etransitivity; [eapply retire_keeps; [|exact E14]; by rewrite (control_get _ _ _ C)|].
  etransitivity; [by eapply queue_writebacks_keeps|].
  case_bool_decide; inv_ok; [|reflexivity].
  match goal with E : (if blk_isDirty _ then _ else _) = Ok ?x |- _ => transitivity x; [destruct (blk_isDirty _)|same_control] end;
    inv_pairs; [|reflexivity]. etransitivity; [|by eapply allocateWrite_keeps]. eauto using writebackBlk_queues with timing.
Qed.

Lemma snoopResp_keeps upper ev s p s' : tm_recvTimingSnoopResp upper ev s p = Ok s' → keeps s s'.
Proof.
  unfold tm_recvTimingSnoopResp. intros H. inv_ok.
  destruct (pkt_senderState p) as [|[]]; inv_ok; try (by eapply recvTimingResp_keeps). auto with timing.
Qed.

(** ** Requests to the memory side *)

Lemma send_miss_control s id m p blk s' p' : send_miss s id m p blk = Ok (s', p') → same_control s s'.
Proof. unfold send_miss. intros H. inv_ok. auto with timing. Qed.

Lemma getTimingPacket_keeps upper ev s s' p : getTimingPacket upper ev s = Ok (s', p) → keeps s s'.
Proof.
  unfold getTimingPacket. intros H. inv_ok. destruct a as [id|]; inv_ok; [|reflexivity].
  destruct (_ || _) in H; inv_ok; [by eapply recvTimingResp_keeps|]. case_match; inv_ok; [auto with timing|].
  repeat (case_match; inv_ok); eauto using send_miss_control with timing.
Qed.

Lemma send_request_keeps upper ev s accept s' p w : send_request upper ev s accept = Ok (s', p, w) → keeps s s'.
Proof.
  unfold send_request. intros H. inv_ok. destruct a as [s1 o]. transitivity s1; [by eapply getTimingPacket_keeps|].
  destruct o as [q|]; inv_ok; [|reflexivity]. destruct accept; inv_ok; [by eapply markInService_keeps|reflexivity].
Qed.

(** ** Histories *)

Lemma Timing_make_inv is_private guest top fwd line hit resp mshrs bufs tags c order tgts ranges :
  1 ≤ mshrs → 1 ≤ bufs →
  Cache_make is_private guest top fwd line hit resp mshrs bufs false tags = Ok c → blocking_inv (Timing_make c order tgts ranges).
Proof.
  intros H1 H2 [= <-]. split; [done|]. unfold isFull, no_targets. cbn.
  rewrite (proj2 (Z.ltb_ge _ 0)), (proj2 (Z.ltb_ge _ 0)) by lia. by split.
Qed.

Lemma tm_event_keeps {M} (sf : M → Packet → result M) upper s m w ee s' m' w' :
  tm_event sf upper (s, m, w) ee = Ok (s', m', w') → blocking_inv s → (w = true → owes_retry s) →
  blocking_inv s' ∧ (w' = true → owes_retry s').
Proof.
  destruct ee as [ev e]. intros H I Hw. destruct e; cbn in H; inv_pairs.
  - apply cpu_recvTimingReq_keeps in E as [K Ha]. destruct (proj1 K I) as [I' O]. split; [done|].
    intros [?|?%negb_true_iff]%orb_true_iff; [auto|by apply Ha].
  - apply snoopReq_keeps in E. destruct (proj1 E I) as [I' O]. auto.
  - apply recvTimingResp_keeps in E. destruct (proj1 E I) as [I' O]. auto.
  - apply snoopResp_keeps in E. destruct (proj1 E I) as [I' O]. auto.
  - apply send_request_keeps in E. destruct (proj1 E I) as [I' O]. auto.
  - unfold fire_sendRetry in E. destruct (tm_sendRetryEvent s) eqn:Es; inv_ok. split; [|done]. destruct I as [I [P1 P2 P3 P4]].
    split; [exact I|]. split; [exact P1|exact P2|exact P3|done].
Qed.

Lemma tm_run_keeps {M} (sf : M → Packet → result M) upper es s m w s' m' w' :
  tm_run sf upper (s, m, w) es = Ok (s', m', w') → blocking_inv s → (w = true → owes_retry s) →
  blocking_inv s' ∧ (w' = true → owes_retry s').
Proof.
  unfold tm_run. revert s m w. induction es as [|e es IH]; intros s m w H I Hw; cbn in H; inv_ok; [done|].
  destruct a as [[s1 m1] w1]. destruct (tm_event_keeps _ _ _ _ _ _ _ _ _ E I Hw). by eapply IH.
Qed.

(** The causes of blocking that hold in a state, by their number. *)
Definition blocking_cause (s : Timing) (cause : Z) : bool :=
  if cause =? 0 then isFull (ca_mshrQueue (tm_cache s)) else if cause =? 1 then isFull (ca_writeBuffer (tm_cache s))
  else bool_decide (is_Some (tm_noTargetMSHR s)).

(** The port does not look at the cache: the handlers change the queues before
    they unblock it. *)
Lemma port_ok_cache s c a b n : port_ok s a b n → port_ok (s <| tm_cache := c |>) a b n.
Proof. by intros []; split. Qed.

(** A request is refused exactly by a blocked port, which then only remembers
    to ask for it again. *)
Lemma refusal {M} (sf : M → Packet → result M) ev s m p :
  memInhibitAsserted p = false → ev_bypassCaches ev = false →
  if tm_portBlocked s then cpu_recvTimingReq sf ev s m p = Ok (s <| tm_mustSendRetry := true |>, m, false)
  else ∀ s2 m2 acc, cpu_recvTimingReq sf ev s m p = Ok (s2, m2, acc) → acc = true.
Proof.
  intros Hi Hb. unfold cpu_recvTimingReq. rewrite Hi, Hb. destruct (tm_portBlocked s); cbn; [done|].
  intros s2 m2 acc H. inv_ok. destruct a. by inv_ok.
Qed.

(** C9: the blocking protocol of the cache.  Whatever sequence of requests,
    snoops, responses, sends and retries a cache has been through: its port is
    blocked exactly while the miss queue or the write buffer is full or the
    cache has recorded a register as out of targets; a request that no cache
    above answers is refused exactly by a blocked port, which then remembers to
    ask for it again; a requester that was refused and not yet told to retry is
    not forgotten, the port remembers it while it is blocked and has the retry
    scheduled otherwise; blocking the port for any cause meets its assertions,
    and so does unblocking it for any cause that holds, whatever the queues have
    become before the call. *)
Theorem blocking_protocol {M} (sf : M → Packet → result M) upper is_private guest top fwd line hit resp mshrs bufs tags c
    order tgts ranges es m s' m' waiting :
  1 ≤ mshrs → 1 ≤ bufs → Cache_make is_private guest top fwd line hit resp mshrs bufs false tags = Ok c →
  tm_run sf upper (Timing_make c order tgts ranges, m, false) es = Ok (s', m', waiting) →
  tm_portBlocked s' =
    isFull (ca_mshrQueue (tm_cache s')) || isFull (ca_writeBuffer (tm_cache s')) || bool_decide (is_Some (tm_noTargetMSHR s')) ∧
  (∀ ev p, memInhibitAsserted p = false → ev_bypassCaches ev = false →
     if tm_portBlocked s' then cpu_recvTimingReq sf ev s' m' p = Ok (s' <| tm_mustSendRetry := true |>, m', false)
     else ∀ s2 m2 acc, cpu_recvTimingReq sf ev s' m' p = Ok (s2, m2, acc) → acc = true) ∧
  (waiting = true → if tm_portBlocked s' then tm_mustSendRetry s' = true else is_Some (tm_sendRetryEvent s')) ∧
  (∀ cause c2, cause ∈ [0; 1; 2] →
     is_ok (setBlocked (s' <| tm_cache := c2 |>) cause) ∧
     (blocking_cause s' cause = true → ∀ ev, is_ok (clearBlocked ev (s' <| tm_cache := c2 |>) cause))).
Proof.
  intros H1 H2 Hc H. apply tm_run_keeps in H as [[_ P] O]; [|exact (Timing_make_inv _ _ _ _ _ _ _ _ _ _ _ _ _ _ H1 H2 Hc)|done]. pose proof P as [P1 P2 P3 P4].
  split; [exact P2|]. split; [intros ev p; apply refusal|]. split.
  - intros [Hm|He]%O; [by rewrite (P3 Hm)|]. rewrite (P4 He). destruct (tm_sendRetryEvent s'); [by eexists|done].
  - intros cause c2 Hin. apply (port_ok_cache s' c2) in P. split.
    + destruct (setBlocked_ok _ _ _ _ _ P Hin) as (s1 & -> & _). by eexists.
    + intros Hset ev. destruct (clearBlocked_ok ev _ _ _ _ cause P Hin) as (s1 & -> & _); [|by eexists].
      unfold blocking_cause, with_cause, no_targets in *. destruct (cause =? 0), (cause =? 1); by rewrite Hset.
Qed.

(** Two misses for a line fill a register of two targets, a third request is
    refused; the response opens the port and schedules the retry. *)
Definition demo_resp : Packet :=
  (demo_access ReadResp 0 0x1240 (replicate 64 5)) <| pkt_senderState := [SSMshr 0] |>.
Definition demo_history : list (Env * TimingEvent) :=
  map (pair demo_env)
    [EvReq (demo_access ReadReq 0 0x1244 [0; 0; 0; 0]); EvReq (demo_access ReadReq 0 0x1248 [0; 0; 0; 0]);
     EvReq (demo_access ReadReq 0 0x3248 [0; 0; 0; 0])] ++
  map (pair (mkEnv 5000 5000 500 4 false)) [EvSend true; EvResp demo_resp].
Local Abbreviation demo_timing_run es :=
  (tm_run (λ (m : unit) (_ : Packet), Ok m) (λ p : Packet, p) (Timing_make demo_cache 0 2 [(0, 0xffff)], tt, false) es).
Definition demo_timing_end (es : list (Env * TimingEvent)) : Timing :=
  match demo_timing_run es with Ok (s, _, _) => s | Err _ => Timing_make demo_cache 0 2 [] end.

Lemma demo_refused : demo_timing_run (take 3 demo_history) = Ok (demo_timing_end (take 3 demo_history), tt, true).
Proof. vm_compute; reflexivity. Qed.
Lemma demo_reopened : demo_timing_run demo_history = Ok (demo_timing_end demo_history, tt, true).
Proof. vm_compute; reflexivity. Qed.
Lemma demo_cache_made : Cache_make false 0 true true 64 2 2 4 8 false demo_lru = Ok demo_cache.
Proof. vm_compute; reflexivity. Qed.

Lemma blocking_protocol_witness :
  (if tm_portBlocked (demo_timing_end (take 3 demo_history))
   then tm_mustSendRetry (demo_timing_end (take 3 demo_history)) = true
   else is_Some (tm_sendRetryEvent (demo_timing_end (take 3 demo_history)))) ∧
  (if tm_portBlocked (demo_timing_end demo_history) then tm_mustSendRetry (demo_timing_end demo_history) = true
   else is_Some (tm_sendRetryEvent (demo_timing_end demo_history))).
Proof.
  split.
  - exact (proj1 (proj2 (proj2 (blocking_protocol _ _ _ _ _ _ _ _ _ 4 8 _ _ _ _ _ _ _ _ _ _ ltac:(lia) ltac:(lia) demo_cache_made demo_refused))) eq_refl).
  - exact (proj1 (proj2 (proj2 (blocking_protocol _ _ _ _ _ _ _ _ _ 4 8 _ _ _ _ _ _ _ _ _ _ ltac:(lia) ltac:(lia) demo_cache_made demo_reopened))) eq_refl).
Defined.

(** The limit of targets is tested for equality: with room for two targets, a
    miss in service, a snoop and another miss of the line leave the register
    with three targets and the port open. *)
Definition demo_bonus : list (Env * TimingEvent) :=
  (demo_env, EvReq (demo_access ReadReq 0 0x1244 [0; 0; 0; 0])) ::
  map (pair (mkEnv 5000 5000 500 4 false))
    [EvSend true; EvSnoopReq (demo_access ReadExReq 0 0x1240 (replicate 64 0)); EvReq (demo_access ReadReq 0 0x1248 [0; 0; 0; 0])].
Lemma target_limit_jumped :
  tm_numTarget (demo_timing_end demo_bonus) = 2 ∧
  getNumTargets <$> (ca_mshrs (tm_cache (demo_timing_end demo_bonus)) !! 0%nat) = Some 3 ∧
  tm_portBlocked (demo_timing_end demo_bonus) = false.
Proof. vm_compute. repeat split. Qed.
