(* ===== verification/CachePorts.v ===== *)
(** * The cache with the packet queues of its ports

    What the cache hands to its ports goes through packet queues
    ([PacketQueue]): responses through the CPU-side queue, snoop responses and
    the turns on the memory-side bus through [MemSidePacketQueue], which also
    sends the requests of the registers
    ([src/pardg5-v/hyper/mem/cache/cache_impl.hh], [base.hh], [base.cc]).  The
    theorem shows that no request that is ready to be sent is forgotten. *)

From S2P Require Import Prelude BaseLib Packet Functional PacketQueue CacheBlk CacheSet LruTags Mshr MshrQueue CacheCtrl CacheFrame CacheAtomic CacheTiming CacheBlocking.
Local Open Scope Z_scope.

(** ** Operations *)

Record PortedCache : Type := mkPorted { pc_timing : Timing; pc_cpuSide : PacketQueue; pc_memSide : PacketQueue }.
#[export] Instance eta_PortedCache : Eta PortedCache := λ s, mkPorted (pc_timing s) (pc_cpuSide s) (pc_memSide s).

(** [schedTimingResp], [schedTimingSnoopResp] and [requestBus]; requests outside
    the queues go straight to the port. *)
Definition deliver (now : Z) (qs : PacketQueue * PacketQueue) (o : TimingOut) : result (PacketQueue * PacketQueue) :=
  let '(cpu, mem) := qs in
  match o with
  | OutResp p when => cpu ← schedSendTiming now cpu p when false; Ok (cpu, mem)
  | OutSnoopResp p when => mem ← schedSendTiming now mem p when true; Ok (cpu, mem)
  | OutRequest _ => Ok (cpu, mem)
  | OutBus _ when => mem ← schedSendEvent now mem when; Ok (cpu, mem)
  end.

(** What the cache has handed to its ports, in order. *)
Definition deliver_all (ev : Env) (s : PortedCache) : result PortedCache :=
  '(cpu, mem) ← foldM (deliver (ev_curTick ev)) (pc_cpuSide s, pc_memSide s) (tm_out (pc_timing s));
  Ok (mkPorted ((pc_timing s) <| tm_out := [] |>) cpu mem).

Section MemSide.

Context (upper : Packet → Packet).

(** [MemSidePacketQueue::sendDeferredPacket]: [accepted] is the answer of the
    memory side, [queued] what the cache queues while a deferred packet is
    offered. *)
Definition sendDeferredPacket (ev : Env) (s : PortedCache) (queued : list (Packet * Z * bool)) (accepted : bool) : result PortedCache :=
  let now := ev_curTick ev in
  s ← (if deferredPacketReady (pc_memSide s) now then
         '(q, _) ← trySendTiming now (pc_memSide s) queued accepted;
         Ok (s <| pc_memSide := q |>)
       else
         '(t, _, waiting) ← send_request upper ev (pc_timing s) accepted;
         s ← deliver_all ev (s <| pc_timing := t |>);
         Ok (s <| pc_memSide := (pc_memSide s) <| pq_waitingOnRetry := waiting |> |>));
  if negb (pq_waitingOnRetry (pc_memSide s)) then
    next ← ca_nextMSHRReadyTime (tm_cache (pc_timing s));
    q ← scheduleSend now (pc_memSide s) next;
    Ok (s <| pc_memSide := q |>)
  else Ok s.

(** The send event fires, and the memory side asks for a retry. *)
Definition mem_processSendEvent (ev : Env) (s : PortedCache) (queued : list (Packet * Z * bool)) (accepted : bool) : result PortedCache :=
  assertb (bool_decide (pq_sendEvent (pc_memSide s) = Some (ev_curTick ev))) ;;
  assertb (negb (pq_waitingOnRetry (pc_memSide s))) ;;
  sendDeferredPacket ev (s <| pc_memSide := (pc_memSide s) <| pq_sendEvent := None |> |>) queued accepted.
Definition mem_retry (ev : Env) (s : PortedCache) (queued : list (Packet * Z * bool)) (accepted : bool) : result PortedCache :=
  assertb (pq_waitingOnRetry (pc_memSide s)) ;; sendDeferredPacket ev s queued accepted.

End MemSide.

(** [BaseCache::drain]: the number of objects that are not drained, and the state
    of the cache. *)
Definition ca_drain (s : PortedCache) : PortedCache * Z * DrainState :=
  let '(mem, n1) := pq_drain (pc_memSide s) in
  let '(cpu, n2) := pq_drain (pc_cpuSide s) in
  let '(mq, n3) := mq_drain (ca_mshrQueue (tm_cache (pc_timing s))) in
  let '(wb, n4) := mq_drain (ca_writeBuffer (tm_cache (pc_timing s))) in
  let t := (pc_timing s) <| tm_cache := (tm_cache (pc_timing s)) <| ca_mshrQueue := mq |> <| ca_writeBuffer := wb |> |> in
  let count := n1 + n2 + n3 + n4 in
  (mkPorted t cpu mem, count, if negb (count =? 0) then Draining else Drained).

(** ** Histories *)

Inductive PortEvent : Type :=
| PeTiming (e : TimingEvent)
| PeCpuSend (op : QueueOp)
| PeMemFire (queued : list (Packet * Z * bool)) (accepted : bool)
| PeMemRetry (queued : list (Packet * Z * bool)) (accepted : bool)
| PeDrain.

(** One event; the turns of the memory side are the last but one. *)
Definition port_event {M : Type} (sf : M → Packet → result M) (upper : Packet → Packet) (st : PortedCache * M * bool) (ee : Env * PortEvent)
  : result (PortedCache * M * bool) :=
  let '(s, m, waiting) := st in
  let '(ev, e) := ee in
  match e with
  | PeTiming (EvSend _) => Err AssertFail
  | PeTiming e =>
      '(t, m, waiting) ← tm_event sf upper (pc_timing s, m, waiting) (ev, e);
      s ← deliver_all ev (s <| pc_timing := t |>); Ok (s, m, waiting)
  | PeCpuSend op => '(q, _, _) ← queue_step (ev_curTick ev) (pc_cpuSide s) op; Ok (s <| pc_cpuSide := q |>, m, waiting)
  | PeMemFire queued accepted => s ← mem_processSendEvent upper ev s queued accepted; Ok (s, m, waiting)
  | PeMemRetry queued accepted => s ← mem_retry upper ev s queued accepted; Ok (s, m, waiting)
  | PeDrain => let '(s, _, _) := ca_drain s in Ok (s, m, waiting)
  end.

(** ** Deliveries *)

(** The queue will be looked at again: its event is scheduled or a retry will
    come. *)
Definition pending (q : PacketQueue) : Prop := pq_sendEvent q ≠ None ∨ pq_waitingOnRetry q = true.
Definition one_reason (q : PacketQueue) : Prop := pq_waitingOnRetry q = true → pq_sendEvent q = None.

(** What queueing does to the memory-side queue. *)
Record queued_ok (q q' : PacketQueue) : Prop := {
  qo_waiting : pq_waitingOnRetry q' = pq_waitingOnRetry q;
  qo_reason : one_reason q → one_reason q';
  qo_pending : pending q → pending q'
}.
#[export] Instance queued_ok_preorder : PreOrder queued_ok.
Proof. split; [by intros q|]. intros q1 q2 q3 [] []. split; [congruence|auto|auto]. Qed.

Lemma schedSendEvent_queued now q when q' : schedSendEvent now q when = Ok q' → queued_ok q q' ∧ pending q'.
Proof.
  unfold schedSendEvent, set_sendEvent. intros H. destruct (pq_waitingOnRetry q) eqn:Hw; inv_ok; [split; [reflexivity|by right]|].
  destruct (pq_sendEvent q) as [t|] eqn:Es; [destruct (when <? t)|]; inv_ok; (split; [split; unfold one_reason, pending; cbn; naive_solver congruence|left; cbn; congruence]).
Qed.
Lemma schedSendTiming_queued now q p when snoop q' : schedSendTiming now q p when snoop = Ok q' → queued_ok q q'.
Proof.
  unfold schedSendTiming. intros H. inv_ok. destruct (pq_transmitList q) as [|x l]; [by apply schedSendEvent_queued in H as [[] _]|].
  destruct (when <? dp_tick x); [by apply schedSendEvent_queued in H as [[] _]|]. case_match; inv_ok; by split.
Qed.
Lemma deliver_queued now qs o qs' : deliver now qs o = Ok qs' → queued_ok qs.2 qs'.2 ∧ (∀ cause t, o = OutBus cause t → pending qs'.2).
Proof.
  destruct qs as [cpu mem]. destruct o; cbn; intros H; inv_ok; cbn; (split; [|done || (intros ?? _; by apply schedSendEvent_queued in E as [_ ?])]).
  - reflexivity.
  - by eapply schedSendTiming_queued.
  - reflexivity.
  - by apply schedSendEvent_queued in E as [? _].
Qed.
Lemma deliveries_queued now o qs qs' :
  foldM (deliver now) qs o = Ok qs' → queued_ok qs.2 qs'.2 ∧ (asks_bus o → pending qs'.2).
Proof.
  revert qs. induction o as [|x o IH]; intros qs H; cbn in H; inv_ok.
  - split; [reflexivity|]. by intros (? & ? & []%elem_of_nil).
  - apply deliver_queued in E as [Q1 B1]. destruct (IH _ H) as [Q2 B2]. split; [by etransitivity|].
    intros (cause & t & [<-|Hin]%elem_of_cons); [|apply B2; by exists cause, t]. apply (qo_pending _ _ Q2). by eapply B1.
Qed.

(** ** Invariant *)

Record ported_inv (s : PortedCache) : Prop := {
  pv_out : tm_out (pc_timing s) = [];
  pv_reason : one_reason (pc_memSide s);
  pv_ready : has_ready (tm_cache (pc_timing s)) → pending (pc_memSide s)
}.

(** A step of the cache followed by its deliveries. *)
Lemma deliver_all_inv ev s t s' :
  ported_inv s → announces (pc_timing s) t → deliver_all ev (s <| pc_timing := t |>) = Ok s' →
  ported_inv s' ∧ tm_cache (pc_timing s') = tm_cache t ∧ queued_ok (pc_memSide s) (pc_memSide s').
Proof.
  intros [I1 I2 I3] (o & Ho & Ha) H. unfold deliver_all in H. inv_ok. destruct a as [cpu mem]. inv_ok. cbn in E. rewrite I1 in Ho. cbn in Ho. rewrite Ho in E.
  apply deliveries_queued in E as [Q B]. cbn in Q, B. split; [|done]. split; cbn; [done|by apply Q|].
  intros [R|R]%Ha; [apply Q; auto|auto].
Qed.

(** A register that is ready gives the queue a tick. *)
Definition time_left (c : Cache) : Prop := Forall (λ m, ms_readyTime m < MaxTick) (ca_mshrs c).
Lemma next_ready c next : time_left c → ca_nextMSHRReadyTime c = Ok next → has_ready c → next < MaxTick.
Proof.
  intros T H R. unfold ca_nextMSHRReadyTime, nextMSHRReadyTime in H. inv_ok.
  assert (G : ∀ (l : list nat) v, match l with [] => Ok MaxTick | id :: _ => m ← get_mshr (ca_mshrs c) id; Ok (ms_readyTime m) end = Ok v → l ≠ [] → v < MaxTick).
  { intros [|id l] v Hv Hne; [done|]. inv_ok. apply get_mshr_Ok in E1. by apply (Forall_lookup_1 _ _ _ _ T) in E1. }
  destruct R as [R|R]; [pose proof (G _ _ E R)|pose proof (G _ _ E0 R)]; lia.
Qed.
Lemma scheduleSend_pending now q next q' :
  scheduleSend now q next = Ok q' → (next < MaxTick → pq_sendEvent q' ≠ None) ∧ pq_waitingOnRetry q' = pq_waitingOnRetry q.
Proof.
  unfold scheduleSend, set_sendEvent. intros H. split.
  - intros Hn. rewrite (proj2 (Z.eqb_neq _ _)) in H by lia. cbn [negb] in H. destruct (pq_sendEvent q) eqn:E; inv_ok; [by rewrite E|done].
  - destruct (negb _); [destruct (pq_sendEvent q); by inv_ok|]. destruct (_ && _ && _); by inv_ok.
Qed.

(** A request that is offered leaves the output as it was. *)
Lemma send_miss_out s id m p blk s' p' : send_miss s id m p blk = Ok (s', p') → tm_out s' = tm_out s.
Proof. unfold send_miss. intros H. by inv_ok. Qed.
Lemma getTimingPacket_out upper ev s s' p : getTimingPacket upper ev s = Ok (s', Some p) → tm_out s' = tm_out s.
Proof.
  unfold getTimingPacket. intros H. inv_ok. destruct a as [id|]; inv_ok; [|done].
  destruct (_ || _) in H; inv_ok; [done|]. case_match; inv_ok; [done|].
  repeat (case_match; inv_ok); first [done|by eapply send_miss_out].
Qed.
Lemma send_request_refused upper ev s accept s' p : send_request upper ev s accept = Ok (s', p, true) → tm_out s' = tm_out s.
Proof.
  unfold send_request. intros H. inv_ok. destruct a as [s1 [q|]]; inv_ok; [|done]. destruct accept; inv_ok; [done|]. by eapply getTimingPacket_out.
Qed.

(** The end of [sendDeferredPacket]. *)
Lemma schedule_inv now s next q :
  tm_out (pc_timing s) = [] → pq_waitingOnRetry (pc_memSide s) = false → time_left (tm_cache (pc_timing s)) →
  ca_nextMSHRReadyTime (tm_cache (pc_timing s)) = Ok next → scheduleSend now (pc_memSide s) next = Ok q → ported_inv (s <| pc_memSide := q |>).
Proof.
  intros Ho Hw T Hn Hq. apply scheduleSend_pending in Hq as [Hp Hs].
  split; cbn; [done|intros Hx; by rewrite Hs, Hw in Hx|]. intros R. left. apply Hp. by eapply next_ready.
Qed.

Lemma sendDeferredPacket_inv upper ev s queued accepted s' :
  tm_out (pc_timing s) = [] → pq_sendEvent (pc_memSide s) = None →
  sendDeferredPacket upper ev s queued accepted = Ok s' → time_left (tm_cache (pc_timing s')) → ported_inv s'.
Proof.
  intros Ho He H T. unfold sendDeferredPacket in H. inv_ok.
  cut (tm_out (pc_timing a) = [] ∧ (pq_waitingOnRetry (pc_memSide a) = true → pq_sendEvent (pc_memSide a) = None)).
  { intros [Ho' Hr]. destruct (pq_waitingOnRetry (pc_memSide a)) eqn:Hw; cbn [negb] in H; inv_ok.
    - split; [done|intros _; by apply Hr|]. intros _. by right.
    - by eapply (schedule_inv (ev_curTick ev) a). }
  clear H T. destruct (deferredPacketReady _ _); inv_ok.
  - destruct a0 as [q d]. inv_ok. cbn. split; [done|]. unfold trySendTiming in E0. inv_ok.
    destruct (pq_transmitList (pc_memSide s)); [done|]. inv_ok. destruct accepted; inv_ok; [done|]. cbn. by case_bool_decide.
  - destruct a0 as [[t o] w]. inv_ok. unfold deliver_all in E1. inv_ok. destruct a as [cpu mem]. inv_ok. cbn. split; [done|].
    intros ->. apply send_request_refused in E0. cbn in E. rewrite E0, Ho in E. by injection E as <- <-.
Qed.

Lemma tm_event_announces {M} (sf : M → Packet → result M) upper s m w ee s' m' w' :
  tm_event sf upper (s, m, w) ee = Ok (s', m', w') → announces s s'.
Proof.
  destruct ee as [ev e]. intros H. destruct e; cbn in H; inv_pairs.
  - apply cpu_recvTimingReq_keeps in E as [[_ A] _]. exact A.
  - apply snoopReq_keeps in E as [_ A]. exact A.
  - apply recvTimingResp_keeps in E as [_ A]. exact A.
  - apply snoopResp_keeps in E as [_ A]. exact A.
  - apply send_request_keeps in E as [_ A]. exact A.
  - unfold fire_sendRetry in E. destruct (tm_sendRetryEvent s); inv_ok. by apply same_cache_announces.
Qed.

Lemma port_event_inv {M} (sf : M → Packet → result M) upper s m w ev e s' m' w' :
  ported_inv s → port_event sf upper (s, m, w) (ev, e) = Ok (s', m', w') → time_left (tm_cache (pc_timing s')) → ported_inv s'.
Proof.
  intros I H T. destruct e as [e|op|queued accepted|queued accepted|].
  - assert (H' : ∃ t m1 w1, tm_event sf upper (pc_timing s, m, w) (ev, e) = Ok (t, m1, w1) ∧ deliver_all ev (s <| pc_timing := t |>) = Ok s').
    { destruct e; [..|done|]; cbn [port_event] in H; apply bind_Ok_inv in H as ([[t m1] w1] & E & H); apply bind_Ok_inv in H as (s1 & E1 & H); injection H as <- <- <-; eauto. }
    destruct H' as (t & m1 & w1 & E & D). apply tm_event_announces in E. by destruct (deliver_all_inv ev s t s' I E D).
  - cbn in H. inv_pairs. destruct I. by split.
  - cbn in H. inv_pairs. unfold mem_processSendEvent in E. inv_ok. eapply sendDeferredPacket_inv; [| |exact E|exact T]; [apply I|done].
  - cbn in H. inv_pairs. unfold mem_retry in E. inv_ok. eapply sendDeferredPacket_inv; [| |exact E|exact T]; [apply I|by apply (pv_reason _ I)].
  - cbn in H. destruct I as [I1 I2 I3]. unfold ca_drain, pq_drain, mq_drain in H.
    repeat case_match; simplify_eq; (split; [exact I1|exact I2|exact I3]).
Qed.

(** The histories of a cache and its ports while ticks are left. *)
Inductive port_history {M} (sf : M → Packet → result M) (upper : Packet → Packet) : PortedCache → M → bool → Prop :=
| ph_new is_private guest top fwd line hit resp mshrs bufs tags c order tgts ranges m :
    Cache_make is_private guest top fwd line hit resp mshrs bufs false tags = Ok c →
    port_history sf upper (mkPorted (Timing_make c order tgts ranges) PacketQueue_make PacketQueue_make) m false
| ph_step s m w ev e s' m' w' :
    port_history sf upper s m w → port_event sf upper (s, m, w) (ev, e) = Ok (s', m', w') → time_left (tm_cache (pc_timing s')) →
    port_history sf upper s' m' w'.

(** C10: no request is forgotten on its way to the memory.  Over every history of
    requests, snoops, responses, sends, refusals, retries and drains, while ticks
    are left: whenever a miss, a write-back or an uncached access is ready to be
    sent, the memory-side queue has its send event scheduled or awaits a retry,
    and never both, so the assertions of the queue on a request for the present
    or the future hold. *)
Theorem ready_request_scheduled {M} (sf : M → Packet → result M) upper s m w :
  port_history sf upper s m w →
  (mq_readyList (ca_mshrQueue (tm_cache (pc_timing s))) ≠ [] ∨ mq_readyList (ca_writeBuffer (tm_cache (pc_timing s))) ≠ [] →
     is_Some (pq_sendEvent (pc_memSide s)) ∨ pq_waitingOnRetry (pc_memSide s) = true) ∧
  (pq_waitingOnRetry (pc_memSide s) = true → pq_sendEvent (pc_memSide s) = None) ∧
  ∀ now when, now ≤ when → is_ok (schedSendEvent now (pc_memSide s) when).
Proof.
  intros H. assert (I : ported_inv s).
  { induction H as [is_private guest top fwd line hit resp mshrs bufs tags c order tgts ranges m Hc|s m w ev e s' m' w' _ IH H T];
      [|by eapply port_event_inv]. injection Hc as <-. split; [done|done|]. intros [[]|[]]; done. }
  destruct I as [_ I2 I3]. split; [|split; [exact I2|]].
  - intros [Hs|Hw]%I3; [left; by apply not_eq_None_Some|by right].
  - intros now when Hle. unfold schedSendEvent, set_sendEvent. rewrite (proj2 (Z.leb_le now when)) by done.
    destruct (pq_waitingOnRetry _) eqn:Hw; [rewrite (I2 Hw); by eexists|]. destruct (pq_sendEvent _); [case_match|]; by eexists.
Qed.

(** A miss of the demonstration cache and its turn on the bus, which the memory
    side refuses. *)
Definition demo_ported (n : nat) : result (PortedCache * unit * bool) :=
  foldM (port_event (λ (m : unit) (_ : Packet), Ok m) (λ p : Packet, p))
    (mkPorted (Timing_make demo_cache 0 2 [(0, 0xffff)]) PacketQueue_make PacketQueue_make, tt, false)
    (take n [(demo_env, PeTiming (EvReq (demo_access ReadReq 0 0x1244 [0; 0; 0; 0])));
             (mkEnv 2000 2000 500 4 false, PeMemFire [] false)]).
Definition demo_ported_end (n : nat) : PortedCache :=
  match demo_ported n with Ok (s, _, _) => s | Err _ => mkPorted (Timing_make demo_cache 0 2 []) PacketQueue_make PacketQueue_make end.
Definition time_leftb (c : Cache) : bool := forallb (λ m, ms_readyTime m <? MaxTick) (ca_mshrs c).
Lemma time_leftb_spec c : time_leftb c = true → time_left c.
Proof. intros H. apply Forall_forall. intros m Hm. apply Z.ltb_lt. by apply (proj1 (forallb_forall _ _) H), list_elem_of_In. Qed.

Lemma demo_ported_history : port_history (λ (m : unit) (_ : Packet), Ok m) (λ p : Packet, p) (demo_ported_end 2) tt false.
Proof.
  apply (ph_step _ _ (demo_ported_end 1) tt false (mkEnv 2000 2000 500 4 false) (PeMemFire [] false));
    [|vm_compute; reflexivity|apply time_leftb_spec; vm_compute; reflexivity].
  apply (ph_step _ _ (demo_ported_end 0) tt false demo_env (PeTiming (EvReq (demo_access ReadReq 0 0x1244 [0; 0; 0; 0]))));
    [|vm_compute; reflexivity|apply time_leftb_spec; vm_compute; reflexivity].
  change (demo_ported_end 0) with (mkPorted (Timing_make demo_cache 0 2 [(0, 0xffff)]) PacketQueue_make PacketQueue_make).
  exact (ph_new _ _ _ _ _ _ _ _ _ _ _ _ _ _ _ _ _ demo_cache_made).
Qed.

Lemma ready_request_scheduled_witness :
  mq_readyList (ca_mshrQueue (tm_cache (pc_timing (demo_ported_end 2)))) ≠ [] ∧
  (is_Some (pq_sendEvent (pc_memSide (demo_ported_end 2))) ∨ pq_waitingOnRetry (pc_memSide (demo_ported_end 2)) = true).
Proof.
  assert (R : mq_readyList (ca_mshrQueue (tm_cache (pc_timing (demo_ported_end 2)))) ≠ []) by (vm_compute; discriminate).
  split; [exact R|]. exact (proj1 (ready_request_scheduled _ _ _ _ _ demo_ported_history) (or_introl R)).
Defined.
