(* ===== verification/CacheFunctional.v ===== *)
(** * Functional accesses of the cache

    [Cache::functionalAccess] of [src/pardg5-v/hyper/mem/cache/cache_impl.hh] with
    the [checkFunctional] of its registers and queues ([mshr.cc], [mshr_queue.cc]):
    a functional request reads or updates every copy of its bytes that the cache
    has, and goes on to the memory unless a copy that owns the line answered it.
    The theorem shows that over a cache in atomic mode functional requests and
    timed requests see one memory per domain. *)

From S2P Require Import Prelude BaseLib Packet Functional PacketQueue CacheBlk CacheSet LruTags Mshr MshrQueue CacheCtrl CacheFrame CacheAtomic CacheTiming.
Local Open Scope Z_scope.

(** ** Registers and queues *)

(** [TargetList::checkFunctional] and [MSHR::checkFunctional]: the request, the
    register, whose packets may be updated, and whether the request is done. *)
Definition tl_checkFunctional (p : Packet) (ts : TargetList) : result (Packet * TargetList * bool) :=
  '(p, l, found) ← checkFunctional_list p (tg_pkt <$> tl_list ts);
  Ok (p, ts <| tl_list := zip_with (λ t p, t <| tg_pkt := p |>) (tl_list ts) l |>, found).
Definition ms_checkFunctional (p : Packet) (m : MSHR) : result (Packet * MSHR * bool) :=
  if pkt_isPrint p then '(p, _, _) ← checkFunctional p (ms_addr m) (ms_isSecure m) (ms_size m) None; Ok (p, m, false)
  else
    '(p, ts, found) ← tl_checkFunctional p (ms_targets m);
    let m := m <| ms_targets := ts |> in
    if found : bool then Ok (p, m, true)
    else '(p, ts, found) ← tl_checkFunctional p (ms_deferredTargets m); Ok (p, m <| ms_deferredTargets := ts |>, found).

(** The loop of [MSHRQueue::checkFunctional] over the allocated registers. *)
Fixpoint mq_checkFunctional_list (h : heap) (p : Packet) (l : list nat) (guest blk_addr : Z) : result (heap * Packet * bool) :=
  match l with
  | [] => Ok (h, p, false)
  | id :: l' =>
      m ← get_mshr h id;
      if (ms_guest m =? guest) && (ms_addr m =? blk_addr) then
        '(p, m, found) ← ms_checkFunctional p m;
        h ← put_mshr h id m;
        if found : bool then Ok (h, p, true) else mq_checkFunctional_list h p l' guest blk_addr
      else mq_checkFunctional_list h p l' guest blk_addr
  end.
Definition mq_checkFunctional (h : heap) (q : MSHRQueue) (p : Packet) (blk_addr : Z) : result (heap * Packet * bool) :=
  match mq_allocatedList q with
  | [] => Ok (h, p, false)
  | l => guest ← PKT_TO_GUESTID p; mq_checkFunctional_list h p l guest blk_addr
  end.

(** ** The cache *)

(** The cache with the packet queues of its two ports. *)
Record Ports : Type := mkPorts { po_cache : Cache; po_cpuSide : PacketQueue; po_memSide : PacketQueue }.
#[export] Instance eta_Ports : Eta Ports := λ s, mkPorts (po_cache s) (po_cpuSide s) (po_memSide s).

(** The copy of the block: whether the cache has the data and whether it owns
    them. *)
Definition check_block (c : Cache) (p : Packet) (blk : option nat) (mshr : option nat) (blk_addr : Z) (is_secure : bool)
  : result (Cache * Packet * bool) :=
  match blk with
  | None => Ok (c, p, false)
  | Some k =>
      b ← get_ref c (TagBlk k);
      if negb (blk_isValid b) then Ok (c, p, false) else
      line ← get_line c (TagBlk k);
      '(p, line, have_data) ← checkFunctional p blk_addr is_secure (ca_blkSize c) (Some line);
      c ← (match line with Some line => set_line c (TagBlk k) line | None => Ok c end);
      have_dirty ← (if negb have_data then Ok false
                    else if blk_isDirty b then Ok true
                    else match mshr with
                         | None => Ok false
                         | Some id => m ← get_mshr (ca_mshrs c) id; if ms_inService m then isPendingDirty m else Ok false
                         end);
      Ok (c, p, have_dirty)
  end.

(** The chain of checks, each made when those before it did not satisfy the
    request. *)
Definition check_queues (s : Ports) (p : Packet) (blk_addr : Z) : result (Ports * Packet * bool) :=
  '(q, p, found) ← pq_checkFunctional (po_cpuSide s) p;
  let s := s <| po_cpuSide := q |> in
  if found : bool then Ok (s, p, true) else
  '(h, p, found) ← mq_checkFunctional (ca_mshrs (po_cache s)) (ca_mshrQueue (po_cache s)) p blk_addr;
  let s := s <| po_cache := (po_cache s) <| ca_mshrs := h |> |> in
  if found : bool then Ok (s, p, true) else
  '(h, p, found) ← mq_checkFunctional (ca_mshrs (po_cache s)) (ca_writeBuffer (po_cache s)) p blk_addr;
  let s := s <| po_cache := (po_cache s) <| ca_mshrs := h |> |> in
  if found : bool then Ok (s, p, true) else
  '(q, p, found) ← pq_checkFunctional (po_memSide s) p;
  Ok (s <| po_memSide := q |>, p, found).

(** [functionalAccess]; the memory below and the caches above are functions of
    one state [M], and [snooping] says whether there are caches above. *)
Definition ca_functionalAccess {M : Type} (sendFunctional sendFunctionalSnoop : M → Packet → result (M * Packet)) (snooping : bool)
    (ev : Env) (s : Ports) (m : M) (p : Packet) (fromCpuSide : bool) : result (Ports * M * Packet) :=
  if ev_bypassCaches ev then
    assertb fromCpuSide ;;
    '(m, p) ← sendFunctional m p; Ok (s, m, p)
  else
    let c := po_cache s in
    addr ← getAddr p;
    let blk_addr := blockAlign c addr in
    is_secure ← isSecure p;
    guest ← PKT_TO_GUESTID p;
    blk ← findBlock (ca_tags c) guest addr is_secure;
    mshr ← findMatch (ca_mshrs c) (ca_mshrQueue c) guest blk_addr is_secure;
    '(c, p, have_dirty) ← check_block c p blk mshr blk_addr is_secure;
    let s := s <| po_cache := c |> in
    '(s, p, done) ← (if have_dirty : bool then Ok (s, p, true) else check_queues s p blk_addr);
    if done : bool then p ← makeResponse p; Ok (s, m, p)
    else if fromCpuSide then '(m, p) ← sendFunctional m p; Ok (s, m, p)
    else if ca_forwardSnoops c && snooping then '(m, p) ← sendFunctionalSnoop m p; Ok (s, m, p)
    else Ok (s, m, p).

(** ** One memory per domain *)

(** What the cache relies on below it: functional requests read and write the
    bytes of their domain and security space. *)
Class FunctionalMemory {M : Type} (sendFunctional : M → Packet → result (M * Packet)) (byte_at : M → Z → bool → Z → Z) : Prop := {
  fm_read m p mine :
    functional_req p mine → pkt_cmd p = ReadReq →
    ∃ p', sendFunctional m p = Ok (m, p') ∧
      pkt_data p' = Some (byte_at m (guest_of p) (pkt_isSecure p) <$> addr_range (pkt_addr p) (length mine));
  fm_write m p mine :
    functional_req p mine → pkt_cmd p = WriteReq →
    ∃ m' p', sendFunctional m p = Ok (m', p') ∧ ∀ g s a, byte_at m' g s a =
      if decide (g = guest_of p ∧ s = pkt_isSecure p ∧ pkt_addr p ≤ a < pkt_addr p + pkt_size p)
      then mine !!! Z.to_nat (a - pkt_addr p) else byte_at m g s a
}.

Section Functional.

Context {M : Type} (byte_at : M → Z → bool → Z → Z) (ev : Env).

(** A cache in atomic mode: nothing waits in its queues. *)
Record idle_ports (s : Ports) (m : M) : Prop := {
  ip_inv : cache_inv byte_at ev (po_cache s) m;
  ip_buffer : mq_allocatedList (ca_writeBuffer (po_cache s)) = [];
  ip_cpu : pq_transmitList (po_cpuSide s) = [];
  ip_mem : pq_transmitList (po_memSide s) = [];
  ip_blkSize : ca_blkSize (po_cache s) < 2 ^ 16;
  ip_bypass : ev_bypassCaches ev = false
}.

Lemma cpu_functional c m p data :
  cache_inv byte_at ev c m → cpu_request ev c p data → 0 < pkt_size p → ca_blkSize c < 2 ^ 16 → functional_req p data.
Proof.
  intros I R H0 Hb. pose proof (ci_wf _ _ _ _ I) as W. pose proof (lt_blkSize_pos _ W) as Hpos. rewrite <-(ci_blkSize _ _ _ _ I) in Hpos.
  destruct (request_block ev c p data W (ci_blkSize _ _ _ _ I) R (pkt_addr p + pkt_size p - 1)) as [[_ Hw] _]; [lia|].
  pose proof (Z.mod_pos_bound (pkt_addr p) _ Hpos). pose proof (cr_addr _ _ _ _ R) as [Ha0 Ha1]. pose proof (cr_cmd _ _ _ _ R) as Hc. destruct R. split; try done; try lia.
  unfold pkt_isPrint. by destruct Hc as [-> | ->].
Qed.

(** The block-aligned address of a request. *)
Lemma blockAlign_spec c m a :
  cache_inv byte_at ev c m → 0 ≤ a → blockAlign c a = a - a mod ca_blkSize c.
Proof.
  intros I Ha. destruct (ci_wf _ _ _ _ I) as [(b & t & G) _]. unfold blockAlign. rewrite (ci_blkSize _ _ _ _ I), (geo_blkSize _ _ _ G).
  assert (Hb : 0 ≤ b) by (destruct G; lia). assert (0 < 2 ^ b) by (apply Z.pow_pos_nonneg; lia).
  pose proof (blkAlign_div _ _ _ a G) as Hd. unfold blkAlign in Hd. rewrite (geo_blkMask _ _ _ G) in Hd. rewrite Hd.
  pose proof (Z.div_mod a (2 ^ b)). lia.
Qed.

(** The line of a block as a value at its address. *)
Lemma line_value c m p data k :
  cache_inv byte_at ev c m → cpu_request ev c p data → 0 < pkt_size p → ca_blkSize c < 2 ^ 16 → (k < length (lt_blks (ca_tags c)))%nat →
  value_ok (blockAlign c (pkt_addr p)) (ca_blkSize c) (block_line c k) ∧
  blockAlign c (pkt_addr p) ≤ pkt_addr p ∧ pkt_addr p + pkt_size p ≤ blockAlign c (pkt_addr p) + ca_blkSize c ∧
  pkt_addr p - blockAlign c (pkt_addr p) = pkt_addr p mod ca_blkSize c.
Proof.
  intros I R H0 Hb Hk. pose proof (ci_wf _ _ _ _ I) as W. pose proof (lt_blkSize_pos _ W) as Hpos. rewrite <-(ci_blkSize _ _ _ _ I) in Hpos.
  pose proof (Z.mod_pos_bound (pkt_addr p) _ Hpos) as Hm. pose proof (Z.div_mod (pkt_addr p) (ca_blkSize c) ltac:(lia)) as Hd.
  assert (Ha : 0 ≤ pkt_addr p) by (apply (cr_addr _ _ _ _ R)). rewrite (blockAlign_spec c m _ I Ha).
  assert (Hlast : in_width 64 (ca_blkSize c * (pkt_addr p / ca_blkSize c) + (ca_blkSize c - 1))).
  { assert (Hq : 0 ≤ pkt_addr p / ca_blkSize c) by (apply Z.div_pos; lia).
    apply (block_width (ca_tags c) (pkt_addr p)); [done|by destruct R|nia|]. rewrite <-(ci_blkSize _ _ _ _ I).
    symmetry. apply (Z.div_unique _ _ _ (ca_blkSize c - 1)); lia. }
  destruct Hlast as [_ Hlast]. split; [|destruct R; lia].
  assert (Hq : 0 ≤ pkt_addr p / ca_blkSize c) by (apply Z.div_pos; lia).
  split; [apply length_block_line; [done|done|by apply (ci_data _ _ _ _ I)]|lia|nia|lia].
Qed.

(** Nothing is found in empty queues. *)
Lemma check_queues_idle s p blk_addr :
  mq_allocatedList (ca_mshrQueue (po_cache s)) = [] → mq_allocatedList (ca_writeBuffer (po_cache s)) = [] →
  pq_transmitList (po_cpuSide s) = [] → pq_transmitList (po_memSide s) = [] → check_queues s p blk_addr = Ok (s, p, false).
Proof.
  intros I Hb Hc Hm. destruct s as [c [l1 ????] [l2 ????]]. cbn in Hb, Hc, Hm, I. subst l1 l2.
  destruct c. cbn in I, Hb. unfold check_queues, mq_checkFunctional. cbn. rewrite I. cbn. by rewrite Hb.
Qed.

(** The bytes of a request within the line of its block. *)
Lemma line_bytes c m p data k i :
  cache_inv byte_at ev c m → cpu_request ev c p data → holds (ca_tags c) (guest_of p) (pkt_addr p) (pkt_isSecure p) k →
  0 ≤ i < pkt_size p →
  block_line c k !!! Z.to_nat (pkt_addr p mod ca_blkSize c + i) = view byte_at c m (guest_of p) (pkt_isSecure p) (pkt_addr p + i).
Proof.
  intros I R Hk Hi. pose proof (ci_wf _ _ _ _ I) as W. pose proof (lt_blkSize_pos _ W) as Hpos. rewrite <-(ci_blkSize _ _ _ _ I) in Hpos.
  destruct (request_block ev c p data W (ci_blkSize _ _ _ _ I) R (pkt_addr p + i)) as [Hw Hal]; [lia|].
  rewrite (view_held byte_at ev c m _ _ _ k I) by (by eapply holds_block). f_equal. f_equal.
  apply (block_mod _ _ _ W) in Hal. rewrite <-(ci_blkSize _ _ _ _ I) in Hal.
  pose proof (Z.div_mod (pkt_addr p + i) (ca_blkSize c) ltac:(lia)). pose proof (Z.div_mod (pkt_addr p) (ca_blkSize c) ltac:(lia)).
  rewrite Hal in *. lia.
Qed.

(** A functional read of a line that the cache has. *)
Lemma check_block_read c m p data k b :
  cache_inv byte_at ev c m → cpu_request ev c p data → pkt_cmd p = ReadReq → 0 < pkt_size p → ca_blkSize c < 2 ^ 16 →
  holds (ca_tags c) (guest_of p) (pkt_addr p) (pkt_isSecure p) k → lt_blks (ca_tags c) !! k = Some b →
  check_block c p (Some k) None (blockAlign c (pkt_addr p)) (pkt_isSecure p) =
    Ok (c, p <| pkt_data := Some (view byte_at c m (guest_of p) (pkt_isSecure p) <$> addr_range (pkt_addr p) (length data)) |>, blk_isDirty b).
Proof.
  intros I R Hc H0 Hs Hk Hb. pose proof (ci_wf _ _ _ _ I) as W. pose proof (lt_blkSize_pos _ W) as Hpos. rewrite <-(ci_blkSize _ _ _ _ I) in Hpos.
  apply lookup_lt_Some in Hb as Hlt. destruct (line_value c m p data k I R H0 Hs Hlt) as (V & A1 & A2 & A3).
  destruct (ci_blk _ _ _ _ I k b Hb) as (Hd & _). rewrite <-(ci_blkSize _ _ _ _ I) in Hd.
  destruct (get_line_tag c k b Hb Hd Hpos (ci_data _ _ _ _ I)) as [G S].
  assert (Hv : blk_isValid b = true). { destruct Hk as (_ & b' & Hb' & Hm). rewrite Hb in Hb'. injection Hb' as <-. by apply blk_matches_iff in Hm as (? & ? & _). }
  unfold check_block, get_ref. rewrite (proj2 (get_blk_Ok _ _ _) Hb). cbn [mbind result_bind]. rewrite Hv. cbn [negb]. rewrite G. cbn [mbind result_bind].
  destruct (checkFunctional_contained p _ _ _ data (cpu_functional c m p data I R H0 Hs) V) as (mine' & -> & L & B); [by unfold pkt_isRead; rewrite Hc|done|done|].
  cbn [mbind result_bind]. rewrite S. cbn [mbind result_bind negb]. unfold block_line at 1. rewrite splice_slice by (pose proof (ci_data _ _ _ _ I); nia).
  assert (E : mine' = view byte_at c m (guest_of p) (pkt_isSecure p) <$> addr_range (pkt_addr p) (length data)).
  { pose proof (cr_len _ _ _ _ R) as Hl. apply list_eq_same_length with (n := length data); [by unfold addr_range; rewrite !length_fmap, length_seq|done|].
    intros i x y Hi Hx Hy. unfold addr_range in Hy. rewrite !list_lookup_fmap, lookup_seq_lt in Hy by lia. cbn in Hy. injection Hy as <-.
    rewrite <-(line_bytes c m p data k (Z.of_nat i) I R Hk) by lia. rewrite <-(list_lookup_total_correct _ _ _ Hx).
    specialize (B (Z.of_nat i) ltac:(lia)). rewrite Nat2Z.id in B. rewrite B. f_equal. lia. }
  rewrite E. destruct c. cbn. by destruct (blk_isDirty b).
Qed.

(** A functional write to a line that the cache has. *)
Definition written (c : Cache) (p : Packet) (data : list Z) (k : nat) : Cache :=
  c <| ca_data := splice (ca_data c) (Z.to_nat (ca_blkSize c * Z.of_nat k)) (served_line c p data (block_line c k)) |>.

Lemma check_block_write c m p data k b :
  cache_inv byte_at ev c m → cpu_request ev c p data → pkt_cmd p = WriteReq → 0 < pkt_size p → ca_blkSize c < 2 ^ 16 →
  holds (ca_tags c) (guest_of p) (pkt_addr p) (pkt_isSecure p) k → lt_blks (ca_tags c) !! k = Some b →
  check_block c p (Some k) None (blockAlign c (pkt_addr p)) (pkt_isSecure p) = Ok (written c p data k, p, false).
Proof.
  intros I R Hc H0 Hs Hk Hb. pose proof (ci_wf _ _ _ _ I) as W. pose proof (lt_blkSize_pos _ W) as Hpos. rewrite <-(ci_blkSize _ _ _ _ I) in Hpos.
  apply lookup_lt_Some in Hb as Hlt. destruct (line_value c m p data k I R H0 Hs Hlt) as (V & A1 & A2 & A3).
  destruct (ci_blk _ _ _ _ I k b Hb) as (Hd & _). rewrite <-(ci_blkSize _ _ _ _ I) in Hd.
  destruct (get_line_tag c k b Hb Hd Hpos (ci_data _ _ _ _ I)) as [G S].
  assert (Hv : blk_isValid b = true). { destruct Hk as (_ & b' & Hb' & Hm). rewrite Hb in Hb'. injection Hb' as <-. by apply blk_matches_iff in Hm as (? & ? & _). }
  unfold check_block, get_ref. rewrite (proj2 (get_blk_Ok _ _ _) Hb). cbn [mbind result_bind]. rewrite Hv. cbn [negb]. rewrite G. cbn [mbind result_bind].
  destruct (functional_write_spec p _ (pkt_isSecure p) _ _ data (cpu_functional c m p data I R H0 Hs) V) as (line' & -> & L & B);
    [by unfold pkt_isRead; rewrite Hc|by unfold pkt_isWrite; rewrite Hc|].
  cbn [mbind result_bind negb]. rewrite S. cbn [mbind result_bind negb]. unfold written.
  cut (line' = served_line c p data (block_line c k)); [by intros <-|].
  pose proof (cr_len _ _ _ _ R) as Hl. pose proof (vo_length _ _ _ V) as Hll. pose proof (Z.mod_pos_bound (pkt_addr p) _ Hpos).
  unfold served_line. rewrite decide_True by done. unfold line_offset.
  apply list_eq_same_length with (n := length (block_line c k)); [by rewrite length_splice by (destruct R; lia)|done|].
  intros i x y Hi Hx Hy. pose proof (cr_fits _ _ _ _ R). rewrite <-(list_lookup_total_correct _ _ _ Hx), <-(list_lookup_total_correct _ _ _ Hy).
  specialize (B (Z.of_nat i) ltac:(lia)). rewrite Nat2Z.id in B. rewrite B, splice_lookup_total by lia. unfold overlaps_at.
  destruct (decide (_ ∧ _)) as [D1|D1], (decide (_ ≤ _ < _)%nat) as [D2|D2]; [f_equal; lia|destruct D2; lia|destruct D1; split; [done|lia]|done].
Qed.

(** A write that reaches the memory and the block of its line, if the cache has
    it. *)
Lemma functional_update c m c' m' p data :
  cache_inv byte_at ev c m → cpu_request ev c p data → pkt_cmd p = WriteReq →
  ca_tags c' = ca_tags c → ca_blkSize c' = ca_blkSize c → ca_isTopLevel c' = ca_isTopLevel c → ca_mshrQueue c' = ca_mshrQueue c →
  length (ca_data c') = length (ca_data c) →
  (∀ j, (j < length (lt_blks (ca_tags c)))%nat → block_line c' j = block_line c j ∨
     holds (ca_tags c) (guest_of p) (pkt_addr p) (pkt_isSecure p) j) →
  (∀ j, holds (ca_tags c) (guest_of p) (pkt_addr p) (pkt_isSecure p) j → block_line c' j = served_line c p data (block_line c j)) →
  (∀ g s a, byte_at m' g s a =
     if decide (g = guest_of p ∧ s = pkt_isSecure p ∧ pkt_addr p ≤ a < pkt_addr p + pkt_size p)
     then data !!! Z.to_nat (a - pkt_addr p) else byte_at m g s a) →
  cache_inv byte_at ev c' m' ∧ ∀ g s a, in_width 64 a → view byte_at c' m' g s a = view_after byte_at c m p data g s a.
Proof.
  intros I R Hc Ht Hbs Htop Hq Hl Hsame Hnew Hm. pose proof (ci_wf _ _ _ _ I) as W. pose proof (lt_blkSize_pos _ W) as Hpos. rewrite <-(ci_blkSize _ _ _ _ I) in Hpos.
  assert (F : ∀ j g s a, in_width 64 a → holds (ca_tags c) g a s j →
    block_line c' j !!! Z.to_nat (a mod ca_blkSize c) =
      if decide (g = guest_of p ∧ s = pkt_isSecure p ∧ pkt_addr p ≤ a < pkt_addr p + pkt_size p)
      then data !!! Z.to_nat (a - pkt_addr p) else block_line c j !!! Z.to_nat (a mod ca_blkSize c)).
  { intros j g s a Ha Hj. pose proof Hj as (_ & b & Hb & _). apply lookup_lt_Some in Hb as Hlt.
    assert (Hy : holds (ca_tags c) (guest_of p) (pkt_addr p) (pkt_isSecure p) j ∨
      (block_line c' j = block_line c j ∧ ¬ holds (ca_tags c) (guest_of p) (pkt_addr p) (pkt_isSecure p) j)).
    { destruct (findBlock_holds _ (guest_of p) (pkt_addr p) (pkt_isSecure p) W (ci_unique _ _ _ _ I)) as (o & _ & Ho).
      destruct (decide (o = Some j)) as [E|E]; [left; by apply Ho|right]. rewrite Ho in E. destruct (Hsame j Hlt); [done|by destruct E]. }
    destruct Hy as [Hh|[-> Hn]].
    - destruct (holds_same _ _ _ _ _ _ _ _ W Hh Hj) as (-> & -> & Hal). rewrite (Hnew j Hh).
      rewrite (served_line_content ev c p data (block_line c j) (λ a0, block_line c j !!! Z.to_nat (a0 mod ca_blkSize c)) W (ci_blkSize _ _ _ _ I) R);
        [|apply length_block_line; [done|done|apply (ci_data _ _ _ _ I)]|done|done|done].
      destruct (decide (pkt_cmd p = WriteReq ∧ _)) as [D|D]; [by rewrite decide_True by naive_solver|by rewrite decide_False by naive_solver].
    - rewrite decide_False; [done|]. intros (-> & -> & Hr). apply Hn.
      destruct (request_block ev c p data W (ci_blkSize _ _ _ _ I) R a Hr) as [_ Hal]. by eapply holds_block. }
  split.
  - split; rewrite ?Ht, ?Hbs, ?Htop, ?Hq, ?Hl; try apply I. intros j b g s a Hb Hd Ha Hj. rewrite (F j g s a Ha Hj), Hm.
    by rewrite (ci_clean _ _ _ _ I j b g s a Hb Hd Ha Hj).
  - intros g s a Ha. unfold view_after, view at 1. rewrite Ht, Hbs.
    destruct (findBlock_holds _ g a s W (ci_unique _ _ _ _ I)) as (o & Hf & Ho). rewrite Hf. destruct o as [j|].
    + specialize (proj1 (Ho j) eq_refl) as Hj. rewrite (F j g s a Ha Hj), (view_held byte_at ev c m g s a j I Hj).
      destruct (decide (g = _ ∧ _)) as [D|D]; [by rewrite decide_True by naive_solver|by rewrite decide_False by naive_solver].
    + rewrite Hm, (view_absent byte_at c m g s a W) by (intros j Hj%Ho; done).
      destruct (decide (g = _ ∧ _)) as [D|D]; [by rewrite decide_True by naive_solver|by rewrite decide_False by naive_solver].
Qed.

(** Without a dirty copy of the line the memory has the bytes of a request. *)
Lemma view_memory c m p data :
  cache_inv byte_at ev c m → cpu_request ev c p data →
  (∀ k b, holds (ca_tags c) (guest_of p) (pkt_addr p) (pkt_isSecure p) k → lt_blks (ca_tags c) !! k = Some b → blk_isDirty b = false) →
  view byte_at c m (guest_of p) (pkt_isSecure p) <$> addr_range (pkt_addr p) (length data) =
  byte_at m (guest_of p) (pkt_isSecure p) <$> addr_range (pkt_addr p) (length data).
Proof.
  intros I R Hd. pose proof (ci_wf _ _ _ _ I) as W. pose proof (cr_len _ _ _ _ R) as Hl. apply list_fmap_ext. intros i a Ha.
  unfold addr_range in Ha. rewrite list_lookup_fmap in Ha. apply fmap_Some in Ha as (j & Hj & ->). apply lookup_seq in Hj as [-> Hj]. cbn [plus].
  destruct (request_block ev c p data W (ci_blkSize _ _ _ _ I) R (pkt_addr p + Z.of_nat i)) as [Hw Hal]; [lia|].
  destruct (findBlock_holds _ (guest_of p) (pkt_addr p + Z.of_nat i) (pkt_isSecure p) W (ci_unique _ _ _ _ I)) as ([k|] & _ & Ho).
  - specialize (proj1 (Ho k) eq_refl) as Hk. pose proof (holds_block _ _ _ _ _ _ W Hal Hk) as Hk'. pose proof Hk as (_ & b & Hb & _).
    rewrite (view_held byte_at ev c m _ _ _ k I Hk). by apply (ci_clean _ _ _ _ I k b); [|apply (Hd k b)| |].
  - apply view_absent; [done|]. intros k Hk%Ho. done.
Qed.

(** The queues of an idle cache do not stop a request. *)
Lemma idle_queues s m c' p blk_addr :
  idle_ports s m → ca_mshrQueue c' = ca_mshrQueue (po_cache s) → ca_writeBuffer c' = ca_writeBuffer (po_cache s) →
  check_queues (s <| po_cache := c' |>) p blk_addr = Ok (s <| po_cache := c' |>, p, false).
Proof. intros [I Ib Ic Im Is Iy] Hq Hb. apply check_queues_idle; cbn; rewrite ?Hq, ?Hb; try done. apply I. Qed.

Lemma idle_ports_update s m c' m' :
  idle_ports s m → cache_inv byte_at ev c' m' → ca_writeBuffer c' = ca_writeBuffer (po_cache s) → ca_blkSize c' = ca_blkSize (po_cache s) →
  idle_ports (s <| po_cache := c' |>) m'.
Proof. intros [I Ib Ic Im Is Iy] I' Hb Hs. split; cbn; [done|congruence|done|done|by rewrite Hs|done]. Qed.

Section Access.

Context (sendFunctional sendFunctionalSnoop : M → Packet → result (M * Packet)) `{!FunctionalMemory sendFunctional byte_at} (snooping : bool).

Lemma functional_read_view s m p data :
  idle_ports s m → cpu_request ev (po_cache s) p data → 0 < pkt_size p → pkt_cmd p = ReadReq →
  ∃ p', ca_functionalAccess sendFunctional sendFunctionalSnoop snooping ev s m p true = Ok (s, m, p') ∧
    pkt_data p' = Some (view byte_at (po_cache s) m (guest_of p) (pkt_isSecure p) <$> addr_range (pkt_addr p) (length data)).
Proof.
  intros P R H0 Hc. pose proof P as [I Ib Ic Im Is Iy]. pose proof (ci_wf _ _ _ _ I) as W. pose proof (cr_wf _ _ _ _ R) as Hwf.
  pose proof (cpu_functional _ _ _ _ I R H0 Is) as FR.
  assert (Es : s <| po_cache := po_cache s |> = s) by (by destruct s).
  pose proof (λ p', idle_queues s m (po_cache s) p' (blockAlign (po_cache s) (pkt_addr p)) P eq_refl eq_refl) as Q. rewrite Es in Q.
  unfold ca_functionalAccess. rewrite Iy, (getAddr_wf _ Hwf), (isSecure_wf _ Hwf), (PKT_TO_GUESTID_wf _ Hwf). cbn [mbind result_bind].
  destruct (findBlock_holds _ (guest_of p) (pkt_addr p) (pkt_isSecure p) W (ci_unique _ _ _ _ I)) as (o & -> & Ho). cbn [mbind result_bind].
  unfold findMatch. rewrite (ci_idle _ _ _ _ I). cbn [find_match mbind result_bind]. destruct o as [k|].
  - specialize (proj1 (Ho k) eq_refl) as Hk. pose proof Hk as (_ & b & Hb & _).
    rewrite (check_block_read _ _ _ _ _ _ I R Hc H0 Is Hk Hb). cbn [mbind result_bind]. rewrite Es. destruct (blk_isDirty b) eqn:Hd; cbn [mbind result_bind].
    + unfold makeResponse, pkt_needsResponse, pkt_isRequest. cbn [pkt_cmd setf]. rewrite Hc. cbn [mbind result_bind assertb testCmdAttrib]. by eexists.
    + rewrite Q. cbn [mbind result_bind].
      match goal with |- context [sendFunctional m ?p1] => destruct (fm_read m p1 (view byte_at (po_cache s) m (guest_of p) (pkt_isSecure p) <$> addr_range (pkt_addr p) (length data))) as (p' & -> & Hp') end;
        [|done|]; [destruct FR; split; try done; by unfold addr_range; rewrite !length_fmap, length_seq|].
      cbn [mbind result_bind]. exists p'. split; [done|]. rewrite Hp', (view_memory _ _ _ _ I R).
      * cbn. do 3 f_equal. unfold addr_range. by rewrite !length_fmap, length_seq.
      * intros j b' Hj Hb'. by rewrite (ci_unique _ _ _ _ I _ _ _ j k Hj Hk), Hb in Hb'; injection Hb' as <-.
  - cbn [check_block mbind result_bind]. rewrite Es, Q. cbn [mbind result_bind]. destruct (fm_read m p data FR Hc) as (p' & -> & Hp'). cbn [mbind result_bind].
    exists p'. split; [done|]. rewrite Hp', (view_memory _ _ _ _ I R); [done|]. intros k b Hk%Ho _. done.
Qed.
Lemma functional_write_view s m p data :
  idle_ports s m → cpu_request ev (po_cache s) p data → 0 < pkt_size p → pkt_cmd p = WriteReq →
  ∃ s' m' p', ca_functionalAccess sendFunctional sendFunctionalSnoop snooping ev s m p true = Ok (s', m', p') ∧ idle_ports s' m' ∧
    ∀ g sec a, in_width 64 a → view byte_at (po_cache s') m' g sec a = view_after byte_at (po_cache s) m p data g sec a.
Proof.
  intros P R H0 Hc. pose proof P as [I Ib Ic Im Is Iy]. pose proof (ci_wf _ _ _ _ I) as W. pose proof (cr_wf _ _ _ _ R) as Hwf.
  pose proof (cpu_functional _ _ _ _ I R H0 Is) as FR. pose proof (lt_blkSize_pos _ W) as Hpos. rewrite <-(ci_blkSize _ _ _ _ I) in Hpos.
  unfold ca_functionalAccess. rewrite Iy, (getAddr_wf _ Hwf), (isSecure_wf _ Hwf), (PKT_TO_GUESTID_wf _ Hwf). cbn [mbind result_bind].
  destruct (findBlock_holds _ (guest_of p) (pkt_addr p) (pkt_isSecure p) W (ci_unique _ _ _ _ I)) as (o & -> & Ho). cbn [mbind result_bind].
  unfold findMatch. rewrite (ci_idle _ _ _ _ I). cbn [find_match mbind result_bind].
  destruct (fm_write m p data FR Hc) as (m' & p' & Hsend & Hm'). destruct o as [k|].
  - specialize (proj1 (Ho k) eq_refl) as Hk. pose proof Hk as (_ & b & Hb & _). apply lookup_lt_Some in Hb as Hlt.
    rewrite (check_block_write _ _ _ _ _ _ I R Hc H0 Is Hk Hb). cbn [mbind result_bind].
    rewrite (idle_queues s m) by done. cbn [mbind result_bind]. rewrite Hsend. cbn [mbind result_bind].
    assert (Hlen : Z.of_nat (length (served_line (po_cache s) p data (block_line (po_cache s) k))) = ca_blkSize (po_cache s)).
    { pose proof (length_block_line (po_cache s) k Hpos Hlt (ci_data _ _ _ _ I)). pose proof (Z.mod_pos_bound (pkt_addr p) _ Hpos). destruct R.
      unfold served_line, line_offset. rewrite decide_True, length_splice by (done || lia). done. }
    destruct (functional_update (po_cache s) m (written (po_cache s) p data k) m' p data) as [I' V'];
      [done..|cbn; rewrite length_splice; [done|pose proof (ci_data _ _ _ _ I); nia]| | |done|].
    + intros j Hj. rewrite (block_line_splice (po_cache s) (written (po_cache s) p data k) k j _ eq_refl Hpos eq_refl Hlen Hlt (ci_data _ _ _ _ I)).
      destruct (decide (j = k)) as [-> |]; [by right|by left].
    + intros j Hj. rewrite (ci_unique _ _ _ _ I _ _ _ j k Hj Hk).
      by rewrite (block_line_splice (po_cache s) (written (po_cache s) p data k) k k _ eq_refl Hpos eq_refl Hlen Hlt (ci_data _ _ _ _ I)), decide_True.
    + do 3 eexists. split; [reflexivity|]. split; [by apply (idle_ports_update s m)|exact V'].
  - cbn [check_block mbind result_bind]. rewrite (idle_queues s m) by done. cbn [mbind result_bind]. rewrite Hsend. cbn [mbind result_bind].
    destruct (functional_update (po_cache s) m (po_cache s) m' p data) as [I' V']; [done..|by left|intros j Hj%Ho; done|done|].
    do 3 eexists. split; [reflexivity|]. split; [by apply (idle_ports_update s m)|exact V'].
Qed.

(** C11: functional requests and timed requests see one memory per domain.  Over a
    cache in atomic mode and a memory that serves functional requests, a
    functional read from the CPU side returns the bytes that the requests of its
    domain and security space see, and a functional write changes exactly those
    bytes of that view, in the cache and below it, and keeps the invariant. *)
Theorem functional_access_view s m p data :
  idle_ports s m → cpu_request ev (po_cache s) p data → 0 < pkt_size p →
  ∃ s' m' p', ca_functionalAccess sendFunctional sendFunctionalSnoop snooping ev s m p true = Ok (s', m', p') ∧ idle_ports s' m' ∧
    (pkt_cmd p = ReadReq → s' = s ∧ m' = m ∧
       pkt_data p' = Some (view byte_at (po_cache s) m (guest_of p) (pkt_isSecure p) <$> addr_range (pkt_addr p) (length data))) ∧
    ∀ g sec a, in_width 64 a → view byte_at (po_cache s') m' g sec a = view_after byte_at (po_cache s) m p data g sec a.
Proof.
  intros P R H0. destruct (cr_cmd _ _ _ _ R) as [Hc|Hc].
  - destruct (functional_read_view s m p data P R H0 Hc) as (p' & E & D). exists s, m, p'. split; [done|]. split; [done|]. split; [done|].
    intros g sec a _. unfold view_after. rewrite decide_False; [done|]. rewrite Hc. by intros [? _].
  - destruct (functional_write_view s m p data P R H0 Hc) as (s' & m' & p' & E & P' & V). exists s', m', p'. split; [done|]. split; [done|].
    split; [by rewrite Hc|done].
Qed.

End Access.
End Functional.

(** The flat memory serves functional requests too. *)
Definition flat_functional (m : Flat) (p : Packet) : result (Flat * Packet) :=
  '(m, p, _) ← flat_send m p; Ok (m, p).
#[export] Instance flat_functional_memory : FunctionalMemory flat_functional flat_byte.
Proof.
  split.
  - intros m p mine R Hc. unfold flat_functional, flat_send, makeResponse, pkt_isRead, pkt_needsResponse, pkt_isRequest. rewrite Hc. cbn.
    eexists. split; [reflexivity|]. cbn. do 3 f_equal. rewrite <-(fr_length _ _ R). apply Nat2Z.id.
  - intros m p mine R Hc. unfold flat_functional, flat_send, pkt_isRead. rewrite Hc, (getPtr_data _ _ R). cbn. by eexists _, _.
Qed.

Lemma functional_access_view_witness :
  ∃ s' m' p', ca_functionalAccess flat_functional flat_functional false demo_env (mkPorts demo_cache PacketQueue_make PacketQueue_make)
      (λ _ _ _, 0) (demo_access WriteReq 0 0x1244 [7; 8; 9; 10]) true = Ok (s', m', p') ∧
    view flat_byte (po_cache s') m' 0 false 0x1245 = 8 ∧ view flat_byte (po_cache s') m' 1 false 0x1245 = 0.
Proof.
  destruct (Cache_make_inv flat_byte demo_env 1024 2 1 false [1; 2] false 0 true 64 2 2 4 8 demo_lru demo_cache (λ _ _ _, 0))
    as (I & _ & _ & V); [apply demo_lru_made|lia|done|done|done|done|reflexivity|].
  pose proof demo_servable as S. unfold demo_reqs in S. apply Forall_cons in S as [[(data & R) _] _].
  destruct (functional_access_view flat_byte demo_env flat_functional flat_functional false (mkPorts demo_cache PacketQueue_make PacketQueue_make)
    (λ _ _ _, 0) _ data ltac:(by split) R ltac:(done)) as (s' & m' & p' & E & _ & _ & H).
  exists s', m', p'. split; [exact E|]. pose proof (cr_data _ _ _ _ R) as D. cbn in D. injection D as <-.
  rewrite !H by done. unfold view_after. rewrite !V. split; reflexivity.
Defined.
