(* ===== verification/IoApic.v ===== *)
(** * The I/O APIC with interrupt re-routing per domain

    [src/pardg5-v/hyper/dev/pardg5v/i82094aap5v.cc] and [.hh] with the message
    layout of [src/gem5-pard/src/arch/x86/intmessage.hh]: one select register
    and one redirection table per guest, one shared set of pin states.  The
    thread contexts of the system (their QR0 tag and local APIC) are an argument
    of the operations that inspect them; the messages sent are part of the
    result.  Checkpointing is not modelled. *)

From S2P Require Import Prelude BaseLib Packet.
Local Open Scope Z_scope.

(** ** Bit unions *)

(** [RedirTableEntry], a 64-bit word with named fields. *)
Definition redir_dest (e : Z) : Z := bits e 63 56.
Definition redir_mask (e : Z) : Z := bits e 16 16.
Definition redir_trigger (e : Z) : Z := bits e 15 15.
Definition redir_polarity (e : Z) : Z := bits e 13 13.
Definition redir_destMode (e : Z) : Z := bits e 11 11.
Definition redir_deliveryMode (e : Z) : Z := bits e 10 8.
Definition redir_vector (e : Z) : Z := bits e 7 0.
Definition redir_topDW (e : Z) : Z := bits e 63 32.
Definition redir_bottomDW (e : Z) : Z := bits e 31 0.

(** [DeliveryMode], the two modes the device distinguishes. *)
Definition LowestPriority : Z := 1.
Definition ExtInt : Z := 7.

(** The message of an entry ([TriggerIntMessage]), field by field. *)
Definition trigger_message (entry : Z) : Z :=
  let m := insertBits 32 0 7 0 (redir_dest entry) in
  let m := insertBits 32 m 15 8 (redir_vector entry) in
  let m := insertBits 32 m 18 16 (redir_deliveryMode entry) in
  let m := insertBits 32 m 19 19 (redir_destMode entry) in
  let m := insertBits 32 m 20 20 (redir_polarity entry) in
  insertBits 32 m 21 21 (redir_trigger entry).
Definition msg_destination (m : Z) : Z := bits m 7 0.
Definition msg_vector (m : Z) : Z := bits m 15 8.
Definition msg_deliveryMode (m : Z) : Z := bits m 18 16.
Definition msg_destMode (m : Z) : Z := bits m 19 19.

(** ** The device *)

Definition TableSize : Z := 24.
Definition APICVersion : Z := 0x14.

Record IOAPIC : Type := mkIOAPIC {
  io_initialApicId : Z;
  io_id : Z;
  io_arbId : Z;
  io_regSel : list Z;
  io_lowestPriorityOffset : Z;
  io_max_guests : Z;
  io_pinMask : list Z;
  io_redirTable : list (list Z);
  io_pinStates : list bool
}.
#[export] Instance eta_IOAPIC : Eta IOAPIC := λ d,
  mkIOAPIC (io_initialApicId d) (io_id d) (io_arbId d) (io_regSel d) (io_lowestPriorityOffset d)
    (io_max_guests d) (io_pinMask d) (io_redirTable d) (io_pinStates d).

(** [I82094AAP5V(Params *p)]. *)
Definition I82094AAP5V_make (apic_id max_guests : Z) (pin_mask : list Z) : result IOAPIC :=
  assertb (apic_id <? 0xff) ;;
  assertb (max_guests <? 0xFF) ;;
  assertb (Z.of_nat (length pin_mask) <=? max_guests) ;;
  let n := Z.to_nat max_guests in
  let entry := insertBits 64 0 16 16 1 in
  Ok (mkIOAPIC (wrap 8 apic_id) (wrap 8 apic_id) (wrap 8 apic_id) (replicate n 0) 0 max_guests
        (pin_mask ++ replicate (n - length pin_mask) 0)
        ((λ id, replicate (Z.to_nat TableSize) (insertBits 64 entry 55 48 (Z.of_nat id))) <$> seq 0 n)
        (replicate (Z.to_nat TableSize) false)).

(** Offsets of the redirection table, as the code tests them. *)
Definition redir_offset (offset : Z) : bool := (0x10 <=? offset) && (offset <=? 0x10 + TableSize * 2).

(** The half of an entry that a register selects, and its write. *)
Definition redir_half (entry offset : Z) : Z :=
  if Z.odd offset then redir_topDW entry else redir_bottomDW entry.
Definition redir_write (entry offset value : Z) : Z :=
  if Z.odd offset
  then insertBits 64 (insertBits 64 entry 63 32 value) 47 32 0
  else insertBits 64 (insertBits 64 entry 31 0 value) 31 17 0.

(** [writeReg(guestID, offset, value)]. *)
Definition io_writeReg (d : IOAPIC) (guestID offset value : Z) : result IOAPIC :=
  if offset =? 0x0 then Ok (d <| io_id := bits value 31 24 |>)
  else if offset =? 0x1 then Ok d
  else if offset =? 0x2 then Ok (d <| io_arbId := bits value 31 24 |>)
  else if redir_offset offset then
    let index := (offset - 0x10) / 2 in
    table ← at_ (io_redirTable d) guestID;
    entry ← at_ table index;
    table ← upd_at table index (redir_write entry offset value);
    rows ← upd_at (io_redirTable d) guestID table;
    Ok (d <| io_redirTable := rows |>)
  else Ok d.

(** [writeReg(offset, value)]: every guest in turn. *)
Definition io_writeReg_all (d : IOAPIC) (offset value : Z) : result IOAPIC :=
  foldM (λ d g, io_writeReg d (Z.of_nat g) offset value) d (seq 0 (Z.to_nat (io_max_guests d))).

(** [readReg(guestID, offset)]. *)
Definition io_readReg (d : IOAPIC) (guestID offset : Z) : result Z :=
  if offset =? 0x0 then Ok (wrap 32 (Z.shiftl (io_id d) 24))
  else if offset =? 0x1 then Ok (Z.lor (Z.shiftl (TableSize - 1) 16) APICVersion)
  else if offset =? 0x2 then Ok (wrap 32 (Z.shiftl (io_arbId d) 24))
  else if redir_offset offset then
    let index := (offset - 0x10) / 2 in
    table ← at_ (io_redirTable d) guestID;
    entry ← at_ table index;
    Ok (redir_half entry offset)
  else Ok 0.

(** [read] and [write] of the register window at [pioAddr]. *)
Definition io_read (d : IOAPIC) (pioAddr : Z) (p : Packet) : result Packet :=
  size ← getSize p;
  assertb (size =? 4) ;;
  addr ← getAddr p;
  let offset := wrap 64 (addr - pioAddr) in
  guestID ← PKT_TO_GUESTID p;
  if offset =? 0 then
    sel ← at_ (io_regSel d) guestID; p ← Packet_set 4 p sel; makeResponse p
  else if offset =? 16 then
    sel ← at_ (io_regSel d) guestID;
    v ← io_readReg d guestID sel; p ← Packet_set 4 p v; makeResponse p
  else Err PanicCalled.

Definition io_write (d : IOAPIC) (pioAddr : Z) (p : Packet) : result (IOAPIC * Packet) :=
  size ← getSize p;
  assertb (size =? 4) ;;
  addr ← getAddr p;
  let offset := wrap 64 (addr - pioAddr) in
  guestID ← PKT_TO_GUESTID p;
  d ← (if offset =? 0 then
         v ← Packet_get 4 p;
         sel ← upd_at (io_regSel d) guestID (wrap 8 v);
         Ok (d <| io_regSel := sel |>)
       else if offset =? 16 then
         sel ← at_ (io_regSel d) guestID;
         v ← Packet_get 4 p;
         io_writeReg d guestID sel v
       else Err PanicCalled);
  p ← makeResponse p;
  Ok (d, p).

(** ** Interrupts *)

(** A thread context: its QR0 register, the logical destination register and
    the initial id of its local APIC. *)
Record ApicContext : Type := mkContext { tc_QR0 : Z; tc_LDR : Z; tc_initialApicId : Z }.

Notation ApicList := (list Z) (only parsing).

(** [1 << line] on [int]. *)
Definition int_bit (line : Z) : result Z :=
  if (0 <=? line) && (line <? 31) then Ok (Z.shiftl 1 line) else Err BadShift.

(** [while (modOffset--) { apicIt++; assert(apicIt != apics.end()); }]: the
    iterator is the rest of the list. *)
Fixpoint apic_advance (it : ApicList) (modOffset : nat) : result ApicList :=
  match modOffset with
  | O => Ok it
  | S n => match it with
           | _ :: ((_ :: _) as it') => apic_advance it' n
           | _ => Err AssertFail
           end
  end.

(** The local APICs of a guest that a logical destination selects. *)
Definition logical_apics (sys : list ApicContext) (guestID destination : Z) : ApicList :=
  tc_initialApicId <$> filter (λ tc, Z.land (tc_QR0 tc) 0xFF = guestID ∧
    Z.land (Z.shiftr (tc_LDR tc) 24) destination ≠ 0) sys.

(** Rotation through the selected APICs. *)
Definition select_lowest (d : IOAPIC) (apics : ApicList) : result (IOAPIC * ApicList) :=
  let modOffset := io_lowestPriorityOffset d mod Z.of_nat (length apics) in
  let d := d <| io_lowestPriorityOffset := wrap 64 (io_lowestPriorityOffset d + 1) |> in
  it ← apic_advance apics (Z.to_nat modOffset);
  match it with [] => Err NullDeref | selected :: _ => Ok (d, [selected]) end.

(** The targets of a message. *)
Definition apic_targets (d : IOAPIC) (sys : list ApicContext) (guestID message : Z)
  : result (IOAPIC * ApicList) :=
  if msg_destMode message =? 0 then
    if msg_deliveryMode message =? LowestPriority then Err PanicCalled
    else if msg_destination message =? 0xFF then Ok (d, Z.of_nat <$> seq 0 (length sys))
    else Ok (d, [msg_destination message])
  else
    let apics := logical_apics sys guestID (msg_destination message) in
    if (msg_deliveryMode message =? LowestPriority) && negb (bool_decide (apics = []))
    then select_lowest d apics
    else Ok (d, apics).

(** Messages leave as pairs of a local APIC and a message ([sendMessage]).  In
    atomic mode the code also asserts that the packet came back as a response,
    which is up to the local APIC. *)
Definition sendMessage (apics : ApicList) (message : Z) : list (Z * Z) :=
  (λ a, (wrap 8 a, message)) <$> apics.

(** [signalInterrupt(guestID, line)]. *)
Definition signalInterrupt (d : IOAPIC) (sys : list ApicContext) (guestID line : Z)
  : result (IOAPIC * list (Z * Z)) :=
  assertb (guestID <? io_max_guests d) ;;
  assertb (line <? TableSize) ;;
  pins ← at_ (io_pinMask d) guestID;
  b ← int_bit line;
  if Z.land pins b =? 0 then Ok (d, []) else
  table ← at_ (io_redirTable d) guestID;
  entry ← at_ table line;
  if negb (redir_mask entry =? 0) then Ok (d, []) else
  if redir_deliveryMode entry =? ExtInt then Ok (d, []) else
  let message := trigger_message entry in
  '(d, apics) ← apic_targets d sys guestID message;
  Ok (d, sendMessage apics message).

(** [signalInterrupt(line)]: all guests that own the pin. *)
Definition signalInterrupt_all (d : IOAPIC) (sys : list ApicContext) (line : Z)
  : result (IOAPIC * list (Z * Z)) :=
  foldM (λ '(d, out) g,
    pins ← at_ (io_pinMask d) (Z.of_nat g);
    b ← int_bit line;
    if Z.land pins b =? 0 then Ok (d, out) else
    '(d, out') ← signalInterrupt d sys (Z.of_nat g) line;
    Ok (d, out ++ out')) (d, []) (seq 0 (Z.to_nat (io_max_guests d))).

(** [raiseInterruptPin] and [lowerInterruptPin], with a guest or for all. *)
Definition raise_with (signal : IOAPIC → result (IOAPIC * list (Z * Z))) (d : IOAPIC) (number : Z)
  : result (IOAPIC * list (Z * Z)) :=
  assertb (number <? TableSize) ;;
  state ← at_ (io_pinStates d) number;
  '(d, out) ← (if negb state then signal d else Ok (d, []));
  pins ← upd_at (io_pinStates d) number true;
  Ok (d <| io_pinStates := pins |>, out).
Definition raiseInterruptPin (d : IOAPIC) (sys : list ApicContext) (guest number : Z) :=
  raise_with (λ d, signalInterrupt d sys guest number) d number.
Definition raiseInterruptPin_all (d : IOAPIC) (sys : list ApicContext) (number : Z) :=
  raise_with (λ d, signalInterrupt_all d sys number) d number.
Definition lowerInterruptPin (d : IOAPIC) (number : Z) : result IOAPIC :=
  assertb (number <? TableSize) ;;
  pins ← upd_at (io_pinStates d) number false;
  Ok (d <| io_pinStates := pins |>).

(** ** Invariant *)

Record ioapic_wf (d : IOAPIC) : Prop := {
  iw_guests : 0 ≤ io_max_guests d < 0xFF;
  iw_regSel : length (io_regSel d) = Z.to_nat (io_max_guests d);
  iw_pinMask : length (io_pinMask d) = Z.to_nat (io_max_guests d);
  iw_rows : length (io_redirTable d) = Z.to_nat (io_max_guests d);
  iw_row : ∀ row, row ∈ io_redirTable d → length row = Z.to_nat TableSize;
  iw_pinStates : length (io_pinStates d) = Z.to_nat TableSize
}.

Lemma I82094AAP5V_make_wf apic_id max_guests pin_mask d :
  0 ≤ max_guests → I82094AAP5V_make apic_id max_guests pin_mask = Ok d → ioapic_wf d.
Proof.
  intros H0 H. unfold I82094AAP5V_make in H. inv_ok. apply Z.leb_le in E1. apply Z.ltb_lt in E0.
  split; simpl; rewrite ?length_app, ?length_fmap, ?length_seq, ?length_replicate; try lia.
  - by intros row (i & -> & _)%list_elem_of_fmap.
  - done.
Qed.

(** ** Registers *)

Lemma redir_write_same e o v :
  redir_half (redir_write e o v) o = Z.land v (if Z.odd o then 0xFFFF0000 else 0x1FFFF).
Proof.
  unfold redir_half, redir_write, redir_topDW, redir_bottomDW.
  destruct (Z.odd o).
  - change 0xFFFF0000 with (Z.shiftl (Z.ones 16) 16). apply Z.bits_inj'. intros i Hi.
    rewrite bits_testbit, !insertBits_testbit by lia. autorewrite with zbit.
    zbits_cases; try btauto. rewrite andb_true_l, andb_true_r. f_equal. lia.
  - change 0x1FFFF with (Z.ones 17). apply Z.bits_inj'. intros i Hi.
    rewrite bits_testbit, !insertBits_testbit by lia. autorewrite with zbit.
    zbits_cases; try btauto. rewrite andb_true_l, andb_true_r. f_equal. lia.
Qed.

Lemma redir_write_other e o o' v :
  Z.odd o ≠ Z.odd o' → redir_half (redir_write e o v) o' = redir_half e o'.
Proof.
  intros Ho. unfold redir_half, redir_write, redir_topDW, redir_bottomDW.
  destruct (Z.odd o), (Z.odd o'); try done; by rewrite !bits_insertBits_other by lia.
Qed.

(** Index and parity determine the register. *)
Lemma redir_index_inj o o' : (o - 0x10) / 2 = (o' - 0x10) / 2 → Z.odd o = Z.odd o' → o = o'.
Proof.
  intros Hi Ho. pose proof (Z.div_mod (o - 0x10) 2). pose proof (Z.div_mod (o' - 0x10) 2).
  rewrite Zmod_odd, Z.odd_sub, xorb_false_r in *. rewrite Ho in *. destruct (Z.odd o'); lia.
Qed.

Lemma redir_offset_spec o :
  redir_offset o = true → o = 0x40 ∨ (0 ≤ (o - 0x10) / 2 < TableSize ∧ 0x10 ≤ o < 0x40).
Proof.
  unfold redir_offset, TableSize. intros [H1%Z.leb_le H2%Z.leb_le]%andb_true_iff.
  destruct (decide (o = 0x40)); [by left|right].
  split; [|lia]. split; [apply Z.div_pos; lia|apply Z.div_lt_upper_bound; lia].
Qed.

(** The entry behind a register. *)
Definition redir_cell (d : IOAPIC) (g o : Z) : result Z :=
  table ← at_ (io_redirTable d) g; at_ table ((o - 0x10) / 2).

Lemma io_readReg_redir d g o :
  redir_offset o = true → io_readReg d g o = (e ← redir_cell d g o; Ok (redir_half e o)).
Proof.
  intros Ho. unfold io_readReg, redir_cell. rewrite Ho. unfold redir_offset in Ho.
  apply andb_true_iff in Ho as [H1%Z.leb_le _]. repeat (case_match; [lia|]).
  by destruct (at_ (io_redirTable d) g).
Qed.

(** A read of any other register sees only the shared identifiers. *)
Lemma io_readReg_other d d' g g' o :
  redir_offset o = false → io_id d' = io_id d → io_arbId d' = io_arbId d →
  io_readReg d' g' o = io_readReg d g o.
Proof. intros Ho H1 H2. unfold io_readReg. by rewrite Ho, H1, H2. Qed.

Lemma row_total d g : ioapic_wf d → 0 ≤ g < io_max_guests d →
  ∃ row, at_ (io_redirTable d) g = Ok row ∧ length row = Z.to_nat TableSize.
Proof.
  intros W Hg. destruct (at_total (io_redirTable d) g) as [row Hr]; [rewrite (iw_rows _ W); lia|].
  exists row. split; [done|]. apply at_Ok in Hr as [_ Hr]. apply (iw_row _ W). by eapply list_elem_of_lookup_2.
Qed.

Lemma redir_cell_total d g o :
  ioapic_wf d → 0 ≤ g < io_max_guests d → 0 ≤ (o - 0x10) / 2 < TableSize → is_ok (redir_cell d g o).
Proof.
  intros W Hg Ho. unfold redir_cell. destruct (row_total d g W Hg) as (row & -> & Hl). simpl.
  apply at_total. rewrite Hl. lia.
Qed.

Lemma redir_cell_last d g :
  ioapic_wf d → 0 ≤ g < io_max_guests d → redir_cell d g 0x40 = Err OutOfBounds.
Proof.
  intros W Hg. unfold redir_cell. destruct (row_total d g W Hg) as (row & -> & Hl). simpl.
  apply at_out. right. by rewrite Hl.
Qed.

(** A write to the table: one cell changes, nothing else. *)
Lemma io_writeReg_cell d g o v :
  redir_offset o = true →
  io_writeReg d g o v =
    (table ← at_ (io_redirTable d) g; e ← at_ table ((o - 0x10) / 2);
     table ← upd_at table ((o - 0x10) / 2) (redir_write e o v);
     rows ← upd_at (io_redirTable d) g table; Ok (d <| io_redirTable := rows |>)).
Proof.
  intros Ho. unfold io_writeReg. rewrite Ho. unfold redir_offset in Ho.
  apply andb_true_iff in Ho as [H1%Z.leb_le _]. by repeat (case_match; [lia|]).
Qed.

Lemma at_upd_total {A} (l : list A) i a b : at_ l i = Ok a → ∃ l', upd_at l i b = Ok l'.
Proof.
  intros [Hi Hl]%at_Ok. apply lookup_lt_Some in Hl. exists (<[Z.to_nat i:=b]> l). apply upd_at_Ok. split; [lia|done].
Qed.

Lemma io_writeReg_cells d g o v e :
  redir_offset o = true → redir_cell d g o = Ok e →
  ∃ rows, io_writeReg d g o v = Ok (d <| io_redirTable := rows |>) ∧
    redir_cell (d <| io_redirTable := rows |>) g o = Ok (redir_write e o v) ∧
    ∀ g' o', g' ≠ g ∨ (o' - 0x10) / 2 ≠ (o - 0x10) / 2 →
      redir_cell (d <| io_redirTable := rows |>) g' o' = redir_cell d g' o'.
Proof.
  intros Ho Hc. rewrite io_writeReg_cell by done. unfold redir_cell in *. simpl.
  apply bind_Ok_inv in Hc as (table & Ht & He). rewrite Ht. simpl. rewrite He. simpl.
  destruct (at_upd_total _ _ _ (redir_write e o v) He) as [table' Ht']. rewrite Ht'. simpl.
  destruct (at_upd_total _ _ _ table' Ht) as [rows Hr]. rewrite Hr. simpl. exists rows. split; [done|]. split.
  - rewrite (at_upd_eq _ _ _ _ Hr). simpl. by apply at_upd_eq in Ht'.
  - intros g' o' Hne. destruct (decide (g' = g)) as [->|Hg].
    + rewrite (at_upd_eq _ _ _ _ Hr), Ht. simpl. apply (at_upd_ne _ _ _ _ _ Ht'). naive_solver.
    + by rewrite (at_upd_ne _ _ _ _ _ Hr) by done.
Qed.

(** ** Frames *)

(** Only the rotation offset changes while an interrupt is delivered. *)
Definition same_tables (d d' : IOAPIC) : Prop :=
  d' = d <| io_lowestPriorityOffset := io_lowestPriorityOffset d' |>.

Lemma same_tables_refl d : same_tables d d.
Proof. by destruct d. Qed.
Lemma same_tables_trans d1 d2 d3 : same_tables d1 d2 → same_tables d2 d3 → same_tables d1 d3.
Proof. unfold same_tables. intros -> ->. by destruct d1. Qed.

Lemma apic_targets_tables d sys g m d' apics :
  apic_targets d sys g m = Ok (d', apics) → same_tables d d'.
Proof.
  unfold apic_targets, select_lowest. intros H. pose proof (same_tables_refl d).
  repeat case_match; try done; inv_ok; try done.
  destruct a; [done|]. injection H as <- <-. by destruct d.
Qed.

Lemma signalInterrupt_tables d sys g line d' out :
  signalInterrupt d sys g line = Ok (d', out) → same_tables d d'.
Proof.
  unfold signalInterrupt. intros H. pose proof (same_tables_refl d). inv_ok.
  repeat (case_match; [by injection H as <- <-|] || (apply bind_Ok_inv in H as (? & ? & H))).
  destruct x1 as [d1 apics]. injection H as <- <-. by eapply apic_targets_tables.
Qed.

Lemma signalInterrupt_all_tables d sys line d' out :
  signalInterrupt_all d sys line = Ok (d', out) → same_tables d d'.
Proof.
  intros H. unfold signalInterrupt_all in H.
  assert (same_tables d ((d', out).1)) as Hs; [|done].
  refine (foldM_inv (λ s, same_tables d s.1) _ (d, []) _ _ (same_tables_refl d) _ H).
  intros [d1 o1] g [d2 o2] _ Hd Hf. simpl in *. inv_ok. case_match; [by injection Hf as <- <-|].
  apply bind_Ok_inv in Hf as ([d3 o3] & Hs & [= <- <-]). eapply same_tables_trans; [done|].
  by eapply signalInterrupt_tables.
Qed.

Lemma raise_with_spec signal d number d' out :
  (∀ d1 o1, signal d = Ok (d1, o1) → same_tables d d1) →
  raise_with signal d number = Ok (d', out) →
  ∃ k pins, upd_at (io_pinStates d) number true = Ok pins ∧
    d' = d <| io_lowestPriorityOffset := k |> <| io_pinStates := pins |> ∧
    (at_ (io_pinStates d) number = Ok true → out = []).
Proof.
  intros Hs H. unfold raise_with in H. inv_ok. destruct a1 as [d1 o1]. rename E1 into H1.
  apply bind_Ok_inv in H as (pins & Hp & [= <- <-]).
  assert (same_tables d d1) as Hd.
  { destruct (negb a0); [by eapply Hs|]. injection H1 as <- <-. apply same_tables_refl. }
  exists (io_lowestPriorityOffset d1), pins.
  assert (io_pinStates d1 = io_pinStates d) as Hps by (by rewrite Hd). rewrite Hps in Hp.
  split; [done|]. split; [clear -Hd; destruct d, d1; injection Hd; intros; subst; reflexivity|].
  intros Ht. rewrite E0 in Ht. injection Ht as ->. by injection H1.
Qed.

(** What a guest owns of the device. *)
Definition guest_view (d : IOAPIC) (h : Z) : Z * result Z * result Z * result (list Z) :=
  (io_max_guests d, at_ (io_regSel d) h, at_ (io_pinMask d) h, at_ (io_redirTable d) h).

(** The operations a guest or its devices cause: register writes tagged with
    the guest, and its interrupt pins. *)
Inductive io_step (g : Z) : IOAPIC → IOAPIC → Prop :=
| io_step_write d pioAddr p d' p' :
    PKT_TO_GUESTID p = Ok g → io_write d pioAddr p = Ok (d', p') → io_step g d d'
| io_step_raise d sys number d' out :
    raiseInterruptPin d sys g number = Ok (d', out) → io_step g d d'
| io_step_raise_all d sys number d' out :
    raiseInterruptPin_all d sys number = Ok (d', out) → io_step g d d'
| io_step_lower d number d' :
    lowerInterruptPin d number = Ok d' → io_step g d d'.

Lemma io_writeReg_view d g o v d' h :
  io_writeReg d g o v = Ok d' → h ≠ g → guest_view d' h = guest_view d h.
Proof.
  intros H Hne. unfold io_writeReg in H. repeat case_match; inv_ok; try done.
  unfold guest_view. simpl. f_equal. by apply (at_upd_ne _ _ _ _ _ E2).
Qed.

Lemma io_step_view g d d' h : io_step g d d' → h ≠ g → guest_view d' h = guest_view d h.
Proof.
  intros Hst Hne. destruct Hst as [d pioAddr p d' p' Hg H|d sys n d' out H|d sys n d' out H|d n d' H].
  - unfold io_write in H. inv_ok. rewrite Hg in E2. injection E2 as <-.
    repeat case_match; inv_ok; [|by eapply io_writeReg_view]. unfold guest_view. simpl.
    do 2 f_equal. f_equal. by eapply at_upd_ne.
  - apply raise_with_spec in H as (k & pins & _ & -> & _); [done|]. intros. by eapply signalInterrupt_tables.
  - apply raise_with_spec in H as (k & pins & _ & -> & _); [done|]. intros. by eapply signalInterrupt_all_tables.
  - unfold lowerInterruptPin in H. by inv_ok.
Qed.

(** An interrupt depends on the guest's view and the rotation offset only. *)
Lemma apic_targets_offset d d' sys g m :
  io_lowestPriorityOffset d' = io_lowestPriorityOffset d →
  snd <$> apic_targets d' sys g m = snd <$> apic_targets d sys g m.
Proof.
  intros Ho. unfold apic_targets, select_lowest. rewrite Ho. repeat case_match; try done.
  by destruct (apic_advance _ _) as [[|]|].
Qed.

Lemma signalInterrupt_view d d' sys h line :
  guest_view d' h = guest_view d h → io_lowestPriorityOffset d' = io_lowestPriorityOffset d →
  snd <$> signalInterrupt d' sys h line = snd <$> signalInterrupt d sys h line.
Proof.
  intros [= H1 H2 H3 H4] Ho. unfold signalInterrupt. rewrite H1, H3, H4.
  repeat match goal with
  | |- _ <$> (?x ≫= _) = _ <$> (?x ≫= _) => destruct x; cbn [mbind result_bind]; [|reflexivity]
  | |- _ <$> (if ?x then _ else _) = _ => destruct x; [reflexivity|]
  end.
  match goal with |- context [trigger_message ?e] => generalize (trigger_message e) as m; intros m end.
  pose proof (apic_targets_offset d d' sys h m Ho) as Ht.
  destruct (apic_targets d' sys h m) as [[]|], (apic_targets d sys h m) as [[]|]; cbn in *; by simplify_eq.
Qed.

(** ** Well-formedness is kept *)

Lemma elem_of_upd {A} (l l' : list A) i a x : upd_at l i a = Ok l' → x ∈ l' → x = a ∨ x ∈ l.
Proof.
  intros [_ ->]%upd_at_Ok (j & Hj)%list_elem_of_lookup. apply list_lookup_insert_Some in Hj as [(_ & <- & _)|[_ Hj]].
  - by left.
  - right. by eapply list_elem_of_lookup_2.
Qed.

Lemma io_writeReg_wf d g o v d' : ioapic_wf d → io_writeReg d g o v = Ok d' → ioapic_wf d'.
Proof.
  intros W H. unfold io_writeReg in H. repeat case_match; inv_ok; try (by destruct W; split).
  destruct W as [W1 W2 W3 W4 W5 W6]. split; simpl; try done.
  - by rewrite (upd_at_length _ _ _ _ E2).
  - intros row [->|Hr]%(elem_of_upd _ _ _ _ _ E2); [|by apply W5]. rewrite (upd_at_length _ _ _ _ E1). apply W5.
    apply at_Ok in E as [_ E]. by eapply list_elem_of_lookup_2.
Qed.

Lemma io_step_wf g d d' : io_step g d d' → ioapic_wf d → ioapic_wf d'.
Proof.
  intros Hst W. destruct Hst as [d pioAddr p d' p' Hg H|d sys n d' out H|d sys n d' out H|d n d' H].
  - unfold io_write in H. inv_ok. repeat case_match; inv_ok; [|by eapply io_writeReg_wf].
    destruct W as [W1 W2 W3 W4 W5 W6]. split; simpl; try done. by erewrite upd_at_length by eassumption.
  - apply raise_with_spec in H as (k & pins & Hp & -> & _); [|intros; by eapply signalInterrupt_tables].
    destruct W as [W1 W2 W3 W4 W5 W6]. split; simpl; try done. by rewrite (upd_at_length _ _ _ _ Hp).
  - apply raise_with_spec in H as (k & pins & Hp & -> & _); [|intros; by eapply signalInterrupt_all_tables].
    destruct W as [W1 W2 W3 W4 W5 W6]. split; simpl; try done. by rewrite (upd_at_length _ _ _ _ Hp).
  - unfold lowerInterruptPin in H. inv_ok. destruct W as [W1 W2 W3 W4 W5 W6]. split; simpl; try done.
    by rewrite (upd_at_length _ _ _ _ E0).
Qed.

(** ** Delivery *)

Lemma apic_advance_drop l n : (n < length l)%nat → apic_advance l n = Ok (drop n l).
Proof.
  revert l. induction n as [|n IH]; intros [|a l] Hn; simpl in *; try done; try lia.
  rewrite IH by lia. destruct l; [simpl in *; lia|done].
Qed.

Lemma select_lowest_spec d apics :
  apics ≠ [] →
  ∃ a, apics !! Z.to_nat (io_lowestPriorityOffset d mod Z.of_nat (length apics)) = Some a ∧
    select_lowest d apics =
      Ok (d <| io_lowestPriorityOffset := wrap 64 (io_lowestPriorityOffset d + 1) |>, [a]).
Proof.
  intros Hne. assert (0 < Z.of_nat (length apics)) as Hl by (destruct apics; simpl; [done|lia]).
  pose proof (Z.mod_pos_bound (io_lowestPriorityOffset d) _ Hl).
  destruct (lookup_lt_is_Some_2 apics (Z.to_nat (io_lowestPriorityOffset d mod Z.of_nat (length apics))))
    as [a Ha]; [lia|].
  exists a. split; [done|]. unfold select_lowest. rewrite apic_advance_drop by lia.
  cbn [mbind result_bind]. by rewrite (drop_S _ _ _ Ha).
Qed.

(** The fields of a message are those of its entry. *)
Lemma trigger_message_fields e :
  msg_destination (trigger_message e) = redir_dest e ∧ msg_vector (trigger_message e) = redir_vector e ∧
  msg_deliveryMode (trigger_message e) = redir_deliveryMode e ∧ msg_destMode (trigger_message e) = redir_destMode e.
Proof.
  assert (∀ f l, 0 ≤ l ∧ l ≤ f < 64 → wrap (f - l + 1) (bits e f l) = bits e f l) as Hb.
  { intros. apply wrap_small. by apply bits_width. }
  unfold msg_destination, msg_vector, msg_deliveryMode, msg_destMode, trigger_message. cbv zeta.
  split; [|split; [|split]];
    repeat (rewrite bits_insertBits_other by lia); rewrite bits_insertBits by lia.
  - apply (Hb 63 56); lia.
  - apply (Hb 7 0); lia.
  - apply (Hb 10 8); lia.
  - apply (Hb 11 11); lia.
Qed.

Lemma int_bit_total line : 0 ≤ line < TableSize → int_bit line = Ok (Z.shiftl 1 line).
Proof.
  unfold TableSize, int_bit. intros H. destruct (Z.leb_spec 0 line), (Z.ltb_spec line 31); simpl; try done; lia.
Qed.

(** The entry that routes a line of a guest, and whether the line is open. *)
Definition routed (d : IOAPIC) (g line pins entry : Z) : Prop :=
  at_ (io_pinMask d) g = Ok pins ∧ ∃ row, at_ (io_redirTable d) g = Ok row ∧ at_ row line = Ok entry.
Definition line_open (pins entry line : Z) : bool :=
  Z.testbit pins line && (redir_mask entry =? 0) && negb (redir_deliveryMode entry =? ExtInt).

Lemma routed_total d g line :
  ioapic_wf d → 0 ≤ g < io_max_guests d → 0 ≤ line < TableSize → ∃ pins entry, routed d g line pins entry.
Proof.
  intros W Hg Hl. destruct (at_total (io_pinMask d) g) as [pins Hp]; [rewrite (iw_pinMask _ W); lia|].
  destruct (row_total d g W Hg) as (row & Hr & Hlen).
  destruct (at_total row line) as [e He]; [rewrite Hlen; lia|]. exists pins, e. by split; [|exists row].
Qed.

Lemma signalInterrupt_routed d sys g line pins entry :
  g < io_max_guests d → 0 ≤ line < TableSize → routed d g line pins entry →
  signalInterrupt d sys g line =
    if line_open pins entry line
    then '(d', apics) ← apic_targets d sys g (trigger_message entry);
         Ok (d', sendMessage apics (trigger_message entry))
    else Ok (d, []).
Proof.
  intros Hg Hl (Hp & row & Hr & He). unfold signalInterrupt, line_open.
  destruct (Z.ltb_spec g (io_max_guests d)); [|lia]. destruct (Z.ltb_spec line TableSize); [|lia].
  cbn [assertb mbind result_bind]. rewrite Hp. cbn [mbind result_bind]. rewrite int_bit_total by done.
  cbn [mbind result_bind]. rewrite land_bit_zero by lia. destruct (Z.testbit pins line); cbn [negb andb]; [|done].
  rewrite Hr. cbn [mbind result_bind]. rewrite He. cbn [mbind result_bind].
  by destruct (redir_mask entry =? 0), (redir_deliveryMode entry =? ExtInt).
Qed.

Lemma sendMessage_elem apics m a x : (a, x) ∈ sendMessage apics m → x = m ∧ ∃ b, b ∈ apics ∧ a = wrap 8 b.
Proof. unfold sendMessage. intros (b & [= -> ->] & Hb)%list_elem_of_fmap. eauto. Qed.

Lemma logical_apics_elem sys g dest b :
  b ∈ logical_apics sys g dest →
  ∃ tc, tc ∈ sys ∧ Z.land (tc_QR0 tc) 0xFF = g ∧ Z.land (Z.shiftr (tc_LDR tc) 24) dest ≠ 0 ∧ b = tc_initialApicId tc.
Proof.
  unfold logical_apics. intros (tc & -> & Ht)%list_elem_of_fmap. apply list_elem_of_filter in Ht as [[? ?] ?]. eauto.
Qed.

(** The targets of a logical message: the selected APICs, or one of them. *)
Lemma logical_targets d sys g m :
  msg_destMode m ≠ 0 →
  ∃ d' apics, apic_targets d sys g m = Ok (d', apics) ∧
    apics ⊆ logical_apics sys g (msg_destination m) ∧
    (msg_deliveryMode m = LowestPriority → length apics ≤ 1)%nat.
Proof.
  intros Hm. unfold apic_targets. destruct (Z.eqb_spec (msg_destMode m) 0); [done|].
  set (l := logical_apics _ _ _). destruct (Z.eqb_spec (msg_deliveryMode m) LowestPriority); simpl.
  - case_bool_decide as Hl; simpl.
    + exists d, l. split; [done|]. split; [done|]. intros _. rewrite Hl. simpl. lia.
    + destruct (select_lowest_spec d l) as (a & Ha & ->); [done|]. eexists _, [a]. split; [done|]. split; [|done].
      intros x Hx. apply list_elem_of_singleton in Hx as ->. by eapply list_elem_of_lookup_2.
  - by exists d, l.
Qed.

(** Repeated signals on a line. *)
Fixpoint signal_times (n : nat) (d : IOAPIC) (sys : list ApicContext) (g line : Z)
  : result (IOAPIC * list (Z * Z)) :=
  match n with
  | O => Ok (d, [])
  | S n => '(d, out) ← signalInterrupt d sys g line;
           '(d, outs) ← signal_times n d sys g line; Ok (d, out ++ outs)
  end.

Lemma routed_offset d g line pins entry k :
  routed d g line pins entry → routed (d <| io_lowestPriorityOffset := k |>) g line pins entry.
Proof. done. Qed.

Lemma signal_lowest d sys g line pins entry :
  g < io_max_guests d → 0 ≤ line < TableSize → routed d g line pins entry →
  line_open pins entry line = true → redir_destMode entry ≠ 0 → redir_deliveryMode entry = LowestPriority →
  logical_apics sys g (redir_dest entry) ≠ [] →
  ∃ a, logical_apics sys g (redir_dest entry)
         !! Z.to_nat (io_lowestPriorityOffset d mod Z.of_nat (length (logical_apics sys g (redir_dest entry)))) = Some a ∧
    signalInterrupt d sys g line =
      Ok (d <| io_lowestPriorityOffset := wrap 64 (io_lowestPriorityOffset d + 1) |>,
          [(wrap 8 a, trigger_message entry)]).
Proof.
  intros Hg Hl Hr Ho Hd Hm Hne. rewrite (signalInterrupt_routed d sys g line pins entry), Ho by done.
  destruct (trigger_message_fields entry) as (F1 & F2 & F3 & F4). unfold apic_targets.
  rewrite F1, F3, F4. destruct (Z.eqb_spec (redir_destMode entry) 0); [done|]. rewrite Hm. simpl.
  rewrite bool_decide_eq_false_2 by done. simpl. destruct (select_lowest_spec d _ Hne) as (a & Ha & ->).
  by exists a.
Qed.

(** [n] signals visit [n] consecutive positions of the list, modulo its length. *)
Lemma signal_times_lowest n d sys g line pins entry :
  g < io_max_guests d → 0 ≤ line < TableSize → routed d g line pins entry →
  line_open pins entry line = true → redir_destMode entry ≠ 0 → redir_deliveryMode entry = LowestPriority →
  logical_apics sys g (redir_dest entry) ≠ [] →
  0 ≤ io_lowestPriorityOffset d → io_lowestPriorityOffset d + Z.of_nat n < 2 ^ 64 →
  ∃ sel, signal_times n d sys g line =
      Ok (d <| io_lowestPriorityOffset := io_lowestPriorityOffset d + Z.of_nat n |>,
          sendMessage sel (trigger_message entry)) ∧ length sel = n ∧
    ∀ k, (k < n)%nat → sel !! k = logical_apics sys g (redir_dest entry)
      !! ((Z.to_nat (io_lowestPriorityOffset d) + k) mod length (logical_apics sys g (redir_dest entry)))%nat.
Proof.
  intros Hg Hl. revert d Hg. induction n as [|n IH]; intros d Hg Hr Ho Hd Hm Hne H0 Hb.
  - exists []. split; [|split; [done|lia]]. simpl. rewrite Z.add_0_r. by destruct d.
  - destruct (signal_lowest d sys g line pins entry Hg Hl Hr Ho Hd Hm Hne) as (a & Ha & Hs).
    cbn [signal_times]. rewrite Hs. cbn [mbind result_bind].
    rewrite (wrap_small 64) by (unfold in_width; lia).
    destruct (IH (d <| io_lowestPriorityOffset := io_lowestPriorityOffset d + 1 |>))
      as (sel & -> & Hlen & Hsel); [done..|simpl; lia|simpl; lia|].
    exists (a :: sel). split; [|split; [simpl; lia|]].
    + cbn [mbind result_bind]. do 2 f_equal. unfold setf. simpl. f_equal. lia.
    + intros [|k] Hk; simpl.
      * rewrite Nat.add_0_r, <-Ha. f_equal. destruct (logical_apics _ _ _) as [|x l]; [done|].
        rewrite Z2Nat.inj_mod by (simpl; lia). by rewrite Nat2Z.id.
      * rewrite Hsel by lia. f_equal. simpl. f_equal. lia.
Qed.

(** ** Properties *)

(** Redirection registers.  A guest reads back what it wrote to a register
    of its table, with the reserved bits cleared (bits 16 to 0 of the low half,
    31 to 16 of the high half); every other redirection register of every guest
    reads as before, and so do the identifiers.  The register number 0x40, which
    the range check of the code admits, faults in both directions: it selects
    entry 24 of a table of 24. *)
Theorem redir_register_roundtrip (d : IOAPIC) (g o v : Z) :
  ioapic_wf d → 0 ≤ g < io_max_guests d → redir_offset o = true →
  (o = 0x40 → io_writeReg d g o v = Err OutOfBounds ∧ io_readReg d g o = Err OutOfBounds) ∧
  (o ≠ 0x40 → ∃ d', io_writeReg d g o v = Ok d' ∧ ioapic_wf d' ∧
    io_readReg d' g o = Ok (Z.land v (if Z.odd o then 0xFFFF0000 else 0x1FFFF)) ∧
    ∀ g' o', (g', o') ≠ (g, o) → io_readReg d' g' o' = io_readReg d g' o').
Proof.
  intros W Hg Ho. split.
  - intros ->. rewrite io_readReg_redir, io_writeReg_cell by done.
    pose proof (redir_cell_last d g W Hg) as Hc. rewrite Hc. split; [|done]. unfold redir_cell in Hc.
    destruct (at_ (io_redirTable d) g); [|by injection Hc as ->]. simpl in *. by rewrite Hc.
  - intros Hne. destruct (redir_offset_spec o Ho) as [|[Hi _]]; [done|].
    destruct (redir_cell_total d g o W Hg Hi) as [e He].
    destruct (io_writeReg_cells d g o v e Ho He) as (rows & Hw & Hc & Hoth). eexists. split; [done|].
    split; [by eapply io_writeReg_wf|]. split.
    + rewrite io_readReg_redir, Hc by done. simpl. by rewrite redir_write_same.
    + intros g' o' Hgo. destruct (redir_offset o') eqn:Ho'; [|by apply io_readReg_other].
      rewrite !io_readReg_redir by done.
      destruct (decide (g' = g ∧ (o' - 0x10) / 2 = (o - 0x10) / 2)) as [[-> Hx]|Hx].
      * assert (redir_cell d g o' = redir_cell d g o) as He' by (unfold redir_cell; by rewrite Hx).
        assert (redir_cell (d <| io_redirTable := rows |>) g o' = Ok (redir_write e o v)) as ->
          by (rewrite <-Hc; unfold redir_cell; by rewrite Hx).
        rewrite He', He. simpl. f_equal. apply redir_write_other. intros Hp. apply Hgo. f_equal.
        by apply redir_index_inj.
      * rewrite Hoth; [done|]. by destruct (decide (g' = g)) as [->|]; [right; intros ?; apply Hx|left].
Qed.

(** Two guests that own pin 5; guest 0 routes it with lowest priority to the
    logical destinations 1 and 2. *)
Definition demo_ioapic : IOAPIC :=
  mkIOAPIC 1 1 1 [0; 0] 0 2 [32; 32]
    [replicate 5 0x10000 ++ [0x0300000000000931] ++ replicate 18 0x10000; replicate 24 0x1000000010000]
    (replicate 24 false).
Definition demo_raised : IOAPIC := demo_ioapic <| io_pinStates := <[5%nat := true]> (replicate 24 false) |>.
Definition demo_contexts : list ApicContext :=
  [mkContext 0 0x01000000 0; mkContext 0 0x02000000 1; mkContext 1 0x01000000 2].

Lemma demo_ioapic_wf : ioapic_wf demo_ioapic.
Proof.
  split; try done. intros row Hr. repeat (apply elem_of_cons in Hr as [->|Hr]; [done|]). by apply elem_of_nil in Hr.
Qed.

Lemma redir_register_roundtrip_witness :
  io_writeReg demo_ioapic 1 0x40 7 = Err OutOfBounds ∧
  ∃ d', io_writeReg demo_ioapic 1 0x1B 0x02ABCDEF = Ok d' ∧ io_readReg d' 1 0x1B = Ok 0x02AB0000.
Proof.
  split; [apply (redir_register_roundtrip demo_ioapic 1 0x40 7 demo_ioapic_wf); done|].
  destruct (redir_register_roundtrip demo_ioapic 1 0x1B 0x02ABCDEF demo_ioapic_wf) as [_ H]; [done|done|].
  destruct H as (d' & H1 & _ & H2 & _); [done|]. by exists d'.
Defined.

(** Interrupts of two states in which a guest owns the same. *)
Lemma routed_view d d' h line pins entry :
  guest_view d' h = guest_view d h → routed d h line pins entry → routed d' h line pins entry.
Proof. intros [= H1 H2 H3 H4] (Hp & row & Hr & He). split; [by rewrite H3|]. exists row. by rewrite H4. Qed.

(** Only lowest-priority delivery reads the rotation. *)
Lemma apic_targets_fixed d d' sys g m :
  msg_deliveryMode m ≠ LowestPriority → snd <$> apic_targets d' sys g m = snd <$> apic_targets d sys g m.
Proof.
  intros Hm. unfold apic_targets. destruct (Z.eqb_spec (msg_deliveryMode m) LowestPriority); [done|]. by repeat case_match.
Qed.
Lemma signal_fixed d d' sys h line pins entry :
  h < io_max_guests d → 0 ≤ line < TableSize → guest_view d' h = guest_view d h → routed d h line pins entry →
  redir_deliveryMode entry ≠ LowestPriority → snd <$> signalInterrupt d' sys h line = snd <$> signalInterrupt d sys h line.
Proof.
  intros Hh Hl Hv Hr Hm. pose proof (routed_view _ _ _ _ _ _ Hv Hr) as Hr'. assert (io_max_guests d' = io_max_guests d) as Hg by (by injection Hv).
  rewrite (signalInterrupt_routed d sys h line pins entry), (signalInterrupt_routed d' sys h line pins entry) by (done || lia).
  destruct (line_open pins entry line); [|done]. destruct (trigger_message_fields entry) as (_ & _ & F3 & _). rewrite <-F3 in Hm.
  clear F3. generalize dependent (trigger_message entry). intros m Hm. pose proof (apic_targets_fixed d d' sys h m Hm) as Ht.
  destruct (apic_targets d' sys h m) as [[]|], (apic_targets d sys h m) as [[]|]; cbn in *; by simplify_eq.
Qed.

(** With lowest priority the message goes to one of the selected APICs. *)
Lemma signal_rotated d sys h line pins entry d1 out :
  h < io_max_guests d → 0 ≤ line < TableSize → routed d h line pins entry → redir_deliveryMode entry = LowestPriority →
  signalInterrupt d sys h line = Ok (d1, out) →
  let apics := logical_apics sys h (redir_dest entry) in
  out.*2 = (if line_open pins entry line && negb (bool_decide (apics = [])) then [trigger_message entry] else []) ∧
  ∀ a, a ∈ out.*1 → a ∈ wrap 8 <$> apics.
Proof.
  intros Hh Hl Hr Hm H apics. destruct (line_open pins entry line) eqn:Ho.
  2:{ rewrite (signalInterrupt_routed d sys h line pins entry), Ho in H by done. injection H as <- <-. split; [done|]. intros a []%elem_of_nil. }
  destruct (trigger_message_fields entry) as (F1 & F2 & F3 & F4). destruct (decide (redir_destMode entry = 0)) as [Hz|Hz].
  { rewrite (signalInterrupt_routed d sys h line pins entry), Ho in H by done. unfold apic_targets in H. rewrite F3, F4, Hz, Hm in H. done. }
  destruct (decide (apics = [])) as [He|He].
  - rewrite (signalInterrupt_routed d sys h line pins entry), Ho in H by done. unfold apic_targets in H. rewrite F1, F3, F4, Hm in H.
    rewrite (proj2 (Z.eqb_neq _ _) Hz) in H. fold apics in H. rewrite He in *. rewrite bool_decide_eq_true_2 by done. cbn in H. injection H as <- <-.
    split; [done|]. intros a []%elem_of_nil.
  - destruct (signal_lowest d sys h line pins entry) as (a & Ha & Hs); [done..|]. rewrite Hs in H. injection H as <- <-.
    rewrite bool_decide_eq_false_2 by done. split; [done|]. intros b ->%list_elem_of_singleton. apply list_elem_of_fmap. exists a. split; [done|].
    by eapply list_elem_of_lookup_2.
Qed.

(** The pin gates the signal. *)
Lemma raise_gated d sys h number b :
  0 ≤ number < TableSize → at_ (io_pinStates d) number = Ok b →
  snd <$> raiseInterruptPin d sys h number = if b then Ok [] else snd <$> signalInterrupt d sys h number.
Proof.
  intros Hn Hb. unfold raiseInterruptPin, raise_with. rewrite (proj2 (Z.ltb_lt _ _) (proj2 Hn)), Hb. cbn [assertb mbind result_bind].
  apply at_Ok in Hb as [Hi Hb]. pose proof (lookup_lt_Some _ _ _ Hb) as Hlen. destruct b; cbn [negb].
  - cbn [mbind result_bind]. unfold upd_at. rewrite decide_True by lia. done.
  - destruct (signalInterrupt d sys h number) as [[d1 out]|] eqn:E; [|done]. apply signalInterrupt_tables in E. cbn [mbind result_bind].
    assert (io_pinStates d1 = io_pinStates d) as -> by (by rewrite E). unfold upd_at. rewrite decide_True by lia. done.
Qed.

(** C20: what the guests of the interrupt controller share and what they do not.
    Whatever register writes, pin changes and broadcasts the other guests and
    their devices cause, a guest's select register, pin mask and redirection
    table are unchanged and its redirection registers read as before.  An
    interrupt signalled on one of its lines then sends the same messages to the
    same local APICs as it would have before, unless the entry asks for lowest
    priority: the rotation is shared, so the same message goes to one, possibly
    another one, of the same selected APICs.  The pin states are shared too: a
    raise of the guest's pin signals the line exactly if no guest has left that
    pin raised, and sends nothing otherwise. *)
Theorem ioapic_isolation (h : Z) (d d' : IOAPIC) :
  ioapic_wf d → 0 ≤ h < io_max_guests d → rtc (λ d d', ∃ g, g ≠ h ∧ io_step g d d') d d' →
  ioapic_wf d' ∧ guest_view d' h = guest_view d h ∧
  (∀ o, redir_offset o = true → io_readReg d' h o = io_readReg d h o) ∧
  ∀ sys line, 0 ≤ line < TableSize →
    ∃ pins entry, routed d h line pins entry ∧ routed d' h line pins entry ∧
      (redir_deliveryMode entry ≠ LowestPriority → snd <$> signalInterrupt d' sys h line = snd <$> signalInterrupt d sys h line) ∧
      (redir_deliveryMode entry = LowestPriority →
         ∀ d1 out d2 out', signalInterrupt d sys h line = Ok (d1, out) → signalInterrupt d' sys h line = Ok (d2, out') →
           out'.*2 = out.*2 ∧ ∀ a, a ∈ out.*1 ++ out'.*1 → a ∈ wrap 8 <$> logical_apics sys h (redir_dest entry)) ∧
      ∃ raised, at_ (io_pinStates d') line = Ok raised ∧
        snd <$> raiseInterruptPin d' sys h line = if raised then Ok [] else snd <$> signalInterrupt d' sys h line.
Proof.
  intros W Hh Hr.
  assert (ioapic_wf d' ∧ guest_view d' h = guest_view d h) as [W' Hv].
  { clear Hh. induction Hr as [d|d d1 d' (g & Hg & Hs) _ IH]; [done|].
    destruct IH as [W' Hv]; [by eapply io_step_wf|]. split; [done|]. rewrite Hv. by eapply io_step_view. }
  assert (io_max_guests d' = io_max_guests d) as Hg by (by injection Hv).
  split; [done|]. split; [done|]. split.
  - intros o Ho. rewrite !io_readReg_redir by done. unfold redir_cell. by injection Hv as _ _ _ ->.
  - intros sys line Hl. destruct (routed_total d h line W Hh Hl) as (pins & entry & Ht). pose proof (routed_view _ _ _ _ _ _ Hv Ht) as Ht'.
    exists pins, entry. split; [done|]. split; [done|]. split; [intros Hm; eapply signal_fixed; (done || lia)|]. split.
    + intros Hm d1 out d2 out' E1 E2. destruct (signal_rotated d sys h line pins entry d1 out) as [A1 B1]; [lia|done..|].
      destruct (signal_rotated d' sys h line pins entry d2 out') as [A2 B2]; [lia|done..|]. split; [by rewrite A1, A2|].
      intros a [Ha|Ha]%elem_of_app; auto.
    + destruct (at_total (io_pinStates d') line) as [b Hb]; [rewrite (iw_pinStates _ W'); lia|]. exists b. split; [done|]. by apply raise_gated.
Qed.

Lemma ioapic_isolation_witness :
  io_step 1 demo_ioapic demo_raised ∧
  guest_view demo_raised 0 = guest_view demo_ioapic 0.
Proof.
  assert (io_step 1 demo_ioapic demo_raised) as Hs.
  { apply (io_step_raise 1 demo_ioapic demo_contexts 5 _ []). vm_compute. reflexivity. }
  split; [exact Hs|]. apply (ioapic_isolation 0 demo_ioapic _ demo_ioapic_wf); [done|].
  apply rtc_once. exists 1. split; [done|exact Hs].
Defined.

(** C32: delivery of an interrupt.  A line that the guest does not own, or whose
    entry is masked or asks for an external vector, sends nothing; the only
    failure is the panic on lowest priority in physical mode; a message carries
    the vector of the entry and, with a logical destination, goes only to local
    APICs of processors tagged with that guest that the destination selects, to
    at most one of them in lowest-priority mode. *)
Theorem signal_delivery (d : IOAPIC) (sys : list ApicContext) (g line : Z) :
  ioapic_wf d → 0 ≤ g < io_max_guests d → 0 ≤ line < TableSize →
  ∃ pins entry, routed d g line pins entry ∧
    (line_open pins entry line = false → signalInterrupt d sys g line = Ok (d, [])) ∧
    (is_ok (signalInterrupt d sys g line) ↔
       ¬ (line_open pins entry line = true ∧ redir_destMode entry = 0 ∧ redir_deliveryMode entry = LowestPriority)) ∧
    (∀ d' out, signalInterrupt d sys g line = Ok (d', out) →
       (∀ a m, (a, m) ∈ out → line_open pins entry line = true ∧ msg_vector m = redir_vector entry ∧
          (redir_destMode entry ≠ 0 → ∃ tc, tc ∈ sys ∧ Z.land (tc_QR0 tc) 0xFF = g ∧
             Z.land (Z.shiftr (tc_LDR tc) 24) (redir_dest entry) ≠ 0 ∧ a = wrap 8 (tc_initialApicId tc))) ∧
       (redir_deliveryMode entry = LowestPriority → length out ≤ 1)%nat).
Proof.
  intros W Hg Hl. destruct (routed_total d g line W Hg Hl) as (pins & entry & Hr). exists pins, entry.
  split; [done|]. rewrite (signalInterrupt_routed d sys g line pins entry) by (done || lia).
  destruct (trigger_message_fields entry) as (F1 & F2 & F3 & F4).
  generalize dependent (trigger_message entry). intros msg F1 F2 F3 F4.
  destruct (line_open pins entry line); cycle 1.
  { split; [done|]. split; [split; [by intros _ [? _]|by eexists]|]. intros d' out [= <- <-].
    split; [|simpl; lia]. intros a m Hm. by apply elem_of_nil in Hm. }
  split; [done|]. destruct (Z.eqb_spec (redir_destMode entry) 0) as [Hz|Hnz].
  - unfold apic_targets. rewrite F1, F3, F4, Hz, Z.eqb_refl.
    destruct (Z.eqb_spec (redir_deliveryMode entry) LowestPriority) as [Hlp|Hlp]; cbn [mbind result_bind].
    { split; [|done]. split; [by intros [? ?]|]. intros H. by destruct H. }
    split.
    { split; [by intros _ (_ & _ & ?)|]. intros _. by destruct (_ =? _); eexists. }
    intros d' out Hout. split; [|done]. intros a m Hm. split; [done|]. split; [|done].
    assert (∃ l, out = sendMessage l msg) as [l ->]; [|by apply sendMessage_elem in Hm as [-> _]].
    destruct (redir_dest entry =? 255); cbn [mbind result_bind] in Hout;
      [exists (Z.of_nat <$> seq 0 (length sys)) | exists [redir_dest entry]]; congruence.
  - destruct (logical_targets d sys g msg) as (d1 & apics & -> & Hsub & Hone); [by rewrite F4|].
    cbn [mbind result_bind]. split; [split; [by intros _ (_ & ? & _)|by eexists]|]. intros d' out [= <- <-]. rewrite F3 in Hone.
    split; [|unfold sendMessage; by rewrite length_fmap]. intros a m (-> & b & Hb & ->)%sendMessage_elem.
    split; [done|]. split; [done|]. intros _. apply Hsub in Hb. rewrite F1 in Hb.
    apply logical_apics_elem in Hb as (tc & ? & ? & ? & ->). by exists tc.
Qed.

Lemma signal_delivery_witness :
  is_ok (signalInterrupt demo_ioapic demo_contexts 0 5) ∧ is_ok (signalInterrupt demo_ioapic demo_contexts 1 5).
Proof.
  split.
  - destruct (signal_delivery demo_ioapic demo_contexts 0 5 demo_ioapic_wf) as (pins & entry & Hr & _ & H & _);
      [done|done|]. apply H. destruct Hr as (_ & row & [= <-] & [= <-]). vm_compute. naive_solver.
  - destruct (signal_delivery demo_ioapic demo_contexts 1 5 demo_ioapic_wf) as (pins & entry & Hr & _ & H & _);
      [done|done|]. apply H. destruct Hr as (_ & row & [= <-] & [= <-]). vm_compute. naive_solver.
Defined.

(** Lowest-priority delivery is fair.  As many interrupts on a line as its
    logical destination selects local APICs reach each of these exactly once, in
    the rotation that starts at the current offset, and no step of the search
    runs off the list. *)
Theorem lowest_priority_fair (d : IOAPIC) (sys : list ApicContext) (g line pins entry : Z) (apics : list Z) :
  g < io_max_guests d → 0 ≤ line < TableSize → routed d g line pins entry →
  line_open pins entry line = true → redir_destMode entry ≠ 0 → redir_deliveryMode entry = LowestPriority →
  apics = logical_apics sys g (redir_dest entry) → apics ≠ [] →
  0 ≤ io_lowestPriorityOffset d → io_lowestPriorityOffset d + Z.of_nat (length apics) < 2 ^ 64 →
  ∃ d', signal_times (length apics) d sys g line =
      Ok (d', sendMessage (rotate (Z.to_nat (io_lowestPriorityOffset d)) apics) (trigger_message entry)) ∧
    rotate (Z.to_nat (io_lowestPriorityOffset d)) apics ≡ₚ apics.
Proof.
  intros Hg Hl Hr Ho Hd Hm -> Hne H0 Hb.
  destruct (signal_times_lowest _ d sys g line pins entry Hg Hl Hr Ho Hd Hm Hne H0 Hb) as (sel & -> & Hlen & Hsel).
  eexists. split; [|unfold rotate; etrans; [apply Permutation_app_comm|by rewrite take_drop]].
  do 3 f_equal. apply list_eq_same_length with (n := length sel); [by rewrite length_rotate|done|].
  intros k x y Hk Hx Hy. rewrite Hsel in Hx by lia. rewrite lookup_rotate_r in Hy by lia.
  unfold rotate_nat_add in Hy. rewrite <-Nat2Z.inj_add, <-Nat2Z.inj_mod, Nat2Z.id, Hx in Hy. by injection Hy.
Qed.

Lemma lowest_priority_fair_witness :
  ∃ d', signal_times 2 demo_ioapic demo_contexts 0 5 =
    Ok (d', sendMessage [0; 1] (trigger_message 0x0300000000000931)).
Proof.
  destruct (lowest_priority_fair demo_ioapic demo_contexts 0 5 32 0x0300000000000931 [0; 1]) as (d' & H & _);
    try done.
  - split; [done|]. eexists. by split.
  - by exists d'.
Defined.

(** Pin states are shared between guests.  Once one guest's device has
    raised a pin, raising it for any other guest, or for all, sends nothing
    until some guest lowers it, even if the other guest's entry is open. *)
Theorem shared_pin_suppresses (d d1 d2 : IOAPIC) (sys : list ApicContext) (g h number : Z) (out1 out2 : list (Z * Z)) :
  raiseInterruptPin d sys g number = Ok (d1, out1) → raiseInterruptPin d1 sys h number = Ok (d2, out2) →
  out2 = [] ∧ io_pinStates d2 = io_pinStates d1 ∧
  ∃ d3, lowerInterruptPin d2 number = Ok d3 ∧ at_ (io_pinStates d3) number = Ok false.
Proof.
  intros H1 H2. apply raise_with_spec in H1 as (k & pins & Hp & -> & _); [|intros; by eapply signalInterrupt_tables].
  assert (number <? TableSize = true) as Hn by (unfold raiseInterruptPin, raise_with in H2; by inv_ok).
  apply raise_with_spec in H2 as (k' & pins' & Hp' & -> & Ho); [|intros; by eapply signalInterrupt_tables].
  simpl in Hp', Ho. split; [apply Ho; by eapply at_upd_eq|].
  apply upd_at_Ok in Hp as [Hi ->]. apply upd_at_Ok in Hp' as [_ ->].
  split; [simpl; apply list_insert_insert_eq|]. unfold lowerInterruptPin. rewrite Hn. simpl.
  unfold upd_at. rewrite !length_insert, decide_True by done. simpl. eexists. split; [done|]. simpl.
  apply at_Ok. split; [lia|]. apply list_lookup_insert_eq. rewrite !length_insert. lia.
Qed.

Lemma shared_pin_suppresses_witness :
  raiseInterruptPin demo_ioapic demo_contexts 1 5 = Ok (demo_raised, []) ∧
  (∃ d2 out2, raiseInterruptPin demo_raised demo_contexts 0 5 = Ok (d2, out2) ∧ out2 = []) ∧
  snd <$> raiseInterruptPin demo_ioapic demo_contexts 0 5 = Ok [(0, trigger_message 0x0300000000000931)].
Proof.
  assert (raiseInterruptPin demo_ioapic demo_contexts 1 5 = Ok (demo_raised, [])) as E1 by (vm_compute; reflexivity).
  split; [exact E1|]. split; [|vm_compute; reflexivity].
  destruct (raiseInterruptPin demo_raised demo_contexts 0 5) as [[d2 out2]|] eqn:E2; [|vm_compute in E2; done].
  exists d2, out2. split; [done|]. by destruct (shared_pin_suppresses _ _ _ _ _ _ _ _ _ E1 E2) as [-> _].
Defined.
