(* ===== verification/GlobalManager.v ===== *)
(** * The global manager

    [src/pardg5-v/hyper/arch/glomgr.cc] and [.hh]: the server through which an
    external program sets and queries the managed resources (way masks, address
    ranges, memory controllers) and creates, starts and stops logical domains.
    The connection is the bytes the peer has sent and not been read, and the
    bytes sent to it; resources are known by the interface [TextResource]. *)

From S2P Require Import Prelude BaseLib ChunkGen Trie X86Tlb X86Isa Packet PageWalker GuestAddr AddrMapper PhysMem PortProxy BlobWriter IntelMP SmBios GuestMemory DmaPort DmaDevice GuestDma DomainWalk LDomain DomainBoot.
From S2P Require Import CacheBlk CacheSet LruTags.
Local Open Scope Z_scope.

(** ** Text *)

Definition GMStart : Z := 36.
Definition GMEnd : Z := 35.
Definition GMGoodP : Z := 43.
Definition GMBadP : Z := 45.
Definition GMPacketBufLen : Z := 1024.

(** [enum GMCommands]. *)
Definition GMSet : Z := 115.
Definition GMQuery : Z := 113.
Definition GMCreateLDom : Z := 67.
Definition GMDestroyLDom : Z := 68.
Definition GMStartupLDomVM : Z := 83.
Definition GMShutdownLDomVM : Z := 84.
Definition colon : Z := 58.

(** A C string: the bytes before the terminator. *)
Fixpoint c_str (l : list Z) : list Z := match l with [] => [] | c :: l => if c =? 0 then [] else c :: c_str l end.

(** The tokens [strtok_r] finds: the runs of bytes between separators. *)
Fixpoint split_at (sep : Z) (cur : list Z) (l : list Z) : list (list Z) :=
  match l with
  | [] => match cur with [] => [] | _ => [cur] end
  | c :: l =>
      if c =? sep then match cur with [] => split_at sep [] l | _ => cur :: split_at sep [] l end
      else split_at sep (cur ++ [c]) l
  end.
Definition strtok (sep : Z) (l : list Z) : list (list Z) := split_at sep [] l.

(** [atol] and [atoi]: blanks, a sign, digits; out of range, [strtol] gives the
    nearest long, and [atoi] its low 32 bits. *)
Definition isspace (c : Z) : bool := ((9 <=? c) && (c <=? 13)) || (c =? 32).
Definition isdigit (c : Z) : bool := (48 <=? c) && (c <=? 57).
Fixpoint skip_spaces (l : list Z) : list Z := match l with c :: l' => if isspace c then skip_spaces l' else l | [] => [] end.
Fixpoint read_digits (acc : Z) (l : list Z) : Z :=
  match l with c :: l => if isdigit c then read_digits (10 * acc + (c - 48)) l else acc | [] => acc end.
Definition atol (s : list Z) : Z :=
  let v := match skip_spaces s with
           | 45 :: l => - read_digits 0 l
           | 43 :: l => read_digits 0 l
           | l => read_digits 0 l
           end in
  Z.max (- 2 ^ 63) (Z.min (2 ^ 63 - 1) v).
Definition signed32 (v : Z) : Z := let u := wrap 32 v in if u <? 2 ^ 31 then u else u - 2 ^ 32.
Definition atoi (s : list Z) : Z := signed32 (atol s).

(** [%x]. *)
Definition hex_digit (d : Z) : Z := if d <? 10 then 48 + d else 87 + d.
Fixpoint hex_digits (fuel : nat) (v : Z) (acc : list Z) : list Z :=
  match fuel with
  | O => acc
  | S fuel => let acc := hex_digit (v mod 16) :: acc in if v / 16 =? 0 then acc else hex_digits fuel (v / 16) acc
  end.
Definition hex_print (v : Z) : list Z := hex_digits 16 v [].

(** ** Resources: the text operations of [ManagedResource] *)

Class TextResource (R : Type) : Type := {
  res_set : R → Z → Z → list Z → result R;
  res_query : R → Z → Z → result (list Z)
}.

(** The tag store of a cache: the value is the way mask of the domain. *)
#[export] Instance LRU_resource : TextResource LRU := {
  res_set t tag idx value := lru_set_tag t tag idx (wrap 64 (atol value));
  res_query t tag idx := r ← lru_query t tag idx;
    Ok (match r with Some mask => str_bytes "0x" ++ hex_print mask | None => str_bytes "INV" end)
}.

(** ** State *)

Section Manager.

Context {R : Type} `{!TextResource R}.
(** The memory behind the proxies of the domains, and what the creation of a
    domain finds on disk. *)
Context {M : Type} (sendFunctional : M → Packet → result (M * Packet)) (kernelFile : option ObjectFile) (mask0 : Z).

Record GlobalManager : Type := mkGM {
  gm_resources : gmap (list Z) R;
  gm_attached : bool;
  gm_fd : Z;
  gm_polled : bool;
  gm_system : X86PARDg5VSystem;
  gm_memory : M;
  gm_input : list Z;
  gm_output : list Z
}.
#[local] Instance eta_GlobalManager : Eta GlobalManager := λ g,
  mkGM (gm_resources g) (gm_attached g) (gm_fd g) (gm_polled g) (gm_system g) (gm_memory g) (gm_input g) (gm_output g).

Definition GlobalManager_make (sys : X86PARDg5VSystem) (m : M) : GlobalManager := mkGM ∅ false (-1) false sys m [] [].

Definition registerManagedResource (g : GlobalManager) (resname : list Z) (res : R) : result GlobalManager :=
  panic_if (match gm_resources g !! resname with Some _ => true | None => false end) ;;
  Ok (g <| gm_resources := <[resname := res]> (gm_resources g) |>).

(** ** Connection *)

Definition attach (g : GlobalManager) (f : Z) : GlobalManager := g <| gm_fd := f |> <| gm_polled := true |> <| gm_attached := true |>.
(** [pollQueue.remove] panics if the event is not in the queue. *)
Definition detach (g : GlobalManager) : result GlobalManager :=
  let g := g <| gm_attached := false |> <| gm_fd := -1 |> in
  panic_if (negb (gm_polled g)) ;;
  Ok (g <| gm_polled := false |>).

(** The listener's [accept]: a second connection is closed at once; [sfd] is
    the new connection, [-1] if there is none. *)
Definition gm_accept (g : GlobalManager) (sfd : Z) (sent : list Z) : GlobalManager :=
  if sfd =? -1 then g else if gm_attached g then g else (attach g sfd) <| gm_input := sent |> <| gm_output := [] |>.

(** A byte, or 0xFF when there is none. *)
Definition getbyte (input : list Z) : Z * list Z := match input with [] => (0xFF, []) | c :: l => (c, l) end.
Definition putbyte (g : GlobalManager) (b : Z) : GlobalManager := g <| gm_output := gm_output g ++ [wrap 8 b] |>.

(** [send] of a C string. *)
Definition gm_send (g : GlobalManager) (bp : list Z) : GlobalManager :=
  putbyte (foldl putbyte (putbyte g GMStart) (c_str bp)) GMEnd.

(** The beginning of a packet: whether there is one, or the session has ended. *)
Fixpoint find_start (input : list Z) : list Z * bool :=
  match input with
  | [] => ([], false)
  | c :: l => if c =? 0xFF then (l, false) else if c =? GMStart then (l, true) else find_start l
  end.

(** The data of a packet: [room] is [maxlen - len]. *)
Fixpoint read_data (room : nat) (input data : list Z) : list Z * list Z :=
  let '(c, input) := getbyte input in
  if c =? GMEnd then (input, data)
  else match room with O => (input, data) | S room => read_data room input (data ++ [c]) end.

(** [recv(bp, maxlen)] into a buffer of [size] bytes: the data received, or
    [None] at the end of the session.  Every round reads a start byte. *)
Fixpoint recv_loop (fuel : nat) (size maxlen : nat) (g : GlobalManager) : result (GlobalManager * option (list Z)) :=
  match fuel with
  | O => Err OutOfFuel
  | S fuel =>
      match find_start (gm_input g) with
      | (input, false) => Ok (g <| gm_input := input |>, None)
      | (input, true) =>
          let '(input, data) := read_data maxlen input [] in
          let g := g <| gm_input := input |> in
          if decide (length data < size)%nat then
            if decide (length data < maxlen)%nat then Ok (putbyte g GMGoodP, Some data)
            else recv_loop fuel size maxlen (putbyte g GMBadP)
          else Err OutOfBounds
      end
  end.
Definition gm_recv (size maxlen : nat) (g : GlobalManager) : result (GlobalManager * option (list Z)) :=
  recv_loop (S (length (gm_input g))) size maxlen g.

(** ** Commands *)

Definition getResource (g : GlobalManager) (resname : list Z) : option R := gm_resources g !! resname.

Definition setResource (g : GlobalManager) (resname : list Z) (guestID index : Z) (value : list Z) : result GlobalManager :=
  match getResource g resname with
  | None => Ok g
  | Some res => res ← res_set res (wrap 16 guestID) index value; Ok (g <| gm_resources := <[resname := res]> (gm_resources g) |>)
  end.

Definition queryResource (g : GlobalManager) (resname : list Z) (guestID index : Z) : result (list Z) :=
  match getResource g resname with
  | None => Ok (str_bytes "UNKNOWN")
  | Some res => res_query res (wrap 16 guestID) index
  end.

Definition createLDom (g : GlobalManager) : result (GlobalManager * Z) :=
  '(sys, ld) ← createPARDg5VLDom (gm_system g) kernelFile mask0;
  Ok (g <| gm_system := sys |>, ld_domID ld).
Definition destroyLDom (g : GlobalManager) (id : Z) : GlobalManager := g.

(** [pLDom->initBSPState(tc)] with the thread left in [status]: the domain and
    its thread in the system, the writes in memory. *)
Definition boot_domain (g : GlobalManager) (id : Z) (ld : PARDg5VLDomain) (tc : ThreadContext) (status : Status) : result GlobalManager :=
  '(log, (ld', tc)) ← runWriter (initBSPState ld tc);
  m ← perform sendFunctional (ld_physProxy ld) (gm_memory g) log;
  domains ← upd_at (sys_domains (gm_system g)) id (Some ld');
  threads ← upd_at (sys_threadContexts (gm_system g)) id (tc <| tc_status := status |>);
  Ok (g <| gm_system := (gm_system g) <| sys_domains := domains |> <| sys_threadContexts := threads |> |> <| gm_memory := m |>).

Definition startupLDomVM (g : GlobalManager) (id : Z) : result GlobalManager :=
  let id := wrap 16 id in
  pLDom ← getPARDg5VLDomain (gm_system g) id;
  match pLDom with
  | None => Ok (gm_send g (str_bytes "INVALID"))
  | Some ld =>
      threadContext ← getThreadContext (gm_system g) id;
      boot_domain g id ld threadContext Active
  end.

Definition shutdownLDomVM (g : GlobalManager) (id : Z) : result GlobalManager :=
  let id := wrap 16 id in
  pLDom ← getPARDg5VLDomain (gm_system g) id;
  threadContext ← getThreadContext (gm_system g) id;
  match pLDom with
  | None => Err NullDeref
  | Some ld => boot_domain g id ld (threadContext <| tc_status := Suspended |>) Suspended
  end.

(** The command in a buffer with the received data. *)
Definition gm_command (g : GlobalManager) (data : list Z) : result GlobalManager :=
  let data := c_str data in
  let command := hd 0 data in
  let args := strtok colon data in
  let arg i := default [] (args !! i) in
  let n := length args in
  if command =? GMSet then
    if negb (n =? 5)%nat then Ok (gm_send g (str_bytes "INV"))
    else g ← setResource g (arg 1%nat) (atoi (arg 2%nat)) (atoi (arg 3%nat)) (arg 4%nat); Ok (gm_send g (str_bytes "OK"))
  else if command =? GMQuery then
    if negb (n =? 4)%nat then Ok (gm_send g (str_bytes "INV"))
    else r ← queryResource g (arg 1%nat) (atoi (arg 2%nat)) (atoi (arg 3%nat)); Ok (gm_send g r)
  else if command =? GMCreateLDom then '(g, _) ← createLDom g; Ok g
  else if command =? GMDestroyLDom then
    if negb (n =? 2)%nat then Ok (gm_send g []) else Ok (destroyLDom g (atoi (arg 1%nat)))
  else if command =? GMStartupLDomVM then
    if negb (n =? 2)%nat then Ok (gm_send g []) else startupLDomVM g (atoi (arg 1%nat))
  else if command =? GMShutdownLDomVM then
    if negb (n =? 2)%nat then Ok (gm_send g []) else shutdownLDomVM g (atoi (arg 1%nat))
  else Ok (gm_send g []).

(** [sizeof(data)]. *)
Definition data_size : nat := Z.to_nat (GMPacketBufLen + 1).

Definition gm_process (g : GlobalManager) : result (GlobalManager * bool) :=
  if negb (gm_attached g) then Ok (g, false)
  else
    '(g, data) ← gm_recv data_size data_size g;
    match data with
    | None => g ← detach g; Ok (g, false)
    | Some data => g ← gm_command g data; Ok (g, true)
    end.

(** The event of the connection; [pollin] and [pollnval] are the bits of the
    reported events. *)
Definition gm_event (g : GlobalManager) (pollin pollnval : bool) : result GlobalManager :=
  if pollin then '(g, _) ← gm_process g; Ok g
  else if pollnval then detach g else Ok g.

(** The console commands. *)
Definition cmd_create_ldom (g : GlobalManager) (argc : nat) : result GlobalManager :=
  if (argc =? 1)%nat then '(g, _) ← createLDom g; Ok g else Ok g.
Definition cmd_startup_ldom (g : GlobalManager) (argv : list (list Z)) : result GlobalManager :=
  if (length argv =? 2)%nat then startupLDomVM g (atoi (default [] (argv !! 1%nat))) else Ok g.

End Manager.
Arguments GlobalManager : clear implicits.
#[export] Existing Instance eta_GlobalManager.

(** ** Lemmas on text *)

Lemma str_bytes_width s : Forall (in_width 8) (str_bytes s).
Proof.
  unfold str_bytes. apply Forall_fmap, Forall_true. intros c. unfold in_width. cbn. pose proof (Ascii.N_ascii_bounded c). lia.
Qed.
Ltac text := first [apply str_bytes_width | refine (bool_decide_unpack _ _); vm_compute; exact I].

Lemma c_str_id l : 0 ∉ l → c_str l = l.
Proof.
  induction l as [|c l IH]; intros H; [done|]. cbn. apply not_elem_of_cons in H as [Hc Hl]. rewrite (proj2 (Z.eqb_neq c 0)) by (intros ->; done). by rewrite IH.
Qed.

Lemma split_at_token sep cur t l : sep ∉ t → split_at sep cur (t ++ l) = split_at sep (cur ++ t) l.
Proof.
  revert cur. induction t as [|c t IH]; intros cur H; [by rewrite app_nil_r|]. apply not_elem_of_cons in H as [Hc Ht]. cbn.
  rewrite (proj2 (Z.eqb_neq c sep)) by (intros ->; done). rewrite IH by done. by rewrite <-app_assoc.
Qed.

(** Tokens joined by separators. *)
Fixpoint joined (sep : Z) (l : list (list Z)) : list Z :=
  match l with [] => [] | [t] => t | t :: l => t ++ [sep] ++ joined sep l end.
Definition token (sep : Z) (t : list Z) : Prop := t ≠ [] ∧ sep ∉ t.
Lemma strtok_joined sep l : Forall (token sep) l → strtok sep (joined sep l) = l.
Proof.
  unfold strtok. induction l as [|t l IH]; intros H; [done|]. apply Forall_cons in H as [[Hn Hs] Hl]. destruct l as [|t' l].
  - cbn [joined]. rewrite <-(app_nil_r t) at 1. rewrite split_at_token by done. cbn. by destruct t.
  - change (joined sep (t :: t' :: l)) with (t ++ [sep] ++ joined sep (t' :: l)). rewrite split_at_token by done.
    rewrite app_nil_l. cbn [app split_at]. rewrite Z.eqb_refl. destruct t; [done|]. by rewrite IH.
Qed.
Lemma joined_not_in sep x l : x ≠ sep → Forall (λ t, x ∉ t) l → x ∉ joined sep l.
Proof.
  intros Hx. induction l as [|t l IH]; intros H; [apply not_elem_of_nil|]. apply Forall_cons in H as [Ht Hl]. destruct l as [|t' l]; [done|].
  change (joined sep (t :: t' :: l)) with (t ++ [sep] ++ joined sep (t' :: l)). rewrite !not_elem_of_app. split; [done|]. split; [by apply not_elem_of_cons; split; [|apply not_elem_of_nil]|by apply IH].
Qed.

(** Decimal numbers as the peer writes them. *)
Fixpoint dec_digits (fuel : nat) (v : Z) (acc : list Z) : list Z :=
  match fuel with
  | O => acc
  | S fuel => let acc := 48 + v mod 10 :: acc in if v / 10 =? 0 then acc else dec_digits fuel (v / 10) acc
  end.
Definition decimal (v : Z) : list Z := dec_digits 20 v [].

Lemma dec_digits_read fuel v acc :
  0 ≤ v < 10 ^ Z.of_nat fuel → (0 < fuel)%nat → read_digits 0 (dec_digits fuel v acc) = read_digits v acc.
Proof.
  revert v acc. induction fuel as [|fuel IH]; intros v acc Hv Hf; [lia|]. cbn [dec_digits].
  pose proof (Z.mod_pos_bound v 10 ltac:(lia)) as Hm. pose proof (Z.div_mod v 10 ltac:(lia)) as Hd.
  assert (∀ a, read_digits a (48 + v mod 10 :: acc) = read_digits (10 * a + v mod 10) acc) as Hr.
  { intros a. cbn. unfold isdigit. rewrite (proj2 (Z.leb_le _ _)), (proj2 (Z.leb_le _ _)) by lia. cbn [andb]. f_equal. lia. }
  destruct (Z.eqb_spec (v / 10) 0) as [H0|H0]; [rewrite Hr; f_equal; lia|].
  rewrite Nat2Z.inj_succ, Z.pow_succ_r in Hv by lia. assert (0 ≤ v / 10 < 10 ^ Z.of_nat fuel) by (split; [apply Z.div_pos; lia|apply Z.div_lt_upper_bound; lia]).
  rewrite IH; [rewrite Hr; f_equal; lia|done|]. destruct fuel; [|lia]. cbn in *. lia.
Qed.
Lemma dec_digits_digits fuel v acc : 0 ≤ v → Forall (λ c, isdigit c = true) acc → Forall (λ c, isdigit c = true) (dec_digits fuel v acc).
Proof.
  revert v acc. induction fuel as [|fuel IH]; intros v acc Hv Ha; [done|]. cbn [dec_digits]. pose proof (Z.mod_pos_bound v 10 ltac:(lia)).
  assert (Forall (λ c, isdigit c = true) (48 + v mod 10 :: acc)).
  { constructor; [|done]. unfold isdigit. rewrite (proj2 (Z.leb_le _ _)), (proj2 (Z.leb_le _ _)) by lia. done. }
  destruct (v / 10 =? 0); [done|]. apply IH; [apply Z.div_pos; lia|done].
Qed.
Lemma dec_digits_nonempty fuel v acc : acc ≠ [] → dec_digits fuel v acc ≠ [].
Proof. revert v acc. induction fuel as [|fuel IH]; intros v acc H; [done|]. cbn [dec_digits]. by destruct (v / 10 =? 0); [|apply IH]. Qed.

Lemma dec_digits_length n v acc : (length (dec_digits n v acc) ≤ n + length acc)%nat.
Proof.
  revert v acc. induction n as [|n IH]; intros v acc; [done|]. cbn [dec_digits]. destruct (v / 10 =? 0); [cbn; lia|].
  specialize (IH (v / 10) (48 + v mod 10 :: acc)). cbn in IH. lia.
Qed.

Lemma decimal_digits v : 0 ≤ v → Forall (λ c, isdigit c = true) (decimal v).
Proof. intros H. by apply dec_digits_digits. Qed.
Lemma decimal_nonempty v : decimal v ≠ [].
Proof. unfold decimal. cbn [dec_digits]. destruct (v / 10 =? 0); [done|]. by apply (dec_digits_nonempty 19). Qed.
Lemma decimal_not_in v c : 0 ≤ v → isdigit c = false → c ∉ decimal v.
Proof. intros Hv Hc H. pose proof (decimal_digits v Hv) as Hd. rewrite Forall_forall in Hd. specialize (Hd c H). cbn in Hd. congruence. Qed.

Lemma atol_decimal v : 0 ≤ v < 2 ^ 63 → atol (decimal v) = v.
Proof.
  intros Hv. pose proof (decimal_digits v ltac:(lia)) as Hd. pose proof (dec_digits_read 20 v [] ltac:(lia) ltac:(lia)) as Hr.
  change (dec_digits 20 v []) with (decimal v) in Hr. cbn [read_digits] in Hr. unfold atol.
  destruct (decimal v) as [|c l] eqn:E; [by destruct (decimal_nonempty v)|]. apply Forall_cons in Hd as [Hc _]. unfold isdigit in Hc. rewrite andb_true_iff, !Z.leb_le in Hc.
  cbn [skip_spaces]. assert (isspace c = false) as ->.
  { unfold isspace. rewrite (proj2 (Z.leb_gt c 13)), (proj2 (Z.eqb_neq c 32)) by lia. by rewrite andb_false_r. }
  assert (∃ d, c = 48 + d ∧ 0 ≤ d ≤ 9) as (d & -> & Hd) by (exists (c - 48); lia).
  assert (d = 0 ∨ d = 1 ∨ d = 2 ∨ d = 3 ∨ d = 4 ∨ d = 5 ∨ d = 6 ∨ d = 7 ∨ d = 8 ∨ d = 9) as Hc' by lia.
  assert (Z.max (- 2 ^ 63) (Z.min (2 ^ 63 - 1) v) = v) as Hs by lia. rewrite <-Hr in Hs at 1.
  repeat destruct Hc' as [->|Hc']; [..|subst d]; exact Hs.
Qed.
Lemma atoi_decimal v : 0 ≤ v < 2 ^ 31 → atoi (decimal v) = v.
Proof.
  intros H. unfold atoi. rewrite atol_decimal by lia. unfold signed32. cbv zeta. rewrite wrap_small by (unfold in_width; lia). by rewrite (proj2 (Z.ltb_lt _ _)) by lia.
Qed.

(** ** The packets of the protocol *)

Definition framed (data : list Z) : list Z := [GMStart] ++ data ++ [GMEnd].

Section Protocol.

Context {R : Type} `{!TextResource R} {M : Type}.
Implicit Types g : GlobalManager R M.

(** The same manager but for its connection. *)
Definition said g (out : list Z) : GlobalManager R M := (g <| gm_output := gm_output g ++ out |>).

Lemma putbyte_said g b : putbyte g b = said g [wrap 8 b].
Proof. done. Qed.
Lemma said_said g a b : said (said g a) b = said g (a ++ b).
Proof. unfold said. destruct g. cbn. by rewrite app_assoc. Qed.
Lemma said_nil g : said g [] = g.
Proof. destruct g. unfold said. cbn. by rewrite app_nil_r. Qed.
Lemma putbytes_said g l : foldl putbyte g l = said g (wrap 8 <$> l).
Proof.
  revert g. induction l as [|b l IH]; intros g; [by rewrite said_nil|]. cbn [foldl fmap list_fmap]. rewrite IH, putbyte_said, said_said. done.
Qed.
Lemma wrap_bytes l : Forall (in_width 8) l → wrap 8 <$> l = l.
Proof. induction 1 as [|b l Hb _ IH]; [done|]. cbn. rewrite IH. by rewrite wrap_small. Qed.
Lemma gm_send_said g s : Forall (in_width 8) s → 0 ∉ s → gm_send g s = said g (framed s).
Proof.
  intros Hb Hz. unfold gm_send. rewrite c_str_id by done. rewrite !putbyte_said, putbytes_said, !said_said, wrap_bytes by done. done.
Qed.

Definition noise (l : list Z) : Prop := Forall (λ c, c ≠ GMStart ∧ c ≠ 0xFF) l.
Lemma find_start_framed l rest : noise l → find_start (l ++ [GMStart] ++ rest) = (rest, true).
Proof.
  induction 1 as [|c l [H1 H2] _ IH]; [done|]. cbn [app find_start]. rewrite (proj2 (Z.eqb_neq c _)), (proj2 (Z.eqb_neq c GMStart)) by done. exact IH.
Qed.
Lemma read_data_end room data acc rest :
  GMEnd ∉ data → (length data ≤ room)%nat → read_data room (data ++ [GMEnd] ++ rest) acc = (rest, acc ++ data).
Proof.
  revert room acc. induction data as [|c data IH]; intros room acc He Hl.
  - cbn [app]. destruct room; cbn; by rewrite app_nil_r.
  - apply not_elem_of_cons in He as [Hc He]. destruct room as [|room]; [cbn in Hl; lia|]. cbn [app read_data getbyte].
    rewrite (proj2 (Z.eqb_neq c GMEnd)) by (intros ->; done). rewrite IH by (done || cbn in Hl; lia). by rewrite <-app_assoc.
Qed.

(** A packet that fits is received. *)
Lemma gm_recv_framed size maxlen g l data rest :
  noise l → GMEnd ∉ data → (length data < maxlen)%nat → (maxlen ≤ size)%nat → gm_input g = l ++ framed data ++ rest →
  gm_recv size maxlen g = Ok (said (g <| gm_input := rest |>) [GMGoodP], Some data).
Proof.
  intros Hn He Hl Hs Hi. unfold gm_recv. cbn [recv_loop]. rewrite Hi. unfold framed. rewrite <-!app_assoc, find_start_framed by done.
  rewrite read_data_end by (done || lia). rewrite app_nil_l, !decide_True by lia. done.
Qed.

(** Every round of [recv] shortens what is left to read. *)
Lemma find_start_shorter l rest b : find_start l = (rest, b) → (length rest ≤ length l)%nat ∧ (b = true → (length rest < length l)%nat).
Proof.
  induction l as [|c l IH]; cbn [find_start]; [intros [= <- <-]; done|].
  destruct (c =? 255); [intros [= <- <-]; cbn; split; [lia|done]|]. destruct (c =? GMStart); [intros [= <- <-]; cbn; lia|].
  intros [H1 H2]%IH. cbn. split; [lia|]. intros Hb. specialize (H2 Hb). lia.
Qed.
Lemma read_data_shorter room l acc rest data : read_data room l acc = (rest, data) → (length rest ≤ length l)%nat.
Proof.
  revert l acc. induction room as [|room IH]; intros l acc; cbn [read_data]; destruct l as [|c l]; cbn [getbyte].
  - by intros [= <- <-].
  - destruct (c =? GMEnd); intros [= <- <-]; cbn; lia.
  - change (255 =? GMEnd) with false. cbv iota. intros H%IH. done.
  - destruct (c =? GMEnd); [intros [= <- <-]; cbn; lia|]. intros H%IH. cbn. lia.
Qed.
Lemma recv_loop_fuel fuel size maxlen g : (length (gm_input g) < fuel)%nat → recv_loop fuel size maxlen g ≠ Err OutOfFuel.
Proof.
  revert g. induction fuel as [|fuel IH]; intros g Hf; [lia|]. cbn [recv_loop]. destruct (find_start (gm_input g)) as [l b] eqn:E.
  apply find_start_shorter in E as [_ Hb]. destruct b; [|done]. specialize (Hb eq_refl). destruct (read_data maxlen l []) as [l' data] eqn:E2.
  apply read_data_shorter in E2. destruct (decide (length data < size)%nat); [|done]. destruct (decide (length data < maxlen)%nat); [done|].
  apply IH. cbn. lia.
Qed.

End Protocol.

(** A tag below 256 is a domain number. *)
Lemma guest_small d : 0 ≤ d < 256 → QOSTAG_TO_GUESTID d = d.
Proof.
  intros Hd. unfold QOSTAG_TO_GUESTID. rewrite land_0xFF, wrap_small by (unfold in_width; pose proof (Z.mod_pos_bound d 256); lia). apply Z.mod_small. lia.
Qed.

(** ** Requests *)

Definition set_request (name : list Z) (guest index : Z) (value : list Z) : list Z :=
  joined colon [[GMSet]; name; decimal guest; decimal index; value].
Definition query_request (name : list Z) (guest index : Z) : list Z := joined colon [[GMQuery]; name; decimal guest; decimal index].
Definition domain_request (command id : Z) : list Z := joined colon [[command]; decimal id].

(** A field of a request: not empty, and without the bytes the protocol uses. *)
Definition field (t : list Z) : Prop := t ≠ [] ∧ colon ∉ t ∧ GMEnd ∉ t ∧ 0 ∉ t.
Lemma field_command c : isspace c = false → c ≠ colon → c ≠ GMEnd → c ≠ 0 → field [c].
Proof. intros _ H1 H2 H3. split; [done|]. repeat split; apply not_elem_of_cons; (split; [by apply not_eq_sym|apply not_elem_of_nil]). Qed.
Lemma field_decimal v : 0 ≤ v → field (decimal v).
Proof. intros H. split; [apply decimal_nonempty|]. by repeat split; apply decimal_not_in. Qed.
Lemma request_fields l : Forall field l → strtok colon (joined colon l) = l ∧ GMEnd ∉ joined colon l ∧ 0 ∉ joined colon l.
Proof.
  intros H. split; [apply strtok_joined; eapply Forall_impl; [exact H|]; by intros t (H1 & H2 & _)|].
  split; apply joined_not_in; [done| |done|]; (eapply Forall_impl; [exact H|]); by intros t (_ & _ & H1 & H2).
Qed.

Section Requests.

Context {R : Type} `{!TextResource R} {M : Type} (sendFunctional : M → Packet → result (M * Packet)) (kernelFile : option ObjectFile) (mask0 : Z).
Implicit Types g : GlobalManager R M.

(** A packet whose data is well formed and fits reaches the command. *)
Lemma process_packet g l data rest :
  gm_attached g = true → noise l → GMEnd ∉ data → (length data < data_size)%nat → gm_input g = l ++ framed data ++ rest →
  gm_process sendFunctional kernelFile mask0 g =
    (g ← gm_command sendFunctional kernelFile mask0 (said (g <| gm_input := rest |>) [GMGoodP]) data; Ok (g, true)).
Proof.
  intros Ha Hn He Hl Hi. unfold gm_process. rewrite Ha. cbn [negb]. by rewrite (gm_recv_framed _ _ g l data rest).
Qed.

(** The manager as the command leaves it, but for the resources. *)
Definition answered g (rest reply : list Z) : GlobalManager R M := said (g <| gm_input := rest |>) ([GMGoodP] ++ framed reply).

Lemma process_set g l name guest index value rest r r' :
  gm_attached g = true → noise l → field name → field value → in_width 16 guest → 0 ≤ index < 2 ^ 31 →
  (length (set_request name guest index value) < data_size)%nat → gm_input g = l ++ framed (set_request name guest index value) ++ rest →
  gm_resources g !! name = Some r → res_set r guest index value = Ok r' →
  gm_process sendFunctional kernelFile mask0 g = Ok (answered (g <| gm_resources := <[name := r']> (gm_resources g) |>) rest (str_bytes "OK"), true).
Proof.
  intros Ha Hn Fn Fv Hg Hx Hl Hi Hr Hs. unfold in_width in Hg.
  assert (Forall field [[GMSet]; name; decimal guest; decimal index; value]) as HF.
  { repeat apply Forall_cons_2; [by apply field_command|done|apply field_decimal; lia|apply field_decimal; lia|done|apply Forall_nil_2]. }
  destruct (request_fields _ HF) as (Ht & He & Hz). fold (set_request name guest index value) in *.
  rewrite (process_packet g l (set_request name guest index value) rest) by done. unfold gm_command. rewrite c_str_id by done. cbv zeta. rewrite Ht.
  change (hd 0 (set_request name guest index value)) with GMSet. cbn [Z.eqb Pos.eqb GMSet length Nat.eqb negb lookup list_lookup default].
  unfold setResource, getResource. change (gm_resources (said (g <| gm_input := rest |>) [GMGoodP])) with (gm_resources g). unfold id. rewrite Hr.
  rewrite !atoi_decimal, (wrap_small 16) by (unfold in_width; lia). rewrite Hs. cbn [mbind result_bind].
  rewrite gm_send_said by text. f_equal. f_equal. unfold answered. rewrite <-said_said. done.
Qed.

Lemma process_query g l name guest index rest r text :
  gm_attached g = true → noise l → field name → in_width 16 guest → 0 ≤ index < 2 ^ 31 →
  (length (query_request name guest index) < data_size)%nat → gm_input g = l ++ framed (query_request name guest index) ++ rest →
  gm_resources g !! name = Some r → res_query r guest index = Ok text → Forall (in_width 8) text → 0 ∉ text →
  gm_process sendFunctional kernelFile mask0 g = Ok (answered g rest text, true).
Proof.
  intros Ha Hn Fn Hg Hx Hl Hi Hr Hs Hb H0. unfold in_width in Hg.
  assert (Forall field [[GMQuery]; name; decimal guest; decimal index]) as HF.
  { repeat apply Forall_cons_2; [by apply field_command|done|apply field_decimal; lia|apply field_decimal; lia|apply Forall_nil_2]. }
  destruct (request_fields _ HF) as (Ht & He & Hz). fold (query_request name guest index) in *.
  rewrite (process_packet g l (query_request name guest index) rest) by done. unfold gm_command. rewrite c_str_id by done. cbv zeta. rewrite Ht.
  change (hd 0 (query_request name guest index)) with GMQuery. cbn [Z.eqb Pos.eqb GMSet GMQuery length Nat.eqb negb lookup list_lookup default].
  unfold queryResource, getResource. change (gm_resources (said (g <| gm_input := rest |>) [GMGoodP])) with (gm_resources g). unfold id. rewrite Hr.
  rewrite !atoi_decimal, (wrap_small 16) by (unfold in_width; lia). rewrite Hs. cbn [mbind result_bind].
  rewrite gm_send_said by done. f_equal. f_equal. unfold answered. by rewrite <-said_said.
Qed.

End Requests.

(** ** Hexadecimal numbers read back *)

Definition hex_val (c : Z) : Z := if c <? 58 then c - 48 else c - 87.
Definition hex_read (l : list Z) : Z := foldl (λ v c, 16 * v + hex_val c) 0 l.

Lemma hex_digit_val d : 0 ≤ d < 16 → hex_val (hex_digit d) = d ∧ 48 ≤ hex_digit d < 103.
Proof. intros H. unfold hex_val, hex_digit. destruct (Z.ltb_spec d 10); [rewrite (proj2 (Z.ltb_lt _ _)) by lia|rewrite (proj2 (Z.ltb_ge _ _)) by lia]; lia. Qed.
Lemma hex_digits_read fuel v acc :
  0 ≤ v < 16 ^ Z.of_nat fuel → (0 < fuel)%nat →
  foldl (λ v c, 16 * v + hex_val c) 0 (hex_digits fuel v acc) = foldl (λ v c, 16 * v + hex_val c) v acc.
Proof.
  revert v acc. induction fuel as [|fuel IH]; intros v acc Hv Hf; [lia|]. cbn [hex_digits].
  pose proof (Z.mod_pos_bound v 16 ltac:(lia)) as Hm. pose proof (Z.div_mod v 16 ltac:(lia)) as Hd. destruct (hex_digit_val (v mod 16) Hm) as [Hx _].
  destruct (Z.eqb_spec (v / 16) 0) as [H0|H0]; [cbn [foldl]; rewrite Hx; f_equal; lia|].
  rewrite Nat2Z.inj_succ, Z.pow_succ_r in Hv by lia. assert (0 ≤ v / 16 < 16 ^ Z.of_nat fuel) by (split; [apply Z.div_pos; lia|apply Z.div_lt_upper_bound; lia]).
  rewrite IH; [cbn [foldl]; rewrite Hx; f_equal; lia|done|]. destruct fuel; [|lia]. cbn in *. lia.
Qed.
Lemma hex_digits_text fuel v acc : 0 ≤ v → Forall (λ c, 48 ≤ c < 103) acc → Forall (λ c, 48 ≤ c < 103) (hex_digits fuel v acc).
Proof.
  revert v acc. induction fuel as [|fuel IH]; intros v acc Hv Ha; [done|]. cbn [hex_digits].
  assert (Forall (λ c, 48 ≤ c < 103) (hex_digit (v mod 16) :: acc)) by (constructor; [apply hex_digit_val, Z.mod_pos_bound; lia|done]).
  destruct (v / 16 =? 0); [done|]. apply IH; [apply Z.div_pos; lia|done].
Qed.
Lemma hex_print_read v : in_width 64 v → hex_read (hex_print v) = v.
Proof. intros H. unfold hex_read, hex_print. by rewrite hex_digits_read by (unfold in_width in *; lia). Qed.
Lemma hex_print_text v : in_width 64 v → Forall (in_width 8) (hex_print v) ∧ 0 ∉ hex_print v.
Proof.
  intros H. assert (Forall (λ c, 48 ≤ c < 103) (hex_print v)) as Ht by (apply hex_digits_text; [apply H|done]). split.
  - eapply Forall_impl; [exact Ht|]. unfold in_width. cbn. lia.
  - rewrite Forall_forall in Ht. intros H0%Ht. lia.
Qed.

(** ** Properties *)

(** C19: a way mask programmed over the connection is the one in force and the
    one read back.  Over a cache registered under a name, for any domain the
    cache has a mask for and any mask a long can hold: the set request, after
    any noise before it, is acknowledged and answered OK; it changes the mask of
    that domain in that cache and nothing else in the manager, the cache, the
    other resources, the system or memory; and the query that follows answers
    the mask. *)
Theorem way_mask_programmed {M} (sendFunctional : M → Packet → result (M * Packet)) (kernelFile : option ObjectFile) (mask0 : Z)
    (g : GlobalManager LRU M) (l name rest : list Z) (t : LRU) (d mask : Z) :
  gm_attached g = true → noise l → field name → gm_resources g !! name = Some t →
  0 ≤ d < 256 → d < Z.of_nat (length (lt_waymasks t)) → 0 ≤ mask < 2 ^ 63 →
  (length (set_request name d 0 (decimal mask)) < data_size)%nat → (length (query_request name d 0) < data_size)%nat →
  gm_input g = l ++ framed (set_request name d 0 (decimal mask)) ++ framed (query_request name d 0) ++ rest →
  ∃ g1 g2 text, gm_process sendFunctional kernelFile mask0 g = Ok (g1, true) ∧ gm_process sendFunctional kernelFile mask0 g1 = Ok (g2, true) ∧
    g2 = said (g <| gm_input := rest |>
                 <| gm_resources := <[name := (t <| lt_waymasks := <[Z.to_nat d := mask]> (lt_waymasks t) |>)]> (gm_resources g) |>)
           ([GMGoodP] ++ framed (str_bytes "OK") ++ [GMGoodP] ++ framed (str_bytes "0x" ++ text)) ∧
    hex_read text = mask.
Proof.
  intros Ha Hn Fn Ht Hd Hlt Hm L1 L2 Hi. set (t' := t <| lt_waymasks := <[Z.to_nat d := mask]> (lt_waymasks t) |>).
  pose proof (guest_small d Hd) as Hq.
  assert (res_set t d 0 (decimal mask) = Ok t') as Hset.
  { cbn [res_set LRU_resource]. unfold lru_set_tag. cbn [Z.eqb]. rewrite Hq, atol_decimal, !(wrap_small 64 mask) by (unfold in_width; lia). assert (upd_at (lt_waymasks t) d mask = Ok (<[Z.to_nat d := mask]> (lt_waymasks t))) as -> by (apply upd_at_Ok; split; [lia|done]). done. }
  pose proof (process_set sendFunctional kernelFile mask0 g l name d 0 (decimal mask) (framed (query_request name d 0) ++ rest) t t' Ha Hn Fn
    ltac:(apply field_decimal; lia) ltac:(unfold in_width; lia) ltac:(lia) L1 Hi Ht Hset) as P1.
  match type of P1 with _ = Ok (?x, _) => set (g1 := x) in * end.
  assert (res_query t' d 0 = Ok (str_bytes "0x" ++ hex_print mask)) as Hqr.
  { cbn [res_query LRU_resource]. unfold lru_query. cbn [Z.eqb negb]. rewrite Hq. cbn [t' lt_waymasks setf].
    assert (at_ (<[Z.to_nat d := mask]> (lt_waymasks t)) d = Ok mask) as -> by (apply at_Ok; split; [lia|]; apply list_lookup_insert_eq; lia). done. }
  destruct (hex_print_text mask ltac:(unfold in_width; lia)) as [Hw H0].
  pose proof (process_query sendFunctional kernelFile mask0 g1 [] name d 0 rest t' (str_bytes "0x" ++ hex_print mask) Ha (Forall_nil_2 _) Fn
    ltac:(unfold in_width; lia) ltac:(lia) L2 eq_refl (lookup_insert_eq _ _ _) Hqr) as P2.
  exists g1. eexists _, (hex_print mask). split; [exact P1|]. split; [apply P2|].
  - apply Forall_app. split; [apply str_bytes_width|exact Hw].
  - apply not_elem_of_app. split; [text|exact H0].
  - split; [|apply hex_print_read; unfold in_width; lia]. unfold answered, g1, answered. destruct g as [gr ga gf gp gs gmm gi go]. unfold said. cbn. f_equal. by rewrite <-!app_assoc.
Qed.

(** A manager with the cache of [LruTags]' examples. *)
Definition demo_manager (input : list Z) : GlobalManager LRU unit :=
  mkGM {[ str_bytes "l2" := demo_lru ]} true 7 true (mkSystem [] 0 64 []) () input [].
Definition no_memory (m : unit) (p : Packet) : result (unit * Packet) := Err PanicCalled.
Lemma way_mask_programmed_witness :
  ∃ g1 g2 text,
    gm_process no_memory None 0 (demo_manager ([7] ++ framed (set_request (str_bytes "l2") 1 0 (decimal 12)) ++ framed (query_request (str_bytes "l2") 1 0))) = Ok (g1, true) ∧
    gm_process no_memory None 0 g1 = Ok (g2, true) ∧ hex_read text = 12 ∧ gm_output g2 = str_bytes "+$OK#+$0xc#" ∧
    (lt_waymasks <$> gm_resources g2 !! str_bytes "l2") = Some [1; 12].
Proof.
  destruct (way_mask_programmed no_memory None 0
    (demo_manager ([7] ++ framed (set_request (str_bytes "l2") 1 0 (decimal 12)) ++ framed (query_request (str_bytes "l2") 1 0)))
    [7] (str_bytes "l2") [] demo_lru 1 12) as (g1 & g2 & text & H1 & H2 & H3 & H4).
  - reflexivity.
  - apply Forall_singleton. split; discriminate.
  - split; [discriminate|]. repeat split; refine (bool_decide_unpack _ _); vm_compute; exact I.
  - reflexivity.
  - lia.
  - reflexivity.
  - lia.
  - apply Nat.ltb_lt. vm_compute. reflexivity.
  - apply Nat.ltb_lt. vm_compute. reflexivity.
  - by rewrite app_nil_r.
  - exists g1, g2, text. split; [exact H1|]. split; [exact H2|]. split; [exact H4|]. subst g2.
    vm_compute in H1. injection H1 as <-. vm_compute in H2. injection H2 as H2.
    assert (text = [99]) as -> by (symmetry; apply (app_inv_tail [35]); exact H2). split; reflexivity.
Defined.

(** C31: requests that cannot be served.  Whatever the data of a packet, a set
    without five fields and a query without four are answered INV, domain
    commands without a number and unknown commands by an empty packet, a query
    of an unknown resource by UNKNOWN and the start of a domain that does not
    exist by INVALID; in each case nothing but the answer changes.  Two requests
    have no error answer: a set of an unknown resource changes nothing but is
    answered OK, and the stop of a domain that does not exist is not answered at
    all, the simulator fails on the null pointer.  Creating a domain without a
    kernel file is fatal; at the end of the session a polled manager detaches; a
    manager that is not attached reads nothing; and receiving always ends. *)
Theorem request_errors {R} `{!TextResource R} {M} (sendFunctional : M → Packet → result (M * Packet)) (kernelFile : option ObjectFile) (mask0 : Z)
    (g : GlobalManager R M) (data : list Z) :
  let command := hd 0 (c_str data) in
  let args := strtok colon (c_str data) in
  let arg i := default [] (args !! i) in
  let run := gm_command sendFunctional kernelFile mask0 g data in
  let unknown id := sys_numDomains (gm_system g) ≤ wrap 16 id in
  (command = GMSet → length args ≠ 5%nat → run = Ok (said g (framed (str_bytes "INV")))) ∧
  (command = GMQuery → length args ≠ 4%nat → run = Ok (said g (framed (str_bytes "INV")))) ∧
  (command ∈ [GMDestroyLDom; GMStartupLDomVM; GMShutdownLDomVM] → length args ≠ 2%nat → run = Ok (said g (framed []))) ∧
  (command ∉ [GMSet; GMQuery; GMCreateLDom; GMDestroyLDom; GMStartupLDomVM; GMShutdownLDomVM] → run = Ok (said g (framed []))) ∧
  (command = GMQuery → length args = 4%nat → gm_resources g !! arg 1%nat = None → run = Ok (said g (framed (str_bytes "UNKNOWN")))) ∧
  (command = GMSet → length args = 5%nat → gm_resources g !! arg 1%nat = None → run = Ok (said g (framed (str_bytes "OK")))) ∧
  (command = GMStartupLDomVM → length args = 2%nat → unknown (atoi (arg 1%nat)) → run = Ok (said g (framed (str_bytes "INVALID")))) ∧
  (command = GMShutdownLDomVM → length args = 2%nat → unknown (atoi (arg 1%nat)) → ∃ f, run = Err f) ∧
  (command = GMCreateLDom → kernelFile = None → run = Err FatalCalled) ∧
  (gm_attached g = true → gm_polled g = true → noise (gm_input g) →
    gm_process sendFunctional kernelFile mask0 g = Ok (g <| gm_input := [] |> <| gm_attached := false |> <| gm_fd := -1 |> <| gm_polled := false |>, false)) ∧
  (gm_attached g = false → gm_process sendFunctional kernelFile mask0 g = Ok (g, false)) ∧
  gm_recv data_size data_size g ≠ Err OutOfFuel.
Proof.
  intros command args arg run unknown.
  assert (∀ s, gm_send g (str_bytes s) = said g (framed (c_str (str_bytes s)))) as Hsend.
  { intros s. unfold gm_send. rewrite !putbyte_said, putbytes_said, !said_said, wrap_bytes; [done|]. clear. induction (str_bytes_width s) as [|c l Hc _ IH]; [constructor|]. cbn. destruct (c =? 0); by constructor. }
  assert (gm_send g [] = said g (framed [])) as Hempty by (unfold gm_send; cbn; by rewrite !putbyte_said, !said_said).
  unfold run, gm_command. cbv zeta. fold command args.
  split; [intros -> Hn; cbn -[str_bytes gm_send]; rewrite (proj2 (Nat.eqb_neq _ _) Hn); by rewrite Hsend|].
  split; [intros -> Hn; cbn -[str_bytes gm_send]; rewrite (proj2 (Nat.eqb_neq _ _) Hn); by rewrite Hsend|].
  split; [intros Hc Hn; rewrite !elem_of_cons in Hc; destruct Hc as [->|[->|[->|[]%elem_of_nil]]]; cbn -[gm_send]; rewrite (proj2 (Nat.eqb_neq _ _) Hn); by rewrite Hempty|].
  split; [intros Hc; rewrite !not_elem_of_cons in Hc; destruct Hc as (N1 & N2 & N3 & N4 & N5 & N6 & _); rewrite !(proj2 (Z.eqb_neq _ _)) by done; by rewrite Hempty|].
  split; [intros -> Hn Hr; cbn -[str_bytes gm_send]; rewrite Hn; cbn -[str_bytes gm_send]; unfold queryResource, getResource; fold (arg 1%nat); rewrite Hr; cbn -[str_bytes gm_send]; by rewrite Hsend|].
  split; [intros -> Hn Hr; cbn -[str_bytes gm_send]; rewrite Hn; cbn -[str_bytes gm_send]; unfold setResource, getResource; fold (arg 1%nat); rewrite Hr; cbn -[str_bytes gm_send]; by rewrite Hsend|].
  split; [intros -> Hn Hr; cbn -[str_bytes gm_send]; rewrite Hn; cbn -[str_bytes gm_send]; unfold startupLDomVM, getPARDg5VLDomain; cbv zeta; fold (arg 1%nat);
    rewrite (proj2 (Z.ltb_ge _ _)) by exact Hr; cbn [mbind result_bind]; by rewrite Hsend|].
  split; [intros -> Hn Hr; cbn -[str_bytes gm_send]; rewrite Hn; cbn -[str_bytes gm_send]; unfold shutdownLDomVM, getPARDg5VLDomain; cbv zeta; fold (arg 1%nat);
    rewrite (proj2 (Z.ltb_ge _ _)) by exact Hr; cbn [mbind result_bind]; destruct (getThreadContext _ _); by eexists|].
  split; [by intros -> ->|].
  split; [|split; [by unfold gm_process; intros ->|]].
  - intros Ha Hp Hn. unfold gm_process. rewrite Ha. cbn [negb]. unfold gm_recv. cbn [recv_loop].
    assert (find_start (gm_input g) = ([], false)) as ->; [|unfold detach; cbn; by rewrite Hp]. clear Hp. induction Hn as [|c l [H1 H2] _ IH]; [done|]. cbn [find_start].
    rewrite (proj2 (Z.eqb_neq c _)), (proj2 (Z.eqb_neq c GMStart)) by done. exact IH.
  - apply recv_loop_fuel. lia.
Qed.

(** C17: a start request boots the domain it names, in that domain's memory.
    Over any memory with a byte per domain and address, for a domain that can
    boot and whose addresses it may use: the request is acknowledged, the thread
    of that number runs, at the kernel's entry in long mode with the domain's
    number in its QoS register; every other thread, domain and resource is as
    it was, and so is every byte of every other domain. *)
Theorem startup_boots {R} `{!TextResource R} {M} (sendFunctional : M → Packet → result (M * Packet)) (kernelFile : option ObjectFile) (mask0 : Z)
    line byte_at reach ok `{!FuncMemory line sendFunctional byte_at reach ok} (g : GlobalManager R M) (l rest : list Z) (id hi : Z) (ld : PARDg5VLDomain) (tc : ThreadContext) :
  gm_attached g = true → noise l → gm_input g = l ++ framed (domain_request GMStartupLDomVM id) ++ rest →
  domains_wf (gm_system g) → 0 ≤ id < 256 → sys_domains (gm_system g) !! Z.to_nat id = Some (Some ld) → sys_threadContexts (gm_system g) !! Z.to_nat id = Some tc →
  bootable hi ld → pp_cacheLineSize (ld_physProxy ld) = line → isPowerOf2 line = true → 0 < line < 2 ^ 31 →
  ok (gm_memory g) → (∀ x, 0 ≤ x < hi → reach id x) → tlbs_wf tc →
  ∃ g' ld' tc', gm_process sendFunctional kernelFile mask0 g = Ok (g', true) ∧ gm_output g' = gm_output g ++ [GMGoodP] ∧ gm_input g' = rest ∧
    gm_resources g' = gm_resources g ∧ kernel_started ld tc' ∧
    sys_threadContexts (gm_system g') = <[Z.to_nat id := (tc' <| tc_status := Active |>)]> (sys_threadContexts (gm_system g)) ∧
    sys_domains (gm_system g') = <[Z.to_nat id := Some ld']> (sys_domains (gm_system g)) ∧ domains_wf (gm_system g') ∧
    ok (gm_memory g') ∧ ∀ d x, reach d x → d ≠ id → byte_at (gm_memory g') d x = byte_at (gm_memory g) d x.
Proof.
  intros Ha Hn Hi Hw Hid Hld Htc Hb Hcl Hpow Hl Hok Hr Ht. pose proof Hw as (Hnum & Hlen & Hall).
  destruct (Hall _ _ Hld) as (ld0 & [= <-] & Hdom & Htag). rewrite Z2Nat.id in Hdom, Htag by lia.
  assert (Forall field [[GMStartupLDomVM]; decimal id]) as HF.
  { repeat apply Forall_cons_2; [by apply field_command|apply field_decimal; lia|apply Forall_nil_2]. }
  destruct (request_fields _ HF) as (Hs & He & Hz). fold (domain_request GMStartupLDomVM id) in *.
  assert (id < sys_numDomains (gm_system g)) as Hlt by (apply lookup_lt_Some in Hld; lia).
  assert (length (domain_request GMStartupLDomVM id) < data_size)%nat as Hsz.
  { unfold domain_request. cbn [joined]. rewrite !length_app. cbn [length].
    pose proof (dec_digits_length 20%nat id []) as Hdl. cbn [length] in Hdl. unfold decimal. assert (26 < data_size)%nat by (apply Nat.ltb_lt; vm_compute; reflexivity). lia. }
  rewrite (process_packet sendFunctional kernelFile mask0 g l (domain_request GMStartupLDomVM id) rest) by done.
  unfold gm_command. rewrite c_str_id by done. cbv zeta. rewrite Hs. change (hd 0 (domain_request GMStartupLDomVM id)) with GMStartupLDomVM.
  cbn [Z.eqb Pos.eqb GMSet GMQuery GMCreateLDom GMDestroyLDom GMStartupLDomVM length Nat.eqb negb lookup list_lookup default].
  set (g0 := said (g <| gm_input := rest |>) [GMGoodP]). unfold startupLDomVM, Datatypes.id. rewrite atoi_decimal, (wrap_small 16) by (unfold in_width; lia). cbv zeta.
  change (gm_system g0) with (gm_system g). unfold getPARDg5VLDomain. rewrite (proj2 (Z.ltb_lt _ _) Hlt).
  assert (at_ (sys_domains (gm_system g)) id = Ok (Some ld)) as -> by (apply at_Ok; split; [lia|exact Hld]). cbn [mbind result_bind].
  unfold getThreadContext. assert (at_ (sys_threadContexts (gm_system g)) id = Ok tc) as -> by (apply at_Ok; split; [lia|exact Htc]). cbn [mbind result_bind].
  destruct (initBSPState_spec hi ld tc Hb Ht) as (l1 & l2 & ld' & tc' & W & I & _ & K & _ & (D1 & D2 & _)).
  unfold boot_domain. unfold writes in W. rewrite W. cbn [mbind result_bind].
  destruct (perform_spec sendFunctional line byte_at reach ok (ld_physProxy ld) (conj Hcl (conj Hpow Hl)) ltac:(rewrite Htag; lia) (l1 ++ pt_log ++ l2) (gm_memory g) Hok) as (m' & P & Hok' & Hby).
  { pose proof (bt_hi _ _ Hb). eapply Forall_impl; [exact I|]. intros [a data] [A1 A2]. cbn [fst snd] in *. unfold blob_region.
    split; [unfold in_width; lia|]. split; [lia|]. split; [lia|]. intros x Hx. rewrite Htag, guest_small by lia. apply Hr. lia. }
  change (gm_memory g0) with (gm_memory g). change (gm_system g0) with (gm_system g). rewrite P. cbn [mbind result_bind]. rewrite Htag, guest_small in Hby by lia.
  assert (upd_at (sys_domains (gm_system g)) id (Some ld') = Ok (<[Z.to_nat id := Some ld']> (sys_domains (gm_system g)))) as ->.
  { apply upd_at_Ok. apply lookup_lt_Some in Hld. split; [lia|done]. }
  assert (upd_at (sys_threadContexts (gm_system g)) id (tc' <| tc_status := Active |>) = Ok (<[Z.to_nat id := (tc' <| tc_status := Active |>)]> (sys_threadContexts (gm_system g)))) as ->.
  { apply upd_at_Ok. apply lookup_lt_Some in Htc. split; [lia|done]. }
  cbn [mbind result_bind]. eexists _, ld', tc'. split; [reflexivity|]. do 3 (split; [reflexivity|]). split; [exact K|]. split; [reflexivity|]. split; [reflexivity|].
  split; [|split; [exact Hok'|intros d x Hx Hd; cbn; rewrite Hby by done; by rewrite decide_False]].
  split; [cbn; by rewrite length_insert|]. split; [cbn; by rewrite length_insert|]. cbn. intros i d Hd.
  apply list_lookup_insert_Some in Hd as [(<- & <- & _)|[_ Hd]]; [|by apply Hall]. exists ld'. rewrite D1, D2, Z2Nat.id by lia. done.
Qed.

(** The system of the boot examples under a manager, and a request to start domain 1. *)
Lemma startup_boots_witness :
  ∃ sm t g g' tc', TLB_make 2 = Ok t ∧
    g = mkGM (R := LRU) ∅ true 7 true (mkSystem [Some (demo_domain sm 0); Some (demo_domain sm 1)] 2 64 [demo_thread t; demo_thread t]) (mem_data demo_ram)
          (str_bytes "$S:1#") [] ∧
    gm_process (mapped_access demo_mib 0) None 0 g = Ok (g', true) ∧ gm_output g' = str_bytes "+" ∧
    sys_threadContexts (gm_system g') !! 1%nat = Some tc' ∧ tc_status tc' = Active ∧ sys_threadContexts (gm_system g') !! 0%nat = Some (demo_thread t) ∧
    reg tc' MISCREG_QR0 = 1 ∧ tc_pcState tc' = PCState_make 0x1000.
Proof.
  destruct (TLB_make_ok 2) as (t & Ht & Hinv & He); [done|]. destruct demo_domain_bootable as [sm Hb]. exists sm, t.
  pose proof (mapped_memory demo_mib 0 64 0x200000 ltac:(lia) demo_mib_wf ltac:(by repeat constructor) ltac:(lia)) as FM.
  destruct (startup_boots (R := LRU) (mapped_access demo_mib 0) None 0 64 (domain_byte demo_mib 0) (domain_reach demo_mib 0 0x200000) (full_memory 0x200000)
    (mkGM ∅ true 7 true (mkSystem [Some (demo_domain sm 0); Some (demo_domain sm 1)] 2 64 [demo_thread t; demo_thread t]) (mem_data demo_ram) (str_bytes "$S:1#") [])
    [] [] 1 0x100000 (demo_domain sm 1) (demo_thread t)) as (g' & ld' & tc' & H1 & H2 & _ & _ & K & H3 & _).
  - reflexivity.
  - apply Forall_nil_2.
  - reflexivity.
  - split; [reflexivity|]. split; [reflexivity|]. intros [|[|i]] d Hd; [injection Hd as <-|injection Hd as <-|discriminate Hd]; (eexists; split; [reflexivity|split; reflexivity]).
  - lia.
  - reflexivity.
  - reflexivity.
  - apply Hb.
  - reflexivity.
  - reflexivity.
  - lia.
  - apply (so_full _ _ _ _ (so_memory _ _ _ _ _ demo_ram_ok)).
  - exact demo_mib_owns.
  - split; exists ∅; exact Hinv.
  - eexists _, g', _. split; [exact Ht|]. split; [reflexivity|]. split; [exact H1|]. split; [exact H2|]. rewrite H3. split; [reflexivity|]. split; [reflexivity|]. split; [reflexivity|].
    split; [exact (ks_domain _ _ K)|exact (ks_pc _ _ K)].
Defined.

(** ** Any sequence of events *)

Section Events.

Context {R : Type} `{!TextResource R} {M : Type} (sendFunctional : M → Packet → result (M * Packet)) (kernelFile : option ObjectFile) (mask0 : Z).
Implicit Types g : GlobalManager R M.

(** What happens to a manager: connections, data or errors on them, resources
    that register, commands at the console. *)
Inductive gm_step : GlobalManager R M → GlobalManager R M → Prop :=
| gs_accept g sfd sent : sfd = -1 ∨ 0 ≤ sfd → gm_step g (gm_accept g sfd sent)
| gs_event g pollin pollnval g' : gm_event sendFunctional kernelFile mask0 g pollin pollnval = Ok g' → gm_step g g'
| gs_register g name r g' : registerManagedResource g name r = Ok g' → gm_step g g'
| gs_create g argc g' : cmd_create_ldom kernelFile mask0 g argc = Ok g' → gm_step g g'
| gs_startup g argv g' : cmd_startup_ldom sendFunctional g argv = Ok g' → gm_step g g'.

(** The state the code relies on. *)
Record manager_ok g : Prop := {
  mo_polled : gm_polled g = gm_attached g;
  mo_fd : if gm_attached g then 0 ≤ gm_fd g else gm_fd g = -1;
  mo_output : Forall (in_width 8) (gm_output g);
  mo_domains : domains_wf (gm_system g)
}.
(** The connection and the domains of [g'] are those of [g], but for bytes sent. *)
Record quiet g g' : Prop := {
  qt_polled : gm_polled g' = gm_polled g;
  qt_attached : gm_attached g' = gm_attached g;
  qt_fd : gm_fd g' = gm_fd g;
  qt_output : Forall (in_width 8) (gm_output g) → Forall (in_width 8) (gm_output g');
  qt_domains : domains_wf (gm_system g) → Z.of_nat (length (sys_domains (gm_system g))) + 1 < 2 ^ 16 → domains_wf (gm_system g')
}.
Lemma quiet_ok g g' : quiet g g' → manager_ok g → Z.of_nat (length (sys_domains (gm_system g))) + 1 < 2 ^ 16 → manager_ok g'.
Proof. intros [Q1 Q2 Q3 Q4 Q5] [M1 M2 M3 M4] Hl. split; [congruence|by rewrite Q2, Q3|auto|auto]. Qed.
Lemma said_quiet g out : Forall (in_width 8) out → quiet g (said g out).
Proof. intros H. split; try done. intros Ho. cbn. by apply Forall_app. Qed.
Lemma gm_send_quiet g s : quiet g (gm_send g s).
Proof.
  unfold gm_send. rewrite !putbyte_said, putbytes_said, !said_said. apply said_quiet, Forall_app. split; [by repeat constructor|].
  apply Forall_app. split; [|by repeat constructor]. apply Forall_fmap, Forall_true. intros b. cbn. apply wrap_range. lia.
Qed.

Lemma createLDom_quiet g g' id : createLDom kernelFile mask0 g = Ok (g', id) → quiet g g'.
Proof.
  unfold createLDom. intros H. inv_ok. destruct a as [sys ld]. inv_ok. split; try done. cbn. intros Hw Hl.
  by eapply LDomain_make_wf.
Qed.

Lemma boot_domain_quiet g id ld tc st g' :
  at_ (sys_domains (gm_system g)) id = Ok (Some ld) → boot_domain sendFunctional g id ld tc st = Ok g' → quiet g g'.
Proof.
  intros [H0 Hld]%at_Ok H. unfold boot_domain in H. inv_ok. destruct a as [log [ld' tc']]. inv_ok. apply initBSPState_same_domain in E as (D1 & D2 & _).
  apply upd_at_Ok in E1 as [Hi ->]. split; try done. cbn. intros (Hn & Hl & Hd) _. split; [cbn; by rewrite length_insert|]. split; [cbn; by rewrite length_insert|].
  cbn. intros i d Hx. apply list_lookup_insert_Some in Hx as [(<- & <- & _)|[_ Hx]]; [|by apply Hd].
  destruct (Hd _ _ Hld) as (ld0 & [= <-] & Hid & Ht). exists ld'. by rewrite D1, D2.
Qed.

Lemma quiet_refl g : quiet g g.
Proof. by split. Qed.

Lemma getPARDg5VLDomain_at sys id ld : getPARDg5VLDomain sys id = Ok (Some ld) → at_ (sys_domains sys) id = Ok (Some ld).
Proof. unfold getPARDg5VLDomain. by destruct (id <? _). Qed.

Lemma startup_quiet g id g' : startupLDomVM sendFunctional g id = Ok g' → quiet g g'.
Proof.
  unfold startupLDomVM. cbv zeta. intros H. inv_ok. destruct a as [ld|]; [|injection H as <-; apply gm_send_quiet]. inv_ok.
  apply getPARDg5VLDomain_at in E. by eapply boot_domain_quiet.
Qed.
Lemma shutdown_quiet g id g' : shutdownLDomVM sendFunctional g id = Ok g' → quiet g g'.
Proof.
  unfold shutdownLDomVM. cbv zeta. intros H. inv_ok. destruct a as [ld|]; [|done]. apply getPARDg5VLDomain_at in E. by eapply boot_domain_quiet.
Qed.

(** A change of the connection's input and of resources only. *)
Lemma quiet_said_of g g1 g' : quiet g g1 → quiet g1 g' → gm_system g1 = gm_system g → quiet g g'.
Proof. intros [A1 A2 A3 A4 A5] [B1 B2 B3 B4 B5] Hs. split; [congruence..|auto|]. rewrite Hs in B5. auto. Qed.

Lemma setResource_quiet g name guest index value g' : setResource g name guest index value = Ok g' → quiet g g' ∧ gm_system g' = gm_system g.
Proof. unfold setResource. intros H. destruct (getResource g name); inv_ok; by split. Qed.

Lemma gm_command_quiet g data g' : gm_command sendFunctional kernelFile mask0 g data = Ok g' → quiet g g'.
Proof.
  unfold gm_command. cbv zeta. intros H.
  destruct (_ =? GMSet). { destruct (negb _); [injection H as <-; apply gm_send_quiet|]. inv_ok. apply setResource_quiet in E as [Q Es]. by eapply quiet_said_of; [|apply gm_send_quiet|]. }
  destruct (_ =? GMQuery). { destruct (negb _); [injection H as <-; apply gm_send_quiet|]. inv_ok. apply gm_send_quiet. }
  destruct (_ =? GMCreateLDom). { inv_ok. destruct a as [g1 id]. inv_ok. by eapply createLDom_quiet. }
  destruct (_ =? GMDestroyLDom). { destruct (negb _); injection H as <-; [apply gm_send_quiet|apply quiet_refl]. }
  destruct (_ =? GMStartupLDomVM). { destruct (negb _); [injection H as <-; apply gm_send_quiet|]. by eapply startup_quiet. }
  destruct (_ =? GMShutdownLDomVM). { destruct (negb _); [injection H as <-; apply gm_send_quiet|]. by eapply shutdown_quiet. }
  injection H as <-. apply gm_send_quiet.
Qed.

Lemma input_quiet g l : quiet g (g <| gm_input := l |>).
Proof. by split. Qed.
Lemma recv_loop_quiet fuel size maxlen g g' data : recv_loop fuel size maxlen g = Ok (g', data) → quiet g g' ∧ gm_system g' = gm_system g.
Proof.
  revert g. induction fuel as [|fuel IH]; intros g H; [done|]. cbn [recv_loop] in H. destruct (find_start (gm_input g)) as [l []]; [|injection H as <- _; split; [apply input_quiet|done]].
  destruct (read_data maxlen l []) as [l' d]. destruct (decide _); [|done].
  assert (∀ b, quiet g (putbyte (g <| gm_input := l' |>) b)) as Hq.
  { intros b. eapply quiet_said_of; [apply (input_quiet g l')| |done]. rewrite putbyte_said. apply said_quiet. constructor; [|constructor]. apply wrap_range. lia. }
  destruct (decide _); [injection H as <- _; split; [apply Hq|done]|]. apply IH in H as [Q Hs]. split; [|exact Hs]. eapply quiet_said_of; [apply (Hq GMBadP)|exact Q|done].
Qed.

Lemma detach_ok g g' : detach g = Ok g' → manager_ok g → manager_ok g'.
Proof. unfold detach. intros H [_ _ Ho Hd]. inv_ok. by split. Qed.

Lemma process_ok g g' b :
  gm_process sendFunctional kernelFile mask0 g = Ok (g', b) → manager_ok g → Z.of_nat (length (sys_domains (gm_system g))) + 1 < 2 ^ 16 → manager_ok g'.
Proof.
  unfold gm_process. intros H Hok Hl. destruct (negb (gm_attached g)); [by injection H as <- _|]. inv_ok. destruct a as [g1 data].
  apply recv_loop_quiet in E as [Q1 Hs1]. pose proof (quiet_ok _ _ Q1 Hok Hl) as Hok1. destruct data as [data|]; [|inv_ok; by eapply detach_ok].
  inv_ok. apply gm_command_quiet in E. eapply quiet_ok; [exact E|exact Hok1|]. by rewrite Hs1.
Qed.

End Events.

(** C27: the manager keeps its state consistent through any sequence of events.
    From a new manager over a well-formed list of domains, whatever connects,
    whatever bytes arrive, however resources register and console commands are
    given: the connection is polled exactly while one is attached and has a
    descriptor exactly then; everything sent is a byte; and the list of domains
    stays dense, each domain known by its number and reading memory with its own
    tag, as long as the numbers of domains fit 16 bits. *)
Theorem manager_invariant {R} `{!TextResource R} {M} (sendFunctional : M → Packet → result (M * Packet)) (kernelFile : option ObjectFile) (mask0 : Z)
    (sys : X86PARDg5VSystem) (m : M) (g : GlobalManager R M) :
  domains_wf sys →
  rtc (λ g g', gm_step sendFunctional kernelFile mask0 g g' ∧ Z.of_nat (length (sys_domains (gm_system g))) + 1 < 2 ^ 16) (GlobalManager_make sys m) g →
  manager_ok g.
Proof.
  intros Hsys Hr. assert (manager_ok (GlobalManager_make (R := R) sys m)) as H0 by (by split).
  induction Hr as [g|g1 g2 g3 [Hs Hl] _ IH]; [exact H0|]. apply IH. clear IH. destruct Hs as [g sfd sent Hf|g pollin pollnval g' He|g name r g' He|g argc g' He|g argv g' He].
  - unfold gm_accept. destruct (Z.eqb_spec sfd (-1)); [done|]. destruct (gm_attached g); [done|]. destruct H0 as [_ _ _ Hd]. split; [done|cbn; lia|constructor|done].
  - unfold gm_event in He. destruct pollin; [inv_ok; destruct a as [g1 b]; inv_ok; by eapply process_ok|]. destruct pollnval; [by eapply detach_ok|by injection He as <-].
  - unfold registerManagedResource in He. inv_ok. by destruct H0.
  - unfold cmd_create_ldom in He. destruct (argc =? 1)%nat; [|by injection He as <-]. inv_ok. destruct a as [g1 id]. inv_ok. apply createLDom_quiet in E. by eapply quiet_ok.
  - unfold cmd_startup_ldom in He. destruct (length argv =? 2)%nat; [|by injection He as <-]. apply startup_quiet in He. by eapply quiet_ok.
Qed.

(** A connection, a domain created and one that does not exist started. *)
Lemma manager_invariant_witness :
  ∃ g, rtc (λ g g', gm_step no_memory (Some demo_kernel) 0 g g' ∧ Z.of_nat (length (sys_domains (gm_system g))) + 1 < 2 ^ 16)
      (GlobalManager_make (R := LRU) (mkSystem [] 0 64 []) ()) g ∧
    manager_ok g ∧ length (sys_domains (gm_system g)) = 1%nat ∧ gm_output g = str_bytes "++$INVALID#" ∧ gm_fd g = 7.
Proof.
  pose proof (manager_invariant (R := LRU) no_memory (Some demo_kernel) 0 (mkSystem [] 0 64 []) ()) as H.
  eexists. assert (∀ P Q S T : Prop, P → (P → Q) → S → T → P ∧ Q ∧ S ∧ T) as Hc by tauto. apply Hc; clear Hc.
  - eapply rtc_l; [split; [apply (gs_accept _ _ _ _ 7 (str_bytes "$C#$S:5#")); by right|reflexivity]|].
    eapply rtc_l; [split; [eapply (gs_event _ _ _ _ true false); vm_compute; reflexivity|reflexivity]|].
    eapply rtc_l; [split; [eapply (gs_event _ _ _ _ true false); vm_compute; reflexivity|reflexivity]|]. apply rtc_refl.
  - intros Hr. apply H; [|exact Hr]. split; [reflexivity|]. split; [reflexivity|]. intros i d Hi. discriminate Hi.
  - reflexivity.
  - split; reflexivity.
Defined.

(** ** Where the manager fails *)

(** The buffer of [process] has no room for the terminator of a packet as long
    as [recv] is told it is: one byte is written past its end. *)
Lemma long_packet_overflows {R} `{!TextResource R} {M} (g : GlobalManager R M) data rest :
  GMEnd ∉ data → length data = data_size → gm_input g = [GMStart] ++ data ++ rest → gm_recv data_size data_size g = Err OutOfBounds.
Proof.
  intros He Hl Hi. unfold gm_recv. cbn [recv_loop]. rewrite Hi. change (find_start ([GMStart] ++ data ++ rest)) with (data ++ rest, true).
  assert (∀ room acc, GMEnd ∉ data → length data = room → length (read_data room (data ++ rest) acc).2 = (length acc + room)%nat) as Hr.
  { clear. induction data as [|c data IH]; intros room acc He <-; cbn [app length].
    - destruct rest as [|c rest]; cbn; [lia|]. destruct (c =? GMEnd); cbn; lia.
    - apply not_elem_of_cons in He as [Hc He]. cbn [read_data getbyte]. rewrite (proj2 (Z.eqb_neq c GMEnd)) by (intros ->; done). rewrite IH by done. rewrite length_app. cbn. lia. }
  specialize (Hr data_size [] He Hl). cbv beta iota. destruct (read_data data_size (data ++ rest) []) as [l d]. cbn [snd length] in Hr. rewrite decide_False by lia. done.
Qed.

(** A session that ends inside a packet does the same: the end reads as 0xFF
    until the buffer is full. *)
Lemma broken_packet_overflows : gm_process no_memory None 0 (demo_manager (str_bytes "$q:l2:1:0")) = Err OutOfBounds.
Proof. vm_compute. reflexivity. Qed.

(** Stopping a domain that does not exist dereferences a null pointer. *)
Lemma shutdown_unknown {R} `{!TextResource R} {M} sendFunctional (g : GlobalManager R M) id tc :
  sys_numDomains (gm_system g) ≤ wrap 16 id → at_ (sys_threadContexts (gm_system g)) (wrap 16 id) = Ok tc →
  shutdownLDomVM sendFunctional g id = Err NullDeref.
Proof. intros H Ht. unfold shutdownLDomVM, getPARDg5VLDomain, getThreadContext. cbv zeta. rewrite (proj2 (Z.ltb_ge _ _)) by exact H. cbn [mbind result_bind]. by rewrite Ht. Qed.
